(* ===== verification/_CoqProject ===== *)
-Q . S2P
Prelude.v
Simrisc.v
Opcodes.v
Cpu.v
Tcg.v
Translate.v
Run.v
RefBackend.v
IsaArith.v
IsaMove.v
IsaMem.v
IsaControl.v
IsaSys.v
RetStack.v
Frame.v
Decode.v
Step.v
Isa.v
Total.v
IsaProps.v
Fpu.v
Mmu.v
Emu.v
EmuProps.v
Disas.v
DisasProps.v
DisasQemu.v
GasData.v
Gas.v
GasProps.v
GasEncode.v
GasExec.v
GasMoves.v
GasRelax.v
GasFix.v
GasBranch.v
GasWitness.v
Bfd.v
BfdFill.v
BfdLink.v
BfdRelax.v
BfdRelaxProps.v
BfdWitness.v
Gcc.v
GccFrame.v
GccFrameProps.v
GccPrint.v
GccWords.v
GccAsm.v
GccProps.v
GccCall.v
LlvmData.v
LlvmMc.v
LlvmLower.v
LlvmIsel.v
LlvmIselProps.v
LlvmEncode.v
LlvmExec.v
LlvmFix.v
LlvmLink.v
LlvmConst.v
LlvmInstr.v
LlvmInstrProps.v
LlvmFrame.v
LlvmFrameProps.v
LlvmCall.v
LlvmCallProps.v
LlvmAsm.v
LlvmAsmProps.v
LinuxAtomic.v
LinuxAtomicProps.v
Linux.v
LinuxProps.v
Runtime.v
RuntimeMem.v
RuntimeProps.v
RuntimeIO.v
RuntimeWitness.v
Newlib.v
NewlibProps.v
