(* ===== verification/Prelude.v ===== *)
(** * DADAO: a verification library for the tool chain of the simRISC machine

    DADAO is a 64-bit instruction set with four register files (rd data, rb
    base, rf floating point, ra return addresses; 64 registers each) and its
    tool chain: an emulator, a disassembler, an assembler, a linker back end
    and a compiler back end.  One description file generates the tables all
    of them are built with.  This library models them in C's terms and proves
    that they agree: that the emulator implements the instruction set, that
    what the assembler encodes the emulator decodes, that what the linker
    fills in leads to the symbol, that what the two compilers, GCC and LLVM,
    put out performs what it stands for, that the kernel's atomic operations
    are atomic on the emulator, that the bare-metal runtime prints what its
    formats mean, that the C library's system calls and setjmp do what C
    expects of them.

    ** The parts and how they meet

    - _The description._  src/DADAO-opcodes/simrisc.opcodes is the value
      [simrisc_opcodes] (Simrisc); the generator parse-opcodes.py is Opcodes,
      whose outputs [insns_decode], [insn_opc], [encoding] and
      [dadao_disassemble_opcodes] are computed from it, not copied.
    - _The emulator_ (src/SIM-qemu/qemu-0801-newfiles).  Cpu is the state of
      target/dadao/cpu.h and cpu.c; Tcg is QEMU's intermediate code, a list
      of operations run by [exec]; Translate is translate.c as a generator
      monad over the DisasContext; Run runs an instruction; Decode is the
      decoder QEMU generates from insns.decode; Step is a whole instruction
      from the fetched word to the exit of its block.  Fpu is helper-fpu.c,
      Mmu softmmu.c and helper.c, Emu linux-user/dadao/cpu_loop.c with the
      signal frame of signal.c.
    - _The instruction set as a specification._  IsaArith, IsaMove, IsaMem,
      IsaControl and IsaSys give each class of instructions its meaning as a
      function of state and memory and show that the generator of translate.c
      computes it; Isa collects them in one table [isa] and IsaProps states
      the refinement.  Frame and Total are about generators in general,
      RetStack is the return-address stack as an abstract list.
    - _The disassemblers._  Disas is opcodes/dadao-dis.c, DisasProps its
      agreement with the decoder; DisasQemu is the emulator's own
      disas/dadao.c and its agreement with Disas.
    - _The assembler._  GasData is include/opcode/dadao.h, opcodes/dadao-opc.c
      and md_begin; Gas is the front end of gas/config/tc-dadao.c, a line of
      text to the calls on gas's frags; GasRelax is its back end, frags to
      instructions, fixups and relocations.  GasProps, GasEncode, GasExec,
      GasMoves, GasFix and GasBranch hold the theorems, GasWitness concrete
      inputs.
    - _The linker._  Bfd is the howto table of bfd/elf64-dadao.c and the
      application of relocations, BfdRelax the order of relocations and the
      relaxation of sections; BfdFill, BfdLink and BfdRelaxProps hold the
      theorems, BfdWitness concrete inputs.
    - _The GCC back end._  Gcc is gcc/config/dadao/dadao.h and the hooks of dadao.c
      on registers, arguments, constants and addresses; GccFrame is
      elimination, prologue and epilogue; GccPrint is the output of operands,
      loads, stores and calls.  GccFrameProps, GccWords, GccAsm,
      GccProps and GccCall hold the theorems and concrete inputs.
    - _The LLVM back end_ (src/TCH-llvm/llvm-1600-newfiles/llvm/lib/Target/
      Dadao).  LlvmData is the registers, the condition codes and the rows of
      DadaoInstrInfo.td; LlvmMc the code emitter, the fixups, the relocations
      and the operand decoders of MCTargetDesc and Disassembler; LlvmLower the
      nodes of the selection DAG with their values and the lowering of
      comparisons, branches, selects and wide shifts and the combines of
      DadaoISelLowering.cpp; LlvmCall its calls, arguments and results with
      DadaoCallingConv; LlvmIsel is DadaoISelDAGToDAG.cpp and the constant
      patterns; LlvmInstr is DadaoInstrInfo.cpp and DadaoMCInstLower.cpp;
      LlvmFrame is DadaoFrameLowering.cpp and DadaoRegisterInfo.cpp; LlvmAsm
      is the text parser DadaoAsmParser.cpp and DadaoInstPrinter.cpp.
      LlvmIselProps, LlvmEncode, LlvmExec, LlvmFix, LlvmLink, LlvmConst,
      LlvmInstrProps, LlvmFrameProps, LlvmCallProps and LlvmAsmProps hold the
      theorems and concrete inputs.

    - _The kernel port_ (src/ENV-linux/linux-0504-newfiles/arch/dadao/
      include/asm).  LinuxAtomic is atomic.h, assembly templates and the
      relation of running one while other processors write; Linux is the
      page tables, the saved registers and the system-call accessors.
      LinuxAtomicProps and LinuxProps hold the theorems.
    - _The bare-metal runtime_ (src/DADAO-testset/dhrystone-bare/common).
      Runtime is syscalls.c and util.h: memory and strings, formatted output
      over any putch, the host interface of tohost and fromhost, the start-up
      code.  RuntimeMem holds the theorems on memory and strings, RuntimeProps
      the simulation of any putch by the list of characters and the meaning
      of a format, RuntimeIO the buffer, the host, sprintf, atol and
      termination, RuntimeWitness concrete inputs.
    - _The C library port_ (src/TCH-newlib-cygwin/newlib-cygwin-0303-newfiles/
      newlib/libc/sys/dadao).  Newlib is the system-call templates and the C
      functions on them, and setjmp.S, as lines that the assembler's rows
      encode; NewlibProps runs their words on the emulator's loop.

    The parts meet in words and in text.  [step] is the meaning of a word; the
    theorems on the assembler, the linker and the compiler are stated with it
    (through [run_words] for sequences), so each is about execution and not
    about another table.  The compiler's text is read by the model of
    md_assemble, whose tables are those of the generator; LLVM's instructions
    are encoded by its own encoder, decoded by the emulator, resolved by its
    own backend or by the model of GNU ld, and run by [step].

    ** Names and representation

    Definitions have the names of the code's functions, macros, constants and
    fields.  A machine integer is a [Z] with its wrap-around written out
    ([w32], [w64], [s32], [s64] below); an array is a list, and an index
    outside it is [None] or, for the emulator's register arrays, the outcome
    [GOob].  An assertion, an abort or undefined behaviour of the C code is
    [None].  What a function does to an object it does not own (frags, output
    streams, tables of the host program) is the list of its calls.  A
    definition that stands for part of a function (a loop's step, a branch of
    a switch) has its own name and is used by the definition of the function.

    ** The theorems

    Their comments number them C1 to C40.

    - C1 to C7, IsaProps: every instruction of the table, translated and run,
      does what the specification says (arithmetic, memory, moves, division,
      control); translation is safe except for ranges of registers that leave
      the file; the words of calls and returns are push and pop on a list of
      return addresses.  Lemmas beside them: the
      floating-point and the system instructions, words of no instruction,
      decoding is unambiguous, the specification covers the table.
    - C8 and C9, Mmu and EmuProps: the page walk and the permissions it gives;
      rd0 is zero in every reachable emulator state, but behind a
      floating-point compare into it.  Lemmas: every reachable state has full
      register files and 64-bit values (Emu), the system call
      convention (Emu), exception flags, classification, sign injection
      (Fpu), the fill of the TLB, control registers, the signal trampoline.
    - C10, DisasProps: the disassembler agrees with the decoder.  Lemma: the
      two disassemblers agree.
    - C11 to C13, the assembler: encoding is inverted by the emulator's
      decoding; setrd, setrb and setrf load the constant; the expansion of
      branches to long branches.  Lemmas: accepted multiple-register
      instructions are safe (GasMoves), the fields of branch offsets (GasFix),
      the tables lose no row, copies of registers, the estimate of branch
      lengths.
    - C14 to C17, the linker: absolute addresses and branches executed after
      relocation; deleted bytes keep relocations and symbols in place;
      relaxation ends.  C14 is about setzw and C15 gives the distances that
      are accepted and those that are reached.  Lemma: the adrp pair.
    - C18 to C21, GCC: the epilogue undoes the prologue; a load or store runs
      as the access of its RTL, through the assembler; a call through a
      register enters the callee and the return comes back; where arguments
      go, those passed by reference included.  C19 is about integers at
      direct addresses.  Lemma: what register elimination assumes of the frame.
    - C22 to C24, the kernel: an atomic function takes effect at one
      instruction whatever other processors do between its instructions, and
      ends when they leave the word alone; the page tables that are built are
      those that are walked.  Lemmas: flags of an entry, system-call
      accessors and what is wrong with them.
    - C25 to C27, C30 to C32, LLVM's instructions: what selection assumes of
      an instruction is what the emulator computes for its encoding; encoding
      is inverted by decoding, printing by parsing where the operands are
      printable; constants, resolved branches and linked symbol addresses as
      run.
    - C28 and C29, LLVM's selection: comparisons and combines keep the value
      and the type of what they replace.  Lemma: the branch of a comparison.
    - C33 to C35, LLVM's functions: the arguments of direct calls arrive; the calling conventions
      of the two compilers agree; the analysis of branches.  Lemma: the
      epilogue undoes the prologue (LlvmFrameProps).
    - C36 to C38, RuntimeIO: printf is the meaning of its format, through the
      buffer and the host; atol reads back what sprintf writes; vprintfmt
      ends on every input.  Lemmas: memcpy and memset, strcpy and strcmp,
      verify, lfsr permutes its states, printhex, the report of the counters
      fits its buffer.
    - C39 and C40, NewlibProps: a system-call function of the C library hands
      its operands to the kernel and its result back; longjmp returns from
      setjmp again with the registers and the return stack setjmp saved.
      Lemma: _sbrk hands out adjacent blocks while the break fits an int.

    Where the code departs from its comments the theorem states what the code
    does, and a lemma of GasWitness, BfdWitness, GccFrameProps, GccProps,
    GccCall, RuntimeWitness, NewlibProps or the Llvm files shows an input.

    ** Hypotheses

    Code outside the repository is a parameter with the laws the code relies
    on, each law set satisfied by a concrete instance that the witnesses use:
    [tcg_laws] (arithmetic and memory of TCG, instance [ref_backend]),
    [decodetree_laws] ([decode_ref]), the softfloat laws of Fpu, [HashLaws]
    (gas's hash tables, instance association lists), [octa_mem] and [octa_apart] (octas in
    memory), [gas_reads] (gas's expression parser on register names
    and numbers), [final_prints] and [call_prints] (gcc's expansion of output templates), the
    overflow check of BFD, [CCLaws] (LLVM's CCState, instance [list_cc]),
    [cas_law] and [values_64] (the memory of the emulator, instance
    [ref_backend]), [AsmLaws] (LLVM's lexer and expression parser, instance [plain_lexer]),
    [serves] (the host writes out the buffer a program gives it and answers,
    instance [host_now]), [helper_spares] and [host_spares] (neither a helper nor
    a system call writes rd0, instances [fpu_helper] and [ref_host]), [brk_law] (the kernel's brk, instance [demo_kernel]),
    [any_extend] (the undefined upper bits of a widened argument) and
    [big_shift] (the undefined result of a shift by 64 or more).  The order in
    which GCC's caller asks the argument hooks is that of its documentation
    ([assign_args] of GccProps: a pointer for what goes by reference).

    ** Fuel and bounds

    The do-while loops of multiple-register instructions run with
    [loop_fuel] = 66 rounds: a register index leaves the arrays after at most
    65 rounds, so the generator never runs out of fuel; C6 shows that it
    does not.  [exec_n] takes as many rounds as there are operations, which
    is enough because branches within a block only go forward.
    [relax_rounds] repeats the relaxation of a section until a pass asks for
    no other; C17 proves that one round more than the section has bytes is
    enough.  [hex_digits] and [dec_digits] take a round for each digit of
    their argument.  [parse_rest] takes a round for each operand and has as many
    as there are tokens left.  The loops of Runtime read one byte of memory a
    round and go on behind it, so more fuel than memory has bytes is enough;
    C38 proves it for vprintfmt, and the theorems on strings ask for more
    than the length of the string.  Waiting for the host ends when the host
    serves.  No other definition has fuel.

    ** Not modelled

    Printing for debugging, help texts and DWARF names; QOM registration,
    system-call bodies, signal delivery and devices of QEMU; the generators
    of Chisel patterns and test files; md_atof and the generic parts of gas
    and BFD; the cost and section hooks of GCC and the instruction patterns of
    its .md files; of the LLVM back end inline assembly, global addresses and
    constant pools, condition-code printing, the if-conversion of selects and
    the classes that register the target; of the kernel port what only calls
    the generic kernel, and its .c files, which are stubs; the hardware
    (Chisel); of the bare-metal programs the Dhrystone benchmark, which is
    third-party, crt.S and the macros of the test sets; of the C library port
    the macros of sys/syscall.h that nothing uses.  The copies of older
    versions under src/BACKUP are not built and are left aside. *)

From stdpp Require Export base numbers list gmap strings.
From Stdlib Require Export ZArith Lia.
#[export] Set Default Goal Selector "!".
Global Open Scope Z_scope.

(** ** Machine words

    Every machine integer is a [Z].  An unsigned [w]-bit value is kept in
    [0, 2^w); [w32] and [w64] are the wrap-around of C's unsigned types,
    [s32] and [s64] the reinterpretation as a signed type. *)
Definition w32 (x : Z) : Z := x mod 2^32.
Definition w64 (x : Z) : Z := x mod 2^64.
Definition sext (n x : Z) : Z :=
  if Z.testbit x (n - 1) then x mod 2^n - 2^n else x mod 2^n.
Definition s32 (x : Z) : Z := sext 32 x.
Definition s64 (x : Z) : Z := sext 64 x.

(** C's integer value of a truth value. *)
Definition b2z (b : bool) : Z := if b then 1 else 0.

(** ** Arrays

    C arrays indexed by an [int]; an index outside the array is [None]
    (undefined behaviour in C). *)
Definition zlookup {A} (l : list A) (i : Z) : option A :=
  if 0 <=? i then l !! Z.to_nat i else None.
Definition zupdate {A} (l : list A) (i : Z) (x : A) : list A :=
  if 0 <=? i then <[Z.to_nat i := x]> l else l.

(** ** Association lists by name *)
Fixpoint assoc {V} (k : string) (d : list (string * V)) : option V :=
  match d with
  | [] => None
  | (k', v) :: d => if (k =? k')%string then Some v else assoc k d
  end.

Lemma assoc_elem {V} k (d : list (string * V)) v : assoc k d = Some v -> (k, v) ∈ d.
Proof.
  induction d as [|[k' v'] d IH]; cbn; [done|].
  destruct (String.eqb_spec k k') as [->|]; [intros [= ->]; left | right; auto].
Qed.

(** ** Lemmas on words *)
Create HintDb word.
Create Rewrite HintDb word.

Lemma w64_range x : 0 <= w64 x < 2^64.
Proof. apply Z.mod_pos_bound. lia. Qed.
Lemma w32_range x : 0 <= w32 x < 2^32.
Proof. apply Z.mod_pos_bound. lia. Qed.
Lemma w64_id x : 0 <= x < 2^64 -> w64 x = x.
Proof. apply Z.mod_small. Qed.
Lemma w32_id x : 0 <= x < 2^32 -> w32 x = x.
Proof. apply Z.mod_small. Qed.
Lemma w64_w64 x : w64 (w64 x) = w64 x.
Proof. apply w64_id, w64_range. Qed.
Lemma w64_add_l x y : w64 (w64 x + y) = w64 (x + y).
Proof. apply Zplus_mod_idemp_l. Qed.
Lemma w64_add_r x y : w64 (x + w64 y) = w64 (x + y).
Proof. apply Zplus_mod_idemp_r. Qed.
Lemma b2z_range b : 0 <= b2z b < 2^64.
Proof. destruct b; cbn; lia. Qed.
#[export] Hint Resolve w64_range w32_range : word.
#[export] Hint Rewrite w64_w64 w64_add_l w64_add_r : word.

(** A disjunction with a shifted value adds when the low part fits. *)
Lemma lor_shiftl_add a b n :
  0 <= n -> 0 <= b < 2^n -> Z.lor (Z.shiftl a n) b = a * 2^n + b.
Proof.
  intros Hn Hb. rewrite <- Z.shiftl_mul_pow2 by lia.
  symmetry. apply Z.add_nocarry_lor, Z.bits_inj'. intros i Hi.
  rewrite Z.land_spec, Z.shiftl_spec, Z.bits_0 by lia.
  destruct (Z.ltb_spec i n).
  - rewrite Z.testbit_neg_r by lia. done.
  - rewrite <- (Z.mod_small b (2^n)), Z.mod_pow2_bits_high by lia.
    apply andb_false_r.
Qed.

Lemma lor_add_mul a b n :
  0 <= n -> 0 <= b < 2^n -> Z.lor (a * 2^n) b = a * 2^n + b.
Proof. intros. rewrite <- Z.shiftl_mul_pow2 at 1 by lia. by apply lor_shiftl_add. Qed.

(** Masking with 2^n - 1. *)
Lemma land_mask x m n : 0 <= n -> m = Z.ones n -> Z.land x m = x mod 2^n.
Proof. intros Hn ->. by apply Z.land_ones. Qed.
Lemma lor_range n x y : 0 <= n -> 0 <= x < 2^n -> 0 <= y < 2^n -> 0 <= Z.lor x y < 2^n.
Proof.
  intros Hn Hx Hy. rewrite <- (Z.mod_small x (2^n)), <- (Z.mod_small y (2^n)) by lia.
  rewrite <- !Z.land_ones, <- Z.land_lor_distr_l, Z.land_ones by lia. apply Z.mod_pos_bound. lia.
Qed.

(** Clearing the bits of a mask. *)
Lemma ldiff_sub_land x m : Z.ldiff x m = x - Z.land x m.
Proof.
  assert (Z.ldiff x m + Z.land x m = x); [|lia].
  rewrite Z.add_nocarry_lor; [apply Z.lor_ldiff_and|].
  rewrite Z.land_assoc, (Z.land_comm (Z.ldiff x m) x), <- Z.land_assoc.
  by rewrite Z.land_ldiff, Z.land_0_r.
Qed.

Lemma land_w64_lnot x m : 0 <= x < 2^64 -> Z.land x (w64 (Z.lnot m)) = Z.ldiff x m.
Proof.
  intros H. unfold w64. rewrite <- Z.land_ones, (Z.land_comm (Z.lnot m)), Z.land_assoc by lia.
  rewrite Z.land_ones, Z.mod_small by lia. by rewrite Z.ldiff_land.
Qed.

(** A field of [n] bits at position [k]. *)
Lemma land_field x k n : 0 <= k -> 0 <= n ->
  Z.land x (Z.shiftl (Z.ones n) k) = (x / 2^k mod 2^n) * 2^k.
Proof.
  intros Hk Hn. rewrite <- Z.shiftr_div_pow2, <- Z.land_ones, <- Z.shiftl_mul_pow2 by lia.
  apply Z.bits_inj'. intros i Hi. rewrite Z.land_spec, !Z.shiftl_spec by lia.
  destruct (Z.ltb_spec i k).
  - rewrite !(Z.testbit_neg_r _ (i - k)) by lia. apply andb_false_r.
  - rewrite Z.land_spec, Z.shiftr_spec by lia. do 2 f_equal. lia.
Qed.

Lemma sext_range n x : 0 < n -> - 2^(n-1) <= sext n x < 2^(n-1).
Proof.
  intros Hn. unfold sext.
  assert (H2 : 2^n = 2 * 2^(n-1)) by (rewrite <- Z.pow_succ_r by lia; f_equal; lia).
  assert (Hp : 0 < 2^(n-1)) by (apply Z.pow_pos_nonneg; lia).
  pose proof (Z.mod_pos_bound x (2^n)) as Hm.
  destruct (Z.testbit x (n-1)) eqn:E.
  - apply Z.testbit_true in E; [|lia].
    assert (x mod 2^n / 2^(n-1) = 1).
    { rewrite H2, Z.mul_comm, Z.rem_mul_r by lia.
      rewrite Z.mul_comm, Z.div_add by lia. rewrite Z.div_small by (apply Z.mod_pos_bound; lia). lia. }
    pose proof (Z.div_mod (x mod 2^n) (2^(n-1))).
    pose proof (Z.mod_pos_bound (x mod 2^n) (2^(n-1))). nia.
  - apply Z.testbit_false in E; [|lia].
    assert (x mod 2^n / 2^(n-1) = 0).
    { rewrite H2, Z.mul_comm, Z.rem_mul_r by lia.
      rewrite Z.mul_comm, Z.div_add by lia. rewrite Z.div_small by (apply Z.mod_pos_bound; lia). lia. }
    pose proof (Z.div_mod (x mod 2^n) (2^(n-1))).
    pose proof (Z.mod_pos_bound (x mod 2^n) (2^(n-1))). nia.
Qed.

Lemma sext_mod n x : 0 < n -> sext n x mod 2^n = x mod 2^n.
Proof.
  intros Hn. unfold sext. assert (0 < 2^n) by (apply Z.pow_pos_nonneg; lia).
  destruct (Z.testbit x (n-1)).
  - rewrite <- Zminus_mod_idemp_r, Z_mod_same_full, Z.sub_0_r. apply Z.mod_mod. lia.
  - apply Z.mod_mod. lia.
Qed.

(** A signed value that fits is recovered from its low bits. *)
Lemma sext_id n v : 0 < n -> - 2^(n-1) <= v < 2^(n-1) -> sext n v = v.
Proof.
  intros Hn Hv. pose proof (sext_range n v Hn). pose proof (sext_mod n v Hn) as Hm.
  assert (2^n = 2 * 2^(n-1)) by (rewrite <- Z.pow_succ_r by lia; f_equal; lia).
  assert (0 < 2^(n-1)) by (apply Z.pow_pos_nonneg; lia).
  assert (Hq : sext n v - v = 2^n * (sext n v / 2^n - v / 2^n)).
  { pose proof (Z.div_mod (sext n v) (2^n)). pose proof (Z.div_mod v (2^n)).
    rewrite Z.mul_sub_distr_l. lia. }
  assert (sext n v / 2^n - v / 2^n = 0) by nia. nia.
Qed.

(** Sign extension only reads the low [n] bits. *)
Lemma sext_congr n x y : 0 < n -> x mod 2^n = y mod 2^n -> sext n x = sext n y.
Proof.
  intros Hn H. unfold sext. rewrite H.
  rewrite <- (Z.mod_pow2_bits_low x n), H, Z.mod_pow2_bits_low by lia. done.
Qed.

Lemma zlookup_zupdate_eq {A} (l : list A) i x :
  0 <= i < Z.of_nat (length l) -> zlookup (zupdate l i x) i = Some x.
Proof.
  intros H. unfold zlookup, zupdate. rewrite (proj2 (Z.leb_le 0 i)) by lia.
  apply list_lookup_insert_eq. lia.
Qed.
Lemma zlookup_zupdate_ne {A} (l : list A) i j x :
  i <> j -> zlookup (zupdate l i x) j = zlookup l j.
Proof.
  intros H. unfold zlookup, zupdate.
  destruct (Z.leb_spec 0 i), (Z.leb_spec 0 j); try done.
  apply list_lookup_insert_ne. lia.
Qed.
Lemma length_zupdate {A} (l : list A) i x : length (zupdate l i x) = length l.
Proof. unfold zupdate. destruct (0 <=? i); [apply length_insert | done]. Qed.
Lemma zlookup_is_Some {A} (l : list A) i :
  is_Some (zlookup l i) <-> 0 <= i < Z.of_nat (length l).
Proof.
  unfold zlookup. destruct (Z.leb_spec 0 i).
  - rewrite lookup_lt_is_Some. lia.
  - split; [intros [? ?]; done | lia].
Qed.
#[export] Hint Rewrite @length_zupdate : word.

(** ** Automation *)

(** Case analysis on every boolean comparison of the goal. *)
Ltac zcases :=
  repeat match goal with
  | |- context [?a <=? ?b] => destruct (Z.leb_spec a b)
  | |- context [?a <? ?b] => destruct (Z.ltb_spec a b)
  | |- context [?a =? ?b] => destruct (Z.eqb_spec a b)
  end.

(** Closes a goal that is a conjunction of computations. *)
Ltac compute_all := repeat split; vm_compute; done.
