(* ===== verification/Opcodes.v ===== *)
(** The generator of instruction tables, DADAO-opcodes/parse-opcodes.py.

    The build runs it on simrisc.opcodes and feeds its outputs to the C code:
    [gen_opc_file] to opcodes/dadao-opc.c, [gen_encoding_file] to
    include/opcode/dadao.h (the MATCH_* and MASK_* constants),
    [gen_disassemble_file] to opcodes/dadao-dis.c, [gen_decode_file] to
    target/dadao (through QEMU's decodetree).  Each generator is modelled as
    the function from the parsed table to the records the C compiler (or
    decodetree) reads back.  A Python exception is [None]. *)
From S2P Require Import Prelude Simrisc.
Import Stdlib.Strings.Ascii.
Local Open Scope string_scope.
Local Open Scope Z_scope.

(** ** Python strings *)
Module Py.
Definition is_space (c : Ascii.ascii) : bool :=
  let n := Ascii.nat_of_ascii c in
  ((n =? 32) || (9 <=? n) && (n <=? 13))%nat.

(** str.split() *)
Fixpoint split_ws (cur : string) (s : string) : list string :=
  match s with
  | EmptyString => if (String.length cur =? 0)%nat then [] else [cur]
  | String c s' =>
      if is_space c
      then (if (String.length cur =? 0)%nat then [] else [cur]) ++ split_ws "" s'
      else split_ws (cur ++ String c "") s'
  end.
Definition split (s : string) : list string := split_ws "" s.

(** s[n:] and s[:n] *)
Fixpoint drop (n : nat) (s : string) : string :=
  match n, s with
  | S n, String _ s => drop n s
  | _, _ => s
  end.
Fixpoint take (n : nat) (s : string) : string :=
  match n, s with
  | S n, String c s => String c (take n s)
  | _, _ => ""
  end.
(** s[1:-1] *)
Definition strip_ends (s : string) : string :=
  take (String.length s - 2) (drop 1 s).
Definition hd (s : string) : option Ascii.ascii := String.get 0 s.
Definition starts (c : string) (s : string) : bool := String.prefix c s.

(** sub in s, s.find(sub) *)
Definition find (sub s : string) : option nat := String.index 0 sub s.
Definition contains (sub s : string) : bool :=
  match find sub s with Some _ => true | None => false end.

(** [a, b] = s.split(sep): exactly two parts *)
Definition split2 (sep s : string) : option (string * string) :=
  k ← find sep s;
  let a := take k s in
  let b := drop (k + String.length sep) s in
  if contains sep b then None else Some (a, b).

Fixpoint of_dec (acc : Z) (s : string) : option Z :=
  match s with
  | EmptyString => Some acc
  | String c s' =>
      let d := Z.of_nat (Ascii.nat_of_ascii c) - 48 in
      if (0 <=? d) && (d <=? 9) then of_dec (10 * acc + d) s' else None
  end.
(** int(s) of an unsigned decimal *)
Definition int10 (s : string) : option Z :=
  if (String.length s =? 0)%nat then None else of_dec 0 s.

Fixpoint of_bin (acc : Z) (s : string) : option Z :=
  match s with
  | EmptyString => Some acc
  | String "0"%char s' => of_bin (2 * acc) s'
  | String "1"%char s' => of_bin (2 * acc + 1) s'
  | String _ _ => None
  end.
(** int(s, base=2) *)
Definition int2 (s : string) : option Z :=
  if (String.length s =? 0)%nat then None else of_bin 0 s.

Fixpoint rep (n : nat) (c : string) : string :=
  match n with O => "" | S n => c ++ rep n c end.

Definition upper_ascii (c : Ascii.ascii) : Ascii.ascii :=
  let n := Ascii.nat_of_ascii c in
  if ((97 <=? n) && (n <=? 122))%nat then Ascii.ascii_of_nat (n - 32) else c.
(** s.upper() *)
Fixpoint upper (s : string) : string :=
  match s with
  | EmptyString => ""
  | String c s => String (upper_ascii c) (upper s)
  end.
(** s.replace(".", "_") *)
Fixpoint dot_to_underscore (s : string) : string :=
  match s with
  | EmptyString => ""
  | String "."%char s => String "_"%char (dot_to_underscore s)
  | String c s => String c (dot_to_underscore s)
  end.

Fixpoint dec_digits (fuel : nat) (n : nat) : string :=
  match fuel with
  | O => ""
  | S f =>
      (if (n <? 10)%nat then "" else dec_digits f (n / 10)) ++
      String (Ascii.ascii_of_nat (48 + n mod 10)) ""
  end.
(** str(n) of a natural number *)
Definition str_nat (n : nat) : string := dec_digits (S n) n.

(** dict: insertion-ordered association list *)
Section Dict.
Context {V : Type}.
Definition get (k : string) (d : list (string * V)) : option V := assoc k d.
Fixpoint set (k : string) (v : V) (d : list (string * V)) : list (string * V) :=
  match d with
  | [] => [(k, v)]
  | (k', v') :: d => if (k =? k')%string then (k, v) :: d else (k', v') :: set k v d
  end.
(** del d[k]: KeyError when absent *)
Fixpoint del (k : string) (d : list (string * V)) : option (list (string * V)) :=
  match d with
  | [] => None
  | (k', v') :: d =>
      if (k =? k')%string then Some d else r ← del k d; Some ((k', v') :: r)
  end.
Definition mem (k : string) (d : list (string * V)) : bool :=
  match get k d with Some _ => true | None => false end.
Definition keys (d : list (string * V)) : list string := d.*1.
End Dict.
End Py.

(** ** The parsed table *)
Record inst := Inst {
  i_optype : string;
  i_fields : list (string * nat);
  i_opcode : string;
  i_resources : list string;
  i_regs : list (string * string);       (* regfile_restrictions *)
  i_conds : list string;                 (* cond_restrictions *)
  i_type : string;                       (* insn_type *)
  i_mask : string; i_match : string;
  i_mask_int : Z; i_match_int : Z }.

Definition is_binary_str (item : string) : bool :=
  match Py.of_bin 0 item with Some _ => true | None => false end.

Definition field_bincode (field : string) (cond : list string) : option string :=
  match List.find (fun rest => Py.contains field rest && Py.contains "==" rest) cond with
  | Some rest => k ← Py.find "==" rest; Some (Py.drop (k + 2) rest)
  | None => None
  end.

Definition regfile_fillin (field : string) (regs : list (string * string)) : string :=
  match Py.get field regs with Some r => r | None => field end.

Definition append_immlen (field : string) (len : nat) : string :=
  field ++ Py.str_nat len.

Definition get_mask_match (fields : list (string * nat)) (opcode : string)
    (conds : list string) : string * string :=
  foldl (fun acc '(f, n) =>
    let '(mask, mtch) := acc in
    if (f =? "op")%string then (mask ++ Py.rep n "1", mtch ++ opcode)
    else match field_bincode f conds with
         | Some code => (mask ++ Py.rep n "1", mtch ++ code)
         | None => (mask ++ Py.rep n "0", mtch ++ Py.rep n "0")
         end) ("", "") fields.

(** A restriction list: resources, regfile_restrictions, cond_restrictions. *)
Record restr := Restr {
  r_resources : list string;
  r_regs : list (string * string);
  r_conds : list string }.

Inductive line :=
  | LType (optype : string) (fields : list (string * nat))
  | LRestr (r : restr)
  | LInst (name opcode : string) (r : restr).

Definition parse_field (item : string) : option (string * nat) :=
  '(name, len) ← Py.split2 ":" item;
  n ← Py.int10 len;
  let name := if Py.starts "imm" name then append_immlen name (Z.to_nat n) else name in
  Some (name, Z.to_nat n).

Definition parse_restr_item (r : option restr) (item : string) : option restr :=
  r ← r;
  if Py.starts "@" item
  then Some (Restr (r_resources r ++ [Py.drop 1 item]) (r_regs r) (r_conds r))
  else if Py.contains "@" item then
    '(regfile, field) ← Py.split2 "@" item;
    Some (Restr (r_resources r) (Py.set field regfile (r_regs r)) (r_conds r))
  else if Py.starts "(" item
  then Some (Restr (r_resources r) (r_regs r) (r_conds r ++ [Py.strip_ends item]))
  else Some r.

Definition parse_restr (items : list string) : option restr :=
  foldl parse_restr_item (Some (Restr [] [] [])) items.

Fixpoint after_amp (info : list string) : option (list string) :=
  match info with
  | [] => None
  | x :: info => if (x =? "&&")%string then Some info else after_amp info
  end.

(** parse_line: the outer option is a Python exception, the inner one the
    [None] the function returns for a line without content. *)
Definition parse_line (l : string) : option (option line) :=
  if Py.starts "#" l then Some None
  else if Py.starts "[" l then
    match List.filter (fun i => negb ((i =? "[") || (i =? "]"))%string) (Py.split l) with
    | [] => None
    | optype :: rest =>
        fs ← mapM parse_field rest;
        Some (Some (LType optype (foldl (fun d '(k, v) => Py.set k v d) [] fs)))
    end
  else if Py.starts "&" l then
    r ← parse_restr (Py.split (Py.drop 1 l));
    Some (Some (LRestr r))
  else
    match Py.split l with
    | name :: opcode :: rest =>
        match rest with
        | [] => Some (Some (LInst name opcode (Restr [] [] [])))
        | third :: _ =>
            let opcode := if is_binary_str third then opcode ++ third else opcode in
            match after_amp (name :: opcode :: rest) with
            | None => Some (Some (LInst name opcode (Restr [] [] [])))
            | Some items => r ← parse_restr items; Some (Some (LInst name opcode r))
            end
        end
    | _ => Some None
    end.

Record rstate := RState {
  now_type : option (string * list (string * nat));
  now_restr : option restr;
  insts_so_far : list (string * inst) }.

(** The key an instruction gets when its mnemonic is already in the table. *)
Definition fresh_name (name : string) (insts : list (string * inst)) : option string :=
  if Py.mem name insts then
    if Py.mem ("_1" ++ name) insts then
      if Py.mem ("_2" ++ name) insts then
        if Py.mem ("_3" ++ name) insts then None else Some ("_3" ++ name)
      else Some ("_2" ++ name)
    else Some ("_1" ++ name)
  else Some name.

Definition insn_type_of (resources : list string) (regs : list (string * string)) : string :=
  let has x := existsb (String.eqb x) resources in
  if has "mem" then (if has "jmp" then "jsr" else "dref")
  else if has "jmp" then
    if has "bpd" then (if Py.mem "hb" regs then "condbranch12" else "condbranch")
    else "branch"
  else "normal".

Definition merge_regs (regs now : list (string * string)) : list (string * string) :=
  foldl (fun d '(key, value) =>
    match Py.get key d with
    | Some v => Py.set key (v ++ value) d
    | None => Py.set key value d
    end) regs now.

Definition read_line (st : option rstate) (l : string) : option rstate :=
  st ← st;
  p ← parse_line l;
  match p with
  | None => Some st
  | Some (LType t fs) => Some (RState (Some (t, fs)) (now_restr st) (insts_so_far st))
  | Some (LRestr r) => Some (RState (now_type st) (Some r) (insts_so_far st))
  | Some (LInst name opcode r) =>
      '(optype, fields) ← now_type st;
      now ← now_restr st;
      let resources := (r_resources r ++ r_resources now)%list in
      let regs := merge_regs (r_regs r) (r_regs now) in
      let conds := (r_conds r ++ r_conds now)%list in
      name ← fresh_name name (insts_so_far st);
      let '(mask, mtch) := get_mask_match fields opcode conds in
      mask_int ← Py.int2 mask;
      match_int ← Py.int2 mtch;
      let i : inst := Inst optype fields opcode resources regs conds
                 (insn_type_of resources regs) mask mtch mask_int match_int in
      Some (RState (now_type st) (now_restr st) (Py.set name i (insts_so_far st)))
  end.

(** read_opcodes *)
Definition read_opcodes (file : list string) : option (list (string * inst)) :=
  insts_so_far <$> foldl read_line (Some (RState None None [])) file.

Definition insts : list (string * inst) :=
  Eval vm_compute in default [] (read_opcodes simrisc_opcodes).

(** ** Upper-case names: get_upper_insts_dict *)

(** The search for the suffixes that tell two instructions of one mnemonic
    apart; [None] is a KeyError/IndexError, an unchanged pair a search that
    assigned nothing. *)
Fixpoint desc_same (ks : list string) (r1 r2 : list (string * string))
    (d : option (string * string)) : option (option (string * string)) :=
  match ks with
  | [] => Some d
  | k :: ks =>
      a ← Py.get k r1; b ← Py.get k r2;
      if (a =? b)%string then desc_same ks r1 r2 d else Some (Some (a, b))
  end.

Fixpoint desc_diff (n : nat) (l1 l2 : list string) (r1 r2 : list (string * string))
    (d : option (string * string)) : option (option (string * string)) :=
  match n with
  | O => Some d
  | S n =>
      match l1, l2 with
      | a :: l1, b :: l2 =>
          if (a =? b)%string then desc_diff n l1 l2 r1 r2 d
          else if Py.starts "imm" a then Some (Some ("i", "r"))
          else if Py.starts "imm" b then Some (Some ("r", "i"))
          else x ← Py.get a r1; y ← Py.get b r2;
               if (x =? y)%string then desc_diff n l1 l2 r1 r2 d else Some (Some (x, y))
      | _, _ => None
      end
  end.

Definition upper_step (all : list (string * inst))
    (st : option (option (string * string) * list (string * inst)))
    (e : string * inst) : option (option (string * string) * list (string * inst)) :=
  '(d, up) ← st;
  let '(name, i) := e in
  if Py.starts "_" name then
    let search := Py.drop 2 name in
    let instruction := Py.upper search in
    d' ← match Py.get search all with
         | None => Some d
         | Some j =>
             if (i_optype i =? i_optype j)%string
             then desc_same (Py.keys (i_regs i)) (i_regs i) (i_regs j) d
             else desc_diff 4 (Py.keys (i_fields i)) (Py.keys (i_fields j))
                    (i_regs i) (i_regs j) d
         end;
    '(d1, d2) ← d';
    j ← Py.get search all;
    let up := Py.set (instruction ++ d2) j (Py.set (instruction ++ d1) i up) in
    up ← (if Py.starts "_1" name then Py.del instruction up else Some up);
    Some (d', up)
  else Some (d, Py.set (Py.upper name) i up).

Definition get_upper_insts_dict (all : list (string * inst)) : option (list (string * inst)) :=
  snd <$> foldl (upper_step all) (Some (None, [])) all.

Definition upper_insts : list (string * inst) :=
  Eval vm_compute in default [] (get_upper_insts_dict insts).

(** ** gen_opc_file: the rows of dadao-insn.opc

    The enums and the row type are those of include/opcode/dadao.h. *)
Inductive dadao_insn_type :=
  | dadao_type_normal | dadao_type_condbranch | dadao_type_condbranch12
  | dadao_type_branch | dadao_type_geta | dadao_type_dref | dadao_type_jsr
  | dadao_type_pseudo | dadao_type_adrp | dadao_type_lo12.

Inductive dadao_operand_type :=
  | dadao_operand_none | dadao_operand_op | dadao_operand_rd | dadao_operand_rb
  | dadao_operand_rf | dadao_operand_ra | dadao_operand_immu6
  | dadao_operand_immu12 | dadao_operand_immu18 | dadao_operand_imms12
  | dadao_operand_imms18 | dadao_operand_imms24 | dadao_operand_ww
  | dadao_operand_immu16 | dadao_operand_cp | dadao_operand_cr
  | dadao_operand_noop.

#[export] Instance dadao_insn_type_eq_dec : EqDecision dadao_insn_type.
Proof. solve_decision. Defined.
#[export] Instance dadao_operand_type_eq_dec : EqDecision dadao_operand_type.
Proof. solve_decision. Defined.

Record dadao_opcode := Opcode {
  name : string; operands_num : Z; major_opcode : Z; minor_opcode : Z;
  op_fa : dadao_operand_type; op_fb : dadao_operand_type;
  op_fc : dadao_operand_type; op_fd : dadao_operand_type;
  type : dadao_insn_type }.

(** The C identifiers dadao_type_<s> and dadao_operand_<s>: a name without a
    declaration does not compile. *)
Definition type_names : list (string * dadao_insn_type) :=
  [("normal", dadao_type_normal); ("condbranch", dadao_type_condbranch);
   ("condbranch12", dadao_type_condbranch12); ("branch", dadao_type_branch);
   ("geta", dadao_type_geta); ("dref", dadao_type_dref); ("jsr", dadao_type_jsr);
   ("pseudo", dadao_type_pseudo); ("adrp", dadao_type_adrp); ("lo12", dadao_type_lo12)].
Definition operand_names : list (string * dadao_operand_type) :=
  [("none", dadao_operand_none); ("op", dadao_operand_op); ("rd", dadao_operand_rd);
   ("rb", dadao_operand_rb); ("rf", dadao_operand_rf); ("ra", dadao_operand_ra);
   ("immu6", dadao_operand_immu6); ("immu12", dadao_operand_immu12);
   ("immu18", dadao_operand_immu18); ("imms12", dadao_operand_imms12);
   ("imms18", dadao_operand_imms18); ("imms24", dadao_operand_imms24);
   ("ww", dadao_operand_ww); ("immu16", dadao_operand_immu16);
   ("cp", dadao_operand_cp); ("cr", dadao_operand_cr); ("noop", dadao_operand_noop)].

(** The operand columns shared by the opcode and the disassembler tables:
    the fields without an 8-bit op, padded to four and with the register
    classes filled in. *)
Definition row_fields (i : inst) : option (list string) :=
  op ← Py.get "op" (i_fields i);
  let ks := Py.keys (i_fields i) in
  Some (if (op =? 8)%nat then List.tl ks else ks).
Definition row_operands (i : inst) : option (list string) :=
  fields ← row_fields i;
  Some (map (fun f => regfile_fillin f (i_regs i))
         (fields ++ replicate (4 - length fields) "none")%list).
Definition row_name (n : string) : string :=
  if Py.starts "_" n then Py.drop 2 n else n.

Definition gen_opc_row (e : string * inst) : option dadao_opcode :=
  let '(n, i) := e in
  fields ← row_fields i;
  operands ← row_operands i;
  majop ← Py.int2 (Py.take 8 (i_opcode i));
  minop ← (if (String.length (i_opcode i) =? 8)%nat then Some 0
           else Py.int2 (Py.drop 8 (i_opcode i)));
  o0 ← operands !! 0%nat;
  let exop := if (o0 =? "op")%string then 1 else 0 in
  ops ← mapM (fun o => Py.get o operand_names) operands;
  ty ← Py.get (i_type i) type_names;
  match ops with
  | [a; b; c; d] =>
      Some (Opcode (row_name n) (Z.of_nat (length fields) - exop) majop minop a b c d ty)
  | _ => None
  end.

Definition gen_opc_file (all : list (string * inst)) : option (list dadao_opcode) :=
  mapM gen_opc_row all.

(** dadao-insn.opc as the build generates it. *)
Definition insn_opc : list dadao_opcode := Eval vm_compute in default [] (gen_opc_file insts).

(** ** gen_encoding_file: the MATCH_* and MASK_* macros *)
Definition gen_encoding_file (all : list (string * inst)) : list (string * (Z * Z)) :=
  map (fun '(n, i) => (Py.dot_to_underscore (Py.upper n), (i_match_int i, i_mask_int i))) all.

Definition encoding : list (string * (Z * Z)) := Eval vm_compute in gen_encoding_file upper_insts.

(** The value of the macro MATCH_<n>. *)
Definition MATCH (n : string) : Z := default (-1) (fst <$> Py.get n encoding).

(** ** gen_decode_file: the patterns of insns.decode

    A pattern is the opcode bits followed by fields, most significant first;
    a field is literal bits or name:len with an optional sign mark. *)
Inductive dfield :=
  | DBits (code : string)
  | DField (name : string) (signed : bool) (len : nat).
Record pattern := Pattern { p_name : string; p_opcode : string; p_fields : list dfield }.

Definition gen_decode_row (e : string * inst) : pattern :=
  let '(n, i) := e in
  Pattern n (i_opcode i)
    (snd (foldl (fun acc '(f, len) =>
       let '(sgn, row) := acc in
       if (f =? "op")%string then (sgn, row)
       else
         let sgn := sgn || (Py.take 4 f =? "imms")%string in
         match field_bincode f (i_conds i) with
         | Some code => (sgn, row ++ [DBits code])%list
         | None => (sgn, row ++ [DField f sgn len])%list
         end) (false, []) (i_fields i))).

Definition insns_decode : list pattern := Eval vm_compute in map gen_decode_row upper_insts.

(** ** gen_disassemble_file: dadao_disassemble_opcodes of dadao-dis.h *)
Inductive dadao_disassemble_type :=
  | dis_none | dis_ha | dis_hb | dis_hc | dis_hd | dis_immu6 | dis_immu12 | dis_immu18
  | dis_imms12 | dis_imms18 | dis_ww | dis_immu16 | dis_offset12 | dis_offset18 | dis_offset24.

#[export] Instance dadao_disassemble_type_eq_dec : EqDecision dadao_disassemble_type.
Proof. solve_decision. Defined.

Definition dis_names : list (string * dadao_disassemble_type) :=
  [("none", dis_none); ("ha", dis_ha); ("hb", dis_hb); ("hc", dis_hc); ("hd", dis_hd);
   ("immu6", dis_immu6); ("immu12", dis_immu12); ("immu18", dis_immu18);
   ("imms12", dis_imms12); ("imms18", dis_imms18); ("ww", dis_ww); ("immu16", dis_immu16);
   ("offset12", dis_offset12); ("offset18", dis_offset18); ("offset24", dis_offset24)].

Record dadao_disassemble := Disassemble {
  opcode_mask : Z; opcode_match : Z;
  op1 : dadao_disassemble_type; op2 : dadao_disassemble_type;
  op3 : dadao_disassemble_type; op4 : dadao_disassemble_type;
  operand_num : Z; disassemble_format : string }.

(** One step of the loop over the operand columns: the operand's format
    type and the text it adds to the format. *)
Definition dis_operand (i : inst) (fmt0 operand : string) (first : bool)
    : string * string * bool :=
  if (operand =? "none")%string then ("none", "", first)
  else
    let sep := if first then "" else ", " in
    let isbpd := Nat.odd (length (List.filter (String.eqb "bpd") (i_resources i))) in
    if ((operand =? "imms24")%string || (isbpd && Py.starts "imm" operand))
    then ("offset" ++ Py.drop 4 operand, sep, false)
    else if Py.starts "immu" operand then (operand, sep ++ "0x%x", false)
    else if Py.starts "imms" operand then (operand, sep ++ "%d", false)
    else if (operand =? "ww")%string then (operand, sep ++ "w%d", false)
    else (fmt0, sep ++ operand ++ "%d", false).

Fixpoint dis_operands (i : inst) (fmts operands : list string) (first : bool)
    (text : string) : list string * string :=
  match fmts, operands with
  | f :: fmts, o :: operands =>
      let '(f', t, first) := dis_operand i f o first in
      let '(fs, text) := dis_operands i fmts operands first (text ++ t) in
      (f' :: fs, text)
  | _, _ => (fmts, text)
  end.

Definition tab : string := String (ascii_of_nat 9) "".

Definition gen_disassemble_row (e : string * inst) : option dadao_disassemble :=
  let '(n, i) := e in
  op ← Py.get "op" (i_fields i);
  fields ← row_fields i;
  operands ← row_operands i;
  let exop := if (op =? 8)%nat then 0%nat else 1%nat in
  let fmts := if (op =? 8)%nat then ["ha"; "hb"; "hc"; "hd"] else ["hb"; "hc"; "hd"; "none"] in
  mtch ← (if (op =? 8)%nat
          then k ← Py.int2 (Py.take 8 (i_opcode i)); Some (k * 2^24)
          else k ← Py.int2 (Py.take 14 (i_opcode i) ++ "00"); Some (k * 2^16));
  let mask := if (op =? 8)%nat then 0xff000000 else 0xfffc0000 in
  let '(fs, text) := dis_operands i fmts (skipn exop operands) true (row_name n ++ tab) in
  ds ← mapM (fun f => Py.get f dis_names) fs;
  match ds with
  | [a; b; c; d] =>
      Some (Disassemble mask mtch a b c d
              (Z.of_nat (length fields) - Z.of_nat exop) text)
  | _ => None
  end.

Definition gen_disassemble_file (all : list (string * inst)) : option (list dadao_disassemble) :=
  mapM gen_disassemble_row all.

Definition dadao_disassemble_opcodes : list dadao_disassemble :=
  Eval vm_compute in default [] (gen_disassemble_file insts).
