(* ===== verification/Cpu.v ===== *)
(** The CPU state of the emulator: target/dadao/cpu.h, cpu.c, cpu-param.h and
    the constants of simrisc/dadao-aee.h and linux-user/dadao/dadao-abi.h. *)
From S2P Require Import Prelude.

(** ** simrisc/dadao-aee.h *)
Definition DDAEE_FLOAT_TETRA_QNAN : Z := 0x7fc00000.
Definition DDAEE_FLOAT_TETRA_SNAN : Z := 0x7f800001.
Definition DDAEE_FLOAT_OCTA_QNAN : Z := 0x7ff8000000000000.
Definition DDAEE_FLOAT_OCTA_SNAN : Z := 0x7ff0000000000001.
Definition DDAEE_FCSR_DEFAULT : Z := Z.lor DDAEE_FLOAT_OCTA_QNAN DDAEE_FLOAT_TETRA_QNAN.
Definition DDAEE_FCSR_MASK_RDMODE : Z := 0x30000.
Definition DDAEE_FCSR_MASK_FFLAGS : Z := 0x1f.

(** ** linux-user/dadao/dadao-abi.h *)
Definition DD_SYSCALL_NUM_REGNUM : Z := 0x0F.
Definition DD_FIRST_ARG_REGNUM : Z := 0x10.
Definition DD_RETURN_VALUE_REGNUM : Z := 0x1F.

(** ** Exceptions (the enum of cpu.h) *)
Definition DADAO_EXCP_NONE : Z := 0.
Definition DADAO_EXCP_TRIP : Z := 1.
Definition DADAO_EXCP_TRAP : Z := 2.
Definition DADAO_EXCP_IMMU : Z := 3.
Definition DADAO_EXCP_DMMU : Z := 4.
Definition DADAO_EXCP_ILLI : Z := 5.
Definition DADAO_EXCP_INTR : Z := 6.
Definition DADAO_EXCP_HALT : Z := 7.
Definition DADAO_EXCP_FPER : Z := 9.

(** cpu-param.h *)
Definition TARGET_PAGE_BITS : Z := 12.

(** ** CPUDADAOState

    [fp_status] keeps the two parts of softfloat's float_status the target
    reads and writes: the rounding mode and the accrued exception flags. *)
Record float_status := FloatStatus {
  float_rounding_mode : Z; float_exception_flags : Z }.

Record cp0_regs := Cp0 {
  c0_cpuid : Z; c0_cachetype : Z; c1_sys : Z; c2_base : Z;
  c3_faultstatus : Z; c4_faultaddr : Z; c5_cacheop : Z; c6_tlbop : Z }.

Record CPUDADAOState := CPU {
  rd : list Z; rb : list Z; rf : list Z; ra : list Z;
  jmp_pc : Z; load_res : Z; load_val : Z;
  frm : Z; fp_status : float_status;
  cp0 : cp0_regs; features : Z }.

(** The four register files. *)
Inductive regfile := RD | RB | RF | RA.
#[export] Instance regfile_eq_dec : EqDecision regfile.
Proof. solve_decision. Defined.

Definition file (f : regfile) (env : CPUDADAOState) : list Z :=
  match f with RD => rd env | RB => rb env | RF => rf env | RA => ra env end.

Definition set_file (f : regfile) (l : list Z) (env : CPUDADAOState) : CPUDADAOState :=
  let 'CPU d b x a j r v m fp c fe := env in
  match f with
  | RD => CPU l b x a j r v m fp c fe
  | RB => CPU d l x a j r v m fp c fe
  | RF => CPU d b l a j r v m fp c fe
  | RA => CPU d b x l j r v m fp c fe
  end.

Definition set_jmp_pc (v : Z) (env : CPUDADAOState) : CPUDADAOState :=
  let 'CPU d b x a _ r v0 m fp c fe := env in CPU d b x a v r v0 m fp c fe.
Definition set_load_res (v : Z) (env : CPUDADAOState) : CPUDADAOState :=
  let 'CPU d b x a j _ v0 m fp c fe := env in CPU d b x a j v v0 m fp c fe.
Definition set_load_val (v : Z) (env : CPUDADAOState) : CPUDADAOState :=
  let 'CPU d b x a j r _ m fp c fe := env in CPU d b x a j r v m fp c fe.
Definition set_fp (m : Z) (s : float_status) (env : CPUDADAOState) : CPUDADAOState :=
  let 'CPU d b x a j r v _ _ c fe := env in CPU d b x a j r v m s c fe.
Definition set_cp0 (c : cp0_regs) (env : CPUDADAOState) : CPUDADAOState :=
  let 'CPU d b x a j r v m fp _ fe := env in CPU d b x a j r v m fp c fe.
Definition set_features (fe : Z) (env : CPUDADAOState) : CPUDADAOState :=
  let 'CPU d b x a j r v m fp c _ := env in CPU d b x a j r v m fp c fe.

(** env->rX[i] and env->rX[i] = v. *)
Definition reg (f : regfile) (i : Z) (env : CPUDADAOState) : Z :=
  default 0 (zlookup (file f env) i).
Definition set_reg (f : regfile) (i v : Z) (env : CPUDADAOState) : CPUDADAOState :=
  set_file f (zupdate (file f env) i v) env.

Definition REG_PC (env : CPUDADAOState) : Z := reg RB 0 env.
Definition REG_SP (env : CPUDADAOState) : Z := reg RB 1 env.
Definition set_PC (v : Z) (env : CPUDADAOState) : CPUDADAOState := set_reg RB 0 v env.

(** Every register file has its 64 registers. *)
Definition wf_env (env : CPUDADAOState) : Prop :=
  forall f, length (file f env) = 64%nat.

Lemma file_set_file_eq f l env : file f (set_file f l env) = l.
Proof. by destruct env, f. Qed.
Lemma file_set_file_ne f g l env : f <> g -> file g (set_file f l env) = file g env.
Proof. intros Hn. destruct env, f, g; done. Qed.
Lemma reg_set_reg_eq f i v env :
  wf_env env -> 0 <= i < 64 -> reg f i (set_reg f i v env) = v.
Proof.
  intros Hwf Hi. unfold reg, set_reg. rewrite file_set_file_eq.
  rewrite zlookup_zupdate_eq; [done | rewrite Hwf; lia].
Qed.
Lemma reg_set_reg_ne f i g j v env :
  f <> g \/ i <> j -> reg g j (set_reg f i v env) = reg g j env.
Proof.
  intros H. unfold reg, set_reg. destruct (decide (f = g)) as [->|Hn].
  - rewrite file_set_file_eq, zlookup_zupdate_ne by naive_solver. done.
  - by rewrite file_set_file_ne.
Qed.
Lemma set_reg_set_reg f i u v env : set_reg f i v (set_reg f i u env) = set_reg f i v env.
Proof.
  unfold set_reg. rewrite file_set_file_eq. unfold zupdate.
  destruct (0 <=? i); rewrite ?list_insert_insert_eq; by destruct env, f.
Qed.
Lemma wf_set_reg f i v env : wf_env env -> wf_env (set_reg f i v env).
Proof.
  intros Hwf g. unfold set_reg. destruct (decide (f = g)) as [->|Hn].
  - by rewrite file_set_file_eq, length_zupdate.
  - by rewrite file_set_file_ne.
Qed.
Lemma wf_set_jmp_pc v env : wf_env env -> wf_env (set_jmp_pc v env).
Proof. intros H f. specialize (H f). by destruct env, f. Qed.
Lemma wf_set_load_res v env : wf_env env -> wf_env (set_load_res v env).
Proof. intros H f. specialize (H f). by destruct env, f. Qed.
Lemma wf_set_load_val v env : wf_env env -> wf_env (set_load_val v env).
Proof. intros H f. specialize (H f). by destruct env, f. Qed.
Create HintDb cpu.
#[export] Hint Resolve wf_set_reg wf_set_jmp_pc wf_set_load_res wf_set_load_val : cpu.

(** ** cpu.c *)
Definition dadao_cpu_set_pc (env : CPUDADAOState) (value : Z) : CPUDADAOState := set_PC value env.
Definition dadao_cpu_get_pc (env : CPUDADAOState) : Z := REG_PC env.
Definition dadao_cpu_synchronize_from_tb (env : CPUDADAOState) (tb_pc : Z) : CPUDADAOState :=
  set_PC tb_pc env.
Definition dadao_restore_state_to_opc (env : CPUDADAOState) (data : list Z)
    : option CPUDADAOState := d ← zlookup data 0; Some (set_PC d env).
Definition dadao_cpu_has_work : Z := 0.
Definition set_feature (env : CPUDADAOState) (feature : Z) : CPUDADAOState :=
  set_features (Z.lor (features env) (w32 feature)) env.

Definition dadao_any_cpu_initfn (env : CPUDADAOState) : CPUDADAOState :=
  let 'Cp0 _ a b c d e f g := cp0 env in
  set_feature (set_cp0 (Cp0 0xffffffff a b c d e f g) env) 0.

(** [user] is CONFIG_USER_ONLY. *)
Definition dadao_cpu_initfn (user : bool) (env : CPUDADAOState) : CPUDADAOState :=
  let env := set_PC (if user then 0 else 0x03000000) env in
  let env := set_reg RD 0 0 env in
  set_reg RF 0 DDAEE_FCSR_DEFAULT env.

(** The zeroed state an object of the CPU type starts from. *)
Definition zero_env : CPUDADAOState :=
  CPU (replicate 64 0) (replicate 64 0) (replicate 64 0) (replicate 64 0) 0 0 0 0
      (FloatStatus 0 0) (Cp0 0 0 0 0 0 0 0 0) 0.

(** cpu_get_tb_cpu_state: pc, cs_base and flags of the next block. *)
Definition cpu_get_tb_cpu_state (env : CPUDADAOState) : Z * Z * Z := (REG_PC env, 0, 0).
Definition cpu_mmu_index (env : CPUDADAOState) (ifetch : bool) : Z := 0.
