(* ===== verification/Tcg.v ===== *)
(** The intermediate code target/dadao/translate.c emits, and what it means.

    Emitting is the job of the translator, so an operation is just a value
    here, one constructor per tcg_gen_* call of translate.c.  TCG itself is
    not part of this repository: the meaning of its value operations, of the
    guest memory and of atomics is a parameter ([backend]) of the executor,
    and what QEMU documents of it is the record [tcg_laws]. *)
From S2P Require Import Prelude Cpu.

(** Memory operations, MO_TE meaning the target's byte order. *)
Inductive memop := MO_SB | MO_UB | MO_TESW | MO_TEUW | MO_TESL | MO_TEUL | MO_TEUQ.

(** memop & 3: the log2 of the access size. *)
Definition mo_size (m : memop) : Z :=
  match m with
  | MO_SB | MO_UB => 0
  | MO_TESW | MO_TEUW => 1
  | MO_TESL | MO_TEUL => 2
  | MO_TEUQ => 3
  end.

Inductive tcg_cond :=
  | TCG_COND_LT | TCG_COND_GE | TCG_COND_LE | TCG_COND_GT
  | TCG_COND_EQ | TCG_COND_NE
  | TCG_COND_GTU.

Inductive alu_op :=
  | A_add | A_sub | A_and | A_or | A_xor | A_shl | A_shr | A_sar
  | A_div | A_rem | A_divu | A_remu.
Inductive wide_op := W_add2 | W_sub2.
Inductive mul_op := M_muls2 | M_mulu2.

(** TCG values: CPU registers, the other globals, temporaries, constants. *)
Inductive tcgv :=
  | Greg (f : regfile) (i : Z)
  | Gjmp_pc | Gload_res | Gload_val
  | Tmp (n : nat)
  | Const (c : Z).

Inductive op :=
  | O_mov (d s : tcgv)
  | O_alu (o : alu_op) (d a b : tcgv)
  | O_wide (o : wide_op) (dl dh al ah bl bh : tcgv)
  | O_mul (o : mul_op) (dl dh a b : tcgv)
  | O_setcond (c : tcg_cond) (d a b : tcgv)
  | O_movcond (c : tcg_cond) (d c1 c2 v1 v2 : tcgv)
  | O_ld (d addr : tcgv) (idx : Z) (m : memop)
  | O_st (v addr : tcgv) (idx : Z) (m : memop)
  | O_cmpxchg (d addr cmp new : tcgv) (idx : Z) (m : memop)
  | O_mb (flags : list string)
  | O_brcond (c : tcg_cond) (a b : tcgv) (l : nat)
  | O_br (l : nat)
  | O_label (l : nat)
  | O_exception (excp : Z)
  | O_helper (h : string) (d : tcgv) (args : list tcgv)
  | O_insn_start (pc : Z)
  | O_discard (v : tcgv)
  | O_goto_tb (n : Z)
  | O_exit_tb (n : Z)
  | O_lookup_and_goto_ptr.

(** What a target relies on TCG and the memory system for.  A load, a store
    or an atomic that faults is [None]. *)
Record backend (M : Type) := Backend {
  b_alu : alu_op -> Z -> Z -> Z;
  b_wide : wide_op -> Z -> Z -> Z -> Z -> Z * Z;
  b_mul : mul_op -> Z -> Z -> Z * Z;
  b_cond : tcg_cond -> Z -> Z -> bool;
  b_ld : memop -> Z -> M -> option Z;
  b_st : memop -> Z -> Z -> M -> option M;
  b_cmpxchg : memop -> Z -> Z -> Z -> M -> option (Z * M) }.
Arguments b_alu {M}. Arguments b_wide {M}. Arguments b_mul {M}. Arguments b_cond {M}.
Arguments b_ld {M}. Arguments b_st {M}. Arguments b_cmpxchg {M}.

(** The documented meaning of the value operations (docs/devel/tcg-ops):
    64-bit wrap-around arithmetic, shifts specified below 64, division
    specified for a nonzero divisor and a quotient that fits. *)
Record tcg_laws {M} (B : backend M) : Prop := TcgLaws {
  law_add : forall a b, b_alu B A_add a b = w64 (a + b);
  law_sub : forall a b, b_alu B A_sub a b = w64 (a - b);
  law_and : forall a b, b_alu B A_and a b = Z.land a b;
  law_or : forall a b, b_alu B A_or a b = Z.lor a b;
  law_xor : forall a b, b_alu B A_xor a b = Z.lxor a b;
  law_shl : forall a b, 0 <= b < 64 -> b_alu B A_shl a b = w64 (Z.shiftl a b);
  law_shr : forall a b, 0 <= b < 64 -> b_alu B A_shr a b = Z.shiftr a b;
  law_sar : forall a b, 0 <= b < 64 -> b_alu B A_sar a b = w64 (Z.shiftr (s64 a) b);
  law_div : forall a b, b <> 0 -> ~ (s64 a = - 2^63 /\ s64 b = -1) ->
    b_alu B A_div a b = w64 (Z.quot (s64 a) (s64 b));
  law_rem : forall a b, b <> 0 -> ~ (s64 a = - 2^63 /\ s64 b = -1) ->
    b_alu B A_rem a b = w64 (Z.rem (s64 a) (s64 b));
  law_divu : forall a b, b <> 0 -> b_alu B A_divu a b = a / b;
  law_remu : forall a b, b <> 0 -> b_alu B A_remu a b = a mod b;
  law_add2 : forall al ah bl bh, b_wide B W_add2 al ah bl bh =
    (w64 (al + bl), w64 (Z.shiftr (al + ah * 2^64 + (bl + bh * 2^64)) 64));
  law_sub2 : forall al ah bl bh, b_wide B W_sub2 al ah bl bh =
    (w64 (al - bl), w64 (Z.shiftr (al + ah * 2^64 - (bl + bh * 2^64)) 64));
  law_muls2 : forall a b, b_mul B M_muls2 a b =
    (w64 (s64 a * s64 b), w64 (Z.shiftr (s64 a * s64 b) 64));
  law_mulu2 : forall a b, b_mul B M_mulu2 a b =
    (w64 (a * b), w64 (Z.shiftr (a * b) 64));
  law_lt : forall a b, b_cond B TCG_COND_LT a b = (s64 a <? s64 b);
  law_ge : forall a b, b_cond B TCG_COND_GE a b = (s64 b <=? s64 a);
  law_le : forall a b, b_cond B TCG_COND_LE a b = (s64 a <=? s64 b);
  law_gt : forall a b, b_cond B TCG_COND_GT a b = (s64 b <? s64 a);
  law_eq : forall a b, b_cond B TCG_COND_EQ a b = (a =? b);
  law_ne : forall a b, b_cond B TCG_COND_NE a b = negb (a =? b);
  law_gtu : forall a b, b_cond B TCG_COND_GTU a b = (b <? a) }.

(** ** Executing a block *)
Record mach (M : Type) := Mach {
  m_env : CPUDADAOState; m_tmps : gmap nat Z; m_mem : M }.
Arguments Mach {M}. Arguments m_env {M}. Arguments m_tmps {M}. Arguments m_mem {M}.

Inductive outcome (M : Type) :=
  | Fall (m : mach M)                 (* ran off the end of the operations *)
  | Exit (m : mach M)                 (* left the block for the next one *)
  | Raise (excp : Z) (m : mach M)     (* helper_exception: back to cpu_loop *)
  | Fault (m : mach M)                (* a guest memory access faulted *)
  | NoLabel.                          (* a branch to a label not ahead *)
Arguments Fall {M}. Arguments Exit {M}. Arguments Raise {M}. Arguments Fault {M}.
Arguments NoLabel {M}.

Section Exec.
Context {M : Type} (B : backend M).
(** The helpers of helper-fpu.c: result and the updated CPU state. *)
Variable helper : string -> CPUDADAOState -> list Z -> Z * CPUDADAOState.

Definition get (m : mach M) (v : tcgv) : Z :=
  match v with
  | Greg f i => reg f i (m_env m)
  | Gjmp_pc => jmp_pc (m_env m)
  | Gload_res => load_res (m_env m)
  | Gload_val => load_val (m_env m)
  | Tmp n => default 0 (m_tmps m !! n)
  | Const c => w64 c
  end.

Definition set (m : mach M) (v : tcgv) (x : Z) : mach M :=
  match v with
  | Greg f i => Mach (set_reg f i x (m_env m)) (m_tmps m) (m_mem m)
  | Gjmp_pc => Mach (set_jmp_pc x (m_env m)) (m_tmps m) (m_mem m)
  | Gload_res => Mach (set_load_res x (m_env m)) (m_tmps m) (m_mem m)
  | Gload_val => Mach (set_load_val x (m_env m)) (m_tmps m) (m_mem m)
  | Tmp n => Mach (m_env m) (<[n := x]> (m_tmps m)) (m_mem m)
  | Const _ => m
  end.

(** The operations after the label [l]. *)
Fixpoint after_label (l : nat) (ops : list op) : option (list op) :=
  match ops with
  | [] => None
  | O_label l' :: tl => if (l =? l')%nat then Some tl else after_label l tl
  | _ :: tl => after_label l tl
  end.

Inductive next := Go (m : mach M) | Jump (l : nat) (m : mach M) | Stop (o : outcome M).

Definition exec_op (o : op) (m : mach M) : next :=
  match o with
  | O_mov d s => Go (set m d (get m s))
  | O_alu o d a b => Go (set m d (b_alu B o (get m a) (get m b)))
  | O_wide o dl dh al ah bl bh =>
      let '(l, h) := b_wide B o (get m al) (get m ah) (get m bl) (get m bh) in
      Go (set (set m dl l) dh h)
  | O_mul o dl dh a b =>
      let '(l, h) := b_mul B o (get m a) (get m b) in Go (set (set m dl l) dh h)
  | O_setcond c d a b => Go (set m d (b2z (b_cond B c (get m a) (get m b))))
  | O_movcond c d c1 c2 v1 v2 =>
      Go (set m d (if b_cond B c (get m c1) (get m c2) then get m v1 else get m v2))
  | O_ld d addr _ mo =>
      match b_ld B mo (get m addr) (m_mem m) with
      | Some x => Go (set m d x)
      | None => Stop (Fault m)
      end
  | O_st v addr _ mo =>
      match b_st B mo (get m addr) (get m v) (m_mem m) with
      | Some mem => Go (Mach (m_env m) (m_tmps m) mem)
      | None => Stop (Fault m)
      end
  | O_cmpxchg d addr cmp new _ mo =>
      match b_cmpxchg B mo (get m addr) (get m cmp) (get m new) (m_mem m) with
      | Some (x, mem) => Go (set (Mach (m_env m) (m_tmps m) mem) d x)
      | None => Stop (Fault m)
      end
  | O_mb _ | O_label _ | O_insn_start _ | O_discard _ | O_goto_tb _ => Go m
  | O_brcond c a b l => if b_cond B c (get m a) (get m b) then Jump l m else Go m
  | O_br l => Jump l m
  | O_exception e => Stop (Raise e m)
  | O_helper h d args =>
      let '(x, env) := helper h (m_env m) (get m <$> args) in
      Go (set (Mach env (m_tmps m) (m_mem m)) d x)
  | O_exit_tb _ | O_lookup_and_goto_ptr => Stop (Exit m)
  end.

(** Branches only go forward, so the remaining operations shrink. *)
Fixpoint exec_n (fuel : nat) (ops : list op) (m : mach M) : outcome M :=
  match fuel, ops with
  | _, [] => Fall m
  | O, _ => NoLabel
  | S fuel, o :: tl =>
      match exec_op o m with
      | Go m => exec_n fuel tl m
      | Jump l m => match after_label l tl with
                    | Some tl => exec_n fuel tl m
                    | None => NoLabel
                    end
      | Stop r => r
      end
  end.
Definition exec (ops : list op) (m : mach M) : outcome M := exec_n (length ops) ops m.

Lemma after_label_length l ops tl :
  after_label l ops = Some tl -> (length tl < length ops)%nat.
Proof.
  induction ops as [|o ops IH]; [done|]. cbn. intros H.
  assert (Hr : after_label l ops = Some tl -> (length tl < S (length ops))%nat)
    by (intros ?; specialize (IH H0); lia).
  destruct o; auto. destruct (l =? l0)%nat; [|auto].
  injection H as ->. lia.
Qed.

(** Any fuel beyond the length gives the result of [exec]. *)
Lemma exec_n_fuel fuel ops m :
  (length ops <= fuel)%nat -> exec_n fuel ops m = exec ops m.
Proof.
  unfold exec. remember (length ops) as k eqn:Hk. assert (Hle : (length ops <= k)%nat) by lia.
  clear Hk. revert fuel ops m Hle.
  induction k as [k IH] using lt_wf_ind. intros fuel ops m Hle Hf.
  destruct ops as [|o tl]; [by destruct fuel, k|].
  cbn [length] in *. destruct fuel as [|fuel]; [lia|]. destruct k as [|k]; [lia|]. cbn.
  destruct (exec_op o m) as [m'|l m'|r]; [apply IH; lia| |done].
  destruct (after_label l tl) as [tl'|] eqn:E; [|done].
  apply after_label_length in E. apply IH; lia.
Qed.

Lemma exec_go o tl m m' : exec_op o m = Go m' -> exec (o :: tl) m = exec tl m'.
Proof. intros H. unfold exec. cbn. by rewrite H. Qed.
Lemma exec_stop o tl m r : exec_op o m = Stop r -> exec (o :: tl) m = r.
Proof. intros H. unfold exec. cbn. by rewrite H. Qed.
Lemma exec_jump o tl m l m' tl' :
  exec_op o m = Jump l m' -> after_label l tl = Some tl' ->
  exec (o :: tl) m = exec tl' m'.
Proof.
  intros H Hl. unfold exec at 1. cbn. rewrite H, Hl. apply exec_n_fuel.
  apply after_label_length in Hl. lia.
Qed.
End Exec.
