(* ===== verification/Translate.v ===== *)
(** The translator, target/dadao/translate.c.

    [gen] is the monad of the code generator: the DisasContext, the counters
    behind tcg_temp_new and gen_new_label and the operations emitted so far.
    An access outside one of the cpu_rX arrays (undefined behaviour of the
    translator itself) is [GOob].  The loops take fuel; [GFuel] is shown
    never to happen. *)
From S2P Require Import Prelude Cpu Tcg.
Local Open Scope string_scope.
Local Open Scope Z_scope.

Inductive disas_jump := DISAS_NEXT | DISAS_TOO_MANY | DISAS_NORETURN | DISAS_JUMP.
#[export] Instance disas_jump_eq_dec : EqDecision disas_jump.
Proof. solve_decision. Defined.

Record DisasContext := DC {
  pc_next : Z; is_jmp : disas_jump; mem_idx : Z; jmp_pc_imm : Z }.

Record gst := GSt { g_ctx : DisasContext; g_tmp : nat; g_lbl : nat; g_ops : list op }.

Inductive gres (A : Type) := GOk (a : A) (s : gst) | GOob | GFuel.
Arguments GOk {A}. Arguments GOob {A}. Arguments GFuel {A}.

Definition gen (A : Type) : Type := gst -> gres A.
#[export] Instance gen_ret : MRet gen := fun A a s => GOk a s.
#[export] Instance gen_bind : MBind gen := fun A B f m s =>
  match m s with GOk a s => f a s | GOob => GOob | GFuel => GFuel end.

Definition goob {A} : gen A := fun _ => GOob.
Definition gfuel {A} : gen A := fun _ => GFuel.
Definition get_ctx : gen DisasContext := fun s => GOk (g_ctx s) s.
Definition put_ctx (c : DisasContext) : gen () :=
  fun s => GOk () (GSt c (g_tmp s) (g_lbl s) (g_ops s)).
Definition emit (o : op) : gen () :=
  fun s => GOk () (GSt (g_ctx s) (g_tmp s) (g_lbl s) (g_ops s ++ [o])%list).
Definition tcg_temp_new_i64 : gen tcgv :=
  fun s => GOk (Tmp (g_tmp s)) (GSt (g_ctx s) (S (g_tmp s)) (g_lbl s) (g_ops s)).
Definition gen_new_label : gen nat :=
  fun s => GOk (g_lbl s) (GSt (g_ctx s) (g_tmp s) (S (g_lbl s)) (g_ops s)).

(** cpu_rX[i] *)
Definition cpu (f : regfile) (i : Z) : gen tcgv :=
  if (0 <=? i) && (i <? 64) then mret (Greg f i) else goob.

Definition set_is_jmp (j : disas_jump) : gen () :=
  c ← get_ctx; put_ctx (DC (pc_next c) j (mem_idx c) (jmp_pc_imm c)).
Definition set_jmp_pc_imm (v : Z) : gen () :=
  c ← get_ctx; put_ctx (DC (pc_next c) (is_jmp c) (mem_idx c) v).
Definition set_pc_next (v : Z) : gen () :=
  c ← get_ctx; put_ctx (DC v (is_jmp c) (mem_idx c) (jmp_pc_imm c)).
Definition when (b : bool) (m : gen ()) : gen () := if b then m else mret ().

(** The tcg_gen_* calls. *)
Definition tcg_constant_i64 (c : Z) : gen tcgv := mret (Const c).
Definition tcg_gen_mov_i64 (d s : tcgv) : gen () := emit (O_mov d s).
Definition tcg_gen_movi_i64 (d : tcgv) (c : Z) : gen () := emit (O_mov d (Const c)).
Definition tcg_gen_alu (o : alu_op) (d a b : tcgv) : gen () := emit (O_alu o d a b).
Definition tcg_gen_alui (o : alu_op) (d a : tcgv) (c : Z) : gen () := emit (O_alu o d a (Const c)).
Definition tcg_gen_qemu_ld_i64 (d addr : tcgv) (m : memop) : gen () :=
  c ← get_ctx; emit (O_ld d addr (mem_idx c) m).
Definition tcg_gen_qemu_st_i64 (v addr : tcgv) (m : memop) : gen () :=
  c ← get_ctx; emit (O_st v addr (mem_idx c) m).

(** The argument structures decodetree fills. *)
Record args := Args {
  ha : Z; hb : Z; hc : Z; hd : Z; ww : Z;
  immu6 : Z; immu12 : Z; immu16 : Z; immu18 : Z;
  imms12 : Z; imms18 : Z; imms24 : Z }.

Definition gen_exception (excp : Z) : gen () := emit (O_exception excp).

Definition gen_exception_illegal_instruction : gen () :=
  c ← get_ctx;
  pc ← cpu RB 0;
  tcg_gen_movi_i64 pc (pc_next c);;
  gen_exception DADAO_EXCP_ILLI;;
  set_is_jmp DISAS_NORETURN.

(** ** Load and store *)
Definition writable0 (fs : list regfile) (f : regfile) : bool :=
  bool_decide (f ∈ fs).

Definition INSN_LD_RRII (dest_reg : regfile) (m : memop) (a : args) : gen bool :=
  addr ← tcg_temp_new_i64;
  temp ← tcg_temp_new_i64;
  b ← cpu RB (hb a);
  tcg_gen_alui A_add addr b (imms12 a);;
  tcg_gen_qemu_ld_i64 temp addr m;;
  when (negb (ha a =? 0) || writable0 [RF] dest_reg)
    (d ← cpu dest_reg (ha a); tcg_gen_mov_i64 d temp);;
  mret true.

Definition INSN_ST_RRII (src_reg : regfile) (m : memop) (a : args) : gen bool :=
  addr ← tcg_temp_new_i64;
  b ← cpu RB (hb a);
  tcg_gen_alui A_add addr b (imms12 a);;
  s ← cpu src_reg (ha a);
  tcg_gen_qemu_st_i64 s addr m;;
  mret true.

(** The range checks of the multiple-register instructions emit the
    exception and go on. *)
Definition check_range (regs : list Z) (n : Z) : gen () :=
  when (n =? 0) gen_exception_illegal_instruction;;
  foldr (fun r k => when (64 <? r + n) gen_exception_illegal_instruction;; k) (mret ()) regs.

(** A register index leaves [0, 64) after at most 65 rounds. *)
Definition loop_fuel : nat := 66.

Fixpoint ldm_loop (fuel : nat) (dest_reg : regfile) (m : memop) (addr temp : tcgv)
    (ha immu6 : Z) : gen () :=
  match fuel with
  | O => gfuel
  | S fuel =>
      tcg_gen_qemu_ld_i64 temp addr m;;
      when (negb (ha =? 0) || writable0 [RF; RA] dest_reg)
        (d ← cpu dest_reg ha; tcg_gen_mov_i64 d temp);;
      let ha := ha + 1 in
      let immu6 := immu6 - 1 in
      tcg_gen_alui A_add addr addr (Z.shiftl 1 (mo_size m));;
      if immu6 =? 0 then mret () else ldm_loop fuel dest_reg m addr temp ha immu6
  end.

Definition INSN_LDM_RRRI (dest_reg : regfile) (m : memop) (a : args) : gen bool :=
  check_range [ha a] (immu6 a);;
  addr ← tcg_temp_new_i64;
  temp ← tcg_temp_new_i64;
  b ← cpu RB (hb a); c ← cpu RD (hc a);
  tcg_gen_alu A_add addr b c;;
  ldm_loop loop_fuel dest_reg m addr temp (ha a) (immu6 a);;
  mret true.

Fixpoint stm_loop (fuel : nat) (src_reg : regfile) (m : memop) (addr : tcgv)
    (ha immu6 : Z) : gen () :=
  match fuel with
  | O => gfuel
  | S fuel =>
      s ← cpu src_reg ha;
      tcg_gen_qemu_st_i64 s addr m;;
      let ha := ha + 1 in
      let immu6 := immu6 - 1 in
      tcg_gen_alui A_add addr addr (Z.shiftl 1 (mo_size m));;
      if immu6 =? 0 then mret () else stm_loop fuel src_reg m addr ha immu6
  end.

Definition INSN_STM_RRRI (src_reg : regfile) (m : memop) (a : args) : gen bool :=
  check_range [ha a] (immu6 a);;
  addr ← tcg_temp_new_i64;
  b ← cpu RB (hb a); c ← cpu RD (hc a);
  tcg_gen_alu A_add addr b c;;
  stm_loop loop_fuel src_reg m addr (ha a) (immu6 a);;
  mret true.

(** ** Register assignment *)

(** The loop of INSN_R2R_ORRI and INSN_FCVT_ORRI over [move hb hc]. *)
Fixpoint r2r_loop (fuel : nat) (move : Z -> Z -> gen ()) (hb hc immu6 : Z) : gen () :=
  match fuel with
  | O => gfuel
  | S fuel =>
      move hb hc;;
      let '(hb, hc) := if hc <? hb then (hb - 1, hc - 1) else (hb + 1, hc + 1) in
      let immu6 := immu6 - 1 in
      if immu6 =? 0 then mret () else r2r_loop fuel move hb hc immu6
  end.

Definition r2r_body (move : Z -> Z -> gen ()) (a : args) : gen bool :=
  check_range [hb a; hc a] (immu6 a);;
  let '(b, c) := if hc a <? hb a then (hb a + (immu6 a - 1), hc a + (immu6 a - 1))
                 else (hb a, hc a) in
  r2r_loop loop_fuel move b c (immu6 a);;
  mret true.

Definition r2r_move (src_reg dest_reg : regfile) (b c : Z) : gen () :=
  when (negb (b =? 0) || writable0 [RF; RA] dest_reg)
    (d ← cpu dest_reg b; s ← cpu src_reg c; tcg_gen_mov_i64 d s).

Definition INSN_R2R_ORRI (src_reg dest_reg : regfile) : args -> gen bool :=
  r2r_body (r2r_move src_reg dest_reg).

Definition INSN_CSET1_RRRR (cond : tcg_cond) (a : args) : gen bool :=
  if hb a =? 0 then mret true
  else
    d ← cpu RD (hb a); x ← cpu RD (ha a); z ← cpu RD 0;
    v1 ← cpu RD (hc a); v2 ← cpu RD (hd a);
    emit (O_movcond cond d x z v1 v2);;
    mret true.

Definition INSN_CSET2_RRRR (cond : tcg_cond) (a : args) : gen bool :=
  if hc a =? 0 then mret true
  else
    d ← cpu RD (hc a); x ← cpu RD (ha a); y ← cpu RD (hb a);
    v1 ← cpu RD (hd a); v2 ← cpu RD (hc a);
    emit (O_movcond cond d x y v1 v2);;
    mret true.

(** immu16 << (ww * 16), an int64_t *)
Definition wyde (a : args) : Z := w64 (Z.shiftl (immu16 a) (ww a * 16)).
Definition not_wyde_mask (a : args) : Z := w64 (Z.lnot (Z.shiftl 0xFFFF (ww a * 16))).

Definition trans_SETOW (a : args) : gen bool :=
  if ha a =? 0 then mret true
  else
    let arg := Z.lor (wyde a) (not_wyde_mask a) in
    d ← cpu RD (ha a);
    tcg_gen_movi_i64 d arg;;
    mret true.

Definition INSN_SETZW_RWII (cpu_ha : regfile) (a : args) : gen bool :=
  if ha a =? 0 then mret true
  else d ← cpu cpu_ha (ha a); tcg_gen_movi_i64 d (wyde a);; mret true.

Definition INSN_ORW_RWII (cpu_ha : regfile) (a : args) : gen bool :=
  if ha a =? 0 then mret true
  else d ← cpu cpu_ha (ha a); tcg_gen_alui A_or d d (wyde a);; mret true.

Definition INSN_ANDNW_RWII (cpu_ha : regfile) (a : args) : gen bool :=
  if ha a =? 0 then mret true
  else d ← cpu cpu_ha (ha a); tcg_gen_alui A_and d d (w64 (Z.lnot (wyde a)));; mret true.

Definition trans_SETW (a : args) : gen bool :=
  d ← cpu RF (ha a);
  tcg_gen_alui A_and d d (not_wyde_mask a);;
  tcg_gen_alui A_or d d (wyde a);;
  mret true.

(** ** Arithmetic *)
Definition INSN_ALG1_RRRR (o : alu_op) (o2 : wide_op) (a : args) : gen bool :=
  if (ha a =? 0) && negb (hb a =? 0) then
    d ← cpu RD (hb a); x ← cpu RD (hc a); y ← cpu RD (hd a);
    tcg_gen_alu o d x y;;
    mret true
  else
    temp1 ← tcg_temp_new_i64;
    temp2 ← tcg_temp_new_i64;
    x ← cpu RD (hc a); y ← cpu RD (hd a);
    tcg_gen_alui A_sar temp1 x 63;;
    tcg_gen_alui A_sar temp2 y 63;;
    emit (O_wide o2 temp1 temp2 x temp1 y temp2);;
    when (negb (hb a =? 0)) (d ← cpu RD (hb a); tcg_gen_mov_i64 d temp1);;
    when (negb (ha a =? 0)) (d ← cpu RD (ha a); tcg_gen_mov_i64 d temp2);;
    mret true.

Definition INSN_ALG1_ORRR (o : alu_op) (a : args) : gen bool :=
  if hb a =? 0 then mret true
  else
    d ← cpu RB (hb a); x ← cpu RB (hc a); y ← cpu RD (hd a);
    tcg_gen_alu o d x y;;
    mret true.

Definition INSN_ALG1_RRII (src_dest : regfile) (a : args) : gen bool :=
  if ha a =? 0 then mret true
  else
    d ← cpu src_dest (ha a); x ← cpu src_dest (hb a);
    tcg_gen_alui A_add d x (imms12 a);;
    mret true.

Definition INSN_CMP_RRII (imm12 : args -> Z) (cond : tcg_cond) (a : args) : gen bool :=
  if ha a =? 0 then mret true
  else
    imm ← tcg_constant_i64 (imm12 a);
    neg ← tcg_constant_i64 (-1);
    temp ← tcg_temp_new_i64;
    x ← cpu RD (hb a); d ← cpu RD (ha a);
    emit (O_setcond cond temp x imm);;
    emit (O_movcond cond d imm x neg temp);;
    mret true.

Definition INSN_CMP_ORRR (src_reg : regfile) (cond : tcg_cond) (a : args) : gen bool :=
  if hb a =? 0 then mret true
  else
    neg ← tcg_constant_i64 (-1);
    temp ← tcg_temp_new_i64;
    x ← cpu src_reg (hc a); y ← cpu src_reg (hd a); d ← cpu RD (hb a);
    emit (O_setcond cond temp x y);;
    emit (O_movcond cond d y x neg temp);;
    mret true.

Definition INSN_MUL_RRRR (o : mul_op) (a : args) : gen bool :=
  temp1 ← tcg_temp_new_i64;
  temp2 ← tcg_temp_new_i64;
  x ← cpu RD (hc a); y ← cpu RD (hd a);
  emit (O_mul o temp1 temp2 x y);;
  when (negb (ha a =? 0)) (d ← cpu RD (ha a); tcg_gen_mov_i64 d temp2);;
  when (negb (hb a =? 0)) (d ← cpu RD (hb a); tcg_gen_mov_i64 d temp1);;
  mret true.

Definition INSN_DIV_RRRR (divop remop : alu_op) (a : args) : gen bool :=
  label_not_zero ← gen_new_label;
  y ← cpu RD (hd a); z ← cpu RD 0;
  emit (O_brcond TCG_COND_NE y z label_not_zero);;
  gen_exception DADAO_EXCP_FPER;;
  emit (O_label label_not_zero);;
  temp1 ← tcg_temp_new_i64;
  temp2 ← tcg_temp_new_i64;
  x ← cpu RD (hc a);
  tcg_gen_alu divop temp1 x y;;
  tcg_gen_alu remop temp2 x y;;
  when (negb (ha a =? 0)) (d ← cpu RD (ha a); tcg_gen_mov_i64 d temp2);;
  when (negb (hb a =? 0)) (d ← cpu RD (hb a); tcg_gen_mov_i64 d temp1);;
  mret true.

Definition trans_ADRP (a : args) : gen bool :=
  if ha a =? 0 then mret true
  else
    c ← get_ctx;
    d ← cpu RB (ha a);
    tcg_gen_movi_i64 d (pc_next c);;
    tcg_gen_alui A_and d d (w64 (Z.lnot 0xFFF));;
    tcg_gen_alui A_add d d (Z.shiftl (imms18 a) 12);;
    mret true.

(** ** Logic *)
Definition INSN_LOGIC_ORRR (o : alu_op) (a : args) : gen bool :=
  when (negb (hb a =? 0))
    (d ← cpu RD (hb a); x ← cpu RD (hc a); y ← cpu RD (hd a); tcg_gen_alu o d x y);;
  mret true.

Definition trans_XNOR (a : args) : gen bool :=
  if hb a =? 0 then mret true
  else
    d ← cpu RD (hb a); x ← cpu RD (hc a); y ← cpu RD (hd a);
    tcg_gen_alu A_xor d x y;;
    tcg_gen_alui A_xor d d 0xffffffffffffffff;;
    mret true.

Definition trans_ANDI (a : args) : gen bool :=
  if ha a =? 0 then mret true
  else
    d ← cpu RD (ha a); x ← cpu RD (hb a);
    tcg_gen_alui A_and d x (immu12 a);;
    mret true.

Definition INSN_EXT_ORRR (o : alu_op) (a : args) : gen bool :=
  if hb a =? 0 then mret true
  else
    imm ← tcg_temp_new_i64;
    y ← cpu RD (hd a);
    tcg_gen_mov_i64 imm y;;
    d ← cpu RD (hb a); x ← cpu RD (hc a);
    tcg_gen_alu A_shl d x imm;;
    tcg_gen_alu o d d imm;;
    mret true.

Definition INSN_LOGIC_ORRI (o : alu_op) (a : args) : gen bool :=
  when (negb (hb a =? 0))
    (d ← cpu RD (hb a); x ← cpu RD (hc a); tcg_gen_alui o d x (immu6 a));;
  mret true.

Definition INSN_EXT_ORRI (o : alu_op) (a : args) : gen bool :=
  if hb a =? 0 then mret true
  else
    d ← cpu RD (hb a); x ← cpu RD (hc a);
    tcg_gen_alui A_shl d x (immu6 a);;
    tcg_gen_alui o d d (immu6 a);;
    mret true.

(** ** Control flow *)
Definition trans_SWYM (a : args) : gen bool := mret true.
Definition trans_UNIMP (a : args) : gen bool :=
  gen_exception_illegal_instruction;; mret true.

Definition INSN_BR_RRII (cond : tcg_cond) (a : args) : gen bool :=
  c ← get_ctx;
  next ← tcg_constant_i64 (pc_next c + 4);
  dest ← tcg_constant_i64 (pc_next c + imms12 a * 4);
  x ← cpu RD (ha a); y ← cpu RD (hb a);
  emit (O_movcond cond Gjmp_pc x y dest next);;
  set_is_jmp DISAS_JUMP;;
  mret true.

Definition INSN_BR_RIII (cond : tcg_cond) (a : args) : gen bool :=
  c ← get_ctx;
  next ← tcg_constant_i64 (pc_next c + 4);
  dest ← tcg_constant_i64 (pc_next c + imms18 a * 4);
  x ← cpu RD (ha a); z ← cpu RD 0;
  emit (O_movcond cond Gjmp_pc x z dest next);;
  set_is_jmp DISAS_JUMP;;
  mret true.

Definition trans_JUMPi (a : args) : gen bool :=
  set_is_jmp DISAS_JUMP;;
  c ← get_ctx;
  set_jmp_pc_imm (w64 (pc_next c + imms24 a * 4));;
  mret true.

Definition trans_JUMPr (a : args) : gen bool :=
  b ← cpu RB (ha a); r ← cpu RD (hb a);
  tcg_gen_mov_i64 Gjmp_pc b;;
  tcg_gen_alu A_add Gjmp_pc Gjmp_pc r;;
  tcg_gen_alui A_add Gjmp_pc Gjmp_pc (imms12 a * 4);;
  set_is_jmp DISAS_JUMP;;
  mret true.

(** for (i = 1; i < 63; ++i) ra[i] = ra[i + 1], and the way back. *)
Definition ra_moves (ixs : list (Z * Z)) : gen () :=
  foldr (fun '(d, s) k => x ← cpu RA d; y ← cpu RA s; tcg_gen_mov_i64 x y;; k)
    (mret ()) ixs.
Definition push_moves : list (Z * Z) := (fun i => (i, i + 1)) <$> seqZ 1 62.
Definition pop_moves : list (Z * Z) := (fun i => (i + 1, i)) <$> rev (seqZ 1 62).

Definition push_return_address : gen () :=
  zero ← tcg_constant_i64 0;
  reg_ras_not_full ← gen_new_label;
  rasp_set ← gen_new_label;
  ra1 ← cpu RA 1; rasp ← cpu RA 0; ra63 ← cpu RA 63;
  emit (O_brcond TCG_COND_EQ ra1 zero reg_ras_not_full);;
  emit (O_brcond TCG_COND_NE rasp zero rasp_set);;
  gen_exception DADAO_EXCP_TRIP;;
  emit (O_label rasp_set);;
  tcg_gen_alui A_add rasp rasp (-8);;
  tcg_gen_qemu_st_i64 ra1 rasp MO_TEUQ;;
  emit (O_label reg_ras_not_full);;
  ra_moves push_moves;;
  c ← get_ctx;
  tcg_gen_movi_i64 ra63 (pc_next c + 4).

Definition pop_return_address : gen () :=
  zero ← tcg_constant_i64 0;
  reg_ras_not_empty ← gen_new_label;
  rasp_set ← gen_new_label;
  done ← gen_new_label;
  ra1 ← cpu RA 1; rasp ← cpu RA 0; ra63 ← cpu RA 63;
  emit (O_brcond TCG_COND_NE ra63 zero reg_ras_not_empty);;
  emit (O_brcond TCG_COND_NE rasp zero rasp_set);;
  gen_exception DADAO_EXCP_TRIP;;
  emit (O_label rasp_set);;
  tcg_gen_qemu_ld_i64 Gjmp_pc rasp MO_TEUQ;;
  tcg_gen_alui A_add rasp rasp 8;;
  emit (O_br done);;
  emit (O_label reg_ras_not_empty);;
  tcg_gen_mov_i64 Gjmp_pc ra63;;
  ra_moves pop_moves;;
  tcg_gen_mov_i64 ra1 zero;;
  emit (O_label done).

Definition trans_CALLi (a : args) : gen bool := push_return_address;; trans_JUMPi a.
Definition trans_CALLr (a : args) : gen bool := push_return_address;; trans_JUMPr a.

Definition trans_RET (a : args) : gen bool :=
  when (negb (ha a =? 0)) (d ← cpu RD (ha a); tcg_gen_movi_i64 d (imms18 a));;
  pop_return_address;;
  set_is_jmp DISAS_JUMP;;
  mret true.

(** ** Floating point *)
Definition fcvt_move (src_reg dest_reg : regfile) (fn : string) (b c : Z) : gen () :=
  when (negb (b =? 0)) (d ← cpu dest_reg b; s ← cpu src_reg c; emit (O_helper fn d [s])).

Definition INSN_FCVT_ORRI (src_reg dest_reg : regfile) (fn : string) : args -> gen bool :=
  r2r_body (fcvt_move src_reg dest_reg fn).

Definition INSN_FALG_ORRR (fn : string) (a : args) : gen bool :=
  d ← cpu RF (hb a); x ← cpu RF (hc a); y ← cpu RF (hd a);
  emit (O_helper fn d [x; y]);;
  mret true.

Definition INSN_FALG_RRRR (fn : string) (a : args) : gen bool :=
  d ← cpu RF (ha a); x ← cpu RF (hb a); y ← cpu RF (hc a); z ← cpu RF (hd a);
  emit (O_helper fn d [x; y; z]);;
  mret true.

Definition INSN_FALG_ORRI (fn : string) (a : args) : gen bool :=
  when (negb (immu6 a =? 2)) gen_exception_illegal_instruction;;
  d ← cpu RF (hb a); x ← cpu RF (hc a);
  emit (O_helper fn d [x]);;
  mret true.

Definition INSN_FCMP_ORRR (fn : string) (a : args) : gen bool :=
  d ← cpu RD (hb a); x ← cpu RF (hc a); y ← cpu RF (hd a);
  emit (O_helper fn d [x; y]);;
  mret true.

Definition INSN_FCSET_RRRR (cond : tcg_cond) (a : args) : gen bool :=
  d ← cpu RF (hb a); x ← cpu RD (ha a); z ← cpu RD 0;
  v1 ← cpu RF (hc a); v2 ← cpu RF (hd a);
  emit (O_movcond cond d x z v1 v2);;
  mret true.

Definition INSN_FCSET_ORRR (cond : tcg_cond) (a : args) : gen bool :=
  one ← tcg_constant_i64 1;
  d ← cpu RF (hc a); x ← cpu RD (hb a); v1 ← cpu RF (hd a); v2 ← cpu RF (hc a);
  emit (O_movcond cond d x one v1 v2);;
  mret true.

(** ** System and atomics *)
Definition trans_TRAP (a : args) : gen bool :=
  if negb (ha a =? 0) || negb (immu18 a =? 0) then mret false
  else gen_exception DADAO_EXCP_TRAP;; set_is_jmp DISAS_NORETURN;; mret true.
Definition trans_ESCAPE (a : args) : gen bool := mret false.
Definition trans_CPCO (a : args) : gen bool := mret false.
Definition trans_CPRD (a : args) : gen bool := mret false.
Definition trans_CPWR (a : args) : gen bool := mret false.
Definition trans_CPLD (a : args) : gen bool := mret false.
Definition trans_CPST (a : args) : gen bool := mret false.
Definition trans_FENCE (a : args) : gen bool := mret true.

(** The four LRO variants differ in the barriers around the load. *)
Definition LRO (before after : list (list string)) (a : args) : gen bool :=
  if (hd a =? 0) || negb (hb a =? 0) then mret false
  else if hc a =? 0 then mret true
  else
    src ← tcg_temp_new_i64;
    b ← cpu RB (hd a);
    tcg_gen_mov_i64 src b;;
    foldr (fun f k => emit (O_mb f);; k) (mret ()) before;;
    tcg_gen_qemu_ld_i64 Gload_val src MO_TEUQ;;
    foldr (fun f k => emit (O_mb f);; k) (mret ()) after;;
    tcg_gen_mov_i64 Gload_res src;;
    d ← cpu RD (hc a);
    tcg_gen_mov_i64 d Gload_val;;
    mret true.

Definition trans_LRO_NN := LRO [] [].
Definition trans_LRO_NR := LRO [["TCG_MO_ALL"; "TCG_BAR_STRL"]] [].
Definition trans_LRO_AN := LRO [] [["TCG_MO_ALL"; "TCG_BAR_LDAQ"]].
Definition trans_LRO_AR := LRO [["TCG_MO_ALL"; "TCG_BAR_STRL"]] [["TCG_MO_ALL"; "TCG_BAR_LDAQ"]].

(** The four SCO variants differ in the barrier of the failing path. *)
Definition SCO (barrier : list string) (a : args) : gen bool :=
  if (hd a =? 0) || (hb a =? 0) then mret false
  else
    src ← tcg_temp_new_i64;
    dat ← tcg_temp_new_i64;
    l1 ← gen_new_label;
    l2 ← gen_new_label;
    b ← cpu RB (hd a);
    tcg_gen_mov_i64 src b;;
    emit (O_brcond TCG_COND_NE Gload_res src l1);;
    new ← cpu RD (hc a);
    c ← get_ctx;
    emit (O_cmpxchg src Gload_res Gload_val new (mem_idx c) MO_TEUQ);;
    emit (O_setcond TCG_COND_NE dat src Gload_val);;
    d ← cpu RD (hb a);
    tcg_gen_mov_i64 d dat;;
    emit (O_br l2);;
    emit (O_label l1);;
    emit (O_mb barrier);;
    tcg_gen_movi_i64 dat 1;;
    tcg_gen_mov_i64 d dat;;
    emit (O_label l2);;
    tcg_gen_movi_i64 Gload_res (-1);;
    mret true.

Definition trans_SCO_NN := SCO ["TCG_MO_ALL"].
Definition trans_SCO_NR := SCO ["TCG_MO_ALL"; "TCG_BAR_STRL"].
Definition trans_SCO_AN := SCO ["TCG_MO_ALL"; "TCG_BAR_LDAQ"].
Definition trans_SCO_AR := SCO ["TCG_MO_ALL"; "TCG_BAR_LDAQ"; "TCG_BAR_STRL"].

(** ** The instantiations: trans_<insn> by the name of the pattern *)
Definition trans_ldst : list (string * (args -> gen bool)) :=
  [("LDBS", INSN_LD_RRII RD MO_SB); ("LDBU", INSN_LD_RRII RD MO_UB);
   ("LDWS", INSN_LD_RRII RD MO_TESW); ("LDWU", INSN_LD_RRII RD MO_TEUW);
   ("LDTS", INSN_LD_RRII RD MO_TESL); ("LDTU", INSN_LD_RRII RD MO_TEUL);
   ("LDT", INSN_LD_RRII RF MO_TEUL); ("LDOrd", INSN_LD_RRII RD MO_TEUQ);
   ("LDOrb", INSN_LD_RRII RB MO_TEUQ); ("LDOrf", INSN_LD_RRII RF MO_TEUQ);
   ("STB", INSN_ST_RRII RD MO_UB); ("STW", INSN_ST_RRII RD MO_TEUW);
   ("STTrd", INSN_ST_RRII RD MO_TEUL); ("STTrf", INSN_ST_RRII RF MO_TEUL);
   ("STOrd", INSN_ST_RRII RD MO_TEUQ); ("STOrb", INSN_ST_RRII RB MO_TEUQ);
   ("STOrf", INSN_ST_RRII RF MO_TEUQ)].

Definition trans_ldstm : list (string * (args -> gen bool)) :=
  [("LDMBS", INSN_LDM_RRRI RD MO_SB); ("LDMBU", INSN_LDM_RRRI RD MO_UB);
   ("LDMWS", INSN_LDM_RRRI RD MO_TESW); ("LDMWU", INSN_LDM_RRRI RD MO_TEUW);
   ("LDMTS", INSN_LDM_RRRI RD MO_TESL); ("LDMTU", INSN_LDM_RRRI RD MO_TEUL);
   ("LDMT", INSN_LDM_RRRI RF MO_TEUL); ("LDMOrd", INSN_LDM_RRRI RD MO_TEUQ);
   ("LDMOrb", INSN_LDM_RRRI RB MO_TEUQ); ("LDMOrf", INSN_LDM_RRRI RF MO_TEUQ);
   ("LDMOra", INSN_LDM_RRRI RA MO_TEUQ);
   ("STMB", INSN_STM_RRRI RD MO_UB); ("STMW", INSN_STM_RRRI RD MO_TEUW);
   ("STMTrd", INSN_STM_RRRI RD MO_TEUL); ("STMTrf", INSN_STM_RRRI RF MO_TEUL);
   ("STMOrd", INSN_STM_RRRI RD MO_TEUQ); ("STMOrb", INSN_STM_RRRI RB MO_TEUQ);
   ("STMOrf", INSN_STM_RRRI RF MO_TEUQ); ("STMOra", INSN_STM_RRRI RA MO_TEUQ)].

Definition trans_assign : list (string * (args -> gen bool)) :=
  [("RD2RD", INSN_R2R_ORRI RD RD); ("RD2RB", INSN_R2R_ORRI RD RB);
   ("RB2RD", INSN_R2R_ORRI RB RD); ("RB2RB", INSN_R2R_ORRI RB RB);
   ("RD2RF", INSN_R2R_ORRI RD RF); ("RF2RD", INSN_R2R_ORRI RF RD);
   ("RF2RF", INSN_R2R_ORRI RF RF); ("RD2RA", INSN_R2R_ORRI RD RA);
   ("RA2RD", INSN_R2R_ORRI RA RD);
   ("CSNrd", INSN_CSET1_RRRR TCG_COND_LT); ("CSZrd", INSN_CSET1_RRRR TCG_COND_EQ);
   ("CSPrd", INSN_CSET1_RRRR TCG_COND_GT);
   ("CSEQ", INSN_CSET2_RRRR TCG_COND_EQ); ("CSNE", INSN_CSET2_RRRR TCG_COND_NE);
   ("SETOW", trans_SETOW);
   ("SETZWrd", INSN_SETZW_RWII RD); ("SETZWrb", INSN_SETZW_RWII RB);
   ("ORWrd", INSN_ORW_RWII RD); ("ORWrb", INSN_ORW_RWII RB);
   ("ANDNWrd", INSN_ANDNW_RWII RD); ("ANDNWrb", INSN_ANDNW_RWII RB);
   ("SETW", trans_SETW)].

Definition trans_arith : list (string * (args -> gen bool)) :=
  [("ADDrd", INSN_ALG1_RRRR A_add W_add2); ("SUBrd", INSN_ALG1_RRRR A_sub W_sub2);
   ("ADDrb", INSN_ALG1_ORRR A_add); ("SUBrb", INSN_ALG1_ORRR A_sub);
   ("ADDIrd", INSN_ALG1_RRII RD); ("ADDIrb", INSN_ALG1_RRII RB);
   ("CMPSi", INSN_CMP_RRII imms12 TCG_COND_GT); ("CMPUi", INSN_CMP_RRII immu12 TCG_COND_GTU);
   ("CMPSr", INSN_CMP_ORRR RD TCG_COND_GT); ("CMPUr", INSN_CMP_ORRR RD TCG_COND_GTU);
   ("CMP", INSN_CMP_ORRR RB TCG_COND_GTU);
   ("MULS", INSN_MUL_RRRR M_muls2); ("MULU", INSN_MUL_RRRR M_mulu2);
   ("DIVS", INSN_DIV_RRRR A_div A_rem); ("DIVU", INSN_DIV_RRRR A_divu A_remu);
   ("ADRP", trans_ADRP)].

Definition trans_logic : list (string * (args -> gen bool)) :=
  [("AND", INSN_LOGIC_ORRR A_and); ("ORR", INSN_LOGIC_ORRR A_or); ("XOR", INSN_LOGIC_ORRR A_xor);
   ("SHLUr", INSN_LOGIC_ORRR A_shl); ("SHRUr", INSN_LOGIC_ORRR A_shr);
   ("SHRSr", INSN_LOGIC_ORRR A_sar);
   ("XNOR", trans_XNOR); ("ANDI", trans_ANDI);
   ("EXTSr", INSN_EXT_ORRR A_sar); ("EXTZr", INSN_EXT_ORRR A_shr);
   ("SHLUi", INSN_LOGIC_ORRI A_shl); ("SHRUi", INSN_LOGIC_ORRI A_shr);
   ("SHRSi", INSN_LOGIC_ORRI A_sar);
   ("EXTSi", INSN_EXT_ORRI A_sar); ("EXTZi", INSN_EXT_ORRI A_shr)].

Definition trans_control : list (string * (args -> gen bool)) :=
  [("SWYM", trans_SWYM); ("UNIMP", trans_UNIMP);
   ("BREQ", INSN_BR_RRII TCG_COND_EQ); ("BRNE", INSN_BR_RRII TCG_COND_NE);
   ("BRN", INSN_BR_RIII TCG_COND_LT); ("BRNN", INSN_BR_RIII TCG_COND_GE);
   ("BRZ", INSN_BR_RIII TCG_COND_EQ); ("BRNZ", INSN_BR_RIII TCG_COND_NE);
   ("BRP", INSN_BR_RIII TCG_COND_GT); ("BRNP", INSN_BR_RIII TCG_COND_LE);
   ("JUMPi", trans_JUMPi); ("JUMPr", trans_JUMPr);
   ("CALLi", trans_CALLi); ("CALLr", trans_CALLr); ("RET", trans_RET)].

Definition trans_fcvt : list (string * (args -> gen bool)) :=
  [("FTCLS", INSN_FCVT_ORRI RF RD "ftcls"); ("FOCLS", INSN_FCVT_ORRI RF RD "focls");
   ("FT2FO", INSN_FCVT_ORRI RF RF "ft2fo"); ("FO2FT", INSN_FCVT_ORRI RF RF "fo2ft");
   ("FT2IT", INSN_FCVT_ORRI RF RD "ft2it"); ("FT2IO", INSN_FCVT_ORRI RF RD "ft2io");
   ("FT2UT", INSN_FCVT_ORRI RF RD "ft2ut"); ("FT2UO", INSN_FCVT_ORRI RF RD "ft2uo");
   ("IT2FT", INSN_FCVT_ORRI RD RF "it2ft"); ("IO2FT", INSN_FCVT_ORRI RD RF "io2ft");
   ("UT2FT", INSN_FCVT_ORRI RD RF "ut2ft"); ("UO2FT", INSN_FCVT_ORRI RD RF "uo2ft");
   ("FO2IT", INSN_FCVT_ORRI RF RD "fo2it"); ("FO2IO", INSN_FCVT_ORRI RF RD "fo2io");
   ("FO2UT", INSN_FCVT_ORRI RF RD "fo2ut"); ("FO2UO", INSN_FCVT_ORRI RF RD "fo2uo");
   ("IT2FO", INSN_FCVT_ORRI RD RF "it2fo"); ("IO2FO", INSN_FCVT_ORRI RD RF "io2fo");
   ("UT2FO", INSN_FCVT_ORRI RD RF "ut2fo"); ("UO2FO", INSN_FCVT_ORRI RD RF "uo2fo")].

Definition trans_falg : list (string * (args -> gen bool)) :=
  [("FTADD", INSN_FALG_ORRR "ftadd"); ("FTSUB", INSN_FALG_ORRR "ftsub");
   ("FTMUL", INSN_FALG_ORRR "ftmul"); ("FTDIV", INSN_FALG_ORRR "ftdiv");
   ("FTREM", INSN_FALG_ORRR "ftrem"); ("FOADD", INSN_FALG_ORRR "foadd");
   ("FOSUB", INSN_FALG_ORRR "fosub"); ("FOMUL", INSN_FALG_ORRR "fomul");
   ("FODIV", INSN_FALG_ORRR "fodiv"); ("FOREM", INSN_FALG_ORRR "forem");
   ("FTSGNJ", INSN_FALG_ORRR "ftsgnj"); ("FTSGNN", INSN_FALG_ORRR "ftsgnn");
   ("FOSGNJ", INSN_FALG_ORRR "fosgnj"); ("FOSGNN", INSN_FALG_ORRR "fosgnn");
   ("FTMADD", INSN_FALG_RRRR "ftmadd"); ("FOMADD", INSN_FALG_RRRR "fomadd");
   ("FTROOT", INSN_FALG_ORRI "ftroot"); ("FOROOT", INSN_FALG_ORRI "foroot");
   ("FTLOG", INSN_FALG_ORRI "ftlog"); ("FOLOG", INSN_FALG_ORRI "folog");
   ("FTQCMP", INSN_FCMP_ORRR "ftqcmp"); ("FTSCMP", INSN_FCMP_ORRR "ftscmp");
   ("FOQCMP", INSN_FCMP_ORRR "foqcmp"); ("FOSCMP", INSN_FCMP_ORRR "foscmp");
   ("CSNrf", INSN_FCSET_RRRR TCG_COND_LT); ("CSZrf", INSN_FCSET_RRRR TCG_COND_EQ);
   ("CSPrf", INSN_FCSET_RRRR TCG_COND_GT);
   ("CSP1", INSN_FCSET_ORRR TCG_COND_EQ); ("CSNP1", INSN_FCSET_ORRR TCG_COND_NE)].

Definition trans_system : list (string * (args -> gen bool)) :=
  [("TRAP", trans_TRAP); ("ESCAPE", trans_ESCAPE); ("CPCO", trans_CPCO);
   ("CPRD", trans_CPRD); ("CPWR", trans_CPWR); ("CPLD", trans_CPLD); ("CPST", trans_CPST);
   ("FENCE", trans_FENCE);
   ("LRO_NN", trans_LRO_NN); ("LRO_NR", trans_LRO_NR);
   ("LRO_AN", trans_LRO_AN); ("LRO_AR", trans_LRO_AR);
   ("SCO_NN", trans_SCO_NN); ("SCO_NR", trans_SCO_NR);
   ("SCO_AN", trans_SCO_AN); ("SCO_AR", trans_SCO_AR)].

Definition trans_table : list (string * (args -> gen bool)) :=
  (trans_ldst ++ trans_ldstm ++ trans_assign ++ trans_arith ++ trans_logic ++
   trans_control ++ trans_fcvt ++ trans_falg ++ trans_system)%list.

(** ** The translator hooks

    [disas_dadao] is the decoder decodetree generates: a parameter. *)
Section Hooks.
Variable disas_dadao : Z -> gen bool.

Definition dadao_tr_init_disas_context (pc_first : Z) : DisasContext :=
  DC pc_first DISAS_NEXT 0 (w64 (-1)).

Definition dadao_tr_insn_start : gen () :=
  c ← get_ctx; emit (O_insn_start (pc_next c)).

(** [insn] is the word translator_ldl reads at pc_next. *)
Definition dadao_tr_translate_insn (insn : Z) : gen () :=
  rd0 ← cpu RD 0; rf0 ← cpu RF 0;
  tcg_gen_movi_i64 rd0 0;;
  tcg_gen_alui A_and rf0 rf0 (Z.lor DDAEE_FCSR_MASK_RDMODE DDAEE_FCSR_MASK_FFLAGS);;
  tcg_gen_alui A_or rf0 rf0 DDAEE_FCSR_DEFAULT;;
  ok ← disas_dadao insn;
  if negb ok then gen_exception_illegal_instruction
  else
    c ← get_ctx;
    set_pc_next (w64 (pc_next c + 4));;
    c ← get_ctx;
    when (bool_decide (is_jmp c = DISAS_NEXT))
      (pc ← cpu RB 0; tcg_gen_movi_i64 pc (pc_next c)).

(** [goto_tb] is translator_use_goto_tb. *)
Definition dadao_tr_tb_stop (goto_tb : Z -> bool) : gen () :=
  c ← get_ctx;
  pc ← cpu RB 0;
  let too_many (jmp_dest : Z) : gen () :=
    if goto_tb jmp_dest
    then emit (O_goto_tb 0);; tcg_gen_movi_i64 pc jmp_dest;; emit (O_exit_tb 0)
    else tcg_gen_movi_i64 pc jmp_dest;; emit O_lookup_and_goto_ptr in
  match is_jmp c with
  | DISAS_NORETURN => mret ()
  | DISAS_JUMP =>
      let jmp_dest := jmp_pc_imm c in
      if jmp_dest =? w64 (-1)
      then tcg_gen_mov_i64 pc Gjmp_pc;; emit (O_discard Gjmp_pc);;
           emit O_lookup_and_goto_ptr
      else emit (O_discard Gjmp_pc);; too_many jmp_dest
  | DISAS_TOO_MANY => too_many (pc_next c)
  | DISAS_NEXT => goob                        (* g_assert_not_reached *)
  end.

(** A block of one instruction: translator_loop with max_insns = 1, which
    turns DISAS_NEXT into DISAS_TOO_MANY at the end of the block. *)
Definition translate_one (goto_tb : Z -> bool) (pc insn : Z) : gres () :=
  (dadao_tr_insn_start;;
   dadao_tr_translate_insn insn;;
   (c ← get_ctx;
    when (bool_decide (is_jmp c = DISAS_NEXT)) (set_is_jmp DISAS_TOO_MANY));;
   dadao_tr_tb_stop goto_tb)
    (GSt (dadao_tr_init_disas_context pc) 0 0 []).
End Hooks.
