(* ===== verification/Run.v ===== *)
(** Translating an instruction and running what was emitted.

    [runs] composes the translator and the executor; [observe] forgets the
    temporaries.  The lemmas step through a generator ([gen_*]) and through
    an operation list ([exec_*]); the tactic [gen_run] does both. *)
From S2P Require Import Prelude Cpu Tcg Translate.

Inductive result (M : Type) :=
  | RFall (env : CPUDADAOState) (mem : M)
  | RExit (env : CPUDADAOState) (mem : M)
  | RRaise (excp : Z) (env : CPUDADAOState) (mem : M)
  | RFault (env : CPUDADAOState) (mem : M)
  | RNoLabel.
Arguments RFall {M}. Arguments RExit {M}. Arguments RRaise {M}. Arguments RFault {M}.
Arguments RNoLabel {M}.

Definition observe {M} (o : outcome M) : result M :=
  match o with
  | Fall m => RFall (m_env m) (m_mem m)
  | Exit m => RExit (m_env m) (m_mem m)
  | Raise e m => RRaise e (m_env m) (m_mem m)
  | Fault m => RFault (m_env m) (m_mem m)
  | NoLabel => RNoLabel
  end.

(** ** Stepping through a generator *)
Lemma gen_bind_eq {A B} (m : gen A) (k : A -> gen B) s :
  (m ≫= k) s = match m s with GOk a s => k a s | GOob => GOob | GFuel => GFuel end.
Proof. done. Qed.
Lemma gen_assoc {A B C} (m : gen A) (k : A -> gen B) (j : B -> gen C) s :
  ((m ≫= k) ≫= j) s = (m ≫= (fun a => k a ≫= j)) s.
Proof. rewrite !gen_bind_eq. by destruct (m s). Qed.
Lemma cpu_ok f i : 0 <= i < 64 -> cpu f i = mret (Greg f i).
Proof.
  intros H. unfold cpu. rewrite (proj2 (Z.leb_le 0 i)), (proj2 (Z.ltb_lt i 64)) by lia. done.
Qed.
Lemma cpu_bind {A} f i (k : tcgv -> gen A) s :
  0 <= i < 64 -> (cpu f i ≫= k) s = k (Greg f i) s.
Proof. intros H. by rewrite cpu_ok. Qed.
Lemma cpu_oob {A} f i (k : tcgv -> gen A) s :
  ~ (0 <= i < 64) -> (cpu f i ≫= k) s = GOob.
Proof.
  intros H. unfold cpu. destruct (Z.leb_spec 0 i), (Z.ltb_spec i 64); try done. lia.
Qed.
Lemma emit_bind {A} o (k : () -> gen A) c t l ops :
  (emit o ≫= k) (GSt c t l ops) = k () (GSt c t l (ops ++ [o])).
Proof. done. Qed.
Lemma ret_bind {A B} (a : A) (k : A -> gen B) s : (mret a ≫= k) s = k a s.
Proof. done. Qed.
Lemma ctx_bind {A} (k : DisasContext -> gen A) c t l ops :
  (get_ctx ≫= k) (GSt c t l ops) = k c (GSt c t l ops).
Proof. done. Qed.
Lemma put_bind {A} c' (k : () -> gen A) c t l ops :
  (put_ctx c' ≫= k) (GSt c t l ops) = k () (GSt c' t l ops).
Proof. done. Qed.
Lemma tmp_bind {A} (k : tcgv -> gen A) c t l ops :
  (tcg_temp_new_i64 ≫= k) (GSt c t l ops) = k (Tmp t) (GSt c (S t) l ops).
Proof. done. Qed.
Lemma lbl_bind {A} (k : nat -> gen A) c t l ops :
  (gen_new_label ≫= k) (GSt c t l ops) = k l (GSt c t (S l) ops).
Proof. done. Qed.
Lemma ret_last {A} (a : A) s : (mret a : gen A) s = GOk a s.
Proof. done. Qed.
Lemma emit_last o c t l ops : emit o (GSt c t l ops) = GOk () (GSt c t l (ops ++ [o])).
Proof. done. Qed.

Ltac gen_unfold :=
  unfold tcg_gen_mov_i64, tcg_gen_movi_i64, tcg_gen_alu, tcg_gen_alui,
    tcg_gen_qemu_ld_i64, tcg_gen_qemu_st_i64, tcg_constant_i64, gen_exception,
    gen_exception_illegal_instruction, set_is_jmp, set_jmp_pc_imm, set_pc_next, when.

(** One step of a generator applied to a state. *)
Ltac gen_step :=
  first
    [ rewrite gen_assoc
    | rewrite cpu_bind by (assumption || lia)
    | rewrite emit_bind | rewrite ret_bind | rewrite ctx_bind | rewrite put_bind
    | rewrite tmp_bind | rewrite lbl_bind
    | progress cbn beta iota zeta delta [pc_next is_jmp mem_idx jmp_pc_imm] ].
Ltac gen_run := gen_unfold; repeat gen_step; rewrite ?ret_last, ?emit_last; cbn [app].

(** ** Running *)
Section Run.
Context {M : Type} (B : backend M).
Variable helper : string -> CPUDADAOState -> list Z -> Z * CPUDADAOState.

(** Translate [g] from context [c], then run the operations. *)
Definition runs {A} (g : gen A) (c : DisasContext) (env : CPUDADAOState) (mem : M)
    : option (A * DisasContext * result M) :=
  match g (GSt c 0 0 []) with
  | GOk a s => Some (a, g_ctx s, observe (exec B helper (g_ops s) (Mach env ∅ mem)))
  | _ => None
  end.

Lemma exec_nil m : exec B helper [] m = Fall m.
Proof. done. Qed.

Lemma after_label_app l o1 o2 tl :
  after_label l o1 = Some tl -> after_label l (o1 ++ o2) = Some (tl ++ o2).
Proof.
  induction o1 as [|o o1 IH]; [done|]. cbn. destruct o; auto.
  destruct (l =? l0)%nat; [|auto]. intros [= ->]. done.
Qed.

Lemma exec_op_stop_fall o m m' : exec_op B helper o m <> Stop (Fall m').
Proof. destruct o; cbn; repeat case_match; congruence. Qed.

(** Running a concatenation, when the first part falls through. *)
Lemma exec_app o1 o2 m m' :
  exec B helper o1 m = Fall m' -> exec B helper (o1 ++ o2) m = exec B helper o2 m'.
Proof.
  remember (length o1) as k eqn:Hk. assert (Hle : (length o1 <= k)%nat) by lia. clear Hk.
  revert o1 m Hle. induction k as [|k IH]; intros o1 m Hle H.
  { destruct o1; [|cbn in Hle; lia]. rewrite exec_nil in H. by injection H as <-. }
  destruct o1 as [|o tl]; [rewrite exec_nil in H; by injection H as <-|]. cbn [length] in Hle. cbn [app].
  destruct (exec_op B helper o m) as [m1|l m1|r] eqn:E.
  - rewrite (exec_go B helper _ _ _ _ E) in H; rewrite (exec_go B helper _ _ _ _ E). apply IH; [lia|done].
  - destruct (after_label l tl) as [tl'|] eqn:El.
    + rewrite (exec_jump B helper _ _ _ _ _ _ E El) in H.
      rewrite (exec_jump B helper _ _ _ _ _ _ E (after_label_app _ _ o2 _ El)).
      apply IH; [|done]. apply after_label_length in El. lia.
    + unfold exec in H. cbn in H. rewrite E, El in H. done.
  - rewrite (exec_stop B helper _ _ _ _ E) in H. subst r.
    by apply exec_op_stop_fall in E.
Qed.

(** Running a concatenation, when the first part stops. *)
Lemma exec_app_stop o1 o2 m r :
  exec B helper o1 m = r -> (forall m', r <> Fall m') -> r <> NoLabel ->
  exec B helper (o1 ++ o2) m = r.
Proof.
  remember (length o1) as k eqn:Hk. assert (Hle : (length o1 <= k)%nat) by lia. clear Hk.
  revert o1 m Hle. induction k as [|k IH]; intros o1 m Hle H Hf Hn.
  { destruct o1; [|cbn in Hle; lia]. rewrite exec_nil in H. by destruct (Hf m). }
  destruct o1 as [|o tl]; [rewrite exec_nil in H; by destruct (Hf m)|]. cbn [length] in Hle. cbn [app].
  destruct (exec_op B helper o m) as [m1|l m1|r'] eqn:E.
  - rewrite (exec_go B helper _ _ _ _ E) in H; rewrite (exec_go B helper _ _ _ _ E). apply IH; auto. lia.
  - destruct (after_label l tl) as [tl'|] eqn:El.
    + rewrite (exec_jump B helper _ _ _ _ _ _ E El) in H.
      rewrite (exec_jump B helper _ _ _ _ _ _ E (after_label_app _ _ o2 _ El)).
      apply IH; auto. apply after_label_length in El. lia.
    + unfold exec in H. cbn in H. rewrite E, El in H. done.
  - rewrite (exec_stop B helper _ _ _ _ E) in H. by rewrite (exec_stop B helper _ _ _ _ E).
Qed.

End Run.

(** Executes a concrete operation list one operation at a time. *)
Ltac exec_step :=
  first [ rewrite exec_nil | erewrite exec_go by reflexivity
        | erewrite exec_stop by reflexivity ].
