(* ===== verification/RefBackend.v ===== *)
(** A concrete backend that satisfies the TCG laws: 64-bit arithmetic on
    integers, a flat little-endian byte memory that never faults.  It shows
    the laws are consistent and lets the witnesses run instructions. *)
From S2P Require Import Prelude Cpu Tcg.

Abbreviation bytes_mem := (gmap Z Z).

Fixpoint load_bytes (n : nat) (addr : Z) (m : bytes_mem) : Z :=
  match n with
  | O => 0
  | S n => default 0 (m !! w64 addr) mod 256 + 256 * load_bytes n (addr + 1) m
  end.
Fixpoint store_bytes (n : nat) (addr v : Z) (m : bytes_mem) : bytes_mem :=
  match n with
  | O => m
  | S n => <[w64 addr := v mod 256]> (store_bytes n (addr + 1) (v / 256) m)
  end.

Definition mo_bytes (mo : memop) : nat := Z.to_nat (2 ^ mo_size mo).
Definition mo_signed (mo : memop) : bool :=
  match mo with MO_SB | MO_TESW | MO_TESL => true | _ => false end.
Definition mo_extend (mo : memop) (v : Z) : Z :=
  if mo_signed mo then w64 (sext (8 * 2 ^ mo_size mo) v) else v.

Definition ref_alu (o : alu_op) (a b : Z) : Z :=
  match o with
  | A_add => w64 (a + b) | A_sub => w64 (a - b)
  | A_and => Z.land a b | A_or => Z.lor a b | A_xor => Z.lxor a b
  | A_shl => w64 (Z.shiftl a b) | A_shr => Z.shiftr a b
  | A_sar => w64 (Z.shiftr (s64 a) b)
  | A_div => w64 (Z.quot (s64 a) (s64 b)) | A_rem => w64 (Z.rem (s64 a) (s64 b))
  | A_divu => a / b | A_remu => a mod b
  end.
Definition ref_wide (o : wide_op) (al ah bl bh : Z) : Z * Z :=
  match o with
  | W_add2 => (w64 (al + bl), w64 (Z.shiftr (al + ah * 2^64 + (bl + bh * 2^64)) 64))
  | W_sub2 => (w64 (al - bl), w64 (Z.shiftr (al + ah * 2^64 - (bl + bh * 2^64)) 64))
  end.
Definition ref_mul (o : mul_op) (a b : Z) : Z * Z :=
  match o with
  | M_muls2 => (w64 (s64 a * s64 b), w64 (Z.shiftr (s64 a * s64 b) 64))
  | M_mulu2 => (w64 (a * b), w64 (Z.shiftr (a * b) 64))
  end.
Definition ref_cond (c : tcg_cond) (a b : Z) : bool :=
  match c with
  | TCG_COND_LT => s64 a <? s64 b | TCG_COND_GE => s64 b <=? s64 a
  | TCG_COND_LE => s64 a <=? s64 b | TCG_COND_GT => s64 b <? s64 a
  | TCG_COND_EQ => a =? b | TCG_COND_NE => negb (a =? b)
  | TCG_COND_GTU => b <? a
  end.

Definition ref_backend : backend bytes_mem :=
  Backend _ ref_alu ref_wide ref_mul ref_cond
    (fun mo addr m => Some (mo_extend mo (load_bytes (mo_bytes mo) addr m)))
    (fun mo addr v m => Some (store_bytes (mo_bytes mo) addr v m))
    (fun mo addr cmp new m =>
       let old := load_bytes (mo_bytes mo) addr m in
       Some (old, if old =? cmp then store_bytes (mo_bytes mo) addr new m else m)).

Lemma ref_laws : tcg_laws ref_backend.
Proof. by constructor. Qed.

(** Helpers that return 0 and leave the state: for witnesses that do not
    reach the floating-point unit. *)
Definition no_helper (h : string) (env : CPUDADAOState) (xs : list Z) : Z * CPUDADAOState :=
  (0, env).
