(* ===== verification/IsaArith.v ===== *)
(** Arithmetic, logic and register-assignment instructions: what each class
    of target/dadao/translate.c computes, as a function of the CPU state, and
    the theorem that translating and running an instruction implements it. *)
From S2P Require Import Prelude Cpu Tcg Translate Run RefBackend.

(** Register fields are 6-bit, register values 64-bit. *)
Definition fields_ok (a : args) : Prop :=
  0 <= ha a < 64 /\ 0 <= hb a < 64 /\ 0 <= hc a < 64 /\ 0 <= hd a < 64.
Definition u64_env (env : CPUDADAOState) : Prop :=
  forall f i, 0 <= reg f i env < 2^64.

(** The state an instruction body runs in: register fields in range, 64
    registers per file, 64-bit values, rd0 already cleared. *)
Definition ready (a : args) (env : CPUDADAOState) : Prop :=
  fields_ok a /\ wf_env env /\ u64_env env /\ reg RD 0 env = 0.

(** Register 0 of rd and rb is read-only. *)
Definition write (f : regfile) (i v : Z) (env : CPUDADAOState) : CPUDADAOState :=
  if i =? 0 then env else set_reg f i v env.

(** ** Specifications *)
Definition spec_addsub (op : Z -> Z -> Z) (a : args) (env : CPUDADAOState) : CPUDADAOState :=
  let s := op (s64 (reg RD (hc a) env)) (s64 (reg RD (hd a) env)) in
  write RD (ha a) (w64 (Z.shiftr s 64)) (write RD (hb a) (w64 s) env).

Definition spec_mul (val : Z -> Z) (a : args) (env : CPUDADAOState) : CPUDADAOState :=
  let p := val (reg RD (hc a) env) * val (reg RD (hd a) env) in
  write RD (hb a) (w64 p) (write RD (ha a) (w64 (Z.shiftr p 64)) env).

(** -1, 0 or 1 as a 64-bit value. *)
Definition three_way (val : Z -> Z) (x y : Z) : Z :=
  w64 (match val x ?= val y with Lt => -1 | Eq => 0 | Gt => 1 end).

(** Immediate fields as decodetree extracts them. *)
Definition imms_ok (a : args) : Prop :=
  0 <= ww a < 4 /\ 0 <= immu6 a < 64 /\ 0 <= immu12 a < 2^12 /\ 0 <= immu16 a < 2^16 /\
  0 <= immu18 a < 2^18 /\ - 2^11 <= imms12 a < 2^11 /\ - 2^17 <= imms18 a < 2^17 /\
  - 2^23 <= imms24 a < 2^23.

(** Three-register operations: rX[hb] := f rX[hc] rd[hd]. *)
Definition spec_orrr (f : regfile) (op : Z -> Z -> Z) (a : args) (env : CPUDADAOState) :=
  write f (hb a) (op (reg f (hc a) env) (reg RD (hd a) env)) env.
(** rd[hb] := op rd[hc] immu6 *)
Definition spec_orri (op : Z -> Z -> Z) (a : args) (env : CPUDADAOState) :=
  write RD (hb a) (op (reg RD (hc a) env) (immu6 a)) env.
(** rX[ha] := op rX[hb] imm *)
Definition spec_rrii (f : regfile) (op : Z -> Z -> Z) (imm : args -> Z) (a : args)
    (env : CPUDADAOState) :=
  write f (ha a) (op (reg f (hb a) env) (imm a)) env.
(** rX[ha] := op rX[ha] (immu16 << 16 * ww) *)
Definition spec_rwii (f : regfile) (op : Z -> Z -> Z) (a : args) (env : CPUDADAOState) :=
  write f (ha a) (op (reg f (ha a) env) (immu16 a * 2 ^ (16 * ww a))) env.
(** rd[hb] := three-way comparison of two registers *)
Definition spec_cmp (f : regfile) (val : Z -> Z) (a : args) (env : CPUDADAOState) :=
  write RD (hb a) (three_way val (reg f (hc a) env) (reg f (hd a) env)) env.
Definition spec_cmpi (val : Z -> Z) (imm : args -> Z) (a : args) (env : CPUDADAOState) :=
  write RD (ha a) (three_way val (reg RD (hb a) env) (w64 (imm a))) env.
(** rd[hb] := if test rd[ha] then rd[hc] else rd[hd] *)
Definition spec_cset1 (test : Z -> bool) (a : args) (env : CPUDADAOState) :=
  write RD (hb a) (if test (reg RD (ha a) env) then reg RD (hc a) env else reg RD (hd a) env) env.
(** rd[hc] := if test rd[ha] rd[hb] then rd[hd] else rd[hc] *)
Definition spec_cset2 (test : Z -> Z -> bool) (a : args) (env : CPUDADAOState) :=
  write RD (hc a) (if test (reg RD (ha a) env) (reg RD (hb a) env)
                   then reg RD (hd a) env else reg RD (hc a) env) env.
(** The same on rf, where register 0 is written too. *)
Definition spec_fcset1 (test : Z -> bool) (a : args) (env : CPUDADAOState) :=
  set_reg RF (hb a) (if test (reg RD (ha a) env) then reg RF (hc a) env else reg RF (hd a) env) env.
Definition spec_fcset2 (test : Z -> bool) (a : args) (env : CPUDADAOState) :=
  set_reg RF (hc a) (if test (reg RD (hb a) env) then reg RF (hd a) env else reg RF (hc a) env) env.
(** DIVS and DIVU: quotient to hb, remainder to ha. *)
Definition spec_div (quot rem : Z -> Z -> Z) (a : args) (env : CPUDADAOState) :=
  let x := reg RD (hc a) env in let y := reg RD (hd a) env in
  write RD (hb a) (quot x y) (write RD (ha a) (rem x y) env).
(** ADRP: the page of the instruction plus a page offset. *)
Definition spec_adrp (pc : Z) (a : args) (env : CPUDADAOState) :=
  write RB (ha a) (w64 (pc / 2^12 * 2^12 + imms18 a * 2^12)) env.
(** The wyde of SETOW and of the complement masks. *)
Definition spec_setow (a : args) (env : CPUDADAOState) :=
  write RD (ha a) (2^64 - 1 - (2^16 - 1 - immu16 a) * 2 ^ (16 * ww a)) env.
(** SETW replaces one wyde of an rf register. *)
Definition put_wyde (w v x : Z) : Z :=
  x - ((x / 2 ^ (16 * w)) mod 2^16) * 2 ^ (16 * w) + v * 2 ^ (16 * w).
Definition spec_setw (a : args) (env : CPUDADAOState) :=
  set_reg RF (ha a) (put_wyde (ww a) (immu16 a) (reg RF (ha a) env)) env.

(** ** Tactics *)
Ltac start :=
  intros; repeat match goal with
  | H : ready _ _ |- _ => destruct H as ((Hha & Hhb & Hhc & Hhd) & Hwf & Hu & Hz)
  end; unfold runs.

(** Rewrites the value operations with the laws. *)
Ltac laws L :=
  repeat first
    [ rewrite (law_add _ L) | rewrite (law_sub _ L) | rewrite (law_and _ L)
    | rewrite (law_or _ L) | rewrite (law_xor _ L)
    | rewrite (law_add2 _ L) | rewrite (law_sub2 _ L)
    | rewrite (law_muls2 _ L) | rewrite (law_mulu2 _ L)
    | rewrite (law_lt _ L) | rewrite (law_ge _ L) | rewrite (law_le _ L)
    | rewrite (law_gt _ L) | rewrite (law_eq _ L) | rewrite (law_ne _ L)
    | rewrite (law_gtu _ L)
    | rewrite (law_shl _ L) by lia | rewrite (law_shr _ L) by lia
    | rewrite (law_sar _ L) by lia ].

(** Runs the emitted operations on a symbolic state. *)
Ltac exec_cbn :=
  cbn [exec_n exec_op get set m_env m_tmps m_mem observe id from_option
       default after_label Nat.eqb].
Ltac exec_all L :=
  cbn [g_ops g_ctx]; cbv [exec length];
  repeat (exec_cbn; rewrite ?lookup_insert_eq, ?lookup_insert_ne by done;
          first [progress laws L | progress exec_cbn]);
  exec_cbn; rewrite ?lookup_insert_eq, ?lookup_insert_ne by done; exec_cbn.

(** Translate, then run. *)
Ltac sim L := gen_run; exec_all L.

Lemma w64_s64 x : w64 (s64 x) = w64 x.
Proof. apply sext_mod. lia. Qed.
Lemma s64_range x : - 2^63 <= s64 x < 2^63.
Proof. apply (sext_range 64). lia. Qed.
Lemma s64_cases x :
  0 <= x < 2^64 -> (x < 2^63 /\ s64 x = x) \/ (2^63 <= x /\ s64 x = x - 2^64).
Proof.
  intros H. destruct (Z.lt_ge_cases x (2^63)).
  - left. split; [done|]. apply (sext_id 64); lia.
  - right. split; [done|]. rewrite <- (sext_id 64 (x - 2^64)) by lia.
    apply sext_congr; [lia|]. rewrite <- (Z_mod_plus_full (x - 2^64) 1).
    f_equal. lia.
Qed.
Lemma w64_add_mul x k : w64 (x + k * 2^64) = w64 x.
Proof. apply Z_mod_plus_full. Qed.
Lemma w64_opp1 : w64 (-1) = 2^64 - 1.
Proof. done. Qed.

(** The high word TCG computes from sign masks is that of the exact result. *)
Lemma sign_mask x : 0 <= x < 2^64 ->
  exists k, x + w64 (Z.shiftr (s64 x) 63) * 2^64 = s64 x + k * 2^128.
Proof.
  intros H. rewrite Z.shiftr_div_pow2 by lia.
  destruct (s64_cases x H) as [[H1 ->]|[H1 ->]].
  - exists 0. rewrite Z.div_small by lia. done.
  - exists 1. assert ((x - 2^64) / 2^63 = -1) as ->.
    { symmetry. apply (Z.div_unique _ _ _ (x - 2^63)); lia. }
    rewrite w64_opp1. lia.
Qed.

Lemma high_word s k : w64 (Z.shiftr (s + k * 2^128) 64) = w64 (Z.shiftr s 64).
Proof.
  rewrite !Z.shiftr_div_pow2 by lia.
  replace (s + k * 2^128) with (s + (k * 2^64) * 2^64) by lia.
  rewrite Z.div_add by lia. apply w64_add_mul.
Qed.

Section Arith.
Context {M : Type} (B : backend M) (L : tcg_laws B).
Variable helper : string -> CPUDADAOState -> list Z -> Z * CPUDADAOState.

(** ADD and SUB share the macro; [op] is the integer operation. *)
Lemma addsub_run (o : alu_op) (o2 : wide_op) (op : Z -> Z -> Z) c a env mem :
  (forall x y, b_alu B o x y = w64 (op x y)) ->
  (forall x y, w64 (op (s64 x) (s64 y)) = w64 (op x y)) ->
  (forall x y k l, op (x + k * 2^128) (y + l * 2^128) = op x y + op k l * 2^128) ->
  (forall al ah bl bh, b_wide B o2 al ah bl bh =
    (w64 (op al bl), w64 (Z.shiftr (op (al + ah * 2^64) (bl + bh * 2^64)) 64))) ->
  ready a env ->
  runs B helper (INSN_ALG1_RRRR o o2 a) c env mem
  = Some (true, c, RFall (spec_addsub op a env) mem).
Proof.
  intros Ho Hs Hk Hw. start. unfold INSN_ALG1_RRRR, spec_addsub, write.
  rewrite Hs. destruct (sign_mask _ (Hu RD (hc a))) as [k Hx], (sign_mask _ (Hu RD (hd a))) as [l Hy].
  destruct (Z.eqb_spec (ha a) 0), (Z.eqb_spec (hb a) 0); cbn [andb negb].
  all: gen_run; repeat (exec_all L; rewrite ?Ho, ?Hw; change (w64 63) with 63).
  all: rewrite ?Hx, ?Hy, ?Hk, ?high_word; done.
Qed.

(** MULS and MULU. *)
Lemma mul_run (o : mul_op) (val : Z -> Z) c a env mem :
  (forall x y, b_mul B o x y = (w64 (val x * val y), w64 (Z.shiftr (val x * val y) 64))) ->
  ready a env ->
  runs B helper (INSN_MUL_RRRR o a) c env mem
  = Some (true, c, RFall (spec_mul val a env) mem).
Proof.
  intros Ho. start. unfold INSN_MUL_RRRR, spec_mul, write.
  destruct (Z.eqb_spec (ha a) 0), (Z.eqb_spec (hb a) 0); cbn [andb negb].
  all: gen_run; repeat (exec_all L; rewrite ?Ho); done.
Qed.

Lemma orrr_rb_run (o : alu_op) (op : Z -> Z -> Z) c a env mem :
  (forall x y, b_alu B o x y = op x y) -> ready a env ->
  runs B helper (INSN_ALG1_ORRR o a) c env mem
  = Some (true, c, RFall (spec_orrr RB op a env) mem).
Proof.
  intros Ho. start. unfold INSN_ALG1_ORRR, spec_orrr, write.
  destruct (Z.eqb_spec (hb a) 0); sim L; rewrite ?Ho; done.
Qed.

Lemma logic_run (o : alu_op) (op : Z -> Z -> Z) (P : Z -> Prop) c a env mem :
  (forall x y, P y -> b_alu B o x y = op x y) -> ready a env ->
  P (reg RD (hd a) env) ->
  runs B helper (INSN_LOGIC_ORRR o a) c env mem
  = Some (true, c, RFall (spec_orrr RD op a env) mem).
Proof.
  intros Ho Hr HP. start. unfold INSN_LOGIC_ORRR, spec_orrr, write.
  destruct (Z.eqb_spec (hb a) 0); cbn [negb]; sim L; rewrite ?Ho by done; done.
Qed.

Lemma logici_run (o : alu_op) (op : Z -> Z -> Z) c a env mem :
  (forall x y, 0 <= y < 64 -> b_alu B o x y = op x y) -> ready a env -> imms_ok a ->
  runs B helper (INSN_LOGIC_ORRI o a) c env mem
  = Some (true, c, RFall (spec_orri op a env) mem).
Proof.
  intros Ho Hr (_ & Hi & _). start. unfold INSN_LOGIC_ORRI, spec_orri, write.
  destruct (Z.eqb_spec (hb a) 0); cbn [negb]; sim L; [done|].
  rewrite w64_id, Ho by lia. done.
Qed.

Lemma rrii_run f c a env mem :
  ready a env ->
  runs B helper (INSN_ALG1_RRII f a) c env mem
  = Some (true, c, RFall (spec_rrii f (fun x i => w64 (x + i)) imms12 a env) mem).
Proof.
  start. unfold INSN_ALG1_RRII, spec_rrii, write.
  destruct (Z.eqb_spec (ha a) 0); sim L; autorewrite with word; done.
Qed.

Lemma andi_run c a env mem :
  ready a env -> imms_ok a ->
  runs B helper (trans_ANDI a) c env mem
  = Some (true, c, RFall (spec_rrii RD Z.land immu12 a env) mem).
Proof.
  intros Hr (_ & _ & Hi & _). start. unfold trans_ANDI, spec_rrii, write.
  destruct (Z.eqb_spec (ha a) 0); sim L; rewrite ?w64_id by lia; done.
Qed.

Lemma cset1_run cond (test : Z -> bool) c a env mem :
  (forall x, b_cond B cond x 0 = test x) -> ready a env ->
  runs B helper (INSN_CSET1_RRRR cond a) c env mem
  = Some (true, c, RFall (spec_cset1 test a env) mem).
Proof.
  intros Ht. start. unfold INSN_CSET1_RRRR, spec_cset1, write.
  destruct (Z.eqb_spec (hb a) 0); sim L; [done|]. by rewrite Hz, Ht.
Qed.

Lemma cset2_run cond (test : Z -> Z -> bool) c a env mem :
  (forall x y, b_cond B cond x y = test x y) -> ready a env ->
  runs B helper (INSN_CSET2_RRRR cond a) c env mem
  = Some (true, c, RFall (spec_cset2 test a env) mem).
Proof.
  intros Ht. start. unfold INSN_CSET2_RRRR, spec_cset2, write.
  destruct (Z.eqb_spec (hc a) 0); sim L; [done|]. by rewrite Ht.
Qed.

Lemma fcset1_run cond (test : Z -> bool) c a env mem :
  (forall x, b_cond B cond x 0 = test x) -> ready a env ->
  runs B helper (INSN_FCSET_RRRR cond a) c env mem
  = Some (true, c, RFall (spec_fcset1 test a env) mem).
Proof.
  intros Ht. start. unfold INSN_FCSET_RRRR, spec_fcset1. sim L. by rewrite Hz, Ht.
Qed.

Lemma fcset2_run cond (test : Z -> bool) c a env mem :
  (forall x, b_cond B cond x 1 = test x) -> ready a env ->
  runs B helper (INSN_FCSET_ORRR cond a) c env mem
  = Some (true, c, RFall (spec_fcset2 test a env) mem).
Proof.
  intros Ht. start. unfold INSN_FCSET_ORRR, spec_fcset2. sim L.
  by rewrite w64_id, Ht by lia.
Qed.

(** The comparison idiom: setcond, then movcond of -1. *)
Lemma three_way_gt cond (val : Z -> Z) x y :
  (forall x y, b_cond B cond x y = (val y <? val x)) ->
  (if b_cond B cond y x then w64 (-1) else b2z (b_cond B cond x y)) = three_way val x y.
Proof.
  intros Hc. rewrite !Hc. unfold three_way.
  destruct (Z.compare_spec (val x) (val y)); zcases; try lia; done.
Qed.

Lemma cmp_run f cond (val : Z -> Z) c a env mem :
  (forall x y, b_cond B cond x y = (val y <? val x)) -> ready a env ->
  runs B helper (INSN_CMP_ORRR f cond a) c env mem
  = Some (true, c, RFall (spec_cmp f val a env) mem).
Proof.
  intros Hc. start. unfold INSN_CMP_ORRR, spec_cmp, write.
  destruct (Z.eqb_spec (hb a) 0); sim L; [done|].
  by rewrite (three_way_gt _ _ _ _ Hc).
Qed.

Lemma cmpi_run imm cond (val : Z -> Z) c a env mem :
  (forall x y, b_cond B cond x y = (val y <? val x)) -> ready a env ->
  runs B helper (INSN_CMP_RRII imm cond a) c env mem
  = Some (true, c, RFall (spec_cmpi val imm a env) mem).
Proof.
  intros Hc. start. unfold INSN_CMP_RRII, spec_cmpi, write.
  destruct (Z.eqb_spec (ha a) 0); sim L; [done|].
  by rewrite (three_way_gt _ _ _ _ Hc).
Qed.

(** Division: the exception for a zero divisor, else quotient and rest. *)
Lemma div_zero_run divop remop c a env mem :
  ready a env -> reg RD (hd a) env = 0 ->
  runs B helper (INSN_DIV_RRRR divop remop a) c env mem
  = Some (true, c, RRaise DADAO_EXCP_FPER env mem).
Proof.
  intros Hr Hy. start. unfold INSN_DIV_RRRR.
  destruct (Z.eqb_spec (ha a) 0), (Z.eqb_spec (hb a) 0); cbn [negb]; gen_run;
    cbn [g_ops g_ctx]; cbv [exec length]; exec_cbn; rewrite (law_ne _ L), Hy, Hz;
    cbn [Z.eqb negb]; exec_cbn; done.
Qed.

Lemma div_run divop remop (quot rem : Z -> Z -> Z) c a env mem :
  ready a env -> reg RD (hd a) env <> 0 ->
  b_alu B divop (reg RD (hc a) env) (reg RD (hd a) env)
  = quot (reg RD (hc a) env) (reg RD (hd a) env) ->
  b_alu B remop (reg RD (hc a) env) (reg RD (hd a) env)
  = rem (reg RD (hc a) env) (reg RD (hd a) env) ->
  runs B helper (INSN_DIV_RRRR divop remop a) c env mem
  = Some (true, c, RFall (spec_div quot rem a env) mem).
Proof.
  intros Hr Hy Hq Hm. start. unfold INSN_DIV_RRRR, spec_div, write.
  destruct (Z.eqb_spec (ha a) 0), (Z.eqb_spec (hb a) 0); cbn [negb]; gen_run;
    cbn [g_ops g_ctx]; cbv [exec length]; exec_cbn; rewrite (law_ne _ L), Hz;
    rewrite (proj2 (Z.eqb_neq _ _) Hy); cbn [negb]; exec_cbn.
  all: repeat (exec_all L; rewrite ?Hq, ?Hm); done.
Qed.

(** Shift left, then right: the low 64-k bits, sign- or zero-extended. *)
Lemma shl_sar x k : 0 <= k < 64 ->
  w64 (Z.shiftr (s64 (w64 (Z.shiftl x k))) k) = w64 (sext (64 - k) x).
Proof.
  intros Hk. f_equal. rewrite Z.shiftl_mul_pow2, Z.shiftr_div_pow2 by lia.
  set (v := sext (64 - k) x).
  assert (Hp : 2^64 = 2^(64-k) * 2^k) by (rewrite <- Z.pow_add_r by lia; f_equal; lia).
  assert (Hp' : 2^63 = 2^(64-k-1) * 2^k) by (rewrite <- Z.pow_add_r by lia; f_equal; lia).
  assert (Hk0 : 0 < 2^k) by (apply Z.pow_pos_nonneg; lia).
  pose proof (sext_range (64 - k) x ltac:(lia)) as Hr. fold v in Hr.
  assert (s64 (w64 (x * 2^k)) = v * 2^k) as ->; [|apply Z.div_mul; lia].
  rewrite <- (sext_id 64 (v * 2^k)); [|lia|change (64-1) with 63; nia].
  apply sext_congr; [lia|]. unfold w64. rewrite Z.mod_mod by lia.
  rewrite Hp, !Zmult_mod_distr_r. f_equal. symmetry. apply sext_mod. lia.
Qed.

Lemma shl_shr x k : 0 <= k < 64 ->
  Z.shiftr (w64 (Z.shiftl x k)) k = x mod 2^(64 - k).
Proof.
  intros Hk. rewrite Z.shiftl_mul_pow2, Z.shiftr_div_pow2 by lia. unfold w64.
  assert (Hk0 : 0 < 2^k) by (apply Z.pow_pos_nonneg; lia).
  replace (2^64) with (2^(64-k) * 2^k) by (rewrite <- Z.pow_add_r by lia; f_equal; lia).
  rewrite Zmult_mod_distr_r. apply Z.div_mul. lia.
Qed.

Lemma exti_run o (ext : Z -> Z -> Z) c a env mem :
  (forall x k, 0 <= k < 64 -> b_alu B o (w64 (Z.shiftl x k)) k = ext x k) ->
  ready a env -> imms_ok a ->
  runs B helper (INSN_EXT_ORRI o a) c env mem
  = Some (true, c, RFall (spec_orri ext a env) mem).
Proof.
  intros Ho Hr (_ & Hi & _). start. unfold INSN_EXT_ORRI, spec_orri, write.
  destruct (Z.eqb_spec (hb a) 0); [by sim L|]. gen_run. cbn [g_ops g_ctx].
  cbv [exec length]. exec_cbn. rewrite (w64_id (immu6 a)) by lia.
  by rewrite (law_shl _ L), reg_set_reg_eq, Ho, set_reg_set_reg by (done || lia).
Qed.

Lemma extr_run o (ext : Z -> Z -> Z) c a env mem :
  (forall x k, 0 <= k < 64 -> b_alu B o (w64 (Z.shiftl x k)) k = ext x k) ->
  ready a env -> reg RD (hd a) env < 64 ->
  runs B helper (INSN_EXT_ORRR o a) c env mem
  = Some (true, c, RFall (spec_orrr RD ext a env) mem).
Proof.
  intros Ho Hr Hk. start. unfold INSN_EXT_ORRR, spec_orrr, write.
  destruct (Z.eqb_spec (hb a) 0); [by sim L|]. gen_run. cbn [g_ops g_ctx].
  cbv [exec length]. exec_cbn. rewrite !lookup_insert_eq. exec_cbn.
  pose proof (Hu RD (hd a)).
  by rewrite (law_shl _ L), reg_set_reg_eq, Ho, set_reg_set_reg by (done || lia).
Qed.

Lemma xnor_run c a env mem :
  ready a env ->
  runs B helper (trans_XNOR a) c env mem
  = Some (true, c, RFall (spec_orrr RD (fun x y => Z.lxor (Z.lxor x y) (2^64 - 1)) a env) mem).
Proof.
  start. unfold trans_XNOR, spec_orrr, write.
  destruct (Z.eqb_spec (hb a) 0); sim L; [done|].
  by rewrite reg_set_reg_eq, set_reg_set_reg.
Qed.

Lemma adrp_run c a env mem :
  ready a env -> 0 <= pc_next c < 2^64 ->
  runs B helper (trans_ADRP a) c env mem
  = Some (true, c, RFall (spec_adrp (pc_next c) a env) mem).
Proof.
  intros Hr Hpc. start. unfold trans_ADRP, spec_adrp, write.
  destruct (Z.eqb_spec (ha a) 0); gen_run; cbn [g_ops g_ctx]; cbv [exec length]; exec_cbn; [done|].
  rewrite (law_add _ L), (law_and _ L), !reg_set_reg_eq, !set_reg_set_reg by eauto with cpu.
  rewrite (w64_id (pc_next c)) by lia. rewrite (w64_id (w64 _)) by apply w64_range.
  rewrite land_w64_lnot, ldiff_sub_land, (land_mask _ _ 12) by (done || lia).
  rewrite w64_add_r, Z.shiftl_mul_pow2 by lia. do 5 f_equal.
  pose proof (Z.div_mod (pc_next c) (2^12)). lia.
Qed.

(** ** Wydes *)
Lemma wyde_eq a : imms_ok a -> wyde a = immu16 a * 2 ^ (16 * ww a).
Proof.
  intros (Hw & _ & _ & Hi & _). unfold wyde.
  rewrite Z.shiftl_mul_pow2, (Z.mul_comm (ww a)) by lia. apply w64_id.
  assert (2^(16 * ww a) <= 2^48) by (apply Z.pow_le_mono_r; lia).
  assert (0 < 2^(16 * ww a)) by (apply Z.pow_pos_nonneg; lia). nia.
Qed.

(** Clearing wyde [ww] of a value. *)
Lemma clear_wyde a x : imms_ok a -> 0 <= x < 2^64 ->
  Z.land x (not_wyde_mask a) = put_wyde (ww a) 0 x.
Proof.
  intros (Hw & _) Hx. unfold not_wyde_mask, put_wyde.
  rewrite land_w64_lnot, ldiff_sub_land by done. change 0xFFFF with (Z.ones 16).
  rewrite land_field, (Z.mul_comm (ww a)) by lia. lia.
Qed.

(** Putting a wyde into a cleared place. *)
Lemma or_wyde a x : imms_ok a -> 0 <= x < 2^64 ->
  Z.lor (put_wyde (ww a) 0 x) (wyde a) = put_wyde (ww a) (immu16 a) x.
Proof.
  intros Hi Hx. pose proof Hi as (Hw & _ & _ & Hv & _).
  rewrite wyde_eq, <- clear_wyde by done.
  rewrite <- Z.add_nocarry_lor.
  - rewrite clear_wyde by done. unfold put_wyde. lia.
  - rewrite <- Z.shiftl_mul_pow2 by lia. unfold not_wyde_mask, w64.
    rewrite <- Z.land_ones by lia. apply Z.bits_inj'. intros i Hi'.
    rewrite !Z.land_spec, Z.lnot_spec, !Z.shiftl_spec, Z.bits_0 by lia.
    rewrite (Z.mul_comm (ww a)).
    destruct (Z.ltb_spec (i - 16 * ww a) 16).
    + destruct (Z.ltb_spec (i - 16 * ww a) 0).
      * rewrite (Z.testbit_neg_r (immu16 a)) by lia. by rewrite andb_false_r.
      * change 0xFFFF with (Z.ones 16). rewrite Z.ones_spec_low by lia.
        by rewrite andb_false_r.
    + rewrite <- (Z.mod_small (immu16 a) (2^16)), Z.mod_pow2_bits_high by lia.
      by rewrite andb_false_r.
Qed.

Lemma setzw_run f c a env mem :
  ready a env -> imms_ok a ->
  runs B helper (INSN_SETZW_RWII f a) c env mem
  = Some (true, c, RFall (spec_rwii f (fun _ v => v) a env) mem).
Proof.
  intros Hr Hi. start. unfold INSN_SETZW_RWII, spec_rwii, write.
  destruct (Z.eqb_spec (ha a) 0); sim L; [done|].
  rewrite <- wyde_eq by done. unfold wyde. by rewrite w64_w64.
Qed.

Lemma orw_run f c a env mem :
  ready a env -> imms_ok a ->
  runs B helper (INSN_ORW_RWII f a) c env mem
  = Some (true, c, RFall (spec_rwii f Z.lor a env) mem).
Proof.
  intros Hr Hi. start. unfold INSN_ORW_RWII, spec_rwii, write.
  destruct (Z.eqb_spec (ha a) 0); sim L; [done|].
  rewrite <- wyde_eq by done. unfold wyde. by rewrite w64_w64.
Qed.

Lemma andnw_run f c a env mem :
  ready a env -> imms_ok a ->
  runs B helper (INSN_ANDNW_RWII f a) c env mem
  = Some (true, c, RFall (spec_rwii f Z.ldiff a env) mem).
Proof.
  intros Hr Hi. start. unfold INSN_ANDNW_RWII, spec_rwii, write.
  destruct (Z.eqb_spec (ha a) 0); sim L; [done|].
  by rewrite w64_w64, land_w64_lnot, wyde_eq by (done || apply Hu).
Qed.

Lemma setow_run c a env mem :
  ready a env -> imms_ok a ->
  runs B helper (trans_SETOW a) c env mem
  = Some (true, c, RFall (spec_setow a env) mem).
Proof.
  intros Hr Hi. start. unfold trans_SETOW, spec_setow, write.
  destruct (Z.eqb_spec (ha a) 0); sim L; [done|]. do 5 f_equal.
  pose proof (or_wyde a (2^64 - 1) Hi ltac:(lia)) as Ho.
  rewrite <- clear_wyde in Ho by (done || lia).
  change (2^64 - 1) with (Z.ones 64) in Ho at 1.
  rewrite Z.land_comm, Z.land_ones, Z.mod_small in Ho by (lia || apply w64_range).
  rewrite Z.lor_comm, Ho. unfold put_wyde. destruct Hi as (Hw & _ & _ & Hv & _).
  assert (Hww : ww a = 0 \/ ww a = 1 \/ ww a = 2 \/ ww a = 3) by lia.
  destruct Hww as [->|[->|[->| ->]]].
  all: match goal with |- context [(2^64 - 1) / ?p mod ?q] =>
         change ((2^64 - 1) / p mod q) with 65535 end.
  all: rewrite w64_id by lia; lia.
Qed.

Lemma setw_run c a env mem :
  ready a env -> imms_ok a ->
  runs B helper (trans_SETW a) c env mem
  = Some (true, c, RFall (spec_setw a env) mem).
Proof.
  intros Hr Hi. start. unfold trans_SETW, spec_setw. gen_run. cbn [g_ops g_ctx].
  cbv [exec length]. exec_cbn.
  rewrite (law_or _ L), (law_and _ L), reg_set_reg_eq, set_reg_set_reg by done.
  unfold not_wyde_mask, wyde. rewrite !w64_w64. fold (not_wyde_mask a) (wyde a).
  by rewrite clear_wyde, or_wyde by (done || apply Hu).
Qed.
End Arith.

(** ** The instruction table

    One row per register-to-register instruction: its name in the decode
    tree, the condition under which the architecture defines it, and the
    state it leaves. *)
Definition always (a : args) (env : CPUDADAOState) : Prop := True.
Definition shift_ok (a : args) (env : CPUDADAOState) : Prop := reg RD (hd a) env < 64.
(** The one signed division whose quotient is not a 64-bit number. *)
Definition divs_overflow (x y : Z) : bool := (s64 x =? - 2^63) && (s64 y =? -1).

Record row := Row {
  isa_name : string;
  isa_pre : args -> CPUDADAOState -> Prop;
  isa_spec : Z -> args -> CPUDADAOState -> CPUDADAOState }.

Local Open Scope string_scope.
Local Open Scope Z_scope.
Definition isa_arith : list row :=
  let r n pre spec := Row n pre (fun _ => spec) in
  [ r "ADDrd" always (spec_addsub Z.add); r "SUBrd" always (spec_addsub Z.sub);
    r "ADDrb" always (spec_orrr RB (fun x y => w64 (x + y)));
    r "SUBrb" always (spec_orrr RB (fun x y => w64 (x - y)));
    r "ADDIrd" always (spec_rrii RD (fun x i => w64 (x + i)) imms12);
    r "ADDIrb" always (spec_rrii RB (fun x i => w64 (x + i)) imms12);
    r "CMPSi" always (spec_cmpi s64 imms12); r "CMPUi" always (spec_cmpi (fun x => x) immu12);
    r "CMPSr" always (spec_cmp RD s64); r "CMPUr" always (spec_cmp RD (fun x => x));
    r "CMP" always (spec_cmp RB (fun x => x));
    r "MULS" always (spec_mul s64); r "MULU" always (spec_mul (fun x => x));
    Row "ADRP" always spec_adrp ].

Definition isa_logic : list row :=
  let r n pre spec := Row n pre (fun _ => spec) in
  [ r "AND" always (spec_orrr RD Z.land); r "ORR" always (spec_orrr RD Z.lor);
    r "XOR" always (spec_orrr RD Z.lxor);
    r "XNOR" always (spec_orrr RD (fun x y => Z.lxor (Z.lxor x y) (2^64 - 1)));
    r "ANDI" always (spec_rrii RD Z.land immu12);
    r "SHLUr" shift_ok (spec_orrr RD (fun x k => w64 (Z.shiftl x k)));
    r "SHRUr" shift_ok (spec_orrr RD Z.shiftr);
    r "SHRSr" shift_ok (spec_orrr RD (fun x k => w64 (Z.shiftr (s64 x) k)));
    r "SHLUi" always (spec_orri (fun x k => w64 (Z.shiftl x k)));
    r "SHRUi" always (spec_orri Z.shiftr);
    r "SHRSi" always (spec_orri (fun x k => w64 (Z.shiftr (s64 x) k)));
    r "EXTSr" shift_ok (spec_orrr RD (fun x k => w64 (sext (64 - k) x)));
    r "EXTZr" shift_ok (spec_orrr RD (fun x k => x mod 2^(64 - k)));
    r "EXTSi" always (spec_orri (fun x k => w64 (sext (64 - k) x)));
    r "EXTZi" always (spec_orri (fun x k => x mod 2^(64 - k))) ].

Definition isa_assign : list row :=
  let r n pre spec := Row n pre (fun _ => spec) in
  [ r "CSNrd" always (spec_cset1 (fun x => s64 x <? 0));
    r "CSZrd" always (spec_cset1 (fun x => x =? 0));
    r "CSPrd" always (spec_cset1 (fun x => 0 <? s64 x));
    r "CSEQ" always (spec_cset2 Z.eqb); r "CSNE" always (spec_cset2 (fun x y => negb (x =? y)));
    r "CSNrf" always (spec_fcset1 (fun x => s64 x <? 0));
    r "CSZrf" always (spec_fcset1 (fun x => x =? 0));
    r "CSPrf" always (spec_fcset1 (fun x => 0 <? s64 x));
    r "CSP1" always (spec_fcset2 (fun x => x =? 1));
    r "CSNP1" always (spec_fcset2 (fun x => negb (x =? 1)));
    r "SETOW" always spec_setow; r "SETW" always spec_setw;
    r "SETZWrd" always (spec_rwii RD (fun _ v => v)); r "SETZWrb" always (spec_rwii RB (fun _ v => v));
    r "ORWrd" always (spec_rwii RD Z.lor); r "ORWrb" always (spec_rwii RB Z.lor);
    r "ANDNWrd" always (spec_rwii RD Z.ldiff); r "ANDNWrb" always (spec_rwii RB Z.ldiff);
    r "SWYM" always (fun _ env => env); r "FENCE" always (fun _ env => env) ].

Definition isa_alu : list row := (isa_arith ++ isa_logic ++ isa_assign)%list.

(** The generator of the translator implements a row: from any state the
    decoder can hand it, translating and running leaves exactly the state
    the row specifies, and the block goes on. *)
Definition implements {M} (B : backend M)
    (helper : string -> CPUDADAOState -> list Z -> Z * CPUDADAOState) (r : row) : Prop :=
  exists g, assoc (isa_name r) trans_table = Some g /\
  forall c a env mem, 0 <= pc_next c < 2^64 -> ready a env -> imms_ok a ->
    isa_pre r a env ->
    runs B helper (g a) c env mem
    = Some (true, c, RFall (isa_spec r (pc_next c) a env) mem).

Section Table.
Context {M : Type} (B : backend M) (L : tcg_laws B).
Variable helper : string -> CPUDADAOState -> list Z -> Z * CPUDADAOState.

(** Finds the generator of a row and leaves its run as the goal. *)
Local Ltac find_row :=
  eexists; split;
  [ reflexivity
  | intros c a env mem Hpc Hr Hi Hpre; cbn [isa_spec isa_pre] in * ].

Lemma add_wide : forall x y, w64 (s64 x + s64 y) = w64 (x + y).
Proof. intros. by rewrite <- w64_add_l, <- w64_add_r, !w64_s64, w64_add_l, w64_add_r. Qed.
Lemma sub_wide : forall x y, w64 (s64 x - s64 y) = w64 (x - y).
Proof.
  intros. unfold w64. rewrite Zminus_mod. pose proof (w64_s64 x). pose proof (w64_s64 y).
  unfold w64 in *. rewrite H, H0. by rewrite <- Zminus_mod.
Qed.

(** The laws of the single operations, with their side conditions. *)
Local Ltac law :=
  intros; first
    [ done | apply L; (done || lia) ].

Lemma arith_rows : Forall (implements B helper) isa_arith.
Proof.
  unfold isa_arith; repeat apply Forall_cons_2; [..|apply Forall_nil_2]; find_row.
  - apply addsub_run; try done; try law; [apply add_wide|lia].
  - apply addsub_run; try done; try law; [apply sub_wide|lia].
  - apply orrr_rb_run; law.
  - apply orrr_rb_run; law.
  - by apply rrii_run.
  - by apply rrii_run.
  - apply cmpi_run; law.
  - apply cmpi_run; law.
  - apply cmp_run; law.
  - apply cmp_run; law.
  - apply cmp_run; law.
  - apply mul_run; law.
  - apply mul_run; law.
  - by apply adrp_run.
Qed.

Lemma logic_rows : Forall (implements B helper) isa_logic.
Proof.
  unfold isa_logic; repeat apply Forall_cons_2; [..|apply Forall_nil_2]; find_row.
  - by apply (logic_run _ _ _ _ (fun _ => True)); [law|..].
  - by apply (logic_run _ _ _ _ (fun _ => True)); [law|..].
  - by apply (logic_run _ _ _ _ (fun _ => True)); [law|..].
  - by apply xnor_run.
  - by apply andi_run.
  - apply (logic_run _ _ _ _ (fun y => 0 <= y < 64)); [law|done|].
    split; [apply Hr|done].
  - apply (logic_run _ _ _ _ (fun y => 0 <= y < 64)); [law|done|].
    split; [apply Hr|done].
  - apply (logic_run _ _ _ _ (fun y => 0 <= y < 64)); [law|done|].
    split; [apply Hr|done].
  - apply logici_run; law.
  - apply logici_run; law.
  - apply logici_run; law.
  - apply extr_run; try done. intros. rewrite (law_sar _ L) by done. by apply shl_sar.
  - apply extr_run; try done. intros. rewrite (law_shr _ L) by done. by apply shl_shr.
  - apply exti_run; try done. intros. rewrite (law_sar _ L) by done. by apply shl_sar.
  - apply exti_run; try done. intros. rewrite (law_shr _ L) by done. by apply shl_shr.
Qed.

Lemma assign_rows : Forall (implements B helper) isa_assign.
Proof.
  unfold isa_assign; repeat apply Forall_cons_2; [..|apply Forall_nil_2]; find_row.
  - apply cset1_run; law.
  - apply cset1_run; law.
  - apply cset1_run; law.
  - apply cset2_run; law.
  - apply cset2_run; law.
  - apply fcset1_run; law.
  - apply fcset1_run; law.
  - apply fcset1_run; law.
  - apply fcset2_run; law.
  - apply fcset2_run; law.
  - by apply setow_run.
  - by apply setw_run.
  - by apply setzw_run.
  - by apply setzw_run.
  - by apply orw_run.
  - by apply orw_run.
  - by apply andnw_run.
  - by apply andnw_run.
  - done.
  - done.
Qed.
End Table.
