(* ===== verification/IsaMove.v ===== *)
(** Multiple-register instructions: the register-to-register moves, the
    multiple loads and stores and the conversions that share their loop.

    The macros of translate.c emit one operation group per register; the
    lemmas here relate the loops that emit them to iteration over the CPU
    state, and the register moves to a simultaneous copy. *)
From S2P Require Import Prelude Cpu Tcg Translate Run RefBackend IsaArith.

(** ** Iterated effects on the CPU state *)
Section Iter.
Variable E : Z -> Z -> CPUDADAOState -> CPUDADAOState.
Fixpoint iter_up (n : nat) (b c : Z) (env : CPUDADAOState) : CPUDADAOState :=
  match n with O => env | S n => iter_up n (b + 1) (c + 1) (E b c env) end.
Fixpoint iter_down (n : nat) (b c : Z) (env : CPUDADAOState) : CPUDADAOState :=
  match n with O => env | S n => iter_down n (b - 1) (c - 1) (E b c env) end.
(** The order the macros choose: downwards when the target is above. *)
Definition iter_move (b c n : Z) (env : CPUDADAOState) : CPUDADAOState :=
  if c <? b then iter_down (Z.to_nat n) (b + n - 1) (c + n - 1) env
  else iter_up (Z.to_nat n) b c env.
End Iter.

(** One register of a move; register 0 of rd and rb is read-only. *)
Definition move_reg (dest src : regfile) (b c : Z) (env : CPUDADAOState) : CPUDADAOState :=
  if negb (b =? 0) || writable0 [RF; RA] dest
  then set_reg dest b (reg src c env) env else env.

(** The specification: all sources are read before any target is written. *)
Definition spec_r2r (src dest : regfile) (a : args) (env : CPUDADAOState) : CPUDADAOState :=
  set_file dest
    (imap (fun j v =>
       let j := Z.of_nat j in
       if (hb a <=? j) && (j <? hb a + immu6 a) && (negb (j =? 0) || writable0 [RF; RA] dest)
       then reg src (hc a + (j - hb a)) env else v) (file dest env)) env.

(** Range of the registers of a multiple-register instruction. *)
Definition range_ok (r n : Z) : Prop := 0 <= r /\ 1 <= n /\ r + n <= 64.

(** ** Simultaneous copy *)

(** States agree outside one register file and on its registers. *)
Lemma set_file_ext f l env env' :
  (forall g, g <> f -> file g env' = file g env) ->
  set_file f l env' = set_file f l env -> length (file f env') = length l ->
  (forall j : nat, file f env' !! j = l !! j) -> env' = set_file f l env.
Proof.
  intros Hg Hs Hl Hj. rewrite <- Hs. assert (file f env' = l) as <- by (by apply list_eq).
  by destruct env', f.
Qed.

Lemma set_file_move dest src l b c env :
  set_file dest l (move_reg dest src b c env) = set_file dest l env.
Proof. unfold move_reg, set_reg. destruct (_ || _); by destruct env, dest. Qed.
Lemma file_move_ne dest src g b c env :
  g <> dest -> file g (move_reg dest src b c env) = file g env.
Proof.
  intros H. unfold move_reg, set_reg. destruct (_ || _); [|done]. by apply file_set_file_ne.
Qed.
Lemma reg_move_ne dest src g j b c env :
  g <> dest \/ j <> b -> reg g j (move_reg dest src b c env) = reg g j env.
Proof.
  intros H. unfold move_reg. destruct (_ || _); [|done]. apply reg_set_reg_ne. naive_solver.
Qed.
Lemma reg_move_eq dest src b c env :
  wf_env env -> 0 <= b < 64 ->
  reg dest b (move_reg dest src b c env)
  = if negb (b =? 0) || writable0 [RF; RA] dest then reg src c env else reg dest b env.
Proof.
  intros Hwf Hb. unfold move_reg. destruct (_ || _); [|done]. by apply reg_set_reg_eq.
Qed.
Lemma wf_move dest src b c env : wf_env env -> wf_env (move_reg dest src b c env).
Proof. intros H. unfold move_reg. destruct (_ || _); [by apply wf_set_reg|done]. Qed.
#[export] Hint Resolve wf_move : cpu.

(** What the registers hold after the loop: the value of the source before
    the loop, in the range of the targets. *)
Definition moved (dest src : regfile) (b c n : Z) (env env' : CPUDADAOState) : Prop :=
  wf_env env' /\ (forall l, set_file dest l env' = set_file dest l env) /\
  (forall g, g <> dest -> file g env' = file g env) /\
  forall j, 0 <= j < 64 -> reg dest j env' =
    if (b <=? j) && (j <? b + n) && (negb (j =? 0) || writable0 [RF; RA] dest)
    then reg src (c + (j - b)) env else reg dest j env.

Lemma reg_other_file g j env env' : file g env' = file g env -> reg g j env' = reg g j env.
Proof. unfold reg. by intros ->. Qed.

Ltac bcases :=
  repeat match goal with
  | |- context [?a <=? ?b] => destruct (Z.leb_spec a b); try lia
  | |- context [?a <? ?b] => destruct (Z.ltb_spec a b); try lia
  end; cbn [andb].

Lemma moved_up dest src n : forall b c env,
  wf_env env -> 0 <= b -> b <= c -> c + Z.of_nat n <= 64 ->
  moved dest src b c (Z.of_nat n) env (iter_up (move_reg dest src) n b c env).
Proof.
  induction n as [|n IH]; intros b c env Hwf Hb Hbc Hc; cbn [iter_up].
  { repeat split; try done. intros j Hj. bcases; done. }
  set (env1 := move_reg dest src b c env).
  destruct (IH (b + 1) (c + 1) env1) as (W & S & F & R); [eauto with cpu|lia..|].
  split; [done|]. split; [intros l; rewrite S; apply set_file_move|].
  split; [intros g Hg; rewrite F by done; by apply file_move_ne|].
  intros j Hj. rewrite R by done.
  assert (Hs : forall k, b < k -> reg src k env1 = reg src k env)
    by (intros k Hk; apply reg_move_ne; right; lia).
  destruct (Z.eq_dec j b) as [->|Hne].
  - replace (b + 1 <=? b) with false by (symmetry; apply Z.leb_gt; lia). cbn [andb].
    unfold env1. rewrite reg_move_eq by (done || lia).
    replace (c + (b - b)) with c by lia. bcases; done.
  - assert (Hd : reg dest j env1 = reg dest j env) by (apply reg_move_ne; by right).
    rewrite Hd. replace (c + 1 + (j - (b + 1))) with (c + (j - b)) by lia.
    bcases; try done. rewrite Hs by lia. done.
Qed.

Lemma moved_down dest src n : forall b c env,
  wf_env env -> 0 <= c -> c < b -> b + Z.of_nat n <= 64 ->
  moved dest src b c (Z.of_nat n) env
    (iter_down (move_reg dest src) n (b + Z.of_nat n - 1) (c + Z.of_nat n - 1) env).
Proof.
  induction n as [|n IH]; intros b c env Hwf Hb Hbc Hc; cbn [iter_down].
  { repeat split; try done. intros j Hj. bcases; done. }
  set (t := b + Z.of_nat (S n) - 1). set (s := c + Z.of_nat (S n) - 1).
  set (env1 := move_reg dest src t s env).
  replace (t - 1) with (b + Z.of_nat n - 1) by lia.
  replace (s - 1) with (c + Z.of_nat n - 1) by lia.
  destruct (IH b c env1) as (W & S & F & R); [unfold env1; eauto with cpu|lia..|].
  split; [done|]. split; [intros l; rewrite S; apply set_file_move|].
  split; [intros g Hg; rewrite F by done; by apply file_move_ne|].
  intros j Hj. rewrite R by done.
  assert (Hs : forall k, k < t -> reg src k env1 = reg src k env)
    by (intros k Hk; apply reg_move_ne; right; lia).
  destruct (Z.eq_dec j t) as [->|Hne].
  - unfold env1. rewrite reg_move_eq by (done || lia).
    replace (c + (t - b)) with s by lia. bcases; done.
  - assert (Hd : reg dest j env1 = reg dest j env) by (apply reg_move_ne; by right).
    rewrite Hd. bcases; try done. rewrite Hs by lia. done.
Qed.

(** The order of the macro makes the sequence of moves simultaneous. *)
Lemma iter_move_spec dest src a env :
  wf_env env -> range_ok (hb a) (immu6 a) -> range_ok (hc a) (immu6 a) ->
  iter_move (move_reg dest src) (hb a) (hc a) (immu6 a) env = spec_r2r src dest a env.
Proof.
  intros Hwf (Hb & Hn & Hb2) (Hc & _ & Hc2).
  assert (Hm : moved dest src (hb a) (hc a) (immu6 a) env
                 (iter_move (move_reg dest src) (hb a) (hc a) (immu6 a) env)).
  { unfold iter_move. rewrite <- (Z2Nat.id (immu6 a)) by lia.
    destruct (Z.ltb_spec (hc a) (hb a)); rewrite Nat2Z.id.
    - apply moved_down; lia || done.
    - apply moved_up; lia || done. }
  destruct Hm as (W & S & F & R). unfold spec_r2r. apply set_file_ext; auto.
  - rewrite length_imap, W, Hwf. done.
  - intros j. rewrite list_lookup_imap. destruct (decide (j < 64)%nat) as [Hj|Hj].
    + specialize (R (Z.of_nat j) ltac:(lia)). unfold reg, zlookup in R.
      rewrite !(proj2 (Z.leb_le 0 (Z.of_nat j))), Nat2Z.id in R by lia.
      destruct (lookup_lt_is_Some_2 (file dest env) j) as [v Hv]; [rewrite Hwf; lia|].
      destruct (lookup_lt_is_Some_2 (file dest (iter_move (move_reg dest src) (hb a) (hc a) (immu6 a) env)) j)
        as [v' Hv']; [rewrite W; lia|].
      rewrite Hv, Hv' in *. cbn in *. subst v'. f_equal.
    + rewrite !lookup_ge_None_2; [done|rewrite Hwf; lia|rewrite W; lia].
Qed.

Lemma check_range_ok regs n s :
  1 <= n -> (forall r, r ∈ regs -> r + n <= 64) -> check_range regs n s = GOk () s.
Proof.
  intros Hn Hr. unfold check_range. rewrite gen_bind_eq.
  rewrite (proj2 (Z.eqb_neq n 0)) by lia. cbn [when mret gen_ret].
  induction regs as [|r regs IH]; [done|]. cbn [foldr]. rewrite gen_bind_eq.
  rewrite (proj2 (Z.ltb_ge 64 (r + n))) by (apply Hr; set_solver). cbn [when mret gen_ret].
  apply IH. set_solver.
Qed.

Lemma illegal_ok c t l ops :
  exists c' ops', gen_exception_illegal_instruction (GSt c t l ops) = GOk () (GSt c' t l ops').
Proof. unfold gen_exception_illegal_instruction. gen_run. eauto. Qed.

Lemma check_range_total regs n c t l ops :
  exists c' ops', check_range regs n (GSt c t l ops) = GOk () (GSt c' t l ops').
Proof.
  unfold check_range. rewrite gen_bind_eq.
  assert (Hw : forall b c ops, exists c' ops',
    when b gen_exception_illegal_instruction (GSt c t l ops) = GOk () (GSt c' t l ops')).
  { intros [] c0 o0; [apply illegal_ok | cbn; eauto]. }
  destruct (Hw (n =? 0) c ops) as (c1 & o1 & ->). revert c1 o1.
  induction regs as [|r regs IH]; intros c1 o1; cbn [foldr]; [cbn; eauto|].
  rewrite gen_bind_eq. destruct (Hw (64 <? r + n) c1 o1) as (c2 & o2 & ->). apply IH.
Qed.

(** ** The loops of the translator *)
Section Loops.
Context {M : Type} (B : backend M).
Variable helper : string -> CPUDADAOState -> list Z -> Z * CPUDADAOState.

(** [move b c] emits operations with effect [E b c]; outside the arrays the
    translator itself fails, except that a skipped target 0 reads nothing. *)
Definition move_ok (move : Z -> Z -> gen ()) (E : Z -> Z -> CPUDADAOState -> CPUDADAOState) : Prop :=
  forall b c ctx t l pre, 0 <= b < 64 -> 0 <= c < 64 ->
  exists ops, move b c (GSt ctx t l pre) = GOk () (GSt ctx t l (pre ++ ops)) /\
    forall tl m, exec B helper (ops ++ tl) m
                 = exec B helper tl (Mach (E b c (m_env m)) (m_tmps m) (m_mem m)).
Definition move_oob (move : Z -> Z -> gen ()) : Prop :=
  (forall b c s, b <> 0 -> ~ (0 <= b < 64 /\ 0 <= c < 64) -> move b c s = GOob) /\
  (forall b c s, move b c s <> GFuel).

Context (move : Z -> Z -> gen ()) (E : Z -> Z -> CPUDADAOState -> CPUDADAOState).

Lemma r2r_loop_up n : forall fuel b c ctx t l pre,
  move_ok move E -> (n < fuel)%nat -> 0 <= b <= c -> c + Z.of_nat (S n) <= 64 ->
  exists ops,
    r2r_loop fuel move b c (Z.of_nat (S n)) (GSt ctx t l pre) = GOk () (GSt ctx t l (pre ++ ops)) /\
    forall m, exec B helper ops m
              = Fall (Mach (iter_up E (S n) b c (m_env m)) (m_tmps m) (m_mem m)).
Proof.
  induction n as [|n IH]; intros [|fuel] b c ctx t l pre Hm Hf Hb Hc; try lia;
    destruct (Hm b c ctx t l pre) as (ops & Hg & Hx); try lia;
    cbn [r2r_loop]; rewrite gen_bind_eq, Hg, (proj2 (Z.ltb_ge c b)) by lia; cbv beta iota zeta.
  - replace (Z.of_nat 1 - 1 =? 0) with true by reflexivity.
    exists ops. split; [done|]. intros m. specialize (Hx [] m). rewrite app_nil_r in Hx.
    rewrite Hx. reflexivity.
  - rewrite (proj2 (Z.eqb_neq _ 0)) by lia.
    replace (Z.of_nat (S (S n)) - 1) with (Z.of_nat (S n)) by lia.
    destruct (IH fuel (b + 1) (c + 1) ctx t l (pre ++ ops)) as (ops' & Hg' & Hx'); try (done || lia).
    exists (ops ++ ops'). rewrite app_assoc. split; [done|]. intros m. rewrite Hx, Hx'. done.
Qed.

Lemma r2r_loop_down n : forall fuel b c ctx t l pre,
  move_ok move E -> (n < fuel)%nat -> c < b < 64 -> 0 <= c - Z.of_nat n ->
  exists ops,
    r2r_loop fuel move b c (Z.of_nat (S n)) (GSt ctx t l pre) = GOk () (GSt ctx t l (pre ++ ops)) /\
    forall m, exec B helper ops m
              = Fall (Mach (iter_down E (S n) b c (m_env m)) (m_tmps m) (m_mem m)).
Proof.
  induction n as [|n IH]; intros [|fuel] b c ctx t l pre Hm Hf Hb Hc; try lia;
    destruct (Hm b c ctx t l pre) as (ops & Hg & Hx); try lia;
    cbn [r2r_loop]; rewrite gen_bind_eq, Hg, (proj2 (Z.ltb_lt c b)) by lia; cbv beta iota zeta.
  - replace (Z.of_nat 1 - 1 =? 0) with true by reflexivity.
    exists ops. split; [done|]. intros m. specialize (Hx [] m). rewrite app_nil_r in Hx.
    rewrite Hx. reflexivity.
  - rewrite (proj2 (Z.eqb_neq _ 0)) by lia.
    replace (Z.of_nat (S (S n)) - 1) with (Z.of_nat (S n)) by lia.
    destruct (IH fuel (b - 1) (c - 1) ctx t l (pre ++ ops)) as (ops' & Hg' & Hx'); try (done || lia).
    exists (ops ++ ops'). rewrite app_assoc. split; [done|]. intros m. rewrite Hx, Hx'. done.
Qed.

(** The loop in the order the macro chooses. *)
Lemma r2r_body_run ctx a env mem :
  move_ok move E -> range_ok (hb a) (immu6 a) -> range_ok (hc a) (immu6 a) ->
  runs B helper (r2r_body move a) ctx env mem
  = Some (true, ctx, RFall (iter_move E (hb a) (hc a) (immu6 a) env) mem).
Proof.
  intros Hm (Hb & Hn & Hb2) (Hc & _ & Hc2). unfold runs, r2r_body, iter_move.
  rewrite gen_bind_eq, check_range_ok; [|lia|intros r; set_solver by lia].
  set (n := Z.to_nat (immu6 a - 1)).
  assert (Hi : immu6 a = Z.of_nat (S n)) by lia. rewrite Hi, Nat2Z.id.
  assert (n < loop_fuel)%nat by (unfold loop_fuel; lia).
  destruct (Z.ltb_spec (hc a) (hb a)); rewrite gen_bind_eq.
  - destruct (r2r_loop_down n loop_fuel (hb a + (Z.of_nat (S n) - 1)) (hc a + (Z.of_nat (S n) - 1))
                ctx 0 0 []) as (ops & Hg & Hx); try (done || lia).
    rewrite Hg. cbn [mret gen_ret]. cbn [app g_ops g_ctx]. rewrite Hx. cbn [observe m_env m_mem].
    repeat f_equal; lia.
  - destruct (r2r_loop_up n loop_fuel (hb a) (hc a) ctx 0 0 []) as (ops & Hg & Hx); try (done || lia).
    rewrite Hg. cbn [mret gen_ret]. cbn [app g_ops g_ctx]. rewrite Hx. done.
Qed.
End Loops.

(** ** Out-of-range register counts *)
Section Oob.
Context (move : Z -> Z -> gen ()) (Ho : move_oob move).

Lemma r2r_loop_oob_up : forall fuel b c n s,
  0 <= b <= c -> c <= 64 -> b <> 0 \/ c < 64 -> 64 - c < Z.of_nat fuel ->
  n <= 0 \/ 64 < c + n -> r2r_loop fuel move b c n s = GOob.
Proof.
  destruct Ho as [H1 H2]. induction fuel as [|fuel IH]; intros b c n s Hb Hc Hz Hf Hn; [lia|].
  cbn [r2r_loop]. rewrite gen_bind_eq. destruct (Z.eq_dec c 64) as [->|Hne].
  { by rewrite H1 by lia. }
  destruct (move b c s) as [u s'| |] eqn:E; [|done|by destruct (H2 b c s)].
  rewrite (proj2 (Z.ltb_ge c b)), (proj2 (Z.eqb_neq (n - 1) 0)) by lia. apply IH; lia.
Qed.

Lemma r2r_loop_oob_down : forall fuel b c n s,
  c < b -> -1 <= b -> b + 1 < Z.of_nat fuel -> n <= 0 -> r2r_loop fuel move b c n s = GOob.
Proof.
  destruct Ho as [H1 H2]. induction fuel as [|fuel IH]; intros b c n s Hb Hc Hf Hn; [lia|].
  cbn [r2r_loop]. rewrite gen_bind_eq. destruct (Z.eq_dec b (-1)) as [->|Hne].
  { by rewrite H1 by lia. }
  destruct (move b c s) as [u s'| |] eqn:E; [|done|by destruct (H2 b c s)].
  rewrite (proj2 (Z.ltb_lt c b)), (proj2 (Z.eqb_neq (n - 1) 0)) by lia. apply IH; lia.
Qed.

Lemma r2r_body_oob a s :
  fields_ok a -> 0 <= immu6 a < 64 ->
  ~ (range_ok (hb a) (immu6 a) /\ range_ok (hc a) (immu6 a)) -> r2r_body move a s = GOob.
Proof.
  intros (Ha & Hb & Hc & Hd) Hi Hn. unfold r2r_body, range_ok in *. rewrite gen_bind_eq.
  destruct s as [ctx t l ops].
  destruct (check_range_total [hb a; hc a] (immu6 a) ctx t l ops) as (c' & o' & ->).
  destruct (Z.ltb_spec (hc a) (hb a)); rewrite gen_bind_eq.
  - destruct (Z.eq_dec (immu6 a) 0).
    + rewrite r2r_loop_oob_down; try lia; [done|]. unfold loop_fuel. lia.
    + unfold loop_fuel. cbn [r2r_loop]. rewrite gen_bind_eq.
      rewrite (proj1 Ho) by lia. done.
  - rewrite r2r_loop_oob_up; try lia; [done|]. unfold loop_fuel. lia.
Qed.
End Oob.

(** ** The instructions that use the loop *)
Lemma exec_move {M} (B : backend M) helper f g b c tl (m : mach M) :
  exec B helper (O_mov (Greg f b) (Greg g c) :: tl) m
  = exec B helper tl (Mach (set_reg f b (reg g c (m_env m)) (m_env m)) (m_tmps m) (m_mem m)).
Proof. by erewrite exec_go. Qed.

(** One conversion: the helper's result and its effect on the state. *)
Definition fcvt_reg (helper : string -> CPUDADAOState -> list Z -> Z * CPUDADAOState)
    (fn : string) (src dest : regfile) (b c : Z) (env : CPUDADAOState) : CPUDADAOState :=
  if b =? 0 then env
  else let '(v, env') := helper fn env [reg src c env] in set_reg dest b v env'.

Lemma r2r_move_ok {M} (B : backend M) helper src dest :
  move_ok B helper (r2r_move src dest) (move_reg dest src).
Proof.
  intros b c ctx t l pre Hb Hc. unfold r2r_move, move_reg, when.
  destruct (_ || _).
  - gen_run. eexists. split; [done|]. intros tl m. apply exec_move.
  - exists []. rewrite app_nil_r. split; [done|]. by intros tl [].
Qed.
Lemma fcvt_move_ok {M} (B : backend M) helper src dest fn :
  move_ok B helper (fcvt_move src dest fn) (fcvt_reg helper fn src dest).
Proof.
  intros b c ctx t l pre Hb Hc. unfold fcvt_move, fcvt_reg, when.
  destruct (b =? 0); cbn [negb].
  - exists []. rewrite app_nil_r. split; [done|]. by intros tl [].
  - gen_run. eexists. split; [done|]. intros tl m. cbn [app].
    destruct (helper fn (m_env m) [reg src c (m_env m)]) as [v env'] eqn:E.
    erewrite exec_go by (cbn; rewrite E; reflexivity). done.
Qed.

Lemma cpu_not_fuel {A} f i (k : tcgv -> gen A) s :
  (forall v s, k v s <> GFuel) -> (cpu f i ≫= k) s <> GFuel.
Proof. intros H. rewrite gen_bind_eq. unfold cpu. by destruct (_ && _); cbn. Qed.
Lemma move_oob_intro (w : Z -> bool) f g (o : tcgv -> tcgv -> op) :
  (forall b, b <> 0 -> w b = true) ->
  move_oob (fun b c => when (w b) (d ← cpu f b; s ← cpu g c; emit (o d s))).
Proof.
  intros Hw. split.
  - intros b c s Hb Hn. rewrite Hw by done. unfold when.
    destruct (decide (0 <= b < 64)); [|by rewrite cpu_oob].
    rewrite cpu_bind by done. rewrite cpu_oob by lia. done.
  - intros b c s. unfold when. destruct (w b); [|done].
    apply cpu_not_fuel; intros v s'; apply cpu_not_fuel; intros v' s''; done.
Qed.
Lemma r2r_move_oob src dest : move_oob (r2r_move src dest).
Proof. apply (move_oob_intro (fun b => negb (b =? 0) || writable0 [RF; RA] dest) _ _ O_mov).
  intros b Hb. by rewrite (proj2 (Z.eqb_neq b 0)). Qed.
Lemma fcvt_move_oob src dest fn : move_oob (fcvt_move src dest fn).
Proof. apply (move_oob_intro (fun b => negb (b =? 0)) _ _ (fun d s => O_helper fn d [s])).
  intros b Hb. by rewrite (proj2 (Z.eqb_neq b 0)). Qed.
