(* ===== verification/IsaMem.v ===== *)
(** Loads and stores, single and multiple: the address is a base register
    plus an offset; a multiple access moves consecutive registers from or to
    consecutive addresses and keeps what was done before a fault. *)
From S2P Require Import Prelude Cpu Tcg Translate Run RefBackend IsaArith IsaMove.

Section Mem.
Context {M : Type} (B : backend M) (L : tcg_laws B).
Variable helper : string -> CPUDADAOState -> list Z -> Z * CPUDADAOState.

(** ** Specifications *)

(** rX[i] := v for a loaded value: register 0 of rf (and of ra, for the
    multiple load) is written, register 0 of rd and rb is not. *)
Definition load_reg (ok0 : list regfile) (f : regfile) (i v : Z) (env : CPUDADAOState) :=
  if negb (i =? 0) || writable0 ok0 f then set_reg f i v env else env.

Definition spec_ld (f : regfile) (mo : memop) (a : args) (env : CPUDADAOState) (mem : M) : result M :=
  match b_ld B mo (w64 (reg RB (hb a) env + imms12 a)) mem with
  | Some v => RFall (load_reg [RF] f (ha a) v env) mem
  | None => RFault env mem
  end.

Definition spec_st (f : regfile) (mo : memop) (a : args) (env : CPUDADAOState) (mem : M) : result M :=
  match b_st B mo (w64 (reg RB (hb a) env + imms12 a)) (reg f (ha a) env) mem with
  | Some mem => RFall env mem
  | None => RFault env mem
  end.

Fixpoint load_regs (f : regfile) (mo : memop) (n : nat) (i addr : Z) (env : CPUDADAOState)
    (mem : M) : result M :=
  match n with
  | O => RFall env mem
  | S n => match b_ld B mo addr mem with
           | Some v => load_regs f mo n (i + 1) (w64 (addr + 2 ^ mo_size mo))
                         (load_reg [RF; RA] f i v env) mem
           | None => RFault env mem
           end
  end.

Fixpoint store_regs (f : regfile) (mo : memop) (n : nat) (i addr : Z) (env : CPUDADAOState)
    (mem : M) : result M :=
  match n with
  | O => RFall env mem
  | S n => match b_st B mo addr (reg f i env) mem with
           | Some mem => store_regs f mo n (i + 1) (w64 (addr + 2 ^ mo_size mo)) env mem
           | None => RFault env mem
           end
  end.

Definition multi_addr (a : args) (env : CPUDADAOState) : Z :=
  w64 (reg RB (hb a) env + reg RD (hc a) env).

(** ** Single accesses *)
Lemma ld_run f mo c a env mem :
  ready a env ->
  runs B helper (INSN_LD_RRII f mo a) c env mem = Some (true, c, spec_ld f mo a env mem).
Proof.
  start. unfold INSN_LD_RRII, spec_ld, load_reg. gen_unfold.
  destruct (negb (ha a =? 0) || writable0 [RF] f); cbv iota.
  all: repeat gen_step; rewrite ?ret_last; cbn [app]; exec_all L; rewrite w64_add_r;
    by destruct (b_ld B mo _ mem); cbn; rewrite ?lookup_insert_eq.
Qed.

Lemma st_run f mo c a env mem :
  ready a env ->
  runs B helper (INSN_ST_RRII f mo a) c env mem = Some (true, c, spec_st f mo a env mem).
Proof.
  start. unfold INSN_ST_RRII, spec_st. gen_run. exec_all L. rewrite w64_add_r.
  by destruct (b_st B mo _ _ mem).
Qed.

(** ** The loops *)
Lemma step_size mo : Z.shiftl 1 (mo_size mo) = 2 ^ mo_size mo.
Proof. by destruct mo. Qed.
Lemma step_w64 mo : w64 (Z.shiftl 1 (mo_size mo)) = 2 ^ mo_size mo.
Proof. by destruct mo. Qed.

Lemma load_regs_S f mo n i addr env mem :
  load_regs f mo (S n) i addr env mem
  = match b_ld B mo addr mem with
    | Some v => load_regs f mo n (i + 1) (w64 (addr + 2 ^ mo_size mo))
                  (load_reg [RF; RA] f i v env) mem
    | None => RFault env mem
    end.
Proof. done. Qed.

(** The operations of one round: load, register write, address step. *)
Lemma ldm_step f mo i tl m :
  observe (exec B helper
    (O_ld (Tmp 1) (Tmp 0) 0 mo ::
     (if negb (i =? 0) || writable0 [RF; RA] f then [O_mov (Greg f i) (Tmp 1)] else []) ++
     O_alu A_add (Tmp 0) (Tmp 0) (Const (Z.shiftl 1 (mo_size mo))) :: tl) m)
  = match b_ld B mo (get m (Tmp 0)) (m_mem m) with
    | Some v => observe (exec B helper tl
        (Mach (load_reg [RF; RA] f i v (m_env m))
           (<[0%nat := w64 (get m (Tmp 0) + 2 ^ mo_size mo)]> (<[1%nat := v]> (m_tmps m))) (m_mem m)))
    | None => RFault (m_env m) (m_mem m)
    end.
Proof.
  destruct (b_ld B mo (get m (Tmp 0)) (m_mem m)) as [v|] eqn:El;
    [|by erewrite exec_stop by (cbn [exec_op]; rewrite El; done)].
  erewrite exec_go by (cbn [exec_op]; rewrite El; done). unfold load_reg.
  destruct (_ || _); cbn [app]; repeat (erewrite exec_go by done); cbn [set get m_env m_tmps m_mem];
    rewrite (law_add _ L); cbn [get]; rewrite step_w64;
    rewrite ?lookup_insert_eq, ?lookup_insert_ne by done; done.
Qed.

Lemma ldm_loop_run f mo n : forall fuel i ctx t l pre,
  mem_idx ctx = 0 -> (n < fuel)%nat -> 0 <= i -> i + Z.of_nat (S n) <= 64 ->
  exists ops,
    ldm_loop fuel f mo (Tmp 0) (Tmp 1) i (Z.of_nat (S n)) (GSt ctx t l pre)
    = GOk () (GSt ctx t l (pre ++ ops)) /\
    forall m, observe (exec B helper ops m)
              = load_regs f mo (S n) i (get m (Tmp 0)) (m_env m) (m_mem m).
Proof.
  induction n as [|n IH]; intros [|fuel] i ctx t l pre Hx Hf Hi Hn; try lia; cbn [ldm_loop].
  all: set (one := O_ld (Tmp 1) (Tmp 0) 0 mo ::
    (if negb (i =? 0) || writable0 [RF; RA] f then [O_mov (Greg f i) (Tmp 1)] else []) ++
     [O_alu A_add (Tmp 0) (Tmp 0) (Const (Z.shiftl 1 (mo_size mo)))]).
  - replace (Z.of_nat 1 - 1 =? 0) with true by reflexivity.
    exists one. split.
    + unfold one. gen_unfold. destruct (_ || _); repeat gen_step;
        rewrite ?ret_last, ?Hx, <- ?app_assoc; done.
    + intros m. unfold one. rewrite ldm_step, load_regs_S. by destruct (b_ld _ _ _ _).
  - rewrite (proj2 (Z.eqb_neq (Z.of_nat (S (S n)) - 1) 0)) by lia.
    replace (Z.of_nat (S (S n)) - 1) with (Z.of_nat (S n)) by lia.
    destruct (IH fuel (i + 1) ctx t l (pre ++ one)) as (ops & Hg & Ho); [done|lia..|].
    exists (one ++ ops). split.
    + rewrite app_assoc, <- Hg. unfold one. gen_unfold. destruct (_ || _); repeat gen_step;
        rewrite ?Hx, <- ?app_assoc; done.
    + intros m. unfold one. cbn [app]. rewrite <- app_assoc. cbn [app].
      rewrite ldm_step, load_regs_S. destruct (b_ld _ _ _ _); [|done].
      rewrite Ho. cbn [get m_env m_tmps m_mem]. by rewrite lookup_insert_eq.
Qed.

Lemma stm_loop_run f mo n : forall fuel i ctx t l pre,
  mem_idx ctx = 0 -> (n < fuel)%nat -> 0 <= i -> i + Z.of_nat (S n) <= 64 ->
  exists ops,
    stm_loop fuel f mo (Tmp 0) i (Z.of_nat (S n)) (GSt ctx t l pre)
    = GOk () (GSt ctx t l (pre ++ ops)) /\
    forall m, observe (exec B helper ops m)
              = store_regs f mo (S n) i (get m (Tmp 0)) (m_env m) (m_mem m).
Proof.
  assert (Hr : forall n i addr env mem, store_regs f mo (S n) i addr env mem
    = match b_st B mo addr (reg f i env) mem with
      | Some mem => store_regs f mo n (i + 1) (w64 (addr + 2 ^ mo_size mo)) env mem
      | None => RFault env mem end) by done.
  assert (Hs : forall i tl m,
    observe (exec B helper (O_st (Greg f i) (Tmp 0) 0 mo
      :: O_alu A_add (Tmp 0) (Tmp 0) (Const (Z.shiftl 1 (mo_size mo))) :: tl) m)
    = match b_st B mo (get m (Tmp 0)) (reg f i (m_env m)) (m_mem m) with
      | Some mem => observe (exec B helper tl (Mach (m_env m)
          (<[0%nat := w64 (get m (Tmp 0) + 2 ^ mo_size mo)]> (m_tmps m)) mem))
      | None => RFault (m_env m) (m_mem m)
      end).
  { intros i tl m. change (reg f i (m_env m)) with (get m (Greg f i)).
    destruct (b_st B mo (get m (Tmp 0)) (get m (Greg f i)) (m_mem m)) as [mem|] eqn:El;
      [|by erewrite exec_stop by (cbn [exec_op]; rewrite El; done)].
    erewrite exec_go by (cbn [exec_op]; rewrite El; done). erewrite exec_go by done.
    cbn [set get m_env m_tmps m_mem]. rewrite (law_add _ L). cbn [get]. by rewrite step_w64. }
  induction n as [|n IH]; intros [|fuel] i ctx t l pre Hx Hf Hi Hn; try lia; cbn [stm_loop].
  - replace (Z.of_nat 1 - 1 =? 0) with true by reflexivity. gen_unfold. repeat gen_step.
    rewrite ret_last, <- app_assoc, Hx. eexists. split; [reflexivity|].
    intros m. cbn [app]. rewrite Hs, Hr. by destruct (b_st _ _ _ _ _).
  - rewrite (proj2 (Z.eqb_neq (Z.of_nat (S (S n)) - 1) 0)) by lia.
    replace (Z.of_nat (S (S n)) - 1) with (Z.of_nat (S n)) by lia. gen_unfold. repeat gen_step.
    edestruct (IH fuel (i + 1)) as (ops & Hg & Ho); [exact Hx|lia..|]. rewrite Hg, Hx, <- !app_assoc.
    eexists. split; [reflexivity|]. intros m. cbn [app]. rewrite Hs.
    destruct (b_st B mo (get m (Tmp 0)) (reg f i (m_env m)) (m_mem m)) as [mem|] eqn:E;
      rewrite Hr, E; [|done].
    rewrite Ho. cbn [get m_env m_tmps m_mem]. by rewrite lookup_insert_eq.
Qed.

(** ** Multiple accesses *)
Lemma ldm_run f mo c a env mem :
  ready a env -> mem_idx c = 0 -> range_ok (ha a) (immu6 a) ->
  runs B helper (INSN_LDM_RRRI f mo a) c env mem
  = Some (true, c, load_regs f mo (Z.to_nat (immu6 a)) (ha a) (multi_addr a env) env mem).
Proof.
  intros Hr Hx (H0 & H1 & H2). start. unfold INSN_LDM_RRRI. rewrite gen_bind_eq.
  rewrite check_range_ok; [|lia|intros r Hin; apply list_elem_of_singleton in Hin; lia]. gen_unfold. repeat gen_step.
  destruct (Z.to_nat (immu6 a)) as [|n] eqn:En; [lia|].
  replace (immu6 a) with (Z.of_nat (S n)) by lia.
  edestruct (ldm_loop_run f mo n loop_fuel (ha a) c) as (ops & Hg & Ho); [done|unfold loop_fuel; lia|lia..|].
  rewrite gen_bind_eq, Hg. cbn [mret gen_ret g_ops g_ctx app]. erewrite exec_go by done.
  rewrite Ho. cbn [get set m_env m_tmps m_mem]. rewrite lookup_insert_eq.
  cbn. by rewrite (law_add _ L).
Qed.

Lemma stm_run f mo c a env mem :
  ready a env -> mem_idx c = 0 -> range_ok (ha a) (immu6 a) ->
  runs B helper (INSN_STM_RRRI f mo a) c env mem
  = Some (true, c, store_regs f mo (Z.to_nat (immu6 a)) (ha a) (multi_addr a env) env mem).
Proof.
  intros Hr Hx (H0 & H1 & H2). start. unfold INSN_STM_RRRI. rewrite gen_bind_eq.
  rewrite check_range_ok; [|lia|intros r Hin; apply list_elem_of_singleton in Hin; lia]. gen_unfold. repeat gen_step.
  destruct (Z.to_nat (immu6 a)) as [|n] eqn:En; [lia|].
  replace (immu6 a) with (Z.of_nat (S n)) by lia.
  edestruct (stm_loop_run f mo n loop_fuel (ha a) c) as (ops & Hg & Ho); [done|unfold loop_fuel; lia|lia..|].
  rewrite gen_bind_eq, Hg. cbn [mret gen_ret g_ops g_ctx app]. erewrite exec_go by done.
  rewrite Ho. cbn [get set m_env m_tmps m_mem]. rewrite lookup_insert_eq.
  cbn. by rewrite (law_add _ L).
Qed.
End Mem.

(** ** Out-of-range register counts *)
Lemma ldm_loop_oob f mo : forall fuel i n c t l ops,
  0 <= i <= 64 -> 64 - i < Z.of_nat fuel -> n <= 0 \/ 64 < i + n ->
  ldm_loop fuel f mo (Tmp 0) (Tmp 1) i n (GSt c t l ops) = GOob.
Proof.
  induction fuel as [|fuel IH]; intros i n c t l ops Hi Hf Hn; [lia|]. cbn [ldm_loop].
  gen_unfold. destruct (Z.eq_dec i 64) as [->|Hne].
  - cbn [negb Z.eqb orb Pos.eqb]. repeat gen_step. by rewrite cpu_oob by lia.
  - rewrite (proj2 (Z.eqb_neq (n - 1) 0)) by lia.
    destruct (_ || _); repeat gen_step; apply IH; lia.
Qed.
Lemma stm_loop_oob f mo : forall fuel i n c t l ops,
  0 <= i <= 64 -> 64 - i < Z.of_nat fuel -> n <= 0 \/ 64 < i + n ->
  stm_loop fuel f mo (Tmp 0) i n (GSt c t l ops) = GOob.
Proof.
  induction fuel as [|fuel IH]; intros i n c t l ops Hi Hf Hn; [lia|]. cbn [stm_loop].
  gen_unfold. destruct (Z.eq_dec i 64) as [->|Hne].
  - by rewrite cpu_oob by lia.
  - rewrite (proj2 (Z.eqb_neq (n - 1) 0)) by lia. repeat gen_step. apply IH; lia.
Qed.
Lemma ldm_oob f mo a c l ops :
  fields_ok a -> 0 <= immu6 a < 64 -> ~ range_ok (ha a) (immu6 a) ->
  INSN_LDM_RRRI f mo a (GSt c 0 l ops) = GOob.
Proof.
  intros (Ha & Hb & Hc & Hd) Hi Hn. unfold range_ok in Hn. unfold INSN_LDM_RRRI. rewrite gen_bind_eq.
  destruct (check_range_total [ha a] (immu6 a) c 0 l ops) as (c' & o' & ->). gen_unfold.
  repeat gen_step. by rewrite gen_bind_eq, ldm_loop_oob by (unfold loop_fuel; lia).
Qed.
Lemma stm_oob f mo a c l ops :
  fields_ok a -> 0 <= immu6 a < 64 -> ~ range_ok (ha a) (immu6 a) ->
  INSN_STM_RRRI f mo a (GSt c 0 l ops) = GOob.
Proof.
  intros (Ha & Hb & Hc & Hd) Hi Hn. unfold range_ok in Hn. unfold INSN_STM_RRRI. rewrite gen_bind_eq.
  destruct (check_range_total [ha a] (immu6 a) c 0 l ops) as (c' & o' & ->). gen_unfold.
  repeat gen_step. by rewrite gen_bind_eq, stm_loop_oob by (unfold loop_fuel; lia).
Qed.
