(* ===== verification/IsaControl.v ===== *)
(** Control flow: branches, jumps, calls and returns, the instructions that
    raise, and the load-reserved and store-conditional pair. *)
From S2P Require Import Prelude Cpu Tcg Translate Run RefBackend IsaArith IsaMove.

(** The context after an instruction that ends its block. *)
Definition jump_ctx (c : DisasContext) : DisasContext :=
  DC (pc_next c) DISAS_JUMP (mem_idx c) (jmp_pc_imm c).
Definition jump_ctx_imm (c : DisasContext) (dest : Z) : DisasContext :=
  DC (pc_next c) DISAS_JUMP (mem_idx c) dest.
Definition noreturn_ctx (c : DisasContext) : DisasContext :=
  DC (pc_next c) DISAS_NORETURN (mem_idx c) (jmp_pc_imm c).

(** ** Specifications *)
Definition spec_br2 (test : Z -> Z -> bool) (pc : Z) (a : args) (env : CPUDADAOState) :=
  set_jmp_pc (if test (reg RD (ha a) env) (reg RD (hb a) env)
              then w64 (pc + 4 * imms12 a) else w64 (pc + 4)) env.
Definition spec_br1 (test : Z -> bool) (pc : Z) (a : args) (env : CPUDADAOState) :=
  set_jmp_pc (if test (reg RD (ha a) env)
              then w64 (pc + 4 * imms18 a) else w64 (pc + 4)) env.
Definition spec_jumpr (a : args) (env : CPUDADAOState) :=
  set_jmp_pc (w64 (reg RB (ha a) env + reg RD (hb a) env + 4 * imms12 a)) env.

(** The return-address registers as a shift register: ra0 is the spill
    pointer, ra63 the newest entry, ra1 the oldest. *)
Definition shift_args (d s : Z) : args := Args 0 d s 0 0 62 0 0 0 0 0 0.
Definition shift_down (env : CPUDADAOState) := spec_r2r RA RA (shift_args 1 2) env.
Definition shift_up (env : CPUDADAOState) := spec_r2r RA RA (shift_args 2 1) env.

(** A branch whose condition is decided by [E]. *)
Ltac cond_step law E :=
  cbn [exec_op get m_env]; change (w64 0) with 0; rewrite law, E; reflexivity.

Section Control.
Context {M : Type} (B : backend M) (L : tcg_laws B).
Variable helper : string -> CPUDADAOState -> list Z -> Z * CPUDADAOState.

Definition spec_push (pc : Z) (env : CPUDADAOState) (mem : M) : result M :=
  let link env mem := RFall (set_reg RA 63 (w64 (pc + 4)) (shift_down env)) mem in
  if reg RA 1 env =? 0 then link env mem
  else if reg RA 0 env =? 0 then RRaise DADAO_EXCP_TRIP env mem
  else
    let sp := w64 (reg RA 0 env - 8) in
    let env' := set_reg RA 0 sp env in
    match b_st B MO_TEUQ sp (reg RA 1 env) mem with
    | Some mem => link env' mem
    | None => RFault env' mem
    end.

Definition spec_pop (env : CPUDADAOState) (mem : M) : result M :=
  if negb (reg RA 63 env =? 0) then
    RFall (set_reg RA 1 0 (shift_up (set_jmp_pc (reg RA 63 env) env))) mem
  else if reg RA 0 env =? 0 then RRaise DADAO_EXCP_TRIP env mem
  else match b_ld B MO_TEUQ (reg RA 0 env) mem with
       | Some dest => RFall (set_reg RA 0 (w64 (reg RA 0 env + 8)) (set_jmp_pc dest env)) mem
       | None => RFault env mem
       end.

(** ** Branches and jumps *)
Lemma br2_run cond (test : Z -> Z -> bool) c a env mem :
  (forall x y, b_cond B cond x y = test x y) -> ready a env ->
  runs B helper (INSN_BR_RRII cond a) c env mem
  = Some (true, jump_ctx c, RFall (spec_br2 test (pc_next c) a env) mem).
Proof.
  intros Ht. start. unfold INSN_BR_RRII, spec_br2. destruct c as [p j idx d]. sim L. rewrite Ht.
  cbn [pc_next]. rewrite (Z.mul_comm 4). done.
Qed.
Lemma br1_run cond (test : Z -> bool) c a env mem :
  (forall x, b_cond B cond x 0 = test x) -> ready a env ->
  runs B helper (INSN_BR_RIII cond a) c env mem
  = Some (true, jump_ctx c, RFall (spec_br1 test (pc_next c) a env) mem).
Proof.
  intros Ht. start. unfold INSN_BR_RIII, spec_br1. destruct c as [p j idx d]. sim L. rewrite Hz, Ht.
  cbn [pc_next]. rewrite (Z.mul_comm 4). done.
Qed.
Lemma jumpi_run c a env mem :
  ready a env ->
  runs B helper (trans_JUMPi a) c env mem
  = Some (true, jump_ctx_imm c (w64 (pc_next c + imms24 a * 4)), RFall env mem).
Proof. start. destruct c as [p j idx d]. unfold trans_JUMPi. sim L. done. Qed.

Lemma jmp_pc_set v env : jmp_pc (set_jmp_pc v env) = v.
Proof. by destruct env. Qed.
Lemma set_jmp_pc_twice u v env : set_jmp_pc v (set_jmp_pc u env) = set_jmp_pc v env.
Proof. by destruct env. Qed.
Lemma reg_set_jmp_pc f i v env : reg f i (set_jmp_pc v env) = reg f i env.
Proof. by destruct env, f. Qed.

Lemma jumpr_run c a env mem :
  ready a env ->
  runs B helper (trans_JUMPr a) c env mem
  = Some (true, jump_ctx c, RFall (spec_jumpr a env) mem).
Proof.
  start. destruct c as [p j idx d]. unfold trans_JUMPr, spec_jumpr. sim L.
  repeat (progress rewrite ?jmp_pc_set, ?set_jmp_pc_twice, ?reg_set_jmp_pc, ?(law_add _ L); cbn [get m_env]).
  rewrite w64_add_l, w64_add_r, (Z.mul_comm 4). done.
Qed.

(** ** The moves of the return-address registers *)
Definition mov_op (p : Z * Z) : op := O_mov (Greg RA p.1) (Greg RA p.2).
Definition mov_env (env : CPUDADAOState) (p : Z * Z) : CPUDADAOState :=
  set_reg RA p.1 (reg RA p.2 env) env.

Lemma ra_moves_gen ixs c t l pre :
  Forall (fun p => 0 <= p.1 < 64 /\ 0 <= p.2 < 64) ixs ->
  ra_moves ixs (GSt c t l pre) = GOk () (GSt c t l (pre ++ (mov_op <$> ixs))).
Proof.
  intros H. revert pre. induction H as [|[d s] ixs [Hd Hs] H IH]; intros pre.
  { cbn. by rewrite app_nil_r. }
  unfold ra_moves in *. cbn [foldr fmap list_fmap]. gen_unfold. repeat gen_step.
  rewrite IH, <- app_assoc. done.
Qed.
Lemma exec_moves ixs tl (m : mach M) :
  exec B helper ((mov_op <$> ixs) ++ tl) m
  = exec B helper tl (Mach (foldl mov_env (m_env m) ixs) (m_tmps m) (m_mem m)).
Proof.
  revert m. induction ixs as [|[d s] ixs IH]; intros m; [by destruct m|].
  cbn [fmap list_fmap app]. erewrite exec_go by done. by rewrite IH.
Qed.

Lemma move_ra b c env : move_reg RA RA b c env = mov_env env (b, c).
Proof. unfold move_reg, mov_env. cbn. by rewrite orb_true_r. Qed.
Lemma foldl_up n b env :
  foldl mov_env env ((fun i => (i, i + 1)) <$> seqZ b (Z.of_nat n))
  = iter_up (move_reg RA RA) n b (b + 1) env.
Proof.
  revert b env. induction n as [|n IH]; intros b env; [done|].
  rewrite Nat2Z.inj_succ, seqZ_cons by lia. rewrite Z.pred_succ. cbn [fmap list_fmap foldl iter_up].
  by rewrite IH, move_ra.
Qed.
Lemma foldl_down n b env :
  foldl mov_env env ((fun i => (i + 1, i)) <$> rev (seqZ (b - Z.of_nat n) (Z.of_nat n)))
  = iter_down (move_reg RA RA) n b (b - 1) env.
Proof.
  revert b env. induction n as [|n IH]; intros b env; [done|].
  replace (b - Z.of_nat (S n)) with (b - 1 - Z.of_nat n) by lia.
  rewrite seqZ_S, rev_app_distr. cbn [rev app fmap list_fmap foldl iter_down].
  replace (b - 1 - Z.of_nat n + Z.of_nat n) with (b - 1) by lia.
  rewrite IH, move_ra. do 3 f_equal. lia.
Qed.
Lemma push_moves_env env : wf_env env -> foldl mov_env env push_moves = shift_down env.
Proof.
  intros Hwf. unfold shift_down. rewrite <- iter_move_spec by (done || (split; cbn; lia)).
  exact (foldl_up 62 1 env).
Qed.
Lemma pop_moves_env env : wf_env env -> foldl mov_env env pop_moves = shift_up env.
Proof.
  intros Hwf. unfold shift_up. rewrite <- iter_move_spec by (done || (split; cbn; lia)).
  exact (foldl_down 62 63 env).
Qed.
Lemma moves_range :
  Forall (fun p => 0 <= p.1 < 64 /\ 0 <= p.2 < 64) push_moves /\
  Forall (fun p => 0 <= p.1 < 64 /\ 0 <= p.2 < 64) pop_moves.
Proof. split; apply (bool_decide_unpack _); vm_compute; done. Qed.

(** ** Calls and returns *)
Lemma push_gen c t pre :
  push_return_address (GSt c t 0 pre) = GOk () (GSt c t 2 (pre ++
    [O_brcond TCG_COND_EQ (Greg RA 1) (Const 0) 0; O_brcond TCG_COND_NE (Greg RA 0) (Const 0) 1;
     O_exception DADAO_EXCP_TRIP; O_label 1; O_alu A_add (Greg RA 0) (Greg RA 0) (Const (-8));
     O_st (Greg RA 1) (Greg RA 0) (mem_idx c) MO_TEUQ; O_label 0]
    ++ (mov_op <$> push_moves) ++ [O_mov (Greg RA 63) (Const (pc_next c + 4))])).
Proof.
  unfold push_return_address. gen_unfold. repeat gen_step. rewrite <- ?app_assoc. cbn [app].
  rewrite gen_bind_eq, ra_moves_gen by apply moves_range. rewrite ctx_bind, emit_last.
  rewrite <- ?app_assoc. done.
Qed.
Lemma pop_gen c t pre :
  pop_return_address (GSt c t 0 pre) = GOk () (GSt c t 3 (pre ++
    [O_brcond TCG_COND_NE (Greg RA 63) (Const 0) 0; O_brcond TCG_COND_NE (Greg RA 0) (Const 0) 1;
     O_exception DADAO_EXCP_TRIP; O_label 1; O_ld Gjmp_pc (Greg RA 0) (mem_idx c) MO_TEUQ;
     O_alu A_add (Greg RA 0) (Greg RA 0) (Const 8); O_br 2; O_label 0; O_mov Gjmp_pc (Greg RA 63)]
    ++ (mov_op <$> pop_moves) ++ [O_mov (Greg RA 1) (Const 0); O_label 2])).
Proof.
  unfold pop_return_address. gen_unfold. repeat gen_step. rewrite <- ?app_assoc. cbn [app].
  rewrite gen_bind_eq, ra_moves_gen by apply moves_range. rewrite emit_bind, emit_last.
  rewrite <- ?app_assoc. done.
Qed.

Lemma link_exec pc m :
  wf_env (m_env m) ->
  exec B helper ((mov_op <$> push_moves) ++ [O_mov (Greg RA 63) (Const (pc + 4))]) m
  = Fall (Mach (set_reg RA 63 (w64 (pc + 4)) (shift_down (m_env m))) (m_tmps m) (m_mem m)).
Proof.
  intros Hwf. rewrite exec_moves. erewrite exec_go by done. rewrite exec_nil.
  cbn [set get m_env m_tmps m_mem]. by rewrite push_moves_env.
Qed.

(** [bind_result r k]: continue after a fall-through. *)
Definition bind_result (r : result M) (k : CPUDADAOState -> M -> result M) : result M :=
  match r with RFall env mem => k env mem | r => r end.

Lemma call_run (g : gen bool) (k : CPUDADAOState -> M -> result M) c c' kops env mem :
  wf_env env -> mem_idx c = 0 ->
  (forall t l pre, g (GSt c t l pre) = GOk true (GSt c' t l (pre ++ kops))) ->
  (forall env mem t, observe (exec B helper kops (Mach env t mem)) = k env mem) ->
  runs B helper (push_return_address;; g) c env mem
  = Some (true, c', bind_result (spec_push (pc_next c) env mem) k).
Proof.
  intros Hwf Hx Hg Hk. unfold runs. rewrite gen_bind_eq, push_gen, Hg, Hx. cbn [g_ctx g_ops app].
  do 2 f_equal. unfold spec_push, bind_result. rewrite <- app_assoc.
  assert (Hl : forall env mem t, wf_env env ->
    observe (exec B helper ((mov_op <$> push_moves) ++
      [O_mov (Greg RA 63) (Const (pc_next c + 4))] ++ kops) (Mach env t mem))
    = k (set_reg RA 63 (w64 (pc_next c + 4)) (shift_down env)) mem).
  { intros env' mem' t' H. rewrite app_assoc. erewrite exec_app by (by apply link_exec). apply Hk. }
  cbn [app] in Hl. cbn [app].
  destruct (reg RA 1 env =? 0) eqn:E1.
  { erewrite exec_jump; [|cond_step (law_eq _ L) E1|reflexivity]. by apply Hl. }
  erewrite exec_go by (cond_step (law_eq _ L) E1).
  destruct (reg RA 0 env =? 0) eqn:E0.
  { erewrite exec_go by (cond_step (law_ne _ L) E0). by erewrite exec_stop by done. }
  erewrite exec_jump; [|cond_step (law_ne _ L) E0|reflexivity].
  erewrite exec_go by done. cbn [set get m_env m_tmps m_mem]. rewrite (law_add _ L), w64_add_r.
  change (reg RA 0 env + -8) with (reg RA 0 env - 8).
  set (sp := w64 (reg RA 0 env - 8)).
  assert (Hs : get (Mach (set_reg RA 0 sp env) ∅ mem) (Greg RA 0) = sp) by (by apply reg_set_reg_eq).
  assert (Hv : get (Mach (set_reg RA 0 sp env) ∅ mem) (Greg RA 1) = reg RA 1 env)
    by (apply reg_set_reg_ne; right; lia).
  destruct (b_st B MO_TEUQ sp (reg RA 1 env) mem) as [mem'|] eqn:E.
  - erewrite exec_go by (cbn [exec_op m_mem]; rewrite Hs, Hv, E; reflexivity).
    erewrite exec_go by done. apply Hl. by apply wf_set_reg.
  - by erewrite exec_stop by (cbn [exec_op m_mem]; rewrite Hs, Hv, E; reflexivity).
Qed.

Lemma calli_run c a env mem :
  ready a env -> mem_idx c = 0 ->
  runs B helper (trans_CALLi a) c env mem
  = Some (true, jump_ctx_imm c (w64 (pc_next c + imms24 a * 4)), spec_push (pc_next c) env mem).
Proof.
  intros ((Hha & Hhb & _) & Hwf & _) Hx. unfold trans_CALLi.
  erewrite (call_run _ RFall) with (kops := []); [|done|done| |done].
  - unfold bind_result. by destruct (spec_push _ _ _).
  - intros t l pre. unfold trans_JUMPi. destruct c. gen_run. by rewrite app_nil_r.
Qed.
Lemma callr_run c a env mem :
  ready a env -> mem_idx c = 0 ->
  runs B helper (trans_CALLr a) c env mem
  = Some (true, jump_ctx c, bind_result (spec_push (pc_next c) env mem)
            (fun env mem => RFall (spec_jumpr a env) mem)).
Proof.
  intros ((Hha & Hhb & _) & Hwf & _) Hx. unfold trans_CALLr.
  eapply call_run; [done|done|..].
  - intros t l pre. unfold trans_JUMPr. destruct c as [p j idx d]. gen_run. rewrite <- ?app_assoc; cbn [app]; reflexivity.
  - intros env' mem' t. cbn [app]. exec_all L. unfold spec_jumpr.
    repeat (progress rewrite ?jmp_pc_set, ?set_jmp_pc_twice, ?reg_set_jmp_pc, ?(law_add _ L); cbn [get m_env]).
    rewrite w64_add_l, w64_add_r. by rewrite (Z.mul_comm 4).
Qed.

(** RET: the value for ra0's register, then the pop. *)
Definition spec_ret (a : args) (env : CPUDADAOState) (mem : M) : result M :=
  spec_pop (write RD (ha a) (w64 (imms18 a)) env) mem.

Lemma pop_exec env mem t kops :
  wf_env env -> kops = [O_mov (Greg RA 1) (Const 0); O_label 2] ->
  observe (exec B helper
    ([O_brcond TCG_COND_NE (Greg RA 63) (Const 0) 0; O_brcond TCG_COND_NE (Greg RA 0) (Const 0) 1;
     O_exception DADAO_EXCP_TRIP; O_label 1; O_ld Gjmp_pc (Greg RA 0) 0 MO_TEUQ;
     O_alu A_add (Greg RA 0) (Greg RA 0) (Const 8); O_br 2; O_label 0; O_mov Gjmp_pc (Greg RA 63)]
    ++ (mov_op <$> pop_moves) ++ kops) (Mach env t mem)) = spec_pop env mem.
Proof.
  intros Hwf ->. cbn [app]. unfold spec_pop. destruct (reg RA 63 env =? 0) eqn:E1; cbn [negb].
  2: { erewrite exec_jump; [|cond_step (law_ne _ L) E1|reflexivity].
    erewrite exec_go by done. rewrite exec_moves. repeat (erewrite exec_go by done). rewrite exec_nil.
    cbn [set get m_env m_tmps m_mem observe]. rewrite pop_moves_env by (by apply wf_set_jmp_pc). done. }
  erewrite exec_go by (cond_step (law_ne _ L) E1).
  destruct (reg RA 0 env =? 0) eqn:E0.
  { erewrite exec_go by (cond_step (law_ne _ L) E0). by erewrite exec_stop by done. }
  erewrite exec_jump; [|cond_step (law_ne _ L) E0|reflexivity].
  destruct (b_ld B MO_TEUQ (reg RA 0 env) mem) as [v|] eqn:E.
  - erewrite exec_go by (cbn [exec_op get m_env m_mem]; rewrite E; reflexivity). erewrite exec_go by done.
    erewrite exec_jump; [|done|vm_compute; reflexivity]. rewrite exec_nil.
    cbn [set get m_env m_tmps m_mem observe]. rewrite (law_add _ L), reg_set_jmp_pc. done.
  - by erewrite exec_stop by (cbn [exec_op get m_env m_mem]; rewrite E; reflexivity).
Qed.

Lemma ret_run c a env mem :
  ready a env -> mem_idx c = 0 ->
  runs B helper (trans_RET a) c env mem = Some (true, jump_ctx c, spec_ret a env mem).
Proof.
  intros Hr Hx. start. unfold trans_RET, spec_ret, write. destruct (ha a =? 0) eqn:E; cbn [negb].
  - gen_unfold. repeat gen_step. rewrite gen_bind_eq, pop_gen, Hx. repeat gen_step.
    rewrite ret_last. cbn [g_ctx g_ops]. do 2 f_equal. by apply pop_exec.
  - gen_unfold. repeat gen_step. rewrite gen_bind_eq, pop_gen, Hx. repeat gen_step.
    rewrite ret_last. cbn [g_ctx g_ops app]. erewrite exec_go by done.
    do 2 f_equal. by apply pop_exec; [apply wf_set_reg|].
Qed.

(** ** Exceptions *)
Lemma unimp_run c a env mem :
  runs B helper (trans_UNIMP a) c env mem
  = Some (true, noreturn_ctx c, RRaise DADAO_EXCP_ILLI (set_PC (w64 (pc_next c)) env) mem).
Proof.
  destruct c as [p j idx d]. unfold runs, trans_UNIMP, gen_exception_illegal_instruction. gen_run.
  exec_all L. done.
Qed.
Lemma trap_run c a env mem :
  runs B helper (trans_TRAP a) c env mem
  = if negb (ha a =? 0) || negb (immu18 a =? 0) then Some (false, c, RFall env mem)
    else Some (true, noreturn_ctx c, RRaise DADAO_EXCP_TRAP env mem).
Proof.
  destruct c as [p j idx d]. unfold runs, trans_TRAP. destruct (_ || _); [done|]. gen_run.
  exec_all L. done.
Qed.
End Control.
