(* ===== verification/IsaSys.v ===== *)
(** Floating-point instructions, which call a helper, and the load-reserved
    and store-conditional pair. *)
From S2P Require Import Prelude Cpu Tcg Translate Run RefBackend IsaArith.

Section Sys.
Context {M : Type} (B : backend M) (L : tcg_laws B).
Variable helper : string -> CPUDADAOState -> list Z -> Z * CPUDADAOState.

(** ** Specifications *)

(** The helper computes the target and may change the state. *)
Definition spec_helper (fn : string) (f : regfile) (i : Z) (xs : list Z) (env : CPUDADAOState) :=
  let '(v, env') := helper fn env xs in set_reg f i v env'.
Definition spec_forrr (fn : string) (f : regfile) (a : args) (env : CPUDADAOState) :=
  spec_helper fn f (hb a) [reg RF (hc a) env; reg RF (hd a) env] env.
Definition spec_frrrr (fn : string) (a : args) (env : CPUDADAOState) :=
  spec_helper fn RF (ha a) [reg RF (hb a) env; reg RF (hc a) env; reg RF (hd a) env] env.
Definition spec_forri (fn : string) (a : args) (env : CPUDADAOState) :=
  spec_helper fn RF (hb a) [reg RF (hc a) env] env.

Definition spec_lro (a : args) (env : CPUDADAOState) (mem : M) : result M :=
  let addr := reg RB (hd a) env in
  match b_ld B MO_TEUQ addr mem with
  | Some v => RFall (set_reg RD (hc a) v (set_load_res addr (set_load_val v env))) mem
  | None => RFault env mem
  end.

(** The store happens, and rd[hb] becomes 0, when the reservation is for
    this address and the memory still holds the value loaded. *)
Definition spec_sco (a : args) (env : CPUDADAOState) (mem : M) : result M :=
  let addr := reg RB (hd a) env in
  let finish v env mem := RFall (set_load_res (w64 (-1)) (set_reg RD (hb a) v env)) mem in
  if negb (load_res env =? addr) then finish 1 env mem
  else match b_cmpxchg B MO_TEUQ addr (load_val env) (reg RD (hc a) env) mem with
       | Some (old, mem) => finish (b2z (negb (old =? load_val env))) env mem
       | None => RFault env mem
       end.

(** ** Floating point *)
Lemma forrr_run fn c a env mem :
  ready a env ->
  runs B helper (INSN_FALG_ORRR fn a) c env mem
  = Some (true, c, RFall (spec_forrr fn RF a env) mem).
Proof.
  start. unfold INSN_FALG_ORRR, spec_forrr, spec_helper. gen_run. exec_all L.
  cbn [fmap list_fmap get m_env]. by destruct (helper fn env _).
Qed.
Lemma fcmp_run fn c a env mem :
  ready a env ->
  runs B helper (INSN_FCMP_ORRR fn a) c env mem
  = Some (true, c, RFall (spec_forrr fn RD a env) mem).
Proof.
  start. unfold INSN_FCMP_ORRR, spec_forrr, spec_helper. gen_run. exec_all L.
  cbn [fmap list_fmap get m_env]. by destruct (helper fn env _).
Qed.
Lemma frrrr_run fn c a env mem :
  ready a env ->
  runs B helper (INSN_FALG_RRRR fn a) c env mem
  = Some (true, c, RFall (spec_frrrr fn a env) mem).
Proof.
  start. unfold INSN_FALG_RRRR, spec_frrrr, spec_helper. gen_run. exec_all L.
  cbn [fmap list_fmap get m_env]. by destruct (helper fn env _).
Qed.
(** The root and logarithm need 2 in the immediate field. *)
Lemma forri_run fn c a env mem :
  ready a env -> immu6 a = 2 ->
  runs B helper (INSN_FALG_ORRI fn a) c env mem
  = Some (true, c, RFall (spec_forri fn a env) mem).
Proof.
  intros Hr Hi. start. unfold INSN_FALG_ORRI, spec_forri, spec_helper. rewrite Hi. cbn [Z.eqb Pos.eqb negb].
  gen_run. exec_all L. cbn [fmap list_fmap get m_env]. by destruct (helper fn env _).
Qed.
Lemma forri_illegal fn c a env mem :
  ready a env -> immu6 a <> 2 ->
  runs B helper (INSN_FALG_ORRI fn a) c env mem
  = Some (true, DC (pc_next c) DISAS_NORETURN (mem_idx c) (jmp_pc_imm c),
          RRaise DADAO_EXCP_ILLI (set_PC (w64 (pc_next c)) env) mem).
Proof.
  intros Hr Hi. start. unfold INSN_FALG_ORRI, gen_exception_illegal_instruction.
  rewrite (proj2 (Z.eqb_neq _ _) Hi). cbn [negb]. destruct c as [p j idx d]. gen_run.
  exec_all L. done.
Qed.

(** ** Load reserved, store conditional *)
Lemma lro_reject before after c a env mem :
  hd a = 0 \/ hb a <> 0 ->
  runs B helper (LRO before after a) c env mem = Some (false, c, RFall env mem).
Proof.
  intros H. unfold runs, LRO.
  replace ((hd a =? 0) || negb (hb a =? 0)) with true; [done|]. zcases; cbn; lia || done.
Qed.
Lemma lro_skip before after c a env mem :
  hd a <> 0 -> hb a = 0 -> hc a = 0 ->
  runs B helper (LRO before after a) c env mem = Some (true, c, RFall env mem).
Proof.
  intros Hd Hb Hc. unfold runs, LRO. rewrite Hb, Hc, (proj2 (Z.eqb_neq _ _) Hd). done.
Qed.
Lemma lro_run before after c a env mem :
  (length before <= 1)%nat -> (length after <= 1)%nat ->
  ready a env -> hd a <> 0 -> hb a = 0 -> hc a <> 0 ->
  runs B helper (LRO before after a) c env mem = Some (true, c, spec_lro a env mem).
Proof.
  intros Hl1 Hl2 Hr Hd Hb Hc. start. unfold LRO, spec_lro.
  rewrite Hb, (proj2 (Z.eqb_neq _ _) Hd), (proj2 (Z.eqb_neq _ _) Hc). cbn [orb negb Z.eqb].
  destruct before as [|b [|? ?]], after as [|f [|? ?]]; cbn in Hl1, Hl2; try lia; cbn [foldr].
  all: gen_run; cbn [g_ops g_ctx]; cbv [exec length]; exec_cbn; rewrite lookup_insert_eq;
    cbn [default id]; destruct (b_ld B MO_TEUQ _ mem); [|done]; exec_cbn;
    rewrite lookup_insert_eq; cbn [default id]; by destruct env.
Qed.

Lemma sco_reject barrier c a env mem :
  hd a = 0 \/ hb a = 0 ->
  runs B helper (SCO barrier a) c env mem = Some (false, c, RFall env mem).
Proof.
  intros H. unfold runs, SCO.
  replace ((hd a =? 0) || (hb a =? 0)) with true; [done|]. zcases; cbn; lia || done.
Qed.
Lemma sco_run barrier c a env mem :
  ready a env -> mem_idx c = 0 -> hd a <> 0 -> hb a <> 0 ->
  runs B helper (SCO barrier a) c env mem = Some (true, c, spec_sco a env mem).
Proof.
  intros Hr Hx Hd Hb. start. unfold SCO, spec_sco.
  rewrite (proj2 (Z.eqb_neq _ _) Hd), (proj2 (Z.eqb_neq _ _) Hb). cbn [orb].
  destruct c as [p j idx d]. gen_run. cbn [mem_idx] in Hx. subst idx.
  cbn [g_ops g_ctx]. erewrite exec_go by done. do 2 f_equal. cbn [set get m_env m_tmps m_mem].
  set (m := Mach env (<[0%nat := reg RB (hd a) env]> ∅) mem).
  assert (H0 : get m (Tmp 0) = reg RB (hd a) env) by (cbn; by rewrite lookup_insert_eq).
  destruct (load_res env =? reg RB (hd a) env) eqn:E; cbn [negb].
  - erewrite exec_go by (cbn [exec_op]; rewrite (law_ne _ L), H0; cbn [get m m_env]; rewrite E; done).
    destruct (b_cmpxchg B MO_TEUQ (reg RB (hd a) env) (load_val env) (reg RD (hc a) env) mem)
      as [[old mem']|] eqn:Ec; apply Z.eqb_eq in E; rewrite <- E in Ec.
    + erewrite exec_go by (cbn [exec_op get m m_env m_mem]; rewrite Ec; reflexivity).
      do 2 erewrite exec_go by done. erewrite exec_jump; [|done|reflexivity].
      erewrite exec_go by done. rewrite exec_nil. cbn [observe set get m_env m_tmps m_mem m].
      by rewrite (law_ne _ L), !lookup_insert_eq.
    + by erewrite exec_stop by (cbn [exec_op get m m_env m_mem]; rewrite Ec; reflexivity).
  - erewrite exec_jump; [|cbn [exec_op]; rewrite (law_ne _ L), H0; cbn [get m m_env]; rewrite E; done|reflexivity].
    repeat (erewrite exec_go by done). rewrite exec_nil. cbn [observe set get m_env m_tmps m_mem m].
    by rewrite lookup_insert_eq.
Qed.
End Sys.
