(* ===== verification/RetStack.v ===== *)
(** The return-address stack: ra63 down to ra1 hold the newest entries, older
    ones are spilled to memory at the pointer in ra0.  The calls and returns
    of the emulator refine push and pop on an abstract list of addresses. *)
From S2P Require Import Prelude Cpu Tcg Translate Run RefBackend IsaArith IsaMove IsaControl.

(** What the stack needs of the memory: an octa stored at a writable address
    is read back, and the octas that do not overlap it stay. *)
Record octa_mem {M} (B : backend M) (writable : Z -> Prop) : Prop := OctaMem {
  om_store : forall addr v m, writable addr -> exists m', b_st B MO_TEUQ addr v m = Some m';
  om_same : forall addr v m m', writable addr -> 0 <= v < 2^64 ->
    b_st B MO_TEUQ addr v m = Some m' -> b_ld B MO_TEUQ addr m' = Some v;
  om_other : forall addr addr' v m m', 0 <= addr' -> 0 <= addr -> addr' + 8 <= 2^64 ->
    addr + 8 <= addr' -> b_st B MO_TEUQ addr v m = Some m' ->
    b_ld B MO_TEUQ addr' m' = b_ld B MO_TEUQ addr' m }.

(** The same for octas on either side. *)
Definition octa_apart {M} (B : backend M) : Prop := forall addr addr' v m m',
  0 <= addr -> addr + 8 <= 2^64 -> 0 <= addr' -> addr' + 8 <= 2^64 ->
  addr + 8 <= addr' \/ addr' + 8 <= addr -> b_st B MO_TEUQ addr v m = Some m' ->
  b_ld B MO_TEUQ addr' m' = b_ld B MO_TEUQ addr' m.

(** ** The register part as a function of the index *)
Lemma shift_down_reg env j : wf_env env -> 0 <= j < 64 ->
  reg RA j (shift_down env) = if (1 <=? j) && (j <? 63) then reg RA (j + 1) env else reg RA j env.
Proof.
  intros Hwf Hj. unfold shift_down, spec_r2r. unfold reg at 1. rewrite file_set_file_eq.
  unfold zlookup. rewrite (proj2 (Z.leb_le 0 j)), list_lookup_imap, Z2Nat.id by lia.
  assert (exists v, file RA env !! Z.to_nat j = Some v) as [v Hv]
    by (apply lookup_lt_is_Some_2; rewrite Hwf; lia).
  rewrite Hv. cbn [fmap option_fmap option_map default hb hc immu6 shift_args id].
  change (1 + 62) with 63. destruct ((1 <=? j) && (j <? 63)) eqn:E; cbn [andb].
  - replace (negb (j =? 0)) with true by (apply andb_true_iff in E as [E _]; zcases; lia || done).
    cbn. f_equal. lia.
  - unfold reg, zlookup. rewrite (proj2 (Z.leb_le 0 j)) by lia. by rewrite Hv.
Qed.
Lemma shift_up_reg env j : wf_env env -> 0 <= j < 64 ->
  reg RA j (shift_up env) = if 2 <=? j then reg RA (j - 1) env else reg RA j env.
Proof.
  intros Hwf Hj. unfold shift_up, spec_r2r. unfold reg at 1. rewrite file_set_file_eq.
  unfold zlookup. rewrite (proj2 (Z.leb_le 0 j)), list_lookup_imap, Z2Nat.id by lia.
  assert (exists v, file RA env !! Z.to_nat j = Some v) as [v Hv]
    by (apply lookup_lt_is_Some_2; rewrite Hwf; lia).
  rewrite Hv. cbn [fmap option_fmap option_map default hb hc immu6 shift_args id].
  change (2 + 62) with 64. rewrite (proj2 (Z.ltb_lt j 64)), andb_true_r by lia.
  destruct (2 <=? j) eqn:E; cbn [andb].
  - replace (negb (j =? 0)) with true by (zcases; lia || done). cbn. f_equal. lia.
  - unfold reg, zlookup. rewrite (proj2 (Z.leb_le 0 j)) by lia. by rewrite Hv.
Qed.
Lemma wf_set_file f l env : wf_env env -> length l = 64%nat -> wf_env (set_file f l env).
Proof.
  intros Hwf Hl g. destruct (decide (f = g)) as [->|Hn].
  - by rewrite file_set_file_eq.
  - by rewrite file_set_file_ne.
Qed.
Lemma wf_spec_r2r src dest a env : wf_env env -> wf_env (spec_r2r src dest a env).
Proof. intros H. apply wf_set_file; [done|]. by rewrite length_imap. Qed.
Lemma jmp_pc_set_reg f i v env : jmp_pc (set_reg f i v env) = jmp_pc env.
Proof. by destruct env, f. Qed.
Lemma jmp_pc_spec_r2r src dest a env : jmp_pc (spec_r2r src dest a env) = jmp_pc env.
Proof. by destruct env, dest. Qed.
#[export] Hint Resolve wf_spec_r2r : cpu.

Section RetStack.
Context {M : Type} (B : backend M) (writable : Z -> Prop) (O : octa_mem B writable).

(** [env] and [mem] hold the stack [stk], newest entry first: [k] entries in
    ra63, ra62, ..., the rest of them in memory at the pointer in ra0. *)
Record holds (k : nat) (env : CPUDADAOState) (mem : M) (stk : list Z) : Prop := Holds {
  h_wf : wf_env env;
  h_vals : Forall (fun v => 0 < v < 2^64) stk;
  h_k : (k <= 63)%nat /\ (k <= length stk)%nat;
  h_regs : forall i, (i < k)%nat -> stk !! i = Some (reg RA (63 - Z.of_nat i) env);
  h_free : forall i, (k <= i < 63)%nat -> reg RA (63 - Z.of_nat i) env = 0;
  h_sp : 0 < reg RA 0 env /\ reg RA 0 env + 8 * Z.of_nat (length stk - k) <= 2^64;
  h_mem : forall i v, stk !! (k + i)%nat = Some v ->
    b_ld B MO_TEUQ (reg RA 0 env + 8 * Z.of_nat i) mem = Some v }.

(** The pointer can be moved down and the octa below it written. *)
Definition room (env : CPUDADAOState) : Prop :=
  8 < reg RA 0 env /\ writable (reg RA 0 env - 8).

(** A push that does not spill. *)
Lemma link_holds k env mem stk ret :
  holds k env mem stk -> (k < 63)%nat -> 0 < ret < 2^64 ->
  holds (S k) (set_reg RA 63 ret (shift_down env)) mem (ret :: stk).
Proof.
  intros [Hwf Hv [Hk1 Hk2] Hr Hf Hs Hm] Hk Hret.
  assert (Hd : wf_env (shift_down env)) by (unfold shift_down; eauto with cpu).
  assert (Hreg : forall j, 0 <= j < 63 -> reg RA j (set_reg RA 63 ret (shift_down env))
    = if 1 <=? j then reg RA (j + 1) env else reg RA j env).
  { intros j Hj. rewrite reg_set_reg_ne by (right; lia). rewrite shift_down_reg by (done || lia).
    rewrite (proj2 (Z.ltb_lt j 63)), andb_true_r by lia. done. }
  assert (H0 : reg RA 0 (set_reg RA 63 ret (shift_down env)) = reg RA 0 env)
    by (rewrite Hreg by lia; done).
  split.
  - eauto with cpu.
  - by constructor.
  - cbn. lia.
  - intros [|i] Hi; cbn [lookup list_lookup].
    + f_equal. symmetry. apply reg_set_reg_eq; [done|lia].
    + rewrite Hr by lia. rewrite Hreg by lia. rewrite (proj2 (Z.leb_le 1 _)) by lia.
      do 2 f_equal. lia.
  - intros i Hi. rewrite Hreg by lia. rewrite (proj2 (Z.leb_le 1 _)) by lia.
    rewrite <- (Hf (i - 1)%nat) by lia. f_equal. lia.
  - rewrite H0. cbn [length]. lia.
  - intros i v Hi. rewrite H0. by apply Hm.
Qed.

(** Spilling the oldest register makes room for a push. *)
Lemma spill_holds env mem mem' stk :
  holds 63 env mem stk -> room env -> u64_env env ->
  b_st B MO_TEUQ (reg RA 0 env - 8) (reg RA 1 env) mem = Some mem' ->
  exists stk', holds 62 (set_reg RA 1 0 (set_reg RA 0 (reg RA 0 env - 8) env)) mem' stk' /\ stk' = stk.
Proof.
  intros [Hwf Hv [Hk1 Hk2] Hr Hf Hs Hm] [Hroom Hw] Hu Hst.
  eexists. split; [|reflexivity].
  set (sp := reg RA 0 env - 8) in *.
  assert (Hreg : forall j, 2 <= j -> reg RA j (set_reg RA 1 0 (set_reg RA 0 sp env)) = reg RA j env).
  { intros j Hj. by rewrite !reg_set_reg_ne by (right; lia). }
  assert (H0 : reg RA 0 (set_reg RA 1 0 (set_reg RA 0 sp env)) = sp).
  { rewrite reg_set_reg_ne by (right; lia). by apply reg_set_reg_eq. }
  split.
  - eauto with cpu.
  - done.
  - lia.
  - intros i Hi. rewrite Hreg by lia. apply Hr. lia.
  - intros i Hi. replace (63 - Z.of_nat i) with 1 by lia.
    apply reg_set_reg_eq; [eauto with cpu|lia].
  - rewrite H0. unfold sp. lia.
  - intros i v Hi. rewrite H0. destruct i as [|i].
    + rewrite Z.mul_0_r, Z.add_0_r. replace (62 + 0)%nat with 62%nat in Hi by lia.
      rewrite Hr in Hi by lia. injection Hi as <-. change (63 - Z.of_nat 62) with 1.
      apply (om_same _ _ O sp _ mem); [done|apply Hu|done].
    + assert (Hlt : (S i < length stk - 62)%nat) by (apply lookup_lt_Some in Hi; lia).
      rewrite (om_other _ _ O sp _ (reg RA 1 env) mem mem') by (done || (unfold sp; lia)).
      unfold sp.
      replace (reg RA 0 env - 8 + 8 * Z.of_nat (S i)) with (reg RA 0 env + 8 * Z.of_nat i) by lia.
      apply Hm. rewrite <- Hi. by replace (63 + i)%nat with (62 + S i)%nat by lia.
Qed.

(** The spilled state and the emulator's state have the same push. *)
Lemma shift_down_spilled env v : wf_env env ->
  shift_down (set_reg RA 1 v env) = shift_down env.
Proof.
  intros Hwf. unfold shift_down, spec_r2r.
  assert (Hs : forall l', set_file RA l' (set_reg RA 1 v env) = set_file RA l' env)
    by (intros; by destruct env).
  assert (Hf : file RA (set_reg RA 1 v env) = <[1%nat := v]> (file RA env)) by (by destruct env).
  rewrite Hs, Hf. f_equal. apply list_eq. intros j. rewrite !list_lookup_imap.
  destruct (lookup_lt_is_Some_2 (file RA env) 1) as [w Hw]; [rewrite Hwf; lia|].
  destruct (decide (j = 1%nat)) as [->|Hj].
  - rewrite list_lookup_insert_eq, Hw by (rewrite Hwf; lia).
    cbn [fmap option_fmap option_map]. f_equal. by apply reg_set_reg_ne; right.
  - rewrite list_lookup_insert_ne by done. destruct (file RA env !! j) as [x|]; [|done].
    cbn [fmap option_fmap option_map hb hc immu6 shift_args]. f_equal.
    destruct (_ && _) eqn:Eb; [|done]. apply reg_set_reg_ne. right.
    apply andb_true_iff in Eb as [[Eb _]%andb_true_iff _]. lia.
Qed.

(** Push: a call at [pc] pushes the address after it. *)
Lemma push_holds k pc env mem stk :
  holds k env mem stk -> u64_env env -> 0 < w64 (pc + 4) -> (k = 63%nat -> room env) ->
  exists env' mem' k', spec_push B pc env mem = RFall env' mem' /\
    holds k' env' mem' (w64 (pc + 4) :: stk).
Proof.
  intros Hh Hu Hret Hroom. destruct Hh as [Hwf Hv [Hk1 Hk2] Hr Hf Hs Hm] eqn:E; clear E.
  unfold spec_push. pose proof (w64_range (pc + 4)).
  destruct (decide (k = 63%nat)) as [->|Hk].
  - assert (H1 : 0 < reg RA 1 env).
    { specialize (Hr 62%nat ltac:(lia)). change (63 - Z.of_nat 62) with 1 in Hr.
      rewrite Forall_forall in Hv. apply (Hv (reg RA 1 env)). by eapply list_elem_of_lookup_2. }
    destruct (Hroom eq_refl) as [Hsp Hw]. assert (Hsp' : 0 <= reg RA 0 env < 2^64) by apply Hu.
    rewrite (proj2 (Z.eqb_neq _ _)), (proj2 (Z.eqb_neq (reg RA 0 env) 0)) by lia.
    rewrite w64_id by lia.
    destruct (om_store _ _ O _ (reg RA 1 env) mem Hw) as [mem' Hst]. rewrite Hst.
    destruct (spill_holds env mem mem' stk) as (stk' & Hh' & ->); try done.
    do 2 eexists. exists 63%nat. split; [reflexivity|].
    rewrite <- (shift_down_spilled (set_reg RA 0 _ env) 0) by (eauto with cpu).
    apply link_holds; [done|lia|lia].
  - rewrite (proj2 (Z.eqb_eq _ 0)).
    + do 2 eexists. exists (S k). split; [reflexivity|]. apply link_holds; [done|lia..].
    + specialize (Hf 62%nat ltac:(lia)). done.
Qed.

(** Pop: a return jumps to the newest address. *)
Lemma pop_holds k env mem dest stk :
  holds k env mem (dest :: stk) -> u64_env env ->
  reg RA 0 env + 8 < 2^64 ->
  exists env' k', spec_pop B env mem = RFall env' mem /\ jmp_pc env' = dest /\
    holds k' env' mem stk.
Proof.
  intros [Hwf Hv [Hk1 Hk2] Hr Hf Hs Hm] Hu Htop. unfold spec_pop. inversion Hv as [|? ? Hd Hv']; subst.
  destruct k as [|k].
  - assert (H63 : reg RA 63 env = 0) by (by apply (Hf 0%nat); lia).
    rewrite H63. cbn [Z.eqb negb]. rewrite (proj2 (Z.eqb_neq (reg RA 0 env) 0)) by lia.
    assert (H0 := Hm 0%nat dest eq_refl). rewrite Z.mul_0_r, Z.add_0_r in H0. rewrite H0.
    do 2 eexists. split; [reflexivity|]. rewrite jmp_pc_set_reg. split; [by destruct env|].
    rewrite w64_id by lia. set (env' := set_reg _ _ _ _).
    assert (Hreg : forall j, 0 < j -> reg RA j env' = reg RA j env).
    { intros j Hj. unfold env'. rewrite reg_set_reg_ne by (right; lia). by destruct env. }
    assert (Hsp : reg RA 0 env' = reg RA 0 env + 8).
    { unfold env'. apply reg_set_reg_eq; [eauto with cpu|lia]. }
    assert (Hw' : wf_env env') by (unfold env'; eauto with cpu).
    instantiate (1 := 0%nat). split; try done; try lia.
    + intros i Hi. rewrite Hreg by lia. apply Hf. lia.
    + rewrite Hsp. cbn [length] in *. lia.
    + intros i v Hi. rewrite Hsp. rewrite <- (Hm (S i) v) by done. f_equal. lia.
  - assert (H63 : reg RA 63 env = dest) by (specialize (Hr 0%nat ltac:(lia)); by injection Hr).
    rewrite H63, (proj2 (Z.eqb_neq dest 0)) by lia. cbn [negb].
    assert (Hwj : wf_env (set_jmp_pc dest env)) by (eauto with cpu).
    do 2 eexists. split; [reflexivity|]. rewrite jmp_pc_set_reg. unfold shift_up at 1.
    rewrite jmp_pc_spec_r2r. split; [by destruct env|].
    set (env' := set_reg _ _ _ _).
    assert (Hw' : wf_env env') by (unfold env', shift_up; eauto with cpu).
    assert (Hj : forall j, reg RA j (set_jmp_pc dest env) = reg RA j env) by (by destruct env).
    assert (Hreg : forall j, 2 <= j < 64 -> reg RA j env' = reg RA (j - 1) env).
    { intros j Hj'. unfold env'. rewrite reg_set_reg_ne by (right; lia).
      rewrite shift_up_reg by (done || lia). rewrite (proj2 (Z.leb_le 2 j)) by lia. apply Hj. }
    assert (H1 : reg RA 1 env' = 0).
    { unfold env'. apply reg_set_reg_eq; [unfold shift_up; eauto with cpu|lia]. }
    assert (H0 : reg RA 0 env' = reg RA 0 env).
    { unfold env'. rewrite reg_set_reg_ne by (right; lia). rewrite shift_up_reg by (done || lia). apply Hj. }
    instantiate (1 := k). split; try done; try (cbn [length] in *; lia).
    + intros i Hi. rewrite Hreg by lia.
      replace (63 - Z.of_nat i - 1) with (63 - Z.of_nat (S i)) by lia. by apply (Hr (S i)); lia.
    + intros i Hi. destruct (decide (i = 62%nat)) as [->|Hne]; [done|].
      rewrite Hreg by lia. replace (63 - Z.of_nat i - 1) with (63 - Z.of_nat (S i)) by lia. apply Hf. lia.
    + intros i v Hi. rewrite H0. by apply Hm.
Qed.
End RetStack.

(** ** The stack and the other registers *)
Section Stack.
Context {M : Type} (B : backend M).

(** A state with the same return-address registers and spilled entries. *)
Lemma holds_transfer k env env' mem mem' stk :
  wf_env env' -> (forall j, 0 <= j < 64 -> reg RA j env' = reg RA j env) ->
  (forall i v, stk !! (k + i)%nat = Some v ->
     b_ld B MO_TEUQ (reg RA 0 env + 8 * Z.of_nat i) mem' = b_ld B MO_TEUQ (reg RA 0 env + 8 * Z.of_nat i) mem) ->
  holds B k env mem stk -> holds B k env' mem' stk.
Proof.
  intros Hwf Hra Hld [_ Hv Hk Hr Hf Hs Hm].
  split; try done; intros; rewrite ?Hra in * by lia; try (by rewrite Hr || by rewrite Hf); [lia|].
  rewrite (Hld _ v) by done. auto.
Qed.
Lemma holds_same k env env' mem stk : wf_env env' -> file RA env' = file RA env ->
  holds B k env mem stk -> holds B k env' mem stk.
Proof. intros Hwf Hra. apply holds_transfer; [done| |done]. intros j _. unfold reg. by rewrite Hra. Qed.

Lemma push_keeps pc env mem env' mem' f : f <> RA ->
  spec_push B pc env mem = RFall env' mem' -> file f env' = file f env.
Proof.
  intros Hf. unfold spec_push, shift_down, spec_r2r, set_reg.
  destruct (reg RA 1 env =? 0); [intros [= <- _]; by rewrite !file_set_file_ne by done|].
  destruct (reg RA 0 env =? 0); [done|]. destruct (b_st _ _ _ _ _); [|done].
  intros [= <- _]. by rewrite !file_set_file_ne by done.
Qed.
Lemma file_set_jmp_pc f v env : file f (set_jmp_pc v env) = file f env.
Proof. by destruct env, f. Qed.
Lemma pop_keeps env mem env' mem' f : f <> RA ->
  spec_pop B env mem = RFall env' mem' -> file f env' = file f env.
Proof.
  intros Hf. unfold spec_pop, shift_up, spec_r2r, set_reg.
  destruct (negb _); [intros [= <- _]; by rewrite !file_set_file_ne, file_set_jmp_pc by done|].
  destruct (reg RA 0 env =? 0); [done|]. destruct (b_ld _ _ _ _); [|done].
  intros [= <- _]. by rewrite !file_set_file_ne, file_set_jmp_pc by done.
Qed.
End Stack.

(** ** The reference memory has the octa laws *)
Lemma load_insert_ne n addr k v m :
  (forall i, 0 <= i < Z.of_nat n -> w64 (addr + i) <> k) ->
  load_bytes n addr (<[k := v]> m) = load_bytes n addr m.
Proof.
  revert addr. induction n as [|n IH]; intros addr H; [done|]. cbn [load_bytes].
  rewrite lookup_insert_ne.
  - rewrite IH; [done|]. intros i Hi. rewrite <- Z.add_assoc. apply H. lia.
  - intros E. apply (H 0); [lia|]. by rewrite Z.add_0_r.
Qed.
Lemma load_store_same n addr v m :
  0 <= addr -> addr + Z.of_nat n <= 2^64 ->
  load_bytes n addr (store_bytes n addr v m) = v mod 256 ^ Z.of_nat n.
Proof.
  revert addr v. induction n as [|n IH]; intros addr v H1 H2.
  { cbn. by rewrite Z.mod_1_r. }
  cbn [load_bytes store_bytes]. rewrite lookup_insert_eq. cbn [default id].
  rewrite load_insert_ne, IH by lia || (intros i Hi; rewrite !w64_id by lia; lia).
  rewrite Nat2Z.inj_succ, Z.pow_succ_r by lia.
  rewrite Z.rem_mul_r, Z.mod_mod by (try apply Z.pow_pos_nonneg; lia). lia.
Qed.
Lemma load_store_other n k addr addr' v m :
  0 <= addr -> addr + Z.of_nat n <= addr' -> addr' + Z.of_nat k <= 2^64 ->
  load_bytes k addr' (store_bytes n addr v m) = load_bytes k addr' m.
Proof.
  revert addr v. induction n as [|n IH]; intros addr v H1 H2 H3; [done|]. cbn [store_bytes].
  rewrite load_insert_ne; [apply IH; lia|]. intros i Hi. rewrite !w64_id by lia. lia.
Qed.
Definition ref_writable (addr : Z) : Prop := 0 <= addr /\ addr + 8 <= 2^64.
Lemma ref_octa : octa_mem ref_backend ref_writable.
Proof.
  split.
  - intros. by eexists.
  - intros addr v m m' [H1 H2] Hv. unfold ref_backend. cbn [b_st b_ld]. intros E. apply (inj Some) in E. subst m'.
    change (mo_bytes MO_TEUQ) with 8%nat. unfold mo_extend. cbn [mo_signed].
    f_equal. rewrite load_store_same by lia. by apply Z.mod_small.
  - intros addr addr' v m m' H1 H2 H3 H4. unfold ref_backend. cbn [b_st b_ld]. intros E. apply (inj Some) in E. subst m'.
    change (mo_bytes MO_TEUQ) with 8%nat. unfold mo_extend. cbn [mo_signed].
    f_equal. apply load_store_other; lia.
Qed.
Lemma load_store_apart n k addr addr' v m :
  0 <= addr -> 0 <= addr' -> addr + Z.of_nat n <= 2^64 -> addr' + Z.of_nat k <= 2^64 ->
  addr + Z.of_nat n <= addr' \/ addr' + Z.of_nat k <= addr ->
  load_bytes k addr' (store_bytes n addr v m) = load_bytes k addr' m.
Proof.
  revert addr v. induction n as [|n IH]; intros addr v H1 H2 H3 H4 H5; [done|]. cbn [store_bytes].
  rewrite load_insert_ne; [apply IH; lia|]. intros i Hi. rewrite !w64_id by lia. lia.
Qed.
Lemma ref_apart : octa_apart ref_backend.
Proof.
  intros addr addr' v m m' H1 H2 H3 H4 H5. unfold ref_backend. cbn [b_st b_ld]. intros E. apply (inj Some) in E. subst m'.
  change (mo_bytes MO_TEUQ) with 8%nat. unfold mo_extend. cbn [mo_signed]. f_equal. apply load_store_apart; lia.
Qed.
