(* ===== verification/Frame.v ===== *)
(** The generators of the translator only append operations.

    [frame g]: what [g] emits does not depend on what was emitted before.
    Every entry of [trans_table] has this property, which lets the theorems
    on a single instruction, stated from an empty operation list, be used
    inside a whole block. *)
From S2P Require Import Prelude Cpu Tcg Translate.

Definition frame {A} (g : gen A) : Prop :=
  forall c t l ops, g (GSt c t l ops)
    = match g (GSt c t l []) with
      | GOk a s => GOk a (GSt (g_ctx s) (g_tmp s) (g_lbl s) (ops ++ g_ops s))
      | GOob => GOob
      | GFuel => GFuel
      end.

Create HintDb frame.
#[export] Hint Constants Opaque : frame.

Lemma frame_ret {A} (a : A) : frame (mret a).
Proof. intros c t l ops. cbn. by rewrite app_nil_r. Qed.
Lemma frame_bind {A B} (m : gen A) (k : A -> gen B) :
  frame m -> (forall a, frame (k a)) -> frame (m ≫= k).
Proof.
  intros Hm Hk c t l ops. unfold mbind, gen_bind. rewrite Hm.
  destruct (m (GSt c t l [])) as [a [c' t' l' o']| |]; [|done..]. cbn [g_ctx g_tmp g_lbl g_ops].
  rewrite (Hk a c' t' l' (ops ++ o')), (Hk a c' t' l' o').
  destruct (k a (GSt c' t' l' [])); [|done..]. cbn. by rewrite app_assoc.
Qed.
Lemma frame_emit o : frame (emit o).
Proof. by intros c t l ops. Qed.
Lemma frame_get_ctx : frame get_ctx.
Proof. intros c t l ops. cbn. by rewrite app_nil_r. Qed.
Lemma frame_put_ctx c : frame (put_ctx c).
Proof. intros c' t l ops. cbn. by rewrite app_nil_r. Qed.
Lemma frame_tmp : frame tcg_temp_new_i64.
Proof. intros c t l ops. cbn. by rewrite app_nil_r. Qed.
Lemma frame_label : frame gen_new_label.
Proof. intros c t l ops. cbn. by rewrite app_nil_r. Qed.
Lemma frame_oob {A} : frame (@goob A).
Proof. by intros c t l ops. Qed.
Lemma frame_fuel {A} : frame (@gfuel A).
Proof. by intros c t l ops. Qed.
Lemma frame_cpu f i : frame (cpu f i).
Proof. unfold cpu. destruct (_ && _); [apply frame_ret | apply frame_oob]. Qed.
Lemma frame_when b g : frame g -> frame (when b g).
Proof. destruct b; [done|]. intros _. apply frame_ret. Qed.
#[export] Hint Resolve frame_ret frame_emit frame_get_ctx frame_put_ctx frame_tmp
  frame_label frame_oob frame_fuel frame_cpu frame_when : frame.

(** Splits binds and conditionals down to the primitives. *)
Ltac frame_step :=
  lazymatch goal with
  | |- frame (_ ≫= _) => apply frame_bind; [|intros ?]
  | |- frame (when _ _) => apply frame_when
  | |- frame (match _ with _ => _ end) => case_match
  | |- frame (let _ := _ in _) => cbv zeta
  | |- forall _, _ => intros ?
  | |- frame _ =>
      first [ solve [auto 2 with frame]
            | progress unfold tcg_constant_i64, tcg_gen_mov_i64, tcg_gen_movi_i64, tcg_gen_alu,
                tcg_gen_alui, tcg_gen_qemu_ld_i64, tcg_gen_qemu_st_i64, set_is_jmp,
                set_jmp_pc_imm, set_pc_next, gen_exception ]
  end.
Ltac frame_tac := repeat frame_step.

Lemma frame_illegal : frame gen_exception_illegal_instruction.
Proof. unfold gen_exception_illegal_instruction. frame_tac. Qed.
#[export] Hint Resolve frame_illegal : frame.

Lemma frame_foldr {A} (f : A -> gen () -> gen ()) (xs : list A) :
  (forall x k, frame k -> frame (f x k)) -> frame (foldr f (mret ()) xs).
Proof. intros H. induction xs; cbn; auto with frame. Qed.
Lemma frame_check_range rs n : frame (check_range rs n).
Proof.
  unfold check_range. frame_tac. apply frame_foldr. intros r k Hk. frame_tac.
Qed.
Lemma frame_ra_moves ixs : frame (ra_moves ixs).
Proof. unfold ra_moves. apply frame_foldr. intros [d s] k Hk. frame_tac. Qed.
Lemma frame_ldm_loop fuel : forall f m x y i n, frame (ldm_loop fuel f m x y i n).
Proof. induction fuel; intros; cbn [ldm_loop]; frame_tac. Qed.
Lemma frame_stm_loop fuel : forall f m x i n, frame (stm_loop fuel f m x i n).
Proof. induction fuel; intros; cbn [stm_loop]; frame_tac. Qed.
Lemma frame_r2r_loop fuel : forall move b c n,
  (forall b c, frame (move b c)) -> frame (r2r_loop fuel move b c n).
Proof. induction fuel; intros; cbn [r2r_loop]; frame_tac. Qed.
#[export] Hint Resolve frame_check_range frame_ra_moves frame_ldm_loop frame_stm_loop : frame.

Lemma frame_r2r_body move a : (forall b c, frame (move b c)) -> frame (r2r_body move a).
Proof. intros H. unfold r2r_body. frame_tac; by apply frame_r2r_loop. Qed.
Lemma frame_r2r_move f g b c : frame (r2r_move f g b c).
Proof. unfold r2r_move. frame_tac. Qed.
Lemma frame_fcvt_move f g fn b c : frame (fcvt_move f g fn b c).
Proof. unfold fcvt_move. frame_tac. Qed.
#[export] Hint Resolve frame_r2r_body frame_r2r_move frame_fcvt_move : frame.

Definition frames (d : list (string * (args -> gen bool))) : Prop :=
  Forall (fun e => forall a, frame (e.2 a)) d.

Ltac frames_tac :=
  unfold frames; repeat apply Forall_cons_2; [..|apply Forall_nil_2]; cbn [snd]; intros a.

Lemma frames_ldst : frames trans_ldst.
Proof. unfold trans_ldst. frames_tac. all: unfold INSN_LD_RRII, INSN_ST_RRII; frame_tac. Qed.
Lemma frames_ldstm : frames trans_ldstm.
Proof. unfold trans_ldstm. frames_tac. all: unfold INSN_LDM_RRRI, INSN_STM_RRRI; frame_tac. Qed.
Lemma frames_assign : frames trans_assign.
Proof.
  unfold trans_assign. frames_tac.
  all: unfold INSN_R2R_ORRI, INSN_CSET1_RRRR, INSN_CSET2_RRRR, trans_SETOW, INSN_SETZW_RWII,
    INSN_ORW_RWII, INSN_ANDNW_RWII, trans_SETW; frame_tac.
Qed.
Lemma frames_arith : frames trans_arith.
Proof.
  unfold trans_arith. frames_tac.
  all: unfold INSN_ALG1_RRRR, INSN_ALG1_ORRR, INSN_ALG1_RRII, INSN_CMP_RRII, INSN_CMP_ORRR,
    INSN_MUL_RRRR, INSN_DIV_RRRR, trans_ADRP; frame_tac.
Qed.
Lemma frames_logic : frames trans_logic.
Proof.
  unfold trans_logic. frames_tac.
  all: unfold INSN_LOGIC_ORRR, trans_XNOR, trans_ANDI, INSN_EXT_ORRR, INSN_LOGIC_ORRI,
    INSN_EXT_ORRI; frame_tac.
Qed.
Lemma frames_control : frames trans_control.
Proof.
  unfold trans_control. frames_tac.
  all: unfold trans_CALLi, trans_CALLr, trans_SWYM, trans_UNIMP, INSN_BR_RRII, INSN_BR_RIII, trans_JUMPi, trans_JUMPr,
    trans_RET, push_return_address, pop_return_address; frame_tac.
Qed.
Lemma frames_fcvt : frames trans_fcvt.
Proof. unfold trans_fcvt. frames_tac. all: unfold INSN_FCVT_ORRI; frame_tac. Qed.
Lemma frames_falg : frames trans_falg.
Proof.
  unfold trans_falg. frames_tac.
  all: unfold INSN_FALG_ORRR, INSN_FALG_RRRR, INSN_FALG_ORRI, INSN_FCMP_ORRR, INSN_FCSET_RRRR,
    INSN_FCSET_ORRR; frame_tac.
Qed.
Lemma frame_lro b f a : frame (LRO b f a).
Proof. unfold LRO. frame_tac; apply frame_foldr; intros; frame_tac. Qed.
Lemma frame_sco b a : frame (SCO b a).
Proof. unfold SCO. frame_tac. Qed.
Lemma frames_system : frames trans_system.
Proof.
  unfold trans_system. frames_tac.
  all: first [apply frame_lro | apply frame_sco | idtac].
  all: unfold trans_TRAP, trans_ESCAPE, trans_CPCO, trans_CPRD, trans_CPWR, trans_CPLD, trans_CPST,
    trans_FENCE; frame_tac.
Qed.

Lemma frames_table : frames trans_table.
Proof.
  unfold trans_table, frames. repeat (apply Forall_app_2).
  - apply frames_ldst.
  - apply frames_ldstm.
  - apply frames_assign.
  - apply frames_arith.
  - apply frames_logic.
  - apply frames_control.
  - apply frames_fcvt.
  - apply frames_falg.
  - apply frames_system.
Qed.

Lemma frame_assoc n g a : assoc n trans_table = Some g -> frame (g a).
Proof.
  intros H. apply assoc_elem in H. pose proof (proj1 (Forall_forall _ _) frames_table _ H a). done.
Qed.
