(* ===== verification/Decode.v ===== *)
(** The decoder decodetree generates from insns.decode.

    The generator is part of QEMU, so the decoder is a parameter; what its
    documentation says of it is [decodetree_laws].  [decode_ref] follows that
    documentation and satisfies the laws.  The tables generated for the
    emulator, the assembler and the disassembler are shown to agree. *)
From S2P Require Import Prelude Opcodes Cpu Tcg Translate Frame IsaArith.
Local Open Scope string_scope.
Local Open Scope Z_scope.

(** ** Patterns on words *)
Definition bits_val (s : string) : Z := default 0 (Py.int2 s).
Definition field_len (f : dfield) : nat :=
  match f with DBits c => String.length c | DField _ _ n => n end.
Definition fields_len (fs : list dfield) : nat := list_sum (map field_len fs).
Definition pattern_len (p : pattern) : nat :=
  (String.length (p_opcode p) + fields_len (p_fields p))%nat.

(** The fixed bits of a pattern and their mask, fields from the top. *)
Fixpoint fields_mask (fs : list dfield) : Z :=
  match fs with
  | [] => 0
  | f :: fs =>
      (match f with DBits c => Z.ones (Z.of_nat (String.length c)) | _ => 0 end)
      * 2 ^ Z.of_nat (fields_len fs) + fields_mask fs
  end.
Fixpoint fields_match (fs : list dfield) : Z :=
  match fs with
  | [] => 0
  | f :: fs =>
      (match f with DBits c => bits_val c | _ => 0 end) * 2 ^ Z.of_nat (fields_len fs)
      + fields_match fs
  end.
Definition p_mask (p : pattern) : Z :=
  Z.ones (Z.of_nat (String.length (p_opcode p))) * 2 ^ Z.of_nat (fields_len (p_fields p))
  + fields_mask (p_fields p).
Definition p_match (p : pattern) : Z :=
  bits_val (p_opcode p) * 2 ^ Z.of_nat (fields_len (p_fields p)) + fields_match (p_fields p).
Definition matches (p : pattern) (insn : Z) : bool := Z.land insn (p_mask p) =? p_match p.

(** A field of a word: [n] bits with [k] bits below. *)
Definition field_val (sgn : bool) (n k : nat) (insn : Z) : Z :=
  let v := insn / 2 ^ Z.of_nat k in
  if sgn then sext (Z.of_nat n) v else v mod 2 ^ Z.of_nat n.

Definition set_arg (n : string) (v : Z) (a : args) : args :=
  let 'Args a1 a2 a3 a4 w u6 u12 u16 u18 s12 s18 s24 := a in
  if (n =? "ha")%string then Args v a2 a3 a4 w u6 u12 u16 u18 s12 s18 s24
  else if (n =? "hb")%string then Args a1 v a3 a4 w u6 u12 u16 u18 s12 s18 s24
  else if (n =? "hc")%string then Args a1 a2 v a4 w u6 u12 u16 u18 s12 s18 s24
  else if (n =? "hd")%string then Args a1 a2 a3 v w u6 u12 u16 u18 s12 s18 s24
  else if (n =? "ww")%string then Args a1 a2 a3 a4 v u6 u12 u16 u18 s12 s18 s24
  else if (n =? "immu6")%string then Args a1 a2 a3 a4 w v u12 u16 u18 s12 s18 s24
  else if (n =? "immu12")%string then Args a1 a2 a3 a4 w u6 v u16 u18 s12 s18 s24
  else if (n =? "immu16")%string then Args a1 a2 a3 a4 w u6 u12 v u18 s12 s18 s24
  else if (n =? "immu18")%string then Args a1 a2 a3 a4 w u6 u12 u16 v s12 s18 s24
  else if (n =? "imms12")%string then Args a1 a2 a3 a4 w u6 u12 u16 u18 v s18 s24
  else if (n =? "imms18")%string then Args a1 a2 a3 a4 w u6 u12 u16 u18 s12 v s24
  else if (n =? "imms24")%string then Args a1 a2 a3 a4 w u6 u12 u16 u18 s12 s18 v
  else a.

Definition no_args : args := Args 0 0 0 0 0 0 0 0 0 0 0 0.
Fixpoint fields_args (fs : list dfield) (insn : Z) (a : args) : args :=
  match fs with
  | [] => a
  | DBits _ :: fs => fields_args fs insn a
  | DField n sgn len :: fs =>
      fields_args fs insn (set_arg n (field_val sgn len (fields_len fs) insn) a)
  end.
Definition pattern_args (p : pattern) (insn : Z) : args := fields_args (p_fields p) insn no_args.

(** ** The decoder *)
Record decodetree_laws (disas_dadao : Z -> gen bool) : Prop := DecodetreeLaws {
  (** A word of a pattern is handed, with its fields, to the pattern's function. *)
  dt_match : forall insn p g, p ∈ insns_decode -> matches p insn = true ->
    assoc (p_name p) trans_table = Some g -> disas_dadao insn = g (pattern_args p insn);
  (** A word of no pattern is not decoded. *)
  dt_none : forall insn, (forall p, p ∈ insns_decode -> matches p insn = false) ->
    disas_dadao insn = mret false }.

Definition decode (insn : Z) : option pattern :=
  List.find (fun p => matches p insn) insns_decode.
Definition decode_ref (insn : Z) : gen bool :=
  match decode insn with
  | Some p => match assoc (p_name p) trans_table with
              | Some g => g (pattern_args p insn)
              | None => mret false
              end
  | None => mret false
  end.

(** ** Words of different patterns differ *)
Definition disjoint (p q : pattern) : bool :=
  negb (Z.land (p_match p) (p_mask q) =? Z.land (p_match q) (p_mask p)).
Lemma disjoint_sound p q insn :
  disjoint p q = true -> matches p insn = true -> matches q insn = false.
Proof.
  unfold disjoint, matches. intros Hd Hp. apply Z.eqb_eq in Hp. apply Z.eqb_neq. intros Hq.
  rewrite negb_true_iff, Z.eqb_neq in Hd. apply Hd. rewrite <- Hp, <- Hq.
  rewrite <- !Z.land_assoc, (Z.land_comm (p_mask p)). done.
Qed.
Fixpoint all_disjoint (ps : list pattern) : bool :=
  match ps with
  | [] => true
  | p :: ps => forallb (disjoint p) ps && all_disjoint ps
  end.
Lemma insns_disjoint : all_disjoint insns_decode = true.
Proof. vm_compute. done. Qed.

Lemma all_disjoint_sound ps : all_disjoint ps = true ->
  forall i j p q insn, ps !! i = Some p -> ps !! j = Some q ->
  matches p insn = true -> matches q insn = true -> i = j.
Proof.
  induction ps as [|r ps IH]; [done|]. cbn [all_disjoint]. intros [Hr Hps]%andb_true_iff.
  assert (Hd : forall j q insn, ps !! j = Some q -> matches r insn = true -> matches q insn = true -> False).
  { intros j q insn Hj H1 H2. rewrite forallb_forall in Hr.
    specialize (Hr q). rewrite <- list_elem_of_In in Hr. apply list_elem_of_lookup_2 in Hj.
    rewrite (disjoint_sound r q insn) in H2; auto. done. }
  intros [|i] [|j] p q insn Hi Hj Hp Hq; cbn in *; try done.
  - injection Hi as ->. by destruct (Hd j q insn).
  - injection Hj as ->. by destruct (Hd i p insn).
  - f_equal. by apply (IH Hps i j p q insn).
Qed.

Lemma disjoint_match p q insn :
  p ∈ insns_decode -> q ∈ insns_decode -> matches p insn = true -> matches q insn = true -> p = q.
Proof.
  intros (i & Hi)%list_elem_of_lookup_1 (j & Hj)%list_elem_of_lookup_1 Hp Hq.
  pose proof (all_disjoint_sound _ insns_disjoint i j p q insn Hi Hj Hp Hq). subst j. congruence.
Qed.

Lemma decode_some insn p :
  decode insn = Some p <-> p ∈ insns_decode /\ matches p insn = true.
Proof.
  unfold decode. split.
  - intros H. apply find_some in H. by rewrite list_elem_of_In.
  - intros [Hin Hm]. destruct (List.find _ _) as [q|] eqn:E.
    + apply find_some in E as [Hq Hmq]. f_equal. apply (disjoint_match q p insn); try done.
      by apply list_elem_of_In.
    + pose proof (find_none _ _ E p (proj1 (list_elem_of_In _ _) Hin)) as Hf. cbn in Hf. congruence.
Qed.
Lemma decode_none insn :
  decode insn = None -> forall p, p ∈ insns_decode -> matches p insn = false.
Proof.
  intros H p Hp. destruct (matches p insn) eqn:E; [|done].
  assert (decode insn = Some p) by (by apply decode_some). congruence.
Qed.

(** A pattern is known by its name. *)
Lemma pattern_by_name p q : p ∈ insns_decode -> q ∈ insns_decode -> p_name p = p_name q -> p = q.
Proof.
  intros [i Hi]%list_elem_of_lookup_1 [j Hj]%list_elem_of_lookup_1 Hn.
  assert (Hd : NoDup (map p_name insns_decode)) by (apply (bool_decide_unpack _); vm_compute; done).
  assert (i = j) as ->; [|congruence].
  apply (NoDup_lookup _ i j (p_name p) Hd); rewrite list_lookup_fmap; [by rewrite Hi|rewrite Hj; cbn; congruence].
Qed.

(** Every pattern has its function: the emulator links. *)
Lemma linked : Forall (fun p => is_Some (assoc (p_name p) trans_table)) insns_decode.
Proof. apply (bool_decide_unpack _). vm_compute. done. Qed.
Lemma linked_pattern p : p ∈ insns_decode -> exists g, assoc (p_name p) trans_table = Some g.
Proof. intros H. exact (proj1 (Forall_forall _ _) linked p H). Qed.

Lemma decode_ref_laws : decodetree_laws decode_ref.
Proof.
  split.
  - intros insn p g Hin Hm Hg. unfold decode_ref.
    rewrite (proj2 (decode_some insn p)) by done. by rewrite Hg.
  - intros insn Hn. unfold decode_ref. destruct (decode insn) as [p|] eqn:E; [|done].
    apply decode_some in E as [Hin Hm]. rewrite Hn in Hm; done.
Qed.

(** ** Fields of decoded words are in range *)
Definition args_ok (a : args) : Prop := fields_ok a /\ imms_ok a.
Definition field_known (f : dfield) : Prop :=
  match f with
  | DBits _ => True
  | DField n sgn len =>
      (n, sgn, len) ∈ [("ha", false, 6%nat); ("hb", false, 6%nat); ("hc", false, 6%nat);
        ("hd", false, 6%nat); ("ww", false, 2%nat); ("immu6", false, 6%nat);
        ("immu12", false, 12%nat); ("immu16", false, 16%nat); ("immu18", false, 18%nat);
        ("imms12", true, 12%nat); ("imms18", true, 18%nat); ("imms24", true, 24%nat)]
  end.
#[export] Instance field_known_dec f : Decision (field_known f).
Proof. destruct f; unfold field_known; apply _. Defined.
Lemma fields_known : Forall (fun p => Forall field_known (p_fields p)) insns_decode.
Proof. apply (bool_decide_unpack _). vm_compute. done. Qed.
Lemma pattern_32 : Forall (fun p => pattern_len p = 32%nat) insns_decode.
Proof. apply (bool_decide_unpack _). vm_compute. done. Qed.

Lemma field_val_range (sgn : bool) n k insn : (0 < n)%nat ->
  if sgn then - 2 ^ (Z.of_nat n - 1) <= field_val sgn n k insn < 2 ^ (Z.of_nat n - 1)
  else 0 <= field_val sgn n k insn < 2 ^ Z.of_nat n.
Proof.
  intros Hn. unfold field_val. destruct sgn; [apply sext_range; lia|].
  apply Z.mod_pos_bound. lia.
Qed.

Lemma set_arg_ok n sgn len k insn a :
  field_known (DField n sgn len) -> args_ok a -> args_ok (set_arg n (field_val sgn len k insn) a).
Proof.
  intros Hk Ha. pose proof (field_val_range sgn len k insn) as Hv.
  destruct a. unfold args_ok, fields_ok, imms_ok in *. cbn -[Z.pow] in *.
  repeat (apply elem_of_cons in Hk as [Hk|Hk];
    [injection Hk as -> -> ->; cbn -[Z.pow] in *; specialize (Hv ltac:(lia)); cbn in Hv; lia|]).
  by apply elem_of_nil in Hk.
Qed.
Lemma fields_args_ok fs insn a : Forall field_known fs -> args_ok a -> args_ok (fields_args fs insn a).
Proof.
  intros H. revert a. induction H as [|[c|n sgn len] fs Hf H IH]; intros a Ha; cbn [fields_args]; auto.
  apply IH. by apply set_arg_ok.
Qed.
Lemma pattern_args_ok p insn : p ∈ insns_decode -> args_ok (pattern_args p insn).
Proof.
  intros H. apply fields_args_ok.
  - exact (proj1 (Forall_forall _ _) fields_known p H).
  - unfold args_ok, fields_ok, imms_ok, no_args. cbn. lia.
Qed.
