(* ===== verification/Step.v ===== *)
(** One instruction, from the fetched word to the next program counter:
    translate_one composes the hooks of the translator, and [step] runs the
    block.  The theorem [step_decoded] reduces a step to what the
    instruction's own generator does. *)
From S2P Require Import Prelude Opcodes Cpu Tcg Translate Run IsaArith Frame Decode.

(** What the prologue of every instruction leaves. *)
Definition fcsr_normal (v : Z) : Z :=
  Z.lor (Z.land v (Z.lor DDAEE_FCSR_MASK_RDMODE DDAEE_FCSR_MASK_FFLAGS)) DDAEE_FCSR_DEFAULT.
Definition prologue (env : CPUDADAOState) : CPUDADAOState :=
  let env := set_reg RD 0 0 env in set_reg RF 0 (fcsr_normal (reg RF 0 env)) env.

(** The context an instruction at [pc] is translated in. *)
Definition ctx_at (pc : Z) : DisasContext := dadao_tr_init_disas_context pc.

(** Where the block leaves to, by the context the instruction left. *)
Definition finish {M} (c : DisasContext) (r : result M) : result M :=
  match r with
  | RFall env mem =>
      match is_jmp c with
      | DISAS_NEXT | DISAS_TOO_MANY => RExit (set_PC (w64 (pc_next c + 4)) env) mem
      | DISAS_JUMP =>
          RExit (set_PC (if jmp_pc_imm c =? w64 (-1) then jmp_pc env else w64 (jmp_pc_imm c)) env) mem
      | DISAS_NORETURN => RFall env mem
      end
  | r => r
  end.

Section Step.
Context {M : Type} (B : backend M) (L : tcg_laws B).
Variable helper : string -> CPUDADAOState -> list Z -> Z * CPUDADAOState.
Variable disas : Z -> gen bool.
Variable goto_tb : Z -> bool.

Definition step (pc insn : Z) (env : CPUDADAOState) (mem : M) : option (result M) :=
  match translate_one disas goto_tb pc insn with
  | GOk _ s => Some (observe (exec B helper (g_ops s) (Mach env ∅ mem)))
  | _ => None
  end.

(** The operations before the instruction's own. *)
Definition start_ops (pc : Z) : list op :=
  [O_insn_start pc; O_mov (Greg RD 0) (Const 0);
   O_alu A_and (Greg RF 0) (Greg RF 0) (Const (Z.lor DDAEE_FCSR_MASK_RDMODE DDAEE_FCSR_MASK_FFLAGS));
   O_alu A_or (Greg RF 0) (Greg RF 0) (Const DDAEE_FCSR_DEFAULT)].

Lemma exec_start pc tl env t mem :
  wf_env env ->
  exec B helper (start_ops pc ++ tl) (Mach env t mem) = exec B helper tl (Mach (prologue env) t mem).
Proof.
  intros Hwf. unfold start_ops. cbn [app]. do 4 erewrite exec_go by reflexivity.
  f_equal. cbn [set get m_env m_tmps m_mem]. unfold prologue, fcsr_normal.
  rewrite (law_or _ L), (law_and _ L). f_equal.
  rewrite reg_set_reg_eq by (eauto with cpu || lia). rewrite set_reg_set_reg. done.
Qed.

(** What follows the instruction: the program counter and tb_stop. *)
Definition leave (ok : bool) : gen () :=
  (if negb ok then gen_exception_illegal_instruction
   else
     c ← get_ctx;
     set_pc_next (w64 (pc_next c + 4));;
     c ← get_ctx;
     when (bool_decide (is_jmp c = DISAS_NEXT))
       (pc ← cpu RB 0; tcg_gen_movi_i64 pc (pc_next c)));;
  (c ← get_ctx;
   when (bool_decide (is_jmp c = DISAS_NEXT)) (set_is_jmp DISAS_TOO_MANY));;
  dadao_tr_tb_stop goto_tb.

Ltac leave_case :=
  do 2 eexists; split; [rewrite <- ?app_assoc; cbn [app]; reflexivity|];
  intros env tm mem; repeat erewrite exec_go by reflexivity;
  first [erewrite exec_stop by reflexivity | rewrite exec_nil];
  cbn [observe m_env m_mem set get]; unfold set_PC, finish;
  cbn [is_jmp pc_next jmp_pc_imm]; rewrite ?set_reg_set_reg, ?w64_w64; try reflexivity.

Lemma leave_gen ok c t l pre :
  is_jmp c <> DISAS_TOO_MANY ->
  exists c' tail, leave ok (GSt c t l pre) = GOk () (GSt c' t l (pre ++ tail)) /\
    forall env tm mem, observe (exec B helper tail (Mach env tm mem))
      = if ok then finish c (RFall env mem)
        else RRaise DADAO_EXCP_ILLI (set_PC (w64 (pc_next c)) env) mem.
Proof.
  intros Hj. destruct c as [p j idx d]. cbn [is_jmp] in Hj. unfold leave, dadao_tr_tb_stop.
  unfold gen_exception_illegal_instruction, set_is_jmp, set_pc_next, tcg_gen_movi_i64,
    gen_exception, when, tcg_gen_mov_i64.
  destruct ok; cbn [negb].
  - destruct j; try done; repeat gen_step.
    + change (bool_decide (DISAS_NEXT = DISAS_NEXT)) with true. cbv iota. repeat gen_step.
      change (bool_decide (DISAS_NEXT = DISAS_NEXT)) with true. cbv iota. repeat gen_step.
      destruct (goto_tb (w64 (p + 4))); repeat gen_step; rewrite emit_last; leave_case.
    + change (bool_decide (DISAS_NORETURN = DISAS_NEXT)) with false. cbv iota. repeat gen_step.
      change (bool_decide (DISAS_NORETURN = DISAS_NEXT)) with false. cbv iota. repeat gen_step.
      rewrite ret_last. exists (DC (w64 (p + 4)) DISAS_NORETURN idx d), []. rewrite app_nil_r. done.
    + change (bool_decide (DISAS_JUMP = DISAS_NEXT)) with false. cbv iota. repeat gen_step.
      change (bool_decide (DISAS_JUMP = DISAS_NEXT)) with false. cbv iota. repeat gen_step.
      destruct (d =? w64 (-1)) eqn:Ed; [|destruct (goto_tb d)];
        repeat gen_step; rewrite emit_last; leave_case; rewrite Ed; reflexivity.
  - repeat gen_step. change (bool_decide (DISAS_NORETURN = DISAS_NEXT)) with false.
    cbv iota. repeat gen_step. rewrite ret_last. leave_case.
Qed.

Lemma translate_one_eq pc insn :
  translate_one disas goto_tb pc insn
  = (disas insn ≫= leave) (GSt (ctx_at pc) 0 0 (start_ops pc)).
Proof.
  unfold translate_one, dadao_tr_insn_start, dadao_tr_translate_insn, tcg_gen_movi_i64, tcg_gen_alui.
  repeat gen_step. cbn [app]. unfold start_ops, leave. rewrite !gen_bind_eq.
  change (dadao_tr_init_disas_context pc) with (ctx_at pc).
  by destruct (disas insn _).
Qed.

(** A step is the run of the instruction's generator after the prologue,
    followed by the exit of the block. *)
Lemma step_run pc insn g env mem ok c r :
  disas insn = g -> frame g -> wf_env env -> is_jmp c <> DISAS_TOO_MANY ->
  runs B helper g (ctx_at pc) (prologue env) mem = Some (ok, c, r) -> r <> RNoLabel ->
  step pc insn env mem =
  Some (if ok then finish c r
        else match r with
             | RFall env mem => RRaise DADAO_EXCP_ILLI (set_PC (w64 (pc_next c)) env) mem
             | r => r
             end).
Proof.
  intros Hd Hf Hwf Hj Hr Hn. unfold step. rewrite translate_one_eq, gen_bind_eq, Hd, Hf.
  unfold runs in Hr. destruct (g (GSt (ctx_at pc) 0 0 [])) as [ok' [c1 t l ops]| |]; [|done..].
  cbn [g_ctx g_ops g_tmp g_lbl] in *. injection Hr as -> -> Hr.
  destruct (leave_gen ok c t l (start_ops pc ++ ops) Hj) as (c' & tail & -> & Ht).
  cbn [g_ops]. f_equal. rewrite <- app_assoc, exec_start by done.
  destruct (exec B helper ops (Mach (prologue env) ∅ mem)) as [[e tm m]| | | |] eqn:E; cbn in Hr; subst r.
  - erewrite exec_app by done. rewrite Ht. done.
  - erewrite exec_app_stop by done. by destruct ok.
  - erewrite exec_app_stop by done. by destruct ok.
  - erewrite exec_app_stop by done. by destruct ok.
  - done.
Qed.

Hypothesis Hdisas : decodetree_laws disas.

(** The same, from the pattern of the word. *)
Lemma step_decoded pc insn p g env mem c r :
  p ∈ insns_decode -> matches p insn = true -> assoc (p_name p) trans_table = Some g ->
  wf_env env -> is_jmp c <> DISAS_TOO_MANY ->
  runs B helper (g (pattern_args p insn)) (ctx_at pc) (prologue env) mem = Some (true, c, r) ->
  r <> RNoLabel ->
  step pc insn env mem = Some (finish c r).
Proof.
  intros Hin Hm Hg Hwf Hj Hr Hn.
  rewrite (step_run pc insn (g (pattern_args p insn)) env mem true c r); try done.
  - by apply Hdisas.
  - by apply (frame_assoc _ _ _ Hg).
Qed.

(** A word of no pattern raises the illegal-instruction exception. *)
Lemma step_undefined pc insn env mem :
  decode insn = None -> wf_env env ->
  step pc insn env mem = Some (RRaise DADAO_EXCP_ILLI (set_PC (w64 pc) (prologue env)) mem).
Proof.
  intros Hd Hwf.
  rewrite (step_run pc insn (mret false) env mem false (ctx_at pc) (RFall (prologue env) mem)); try done.
  - apply Hdisas. by apply decode_none.
  - apply frame_ret.
Qed.
End Step.

(** ** The prologue leaves a state instructions can start in *)
Lemma file_prologue_ra env : file RA (prologue env) = file RA env.
Proof. unfold prologue, set_reg. by rewrite !file_set_file_ne. Qed.
Lemma wf_prologue env : wf_env env -> wf_env (prologue env).
Proof. intros H. unfold prologue. eauto with cpu. Qed.
#[export] Hint Resolve wf_prologue : cpu.

Lemma u64_set_reg f i v env : u64_env env -> 0 <= v < 2^64 -> u64_env (set_reg f i v env).
Proof.
  intros Hu Hv g j. destruct (decide (f = g /\ i = j)) as [[<- <-]|Hn].
  - unfold reg, set_reg. rewrite file_set_file_eq.
    destruct (decide (0 <= i < Z.of_nat (length (file f env)))).
    + by rewrite zlookup_zupdate_eq.
    + assert (Hs : zlookup (zupdate (file f env) i v) i = None).
      { apply eq_None_not_Some. rewrite zlookup_is_Some, length_zupdate. done. }
      rewrite Hs. cbn. lia.
  - rewrite reg_set_reg_ne; [apply Hu|]. destruct (decide (f = g)); [right|left]; naive_solver.
Qed.
#[export] Hint Resolve u64_set_reg : cpu.

Lemma fcsr_normal_range v : 0 <= v < 2^64 -> 0 <= fcsr_normal v < 2^64.
Proof.
  intros Hv. unfold fcsr_normal.
  set (m := Z.lor DDAEE_FCSR_MASK_RDMODE DDAEE_FCSR_MASK_FFLAGS).
  assert (H : Z.lor (Z.land v m) DDAEE_FCSR_DEFAULT
              = Z.lor (Z.land v m) DDAEE_FCSR_DEFAULT mod 2^64).
  { rewrite <- Z.land_ones by lia. rewrite Z.land_lor_distr_l, <- Z.land_assoc. done. }
  rewrite H. apply w64_range.
Qed.

Lemma ready_prologue a env : fields_ok a -> wf_env env -> u64_env env -> ready a (prologue env).
Proof.
  intros Ha Hwf Hu. unfold prologue. repeat split; try apply Ha; eauto with cpu.
  - apply u64_set_reg; [apply u64_set_reg; [done|lia]|]. apply fcsr_normal_range, u64_set_reg; [done|lia].
  - apply u64_set_reg; [apply u64_set_reg; [done|lia]|]. apply fcsr_normal_range, u64_set_reg; [done|lia].
  - rewrite reg_set_reg_ne by (left; done). rewrite reg_set_reg_eq by (done || lia). done.
Qed.
Lemma u64_prologue env : wf_env env -> u64_env env -> u64_env (prologue env).
Proof.
  intros Hwf Hu. apply (ready_prologue (Args 0 0 0 0 0 0 0 0 0 0 0 0) env); [|done|done].
  unfold fields_ok. cbn. lia.
Qed.
