(* ===== verification/Isa.v ===== *)
(** The instruction set: what every instruction does, from the fetched word
    to the next program counter, and that the emulator does it.

    [insn_spec] is an abstract semantics over the CPU state and the memory.
    The theorems show, class by class, that translating and running a word
    of an instruction's pattern computes exactly its semantics, and that the
    semantics covers every pattern of insns.decode. *)
From S2P Require Import Prelude Opcodes Cpu Tcg Translate Run RefBackend IsaArith IsaMove.
From S2P Require Import IsaMem IsaControl IsaSys Frame Decode Step.
Local Open Scope string_scope.
Local Open Scope Z_scope.

Record insn_spec (M : Type) := Spec {
  sp_name : string;
  sp_pre : Z -> args -> CPUDADAOState -> Prop;
  sp_sem : Z -> args -> CPUDADAOState -> M -> result M }.
Arguments Spec {M}. Arguments sp_name {M}. Arguments sp_pre {M}. Arguments sp_sem {M}.

(** The next instruction, a computed jump, a rejected word. *)
Definition next_insn {M} (pc : Z) (r : result M) : result M :=
  match r with RFall env mem => RExit (set_PC (w64 (pc + 4)) env) mem | r => r end.
Definition jump {M} (r : result M) : result M :=
  match r with RFall env mem => RExit (set_PC (jmp_pc env) env) mem | r => r end.
Definition jump_to {M} (dest : Z) (r : result M) : result M :=
  match r with RFall env mem => RExit (set_PC dest env) mem | r => r end.
Definition illegal {M} (pc : Z) (env : CPUDADAOState) (mem : M) : result M :=
  RRaise DADAO_EXCP_ILLI (set_PC (w64 pc) env) mem.

Definition any (pc : Z) (a : args) (env : CPUDADAOState) : Prop := True.
(** The range of a multiple-register instruction. *)
Definition one_range (pc : Z) (a : args) (env : CPUDADAOState) : Prop := range_ok (ha a) (immu6 a).
Definition two_ranges (pc : Z) (a : args) (env : CPUDADAOState) : Prop :=
  range_ok (hb a) (immu6 a) /\ range_ok (hc a) (immu6 a).
(** An aligned program counter. *)
Definition aligned (pc : Z) (a : args) (env : CPUDADAOState) : Prop := pc mod 4 = 0.

Section Isa.
Context {M : Type} (B : backend M).
Variable helper : string -> CPUDADAOState -> list Z -> Z * CPUDADAOState.

Definition sp_alu (r : row) : insn_spec M :=
  Spec (isa_name r) (fun _ => isa_pre r)
    (fun pc a env mem => next_insn pc (RFall (isa_spec r pc a env) mem)).
Definition isa_alu_specs : list (insn_spec M) := map sp_alu isa_alu.

Definition sp_ld (n : string) (f : regfile) (mo : memop) : insn_spec M :=
  Spec n any (fun pc a env mem => next_insn pc (spec_ld B f mo a env mem)).
Definition sp_st (n : string) (f : regfile) (mo : memop) : insn_spec M :=
  Spec n any (fun pc a env mem => next_insn pc (spec_st B f mo a env mem)).
Definition sp_ldm (n : string) (f : regfile) (mo : memop) : insn_spec M :=
  Spec n one_range (fun pc a env mem => next_insn pc
    (load_regs B f mo (Z.to_nat (immu6 a)) (ha a) (multi_addr a env) env mem)).
Definition sp_stm (n : string) (f : regfile) (mo : memop) : insn_spec M :=
  Spec n one_range (fun pc a env mem => next_insn pc
    (store_regs B f mo (Z.to_nat (immu6 a)) (ha a) (multi_addr a env) env mem)).
Definition isa_memory : list (insn_spec M) :=
  [sp_ld "LDBS" RD MO_SB; sp_ld "LDBU" RD MO_UB; sp_ld "LDWS" RD MO_TESW; sp_ld "LDWU" RD MO_TEUW;
   sp_ld "LDTS" RD MO_TESL; sp_ld "LDTU" RD MO_TEUL; sp_ld "LDT" RF MO_TEUL;
   sp_ld "LDOrd" RD MO_TEUQ; sp_ld "LDOrb" RB MO_TEUQ; sp_ld "LDOrf" RF MO_TEUQ;
   sp_st "STB" RD MO_UB; sp_st "STW" RD MO_TEUW; sp_st "STTrd" RD MO_TEUL; sp_st "STTrf" RF MO_TEUL;
   sp_st "STOrd" RD MO_TEUQ; sp_st "STOrb" RB MO_TEUQ; sp_st "STOrf" RF MO_TEUQ;
   sp_ldm "LDMBS" RD MO_SB; sp_ldm "LDMBU" RD MO_UB; sp_ldm "LDMWS" RD MO_TESW;
   sp_ldm "LDMWU" RD MO_TEUW; sp_ldm "LDMTS" RD MO_TESL; sp_ldm "LDMTU" RD MO_TEUL;
   sp_ldm "LDMT" RF MO_TEUL; sp_ldm "LDMOrd" RD MO_TEUQ; sp_ldm "LDMOrb" RB MO_TEUQ;
   sp_ldm "LDMOrf" RF MO_TEUQ; sp_ldm "LDMOra" RA MO_TEUQ;
   sp_stm "STMB" RD MO_UB; sp_stm "STMW" RD MO_TEUW; sp_stm "STMTrd" RD MO_TEUL;
   sp_stm "STMTrf" RF MO_TEUL; sp_stm "STMOrd" RD MO_TEUQ; sp_stm "STMOrb" RB MO_TEUQ;
   sp_stm "STMOrf" RF MO_TEUQ; sp_stm "STMOra" RA MO_TEUQ].

Definition sp_move (n : string) (src dest : regfile) : insn_spec M :=
  Spec n two_ranges (fun pc a env mem => next_insn pc (RFall (spec_r2r src dest a env) mem)).
Definition isa_moves : list (insn_spec M) :=
  [sp_move "RD2RD" RD RD; sp_move "RD2RB" RD RB; sp_move "RB2RD" RB RD; sp_move "RB2RB" RB RB;
   sp_move "RD2RF" RD RF; sp_move "RF2RD" RF RD; sp_move "RF2RF" RF RF; sp_move "RD2RA" RD RA;
   sp_move "RA2RD" RA RD].

(** Division raises on a zero divisor.  The signed division of - 2^63 by -1
    is not caught: what TCG's own division and remainder give for it, which
    TCG leaves undefined, is stored. *)
Definition sp_div (n : string) (quot rem : Z -> Z -> Z) : insn_spec M :=
  Spec n any (fun pc a env mem =>
    if reg RD (hd a) env =? 0 then RRaise DADAO_EXCP_FPER env mem
    else next_insn pc (RFall (spec_div quot rem a env) mem)).
Definition isa_division : list (insn_spec M) :=
  [sp_div "DIVS"
     (fun x y => if divs_overflow x y then b_alu B A_div x y else w64 (Z.quot (s64 x) (s64 y)))
     (fun x y => if divs_overflow x y then b_alu B A_rem x y else w64 (Z.rem (s64 x) (s64 y)));
   sp_div "DIVU" Z.div Z.modulo].

Definition sp_br2 (n : string) (test : Z -> Z -> bool) : insn_spec M :=
  Spec n any (fun pc a env mem => jump (RFall (spec_br2 test pc a env) mem)).
Definition sp_br1 (n : string) (test : Z -> bool) : insn_spec M :=
  Spec n any (fun pc a env mem => jump (RFall (spec_br1 test pc a env) mem)).
Definition jump_dest (pc : Z) (a : args) : Z := w64 (pc + 4 * imms24 a).
Definition isa_control : list (insn_spec M) :=
  [sp_br2 "BREQ" Z.eqb; sp_br2 "BRNE" (fun x y => negb (x =? y));
   sp_br1 "BRN" (fun x => s64 x <? 0); sp_br1 "BRNN" (fun x => 0 <=? s64 x);
   sp_br1 "BRZ" (fun x => x =? 0); sp_br1 "BRNZ" (fun x => negb (x =? 0));
   sp_br1 "BRP" (fun x => 0 <? s64 x); sp_br1 "BRNP" (fun x => s64 x <=? 0);
   Spec "JUMPi" aligned (fun pc a env mem => jump_to (jump_dest pc a) (RFall env mem));
   Spec "JUMPr" any (fun pc a env mem => jump (RFall (spec_jumpr a env) mem));
   Spec "CALLi" aligned (fun pc a env mem => jump_to (jump_dest pc a) (spec_push B pc env mem));
   Spec "CALLr" any (fun pc a env mem =>
     jump (bind_result (spec_push B pc env mem) (fun env mem => RFall (spec_jumpr a env) mem)));
   Spec "RET" any (fun pc a env mem => jump (spec_ret B a env mem));
   Spec "UNIMP" any (fun pc a env mem => illegal pc env mem)].

(** Floating point: the helpers' results. *)
Definition sp_fcvt (n : string) (src dest : regfile) (fn : string) : insn_spec M :=
  Spec n two_ranges (fun pc a env mem => next_insn pc
    (RFall (iter_move (fcvt_reg helper fn src dest) (hb a) (hc a) (immu6 a) env) mem)).
Definition sp_forrr (n fn : string) (f : regfile) : insn_spec M :=
  Spec n any (fun pc a env mem => next_insn pc (RFall (spec_forrr helper fn f a env) mem)).
Definition sp_frrrr (n fn : string) : insn_spec M :=
  Spec n any (fun pc a env mem => next_insn pc (RFall (spec_frrrr helper fn a env) mem)).
Definition sp_forri (n fn : string) : insn_spec M :=
  Spec n any (fun pc a env mem =>
    if immu6 a =? 2 then next_insn pc (RFall (spec_forri helper fn a env) mem)
    else illegal pc env mem).
Definition isa_float : list (insn_spec M) :=
  [sp_fcvt "FTCLS" RF RD "ftcls"; sp_fcvt "FOCLS" RF RD "focls"; sp_fcvt "FT2FO" RF RF "ft2fo";
   sp_fcvt "FO2FT" RF RF "fo2ft"; sp_fcvt "FT2IT" RF RD "ft2it"; sp_fcvt "FT2IO" RF RD "ft2io";
   sp_fcvt "FT2UT" RF RD "ft2ut"; sp_fcvt "FT2UO" RF RD "ft2uo"; sp_fcvt "IT2FT" RD RF "it2ft";
   sp_fcvt "IO2FT" RD RF "io2ft"; sp_fcvt "UT2FT" RD RF "ut2ft"; sp_fcvt "UO2FT" RD RF "uo2ft";
   sp_fcvt "FO2IT" RF RD "fo2it"; sp_fcvt "FO2IO" RF RD "fo2io"; sp_fcvt "FO2UT" RF RD "fo2ut";
   sp_fcvt "FO2UO" RF RD "fo2uo"; sp_fcvt "IT2FO" RD RF "it2fo"; sp_fcvt "IO2FO" RD RF "io2fo";
   sp_fcvt "UT2FO" RD RF "ut2fo"; sp_fcvt "UO2FO" RD RF "uo2fo";
   sp_forrr "FTADD" "ftadd" RF; sp_forrr "FTSUB" "ftsub" RF; sp_forrr "FTMUL" "ftmul" RF;
   sp_forrr "FTDIV" "ftdiv" RF; sp_forrr "FTREM" "ftrem" RF; sp_forrr "FOADD" "foadd" RF;
   sp_forrr "FOSUB" "fosub" RF; sp_forrr "FOMUL" "fomul" RF; sp_forrr "FODIV" "fodiv" RF;
   sp_forrr "FOREM" "forem" RF; sp_forrr "FTSGNJ" "ftsgnj" RF; sp_forrr "FTSGNN" "ftsgnn" RF;
   sp_forrr "FOSGNJ" "fosgnj" RF; sp_forrr "FOSGNN" "fosgnn" RF;
   sp_frrrr "FTMADD" "ftmadd"; sp_frrrr "FOMADD" "fomadd";
   sp_forri "FTROOT" "ftroot"; sp_forri "FOROOT" "foroot"; sp_forri "FTLOG" "ftlog";
   sp_forri "FOLOG" "folog";
   sp_forrr "FTQCMP" "ftqcmp" RD; sp_forrr "FTSCMP" "ftscmp" RD;
   sp_forrr "FOQCMP" "foqcmp" RD; sp_forrr "FOSCMP" "foscmp" RD].

(** The system call and the atomics; the coprocessor is not implemented. *)
Definition sp_reject (n : string) : insn_spec M :=
  Spec n any (fun pc a env mem => illegal pc env mem).
Definition sp_lro (n : string) : insn_spec M :=
  Spec n any (fun pc a env mem =>
    if (hd a =? 0) || negb (hb a =? 0) then illegal pc env mem
    else if hc a =? 0 then next_insn pc (RFall env mem)
    else next_insn pc (spec_lro B a env mem)).
Definition sp_sco (n : string) : insn_spec M :=
  Spec n any (fun pc a env mem =>
    if (hd a =? 0) || (hb a =? 0) then illegal pc env mem
    else next_insn pc (spec_sco B a env mem)).
Definition isa_system : list (insn_spec M) :=
  [Spec "TRAP" any (fun pc a env mem =>
     if negb (ha a =? 0) || negb (immu18 a =? 0) then illegal pc env mem
     else RRaise DADAO_EXCP_TRAP env mem);
   sp_reject "ESCAPE"; sp_reject "CPCO"; sp_reject "CPRD"; sp_reject "CPWR"; sp_reject "CPLD";
   sp_reject "CPST";
   sp_lro "LRO_NN"; sp_lro "LRO_NR"; sp_lro "LRO_AN"; sp_lro "LRO_AR";
   sp_sco "SCO_NN"; sp_sco "SCO_NR"; sp_sco "SCO_AN"; sp_sco "SCO_AR"].

Definition isa : list (insn_spec M) :=
  (isa_alu_specs ++ isa_memory ++ isa_moves ++ isa_division ++ isa_control ++ isa_float ++ isa_system)%list.

(** ** Implementing a semantics *)
Variable disas : Z -> gen bool.

(** Every word of the instruction's pattern, from every CPU state with
    64-bit registers, does what the semantics says. *)
Definition step_implements (sp : insn_spec M) : Prop :=
  exists p, p ∈ insns_decode /\ p_name p = sp_name sp /\
  forall goto_tb pc insn env mem,
    0 <= pc < 2^64 -> wf_env env -> u64_env env -> matches p insn = true ->
    sp_pre sp pc (pattern_args p insn) (prologue env) ->
    step B helper disas goto_tb pc insn env mem
    = Some (sp_sem sp pc (pattern_args p insn) (prologue env) mem).

Definition find_pattern (n : string) : option pattern :=
  List.find (fun p => (p_name p =? n)%string) insns_decode.

(** What a generator must do for its instruction to be implemented. *)
Definition body_ok (sp : insn_spec M) (g : args -> gen bool) : Prop :=
  forall pc a env mem,
    0 <= pc < 2^64 -> ready a env -> imms_ok a -> sp_pre sp pc a env ->
    exists ok c r, runs B helper (g a) (ctx_at pc) env mem = Some (ok, c, r) /\
      is_jmp c <> DISAS_TOO_MANY /\ r <> RNoLabel /\
      sp_sem sp pc a env mem
      = if ok then finish c r
        else match r with
             | RFall env mem => RRaise DADAO_EXCP_ILLI (set_PC (w64 (pc_next c)) env) mem
             | r => r
             end.
End Isa.

(** ** The emulator implements the semantics *)
Section Refine.
Context {M : Type} (B : backend M) (L : tcg_laws B).
Variable helper : string -> CPUDADAOState -> list Z -> Z * CPUDADAOState.
Variable disas : Z -> gen bool.
Hypothesis Hdisas : decodetree_laws disas.
Abbreviation implemented := (step_implements B helper disas).
Abbreviation body := (body_ok B helper).

Lemma implements_of_body sp g p :
  find_pattern (sp_name sp) = Some p -> assoc (sp_name sp) trans_table = Some g ->
  body sp g -> implemented sp.
Proof.
  intros Hp Hg Hb. apply find_some in Hp as [Hin Hn%String.eqb_eq]. apply list_elem_of_In in Hin.
  exists p. split; [done|]. split; [done|]. intros goto_tb pc insn env mem Hpc Hwf Hu Hm Hpre.
  destruct (pattern_args_ok p insn Hin) as [Hf Hi].
  destruct (Hb pc (pattern_args p insn) (prologue env) mem) as (ok & c & r & Hr & Hj & Hl & ->);
    try done; [by apply ready_prologue|].
  rewrite <- Hn in Hg. apply (step_run B L helper disas goto_tb pc insn _ _ _ _ _ _
    (dt_match _ Hdisas _ _ _ Hin Hm Hg)); try done. by apply (frame_assoc _ _ _ Hg).
Qed.

Lemma finish_next pc r : finish (M := M) (ctx_at pc) r = next_insn pc r.
Proof. by destruct r. Qed.
Lemma finish_jump pc r : finish (M := M) (jump_ctx (ctx_at pc)) r = jump r.
Proof. by destruct r. Qed.
Lemma finish_jump_to pc d r :
  0 <= d < 2^64 - 1 -> finish (M := M) (jump_ctx_imm (ctx_at pc) d) r = jump_to d r.
Proof.
  intros Hd. destruct r; try done. unfold finish. cbn [is_jmp jump_ctx_imm jmp_pc_imm].
  rewrite w64_opp1, (proj2 (Z.eqb_neq d _)), w64_id by lia. done.
Qed.

(** An instruction that falls through to the next one. *)
Lemma body_next sp g (r : Z -> args -> CPUDADAOState -> M -> result M) :
  (forall pc a env mem, 0 <= pc < 2^64 -> ready a env -> imms_ok a -> sp_pre sp pc a env ->
     runs B helper (g a) (ctx_at pc) env mem = Some (true, ctx_at pc, r pc a env mem) /\
     r pc a env mem <> RNoLabel /\
     sp_sem sp pc a env mem = next_insn pc (r pc a env mem)) ->
  body sp g.
Proof.
  intros H pc a env mem Hpc Hr Hi Hp. destruct (H pc a env mem) as (H1 & H2 & H3); try done.
  do 3 eexists. split; [exact H1|]. split; [done|]. split; [done|]. by rewrite finish_next.
Qed.
(** One that ends its block, with the destination in jmp_pc. *)
Lemma body_jump sp g (r : Z -> args -> CPUDADAOState -> M -> result M) :
  (forall pc a env mem, 0 <= pc < 2^64 -> ready a env -> imms_ok a -> sp_pre sp pc a env ->
     runs B helper (g a) (ctx_at pc) env mem = Some (true, jump_ctx (ctx_at pc), r pc a env mem) /\
     r pc a env mem <> RNoLabel /\
     sp_sem sp pc a env mem = jump (r pc a env mem)) ->
  body sp g.
Proof.
  intros H pc a env mem Hpc Hr Hi Hp. destruct (H pc a env mem) as (H1 & H2 & H3); try done.
  do 3 eexists. split; [exact H1|]. split; [done|]. split; [done|]. by rewrite finish_jump.
Qed.
(** One the translator rejects. *)
Lemma body_reject sp g :
  (forall pc a env mem, runs B helper (g a) (ctx_at pc) env mem
     = Some (false, ctx_at pc, RFall env mem) /\ sp_sem sp pc a env mem = illegal pc env mem) ->
  body sp g.
Proof.
  intros H pc a env mem Hpc Hr Hi Hp. destruct (H pc a env mem) as [H1 H2].
  do 3 eexists. split; [exact H1|]. done.
Qed.

(** Finds the generator of an instruction and leaves its body. *)
Local Ltac find_body := eapply implements_of_body; [reflexivity|reflexivity|].
Local Tactic Notation "each" reference(l) := unfold l; repeat apply Forall_cons_2; [..|apply Forall_nil_2]; find_body.

Lemma spec_ld_label f mo a env mem : spec_ld B f mo a env mem <> RNoLabel.
Proof. unfold spec_ld. by destruct (b_ld _ _ _ _). Qed.
Lemma spec_st_label f mo a env mem : spec_st B f mo a env mem <> RNoLabel.
Proof. unfold spec_st. by destruct (b_st _ _ _ _ _). Qed.
Lemma load_regs_label f mo n i addr env mem : load_regs B f mo n i addr env mem <> RNoLabel.
Proof. revert i addr env. induction n; intros; cbn; [done|]. by destruct (b_ld _ _ _ _). Qed.
Lemma store_regs_label f mo n i addr env mem : store_regs B f mo n i addr env mem <> RNoLabel.
Proof. revert i addr mem. induction n; intros; cbn; [done|]. by destruct (b_st _ _ _ _ _). Qed.
Hint Resolve spec_ld_label spec_st_label load_regs_label store_regs_label : core.

Lemma alu_body r g :
  assoc (isa_name r) trans_table = Some g -> implements B helper r -> body (sp_alu r) g.
Proof.
  intros Hg (g' & Hg' & H). rewrite Hg in Hg'. injection Hg' as <-.
  apply (body_next _ _ (fun pc a env mem => RFall (isa_spec r pc a env) mem)).
  intros pc a env mem Hpc Hr Hi Hp. split; [|done]. by apply (H (ctx_at pc)).
Qed.

Lemma alu_implemented : Forall implemented isa_alu_specs.
Proof.
  assert (Hall : Forall (implements B helper) isa_alu).
  { unfold isa_alu. repeat apply Forall_app_2;
      [by apply arith_rows | by apply logic_rows | by apply assign_rows]. }
  assert (Hp : Forall (fun r => is_Some (find_pattern (isa_name r))) isa_alu)
    by (repeat (apply Forall_cons_2; [by eexists|]); apply Forall_nil_2).
  unfold isa_alu_specs. apply Forall_map. rewrite Forall_forall in *. intros r Hr.
  destruct (Hp r Hr) as [p Hp']. destruct (Hall r Hr) as (g & Hg & H).
  apply (implements_of_body (sp_alu r) g p); try done. apply alu_body; [done|]. by exists g.
Qed.

Lemma ld_body n f mo : body (sp_ld B n f mo) (INSN_LD_RRII f mo).
Proof.
  apply (body_next _ _ (fun pc a env mem => spec_ld B f mo a env mem)).
  intros pc a env mem Hpc Hr Hi Hp. split; [by apply ld_run|done].
Qed.
Lemma st_body n f mo : body (sp_st B n f mo) (INSN_ST_RRII f mo).
Proof.
  apply (body_next _ _ (fun pc a env mem => spec_st B f mo a env mem)).
  intros pc a env mem Hpc Hr Hi Hp. split; [by apply st_run|done].
Qed.
Lemma ldm_body n f mo : body (sp_ldm B n f mo) (INSN_LDM_RRRI f mo).
Proof.
  eapply body_next. intros pc a env mem Hpc Hr Hi Hp. split; [by apply ldm_run|done].
Qed.
Lemma stm_body n f mo : body (sp_stm B n f mo) (INSN_STM_RRRI f mo).
Proof.
  eapply body_next. intros pc a env mem Hpc Hr Hi Hp. split; [by apply stm_run|done].
Qed.
Lemma memory_implemented : Forall implemented (isa_memory B).
Proof.
  each isa_memory.
  all: lazymatch goal with
       | |- body_ok _ _ (sp_ld _ _ _ _) _ => apply ld_body
       | |- body_ok _ _ (sp_st _ _ _ _) _ => apply st_body
       | |- body_ok _ _ (sp_ldm _ _ _ _) _ => apply ldm_body
       | |- body_ok _ _ (sp_stm _ _ _ _) _ => apply stm_body
       end.
Qed.

Lemma move_body n src dest : body (sp_move n src dest) (INSN_R2R_ORRI src dest).
Proof.
  apply (body_next _ _ (fun pc a env mem => RFall (spec_r2r src dest a env) mem)).
  intros pc a env mem Hpc Hr Hi (Hb & Hc). split; [|done]. unfold INSN_R2R_ORRI.
  erewrite r2r_body_run by (done || apply r2r_move_ok). rewrite iter_move_spec by (done || apply Hr). done.
Qed.
Lemma moves_implemented : Forall implemented (@isa_moves M).
Proof. each isa_moves. all: apply move_body. Qed.

(** *** Division *)
Lemma div_body n quot rem divop remop :
  (forall a env, ready a env -> reg RD (hd a) env <> 0 ->
     b_alu B divop (reg RD (hc a) env) (reg RD (hd a) env)
       = quot (reg RD (hc a) env) (reg RD (hd a) env) /\
     b_alu B remop (reg RD (hc a) env) (reg RD (hd a) env)
       = rem (reg RD (hc a) env) (reg RD (hd a) env)) ->
  body (sp_div n quot rem) (INSN_DIV_RRRR divop remop).
Proof.
  intros Ho pc a env mem Hpc Hr Hi Hp. cbn [sp_sem sp_div].
  destruct (Z.eqb_spec (reg RD (hd a) env) 0) as [Hz|Hnz].
  - do 3 eexists. split; [by apply div_zero_run|]. done.
  - destruct (Ho a env Hr Hnz). do 3 eexists. split; [by apply div_run|].
    by rewrite finish_next.
Qed.
Lemma division_implemented : Forall implemented (isa_division B).
Proof.
  each isa_division.
  - apply div_body. intros a env Hr Hnz. unfold divs_overflow.
    destruct (_ && _) eqn:E; [done|].
    by rewrite (law_div _ L), (law_rem _ L) by (done || lia).
  - apply div_body. intros a env Hr Hnz. by rewrite (law_divu _ L), (law_remu _ L).
Qed.

(** *** Control flow *)
Lemma spec_push_label pc env mem : spec_push B pc env mem <> RNoLabel.
Proof. unfold spec_push. repeat case_match; done. Qed.
Lemma spec_ret_label a env mem : spec_ret B a env mem <> RNoLabel.
Proof. unfold spec_ret, spec_pop. repeat case_match; done. Qed.
Hint Resolve spec_push_label spec_ret_label : core.
Lemma spec_push_not_exit pc env mem e m : spec_push B pc env mem <> RExit e m.
Proof. unfold spec_push. repeat case_match; done. Qed.

Lemma br2_body n cond (test : Z -> Z -> bool) :
  (forall x y, b_cond B cond x y = test x y) -> body (sp_br2 n test) (INSN_BR_RRII cond).
Proof.
  intros Ht. apply (body_jump _ _ (fun pc a env mem => RFall (spec_br2 test pc a env) mem)).
  intros pc a env mem Hpc Hr Hi Hp. split; [|done]. by apply (br2_run B helper _ _ (ctx_at pc)).
Qed.
Lemma br1_body n cond (test : Z -> bool) :
  (forall x, b_cond B cond x 0 = test x) -> body (sp_br1 n test) (INSN_BR_RIII cond).
Proof.
  intros Ht. apply (body_jump _ _ (fun pc a env mem => RFall (spec_br1 test pc a env) mem)).
  intros pc a env mem Hpc Hr Hi Hp. split; [|done]. by apply (br1_run B helper _ _ (ctx_at pc)).
Qed.

Lemma jump_dest_ok pc a : pc mod 4 = 0 -> 0 <= jump_dest pc a < 2^64 - 1.
Proof.
  intros Hpc. pose proof (w64_range (pc + 4 * imms24 a)). unfold jump_dest.
  enough (w64 (pc + 4 * imms24 a) mod 4 = 0).
  { destruct (Z.eq_dec (w64 (pc + 4 * imms24 a)) (2^64 - 1)) as [E|E]; [|lia].
    rewrite E in H0. done. }
  unfold w64. change (2^64) with (4 * 2^62).
  rewrite Z.rem_mul_r, (Z.mul_comm 4 (_ mod _)), Z.mod_add, Z.mod_mod by lia.
  rewrite (Z.mul_comm 4), Z.mod_add by lia. done.
Qed.
Lemma jumpi_body :
  body (Spec "JUMPi" aligned (fun pc a env mem => jump_to (jump_dest pc a) (RFall env mem))) trans_JUMPi.
Proof.
  intros pc a env mem Hpc Hr Hi Hp. do 3 eexists. split; [by apply jumpi_run|].
  cbn [pc_next ctx_at dadao_tr_init_disas_context]. rewrite (Z.mul_comm (imms24 a)).
  rewrite finish_jump_to by (by apply jump_dest_ok). done.
Qed.
Lemma calli_body :
  body (Spec "CALLi" aligned (fun pc a env mem => jump_to (jump_dest pc a) (spec_push B pc env mem)))
    trans_CALLi.
Proof.
  intros pc a env mem Hpc Hr Hi Hp. do 3 eexists. split; [by apply calli_run|].
  cbn [pc_next ctx_at dadao_tr_init_disas_context]. rewrite (Z.mul_comm (imms24 a)).
  rewrite finish_jump_to by (by apply jump_dest_ok). done.
Qed.
Lemma callr_body :
  body (Spec "CALLr" any (fun pc a env mem =>
    jump (bind_result (spec_push B pc env mem) (fun env mem => RFall (spec_jumpr a env) mem)))) trans_CALLr.
Proof.
  eapply body_jump. intros pc a env mem Hpc Hr Hi Hp. split; [by apply callr_run|].
  split; [|done]. pose proof (spec_push_label (pc_next (ctx_at pc)) env mem).
  unfold bind_result. by destruct (spec_push _ _ _ _).
Qed.

Lemma control_implemented : Forall implemented (isa_control B).
Proof.
  each isa_control.
  - apply br2_body; intros; apply L.
  - apply br2_body; intros; apply L.
  - apply br1_body; intros; apply L.
  - apply br1_body; intros; apply L.
  - apply br1_body; intros; apply L.
  - apply br1_body; intros; apply L.
  - apply br1_body; intros; apply L.
  - apply br1_body; intros; apply L.
  - apply jumpi_body.
  - eapply body_jump. intros pc a env mem Hpc Hr Hi Hp. split; [by apply jumpr_run|done].
  - apply calli_body.
  - apply callr_body.
  - eapply body_jump. intros pc a env mem Hpc Hr Hi Hp. split; [by apply ret_run|done].
  - intros pc a env mem Hpc Hr Hi Hp. do 3 eexists. split; [by apply unimp_run|]. done.
Qed.

(** *** Floating point *)
Lemma fcvt_body n src dest fn : body (sp_fcvt helper n src dest fn) (INSN_FCVT_ORRI src dest fn).
Proof.
  apply (body_next _ _ (fun pc a env mem =>
    RFall (iter_move (fcvt_reg helper fn src dest) (hb a) (hc a) (immu6 a) env) mem)).
  intros pc a env mem Hpc Hr Hi (Hb & Hc). split; [|done].
  unfold INSN_FCVT_ORRI. by apply r2r_body_run; [apply fcvt_move_ok|..].
Qed.
Lemma forrr_body n fn : body (sp_forrr helper n fn RF) (INSN_FALG_ORRR fn).
Proof. eapply body_next. intros pc a env mem Hpc Hr Hi Hp. split; [by apply forrr_run|done]. Qed.
Lemma fcmp_body n fn : body (sp_forrr helper n fn RD) (INSN_FCMP_ORRR fn).
Proof. eapply body_next. intros pc a env mem Hpc Hr Hi Hp. split; [by apply fcmp_run|done]. Qed.
Lemma frrrr_body n fn : body (sp_frrrr helper n fn) (INSN_FALG_RRRR fn).
Proof. eapply body_next. intros pc a env mem Hpc Hr Hi Hp. split; [by apply frrrr_run|done]. Qed.
Lemma forri_body n fn : body (sp_forri helper n fn) (INSN_FALG_ORRI fn).
Proof.
  intros pc a env mem Hpc Hr Hi Hp. cbn [sp_sem sp_forri].
  destruct (Z.eqb_spec (immu6 a) 2) as [E|E].
  - do 3 eexists. split; [by apply forri_run|]. by rewrite finish_next.
  - do 3 eexists. split; [by apply forri_illegal|]. done.
Qed.
Lemma float_implemented : Forall implemented (isa_float helper).
Proof.
  each isa_float.
  all: lazymatch goal with
       | |- body_ok _ _ (sp_fcvt _ _ _ _ _) _ => apply fcvt_body
       | |- body_ok _ _ (sp_forrr _ _ _ RF) _ => apply forrr_body
       | |- body_ok _ _ (sp_forrr _ _ _ RD) _ => apply fcmp_body
       | |- body_ok _ _ (sp_frrrr _ _ _) _ => apply frrrr_body
       | |- body_ok _ _ (sp_forri _ _ _) _ => apply forri_body
       end.
Qed.

(** *** System calls and atomics *)
Lemma trap_body :
  body (Spec "TRAP" any (fun pc a env mem =>
     if negb (ha a =? 0) || negb (immu18 a =? 0) then illegal pc env mem
     else RRaise DADAO_EXCP_TRAP env mem)) trans_TRAP.
Proof.
  intros pc a env mem Hpc Hr Hi Hp. pose proof (trap_run B helper (ctx_at pc) a env mem) as H.
  cbn [sp_sem]. destruct (_ || _); do 3 eexists; (split; [exact H|]); done.
Qed.
Lemma lro_body n before after :
  (length before <= 1)%nat -> (length after <= 1)%nat ->
  body (sp_lro B n) (LRO before after).
Proof.
  intros H1 H2 pc a env mem Hpc Hr Hi Hp. cbn [sp_sem sp_lro].
  destruct (Z.eqb_spec (hd a) 0) as [Ed|Ed]; cbn [orb].
  { do 3 eexists. split; [apply lro_reject; by left|]. done. }
  destruct (Z.eqb_spec (hb a) 0) as [Eb|Eb]; cbn [negb].
  2: { do 3 eexists. split; [apply lro_reject; by right|]. done. }
  destruct (Z.eqb_spec (hc a) 0) as [Ec|Ec].
  { do 3 eexists. split; [by apply lro_skip|]. done. }
  do 3 eexists. split; [by apply lro_run|]. rewrite finish_next. split; [done|]. split; [|done].
  unfold spec_lro. by destruct (b_ld _ _ _ _).
Qed.
Lemma sco_body n barrier : body (sp_sco B n) (SCO barrier).
Proof.
  intros pc a env mem Hpc Hr Hi Hp. cbn [sp_sem sp_sco].
  destruct (Z.eqb_spec (hd a) 0) as [Ed|Ed]; cbn [orb].
  { do 3 eexists. split; [apply sco_reject; by left|]. done. }
  destruct (Z.eqb_spec (hb a) 0) as [Eb|Eb].
  { do 3 eexists. split; [apply sco_reject; by right|]. done. }
  do 3 eexists. split; [by apply sco_run|]. rewrite finish_next. split; [done|]. split; [|done].
  unfold spec_sco. destruct (negb _); [done|]. by destruct (b_cmpxchg _ _ _ _ _ _) as [[??]|].
Qed.
Lemma system_implemented : Forall implemented (isa_system B).
Proof.
  each isa_system.
  1: apply trap_body.
  all: lazymatch goal with
       | |- body_ok _ _ (sp_reject _) _ => by apply body_reject
       | |- body_ok _ _ (sp_lro _ _) _ => apply lro_body; cbn; lia
       | |- body_ok _ _ (sp_sco _ _) _ => apply sco_body
       end.
Qed.
End Refine.
