(* ===== verification/Total.v ===== *)
(** When the translator itself is safe.

    A generator is total when it neither leaves the register arrays nor runs
    out of fuel.  Every instruction is, except the multiple-register ones
    outside their register range: their range check emits an exception but
    goes on, and the loop behind it indexes past the arrays. *)
From S2P Require Import Prelude Opcodes Cpu Tcg Translate Run IsaArith IsaMove IsaMem.
From S2P Require Import Frame Decode.
Local Open Scope string_scope.
Local Open Scope Z_scope.

Definition total {A} (g : gen A) : Prop := forall s, exists a s', g s = GOk a s'.

Create HintDb total.
#[export] Hint Constants Opaque : total.

Lemma total_ret {A} (a : A) : total (mret a).
Proof. intros s. eauto. Qed.
Lemma total_bind {A B} (m : gen A) (k : A -> gen B) :
  total m -> (forall a, total (k a)) -> total (m ≫= k).
Proof.
  intros Hm Hk s. destruct (Hm s) as (a & s' & H). rewrite gen_bind_eq, H. apply Hk.
Qed.
Lemma total_emit o : total (emit o).
Proof. intros s. unfold emit. eauto. Qed.
Lemma total_get_ctx : total get_ctx.
Proof. intros s. unfold get_ctx. eauto. Qed.
Lemma total_put_ctx c : total (put_ctx c).
Proof. intros s. unfold put_ctx. eauto. Qed.
Lemma total_tmp : total tcg_temp_new_i64.
Proof. intros s. unfold tcg_temp_new_i64. eauto. Qed.
Lemma total_label : total gen_new_label.
Proof. intros s. unfold gen_new_label. eauto. Qed.
Lemma total_cpu f i : 0 <= i < 64 -> total (cpu f i).
Proof. intros H. rewrite cpu_ok by done. apply total_ret. Qed.
Lemma total_when b g : total g -> total (when b g).
Proof. destruct b; [done|]. intros _. apply total_ret. Qed.
#[export] Hint Resolve total_ret total_emit total_get_ctx total_put_ctx total_tmp total_label : total.

Ltac total_step :=
  lazymatch goal with
  | |- total (_ ≫= _) => apply total_bind; [|intros ?]
  | |- total (when _ _) => apply total_when
  | |- total (cpu _ _) => apply total_cpu; (assumption || lia)
  | |- total (match _ with _ => _ end) => case_match
  | |- total (let _ := _ in _) => cbv zeta
  | |- total _ =>
      first [ solve [auto 2 with total]
            | progress unfold tcg_constant_i64, tcg_gen_mov_i64, tcg_gen_movi_i64, tcg_gen_alu,
                tcg_gen_alui, tcg_gen_qemu_ld_i64, tcg_gen_qemu_st_i64, set_is_jmp,
                set_jmp_pc_imm, set_pc_next, gen_exception, gen_exception_illegal_instruction ]
  end.
Ltac total_tac := repeat total_step.

Lemma total_foldr {A} (f : A -> gen () -> gen ()) (P : A -> Prop) (xs : list A) :
  (forall x k, P x -> total k -> total (f x k)) -> Forall P xs -> total (foldr f (mret ()) xs).
Proof. intros H Hp. induction Hp; cbn; auto with total. Qed.
Lemma total_ra_moves ixs :
  Forall (fun p => 0 <= p.1 < 64 /\ 0 <= p.2 < 64) ixs -> total (ra_moves ixs).
Proof.
  intros H. unfold ra_moves. eapply total_foldr; [|exact H]. intros [d s] k [Hd Hs] Hk. cbn in *. total_tac.
Qed.
Lemma total_push_moves : total (ra_moves push_moves).
Proof. apply total_ra_moves, (bool_decide_unpack _). vm_compute. done. Qed.
Lemma total_pop_moves : total (ra_moves pop_moves).
Proof. apply total_ra_moves, (bool_decide_unpack _). vm_compute. done. Qed.
#[export] Hint Resolve total_push_moves total_pop_moves : total.

(** The generators of a table are total on fields that fit. *)
Definition totals (d : list (string * (args -> gen bool))) : Prop :=
  Forall (fun e => forall a, fields_ok a -> total (e.2 a)) d.
Ltac totals_tac :=
  unfold totals; repeat apply Forall_cons_2; [..|apply Forall_nil_2]; cbn [snd];
  intros a (Hha & Hhb & Hhc & Hhd).

Definition trans_moves : list (string * (args -> gen bool)) := take 9 trans_assign.

Lemma totals_ldst : totals trans_ldst.
Proof. unfold trans_ldst. totals_tac. all: unfold INSN_LD_RRII, INSN_ST_RRII; total_tac. Qed.
Lemma totals_assign : totals (drop 9 trans_assign).
Proof.
  unfold trans_assign. cbn [drop]. totals_tac.
  all: unfold INSN_CSET1_RRRR, INSN_CSET2_RRRR, trans_SETOW, INSN_SETZW_RWII,
    INSN_ORW_RWII, INSN_ANDNW_RWII, trans_SETW; total_tac.
Qed.
Lemma totals_arith : totals trans_arith.
Proof.
  unfold trans_arith. totals_tac.
  all: unfold INSN_ALG1_RRRR, INSN_ALG1_ORRR, INSN_ALG1_RRII, INSN_CMP_RRII, INSN_CMP_ORRR,
    INSN_MUL_RRRR, INSN_DIV_RRRR, trans_ADRP; total_tac.
Qed.
Lemma totals_logic : totals trans_logic.
Proof.
  unfold trans_logic. totals_tac.
  all: unfold INSN_LOGIC_ORRR, trans_XNOR, trans_ANDI, INSN_EXT_ORRR, INSN_LOGIC_ORRI,
    INSN_EXT_ORRI; total_tac.
Qed.
Lemma totals_control : totals trans_control.
Proof.
  unfold trans_control. totals_tac.
  all: unfold trans_CALLi, trans_CALLr, trans_SWYM, trans_UNIMP, INSN_BR_RRII, INSN_BR_RIII, trans_JUMPi, trans_JUMPr,
    trans_RET, push_return_address, pop_return_address; total_tac.
Qed.
Lemma totals_falg : totals trans_falg.
Proof.
  unfold trans_falg. totals_tac.
  all: unfold INSN_FALG_ORRR, INSN_FALG_RRRR, INSN_FALG_ORRI, INSN_FCMP_ORRR, INSN_FCSET_RRRR,
    INSN_FCSET_ORRR; total_tac.
Qed.
Lemma totals_system : totals trans_system.
Proof.
  unfold trans_system. totals_tac.
  all: unfold trans_TRAP, trans_ESCAPE, trans_CPCO, trans_CPRD, trans_CPWR, trans_CPLD, trans_CPST,
    trans_FENCE, trans_LRO_NN, trans_LRO_NR, trans_LRO_AN, trans_LRO_AR, LRO,
    trans_SCO_NN, trans_SCO_NR, trans_SCO_AN, trans_SCO_AR, SCO; cbn [foldr]; total_tac.
Qed.

(** The condition under which each instruction is translated safely. *)
Definition range_cond (n : string) (a : args) : Prop :=
  if (bool_decide (n ∈ map fst trans_ldstm)) then range_ok (ha a) (immu6 a)
  else if (bool_decide (n ∈ map fst (trans_moves ++ trans_fcvt)%list))
  then range_ok (hb a) (immu6 a) /\ range_ok (hc a) (immu6 a)
  else True.
#[export] Instance range_ok_dec r n : Decision (range_ok r n).
Proof. unfold range_ok. apply _. Defined.
#[export] Instance range_cond_dec n a : Decision (range_cond n a).
Proof. unfold range_cond. repeat case_match; apply _. Defined.

Definition safe_entry (e : string * (args -> gen bool)) : Prop :=
  forall a c l ops, fields_ok a -> 0 <= immu6 a < 64 ->
  (range_cond e.1 a -> exists ok s, e.2 a (GSt c 0 l ops) = GOk ok s) /\
  (~ range_cond e.1 a -> e.2 a (GSt c 0 l ops) = GOob).

Definition single (e : string * (args -> gen bool)) : Prop :=
  e.1 ∉ map fst trans_ldstm /\ e.1 ∉ map fst (trans_moves ++ trans_fcvt)%list.
Lemma safe_totals d : totals d -> Forall single d -> Forall safe_entry d.
Proof.
  unfold totals. rewrite !Forall_forall. intros Ht Hs e He a c l ops Ha Hi.
  destruct (Hs e He) as [H1 H2]. unfold range_cond. rewrite !bool_decide_eq_false_2 by done.
  split; [|tauto]. intros _. apply (Ht e He a Ha).
Qed.

(** *** The loops within range *)
Lemma ldm_loop_total f mo x y : forall fuel i n,
  0 <= i -> 1 <= n <= Z.of_nat fuel -> i + n <= 64 -> total (ldm_loop fuel f mo x y i n).
Proof.
  induction fuel as [|fuel IH]; intros i n Hi Hn Hb; [lia|]. cbn [ldm_loop]. total_tac. apply IH; lia.
Qed.
Lemma stm_loop_total f mo x : forall fuel i n,
  0 <= i -> 1 <= n <= Z.of_nat fuel -> i + n <= 64 -> total (stm_loop fuel f mo x i n).
Proof.
  induction fuel as [|fuel IH]; intros i n Hi Hn Hb; [lia|]. cbn [stm_loop]. total_tac. apply IH; lia.
Qed.
Lemma r2r_loop_total move :
  (forall b c, 0 <= b < 64 -> 0 <= c < 64 -> total (move b c)) ->
  forall fuel b c n, 1 <= n <= Z.of_nat fuel ->
  (if c <? b then b < 64 /\ n - 1 <= c else 0 <= b /\ c + n <= 64) ->
  total (r2r_loop fuel move b c n).
Proof.
  intros Hm. induction fuel as [|fuel IH]; intros b c n Hn Hb; [lia|]. cbn [r2r_loop].
  destruct (Z.ltb_spec c b).
  - apply total_bind; [apply Hm; lia|intros _]. cbv zeta.
    destruct (Z.eqb_spec (n - 1) 0); [apply total_ret|]. apply IH; [lia|].
    rewrite (proj2 (Z.ltb_lt _ _)) by lia. lia.
  - apply total_bind; [apply Hm; lia|intros _]. cbv zeta.
    destruct (Z.eqb_spec (n - 1) 0); [apply total_ret|]. apply IH; [lia|].
    rewrite (proj2 (Z.ltb_ge _ _)) by lia. lia.
Qed.
Lemma check_range_safe rs n : total (check_range rs n).
Proof.
  intros [c t l ops]. destruct (check_range_total rs n c t l ops) as (c' & o' & H). eauto.
Qed.
#[export] Hint Resolve check_range_safe : total.

Lemma r2r_body_total move a :
  (forall b c, 0 <= b < 64 -> 0 <= c < 64 -> total (move b c)) ->
  range_ok (hb a) (immu6 a) -> range_ok (hc a) (immu6 a) -> total (r2r_body move a).
Proof.
  intros Hm (Hb & Hn & Hb2) (Hc & _ & Hc2). unfold r2r_body. apply total_bind; [auto with total|intros _].
  destruct (Z.ltb_spec (hc a) (hb a)); (apply total_bind; [|auto with total]);
    apply r2r_loop_total; try done; try (unfold loop_fuel; lia).
  - rewrite (proj2 (Z.ltb_lt _ _)) by lia. lia.
  - rewrite (proj2 (Z.ltb_ge _ _)) by lia. lia.
Qed.
Lemma r2r_move_total f g b c : 0 <= b < 64 -> 0 <= c < 64 -> total (r2r_move f g b c).
Proof. intros. unfold r2r_move. total_tac. Qed.
Lemma fcvt_move_total f g fn b c : 0 <= b < 64 -> 0 <= c < 64 -> total (fcvt_move f g fn b c).
Proof. intros. unfold fcvt_move. total_tac. Qed.

(** *** The multiple-register instructions *)
Definition ldm_safe (g : args -> gen bool) : Prop :=
  forall a c l ops, fields_ok a -> 0 <= immu6 a < 64 ->
  (range_ok (ha a) (immu6 a) -> exists ok s, g a (GSt c 0 l ops) = GOk ok s) /\
  (~ range_ok (ha a) (immu6 a) -> g a (GSt c 0 l ops) = GOob).
Definition r2r_safe (g : args -> gen bool) : Prop :=
  forall a c l ops, fields_ok a -> 0 <= immu6 a < 64 ->
  (range_ok (hb a) (immu6 a) /\ range_ok (hc a) (immu6 a) -> exists ok s, g a (GSt c 0 l ops) = GOk ok s) /\
  (~ (range_ok (hb a) (immu6 a) /\ range_ok (hc a) (immu6 a)) -> g a (GSt c 0 l ops) = GOob).

Lemma ldm_safe_ldm f mo : ldm_safe (INSN_LDM_RRRI f mo).
Proof.
  intros a c l ops Ha Hi. split; [intros (H0 & H1 & H2)|by apply ldm_oob].
  assert (Ht : total (INSN_LDM_RRRI f mo a)); [|apply Ht].
  destruct Ha as (Hha & Hhb & Hhc & Hhd).
  unfold INSN_LDM_RRRI. total_tac. apply ldm_loop_total; unfold loop_fuel; lia.
Qed.
Lemma ldm_safe_stm f mo : ldm_safe (INSN_STM_RRRI f mo).
Proof.
  intros a c l ops Ha Hi. split; [intros (H0 & H1 & H2)|by apply stm_oob].
  assert (Ht : total (INSN_STM_RRRI f mo a)); [|apply Ht].
  destruct Ha as (Hha & Hhb & Hhc & Hhd).
  unfold INSN_STM_RRRI. total_tac. apply stm_loop_total; unfold loop_fuel; lia.
Qed.
Lemma r2r_safe_body move :
  (forall b c, 0 <= b < 64 -> 0 <= c < 64 -> total (move b c)) -> move_oob move ->
  r2r_safe (r2r_body move).
Proof.
  intros Hm Ho a c l ops Ha Hi. split; [intros [Hb Hc]|by apply r2r_body_oob].
  by apply r2r_body_total.
Qed.

Lemma safe_ldstm : Forall safe_entry trans_ldstm.
Proof.
  assert (H : Forall (fun e => ldm_safe e.2) trans_ldstm).
  { unfold trans_ldstm. repeat apply Forall_cons_2; try apply Forall_nil_2; cbn [snd];
      lazymatch goal with
      | |- ldm_safe (INSN_LDM_RRRI _ _) => apply ldm_safe_ldm
      | |- _ => apply ldm_safe_stm
      end. }
  rewrite Forall_forall in *. intros e He a c l ops Ha Hi. unfold range_cond.
  rewrite bool_decide_eq_true_2 by (apply list_elem_of_In, in_map, list_elem_of_In, He).
  by apply H.
Qed.
Lemma safe_r2r d :
  Forall (fun e => e.1 ∉ map fst trans_ldstm /\ e.1 ∈ map fst (trans_moves ++ trans_fcvt)%list) d ->
  Forall (fun e => r2r_safe e.2) d -> Forall safe_entry d.
Proof.
  rewrite !Forall_forall. intros Hn H e He a c l ops Ha Hi. unfold range_cond.
  destruct (Hn e He) as [H1 H2]. rewrite bool_decide_eq_false_2, bool_decide_eq_true_2 by done.
  by apply H.
Qed.

Ltac names := apply (bool_decide_unpack _); vm_compute; done.
Lemma safe_moves : Forall safe_entry trans_moves.
Proof.
  apply safe_r2r; [names|]. unfold trans_moves, trans_assign. cbn [take].
  repeat apply Forall_cons_2; try apply Forall_nil_2; cbn [snd]; apply r2r_safe_body;
    (apply r2r_move_total || apply r2r_move_oob).
Qed.
Lemma safe_fcvt : Forall safe_entry trans_fcvt.
Proof.
  apply safe_r2r; [names|]. unfold trans_fcvt.
  repeat apply Forall_cons_2; try apply Forall_nil_2; cbn [snd]; apply r2r_safe_body;
    (apply fcvt_move_total || apply fcvt_move_oob).
Qed.

Lemma safe_table : Forall safe_entry trans_table.
Proof.
  unfold trans_table. repeat (apply Forall_app_2).
  - apply safe_totals; [apply totals_ldst|names].
  - apply safe_ldstm.
  - rewrite <- (take_drop 9 trans_assign). apply Forall_app_2; [apply safe_moves|].
    apply safe_totals; [apply totals_assign|names].
  - apply safe_totals; [apply totals_arith|names].
  - apply safe_totals; [apply totals_logic|names].
  - apply safe_totals; [apply totals_control|names].
  - apply safe_fcvt.
  - apply safe_totals; [apply totals_falg|names].
  - apply safe_totals; [apply totals_system|names].
Qed.
