(* ===== verification/IsaProps.v ===== *)
(** The theorems on the emulator's instruction set. *)
From S2P Require Import Prelude Opcodes Cpu Tcg Translate Run RefBackend IsaArith IsaMove.
From S2P Require Import IsaMem IsaControl IsaSys Frame Decode Step Isa Total RetStack.
Local Open Scope string_scope.
Local Open Scope Z_scope.

(** A CPU with distinguishable registers, for the witnesses. *)
Definition demo_env : CPUDADAOState :=
  set_file RD (map Z.of_nat (seq 0 64)) (set_file RA (replicate 64 0)
    (set_file RB (map (fun i => 0x1000 + 8 * Z.of_nat i) (seq 0 64)) zero_env)).
Lemma demo_wf : wf_env demo_env.
Proof. by intros []. Qed.
Lemma demo_u64 : u64_env demo_env.
Proof.
  intros f i. unfold reg, zlookup.
  assert (H : Forall (fun v => 0 <= v < 2^64) (file f demo_env))
    by (destruct f; apply (bool_decide_unpack _); vm_compute; done).
  destruct (0 <=? i); [|cbn; lia].
  destruct (file f demo_env !! Z.to_nat i) as [v|] eqn:E; [|cbn; lia].
  rewrite Forall_forall in H. apply (H v). by eapply list_elem_of_lookup_2.
Qed.

Section Props.
Context {M : Type} (B : backend M) (L : tcg_laws B).
Variable helper : string -> CPUDADAOState -> list Z -> Z * CPUDADAOState.
Variable disas : Z -> gen bool.
Hypothesis Hdisas : decodetree_laws disas.

(** C1: Every word of an arithmetic, logic, compare, conditional-set or
    immediate-set instruction, run from any CPU state with 64-bit registers,
    leaves exactly the state its specification gives and continues at the
    next word. *)
Theorem alu_refines : Forall (step_implements B helper disas) isa_alu_specs.
Proof. by apply alu_implemented. Qed.

(** C2: Every single and multiple load and store accesses the addresses of
    its specification in order, writes or reads the named registers, skips
    the read-only register 0, and on a fault keeps what was done before. *)
Theorem memory_refines : Forall (step_implements B helper disas) (isa_memory B).
Proof. by apply memory_implemented. Qed.

(** C3: A register-to-register move of n registers is a simultaneous copy:
    whatever the overlap, every target gets the value its source had before. *)
Theorem moves_refine : Forall (step_implements B helper disas) isa_moves.
Proof. by apply moves_implemented. Qed.

(** C4: For all operands, division raises the arithmetic exception exactly
    when the divisor is zero, leaving the registers; otherwise it stores the
    remainder and the truncated quotient.  The signed division of - 2^63 by
    -1 is no exception: the generator does not single it out, and what TCG's
    division and remainder give for it, undefined in TCG, is stored. *)
Theorem division_refines : Forall (step_implements B helper disas) (isa_division B).
Proof. by apply division_implemented. Qed.

(** C5: Branches go to pc + 4 * offset when their condition holds and to
    pc + 4 otherwise; jumps, calls and returns go where their
    specifications say, pushing and popping the return-address stack. *)
Theorem control_refines : Forall (step_implements B helper disas) (isa_control B).
Proof. by apply control_implemented. Qed.

(** A floating-point instruction calls its helper on the right operands
    and stores the result in the right register; root and logarithm reject
    every immediate but 2. *)
Theorem float_refines : Forall (step_implements B helper disas) (isa_float helper).
Proof. by apply float_implemented. Qed.

(** TRAP raises the trap exception, the unimplemented coprocessor
    instructions are illegal, and the load-reserved and store-conditional
    pair stores exactly when the reservation is held and the memory unchanged. *)
Theorem system_refines : Forall (step_implements B helper disas) (isa_system B).
Proof. by apply system_implemented. Qed.

(** A word that belongs to no pattern of insns.decode raises the
    illegal-instruction exception with the program counter at that word. *)
Theorem undefined_illegal goto_tb pc insn env mem :
  decode insn = None -> wf_env env ->
  step B helper disas goto_tb pc insn env mem = Some (illegal pc (prologue env) mem).
Proof. intros. by apply step_undefined. Qed.
End Props.

(** The specifications cover the instruction set: the instructions they
    name are exactly the patterns of insns.decode, each once. *)
Theorem isa_covers M (B : backend M) helper :
  map sp_name (isa B helper) ≡ₚ map p_name insns_decode /\ NoDup (map p_name insns_decode).
Proof.
  split; [|apply (bool_decide_unpack _); vm_compute; done].
  unfold isa, isa_alu_specs. rewrite !map_app, map_map. cbn [sp_name sp_alu].
  apply (bool_decide_unpack _). vm_compute. done.
Qed.

(** No word belongs to two patterns, so decoding is unambiguous, and the
    fields of a decoded word are in their ranges. *)
Theorem decode_unambiguous p q insn :
  p ∈ insns_decode -> q ∈ insns_decode -> matches p insn = true -> matches q insn = true ->
  p = q /\ args_ok (pattern_args p insn).
Proof. intros. split; [by apply (disjoint_match p q insn) | by apply pattern_args_ok]. Qed.

(** C6: Translating a decoded word never runs out of fuel; it indexes outside
    the register arrays exactly when a multiple-register instruction names
    registers beyond 63 or a count of 0 (the range check of the source emits
    the exception but does not leave the loop out). *)
Theorem translate_safe p insn g c l ops :
  p ∈ insns_decode -> assoc (p_name p) trans_table = Some g ->
  let a := pattern_args p insn in
  if decide (range_cond (p_name p) a)
  then exists ok s, g a (GSt c 0 l ops) = GOk ok s
  else g a (GSt c 0 l ops) = GOob.
Proof.
  intros Hp Hg a. destruct (pattern_args_ok p insn Hp) as [Hf (_ & Hi & _)].
  apply assoc_elem in Hg.
  destruct (proj1 (Forall_forall _ _) safe_table _ Hg a c l ops Hf Hi) as [H1 H2].
  destruct (decide _); auto.
Qed.

(** ** Calls and returns, from the word on *)

(** What a call and a return leave alone: all but the return-address
    registers and the program counter. *)
Definition link_kept (env env' : CPUDADAOState) : Prop :=
  forall f j, f <> RA -> (f, j) <> (RB, 0) -> reg f j env' = reg f j env.
Lemma link_kept_set_PC v env env1 :
  (forall f, f <> RA -> file f env1 = file f env) -> link_kept env (set_PC v env1).
Proof.
  intros Hk f j Hf Hj. rewrite <- (reg_other_file f j env env1) by (by apply Hk).
  destruct (decide (0 <= j)).
  - unfold set_PC. apply reg_set_reg_ne. destruct (decide (f = RB)) as [->|]; [|left; congruence].
    right. intros E. apply Hj. by rewrite <- E.
  - unfold reg, zlookup. by destruct (Z.leb_spec 0 j).
Qed.
(** Where a call goes: the sum of two registers, or a distance. *)
Definition call_dest (n : string) (pc : Z) (a : args) (env : CPUDADAOState) : Z :=
  if (n =? "CALLr")%string then w64 (reg RB (ha a) env + reg RD (hb a) env + 4 * imms12 a)
  else jump_dest pc a.

Section Links.
Context {M : Type} (B : backend M) (L : tcg_laws B).
Variable helper : string -> CPUDADAOState -> list Z -> Z * CPUDADAOState.
Variable disas : Z -> gen bool.
Hypothesis Hdisas : decodetree_laws disas.
Variable goto_tb : Z -> bool.

Lemma link_step sp p pc w env mem :
  sp ∈ isa_control B -> decode w = Some p -> p_name p = sp_name sp ->
  0 <= pc < 2^64 -> wf_env env -> u64_env env -> sp_pre sp pc (pattern_args p w) (prologue env) ->
  step B helper disas goto_tb pc w env mem = Some (sp_sem sp pc (pattern_args p w) (prologue env) mem).
Proof.
  intros Hsp [Hp Hm]%decode_some Hn Hpc Hwf Hu Hpre.
  pose proof (control_implemented B L helper disas Hdisas) as Hall. rewrite Forall_forall in Hall.
  destruct (Hall sp Hsp) as (q & Hq & Hqn & Hstep).
  assert (q = p) as -> by (apply pattern_by_name; congruence). by apply Hstep.
Qed.

(** The state a link instruction leaves: the stack moved, the rest kept. *)
Lemma link_leaves k v env env1 mem1 stk :
  holds B k env1 mem1 stk -> (forall f, f <> RA -> file f env1 = file f env) ->
  holds B k (set_PC v env1) mem1 stk /\ REG_PC (set_PC v env1) = v /\ link_kept env (set_PC v env1).
Proof.
  intros Hh Hk. pose proof (h_wf _ _ _ _ _ Hh) as Hw. split; [|split; [|by apply link_kept_set_PC]].
  - eapply holds_same; [| |exact Hh]; [unfold set_PC; eauto with cpu|].
    unfold set_PC, set_reg. by rewrite file_set_file_ne.
  - unfold REG_PC, set_PC. by apply reg_set_reg_eq.
Qed.

Lemma call_pushes writable (O : octa_mem B writable) k pc w p env mem stk :
  decode w = Some p -> (p_name p = "CALLi" /\ pc mod 4 = 0 \/ p_name p = "CALLr") ->
  0 <= pc < 2^64 -> u64_env env -> holds B k env mem stk -> 0 < w64 (pc + 4) -> (k = 63%nat -> room writable env) ->
  exists env1 mem1 k1, step B helper disas goto_tb pc w env mem = Some (RExit env1 mem1) /\
    holds B k1 env1 mem1 (w64 (pc + 4) :: stk) /\
    REG_PC env1 = call_dest (p_name p) pc (pattern_args p w) (prologue env) /\ link_kept (prologue env) env1.
Proof.
  intros Hd Hn Hpc Hu Hh Hret Hroom. pose proof (h_wf _ _ _ _ _ Hh) as Hwf.
  pose proof (wf_prologue _ Hwf) as Hwp. pose proof (u64_prologue _ Hwf Hu) as Hup.
  assert (Hh' : holds B k (prologue env) mem stk) by (apply (holds_same B k env); [done|apply file_prologue_ra|done]).
  destruct (push_holds B writable O k pc _ mem stk Hh' Hup Hret) as (env1 & mem1 & k1 & Hpush & Hh1).
  { intros Hk. destruct (Hroom Hk) as [R1 R2]. unfold room, reg in *. by rewrite file_prologue_ra. }
  assert (Hk : forall f, f <> RA -> file f env1 = file f (prologue env)) by (intros f Hf; by eapply push_keeps).
  destruct Hn as [[Hn Hal]|Hn]; eexists _, mem1, k1.
  - rewrite (link_step (Spec "CALLi" aligned (fun pc a env mem => jump_to (jump_dest pc a) (spec_push B pc env mem))) p)
      by (done || unfold isa_control; repeat first [left | right]).
    cbn [sp_sem]. rewrite Hpush, Hn. cbn [jump_to]. split; [reflexivity|]. by apply link_leaves.
  - rewrite (link_step (Spec "CALLr" any (fun pc a env mem =>
      jump (bind_result (spec_push B pc env mem) (fun env mem => RFall (spec_jumpr a env) mem)))) p)
      by (done || unfold isa_control; repeat first [left | right]).
    cbn [sp_sem]. rewrite Hpush, Hn. cbn [bind_result jump]. unfold spec_jumpr at 1. rewrite jmp_pc_set.
    split; [reflexivity|]. unfold reg. rewrite !Hk by done. apply link_leaves.
    + eapply holds_same; [| |exact Hh1]; [unfold spec_jumpr; pose proof (h_wf _ _ _ _ _ Hh1); eauto with cpu|].
      unfold spec_jumpr. by rewrite file_set_jmp_pc.
    + intros f Hf. unfold spec_jumpr. rewrite file_set_jmp_pc. by apply Hk.
Qed.

Lemma ret_pops k pc w p env mem dest stk :
  decode w = Some p -> p_name p = "RET" -> 0 <= pc < 2^64 -> u64_env env ->
  holds B k env mem (dest :: stk) -> reg RA 0 env + 8 < 2^64 ->
  exists env1 k1, step B helper disas goto_tb pc w env mem = Some (RExit env1 mem) /\
    holds B k1 env1 mem stk /\ REG_PC env1 = dest /\
    link_kept (write RD (ha (pattern_args p w)) (w64 (imms18 (pattern_args p w))) (prologue env)) env1.
Proof.
  intros Hd Hn Hpc Hu Hh Htop. pose proof (h_wf _ _ _ _ _ Hh) as Hwf.
  pose proof (wf_prologue _ Hwf) as Hwp. pose proof (u64_prologue _ Hwf Hu) as Hup.
  set (e := write RD _ _ _).
  assert (Hra : file RA e = file RA env).
  { unfold e, write. case_match; unfold prologue, set_reg; by rewrite !file_set_file_ne by done. }
  assert (Hwe : wf_env e) by (unfold e, write; case_match; eauto with cpu).
  assert (Hue : u64_env e) by (unfold e, write; case_match; [done|]; apply u64_set_reg; [done|apply w64_range]).
  destruct (pop_holds B k e mem dest stk) as (e1 & k1 & Hpop & Hj & Hh1); [by eapply holds_same|done| |].
  { unfold reg in *. by rewrite Hra. }
  exists (set_PC dest e1), k1.
  rewrite (link_step (Spec "RET" any (fun pc a env mem => jump (spec_ret B a env mem))) p)
    by (done || unfold isa_control; repeat first [left | right]).
  cbn [sp_sem]. unfold spec_ret. fold e. rewrite Hpop. cbn [jump]. rewrite Hj. split; [reflexivity|].
  apply link_leaves; [done|]. intros f Hf. by eapply pop_keeps.
Qed.

(** C7: The translated calls and returns refine push and pop on a list of
    return addresses.  Running the word of a call (by a distance or through
    registers) in a state that holds the list leaves one that holds the
    address behind the call on top of it, spilling the oldest register to
    memory when all 63 are in use; running the word of a return leaves one
    that holds the rest of the list, at the address that was on top. *)
Theorem ret_stack_refines writable k pc w p env mem stk :
  octa_mem B writable -> decode w = Some p -> 0 <= pc < 2^64 -> pc mod 4 = 0 -> u64_env env ->
  holds B k env mem stk ->
  (p_name p = "CALLi" \/ p_name p = "CALLr" -> 0 < w64 (pc + 4) -> (k = 63%nat -> room writable env) ->
   exists env' mem' k', step B helper disas goto_tb pc w env mem = Some (RExit env' mem') /\
     REG_PC env' = call_dest (p_name p) pc (pattern_args p w) (prologue env) /\
     holds B k' env' mem' (w64 (pc + 4) :: stk)) /\
  (p_name p = "RET" -> forall dest stk', stk = dest :: stk' -> reg RA 0 env + 8 < 2^64 ->
   exists env' k', step B helper disas goto_tb pc w env mem = Some (RExit env' mem) /\
     REG_PC env' = dest /\ holds B k' env' mem stk').
Proof.
  intros O Hd Hpc Hal Hu Hh. split.
  - intros Hn Hret Hroom.
    destruct (call_pushes writable O k pc w p env mem stk Hd) as (e & m & k1 & H1 & H2 & H3 & _); try done; [tauto|].
    by exists e, m, k1.
  - intros Hn dest stk' -> Htop.
    destruct (ret_pops k pc w p env mem dest stk' Hd Hn Hpc Hu Hh Htop) as (e & k1 & H1 & H2 & H3 & _).
    by exists e, k1.
Qed.
End Links.

(** ** Witnesses: the theorems on the reference backend and decoder *)
Abbreviation ref_implemented := (step_implements ref_backend no_helper decode_ref).

Lemma alu_refines_witness : Forall ref_implemented isa_alu_specs.
Proof. apply (alu_refines ref_backend ref_laws no_helper decode_ref decode_ref_laws). Defined.
Lemma memory_refines_witness : Forall ref_implemented (isa_memory ref_backend).
Proof. apply (memory_refines ref_backend ref_laws no_helper decode_ref decode_ref_laws). Defined.
Lemma moves_refine_witness : Forall ref_implemented isa_moves.
Proof. apply (moves_refine ref_backend ref_laws no_helper decode_ref decode_ref_laws). Defined.
Lemma division_refines_witness : Forall ref_implemented (isa_division ref_backend).
Proof. apply (division_refines ref_backend ref_laws no_helper decode_ref decode_ref_laws). Defined.
Lemma control_refines_witness : Forall ref_implemented (isa_control ref_backend).
Proof. apply (control_refines ref_backend ref_laws no_helper decode_ref decode_ref_laws). Defined.
Lemma float_refines_witness : Forall ref_implemented (isa_float no_helper).
Proof. apply (float_refines ref_backend ref_laws no_helper decode_ref decode_ref_laws). Defined.
Lemma system_refines_witness : Forall ref_implemented (isa_system ref_backend).
Proof. apply (system_refines ref_backend ref_laws no_helper decode_ref decode_ref_laws). Defined.

(** 0xFFFFFFFF is no instruction. *)
Lemma undefined_illegal_witness :
  step ref_backend no_helper decode_ref (fun _ => true) 0x1000 0xFFFFFFFF demo_env ∅
  = Some (illegal 0x1000 (prologue demo_env) ∅).
Proof.
  apply (undefined_illegal ref_backend ref_laws no_helper decode_ref decode_ref_laws).
  - vm_compute. reflexivity.
  - apply demo_wf.
Defined.

Definition pat (n : string) : pattern := default (Pattern "" "" []) (find_pattern n).
(** addi rd1, rd2, -1 *)
Definition addi_word : Z := p_match (pat "ADDIrd") + 1 * 2^18 + 2 * 2^12 + (2^12 - 1).
Lemma decode_unambiguous_witness :
  decode addi_word = Some (pat "ADDIrd") /\ pat "ADDIrd" = pat "ADDIrd" /\
  args_ok (pattern_args (pat "ADDIrd") addi_word).
Proof.
  split; [vm_compute; reflexivity|].
  apply (decode_unambiguous _ _ addi_word);
    apply (decode_some addi_word (pat "ADDIrd")); vm_compute; reflexivity.
Defined.

(** rd2rd with a count of zero: the translator leaves its arrays. *)
Definition rd2rd_word : Z := p_match (pat "RD2RD") + 3 * 2^12 + 5 * 2^6.
Lemma translate_safe_witness :
  INSN_R2R_ORRI RD RD (pattern_args (pat "RD2RD") rd2rd_word) (GSt (ctx_at 0) 0 0 []) = GOob.
Proof.
  apply (translate_safe (pat "RD2RD") rd2rd_word (INSN_R2R_ORRI RD RD)).
  - apply (decode_some rd2rd_word). vm_compute. reflexivity.
  - reflexivity.
Defined.

(** An empty stack with a spill area at 0x1000: a call, and a return of it. *)
Definition stack_env : CPUDADAOState := set_reg RA 0 0x1000 zero_env.
Lemma stack_u64 : u64_env stack_env.
Proof.
  intros f i. unfold reg, zlookup.
  assert (H : Forall (fun v => 0 <= v < 2^64) (file f stack_env))
    by (destruct f; apply (bool_decide_unpack _); vm_compute; done).
  destruct (0 <=? i); [|cbn; lia].
  destruct (file f stack_env !! Z.to_nat i) as [v|] eqn:E; [|cbn; lia].
  rewrite Forall_forall in H. apply (H v). by eapply list_elem_of_lookup_2.
Qed.
Lemma stack_holds : holds ref_backend 0 stack_env ∅ [].
Proof.
  split; try done; try (cbn; lia).
  - by intros [].
  - intros i Hi. do 63 (destruct i as [|i]; [reflexivity|]). lia.
Qed.
(** The state inside a call from 0x400. *)
Definition called_env : CPUDADAOState := set_reg RA 63 0x404 stack_env.
Lemma called_holds : holds ref_backend 1 called_env ∅ [0x404].
Proof.
  split; try done; try (cbn; lia).
  - by intros [].
  - apply Forall_singleton. lia.
  - intros [|i] Hi; [reflexivity|lia].
  - intros i Hi. do 63 (destruct i as [|i]; [lia || reflexivity|]). lia.
Qed.

(** A call of 16 words on at 0x400; a return at 0x500 with 0x404 on the stack. *)
Definition call_word_demo : Z := p_match (pat "CALLi") + 16.
Definition ret_word_demo : Z := p_match (pat "RET").
Lemma ret_stack_refines_witness :
  (exists env' mem' k', step ref_backend no_helper decode_ref (fun _ => true) 0x400 call_word_demo stack_env ∅
     = Some (RExit env' mem') /\ REG_PC env' = 0x440 /\ holds ref_backend k' env' mem' [0x404]) /\
  exists env' k', step ref_backend no_helper decode_ref (fun _ => true) 0x500 ret_word_demo called_env ∅
    = Some (RExit env' ∅) /\ REG_PC env' = 0x404 /\ holds ref_backend k' env' ∅ [].
Proof.
  split.
  - destruct (ret_stack_refines ref_backend ref_laws no_helper decode_ref decode_ref_laws (fun _ => true)
      ref_writable 0 0x400 call_word_demo (pat "CALLi") stack_env ∅ []) as [H _].
    + apply ref_octa.
    + vm_compute. reflexivity.
    + lia.
    + reflexivity.
    + apply stack_u64.
    + apply stack_holds.
    + destruct H as (env' & mem' & k' & H1 & H2 & H3).
      * by left.
      * vm_compute. reflexivity.
      * discriminate.
      * exists env', mem', k'. split; [exact H1|]. split; [|exact H3].
        rewrite H2. vm_compute. reflexivity.
  - destruct (ret_stack_refines ref_backend ref_laws no_helper decode_ref decode_ref_laws (fun _ => true)
      ref_writable 1 0x500 ret_word_demo (pat "RET") called_env ∅ [0x404]) as [_ H].
    + apply ref_octa.
    + vm_compute. reflexivity.
    + lia.
    + reflexivity.
    + apply u64_set_reg; [apply stack_u64|lia].
    + apply called_holds.
    + apply H; [reflexivity|reflexivity|]. vm_compute. reflexivity.
Defined.
