(* ===== verification/Fpu.v ===== *)
(** The floating-point helpers, target/dadao/helper-fpu.c.

    The arithmetic is QEMU's softfloat, a parameter ([softfloat]) of the
    model; the helpers convert the operands, move the rounding mode and the
    flags between register rf0 and the softfloat status, and classify. *)
From S2P Require Import Prelude Cpu.
Local Open Scope string_scope.
Local Open Scope Z_scope.

Inductive FloatRelation :=
  | float_relation_less | float_relation_equal
  | float_relation_greater | float_relation_unordered.

(** A float32 or a float64 is its bit pattern. *)
Record softfloat := SoftFloat {
  float_round_nearest_even : Z; float_round_to_zero : Z;
  float_round_down : Z; float_round_up : Z;
  (** float32_to_float64, float32_add, float32_muladd, ... by name *)
  sf_op : string -> list Z -> float_status -> Z * float_status;
  sf_compare : string -> Z -> Z -> float_status -> FloatRelation * float_status;
  float32_is_neg : Z -> bool; float32_is_infinity : Z -> bool; float32_is_zero : Z -> bool;
  float32_is_zero_or_denormal : Z -> bool; float32_is_any_nan : Z -> bool;
  float32_is_quiet_nan : Z -> float_status -> bool; float32_set_sign : Z -> Z -> Z;
  float64_is_neg : Z -> bool; float64_is_infinity : Z -> bool; float64_is_zero : Z -> bool;
  float64_is_zero_or_denormal : Z -> bool; float64_is_any_nan : Z -> bool;
  float64_is_quiet_nan : Z -> float_status -> bool; float64_set_sign : Z -> Z -> Z }.

Section Fpu.
Variable SF : softfloat.

(** dadao_fpu_head: the saved rf0 and the state with the status set up. *)
Definition dadao_fpu_head (env : CPUDADAOState) : Z * CPUDADAOState :=
  let rf0_fcsr := reg RF 0 env in
  let m := Z.land (Z.shiftr (reg RF 0 env) 16) 0x3 in
  let softrm :=
    if m =? 0 then float_round_nearest_even SF
    else if m =? 1 then float_round_to_zero SF
    else if m =? 2 then float_round_down SF
    else float_round_up SF in
  (rf0_fcsr, set_fp m (FloatStatus softrm (Z.land (reg RF 0 env) 0x1F)) env).

Definition dadao_fpu_tail (rf0_fcsr : Z) (env : CPUDADAOState) : CPUDADAOState :=
  let soft := float_exception_flags (fp_status env) in
  set_reg RF 0 (Z.lor rf0_fcsr (Z.land soft 0x1F)) env.

(** The body FCVT_s1d1, FALG_s2d1, FALG_s3d1 and FALG_s1d1 share: [carg]
    converts the 64-bit arguments to the parameter type of the softfloat
    function, [cret] its result to uint64_t. *)
Definition fp_call (carg : Z -> Z) (cret : Z -> Z) (func : string) (args extra : list Z)
    (env : CPUDADAOState) : Z * CPUDADAOState :=
  let '(rf0_fcsr, env) := dadao_fpu_head env in
  let '(ret, st) := sf_op SF func (map carg args ++ extra) (fp_status env) in
  (cret ret, dadao_fpu_tail rf0_fcsr (set_fp (frm env) st env)).

Definition shl1 (k : Z) : Z := Z.shiftl 1 k.
Definition no_status : float_status := FloatStatus 0 0.

Definition helper_ftcls (arg1 : Z) : Z :=
  let f := w32 arg1 in
  let sign := float32_is_neg SF f in
  if float32_is_infinity SF f then if sign then shl1 0 else shl1 7
  else if float32_is_zero SF f then if sign then shl1 3 else shl1 4
  else if float32_is_zero_or_denormal SF f then if sign then shl1 2 else shl1 5
  else if float32_is_any_nan SF f then
    if float32_is_quiet_nan SF f no_status then shl1 9 else shl1 8
  else if sign then shl1 1 else shl1 6.

Definition helper_focls (arg1 : Z) : Z :=
  let f := arg1 in
  let sign := float64_is_neg SF f in
  if float64_is_infinity SF f then if sign then shl1 0 else shl1 7
  else if float64_is_zero SF f then if sign then shl1 3 else shl1 4
  else if float64_is_zero_or_denormal SF f then if sign then shl1 2 else shl1 5
  else if float64_is_any_nan SF f then
    if float64_is_quiet_nan SF f no_status then shl1 9 else shl1 8
  else if sign then shl1 1 else shl1 6.

(** FSGN_s2d1 *)
Definition helper_ftsgnj (arg1 arg2 : Z) : Z := w32 (float32_set_sign SF (w32 arg1) (Z.shiftr arg2 31)).
Definition helper_ftsgnn (arg1 arg2 : Z) : Z :=
  w32 (float32_set_sign SF (w32 arg1) (Z.lxor (Z.shiftr arg2 31) 1)).
Definition helper_fosgnj (arg1 arg2 : Z) : Z := float64_set_sign SF arg1 (Z.shiftr arg2 63).
Definition helper_fosgnn (arg1 arg2 : Z) : Z :=
  float64_set_sign SF arg1 (Z.lxor (Z.shiftr arg2 63) 1).

(** FCMP_real *)
Definition fcmp_real (carg : Z -> Z) (cmpfunc : string) (nanval : Z) (arg1 arg2 : Z)
    (env : CPUDADAOState) : Z * CPUDADAOState :=
  let '(rf0_fcsr, env) := dadao_fpu_head env in
  let '(result, st) := sf_compare SF cmpfunc (carg arg1) (carg arg2) (fp_status env) in
  let env := dadao_fpu_tail rf0_fcsr (set_fp (frm env) st env) in
  (match result with
   | float_relation_greater => 1
   | float_relation_equal => 0
   | float_relation_less => w64 (-1)
   | float_relation_unordered => nanval
   end, env).

(** ** The helpers by name, with their number of arguments *)
Definition helper_fn : Type := nat * (list Z -> CPUDADAOState -> Z * CPUDADAOState).
Definition i32_ret (r : Z) : Z := w64 (s32 r).

Definition fcvt_helpers : list (string * helper_fn) :=
  let f n carg cret func : string * helper_fn :=
    (n, (1%nat, fun args => fp_call carg cret func args [])) in
  [f "ft2fo" w32 w64 "float32_to_float64"; f "fo2ft" w64 w32 "float64_to_float32";
   f "ft2it" w32 i32_ret "float32_to_int32"; f "ft2io" w32 w64 "float32_to_int64";
   f "ft2ut" w32 w32 "float32_to_uint32"; f "ft2uo" w32 w64 "float32_to_uint64";
   f "it2ft" s32 w32 "int32_to_float32"; f "io2ft" s64 w32 "int64_to_float32";
   f "ut2ft" w32 w32 "uint32_to_float32"; f "uo2ft" w64 w32 "uint64_to_float32";
   f "fo2it" w64 i32_ret "float64_to_int32"; f "fo2io" w64 w64 "float64_to_int64";
   f "fo2ut" w64 w32 "float64_to_uint32"; f "fo2uo" w64 w64 "float64_to_uint64";
   f "it2fo" s32 w64 "int32_to_float64"; f "io2fo" s64 w64 "int64_to_float64";
   f "ut2fo" w32 w64 "uint32_to_float64"; f "uo2fo" w64 w64 "uint64_to_float64"].

Definition falg_helpers : list (string * helper_fn) :=
  let f32 n k func extra : string * helper_fn :=
    (n, (k, fun args => fp_call w32 w32 func args extra)) in
  let f64 n k func extra : string * helper_fn :=
    (n, (k, fun args => fp_call w64 w64 func args extra)) in
  [f32 "ftadd" 2%nat "float32_add" []; f32 "ftsub" 2%nat "float32_sub" [];
   f32 "ftmul" 2%nat "float32_mul" []; f32 "ftdiv" 2%nat "float32_div" [];
   f32 "ftrem" 2%nat "float32_rem" [];
   f64 "foadd" 2%nat "float64_add" []; f64 "fosub" 2%nat "float64_sub" [];
   f64 "fomul" 2%nat "float64_mul" []; f64 "fodiv" 2%nat "float64_div" [];
   f64 "forem" 2%nat "float64_rem" [];
   f32 "ftmadd" 3%nat "float32_muladd" [0]; f64 "fomadd" 3%nat "float64_muladd" [0];
   f32 "ftroot" 1%nat "float32_sqrt" []; f64 "foroot" 1%nat "float64_sqrt" [];
   f32 "ftlog" 1%nat "float32_log2" []; f64 "folog" 1%nat "float64_log2" []].

Definition fcmp_helpers : list (string * helper_fn) :=
  let f n carg func nanval : string * helper_fn :=
    (n, (2%nat, fun args env =>
       match args with [x; y] => fcmp_real carg func nanval x y env | _ => (0, env) end)) in
  [f "ftqcmp" w32 "float32_compare_quiet" DDAEE_FLOAT_TETRA_QNAN;
   f "ftscmp" w32 "float32_compare" DDAEE_FLOAT_TETRA_SNAN;
   f "foqcmp" w64 "float64_compare_quiet" DDAEE_FLOAT_OCTA_QNAN;
   f "foscmp" w64 "float64_compare" DDAEE_FLOAT_OCTA_SNAN].

(** The helpers that leave the state alone. *)
Definition fpure_helpers : list (string * helper_fn) :=
  let f1 n (g : Z -> Z) : string * helper_fn :=
    (n, (1%nat, fun args env => match args with [x] => (g x, env) | _ => (0, env) end)) in
  let f2 n (g : Z -> Z -> Z) : string * helper_fn :=
    (n, (2%nat, fun args env => match args with [x; y] => (g x y, env) | _ => (0, env) end)) in
  [f1 "ftcls" helper_ftcls; f1 "focls" helper_focls;
   f2 "ftsgnj" helper_ftsgnj; f2 "ftsgnn" helper_ftsgnn;
   f2 "fosgnj" helper_fosgnj; f2 "fosgnn" helper_fosgnn].

Definition fpu_helpers : list (string * helper_fn) :=
  (fcvt_helpers ++ falg_helpers ++ fcmp_helpers ++ fpure_helpers)%list.

(** The helper the emulator calls by name. *)
Definition fpu_helper (h : string) (env : CPUDADAOState) (args : list Z) : Z * CPUDADAOState :=
  match assoc h fpu_helpers with Some (_, f) => f args env | None => (0, env) end.
End Fpu.

(** ** The floating-point status register *)

(** What an instruction may do to the state: set accrued flags in rf0 and
    the softfloat status, nothing else. *)
Definition flags_only (env env' : CPUDADAOState) : Prop :=
  (exists fl, 0 <= fl < 32 /\ reg RF 0 env' = Z.lor (reg RF 0 env) fl) /\
  (forall f i, f <> RF \/ i <> 0 -> reg f i env' = reg f i env) /\
  jmp_pc env' = jmp_pc env /\ load_res env' = load_res env /\ load_val env' = load_val env /\
  cp0 env' = cp0 env /\ features env' = features env.

Lemma reg_set_fp f i m s env : reg f i (set_fp m s env) = reg f i env.
Proof. by destruct env, f. Qed.
Lemma land_1F x : 0 <= Z.land x 0x1F < 32.
Proof. rewrite (land_mask x 0x1F 5) by done. apply Z.mod_pos_bound. lia. Qed.

Section FpuLaws.
Variable SF : softfloat.

Lemma tail_flags_only env m1 s1 m2 s2 :
  wf_env env ->
  flags_only env (dadao_fpu_tail (reg RF 0 env) (set_fp m2 s2 (set_fp m1 s1 env))).
Proof.
  intros Hwf. unfold dadao_fpu_tail. set (e := set_fp m2 s2 (set_fp m1 s1 env)).
  assert (He : wf_env e) by (intros f; specialize (Hwf f); destruct env, f; done).
  split; [|split].
  - exists (Z.land (float_exception_flags (fp_status e)) 0x1F). split; [apply land_1F|].
    by rewrite reg_set_reg_eq.
  - intros f i H. rewrite reg_set_reg_ne by naive_solver. unfold e. by rewrite !reg_set_fp.
  - unfold e. by destruct env.
Qed.

Lemma fp_call_flags_only carg cret func xs extra env :
  wf_env env -> flags_only env (snd (fp_call SF carg cret func xs extra env)).
Proof.
  intros Hwf. unfold fp_call, dadao_fpu_head.
  destruct (sf_op _ _ _ _) as [r st]. cbn [snd]. by apply tail_flags_only.
Qed.
Lemma fcmp_flags_only carg func nanval x y env :
  wf_env env -> flags_only env (snd (fcmp_real SF carg func nanval x y env)).
Proof.
  intros Hwf. unfold fcmp_real, dadao_fpu_head.
  destruct (sf_compare _ _ _ _ _) as [r st]. cbn [snd]. by apply tail_flags_only.
Qed.
Lemma flags_only_refl env : flags_only env env.
Proof. split; [|done]. exists 0. split; [lia|]. by rewrite Z.lor_0_r. Qed.

Lemma helpers_flags_only :
  Forall (fun e => forall xs env, wf_env env -> flags_only env (snd (snd (snd e) xs env)))
    (fpu_helpers SF).
Proof.
  unfold fpu_helpers. repeat apply Forall_app_2.
  1-2: repeat apply Forall_cons_2; try apply Forall_nil_2; cbn [snd]; intros; by apply fp_call_flags_only.
  - repeat apply Forall_cons_2; try apply Forall_nil_2; cbn [snd]; intros xs env Hwf;
      (destruct xs as [|x [|y [|z xs]]]; try apply flags_only_refl); by apply fcmp_flags_only.
  - repeat apply Forall_cons_2; try apply Forall_nil_2; cbn [snd]; intros xs env Hwf;
      repeat case_match; apply flags_only_refl.
Qed.
End FpuLaws.

(** ** IEEE 754 encodings

    [eb] exponent bits and [mb] fraction bits; the class numbers are the bit
    positions the instruction set assigns to the ten classes. *)
Definition ieee_sign (eb mb f : Z) : bool := Z.testbit f (eb + mb).
Definition ieee_exp (eb mb f : Z) : Z := f / 2^mb mod 2^eb.
Definition ieee_frac (mb f : Z) : Z := f mod 2^mb.
Definition ieee_class (eb mb f : Z) : Z :=
  let s := ieee_sign eb mb f in
  if ieee_exp eb mb f =? 2^eb - 1 then
    if ieee_frac mb f =? 0 then (if s then 0 else 7)
    else if Z.testbit f (mb - 1) then 9 else 8
  else if ieee_exp eb mb f =? 0 then
    if ieee_frac mb f =? 0 then (if s then 3 else 4) else (if s then 2 else 5)
  else if s then 1 else 6.

(** What softfloat documents of its predicates on bit patterns. *)
Record softfloat_laws (SF : softfloat) : Prop := SoftFloatLaws {
  sf_neg32 : forall f, 0 <= f < 2^32 -> float32_is_neg SF f = Z.testbit f 31;
  sf_inf32 : forall f, 0 <= f < 2^32 -> float32_is_infinity SF f = (f mod 2^31 =? 0x7f800000);
  sf_zero32 : forall f, 0 <= f < 2^32 -> float32_is_zero SF f = (f mod 2^31 =? 0);
  sf_denormal32 : forall f, 0 <= f < 2^32 -> float32_is_zero_or_denormal SF f = (f mod 2^31 <? 2^23);
  sf_nan32 : forall f, 0 <= f < 2^32 -> float32_is_any_nan SF f = (0x7f800000 <? f mod 2^31);
  sf_qnan32 : forall f, 0 <= f < 2^32 -> float32_is_quiet_nan SF f no_status
    = ((0x7f800000 <? f mod 2^31) && Z.testbit f 22);
  sf_sign32 : forall f s, 0 <= f < 2^32 -> 0 <= s -> float32_set_sign SF f s = f mod 2^31 + (s mod 2) * 2^31;
  sf_neg64 : forall f, 0 <= f < 2^64 -> float64_is_neg SF f = Z.testbit f 63;
  sf_inf64 : forall f, 0 <= f < 2^64 -> float64_is_infinity SF f = (f mod 2^63 =? 0x7ff0000000000000);
  sf_zero64 : forall f, 0 <= f < 2^64 -> float64_is_zero SF f = (f mod 2^63 =? 0);
  sf_denormal64 : forall f, 0 <= f < 2^64 -> float64_is_zero_or_denormal SF f = (f mod 2^63 <? 2^52);
  sf_nan64 : forall f, 0 <= f < 2^64 -> float64_is_any_nan SF f = (0x7ff0000000000000 <? f mod 2^63);
  sf_qnan64 : forall f, 0 <= f < 2^64 -> float64_is_quiet_nan SF f no_status
    = ((0x7ff0000000000000 <? f mod 2^63) && Z.testbit f 51);
  sf_sign64 : forall f s, 0 <= f < 2^64 -> 0 <= s -> float64_set_sign SF f s = f mod 2^63 + (s mod 2) * 2^63 }.

(** The magnitude of a pattern determines exponent and fraction. *)
Lemma ieee_magnitude eb mb f : 0 < eb -> 0 < mb ->
  f mod 2^(eb + mb) = ieee_exp eb mb f * 2^mb + ieee_frac mb f /\
  0 <= ieee_exp eb mb f < 2^eb /\ 0 <= ieee_frac mb f < 2^mb.
Proof.
  intros He Hm. unfold ieee_exp, ieee_frac. split; [|split; apply Z.mod_pos_bound; lia].
  rewrite Z.add_comm, Z.pow_add_r by lia.
  rewrite Z.rem_mul_r by lia. lia.
Qed.

(** The decision tree of ftcls and focls, on the magnitude. *)
Definition class_tree (s : bool) (m inf den : Z) (q : bool) : Z :=
  if m =? inf then if s then shl1 0 else shl1 7
  else if m =? 0 then if s then shl1 3 else shl1 4
  else if m <? den then if s then shl1 2 else shl1 5
  else if inf <? m then if (inf <? m) && q then shl1 9 else shl1 8
  else if s then shl1 1 else shl1 6.
Lemma class_tree_spec eb mb f : 0 < eb -> 0 < mb ->
  class_tree (ieee_sign eb mb f) (f mod 2^(eb + mb)) ((2^eb - 1) * 2^mb) (2^mb) (Z.testbit f (mb - 1))
  = 2 ^ ieee_class eb mb f.
Proof.
  intros He Hm. destruct (ieee_magnitude eb mb f He Hm) as (-> & Hx & Hf).
  unfold class_tree, ieee_class. set (x := ieee_exp eb mb f) in *. set (r := ieee_frac mb f) in *.
  set (s := ieee_sign eb mb f). set (q := Z.testbit f (mb - 1)).
  assert (H2e : 1 < 2^eb) by (apply Z.pow_gt_1; lia).
  assert (H2m : 1 < 2^mb) by (apply Z.pow_gt_1; lia).
  destruct (Z.eqb_spec x (2^eb - 1)) as [Ex|Ex].
  - rewrite Ex. destruct (Z.eqb_spec r 0) as [Er|Er].
    + rewrite Er, Z.add_0_r, Z.eqb_refl. by destruct s.
    + rewrite (proj2 (Z.eqb_neq _ ((2^eb - 1) * 2^mb))), (proj2 (Z.eqb_neq _ 0)), (proj2 (Z.ltb_ge _ (2^mb))),
        (proj2 (Z.ltb_lt ((2^eb - 1) * 2^mb) _)) by nia. by destruct q.
  - rewrite (proj2 (Z.eqb_neq _ ((2^eb - 1) * 2^mb))) by nia.
    destruct (Z.eqb_spec x 0) as [E0|E0].
    + rewrite E0, Z.mul_0_l, Z.add_0_l. destruct (Z.eqb_spec r 0) as [Er|Er]; [by destruct s|].
      rewrite (proj2 (Z.ltb_lt _ (2^mb))) by lia. by destruct s.
    + rewrite (proj2 (Z.eqb_neq _ 0)), (proj2 (Z.ltb_ge _ (2^mb))), (proj2 (Z.ltb_ge ((2^eb - 1) * 2^mb) _)) by nia.
      by destruct s.
Qed.

Lemma set_sign_range k v s : 0 < k -> 0 <= v mod 2^k + (s mod 2) * 2^k < 2^(k + 1).
Proof.
  intros Hk. pose proof (Z.mod_pos_bound v (2^k)). pose proof (Z.mod_pos_bound s 2).
  rewrite Z.pow_add_r by lia. change (2^1) with 2. nia.
Qed.
Lemma lxor1_mod2 x : Z.lxor x 1 mod 2 = 1 - x mod 2.
Proof.
  rewrite <- !Z.bit0_mod, Z.lxor_spec. change (Z.testbit 1 0) with true. rewrite xorb_true_r.
  by destruct (Z.testbit x 0).
Qed.
Lemma bit_div x k : 0 <= k -> x / 2^k mod 2 = Z.b2z (Z.testbit x k).
Proof. intros Hk. by rewrite Z.testbit_spec' by done. Qed.

(** Ftcls and focls return a single bit, the one of the IEEE 754 class of
    their operand (infinities, normals, subnormals and zeros by sign, and the
    two kinds of NaN). *)
Theorem classify_spec SF x : softfloat_laws SF -> 0 <= x < 2^64 ->
  helper_ftcls SF x = 2 ^ ieee_class 8 23 (w32 x) /\
  helper_focls SF x = 2 ^ ieee_class 11 52 x.
Proof.
  intros S Hx. pose proof (w32_range x) as Hw. split.
  - rewrite <- class_tree_spec by lia. unfold helper_ftcls, class_tree.
    rewrite (sf_neg32 _ S), (sf_inf32 _ S), (sf_zero32 _ S), (sf_denormal32 _ S), (sf_nan32 _ S),
      (sf_qnan32 _ S) by done. done.
  - rewrite <- class_tree_spec by lia. unfold helper_focls, class_tree.
    rewrite (sf_neg64 _ S), (sf_inf64 _ S), (sf_zero64 _ S), (sf_denormal64 _ S), (sf_nan64 _ S),
      (sf_qnan64 _ S) by done. done.
Qed.

(** The sign-injection helpers keep the magnitude of the first operand
    and take the sign of the second, or its negation. *)
Theorem sign_injection SF x y : softfloat_laws SF -> 0 <= x < 2^64 -> 0 <= y < 2^64 ->
  helper_ftsgnj SF x y = x mod 2^31 + Z.b2z (Z.testbit y 31) * 2^31 /\
  helper_ftsgnn SF x y = x mod 2^31 + (1 - Z.b2z (Z.testbit y 31)) * 2^31 /\
  helper_fosgnj SF x y = x mod 2^63 + Z.b2z (Z.testbit y 63) * 2^63 /\
  helper_fosgnn SF x y = x mod 2^63 + (1 - Z.b2z (Z.testbit y 63)) * 2^63.
Proof.
  intros S Hx Hy. pose proof (w32_range x).
  unfold helper_ftsgnj, helper_ftsgnn, helper_fosgnj, helper_fosgnn.
  assert (Hs : forall k, 0 <= Z.shiftr y k) by (intros; apply Z.shiftr_nonneg; lia).
  assert (Hl : forall k, 0 <= Z.lxor (Z.shiftr y k) 1) by (intros; apply Z.lxor_nonneg; split; [lia|auto]).
  rewrite !(sf_sign32 _ S), !(sf_sign64 _ S) by auto.
  rewrite !lxor1_mod2, !Z.shiftr_div_pow2, !bit_div by lia.
  assert (Hm : w32 x mod 2^31 = x mod 2^31).
  { unfold w32. change (2^32) with (2^31 * 2). by rewrite Z.rem_mul_r, Z.mul_comm, Z_mod_plus_full, Z.mod_mod by lia. }
  rewrite Hm. pose proof (Z.mod_pos_bound x (2^31)).
  rewrite !w32_id by (destruct (Z.testbit y 31); cbn [Z.b2z]; lia). done.
Qed.

(** Every helper leaves the CPU as it was except for the accrued
    exception flags: rf0 gains flag bits and loses none, so flags are sticky
    and the rounding mode is kept. *)
Theorem fpu_helper_flags SF h xs env :
  wf_env env ->
  flags_only env (snd (fpu_helper SF h env xs)) /\
  Z.land (reg RF 0 (snd (fpu_helper SF h env xs))) (reg RF 0 env) = reg RF 0 env.
Proof.
  intros Hwf. assert (H : flags_only env (snd (fpu_helper SF h env xs))).
  { unfold fpu_helper. destruct (assoc h (fpu_helpers SF)) as [[k f]|] eqn:E; [|apply flags_only_refl].
    apply assoc_elem in E.
    exact (proj1 (Forall_forall _ _) (helpers_flags_only SF) _ E xs env Hwf). }
  split; [done|]. destruct H as [(fl & Hfl & ->) _].
  apply Z.bits_inj'. intros i Hi. rewrite Z.land_spec, Z.lor_spec.
  destruct (Z.testbit (reg RF 0 env) i); [done|]. apply andb_false_r.
Qed.
