(* ===== verification/Mmu.v ===== *)
(** System emulation: the page-table walk and the TLB fill of
    target/dadao/softmmu.c, and the control registers of helper.c.

    Physical memory is a parameter [ldl_phys].  QEMU's page protection bits
    are the record [prot]; its cpu_abort is [WAbort]. *)
From S2P Require Import Prelude Cpu.

Definition SUPERPAGE_SIZE : Z := Z.shiftl 1 22.
Definition DADAO_PAGETABLE_READ : Z := Z.shiftl 1 8.
Definition DADAO_PAGETABLE_WRITE : Z := Z.shiftl 1 7.
Definition DADAO_PAGETABLE_EXEC : Z := Z.shiftl 1 6.
Definition DADAO_PAGETABLE_EXIST : Z := Z.shiftl 1 2.
Definition PAGETABLE_TYPE (x : Z) : Z := Z.land x 3.
Definition TARGET_PAGE_SIZE : Z := Z.shiftl 1 TARGET_PAGE_BITS.
Definition TARGET_PAGE_MASK : Z := w64 (Z.shiftl (-1) TARGET_PAGE_BITS).
Definition MMU_USER_IDX : Z := 1.

(** PAGE_READ, PAGE_WRITE, PAGE_EXEC *)
Record prot := Prot { page_read : bool; page_write : bool; page_exec : bool }.

Inductive walk :=
  | WFault (code : Z)
  | WAbort
  | WMapped (phys : Z) (p : prot) (page_size : Z).

Definition flag (desc bit : Z) : bool := negb (Z.land desc bit =? 0).

Section Mmu.
Variable ldl_phys : Z -> Z.

(** The permission checks at the end of the walk. *)
Definition check_access (desc phys page_size access_type : Z) (is_user : bool) : walk :=
  let r := flag desc DADAO_PAGETABLE_READ in
  let w := flag desc DADAO_PAGETABLE_WRITE in
  let x := flag desc DADAO_PAGETABLE_EXEC in
  if negb r && (is_user && (access_type =? 0)) then WFault 0x11
  else if negb w && (is_user && (access_type =? 1)) then WFault 0x12
  else if negb x && (is_user && (access_type =? 2)) then WFault 0x13
  else WMapped phys (Prot r w x) page_size.

Definition get_phys_addr_dadao (env : CPUDADAOState) (address access_type : Z) (is_user : bool)
    : walk :=
  let table := Z.land (c2_base (cp0 env)) 0xfffff000 in
  let table := Z.lor table (Z.land (Z.shiftr address 20) 0xffc) in
  let desc := ldl_phys table in
  if PAGETABLE_TYPE desc =? 3 then
    if negb (flag desc DADAO_PAGETABLE_EXIST) then WFault 0x0b
    else check_access desc (Z.lor (Z.land desc 0xffc00000) (Z.land address 0x003fffff))
           SUPERPAGE_SIZE access_type is_user
  else if PAGETABLE_TYPE desc =? 0 then
    if negb (flag desc DADAO_PAGETABLE_EXIST) then WFault 0x05
    else
      let table := Z.lor (Z.land desc 0xfffff000) (Z.land (Z.shiftr address 10) 0xffc) in
      let desc := ldl_phys table in
      if negb (flag desc DADAO_PAGETABLE_EXIST) then WFault 0x08
      else if PAGETABLE_TYPE desc =? 0 then
        check_access desc (Z.lor (Z.land desc 0xfffff000) (Z.land address 0xfff))
          TARGET_PAGE_SIZE access_type is_user
      else WAbort
  else WAbort.

Inductive fill :=
  | TlbPage (vaddr paddr : Z) (p : prot) (mmu_idx size : Z)   (* tlb_set_page; true *)
  | ProbeFail                                                  (* false *)
  | MmuExcp (excp : Z) (env : CPUDADAOState)                   (* cpu_loop_exit_restore *)
  | FillAbort.

Definition set_fault (status addr : Z) (env : CPUDADAOState) : CPUDADAOState :=
  let 'Cp0 a b c d _ _ g h := cp0 env in set_cp0 (Cp0 a b c d status addr g h) env.

Definition all_prot : prot := Prot true true true.

Definition dadao_cpu_tlb_fill (env : CPUDADAOState) (address access_type mmu_idx : Z) (probe : bool)
    : fill :=
  let is_user := mmu_idx =? MMU_USER_IDX in
  let r :=
    if Z.land (c1_sys (cp0 env)) 1 =? 0 then WMapped (w32 address) all_prot TARGET_PAGE_SIZE
    else if negb (Z.land address (w64 (- 2^31)) =? 0) || is_user
    then get_phys_addr_dadao env (w32 address) access_type is_user
    else WMapped (w32 (Z.lor address (2^31))) all_prot TARGET_PAGE_SIZE in
  match r with
  | WMapped phys p size =>
      TlbPage (Z.land address TARGET_PAGE_MASK) (w32 (Z.land phys TARGET_PAGE_MASK)) p mmu_idx size
  | WAbort => FillAbort
  | WFault code =>
      if probe then ProbeFail
      else MmuExcp (if access_type =? 2 then DADAO_EXCP_IMMU else DADAO_EXCP_DMMU)
             (set_fault (w32 code) (w32 address) env)
  end.
End Mmu.

(** ** Control registers: helper.c *)

(** helper_cp0_set: the new state and whether the TLB is flushed. *)
Definition helper_cp0_set (env : CPUDADAOState) (val creg cop : Z) : CPUDADAOState * bool :=
  let 'Cp0 a b s2 b2 f fa co to := cp0 env in
  if creg =? 1 then ((if negb (cop =? 0) then env else set_cp0 (Cp0 a b val b2 f fa co to) env), false)
  else if creg =? 2 then ((if negb (cop =? 0) then env else set_cp0 (Cp0 a b s2 val f fa co to) env), false)
  else if creg =? 3 then ((if negb (cop =? 0) then env else set_cp0 (Cp0 a b s2 b2 val fa co to) env), false)
  else if creg =? 4 then ((if negb (cop =? 0) then env else set_cp0 (Cp0 a b s2 b2 f val co to) env), false)
  else if creg =? 5 then (env, false)
  else if creg =? 6 then (env, (cop <=? 6) && (2 <=? cop))
  else (env, false).

Definition helper_cp0_get (env : CPUDADAOState) (creg cop : Z) : Z :=
  let c := cp0 env in
  if creg =? 0 then
    if cop =? 0 then c0_cpuid c else if cop =? 1 then c0_cachetype c else 0
  else if creg =? 1 then if cop =? 0 then c1_sys c else 0
  else if creg =? 2 then if cop =? 0 then c2_base c else 0
  else if creg =? 3 then if cop =? 0 then c3_faultstatus c else 0
  else if creg =? 4 then if cop =? 0 then c4_faultaddr c else 0
  else 0.

(** dadao_cpu_exec_interrupt: hard interrupts are compiled out. *)
Definition dadao_cpu_exec_interrupt (hard : bool) : bool :=
  if hard then if false then true else false else false.

(** ** The specification of the walk

    A two-level table of 1024 four-byte entries per level; an entry of type 3
    in the first level maps 4 MB, an entry of type 0 names a second-level
    table of 4 KB pages. *)
Inductive entry := Superpage (frame : Z) | Table (base : Z) | Page (frame : Z) | Missing | BadType.
Definition entry_type (desc : Z) : Z := desc mod 4.
Definition present (desc : Z) : bool := Z.testbit desc 2.
Definition l1_entry (desc : Z) : entry :=
  if entry_type desc =? 3 then (if present desc then Superpage (desc / 2^22 mod 2^10) else Missing)
  else if entry_type desc =? 0 then (if present desc then Table (desc / 2^12 mod 2^20) else Missing)
  else BadType.
Definition l2_entry (desc : Z) : entry :=
  if negb (present desc) then Missing
  else if entry_type desc =? 0 then Page (desc / 2^12 mod 2^20) else BadType.

(** The index of an address in its table, and the address of an entry. *)
Definition l1_index (a : Z) : Z := a / 2^22 mod 2^10.
Definition l2_index (a : Z) : Z := a / 2^12 mod 2^10.
Definition entry_addr (base index : Z) : Z := base * 2^12 + index * 4.

Definition allowed (desc access_type : Z) (is_user : bool) : option Z :=
  if is_user then
    if (access_type =? 0) && negb (Z.testbit desc 8) then Some 0x11
    else if (access_type =? 1) && negb (Z.testbit desc 7) then Some 0x12
    else if (access_type =? 2) && negb (Z.testbit desc 6) then Some 0x13
    else None
  else None.
Definition map_page (desc phys size access_type : Z) (is_user : bool) : walk :=
  match allowed desc access_type is_user with
  | Some code => WFault code
  | None => WMapped phys (Prot (Z.testbit desc 8) (Z.testbit desc 7) (Z.testbit desc 6)) size
  end.
Definition spec_walk (mem : Z -> Z) (base address access_type : Z) (is_user : bool) : walk :=
  let d1 := mem (entry_addr (base / 2^12 mod 2^20) (l1_index address)) in
  match l1_entry d1 with
  | Superpage f => map_page d1 (f * 2^22 + address mod 2^22) (2^22) access_type is_user
  | Table b =>
      let d2 := mem (entry_addr b (l2_index address)) in
      match l2_entry d2 with
      | Page f => map_page d2 (f * 2^12 + address mod 2^12) (2^12) access_type is_user
      | Missing => WFault 0x08
      | _ => WAbort
      end
  | Missing => WFault (if entry_type d1 =? 3 then 0x0b else 0x05)
  | _ => WAbort
  end.

(** ** Bit fields as quotients and remainders *)
Lemma flag_testbit d n : 0 <= n -> flag d (Z.shiftl 1 n) = Z.testbit d n.
Proof.
  intros Hn. unfold flag. rewrite Z.shiftl_1_l.
  destruct (Z.testbit d n) eqn:E.
  - apply negb_true_iff, Z.eqb_neq. intros H0. assert (H := Z.land_spec d (2^n) n).
    rewrite H0, Z.bits_0, E, Z.pow2_bits_true in H by lia. done.
  - apply negb_false_iff, Z.eqb_eq, Z.bits_inj'. intros i Hi. rewrite Z.land_spec, Z.bits_0.
    destruct (Z.eq_dec i n) as [->|Hne]; [by rewrite E|].
    rewrite Z.pow2_bits_false by lia. apply andb_false_r.
Qed.
Lemma type_mod d : PAGETABLE_TYPE d = entry_type d.
Proof. unfold PAGETABLE_TYPE, entry_type. by rewrite (land_mask d 3 2) by done. Qed.
Lemma page_field d : Z.land d 0xfffff000 = (d / 2^12 mod 2^20) * 2^12.
Proof. apply (land_field d 12 20); lia. Qed.
Lemma super_field d : Z.land d 0xffc00000 = (d / 2^22 mod 2^10) * 2^22.
Proof. apply (land_field d 22 10); lia. Qed.
Lemma index_field a k : 0 <= k -> Z.land (Z.shiftr a k) 0xffc = (a / 2^(k + 2) mod 2^10) * 4.
Proof.
  intros Hk. rewrite Z.shiftr_div_pow2 by lia. change 0xffc with (Z.shiftl (Z.ones 10) 2).
  rewrite land_field, Z.div_div, <- Z.pow_add_r by (try apply Z.pow_pos_nonneg; lia). done.
Qed.
Lemma entry_lor base i : 0 <= i < 2^10 -> Z.lor (base * 2^12) (i * 4) = entry_addr base i.
Proof. intros Hi. apply lor_add_mul; lia. Qed.

Lemma check_access_spec d phys size access_type is_user :
  check_access d phys size access_type is_user = map_page d phys size access_type is_user.
Proof.
  unfold check_access, map_page, allowed, DADAO_PAGETABLE_READ, DADAO_PAGETABLE_WRITE, DADAO_PAGETABLE_EXEC.
  rewrite !flag_testbit by lia.
  destruct is_user; cbn [andb]; [|by rewrite !andb_false_r].
  destruct (Z.testbit d 8), (Z.testbit d 7), (Z.testbit d 6), (Z.eqb_spec access_type 0),
    (Z.eqb_spec access_type 1), (Z.eqb_spec access_type 2); cbn; done || lia.
Qed.

(** C8: The page-table walk of the emulator implements the two-level
    translation: entry by entry it finds the same descriptor, fault code,
    physical address, permissions and page size. *)
Theorem walk_spec ldl_phys env address access_type is_user :
  0 <= address < 2^32 ->
  get_phys_addr_dadao ldl_phys env address access_type is_user
  = spec_walk ldl_phys (c2_base (cp0 env)) address access_type is_user.
Proof.
  intros Ha. unfold get_phys_addr_dadao, spec_walk, l1_entry, l2_entry.
  rewrite page_field, !index_field, entry_lor by (try apply Z.mod_pos_bound; lia).
  change (20 + 2) with 22. change (10 + 2) with 12. fold (l1_index address) (l2_index address).
  set (d1 := ldl_phys _). rewrite !type_mod. unfold DADAO_PAGETABLE_EXIST. rewrite !flag_testbit by lia.
  fold (present d1).
  destruct (Z.eqb_spec (entry_type d1) 3) as [E3|E3].
  { destruct (present d1); cbn [negb]; [|done].
    rewrite check_access_spec, super_field, (land_mask address 0x3fffff 22), lor_add_mul
      by (try apply Z.mod_pos_bound; done || lia). done. }
  destruct (Z.eqb_spec (entry_type d1) 0) as [E0|E0]; [|done].
  destruct (present d1); cbn [negb]; [|done].
  rewrite page_field, entry_lor by (apply Z.mod_pos_bound; lia). set (d2 := ldl_phys _).
  rewrite ?type_mod, ?flag_testbit by lia. fold (present d2).
  destruct (present d2); cbn [negb]; [|done].
  destruct (entry_type d2 =? 0); [|done].
  rewrite check_access_spec, page_field, (land_mask address 0xfff 12), lor_add_mul
    by (try apply Z.mod_pos_bound; done || lia). done.
Qed.

(** ** The TLB fill *)
Lemma mod_pow_le x j k : 0 <= j <= k -> x mod 2^k mod 2^j = x mod 2^j.
Proof.
  intros H. replace k with (j + (k - j)) by lia. rewrite Z.pow_add_r by lia.
  rewrite Z.rem_mul_r, Z.mul_comm, Z_mod_plus_full by (try apply Z.pow_pos_nonneg; lia).
  apply Z.mod_mod. apply Z.pow_nonzero; lia.
Qed.
Lemma page_mask x : 0 <= x < 2^64 -> Z.land x TARGET_PAGE_MASK = x / 2^12 * 2^12.
Proof.
  intros Hx. change TARGET_PAGE_MASK with (Z.shiftl (Z.ones 52) 12). rewrite land_field by lia.
  rewrite Z.mod_small; [done|]. split; [apply Z.div_pos; lia|apply Z.div_lt_upper_bound; lia].
Qed.

(** A walk that maps an address maps its page: the frame holds the offset. *)
Lemma map_page_mapped d phys size at_ u ph p sz :
  map_page d phys size at_ u = WMapped ph p sz -> ph = phys /\ sz = size.
Proof. unfold map_page. destruct (allowed _ _ _); [done|]. by intros [= <- _ <-]. Qed.
Lemma walk_offset mem base a at_ u phys p size :
  0 <= a -> spec_walk mem base a at_ u = WMapped phys p size ->
  0 <= phys < 2^32 /\ phys mod 2^12 = a mod 2^12 /\
  exists k, phys = k * size + a mod size /\ (size = 2^12 \/ size = 2^22).
Proof.
  intros Ha. unfold spec_walk. set (d1 := mem _).
  assert (Hf : forall k n, 0 <= k < 2^n -> 12 <= 32 - n -> 0 <= n ->
    0 <= k * 2^(32 - n) + a mod 2^(32 - n) < 2^32 /\
    (k * 2^(32 - n) + a mod 2^(32 - n)) mod 2^12 = a mod 2^12).
  { intros k n Hk Hn Hn0. pose proof (Z.mod_pos_bound a (2^(32 - n))).
    assert (0 < 2^(32-n)) by (apply Z.pow_pos_nonneg; lia).
    assert (2^32 = 2^n * 2^(32 - n)) by (rewrite <- Z.pow_add_r by lia; f_equal; lia).
    split; [nia|].
    replace (2^(32-n)) with (2^(32 - n - 12) * 2^12) at 1 by (rewrite <- Z.pow_add_r by lia; f_equal; lia).
    rewrite Z.mul_assoc, Z.add_comm, Z_mod_plus_full. apply mod_pow_le; lia. }
  destruct (l1_entry d1) as [f|b|f| |] eqn:E1; try done.
  - intros [-> ->]%map_page_mapped. unfold l1_entry in E1. repeat case_match; try done. injection E1 as <-.
    pose proof (Z.mod_pos_bound (d1 / 2^22) (2^10)).
    destruct (Hf (d1 / 2^22 mod 2^10) 10) as [Hx Hy]; [lia..|]. eauto 6.
  - set (d2 := mem _). destruct (l2_entry d2) as [f|b'|f| |] eqn:E2; try done.
    intros [-> ->]%map_page_mapped. unfold l2_entry in E2. repeat case_match; try done. injection E2 as <-.
    pose proof (Z.mod_pos_bound (d2 / 2^12) (2^20)).
    destruct (Hf (d2 / 2^12 mod 2^20) 20) as [Hx Hy]; [lia..|]. eauto 6.
Qed.

Lemma map_page_fault d phys size at_ u code :
  map_page d phys size at_ u = WFault code -> 0 <= code < 2^32.
Proof.
  unfold map_page, allowed. destruct u; [|done].
  destruct (_ && _); [intros [= <-]; lia|]. destruct (_ && _); [intros [= <-]; lia|].
  destruct (_ && _); [intros [= <-]; lia|done].
Qed.
Lemma walk_fault_range mem base a at_ u code :
  spec_walk mem base a at_ u = WFault code -> 0 <= code < 2^32.
Proof.
  unfold spec_walk. destruct (l1_entry _); try done.
  - apply map_page_fault.
  - destruct (l2_entry _); try done; [apply map_page_fault|intros [= <-]; lia].
  - destruct (_ =? 3); intros [= <-]; lia.
Qed.

(** The translation of one address the machine wants, and its outcome. *)
Definition mmu_on (env : CPUDADAOState) : bool := Z.testbit (c1_sys (cp0 env)) 0.
Definition translated (mem : Z -> Z) (env : CPUDADAOState) (address at_ mmu_idx : Z) : walk :=
  if negb (mmu_on env) then WMapped (address mod 2^32) all_prot (2^12)
  else if (2^31 <=? address) || (mmu_idx =? 1)
  then spec_walk mem (c2_base (cp0 env)) (address mod 2^32) at_ (mmu_idx =? 1)
  else WMapped (address + 2^31) all_prot (2^12).

Lemma high_bits a : 0 <= a < 2^64 -> (Z.land a (w64 (- 2^31)) =? 0) = (a <? 2^31).
Proof.
  intros Ha. change (w64 (- 2^31)) with (Z.shiftl (Z.ones 33) 31). rewrite land_field by lia.
  rewrite Z.mod_small by (split; [apply Z.div_pos; lia|apply Z.div_lt_upper_bound; lia]).
  pose proof (Z.div_mod a (2^31)). pose proof (Z.mod_pos_bound a (2^31)).
  destruct (Z.ltb_spec a (2^31)).
  - rewrite Z.div_small by lia. done.
  - apply Z.eqb_neq. lia.
Qed.

(** A TLB fill enters the page of the translation, aligned on both sides
    so that the offset is kept; without a translation it reports failure to a
    probe and otherwise raises the instruction or data MMU exception, with the
    fault code and address in the control registers. *)
Theorem tlb_fill_spec mem env address at_ mmu_idx probe :
  0 <= address < 2^64 ->
  dadao_cpu_tlb_fill mem env address at_ mmu_idx probe
  = match translated mem env address at_ mmu_idx with
    | WMapped phys p size =>
        TlbPage (address - address mod 2^12) (phys - address mod 2^12) p mmu_idx size
    | WFault code =>
        if probe then ProbeFail
        else MmuExcp (if at_ =? 2 then DADAO_EXCP_IMMU else DADAO_EXCP_DMMU)
               (set_fault code (address mod 2^32) env)
    | WAbort => FillAbort
    end.
Proof.
  intros Ha. unfold dadao_cpu_tlb_fill, translated, mmu_on, MMU_USER_IDX.
  rewrite (land_mask _ 1 1) by done. rewrite <- Z.bit0_mod. rewrite high_bits by done.
  assert (Hal : address / 2^12 * 2^12 = address - address mod 2^12)
    by (pose proof (Z.div_mod address (2^12)); lia).
  assert (Hpg : forall x, 0 <= x < 2^32 -> x mod 2^12 = address mod 2^12 ->
    w32 (Z.land x TARGET_PAGE_MASK) = x - address mod 2^12).
  { intros x Hx Hm. rewrite page_mask by lia. rewrite <- Hm.
    replace (x / 2^12 * 2^12) with (x - x mod 2^12) by (pose proof (Z.div_mod x (2^12)); lia).
    pose proof (Z.mod_pos_bound x (2^12)). pose proof (Z.mod_le x (2^12)). apply w32_id. lia. }
  rewrite page_mask, Hal by done. rewrite Z.leb_antisym.
  destruct (Z.testbit (c1_sys (cp0 env)) 0); cbn [Z.b2z Z.eqb negb].
  2: { unfold w32. rewrite <- (Hpg (address mod 2^32)); [done|apply Z.mod_pos_bound; lia|].
    apply mod_pow_le. lia. }
  destruct (_ || _) eqn:E.
  - rewrite walk_spec by apply w32_range. unfold w32 at 1. pose proof (Z.mod_pos_bound address (2^32)).
    destruct (spec_walk _ _ _ _ _) as [code| |phys p size] eqn:Ew; [|done|].
    + assert (0 <= code < 2^32).
      { by apply walk_fault_range in Ew. }
      unfold w32. by rewrite (Z.mod_small code) by lia.
    + apply walk_offset in Ew as (H1 & H2 & _); [|lia].
      rewrite Hpg; [done|done|]. rewrite H2. apply mod_pow_le. lia.
  - apply orb_false_iff in E as [E _]. apply negb_false_iff, Z.ltb_lt in E.
    assert (Hl : Z.lor address (2^31) = address + 2^31).
    { rewrite Z.lor_comm, <- (Z.mul_1_l (2^31)), lor_add_mul by lia. lia. }
    rewrite Hl, (w32_id (address + 2^31)) by lia. rewrite Hpg; [done|lia|].
    change (2^31) with (2^19 * 2^12). by rewrite Z_mod_plus_full.
Qed.

(** A control register reads back what was written: cp0_set of register
    1 to 4 with cop 0 is seen by cp0_get of that register and by no other, and
    every other cop or register changes nothing. *)
Theorem cp0_get_set env val creg cop creg' cop' :
  helper_cp0_get (fst (helper_cp0_set env val creg cop)) creg' cop'
  = if (creg' =? creg) && (cop =? 0) && (cop' =? 0) && (1 <=? creg) && (creg <=? 4) then val
    else helper_cp0_get env creg' cop'.
Proof.
  unfold helper_cp0_set, helper_cp0_get. destruct (cp0 env) as [a b s2 b2 f fa co to] eqn:Ec.
  destruct (Z.eqb_spec creg 1) as [->|]; [|destruct (Z.eqb_spec creg 2) as [->|];
    [|destruct (Z.eqb_spec creg 3) as [->|]; [|destruct (Z.eqb_spec creg 4) as [->|]]]].
  5: { destruct (Z.leb_spec 1 creg), (Z.leb_spec creg 4); try lia;
         rewrite ?andb_false_r; cbn [andb]; rewrite ?andb_false_r;
         destruct (creg =? 5), (creg =? 6); cbn [fst]; by rewrite Ec. }
  all: destruct (Z.eqb_spec cop 0); cbn [negb fst]; rewrite ?andb_false_r, ?andb_true_r; cbn [andb];
    rewrite ?Ec; try done.
  all: destruct env; cbn in *; repeat case_match; try done; lia.
Qed.
