(* ===== verification/Emu.v ===== *)
(** User emulation: linux-user/dadao/cpu_loop.c around the translated
    instructions, as a state machine.

    System calls, signal delivery and the atomic step are QEMU's: parameters.
    A block is one instruction; the loop handles what its block raised. *)
From S2P Require Import Prelude Opcodes Cpu Tcg Translate Run RefBackend IsaArith IsaControl.
From S2P Require Import Frame Decode Step.

(** What linux-user provides to the loop. *)
Record host (M : Type) := Host {
  do_syscall : CPUDADAOState -> M -> Z -> list Z -> Z * CPUDADAOState * M;
  cpu_exec_step_atomic : CPUDADAOState -> M -> CPUDADAOState * M;
  QEMU_ERESTARTSYS : Z; QEMU_ESIGRETURN : Z;
  EXCP_INTERRUPT : Z; EXCP_DEBUG : Z; EXCP_ATOMIC : Z }.
Arguments do_syscall {M}. Arguments cpu_exec_step_atomic {M}. Arguments QEMU_ERESTARTSYS {M}.
Arguments QEMU_ESIGRETURN {M}. Arguments EXCP_INTERRUPT {M}. Arguments EXCP_DEBUG {M}.
Arguments EXCP_ATOMIC {M}.

Inductive fault_signal := SIGILL_ILLOPC | SIGTRAP_BRKPT.

Inductive emu (M : Type) :=
  | Running (env : CPUDADAOState) (mem : M)
  | Signalled (s : fault_signal) (addr : Z) (env : CPUDADAOState) (mem : M)  (* force_sig_fault *)
  | Aborted.                                                    (* g_assert_not_reached *)
Arguments Running {M}. Arguments Signalled {M}. Arguments Aborted {M}.

(** DDABI_ARG(env, 0..6) *)
Definition syscall_args (env : CPUDADAOState) : list Z :=
  ((fun n => reg RD (DD_FIRST_ARG_REGNUM + n) env) <$> seqZ 0 7) ++ [0].

Section Loop.
Context {M : Type} (H : host M).

(** The switch of cpu_loop. *)
Definition cpu_loop_body (trapnr : Z) (env : CPUDADAOState) (mem : M) : emu M :=
  if trapnr =? DADAO_EXCP_TRAP then
    let '(ret, env, mem) :=
      do_syscall H env mem (reg RD DD_SYSCALL_NUM_REGNUM env) (syscall_args env) in
    let env := set_PC (w64 (REG_PC env + 4)) env in
    if ret =? - QEMU_ERESTARTSYS H then Running (set_PC (w64 (REG_PC env - 4)) env) mem
    else if negb (ret =? - QEMU_ESIGRETURN H)
    then Running (set_reg RD DD_RETURN_VALUE_REGNUM (w64 ret) env) mem
    else Running env mem
  else if trapnr =? DADAO_EXCP_ILLI then Signalled SIGILL_ILLOPC (REG_PC env) env mem
  else if trapnr =? EXCP_INTERRUPT H then Running env mem
  else if trapnr =? EXCP_DEBUG H then Signalled SIGTRAP_BRKPT (REG_PC env) env mem
  else if trapnr =? EXCP_ATOMIC H then
    let '(env, mem) := cpu_exec_step_atomic H env mem in Running env mem
  else Aborted.

(** target_cpu_copy_regs: the entry state of a program. *)
Definition target_cpu_copy_regs (env : CPUDADAOState) (regs : CPUDADAOState) : CPUDADAOState :=
  set_reg RB 1 (REG_SP regs) (set_PC (REG_PC regs) env).

(** linux-user/dadao/target_cpu.h *)
Definition cpu_clone_regs_child (env : CPUDADAOState) (newsp : Z) : CPUDADAOState :=
  set_PC 0 (if newsp =? 0 then env else set_PC newsp env).
Definition cpu_clone_regs_parent (env : CPUDADAOState) : CPUDADAOState := env.
Definition cpu_set_tls (env : CPUDADAOState) (newtls : Z) : CPUDADAOState := set_PC newtls env.
Definition get_sp_from_cpustate (env : CPUDADAOState) : Z := REG_PC env.

(** One round: fetch, translate, run, and handle what was raised. *)
Variable B : backend M.
Variable helper : string -> CPUDADAOState -> list Z -> Z * CPUDADAOState.
Variable disas : Z -> gen bool.
Variable goto_tb : Z -> bool.
Variable fetch : M -> Z -> option Z.

Inductive emu_step : emu M -> emu M -> Prop :=
  | ES_exit env mem insn env' mem' :
      fetch mem (REG_PC env) = Some insn ->
      step B helper disas goto_tb (REG_PC env) insn env mem = Some (RExit env' mem') ->
      emu_step (Running env mem) (Running env' mem')
  | ES_raise env mem insn e env' mem' :
      fetch mem (REG_PC env) = Some insn ->
      step B helper disas goto_tb (REG_PC env) insn env mem = Some (RRaise e env' mem') ->
      emu_step (Running env mem) (cpu_loop_body e env' mem').
Definition emu_steps := rtc emu_step.
End Loop.

Lemma set_reg_id f i env : set_reg f i (reg f i env) env = env.
Proof.
  unfold set_reg, reg, zlookup, zupdate. destruct (0 <=? i); [|by destruct env, f].
  destruct (file f env !! Z.to_nat i) as [v|] eqn:E; cbn [default id].
  - rewrite list_insert_id by done. by destruct env, f.
  - rewrite list_insert_ge by (by apply lookup_ge_None). by destruct env, f.
Qed.

(** ** The machine invariant: 64 registers per file, 64-bit values *)
Record machine_ok (env : CPUDADAOState) : Prop := MachineOk {
  ok_wf : wf_env env; ok_u64 : u64_env env;
  ok_jmp : 0 <= jmp_pc env < 2^64;
  ok_res : 0 <= load_res env < 2^64; ok_val : 0 <= load_val env < 2^64 }.

(** Every value TCG, the memory and the helpers produce is a 64-bit value. *)
Record values_64 {M} (B : backend M)
    (helper : string -> CPUDADAOState -> list Z -> Z * CPUDADAOState) : Prop := Values64 {
  v_alu : forall o a b, 0 <= a < 2^64 -> 0 <= b < 2^64 -> 0 <= b_alu B o a b < 2^64;
  v_wide : forall o a b c d, 0 <= fst (b_wide B o a b c d) < 2^64 /\ 0 <= snd (b_wide B o a b c d) < 2^64;
  v_mul : forall o a b, 0 <= fst (b_mul B o a b) < 2^64 /\ 0 <= snd (b_mul B o a b) < 2^64;
  v_ld : forall mo a m v, b_ld B mo a m = Some v -> 0 <= v < 2^64;
  v_cmpxchg : forall mo a c n m v m', b_cmpxchg B mo a c n m = Some (v, m') -> 0 <= v < 2^64;
  v_helper : forall h env xs, machine_ok env -> Forall (fun x => 0 <= x < 2^64) xs ->
    0 <= fst (helper h env xs) < 2^64 /\ machine_ok (snd (helper h env xs)) }.

Lemma machine_set_reg f i v env : machine_ok env -> 0 <= v < 2^64 -> machine_ok (set_reg f i v env).
Proof.
  intros [Hwf Hu Hj Hr Hv] H. split; [eauto with cpu..| | |]; destruct env, f; done.
Qed.
Lemma machine_set_jmp v env : machine_ok env -> 0 <= v < 2^64 -> machine_ok (set_jmp_pc v env).
Proof.
  intros [Hwf Hu Hj Hr Hv] H. split; [eauto with cpu|..]; try (destruct env; done).
Qed.
Lemma machine_set_res v env : machine_ok env -> 0 <= v < 2^64 -> machine_ok (set_load_res v env).
Proof.
  intros [Hwf Hu Hj Hr Hv] H. split; [eauto with cpu|..]; try (destruct env; done).
Qed.
Lemma machine_set_val v env : machine_ok env -> 0 <= v < 2^64 -> machine_ok (set_load_val v env).
Proof.
  intros [Hwf Hu Hj Hr Hv] H. split; [eauto with cpu|..]; try (destruct env; done).
Qed.
#[export] Hint Resolve machine_set_reg machine_set_jmp machine_set_res machine_set_val : cpu.

Section Invariant.
Context {M : Type} (B : backend M).
Variable helper : string -> CPUDADAOState -> list Z -> Z * CPUDADAOState.
Hypothesis V : values_64 B helper.

Definition mach_ok (m : mach M) : Prop :=
  machine_ok (m_env m) /\ map_Forall (fun _ v => 0 <= v < 2^64) (m_tmps m).
Definition outcome_ok (o : outcome M) : Prop :=
  match o with
  | Fall m | Exit m | Raise _ m | Fault m => mach_ok m
  | NoLabel => True
  end.

Lemma get_ok m v : mach_ok m -> 0 <= get m v < 2^64.
Proof.
  intros [[Hwf Hu Hj Hr Hv] Ht]. destruct v; cbn [get]; auto with word.
  destruct (m_tmps m !! n) as [x|] eqn:E; cbn; [by apply (Ht n)|lia].
Qed.
Lemma set_ok m v x : mach_ok m -> 0 <= x < 2^64 -> mach_ok (set m v x).
Proof.
  intros [He Ht] Hx. destruct v; cbn [set]; (split; [cbn [m_env]; eauto with cpu|done]) || idtac.
  split; [done|]. by apply map_Forall_insert_2.
Qed.
Hint Resolve get_ok set_ok : cpu.

Lemma exec_op_ok o m :
  mach_ok m ->
  match exec_op B helper o m with
  | Go m' | Jump _ m' => mach_ok m'
  | Stop r => outcome_ok r
  end.
Proof.
  intros Hm. destruct o; cbn [exec_op]; eauto with cpu.
  - apply set_ok; [done|]. apply (v_alu _ _ V); auto with cpu.
  - destruct (b_wide B o (get m al) (get m ah) (get m bl) (get m bh)) as [lo hi] eqn:E.
    pose proof (v_wide _ _ V o (get m al) (get m ah) (get m bl) (get m bh)) as [H1 H2]. rewrite E in H1, H2.
    eauto with cpu.
  - destruct (b_mul B o (get m a) (get m b)) as [lo hi] eqn:E.
    pose proof (v_mul _ _ V o (get m a) (get m b)) as [H1 H2]. rewrite E in H1, H2. eauto with cpu.
  - apply set_ok; [done|apply b2z_range].
  - destruct (b_cond B c (get m c1) (get m c2)); eauto with cpu.
  - destruct (b_ld B m0 (get m addr) (m_mem m)) as [x|] eqn:E; [|done].
    apply set_ok; [done|]. by apply (v_ld _ _ V) in E.
  - destruct (b_st B m0 (get m addr) (get m v) (m_mem m)); [|done]. by destruct Hm.
  - destruct (b_cmpxchg B m0 (get m addr) (get m cmp) (get m new) (m_mem m)) as [[x mem']|] eqn:E; [|done].
    apply set_ok; [by destruct Hm|]. by apply (v_cmpxchg _ _ V) in E.
  - destruct (b_cond B c (get m a) (get m b)); done.
  - destruct (helper h (m_env m) (get m <$> args)) as [x env'] eqn:E.
    assert (Hx : Forall (fun x => 0 <= x < 2^64) (get m <$> args))
      by (apply Forall_fmap, Forall_true; intros; by apply get_ok).
    destruct (v_helper _ _ V h (m_env m) (get m <$> args) (proj1 Hm) Hx) as [H1 H2].
    rewrite E in H1, H2. apply set_ok; [|done]. split; [done|apply Hm].
Qed.

Lemma exec_n_ok fuel : forall ops m, mach_ok m -> outcome_ok (exec_n B helper fuel ops m).
Proof.
  induction fuel as [|fuel IH]; intros [|o tl] m Hm; cbn [exec_n]; try done.
  pose proof (exec_op_ok o m Hm) as Ho. destruct (exec_op B helper o m); auto.
  destruct (after_label l tl); [auto|done].
Qed.

Definition result_ok (r : result M) : Prop :=
  match r with
  | RFall env _ | RExit env _ | RRaise _ env _ | RFault env _ => machine_ok env
  | RNoLabel => True
  end.

Lemma step_ok disas goto_tb pc insn env mem r :
  machine_ok env -> step B helper disas goto_tb pc insn env mem = Some r -> result_ok r.
Proof.
  intros Hm. unfold step. destruct (translate_one _ _ _ _) as [u s| |]; [|done..]. intros [= <-].
  assert (Ho : outcome_ok (exec B helper (g_ops s) (Mach env ∅ mem))).
  { apply exec_n_ok. split; [done|]. apply map_Forall_empty. }
  destruct (exec _ _ _ _); cbn in *; try done; apply Ho.
Qed.

(** *** The loop *)
Variable H : host M.
(** A system call and an atomic step keep the invariant. *)
Definition host_ok : Prop :=
  (forall env mem n xs, machine_ok env -> machine_ok (snd (fst (do_syscall H env mem n xs)))) /\
  (forall env mem, machine_ok env -> machine_ok (fst (cpu_exec_step_atomic H env mem))).
Definition emu_ok (e : emu M) : Prop :=
  match e with Running env _ | Signalled _ _ env _ => machine_ok env | Aborted => True end.

Lemma loop_body_ok e env mem : host_ok -> machine_ok env -> emu_ok (cpu_loop_body H e env mem).
Proof.
  intros [Hs Ha] Hm. unfold cpu_loop_body.
  assert (Hp : forall env v, machine_ok env -> machine_ok (set_PC (w64 v) env))
    by (intros; apply machine_set_reg; [done|apply w64_range]).
  destruct (_ =? DADAO_EXCP_TRAP).
  - specialize (Hs env mem (reg RD DD_SYSCALL_NUM_REGNUM env) (syscall_args env) Hm).
    destruct (do_syscall H env mem _ _) as [[ret env'] mem']. cbn in Hs.
    repeat case_match; cbn; auto. apply machine_set_reg; [auto|apply w64_range].
  - destruct (_ =? DADAO_EXCP_ILLI); [done|]. destruct (_ =? EXCP_INTERRUPT H); [done|].
    destruct (_ =? EXCP_DEBUG H); [done|]. destruct (_ =? EXCP_ATOMIC H); [|done].
    specialize (Ha env mem Hm). by destruct (cpu_exec_step_atomic H env mem).
Qed.
End Invariant.

Section Reach.
Context {M : Type} (B : backend M).
Variable helper : string -> CPUDADAOState -> list Z -> Z * CPUDADAOState.
Variable H : host M.
Variable disas : Z -> gen bool.
Variable goto_tb : Z -> bool.
Variable fetch : M -> Z -> option Z.
Abbreviation steps := (emu_steps H B helper disas goto_tb fetch).

(** In every state the emulator reaches from a well-formed one, each
    register file has its 64 registers and every register, the branch target
    and the reservation hold 64-bit values. *)
Lemma reachable_ok e e' :
  values_64 B helper -> host_ok H -> emu_ok e -> steps e e' -> emu_ok e'.
Proof.
  intros V Hh He Hs. induction Hs as [e|e e1 e2 H1 Hs IH]; [done|]. apply IH.
  destruct H1 as [env mem insn env' mem' Hf Hx|env mem insn x env' mem' Hf Hx]; cbn in He.
  - by apply (step_ok B helper V) in Hx.
  - apply (step_ok B helper V) in Hx; [|done]. by apply (loop_body_ok H).
Qed.

(** A system call takes its number from rd15 and its arguments from
    rd16 to rd22, puts the result in rd31 and continues after the trap; a
    call to be restarted leaves the program counter at the trap, and a
    signal return keeps the registers the call restored. *)
Theorem syscall_spec env mem ret env' mem' :
  do_syscall H env mem (reg RD 15 env)
    [reg RD 16 env; reg RD 17 env; reg RD 18 env; reg RD 19 env; reg RD 20 env; reg RD 21 env;
     reg RD 22 env; 0] = (ret, env', mem') ->
  machine_ok env' ->
  cpu_loop_body H DADAO_EXCP_TRAP env mem
  = Running (if ret =? - QEMU_ERESTARTSYS H then env'
             else let env1 := set_PC (w64 (REG_PC env' + 4)) env' in
                  if ret =? - QEMU_ESIGRETURN H then env1 else set_reg RD 31 (w64 ret) env1) mem'.
Proof.
  intros Hs [Hwf Hu _ _ _]. unfold cpu_loop_body. rewrite Z.eqb_refl.
  assert (Ha : do_syscall H env mem (reg RD DD_SYSCALL_NUM_REGNUM env) (syscall_args env)
               = (ret, env', mem')) by exact Hs.
  rewrite Ha. destruct (ret =? - QEMU_ERESTARTSYS H).
  - f_equal. unfold REG_PC at 1, set_PC at 2. rewrite reg_set_reg_eq by (done || lia).
    unfold set_PC. rewrite set_reg_set_reg.
    replace (w64 (w64 (REG_PC env' + 4) - 4)) with (REG_PC env'); [by apply set_reg_id|].
    unfold Z.sub. rewrite w64_add_l. replace (REG_PC env' + 4 + - (4)) with (REG_PC env') by lia.
    symmetry. apply w64_id, Hu.
  - by destruct (ret =? - QEMU_ESIGRETURN H).
Qed.
End Reach.

(** ** The signal trampoline: linux-user/dadao/signal.c *)
Definition TARGET_NR_rt_sigreturn : Z := 139.
Definition setup_sigtramp (sigtramp_page : Z) : list (Z * Z) :=
  [(sigtramp_page, Z.lor 0x193C0000 TARGET_NR_rt_sigreturn); (sigtramp_page + 4, 0x76000000)].

(** The two words of the signal trampoline are the instructions the
    comment names: the first loads the number of rt_sigreturn into rd15, the
    second makes the system call. *)
Theorem sigtramp_spec {M} (B : backend M) helper disas goto_tb page pc w0 w1 env mem :
  tcg_laws B -> decodetree_laws disas -> machine_ok env -> 0 <= pc < 2^64 ->
  snd <$> setup_sigtramp page = [w0; w1] ->
  (exists env', step B helper disas goto_tb pc w0 env mem = Some (RExit env' mem) /\
     reg RD DD_SYSCALL_NUM_REGNUM env' = TARGET_NR_rt_sigreturn /\ REG_PC env' = w64 (pc + 4)) /\
  step B helper disas goto_tb pc w1 env mem = Some (RRaise DADAO_EXCP_TRAP (prologue env) mem).
Proof.
  intros L D [Hwf Hu _ _ _] Hpc [= <- <-].
  assert (Hp : forall w p, decode w = Some p -> p ∈ insns_decode /\ matches p w = true)
    by (intros w p; apply decode_some).
  destruct (Hp (Z.lor 0x193C0000 TARGET_NR_rt_sigreturn) (Pattern "ADDIrd" "00011001"
    [DField "ha" false 6; DField "hb" false 6; DField "imms12" true 12])) as [H1 M1];
    [vm_compute; done|].
  destruct (Hp 0x76000000 (Pattern "TRAP" "01110110" [DField "ha" false 6; DField "immu18" false 18]))
    as [H2 M2]; [vm_compute; done|].
  pose proof (pattern_args_ok _ (Z.lor 0x193C0000 TARGET_NR_rt_sigreturn) H1) as [F1 _].
  pose proof (ready_prologue _ _ F1 Hwf Hu) as Hr.
  assert (Hj1 : is_jmp (ctx_at pc) <> DISAS_TOO_MANY) by done.
  assert (Hj2 : is_jmp (noreturn_ctx (ctx_at pc)) <> DISAS_TOO_MANY) by done. split.
  - eexists. split; [|split].
    + rewrite (step_decoded B L helper disas goto_tb D pc _ _ (INSN_ALG1_RRII RD) env mem
        _ _ H1 M1 eq_refl Hwf Hj1 (rrii_run B L helper RD (ctx_at pc) _ _ mem Hr)) by done.
      reflexivity.
    + unfold spec_rrii, write. set (a := pattern_args _ _).
      assert (Ha : a = Args 15 0 0 0 0 0 0 0 0 139 0 0) by (vm_compute; done). rewrite Ha.
      cbn [ha hb imms12 Z.eqb]. unfold set_PC. rewrite reg_set_reg_ne by (by left).
      rewrite reg_set_reg_eq by (eauto with cpu || lia).
      destruct Hr as (_ & _ & _ & ->). done.
    + unfold REG_PC, set_PC. rewrite reg_set_reg_eq; [done| |lia].
      unfold spec_rrii, write. destruct (_ =? 0); eauto with cpu.
  - pose proof (trap_run B helper (ctx_at pc) (pattern_args (Pattern "TRAP" "01110110"
      [DField "ha" false 6; DField "immu18" false 18]) 0x76000000) (prologue env) mem) as Ht.
    set (a := pattern_args _ _) in Ht. assert (Ha : a = no_args) by (vm_compute; done).
    rewrite Ha in Ht. cbn [ha immu18 no_args Z.eqb negb orb] in Ht. rewrite <- Ha in Ht.
    rewrite (step_decoded B L helper disas goto_tb D pc _ _ trans_TRAP env mem
      _ _ H2 M2 eq_refl Hwf Hj2 Ht) by done. done.
Qed.
