(* ===== verification/EmuProps.v ===== *)
(** The register that reads as zero, over whole runs of the emulator; and
    witnesses of the theorems on the floating-point unit, the MMU and the
    emulation loop, with a concrete softfloat, memory and host. *)
From S2P Require Import Prelude Opcodes Cpu Tcg Translate Run RefBackend IsaArith Frame.
From S2P Require Import Decode Step Fpu Mmu Emu IsaProps.
Local Open Scope string_scope.
Local Open Scope Z_scope.

(** ** The register that reads as zero

    rd0 is reset before every instruction; the generators keep it in between,
    but for the floating-point compares. *)
Definition is_zero_reg (v : tcgv) : bool := match v with Greg RD i => i =? 0 | _ => false end.
(** What an operation writes. *)
Definition op_dests (o : op) : list tcgv :=
  match o with
  | O_mov d _ | O_alu _ d _ _ | O_setcond _ d _ _ | O_movcond _ d _ _ _ _ | O_ld d _ _ _
  | O_cmpxchg d _ _ _ _ _ | O_helper _ d _ => [d]
  | O_wide _ dl dh _ _ _ _ | O_mul _ dl dh _ _ => [dl; dh]
  | _ => []
  end.
Definition spares (o : op) : Prop := Forall (fun v => is_zero_reg v = false) (op_dests o).
(** The generator emits only such operations. *)
Definition quiet {A} (g : gen A) : Prop := forall s a s', g s = GOk a s' ->
  exists o, g_ops s' = (g_ops s ++ o)%list /\ Forall spares o.

Lemma quiet_ret {A} (a : A) : quiet (mret a).
Proof. intros s b s' Hs. injection Hs as _ <-. exists []. by rewrite app_nil_r. Qed.
Lemma quiet_bind {A B} (m : gen A) (k : A -> gen B) : quiet m -> (forall a, quiet (k a)) -> quiet (m ≫= k).
Proof.
  intros Hm Hk s b s'. rewrite gen_bind_eq. destruct (m s) as [a s1| |] eqn:E; [|done..]. intros Hs.
  destruct (Hm _ _ _ E) as (o1 & E1 & H1), (Hk a _ _ _ Hs) as (o2 & E2 & H2).
  exists (o1 ++ o2)%list. rewrite E2, E1, app_assoc. split; [done|by apply Forall_app].
Qed.
Lemma quiet_cpu {A} f i (k : tcgv -> gen A) : quiet (k (Greg f i)) -> quiet (cpu f i ≫= k).
Proof. intros Hk s b s'. unfold cpu. rewrite gen_bind_eq. destruct (_ && _); [apply Hk|done]. Qed.
Lemma quiet_tmp {A} (k : tcgv -> gen A) : (forall n, quiet (k (Tmp n))) -> quiet (tcg_temp_new_i64 ≫= k).
Proof.
  intros Hk s b s' Hs. destruct (Hk _ _ _ _ Hs) as (o & E & Ho). by exists o.
Qed.
Lemma quiet_const {A} c (k : tcgv -> gen A) : quiet (k (Const c)) -> quiet (tcg_constant_i64 c ≫= k).
Proof. intros Hk. exact Hk. Qed.
Lemma quiet_emit o : spares o -> quiet (emit o).
Proof. intros Ho s a s' [= _ <-]. exists [o]. split; [done|]. by apply Forall_singleton. Qed.
Lemma quiet_when b g : (b = true -> quiet g) -> quiet (when b g).
Proof. destruct b; [auto|]. intros _. apply quiet_ret. Qed.
Lemma quiet_ctx : quiet get_ctx.
Proof. intros s b s' Hs. injection Hs as _ <-. exists []. by rewrite app_nil_r. Qed.
Lemma quiet_put c : quiet (put_ctx c).
Proof. intros s b s' Hs. injection Hs as _ <-. exists []. by rewrite app_nil_r. Qed.
Lemma quiet_label : quiet gen_new_label.
Proof. intros s b s' Hs. injection Hs as _ <-. exists []. by rewrite app_nil_r. Qed.
Lemma quiet_fuel {A} : quiet (@gfuel A).
Proof. done. Qed.
Lemma quiet_oob {A} : quiet (@goob A).
Proof. done. Qed.
Lemma quiet_foldr {A} (f : A -> gen () -> gen ()) (xs : list A) :
  (forall x k, x ∈ xs -> quiet k -> quiet (f x k)) -> quiet (foldr f (mret ()) xs).
Proof.
  intros Hf. induction xs as [|x xs IH]; cbn; [apply quiet_ret|]. apply Hf; [left|].
  apply IH. intros y k Hy. apply Hf. by right.
Qed.
Create HintDb quiet.
#[export] Hint Resolve quiet_ret quiet_ctx quiet_put quiet_label quiet_fuel quiet_oob : quiet.

(** The register an operation writes is a temporary, of another file, or
    guarded by the code. *)
Ltac spares_tac :=
  unfold spares; cbn [op_dests]; repeat apply Forall_cons_2; try apply Forall_nil_2;
  cbn [is_zero_reg]; repeat match goal with f : regfile |- _ => destruct f end;
  try change (writable0 [RF] RD) with false in *; try change (writable0 [RF; RA] RD) with false in *;
  first [done | lia].
Ltac quiet_step :=
  lazymatch goal with
  | |- quiet (cpu _ _ ≫= _) => apply quiet_cpu
  | |- quiet (tcg_temp_new_i64 ≫= _) => apply quiet_tmp; intros ?
  | |- quiet (tcg_constant_i64 _ ≫= _) => apply quiet_const
  | |- quiet (_ ≫= _) => apply quiet_bind; [|intros ?]
  | |- quiet (when _ _) => apply quiet_when; intros ?
  | |- quiet (emit _) => apply quiet_emit; solve [spares_tac]
  | |- quiet (match _ with _ => _ end) => case_match
  | |- quiet (let _ := _ in _) => cbv zeta
  | |- quiet _ =>
      first [ solve [auto 2 with quiet]
            | progress unfold tcg_gen_mov_i64, tcg_gen_movi_i64, tcg_gen_alu,
                tcg_gen_alui, tcg_gen_qemu_ld_i64, tcg_gen_qemu_st_i64, set_is_jmp,
                set_jmp_pc_imm, set_pc_next, gen_exception ]
  end.
Ltac quiet_tac := repeat quiet_step.

Lemma quiet_illegal : quiet gen_exception_illegal_instruction.
Proof. unfold gen_exception_illegal_instruction. quiet_tac. Qed.
#[export] Hint Resolve quiet_illegal : quiet.
Lemma quiet_check_range rs n : quiet (check_range rs n).
Proof. unfold check_range. quiet_tac. apply quiet_foldr. intros r k _ Hk. quiet_tac. Qed.
Lemma quiet_ra_moves ixs : quiet (ra_moves ixs).
Proof. unfold ra_moves. apply quiet_foldr. intros [d s] k _ Hk. quiet_tac. Qed.
#[export] Hint Resolve quiet_check_range quiet_ra_moves : quiet.
Lemma quiet_ldm_loop fuel : forall f m x y i n,
  is_zero_reg x = false -> is_zero_reg y = false -> quiet (ldm_loop fuel f m x y i n).
Proof.
  induction fuel as [|fuel IH]; intros f m x y i n Hx Hy; cbn [ldm_loop]; quiet_tac; try by apply IH.
  all: unfold spares; cbn; auto.
Qed.
Lemma quiet_stm_loop fuel : forall f m x i n, is_zero_reg x = false -> quiet (stm_loop fuel f m x i n).
Proof.
  induction fuel as [|fuel IH]; intros f m x i n Hx; cbn [stm_loop]; quiet_tac; try by apply IH.
  all: unfold spares; cbn; auto.
Qed.
Lemma quiet_r2r_loop fuel : forall move b c n,
  (forall b c, quiet (move b c)) -> quiet (r2r_loop fuel move b c n).
Proof. induction fuel as [|fuel IH]; intros move b c n Hm; cbn [r2r_loop]; quiet_tac; auto. Qed.
Lemma quiet_r2r_body move a : (forall b c, quiet (move b c)) -> quiet (r2r_body move a).
Proof. intros H. unfold r2r_body. quiet_tac; by apply quiet_r2r_loop. Qed.
Lemma quiet_r2r_move f g b c : quiet (r2r_move f g b c).
Proof. unfold r2r_move. quiet_tac. Qed.
Lemma quiet_fcvt_move f g fn b c : quiet (fcvt_move f g fn b c).
Proof. unfold fcvt_move. quiet_tac. Qed.
#[export] Hint Resolve quiet_r2r_move quiet_fcvt_move : quiet.

(** A floating-point compare into rd0. *)
Definition float_compares : list string := ["FTQCMP"; "FTSCMP"; "FOQCMP"; "FOSCMP"].
Definition compares_into_zero (n : string) (a : args) : bool := bool_decide (n ∈ float_compares) && (hb a =? 0).
Definition quiets (d : list (string * (args -> gen bool))) : Prop :=
  Forall (fun e => forall a, compares_into_zero e.1 a = false -> quiet (e.2 a)) d.
Ltac quiets_tac :=
  unfold quiets; repeat apply Forall_cons_2; [..|apply Forall_nil_2]; cbn [fst snd]; intros a Ha.

Lemma quiets_ldst : quiets trans_ldst.
Proof. unfold trans_ldst. quiets_tac. all: clear Ha; unfold INSN_LD_RRII, INSN_ST_RRII; quiet_tac. Qed.
Lemma quiets_ldstm : quiets trans_ldstm.
Proof.
  unfold trans_ldstm. quiets_tac. all: clear Ha; unfold INSN_LDM_RRRI, INSN_STM_RRRI; quiet_tac.
  all: first [by apply quiet_ldm_loop | by apply quiet_stm_loop].
Qed.
Lemma quiets_assign : quiets trans_assign.
Proof.
  unfold trans_assign. quiets_tac.
  all: clear Ha; unfold INSN_R2R_ORRI, INSN_CSET1_RRRR, INSN_CSET2_RRRR, trans_SETOW, INSN_SETZW_RWII,
    INSN_ORW_RWII, INSN_ANDNW_RWII, trans_SETW;
    first [apply quiet_r2r_body; intros; apply quiet_r2r_move | quiet_tac].
Qed.
Lemma quiets_arith : quiets trans_arith.
Proof.
  unfold trans_arith. quiets_tac.
  all: clear Ha; unfold INSN_ALG1_RRRR, INSN_ALG1_ORRR, INSN_ALG1_RRII, INSN_CMP_RRII, INSN_CMP_ORRR,
    INSN_MUL_RRRR, INSN_DIV_RRRR, trans_ADRP; quiet_tac.
Qed.
Lemma quiets_logic : quiets trans_logic.
Proof.
  unfold trans_logic. quiets_tac.
  all: clear Ha; unfold INSN_LOGIC_ORRR, trans_XNOR, trans_ANDI, INSN_EXT_ORRR, INSN_LOGIC_ORRI,
    INSN_EXT_ORRI; quiet_tac.
Qed.
Lemma quiets_control : quiets trans_control.
Proof.
  unfold trans_control. quiets_tac.
  all: clear Ha; unfold trans_CALLi, trans_CALLr, trans_SWYM, trans_UNIMP, INSN_BR_RRII, INSN_BR_RIII,
    trans_JUMPi, trans_JUMPr, trans_RET, push_return_address, pop_return_address; quiet_tac.
Qed.
Lemma quiets_fcvt : quiets trans_fcvt.
Proof.
  unfold trans_fcvt. quiets_tac.
  all: apply quiet_r2r_body; intros; apply quiet_fcvt_move.
Qed.
Lemma quiets_falg : quiets trans_falg.
Proof.
  unfold trans_falg. quiets_tac.
  all: unfold INSN_FALG_ORRR, INSN_FALG_RRRR, INSN_FALG_ORRI, INSN_FCMP_ORRR, INSN_FCSET_RRRR,
    INSN_FCSET_ORRR.
  all: try (clear Ha; solve [quiet_tac]).
  all: unfold compares_into_zero in Ha; rewrite bool_decide_true in Ha by (apply (bool_decide_unpack _); done);
    cbn [andb] in Ha; quiet_tac.
Qed.
Lemma quiets_system : quiets trans_system.
Proof.
  unfold trans_system. quiets_tac.
  all: clear Ha; unfold trans_LRO_NN, trans_LRO_NR, trans_LRO_AN, trans_LRO_AR, LRO,
    trans_SCO_NN, trans_SCO_NR, trans_SCO_AN, trans_SCO_AR, SCO,
    trans_TRAP, trans_ESCAPE, trans_CPCO, trans_CPRD, trans_CPWR, trans_CPLD, trans_CPST, trans_FENCE;
    quiet_tac.
  all: apply quiet_foldr; intros ? k _ Hk; quiet_tac.
Qed.
Lemma quiets_table : quiets trans_table.
Proof.
  unfold trans_table, quiets. repeat apply Forall_app_2;
    first [apply quiets_ldst | apply quiets_ldstm | apply quiets_assign | apply quiets_arith | apply quiets_logic
          | apply quiets_control | apply quiets_fcvt | apply quiets_falg | apply quiets_system].
Qed.
Lemma quiet_leave goto_tb ok : quiet (leave goto_tb ok).
Proof. unfold leave, dadao_tr_tb_stop. quiet_tac. Qed.

(** The word of such a compare. *)
Definition zero_compare (w : Z) : bool :=
  match decode w with Some p => compares_into_zero (p_name p) (pattern_args p w) | None => false end.

Section Zero.
Context {M : Type} (B : backend M) (L : tcg_laws B).
Variable helper : string -> CPUDADAOState -> list Z -> Z * CPUDADAOState.
Variable disas : Z -> gen bool.
Hypothesis Hdisas : decodetree_laws disas.
Variable goto_tb : Z -> bool.
(** A helper does not touch rd0 itself ([fpu_helper_spares] below). *)
Definition helper_spares : Prop := forall h env xs, reg RD 0 (snd (helper h env xs)) = reg RD 0 env.
Hypothesis Hh : helper_spares.

Lemma quiet_decoded w : zero_compare w = false -> quiet (disas w).
Proof.
  unfold zero_compare. intros Hw. destruct (decode w) as [p|] eqn:E.
  - apply decode_some in E as [Hp Hm]. destruct (linked_pattern p Hp) as [g Hg].
    rewrite (dt_match _ Hdisas w p g Hp Hm Hg). apply assoc_elem in Hg.
    pose proof quiets_table as Ht. unfold quiets in Ht. rewrite Forall_forall in Ht. by apply (Ht _ Hg).
  - rewrite (dt_none _ Hdisas); [apply quiet_ret|]. by apply decode_none.
Qed.

Definition zero_holds (env : CPUDADAOState) : Prop := reg RD 0 env = 0.
Definition zero_outcome (o : outcome M) : Prop :=
  match o with Fall m | Exit m | Raise _ m | Fault m => zero_holds (m_env m) | NoLabel => True end.
Lemma set_spares (m : mach M) v x : is_zero_reg v = false -> zero_holds (m_env m) -> zero_holds (m_env (set m v x)).
Proof.
  unfold zero_holds. intros Hv Hm. destruct m as [env t mem]. destruct v; cbn [set m_env] in *; try done.
  - rewrite reg_set_reg_ne; [done|]. destruct f; cbn in Hv; [right; lia|by left..].
  - by destruct env.
  - by destruct env.
  - by destruct env.
Qed.
Lemma exec_op_zero o m : spares o -> zero_holds (m_env m) ->
  match exec_op B helper o m with
  | Go m' | Jump _ m' => zero_holds (m_env m')
  | Stop r => zero_outcome r
  end.
Proof.
  unfold spares. intros Ho Hm. destruct o; cbn [op_dests exec_op] in *;
    repeat match goal with H : Forall _ (_ :: _) |- _ => apply Forall_cons in H as [? H] end;
    repeat case_match; simplify_eq; cbn [zero_outcome]; auto using set_spares.
  apply set_spares; [done|]. cbn [m_env]. unfold zero_holds.
  match goal with E : helper ?h ?e ?xs = (?z, ?c) |- _ => pose proof (Hh h e xs) as Hk; rewrite E in Hk end.
  cbn [snd] in Hk. by rewrite Hk.
Qed.
Lemma after_label_keeps (P : op -> Prop) l ops tl :
  after_label l ops = Some tl -> Forall P ops -> Forall P tl.
Proof.
  intros E Hf. induction Hf as [|o ops Ho Hf IH]; [done|]. cbn in E. destruct o; auto.
  destruct (l =? l0)%nat; [|auto]. by injection E as <-.
Qed.
Lemma exec_zero fuel : forall ops m, Forall spares ops -> zero_holds (m_env m) ->
  zero_outcome (exec_n B helper fuel ops m).
Proof.
  induction fuel as [|fuel IH]; intros [|o tl] m Ho Hm; cbn [exec_n]; try done.
  apply Forall_cons in Ho as [Ho Htl]. pose proof (exec_op_zero o m Ho Hm) as Hs.
  destruct (exec_op B helper o m) as [m'|l m'|r]; [by apply IH| |done].
  destruct (after_label l tl) as [tl'|] eqn:E; [|done]. apply IH; [|done].
  by apply (after_label_keeps _ _ _ _ E).
Qed.

Definition zero_result (r : result M) : Prop :=
  match r with
  | RFall env _ | RExit env _ | RRaise _ env _ | RFault env _ => zero_holds env
  | RNoLabel => True
  end.
(** A word that is no compare into rd0 leaves zero there, whatever was
    there before. *)
Lemma step_zero pc w env mem r : zero_compare w = false -> wf_env env ->
  step B helper disas goto_tb pc w env mem = Some r -> zero_result r.
Proof.
  intros Hw Hwf. unfold step. rewrite translate_one_eq.
  destruct ((disas w ≫= leave goto_tb) (GSt (ctx_at pc) 0 0 (start_ops pc))) as [u s| |] eqn:E; [|done..].
  assert (Hq : quiet (disas w ≫= leave goto_tb)).
  { apply quiet_bind; [by apply quiet_decoded|]. intros ok. apply quiet_leave. }
  destruct (Hq _ _ _ E) as (o & Eo & Ho). cbn [g_ops] in Eo. rewrite Eo, (exec_start B L) by done.
  intros [= <-]. assert (Hz : zero_outcome (exec B helper o (Mach (prologue env) ∅ mem))).
  { apply exec_zero; [done|]. cbn [m_env]. unfold zero_holds, prologue.
    rewrite reg_set_reg_ne by (by left). by rewrite reg_set_reg_eq by (done || lia). }
  by destruct (exec _ _ _ _).
Qed.

(** *** The loop *)
Variable H : host M.
Variable fetch : M -> Z -> option Z.
(** Neither does the host. *)
Definition host_spares : Prop :=
  (forall env mem n xs, zero_holds env -> zero_holds (snd (fst (do_syscall H env mem n xs)))) /\
  (forall env mem, zero_holds env -> zero_holds (fst (cpu_exec_step_atomic H env mem))).
Hypothesis Hhost : host_spares.
Definition zero_state (e : emu M) : Prop :=
  match e with Running env _ | Signalled _ _ env _ => zero_holds env | Aborted => True end.

Lemma zero_set_reg f i v env : (f, i) <> (RD, 0) -> zero_holds env -> zero_holds (set_reg f i v env).
Proof.
  unfold zero_holds. intros Hf Hz. rewrite reg_set_reg_ne; [done|].
  destruct (decide (f = RD)) as [->|]; [right; congruence|by left].
Qed.
Lemma loop_zero x env mem : zero_holds env -> zero_state (cpu_loop_body H x env mem).
Proof.
  intros Hz. destruct Hhost as [Hs Ha]. unfold cpu_loop_body, set_PC.
  destruct (_ =? DADAO_EXCP_TRAP).
  - specialize (Hs env mem (reg RD DD_SYSCALL_NUM_REGNUM env) (syscall_args env) Hz).
    destruct (do_syscall H env mem _ _) as [[ret env'] mem']. cbn in Hs.
    repeat case_match; cbn; by repeat apply zero_set_reg.
  - destruct (_ =? DADAO_EXCP_ILLI); [done|]. destruct (_ =? EXCP_INTERRUPT H); [done|].
    destruct (_ =? EXCP_DEBUG H); [done|]. destruct (_ =? EXCP_ATOMIC H); [|done].
    specialize (Ha env mem Hz). by destruct (cpu_exec_step_atomic H env mem).
Qed.

(** C9: Start the emulator in a state with full register files, 64-bit values
    and zero in rd0.  Every state it reaches has full register files and
    64-bit values, and zero in rd0 -- unless the instruction just executed
    was a floating-point compare into rd0, whose generator alone does not
    guard register 0. *)
Theorem zero_register e e' :
  values_64 B helper -> host_ok H -> emu_ok e -> zero_state e ->
  emu_steps H B helper disas goto_tb fetch e e' ->
  emu_ok e' /\
  (zero_state e' \/ exists env mem w,
     emu_steps H B helper disas goto_tb fetch e (Running env mem) /\ fetch mem (REG_PC env) = Some w /\
     zero_compare w = true /\ emu_step H B helper disas goto_tb fetch (Running env mem) e').
Proof.
  intros V Hho He Hz Hs. split; [by apply (reachable_ok B helper H disas goto_tb fetch e e')|].
  apply rtc_inv_r in Hs as [->|(e1 & Hs & H1)]; [by left|].
  pose proof (reachable_ok B helper H disas goto_tb fetch e e1 V Hho He Hs) as Ho.
  assert (Hcase : forall env mem w, e1 = Running env mem -> fetch mem (REG_PC env) = Some w ->
    (zero_compare w = false -> zero_state e') -> zero_state e' \/ exists env mem w,
     emu_steps H B helper disas goto_tb fetch e (Running env mem) /\ fetch mem (REG_PC env) = Some w /\
     zero_compare w = true /\ emu_step H B helper disas goto_tb fetch (Running env mem) e').
  { intros env mem w -> Hf Hd. destruct (zero_compare w) eqn:E; [|by left; apply Hd].
    right. by exists env, mem, w. }
  destruct H1 as [env mem w env' mem' Hf Hx|env mem w x env' mem' Hf Hx];
    eapply (Hcase _ _ _ eq_refl Hf); intros Hw; apply (step_zero _ _ _ _ _ Hw) in Hx; try apply Ho; [done|].
  by apply loop_zero.
Qed.
End Zero.

(** The helpers of helper-fpu.c are such: they change the flags of rf0. *)
Lemma fpu_helper_spares SF : helper_spares (fpu_helper SF).
Proof.
  intros h env xs. unfold fpu_helper. destruct (assoc h (fpu_helpers SF)) as [[k f]|] eqn:E; [|done].
  apply assoc_elem in E. cbn in E. revert E.
  assert (H : Forall (fun e => forall xs env, reg RD 0 (snd (snd (snd e) xs env)) = reg RD 0 env) (fpu_helpers SF)).
  2:{ rewrite Forall_forall in H. intros E. exact (H _ E xs env). }
  clear. assert (Ht : forall v m1 s1 m2 s2 env,
    reg RD 0 (dadao_fpu_tail v (set_fp m2 s2 (set_fp m1 s1 env))) = reg RD 0 env).
  { intros. unfold dadao_fpu_tail. rewrite reg_set_reg_ne by (by left). by rewrite !reg_set_fp. }
  unfold fpu_helpers. repeat apply Forall_app_2.
  1-2: repeat apply Forall_cons_2; try apply Forall_nil_2; cbn [snd]; intros; unfold fp_call, dadao_fpu_head;
    destruct (sf_op _ _ _ _); apply Ht.
  - repeat apply Forall_cons_2; try apply Forall_nil_2; cbn [snd]; intros xs env;
      (destruct xs as [|x [|y [|z xs]]]; try done); unfold fcmp_real, dadao_fpu_head;
      destruct (sf_compare _ _ _ _ _); apply Ht.
  - repeat apply Forall_cons_2; try apply Forall_nil_2; cbn [snd]; intros xs env; repeat case_match; done.
Qed.

(** ** A softfloat with the documented predicates *)
Definition ref_softfloat : softfloat :=
  SoftFloat 0 3 1 2
    (fun _ xs st => (0, FloatStatus (float_rounding_mode st) 1))
    (fun _ x y st => (if x <? y then float_relation_less else float_relation_equal, st))
    (fun f => Z.testbit f 31) (fun f => f mod 2^31 =? 0x7f800000) (fun f => f mod 2^31 =? 0)
    (fun f => f mod 2^31 <? 2^23) (fun f => 0x7f800000 <? f mod 2^31)
    (fun f _ => (0x7f800000 <? f mod 2^31) && Z.testbit f 22)
    (fun f s => f mod 2^31 + (s mod 2) * 2^31)
    (fun f => Z.testbit f 63) (fun f => f mod 2^63 =? 0x7ff0000000000000) (fun f => f mod 2^63 =? 0)
    (fun f => f mod 2^63 <? 2^52) (fun f => 0x7ff0000000000000 <? f mod 2^63)
    (fun f _ => (0x7ff0000000000000 <? f mod 2^63) && Z.testbit f 51)
    (fun f s => f mod 2^63 + (s mod 2) * 2^63).
Lemma ref_softfloat_laws : softfloat_laws ref_softfloat.
Proof. by split. Qed.

(** The single 1.0 is a positive normal, and the double with that pattern
    a positive subnormal. *)
Lemma classify_spec_witness :
  helper_ftcls ref_softfloat 0x3f800000 = 2^6 /\ helper_focls ref_softfloat 0x3f800000 = 2^5.
Proof. apply (classify_spec ref_softfloat 0x3f800000); [apply ref_softfloat_laws | lia]. Defined.

Lemma sign_injection_witness :
  helper_ftsgnj ref_softfloat 0x3f800000 0x80000000 = 0xbf800000 /\
  helper_ftsgnn ref_softfloat 0x3f800000 0x80000000 = 0x3f800000 /\
  helper_fosgnj ref_softfloat 0x3f800000 0x80000000 = 0x3f800000 /\
  helper_fosgnn ref_softfloat 0x3f800000 0x80000000 = 0x800000003f800000.
Proof.
  apply (sign_injection ref_softfloat 0x3f800000 0x80000000); [apply ref_softfloat_laws | lia | lia].
Defined.

Lemma fpu_helper_flags_witness :
  flags_only demo_env (snd (fpu_helper ref_softfloat "ftadd" demo_env [1; 2])) /\
  Z.land (reg RF 0 (snd (fpu_helper ref_softfloat "ftadd" demo_env [1; 2]))) (reg RF 0 demo_env)
  = reg RF 0 demo_env.
Proof. apply (fpu_helper_flags ref_softfloat "ftadd" [1; 2] demo_env). apply demo_wf. Defined.

(** ** A page table with one superpage: 0xC0000000 is mapped to 0x00400000 *)
Definition demo_table (a : Z) : Z := if a =? 0x8000 + 4 * 768 then 2^22 + 256 + 4 + 3 else 0.
Definition paging_env : CPUDADAOState := set_cp0 (Cp0 0 0 1 0x8000 0 0 0 0) demo_env.
Lemma walk_spec_witness :
  get_phys_addr_dadao demo_table paging_env 0xC0000123 0 true
  = WMapped 0x400123 (Prot true false false) (2^22).
Proof. apply (walk_spec demo_table paging_env 0xC0000123 0 true). lia. Defined.
(** A write to it by the user is refused. *)
Lemma tlb_fill_spec_witness :
  dadao_cpu_tlb_fill demo_table paging_env 0xC0000123 1 1 false
  = MmuExcp DADAO_EXCP_DMMU (set_fault 0x12 0xC0000123 paging_env).
Proof. apply (tlb_fill_spec demo_table paging_env 0xC0000123 1 1 false). lia. Defined.

(** ** The reference backend produces 64-bit values *)
Lemma load_bytes_range n a m : 0 <= load_bytes n a m < 256 ^ Z.of_nat n.
Proof.
  revert a. induction n as [|n IH]; intros a; [cbn; lia|]. cbn [load_bytes].
  rewrite Nat2Z.inj_succ, Z.pow_succ_r by lia.
  pose proof (Z.mod_pos_bound (default 0 (m !! w64 a)) 256). specialize (IH (a + 1)). lia.
Qed.
Lemma bit_op_range (f : Z -> Z -> Z) a b :
  (forall i, 0 <= i -> Z.testbit a i = false -> Z.testbit b i = false -> Z.testbit (f a b) i = false) ->
  0 <= a < 2^64 -> 0 <= b < 2^64 -> 0 <= f a b -> f a b < 2^64.
Proof.
  intros Hf Ha Hb H0. destruct (Z.lt_ge_cases (f a b) (2^64)) as [|Hge]; [done|exfalso].
  assert (Hp : 0 < f a b) by lia.
  assert (Hl : 64 <= Z.log2 (f a b)) by (apply Z.log2_le_pow2; lia).
  pose proof (Z.bit_log2 (f a b) Hp) as Hbit.
  assert (Hh : forall x, 0 <= x < 2^64 -> Z.testbit x (Z.log2 (f a b)) = false).
  { intros x Hx. rewrite <- (Z.mod_small x (2^64)) by done. apply Z.mod_pow2_bits_high. lia. }
  rewrite Hf in Hbit; [done|lia|by apply Hh|by apply Hh].
Qed.
Lemma ref_alu_range o a b : 0 <= a < 2^64 -> 0 <= b < 2^64 -> 0 <= ref_alu o a b < 2^64.
Proof.
  intros Ha Hb. destruct o; cbn [ref_alu]; auto using w64_range.
  - split; [apply Z.land_nonneg; lia|]. apply bit_op_range; [|lia|lia|apply Z.land_nonneg; lia].
    intros i _ Hi _. by rewrite Z.land_spec, Hi.
  - split; [apply Z.lor_nonneg; lia|]. apply bit_op_range; [|lia|lia|apply Z.lor_nonneg; lia].
    intros i _ Hi Hj. by rewrite Z.lor_spec, Hi, Hj.
  - split; [apply Z.lxor_nonneg; lia|]. apply bit_op_range; [|lia|lia|apply Z.lxor_nonneg; lia].
    intros i _ Hi Hj. by rewrite Z.lxor_spec, Hi, Hj.
  - rewrite Z.shiftr_div_pow2 by lia. split; [apply Z.div_pos; [lia|]; apply Z.pow_pos_nonneg; lia|].
    apply Z.div_lt_upper_bound; [apply Z.pow_pos_nonneg; lia|].
    assert (1 <= 2^b) by (apply (Z.pow_le_mono_r 2 0); lia). nia.
  - destruct (Z.eq_dec b 0) as [->|]; [by rewrite Z.div_0_r|].
    split; [apply Z.div_pos; lia|apply Z.div_lt_upper_bound; nia].
  - destruct (Z.eq_dec b 0) as [->|]; [by rewrite Z.mod_0_r|].
    pose proof (Z.mod_pos_bound a b). lia.
Qed.
Lemma mo_bytes_max mo : 256 ^ Z.of_nat (mo_bytes mo) <= 2^64.
Proof. destruct mo; vm_compute; discriminate. Qed.
Lemma ref_values : values_64 ref_backend no_helper.
Proof.
  split.
  - apply ref_alu_range.
  - intros [] a b c d; cbn; auto using w64_range.
  - intros [] a b; cbn; auto using w64_range.
  - intros mo a m v. unfold ref_backend. cbn [b_ld]. intros E. apply (inj Some) in E. subst v.
    unfold mo_extend. destruct (mo_signed mo); [apply w64_range|].
    pose proof (load_bytes_range (mo_bytes mo) a m). pose proof (mo_bytes_max mo). lia.
  - intros mo a c n m v m'. unfold ref_backend. cbn [b_cmpxchg]. intros [= <- _].
    pose proof (load_bytes_range (mo_bytes mo) a m). pose proof (mo_bytes_max mo). lia.
  - intros h env xs Hm _. split; [cbn; lia|done].
Qed.

(** ** A host whose system calls return 42 *)
Definition ref_host : host bytes_mem :=
  Host _ (fun env mem n xs => (42, env, mem)) (fun env mem => (env, mem)) 512 513 0x10000 0x10002 0x10005.
Lemma ref_host_ok : host_ok ref_host.
Proof. by split. Qed.
Lemma demo_ok : machine_ok demo_env.
Proof. split; [apply demo_wf|apply demo_u64|..]; cbn; lia. Qed.

(** Memory at the start address holds the trap instruction. *)
Definition demo_fetch (m : bytes_mem) (pc : Z) : option Z := Some 0x76000000.
Lemma zero_register_witness :
  let e' := cpu_loop_body ref_host DADAO_EXCP_TRAP (prologue demo_env) ∅ in emu_ok e' /\ zero_state e'.
Proof.
  cbv zeta.
  destruct (zero_register ref_backend ref_laws no_helper decode_ref decode_ref_laws (fun _ => true)
      (fun h env xs => eq_refl) ref_host demo_fetch
      (conj (fun env mem n xs H => H) (fun env mem H => H))
      (Running demo_env ∅) (cpu_loop_body ref_host DADAO_EXCP_TRAP (prologue demo_env) ∅)) as [H1 H2].
  - apply ref_values.
  - apply ref_host_ok.
  - apply demo_ok.
  - reflexivity.
  - apply rtc_once. eapply ES_raise; [reflexivity|]. vm_compute. reflexivity.
  - split; [exact H1|]. destruct H2 as [H2|(env & mem & w & _ & Hf & Hw & _)]; [exact H2|].
    injection Hf as <-. vm_compute in Hw. discriminate Hw.
Defined.

(** A compare into rd0 does write it: the result of the helper stands there
    until the next instruction resets it. *)
Definition compare_word : Z := p_match (pat "FTQCMP") + 1 * 2^6 + 2.
Lemma compare_writes_zero : zero_compare compare_word = true /\
  exists env', step ref_backend (fun _ env _ => (1, env)) decode_ref (fun _ => true) 0x1000 compare_word demo_env ∅
    = Some (RExit env' ∅) /\ reg RD 0 env' = 1.
Proof. split; [vm_compute; done|]. eexists. split; vm_compute; reflexivity. Qed.

(** The call returns 42 in rd31 and continues after the trap. *)
Lemma syscall_spec_witness :
  cpu_loop_body ref_host DADAO_EXCP_TRAP demo_env ∅
  = Running (set_reg RD 31 42 (set_PC 0x1004 demo_env)) ∅.
Proof.
  rewrite (syscall_spec ref_host demo_env ∅ 42 demo_env ∅).
  - vm_compute. reflexivity.
  - reflexivity.
  - apply demo_ok.
Defined.

Lemma sigtramp_spec_witness :
  exists env', step ref_backend no_helper decode_ref (fun _ => true) 0x1000 (Z.lor 0x193C0000 139) demo_env ∅
               = Some (RExit env' ∅) /\
    reg RD DD_SYSCALL_NUM_REGNUM env' = TARGET_NR_rt_sigreturn /\ REG_PC env' = w64 (0x1000 + 4).
Proof.
  apply (sigtramp_spec ref_backend no_helper decode_ref (fun _ => true) 0x1000 0x1000
           (Z.lor 0x193C0000 139) 0x76000000 demo_env ∅).
  - apply ref_laws.
  - apply decode_ref_laws.
  - apply demo_ok.
  - lia.
  - reflexivity.
Defined.
