(* ===== verification/Disas.v ===== *)
(** The disassembler: opcodes/dadao-dis.c of binutils and disas/dadao.c of
    the emulator, the same code but for one format call (modelled by itself in DisasQemu).

    Output is the list of calls to the printing functions; [sprintf] gives
    the text of a format. *)
From S2P Require Import Prelude Opcodes Cpu Tcg Translate IsaArith Frame Decode.
Import Stdlib.Strings.Ascii.
Local Open Scope string_scope.
Local Open Scope Z_scope.

(** What analyze_operand leaves through its pointers. *)
Record operand_state := OpState { cal_offset : Z; illegal_insn : bool }.

Definition analyze_operand (optype : dadao_disassemble_type) (insn : Z) (st : operand_state)
    : Z * operand_state :=
  if illegal_insn st then (0, st)
  else match optype with
  | dis_none => (0, st)
  | dis_immu6 => (Z.land insn 0x3f, st)
  | dis_immu12 => (Z.land insn 0xfff, st)
  | dis_immu18 => (Z.land insn 0x3ffff, st)
  | dis_ww => (Z.land (Z.shiftr insn 16) 0x3, st)
  | dis_immu16 => (Z.land insn 0xffff, st)
  | dis_imms12 =>
      (if negb (Z.land insn 0x800 =? 0) then Z.lor 0xfffff000 (Z.land insn 0xfff)
       else Z.land insn 0xfff, st)
  | dis_imms18 =>
      (if negb (Z.land insn 0x20000 =? 0) then Z.lor 0xfffc0000 (Z.land insn 0x3ffff)
       else Z.land insn 0x3ffff, st)
  | dis_offset12 => (0, OpState 12 (illegal_insn st))
  | dis_offset18 => (0, OpState 18 (illegal_insn st))
  | dis_offset24 => (0, OpState 24 (illegal_insn st))
  | dis_ha => (Z.land (Z.shiftr insn 18) 0x3f, st)
  | dis_hb => (Z.land (Z.shiftr insn 12) 0x3f, st)
  | dis_hc => (Z.land (Z.shiftr insn 6) 0x3f, st)
  | dis_hd => (Z.land insn 0x3f, st)
  end.

(** A printed piece: a format with its arguments, or an address. *)
Inductive piece :=
  | Text (format : string) (args : list Z)
  | Address (a : Z).

(** The instruction word from the four bytes in memory: bfd_getb32 and the
    rearrangement of its fields. *)
Definition bfd_getb32 (b0 b1 b2 b3 : Z) : Z :=
  Z.lor (Z.lor (Z.lor (Z.shiftl b0 24) (Z.shiftl b1 16)) (Z.shiftl b2 8)) b3.
Definition insn_word (b0 b1 b2 b3 : Z) : Z :=
  let insn := bfd_getb32 b0 b1 b2 b3 in
  let ha := Z.land (Z.shiftr insn 10) 0x3F in
  let hb := Z.shiftl (Z.land (Z.shiftr insn 8) 0x3) 4 + Z.land (Z.shiftr insn 20) 0xF in
  let hc := Z.shiftl (Z.land (Z.shiftr insn 16) 0xF) 2 + Z.shiftr insn 30 in
  let hd := Z.land (Z.shiftr insn 24) 0x3F in
  w32 (Z.shiftl (Z.land insn 0xFF) 24 + Z.shiftl ha 18 + Z.shiftl hb 12 + Z.shiftl hc 6 + hd).

(** The first row whose fixed bits match; the table has no sentinel, so a
    word of no row runs past its end: [None]. *)
Fixpoint find_row (rows : list dadao_disassemble) (insn : Z) : option dadao_disassemble :=
  match rows with
  | [] => None
  | d :: rows => if Z.land insn (opcode_mask d) =? opcode_match d then Some d else find_row rows insn
  end.

(** A branch offset of [n] bits, shifted left by 2 and sign-adjusted. *)
Definition branch_offset (insn n : Z) : Z :=
  let offset := Z.shiftl (Z.land insn (Z.ones n)) 2 in
  if negb (Z.land offset (2 ^ (n + 1)) =? 0) then offset - 2 ^ (n + 2) else offset.

(** Printing a matched row: the pieces and info->target. *)
Definition print_row (memaddr insn : Z) (d : dadao_disassemble) : list piece * Z :=
  let fmt := disassemble_format d in
  let st := OpState 0 false in
  let '(op_1, st) := analyze_operand (op1 d) insn st in
  let '(op_2, st) := analyze_operand (op2 d) insn st in
  let '(op_3, st) := analyze_operand (op3 d) insn st in
  let '(op_4, st) := analyze_operand (op4 d) insn st in
  if illegal_insn st then ([Text "*unknown* (0x%08x)" [insn]], 0)
  else if cal_offset st =? 12 then
    let target := w64 (memaddr + branch_offset insn 12) in
    ([Text fmt [op_1; op_2]; Address target], target)
  else if cal_offset st =? 18 then
    let target := w64 (memaddr + branch_offset insn 18) in ([Text fmt [op_1]; Address target], target)
  else if cal_offset st =? 24 then
    let target := w64 (memaddr + branch_offset insn 24) in ([Text fmt []; Address target], target)
  else
    let args :=
      if operand_num d =? 1 then Some [op_1]
      else if operand_num d =? 2 then Some [op_1; op_2]
      else if operand_num d =? 3 then Some [op_1; op_2; op_3]
      else if operand_num d =? 4 then Some [op_1; op_2; op_3; op_4]
      else None in
    (match args with Some a => [Text fmt a] | None => [] end, 0).

(** read_memory_func failing is [DisError]. *)
Inductive dis_result :=
  | DisError
  | DisOk (pieces : list piece) (target : Z)
  | DisPastTable.

Definition print_insn_dadao (memaddr : Z) (buffer : option (Z * Z * Z * Z)) : dis_result :=
  match buffer with
  | None => DisError
  | Some (b0, b1, b2, b3) =>
      let insn := insn_word b0 b1 b2 b3 in
      match find_row dadao_disassemble_opcodes insn with
      | None => DisPastTable
      | Some d => let '(ps, t) := print_row memaddr insn d in DisOk ps t
      end
  end.

(** ** The fields of the disassembler are the fields of the decoder *)

(** The decoder's field an operand prints: name, sign, width, position. *)
Definition op_field (t : dadao_disassemble_type) : option (string * bool * nat * nat) :=
  match t with
  | dis_none => None
  | dis_ha => Some ("ha", false, 6, 18)%nat
  | dis_hb => Some ("hb", false, 6, 12)%nat
  | dis_hc => Some ("hc", false, 6, 6)%nat
  | dis_hd => Some ("hd", false, 6, 0)%nat
  | dis_immu6 => Some ("immu6", false, 6, 0)%nat
  | dis_immu12 => Some ("immu12", false, 12, 0)%nat
  | dis_immu18 => Some ("immu18", false, 18, 0)%nat
  | dis_ww => Some ("ww", false, 2, 16)%nat
  | dis_immu16 => Some ("immu16", false, 16, 0)%nat
  | dis_imms12 | dis_offset12 => Some ("imms12", true, 12, 0)%nat
  | dis_imms18 | dis_offset18 => Some ("imms18", true, 18, 0)%nat
  | dis_offset24 => Some ("imms24", true, 24, 0)%nat
  end.
Definition row_ops (d : dadao_disassemble) : list dadao_disassemble_type :=
  [op1 d; op2 d; op3 d; op4 d].

(** The fields of a pattern, with their positions. *)
Fixpoint placed_fields (fs : list dfield) : list (string * bool * nat * nat) :=
  match fs with
  | [] => []
  | DBits _ :: fs => placed_fields fs
  | DField n s len :: fs => (n, s, len, fields_len fs) :: placed_fields fs
  end.

(** The row of a pattern: same fixed bits, same fields in the same order. *)
Definition row_of (p : pattern) (d : dadao_disassemble) : Prop :=
  opcode_mask d = p_mask p /\ opcode_match d = p_match p /\
  omap op_field (row_ops d) = placed_fields (p_fields p) /\
  Z.of_nat (length (placed_fields (p_fields p))) = operand_num d.
#[export] Instance row_of_dec p d : Decision (row_of p d).
Proof. unfold row_of. apply _. Defined.

Lemma rows_cover : Forall (fun p => Exists (row_of p) dadao_disassemble_opcodes) insns_decode.
Proof. apply (bool_decide_unpack _). vm_compute. done. Qed.
Lemma patterns_cover : Forall (fun d => Exists (fun p => row_of p d) insns_decode) dadao_disassemble_opcodes.
Proof. apply (bool_decide_unpack _). vm_compute. done. Qed.

(** ** What a row prints *)
Definition is_offset (t : dadao_disassemble_type) : option Z :=
  match t with
  | dis_offset12 => Some 12 | dis_offset18 => Some 18 | dis_offset24 => Some 24
  | _ => None
  end.
Definition is_plain (t : dadao_disassemble_type) : bool :=
  match t with dis_none | dis_offset12 | dis_offset18 | dis_offset24 => false | _ => true end.
Definition plain_ops (d : dadao_disassemble) : list dadao_disassemble_type :=
  List.filter is_plain (row_ops d).
Definition op_value (insn : Z) (t : dadao_disassemble_type) : Z :=
  fst (analyze_operand t insn (OpState 0 false)).
Definition row_print (memaddr insn : Z) (d : dadao_disassemble) : list piece * Z :=
  let text := Text (disassemble_format d) (map (op_value insn) (plain_ops d)) in
  match omap is_offset (row_ops d) with
  | n :: _ => let target := w64 (memaddr + branch_offset insn n) in ([text; Address target], target)
  | [] => ([text], 0)
  end.

Lemma rows_print : Forall (fun d => forall memaddr insn,
  print_row memaddr insn d = row_print memaddr insn d) dadao_disassemble_opcodes.
Proof.
  unfold dadao_disassemble_opcodes.
  repeat (apply Forall_cons_2; [intros memaddr insn; reflexivity|]). apply Forall_nil_2.
Qed.

(** *** Values *)
Lemma land_low x m n : 0 <= n -> m = Z.ones n -> Z.land x m = field_val false (Z.to_nat n) 0 x.
Proof.
  intros Hn ->. unfold field_val. rewrite Z.div_1_r, Z2Nat.id by lia. by apply Z.land_ones.
Qed.
Lemma sign_flag x n : 0 < n -> (Z.land x (2^(n - 1)) =? 0) = negb (Z.testbit x (n - 1)).
Proof.
  intros Hn. assert (H : Z.land x (2^(n-1)) = Z.b2z (Z.testbit x (n - 1)) * 2^(n-1)).
  { apply Z.bits_inj'. intros i Hi. rewrite Z.land_spec.
    destruct (Z.eq_dec i (n - 1)) as [->|Hne].
    - rewrite Z.pow2_bits_true, andb_true_r, Z.mul_pow2_bits, Z.sub_diag by lia.
      by destruct (Z.testbit x (n - 1)).
    - rewrite Z.pow2_bits_false, andb_false_r by lia.
      destruct (Z.testbit x (n - 1)); cbn [Z.b2z].
      + rewrite Z.mul_1_l, Z.pow2_bits_false by lia. done.
      + by rewrite Z.mul_0_l, Z.bits_0. }
  rewrite H. assert (0 < 2^(n-1)) by (apply Z.pow_pos_nonneg; lia).
  destruct (Z.testbit x (n - 1)); cbn [Z.b2z negb]; [apply Z.eqb_neq; lia|by apply Z.eqb_eq].
Qed.
(** Sign extension into a 32-bit word by setting the high bits. *)
Lemma imms_word x n : 0 < n <= 32 ->
  (if negb (Z.land x (2^(n-1)) =? 0) then Z.lor (2^32 - 2^n) (Z.land x (Z.ones n))
   else Z.land x (Z.ones n)) = sext n x mod 2^32.
Proof.
  intros Hn. rewrite sign_flag, Z.land_ones, negb_involutive by lia. unfold sext.
  pose proof (Z.mod_pos_bound x (2^n)) as Hm.
  assert (Hp : 0 < 2^n) by (apply Z.pow_pos_nonneg; lia).
  assert (H32 : 2^32 = 2^(32 - n) * 2^n) by (rewrite <- Z.pow_add_r by lia; f_equal; lia).
  assert (1 <= 2^(32-n)) by (apply (Z.pow_le_mono_r 2 0); lia).
  destruct (Z.testbit x (n - 1)).
  - replace (2^32 - 2^n) with ((2^(32 - n) - 1) * 2^n) by lia. rewrite lor_add_mul by lia.
    apply (Z.mod_unique _ _ (-1)); nia.
  - symmetry. apply Z.mod_small. nia.
Qed.

Lemma field_shift x k n : 0 <= k -> 0 <= n ->
  Z.land (Z.shiftr x k) (Z.ones n) = field_val false (Z.to_nat n) (Z.to_nat k) x.
Proof.
  intros Hk Hn. unfold field_val. by rewrite Z.land_ones, Z.shiftr_div_pow2, !Z2Nat.id by lia.
Qed.
Lemma field_small len k x : (len <= 32)%nat ->
  field_val false len k x mod 2^32 = field_val false len k x.
Proof.
  intros Hl. unfold field_val. apply Z.mod_small.
  pose proof (Z.mod_pos_bound (x / 2^Z.of_nat k) (2^Z.of_nat len)).
  assert (2^Z.of_nat len <= 2^32) by (apply Z.pow_le_mono_r; lia). lia.
Qed.

Lemma op_value_field insn t n s len k :
  is_plain t = true -> op_field t = Some (n, s, len, k) ->
  op_value insn t = field_val s len k insn mod 2^32.
Proof.
  intros Hp. destruct t; cbn [op_field is_plain] in *; try done; intros [= <- <- <- <-];
    unfold op_value; cbn [analyze_operand illegal_insn fst].
  1-4: rewrite field_small by lia.
  - exact (field_shift insn 18 6 ltac:(lia) ltac:(lia)).
  - exact (field_shift insn 12 6 ltac:(lia) ltac:(lia)).
  - exact (field_shift insn 6 6 ltac:(lia) ltac:(lia)).
  - exact (land_low insn 0x3f 6 ltac:(lia) eq_refl).
  - rewrite field_small by lia. exact (land_low insn 0x3f 6 ltac:(lia) eq_refl).
  - rewrite field_small by lia. exact (land_low insn 0xfff 12 ltac:(lia) eq_refl).
  - rewrite field_small by lia. exact (land_low insn 0x3ffff 18 ltac:(lia) eq_refl).
  - unfold field_val. rewrite Z.div_1_r. exact (imms_word insn 12 ltac:(lia)).
  - unfold field_val. rewrite Z.div_1_r. exact (imms_word insn 18 ltac:(lia)).
  - rewrite field_small by lia. exact (field_shift insn 16 2 ltac:(lia) ltac:(lia)).
  - rewrite field_small by lia. exact (land_low insn 0xffff 16 ltac:(lia) eq_refl).
Qed.

(** The offset of a branch is four times its signed field. *)
Lemma branch_offset_field insn n : 0 < n ->
  branch_offset insn n = 4 * sext n insn.
Proof.
  intros Hn. unfold branch_offset, sext. rewrite Z.land_ones, Z.shiftl_mul_pow2 by lia.
  change (2^2) with 4.
  assert (Hf : (Z.land (insn mod 2^n * 4) (2^(n + 1)) =? 0) = negb (Z.testbit insn (n - 1))).
  { replace (n + 1) with (n + 2 - 1) by lia. rewrite sign_flag by lia. f_equal.
    change 4 with (2^2). rewrite Z.mul_pow2_bits by lia. replace (n + 2 - 1 - 2) with (n - 1) by lia.
    apply Z.mod_pow2_bits_low. lia. }
  rewrite Hf, negb_involutive, Z.pow_add_r by lia. destruct (Z.testbit insn (n - 1)); lia.
Qed.
