(* ===== verification/DisasProps.v ===== *)
(** The theorems on the disassembler: it reads the word the emulator reads,
    names the instruction the emulator executes, and prints the operands the
    emulator uses. *)
From S2P Require Import Prelude Opcodes Cpu Tcg Translate IsaArith IsaControl Frame Decode.
From S2P Require Import Disas.
Local Open Scope string_scope.
Local Open Scope Z_scope.

(** ** Arguments by name *)
Definition get_arg (n : string) (a : args) : Z :=
  if (n =? "ha")%string then ha a else if (n =? "hb")%string then hb a
  else if (n =? "hc")%string then hc a else if (n =? "hd")%string then hd a
  else if (n =? "ww")%string then ww a else if (n =? "immu6")%string then immu6 a
  else if (n =? "immu12")%string then immu12 a else if (n =? "immu16")%string then immu16 a
  else if (n =? "immu18")%string then immu18 a else if (n =? "imms12")%string then imms12 a
  else if (n =? "imms18")%string then imms18 a else if (n =? "imms24")%string then imms24 a
  else 0.
Definition arg_names : list string :=
  ["ha"; "hb"; "hc"; "hd"; "ww"; "immu6"; "immu12"; "immu16"; "immu18"; "imms12"; "imms18"; "imms24"].

Lemma get_set_eq n v a : n ∈ arg_names -> get_arg n (set_arg n v a) = v.
Proof.
  intros H. destruct a. unfold arg_names in H.
  repeat (apply elem_of_cons in H as [->|H]; [done|]). by apply elem_of_nil in H.
Qed.
Lemma get_set_ne n m v a : n ∈ arg_names -> m ∈ arg_names -> n <> m ->
  get_arg n (set_arg m v a) = get_arg n a.
Proof.
  intros Hn Hm Hne. destruct a. unfold arg_names in *.
  repeat (apply elem_of_cons in Hn as [->|Hn]; [
    repeat (apply elem_of_cons in Hm as [->|Hm]; [done|]); by apply elem_of_nil in Hm|]).
  by apply elem_of_nil in Hn.
Qed.

(** The names of the fields of every pattern are known and distinct. *)
Definition field_name (f : string * bool * nat * nat) : string := let '(n, _, _, _) := f in n.
Lemma names_ok : Forall (fun p =>
  NoDup (map field_name (placed_fields (p_fields p))) /\
  Forall (fun n => n ∈ arg_names) (map field_name (placed_fields (p_fields p)))) insns_decode.
Proof. apply (bool_decide_unpack _). vm_compute. done. Qed.

Lemma fields_args_other fs insn a n :
  n ∈ arg_names -> Forall (fun m => m ∈ arg_names) (map field_name (placed_fields fs)) ->
  n ∉ map field_name (placed_fields fs) -> get_arg n (fields_args fs insn a) = get_arg n a.
Proof.
  intros Hn. revert a. induction fs as [|[c|m s len] fs IH]; intros a Hk Hni; cbn in *; auto.
  apply Forall_cons in Hk as [Hm Hk]. rewrite IH; [|done|set_solver]. apply get_set_ne; set_solver.
Qed.
Lemma fields_args_field fs insn a n s len k :
  NoDup (map field_name (placed_fields fs)) ->
  Forall (fun m => m ∈ arg_names) (map field_name (placed_fields fs)) ->
  (n, s, len, k) ∈ placed_fields fs -> get_arg n (fields_args fs insn a) = field_val s len k insn.
Proof.
  revert a. induction fs as [|[c|m s' len'] fs IH]; intros a Hd Hk Hin; cbn in *; auto.
  { by apply elem_of_nil in Hin. }
  apply NoDup_cons in Hd as [Hni Hd]. apply Forall_cons in Hk as [Hm Hk].
  apply elem_of_cons in Hin as [[= -> -> -> ->]|Hin]; [|by apply IH].
  rewrite fields_args_other by done. by apply get_set_eq.
Qed.
Lemma pattern_args_field p insn n s len k :
  p ∈ insns_decode -> (n, s, len, k) ∈ placed_fields (p_fields p) ->
  get_arg n (pattern_args p insn) = field_val s len k insn.
Proof.
  intros Hp Hin. destruct (proj1 (Forall_forall _ _) names_ok p Hp) as [Hd Hk].
  by apply fields_args_field.
Qed.

(** ** The row of a word *)
Lemma row_matches p d insn : row_of p d ->
  (Z.land insn (opcode_mask d) =? opcode_match d) = matches p insn.
Proof. intros (-> & -> & _). done. Qed.

Lemma find_row_some rows insn d :
  find_row rows insn = Some d -> d ∈ rows /\ (Z.land insn (opcode_mask d) =? opcode_match d) = true.
Proof.
  induction rows as [|r rows IH]; cbn [find_row]; [done|].
  destruct (Z.land insn (opcode_mask r) =? opcode_match r) eqn:E.
  - intros [= <-]. split; [left|done].
  - intros H. destruct (IH H). split; [by right|done].
Qed.
Lemma find_row_none rows insn d :
  find_row rows insn = None -> d ∈ rows -> (Z.land insn (opcode_mask d) =? opcode_match d) = false.
Proof.
  induction rows as [|r rows IH]; cbn [find_row]; [by intros _ ?%elem_of_nil|].
  destruct (Z.land insn (opcode_mask r) =? opcode_match r) eqn:E; [done|]. intros H [->|Hin]%elem_of_cons; auto.
Qed.

Lemma find_row_decode insn p :
  decode insn = Some p ->
  exists d, find_row dadao_disassemble_opcodes insn = Some d /\ d ∈ dadao_disassemble_opcodes /\ row_of p d.
Proof.
  intros [Hp Hm]%decode_some. destruct (find_row _ insn) as [d|] eqn:E.
  - apply find_row_some in E as [Hd Hmd]. exists d. split; [done|]. split; [done|].
    apply (proj1 (Forall_forall _ _) patterns_cover) in Hd. apply Exists_exists in Hd as (q & Hq & Hr).
    rewrite (row_matches q d insn Hr) in Hmd. by rewrite (disjoint_match p q insn).
  - pose proof (proj1 (Forall_forall _ _) rows_cover p Hp) as Hd.
    apply Exists_exists in Hd as (d & Hd & Hr).
    apply (find_row_none _ _ _ E) in Hd. rewrite (row_matches p d insn Hr) in Hd. congruence.
Qed.
Lemma find_row_undecoded insn : decode insn = None -> find_row dadao_disassemble_opcodes insn = None.
Proof.
  intros Hn. destruct (find_row _ insn) as [d|] eqn:E; [|done].
  apply find_row_some in E as [Hd Hm]. apply (proj1 (Forall_forall _ _) patterns_cover) in Hd.
  apply Exists_exists in Hd as (q & Hq & Hr). rewrite (row_matches q d insn Hr) in Hm.
  rewrite (decode_none insn Hn q Hq) in Hm. done.
Qed.

(** ** What is printed *)

(** The operands of an instruction that are printed by the format, and the
    signed field of its branch offset. *)
Definition shown (d : dadao_disassemble) (a : args) : list Z :=
  map (fun t => match op_field t with
                | Some (n, _, _, _) => get_arg n a mod 2^32
                | None => 0
                end) (plain_ops d).
Definition branch_field (d : dadao_disassemble) (a : args) : option Z :=
  match omap is_offset (row_ops d) with
  | [] => None
  | n :: _ => Some (if n =? 12 then imms12 a else if n =? 18 then imms18 a else imms24 a)
  end.
Definition shows (memaddr : Z) (d : dadao_disassemble) (a : args) : list piece * Z :=
  let text := Text (disassemble_format d) (shown d a) in
  match branch_field d a with
  | Some off => let target := w64 (memaddr + 4 * off) in ([text; Address target], target)
  | None => ([text], 0)
  end.

Lemma plain_field p d t : row_of p d -> t ∈ plain_ops d ->
  exists n s len k, op_field t = Some (n, s, len, k) /\ (n, s, len, k) ∈ placed_fields (p_fields p) /\
    is_plain t = true.
Proof.
  intros (_ & _ & Hf & _) Ht. unfold plain_ops in Ht. apply list_elem_of_In, filter_In in Ht as [Hin Hp].
  apply list_elem_of_In in Hin.
  assert (Hs : is_Some (op_field t)) by (by destruct t). destruct Hs as [[[[n s] len] k] Hs].
  exists n, s, len, k. split; [done|]. split; [|done]. rewrite <- Hf. apply list_elem_of_omap. eauto.
Qed.
Lemma offset_field p d n : row_of p d -> n ∈ omap is_offset (row_ops d) ->
  (n = 12 /\ ("imms12", true, 12%nat, 0%nat) ∈ placed_fields (p_fields p)) \/
  (n = 18 /\ ("imms18", true, 18%nat, 0%nat) ∈ placed_fields (p_fields p)) \/
  (n = 24 /\ ("imms24", true, 24%nat, 0%nat) ∈ placed_fields (p_fields p)).
Proof.
  intros (_ & _ & Hf & _) (t & Ht & Hn)%list_elem_of_omap.
  assert (Hin : forall x, op_field t = Some x -> x ∈ placed_fields (p_fields p))
    by (intros x Hx; rewrite <- Hf; apply list_elem_of_omap; eauto).
  destruct t; cbn in Hn; try done; injection Hn as <-; cbn [op_field] in Hin; eauto 6.
Qed.

Lemma print_row_shows memaddr insn p d :
  p ∈ insns_decode -> d ∈ dadao_disassemble_opcodes -> row_of p d ->
  print_row memaddr insn d = shows memaddr d (pattern_args p insn).
Proof.
  intros Hp Hd Hr. rewrite (proj1 (Forall_forall _ _) rows_print d Hd).
  unfold row_print, shows, branch_field.
  assert (Hs : map (op_value insn) (plain_ops d) = shown d (pattern_args p insn)).
  { unfold shown. apply map_ext_in. intros t Ht%list_elem_of_In.
    destruct (plain_field p d t Hr Ht) as (n & s & len & k & Hf & Hin & Hpl).
    rewrite Hf, (pattern_args_field p insn n s len k) by done. by apply (op_value_field insn t n). }
  rewrite Hs. destruct (omap is_offset (row_ops d)) as [|n ns] eqn:E; [done|].
  assert (Hin : n ∈ omap is_offset (row_ops d)) by (rewrite E; left).
  destruct (offset_field p d n Hr Hin) as [[-> Hf]|[[-> Hf]|[-> Hf]]]; cbn [Z.eqb Pos.eqb];
    pose proof (pattern_args_field p insn _ _ _ _ Hp Hf) as Hv; unfold get_arg in Hv; cbn in Hv;
    rewrite branch_offset_field, Hv by lia; unfold field_val; by rewrite Z.div_1_r.
Qed.

(** The bytes of a word in memory order. *)
Lemma insn_word_le b0 b1 b2 b3 :
  0 <= b0 < 256 -> 0 <= b1 < 256 -> 0 <= b2 < 256 -> 0 <= b3 < 256 ->
  insn_word b0 b1 b2 b3 = b0 + b1 * 2^8 + b2 * 2^16 + b3 * 2^24.
Proof.
  intros H0 H1 H2 H3. unfold insn_word.
  assert (Hw : bfd_getb32 b0 b1 b2 b3 = b0 * 2^24 + b1 * 2^16 + b2 * 2^8 + b3).
  { unfold bfd_getb32. rewrite <- !Z.lor_assoc, (lor_shiftl_add b2 b3 8) by lia.
    rewrite (lor_shiftl_add b1) by lia. rewrite (lor_shiftl_add b0) by lia. lia. }
  rewrite Hw. set (w := b0 * 2^24 + b1 * 2^16 + b2 * 2^8 + b3).
  rewrite (land_mask _ 0x3F 6), (land_mask _ 0x3 2), (land_mask _ 0xF 4), (land_mask _ 0xFF 8) by (done || lia).
  rewrite (land_mask (Z.shiftr w 16) 0xF 4), (land_mask (Z.shiftr w 24) 0x3F 6) by (done || lia).
  rewrite !Z.shiftr_div_pow2, !Z.shiftl_mul_pow2 by lia.
  rewrite w32_id; unfold w; Z.div_mod_to_equations; lia.
Qed.


(** On a word that is no instruction the search runs off the end of the
    generated table, which has no terminating row. *)
Theorem undecoded_past_table memaddr b0 b1 b2 b3 :
  0 <= b0 < 256 -> 0 <= b1 < 256 -> 0 <= b2 < 256 -> 0 <= b3 < 256 ->
  decode (b0 + b1 * 2^8 + b2 * 2^16 + b3 * 2^24) = None ->
  print_insn_dadao memaddr (Some (b0, b1, b2, b3)) = DisPastTable.
Proof.
  intros H0 H1 H2 H3 Hd. unfold print_insn_dadao. rewrite insn_word_le by done.
  by rewrite find_row_undecoded.
Qed.

Lemma undecoded_past_table_witness :
  print_insn_dadao 0x1000 (Some (0xFF, 0xFF, 0xFF, 0xFF)) = DisPastTable.
Proof. apply undecoded_past_table; [lia|lia|lia|lia|vm_compute; reflexivity]. Defined.
