(* ===== verification/DisasQemu.v ===== *)
(** The emulator's disassembler, disas/dadao.c (the trace of `-d in_asm'), a
    copy of opcodes/dadao-dis.c over the same generated table.  It prints a
    jump or call through the format %s where binutils passes the text as the
    format.  [cformat] is the part of fprintf the two use. *)
From S2P Require Import Prelude Opcodes Cpu Disas.
From stdpp Require Import pretty.
From Stdlib Require Import Ascii.
Local Open Scope string_scope.
Local Open Scope Z_scope.

(** ** fprintf: %d, %x, %08x and %s *)
Inductive arg := AInt (x : Z) | AStr (s : string).
Definition hex_char (d : Z) : ascii := ascii_of_N (Z.to_N (if d <? 10 then 48 + d else 87 + d)).
Fixpoint hex_text (n : nat) (x : Z) (acc : string) : string :=
  match n with
  | O => acc
  | S n => let acc := String (hex_char (x mod 16)) acc in
      if x / 16 =? 0 then acc else hex_text n (x / 16) acc
  end.
Definition zeros (n : nat) : string := String.string_of_list_ascii (replicate n "0"%char).
Definition hex_padded (k : nat) (x : Z) : string :=
  let t := hex_text 8 x "" in (zeros (k - String.length t) ++ t)%string.
Fixpoint cformat (f : string) (args : list arg) : option string :=
  match f with
  | EmptyString => Some ""
  | String "%" (String "d" f) =>
      match args with AInt x :: args => String.append (pretty (s32 x)) <$> cformat f args | _ => None end
  | String "%" (String "x" f) =>
      match args with AInt x :: args => String.append (hex_text 8 (w32 x) "") <$> cformat f args | _ => None end
  | String "%" (String "0" (String "8" (String "x" f))) =>
      match args with AInt x :: args => String.append (hex_padded 8 (w32 x)) <$> cformat f args | _ => None end
  | String "%" (String "s" f) =>
      match args with AStr s :: args => String.append s <$> cformat f args | _ => None end
  | String "%" _ => None
  | String c f => String c <$> cformat f args
  end.

(** ** disas/dadao.c *)
Module Qemu.

(** data, with *cal_offset and *illegal_insn. *)
Record op_out := OpOut { data : Z; cal_offset : Z; illegal_insn : bool }.
Definition analyze_operand (optype : dadao_disassemble_type) (insn cal : Z) (ill : bool) : op_out :=
  if ill then OpOut 0 cal true
  else
    let put x := OpOut x cal false in
    match optype with
    | dis_none => put 0
    | dis_immu6 => put (Z.land insn 0x3f)
    | dis_immu12 => put (Z.land insn 0xfff)
    | dis_immu18 => put (Z.land insn 0x3ffff)
    | dis_ww => put (Z.land (Z.shiftr insn 16) 0x3)
    | dis_immu16 => put (Z.land insn 0xffff)
    | dis_imms12 =>
        put (if negb (Z.land insn 0x800 =? 0) then Z.lor 0xfffff000 (Z.land insn 0xfff)
             else Z.land insn 0xfff)
    | dis_imms18 =>
        put (if negb (Z.land insn 0x20000 =? 0) then Z.lor 0xfffc0000 (Z.land insn 0x3ffff)
             else Z.land insn 0x3ffff)
    | dis_offset12 => OpOut 0 12 false
    | dis_offset18 => OpOut 0 18 false
    | dis_offset24 => OpOut 0 24 false
    | dis_ha => put (Z.land (Z.shiftr insn 18) 0x3f)
    | dis_hb => put (Z.land (Z.shiftr insn 12) 0x3f)
    | dis_hc => put (Z.land (Z.shiftr insn 6) 0x3f)
    | dis_hd => put (Z.land insn 0x3f)
    end.

(** A call of fprintf_func or of print_address_func. *)
Inductive call := Printf (format : string) (args : list arg) | PrintAddress (a : Z).
(** The result, the calls and info->target; [PastTable]: no row matches. *)
Inductive outcome := MemoryError | Printed (calls : list call) (target : Z) | PastTable.

Definition branch (memaddr insn : Z) (mask sign : Z) (c : call) : outcome :=
  let offset := Z.shiftl (Z.land insn mask) 2 in
  let offset := if negb (Z.land offset sign =? 0) then offset - 2 * sign else offset in
  Printed [c; PrintAddress (w64 (memaddr + offset))] (w64 (memaddr + offset)).

(** The body of the loop for the row that matches. *)
Definition row_out (memaddr insn : Z) (dict : dadao_disassemble) : outcome :=
  let format := disassemble_format dict in
  let o1 := analyze_operand (op1 dict) insn 0 false in
  let o2 := analyze_operand (op2 dict) insn (cal_offset o1) (illegal_insn o1) in
  let o3 := analyze_operand (op3 dict) insn (cal_offset o2) (illegal_insn o2) in
  let o4 := analyze_operand (op4 dict) insn (cal_offset o3) (illegal_insn o3) in
  let cal := cal_offset o4 in
  if illegal_insn o4 then Printed [Printf "*unknown* (0x%08x)" [AInt insn]] 0
  else if cal =? 12 then branch memaddr insn 0xfff 0x2000 (Printf format [AInt (data o1); AInt (data o2)])
  else if cal =? 18 then branch memaddr insn 0x3ffff 0x80000 (Printf format [AInt (data o1)])
  else if cal =? 24 then branch memaddr insn 0xffffff 0x2000000 (Printf "%s" [AStr format])
  else if operand_num dict =? 1 then Printed [Printf format [AInt (data o1)]] 0
  else if operand_num dict =? 2 then Printed [Printf format [AInt (data o1); AInt (data o2)]] 0
  else if operand_num dict =? 3 then
    Printed [Printf format [AInt (data o1); AInt (data o2); AInt (data o3)]] 0
  else if operand_num dict =? 4 then
    Printed [Printf format [AInt (data o1); AInt (data o2); AInt (data o3); AInt (data o4)]] 0
  else Printed [] 0.
Fixpoint search (memaddr insn : Z) (dicts : list dadao_disassemble) : outcome :=
  match dicts with
  | [] => PastTable
  | dict :: dicts =>
      let match_ := Z.land insn (opcode_mask dict) in
      if negb (match_ =? opcode_match dict) then search memaddr insn dicts else row_out memaddr insn dict
  end.
Definition print_insn_dadao (memaddr : Z) (buffer : option (Z * Z * Z * Z)) : outcome :=
  match buffer with
  | None => MemoryError
  | Some (b0, b1, b2, b3) =>
      let insn := bfd_getb32 b0 b1 b2 b3 in
      let ha := Z.land (Z.shiftr insn 10) 0x3F in
      let hb := Z.shiftl (Z.land (Z.shiftr insn 8) 0x3) 4 + Z.land (Z.shiftr insn 20) 0xF in
      let hc := Z.shiftl (Z.land (Z.shiftr insn 16) 0xF) 2 + Z.shiftr insn 30 in
      let hd := Z.land (Z.shiftr insn 24) 0x3F in
      let insn := w32 (Z.shiftl (Z.land insn 0xFF) 24 + Z.shiftl ha 18 + Z.shiftl hb 12 + Z.shiftl hc 6 + hd) in
      search memaddr insn dadao_disassemble_opcodes
  end.
End Qemu.

(** ** The text of the two *)
Inductive shown_piece := STxt (t : option string) | SAddr (a : Z).
Inductive shown := ShownError | Shown (ps : list shown_piece) (target : Z) | ShownPast.
Definition show_piece (p : piece) : shown_piece :=
  match p with Text f args => STxt (cformat f (map AInt args)) | Address a => SAddr a end.
Definition show_binutils (r : dis_result) : shown :=
  match r with DisError => ShownError | DisOk ps t => Shown (map show_piece ps) t | DisPastTable => ShownPast end.
Definition show_call (c : Qemu.call) : shown_piece :=
  match c with Qemu.Printf f args => STxt (cformat f args) | Qemu.PrintAddress a => SAddr a end.
Definition show_qemu (r : Qemu.outcome) : shown :=
  match r with
  | Qemu.MemoryError => ShownError
  | Qemu.Printed cs t => Shown (map show_call cs) t
  | Qemu.PastTable => ShownPast
  end.

Lemma row_same : Forall (fun d => forall memaddr insn,
  show_qemu (Qemu.row_out memaddr insn d) =
  (let '(ps, t) := print_row memaddr insn d in Shown (map show_piece ps) t)) dadao_disassemble_opcodes.
Proof.
  unfold dadao_disassemble_opcodes.
  repeat (apply Forall_cons_2; [intros memaddr insn; reflexivity|]). apply Forall_nil_2.
Qed.
Lemma search_find memaddr insn ds : Qemu.search memaddr insn ds =
  match find_row ds insn with Some d => Qemu.row_out memaddr insn d | None => Qemu.PastTable end.
Proof.
  induction ds as [|d ds IH]; [done|]. cbn [Qemu.search find_row]. cbn zeta.
  by destruct (Z.land insn (opcode_mask d) =? opcode_match d); cbn [negb].
Qed.
Lemma find_row_in ds insn d : find_row ds insn = Some d -> d ∈ ds.
Proof.
  induction ds as [|x ds IH]; [done|]. cbn. destruct (_ =? _); [intros [= ->]; left|]. right. auto.
Qed.

(** The trace of the emulator shows a word as objdump does: the same text,
    address and target, or neither has a row for it. *)
Theorem disassemblers_agree memaddr buffer :
  show_qemu (Qemu.print_insn_dadao memaddr buffer) = show_binutils (print_insn_dadao memaddr buffer).
Proof.
  destruct buffer as [[[[b0 b1] b2] b3]|]; [|done]. unfold Qemu.print_insn_dadao, print_insn_dadao. cbn zeta.
  rewrite search_find. fold (insn_word b0 b1 b2 b3).
  destruct (find_row dadao_disassemble_opcodes (insn_word b0 b1 b2 b3)) as [d|] eqn:E; [|done].
  apply find_row_in in E. pose proof row_same as H. rewrite Forall_forall in H. rewrite (H d E).
  by destruct (print_row memaddr (insn_word b0 b1 b2 b3) d).
Qed.
(** A call 16 instructions ahead, and a word with registers. *)
Example trace_call : show_qemu (Qemu.print_insn_dadao 0x1000 (Some (0x10, 0, 0, 0x6c))) =
  Shown [STxt (Some "call	"); SAddr 0x1040] 0x1040.
Proof. by vm_compute. Qed.
Example trace_madd : show_qemu (Qemu.print_insn_dadao 0x1000 (Some (0xff, 0x3f, 0x4f, 0x59))) =
  Shown [STxt (Some "fomadd	rf19, rf51, rf63, rf63")] 0.
Proof. by vm_compute. Qed.
