(* ===== verification/GasData.v ===== *)
(** The data of the assembler: include/opcode/dadao.h, opcodes/dadao-opc.c
    and the tables dadao_md_begin of gas/config/tc-dadao.c builds from them.

    gas's hash tables are a parameter with the documented behaviour of
    hash_new, hash_insert and hash_find; association lists implement it. *)
From S2P Require Import Prelude Opcodes.
Local Open Scope string_scope.
Local Open Scope Z_scope.

(** ** opcodes/dadao-opc.c *)
Definition dadao_reg_aliases : list (string * Z) :=
  [ (* Data registers *)
    ("rdzero", 0); ("rderrno", 1);
    ("rdt0", 8); ("rdt1", 9); ("rdt2", 10); ("rdt3", 11);
    ("rdt4", 12); ("rdt5", 13); ("rdt6", 14); ("rdt7", 15);
    ("rda0", 16); ("rda1", 17); ("rda2", 18); ("rda3", 19);
    ("rda4", 20); ("rda5", 21); ("rda6", 22); ("rda7", 23);
    ("rda8", 24); ("rda9", 25); ("rda10", 26); ("rda11", 27);
    ("rda12", 28); ("rda13", 29); ("rda14", 30); ("rda15", 31);
    (* Base registers *)
    ("rbip", 0x40 + 0); ("rbsp", 0x40 + 1); ("rbfp", 0x40 + 2);
    ("rbgp", 0x40 + 3); ("rbtp", 0x40 + 4);
    ("rbt0", 0x40 + 8); ("rbt1", 0x40 + 9); ("rbt2", 0x40 + 10); ("rbt3", 0x40 + 11);
    ("rbt4", 0x40 + 12); ("rbt5", 0x40 + 13); ("rbt6", 0x40 + 14); ("rbt7", 0x40 + 15);
    (* Floating-point registers *)
    ("rfstat", 0x80 + 0) ].

Definition pseudo_row (n : string) (fa fb : dadao_operand_type) : dadao_opcode :=
  Opcode n 2 0 0 fa fb dadao_operand_none dadao_operand_none dadao_type_pseudo.
Definition pseudo_rows : list dadao_opcode :=
  [pseudo_row "setrd" dadao_operand_rd dadao_operand_noop;
   pseudo_row "setrd" dadao_operand_rd dadao_operand_rd;
   pseudo_row "setrd" dadao_operand_rd dadao_operand_rb;
   pseudo_row "setrd" dadao_operand_rd dadao_operand_rf;
   pseudo_row "setrd" dadao_operand_rd dadao_operand_ra;
   pseudo_row "setrb" dadao_operand_rb dadao_operand_noop;
   pseudo_row "setrb" dadao_operand_rb dadao_operand_rd;
   pseudo_row "setrb" dadao_operand_rb dadao_operand_rb;
   pseudo_row "setrf" dadao_operand_rf dadao_operand_noop;
   pseudo_row "setrf" dadao_operand_rf dadao_operand_rd;
   pseudo_row "setrf" dadao_operand_rf dadao_operand_rf].
Definition dadao_opcodes : list dadao_opcode := (insn_opc ++ pseudo_rows)%list.

(** ** include/opcode/dadao.h *)
Definition DADAO_WYDE_WH : Z := Z.shiftl 3 16.
Definition DADAO_WYDE_WJ : Z := Z.shiftl 2 16.
Definition DADAO_WYDE_WK : Z := Z.shiftl 1 16.
Definition DADAO_WYDE_WL : Z := Z.shiftl 0 16.
Definition DADAO_INSN_ORW_RD : Z := MATCH "ORWRD".
Definition DADAO_INSN_ANDNW_RD : Z := MATCH "ANDNWRD".
Definition DADAO_INSN_SETZW_RD : Z := MATCH "SETZWRD".
Definition DADAO_INSN_SETOW_RD : Z := MATCH "SETOW".
Definition DADAO_INSN_ORW_RB : Z := MATCH "ORWRB".
Definition DADAO_INSN_ANDNW_RB : Z := MATCH "ANDNWRB".
Definition DADAO_INSN_SETZW_RB : Z := MATCH "SETZWRB".
Definition DADAO_INSN_SETW : Z := MATCH "SETW".
Definition DADAO_INSN_CALL_IIII : Z := MATCH "CALLI".
Definition DADAO_INSN_CALL_RRII : Z := MATCH "CALLR".
Definition DADAO_INSN_JUMP_IIII : Z := MATCH "JUMPI".
Definition DADAO_INSN_JUMP_RRII : Z := MATCH "JUMPR".
Definition DADAO_INSN_HI18_RIII : Z := MATCH "ADRP".
Definition DADAO_INSN_LO12_RRII : Z := MATCH "LDBU".

(** Memory is a list of bytes; a [char *] is an offset into it. *)
Definition byte_at (buf : list Z) (i : Z) : Z := default 0 (zlookup buf i).
Definition or_byte (buf : list Z) (i x : Z) : list Z :=
  zupdate buf i (Z.land (Z.lor (byte_at buf i) x) 0xFF).
Definition DDOP_SET_FA (buf : list Z) (p fa : Z) : list Z :=
  or_byte buf (p + 2) (Z.shiftl (Z.land fa 0x3F) 2).
Definition DDOP_SET_FB (buf : list Z) (p fb : Z) : list Z :=
  or_byte (or_byte buf (p + 2) (Z.shiftr (Z.land fb 0x3F) 4)) (p + 1) (Z.shiftl (Z.land fb 0xF) 4).
Definition DDOP_SET_FC (buf : list Z) (p fc : Z) : list Z :=
  or_byte (or_byte buf (p + 1) (Z.shiftr (Z.land fc 0x3F) 2)) p (Z.shiftl (Z.land fc 0x3) 6).
Definition DDOP_SET_FD (buf : list Z) (p fd : Z) : list Z :=
  or_byte buf p (Z.land fd 0x3F).

(** Immediates of the HI18 and LO12 relocations. *)
Definition DD_X (x s n : Z) : Z := Z.land (Z.shiftr x s) (Z.shiftl 1 n - 1).
Definition DD_IMM_SIGN (x : Z) : Z := - Z.land (Z.shiftr x 29) 1.
Definition EXTRACT_UTYPE_IMM (x : Z) : Z :=
  Z.lor (Z.shiftl (DD_X x 12 18) 12) (Z.shiftl (DD_IMM_SIGN x) 30).
Definition ENCODE_UTYPE_IMM (x : Z) : Z := Z.shiftl (DD_X x 12 18) 12.
Definition VALID_UTYPE_IMM (x : Z) : bool := EXTRACT_UTYPE_IMM (ENCODE_UTYPE_IMM x) =? x.
Definition DADAO_IMM_BITS : Z := 12.
Definition DADAO_IMM_REACH : Z := Z.shiftl 1 DADAO_IMM_BITS.
Definition DADAO_CONST_HIGH_PART (v : Z) : Z :=
  Z.land (v + DADAO_IMM_REACH / 2) (Z.lnot (DADAO_IMM_REACH - 1)).
Definition ENCODE_ITYPE_IMM (x : Z) : Z := Z.shiftl (DD_X x 0 12) 18.

(** ** dadao_md_begin *)

(** gas/hash.h: inserting an existing key changes nothing. *)
Class HashOps (H : Type) := {
  hash_new : H;
  hash_find : H -> string -> option dadao_opcode;
  hash_insert : H -> string -> dadao_opcode -> H }.
Class HashLaws (H : Type) `{HashOps H} : Prop := {
  hash_find_new : forall k, hash_find hash_new k = None;
  hash_find_insert : forall h k v k', hash_find h k = None ->
    hash_find (hash_insert h k v) k' = if (k' =? k)%string then Some v else hash_find h k' }.

#[export] Instance assoc_hash : HashOps (list (string * dadao_opcode)) := {
  hash_new := [];
  hash_find h k := assoc k h;
  hash_insert h k v := match assoc k h with Some _ => h | None => (k, v) :: h end }.
#[export] Instance assoc_hash_laws : HashLaws (list (string * dadao_opcode)).
Proof.
  split; [done|]. intros h k v k' Hn. cbn [hash_find hash_insert assoc_hash] in *.
  rewrite Hn. cbn [assoc]. done.
Qed.

Record hashes (H : Type) := Hashes { hash_1 : H; hash_2 : H; hash_3 : H; hash_4 : H; hash_5 : H }.
Arguments Hashes {H}. Arguments hash_1 {H}. Arguments hash_2 {H}. Arguments hash_3 {H}.
Arguments hash_4 {H}. Arguments hash_5 {H}.

Section MdBegin.
Context {H : Type} `{HashOps H}.

Definition md_begin_insert (t : hashes H) (opcode : dadao_opcode) : hashes H :=
  let 'Hashes h1 h2 h3 h4 h5 := t in
  let n := name opcode in
  match hash_find h4 n, hash_find h3 n, hash_find h2 n, hash_find h1 n with
  | Some _, _, _, _ => Hashes h1 h2 h3 h4 (hash_insert h5 n opcode)
  | None, Some _, _, _ => Hashes h1 h2 h3 (hash_insert h4 n opcode) h5
  | None, None, Some _, _ => Hashes h1 h2 (hash_insert h3 n opcode) h4 h5
  | None, None, None, Some _ => Hashes h1 (hash_insert h2 n opcode) h3 h4 h5
  | None, None, None, None => Hashes (hash_insert h1 n opcode) h2 h3 h4 h5
  end.
Definition md_begin_hashes : hashes H :=
  foldl md_begin_insert (Hashes hash_new hash_new hash_new hash_new hash_new) dadao_opcodes.
End MdBegin.

(** The register symbols, in the order of symbol_table_insert; [sprintf] of
    a class and an index. *)
Definition reg_symbol (cls : string) (base i : Z) : string * Z :=
  (cls ++ Py.str_nat (Z.to_nat i), i + base).
Definition md_begin_symbols : list (string * Z) :=
  (flat_map (fun n => let i := Z.of_nat n in
     [reg_symbol "rd" 0 i; reg_symbol "rb" 64 i; reg_symbol "rf" 128 i;
      reg_symbol "ra" 192 i; reg_symbol "cp" 256 i; reg_symbol "cr" 320 i]) (seq 0 64)
   ++ dadao_reg_aliases)%list.
