(* ===== verification/Gas.v ===== *)
(** The assembler's front end: gas/config/tc-dadao.c, from a line of assembly
    to the calls on gas's frags.

    What gas provides is a parameter: symbols, the expression parser and the
    hash tables.  What dadao_md_assemble does to the current frag is the
    sequence of its calls: [C_frag_more] reserves four bytes, which become
    opcodep, and [C_number w] stores the word there. *)
From S2P Require Import Prelude Opcodes GasData.
Import Stdlib.Strings.Ascii.
Local Open Scope string_scope.
Local Open Scope Z_scope.

(** ** Expressions (gas/expr.h) *)
Inductive operatorT :=
  | O_illegal | O_absent | O_constant | O_symbol | O_register | O_left_shift
  | O_wyde  (* O_md1 *) | O_other (n : Z).
#[export] Instance operatorT_eq_dec : EqDecision operatorT.
Proof. solve_decision. Defined.

Record expressionS (sym : Type) := Exp {
  X_op : operatorT; X_add_symbol : option sym; X_op_symbol : option sym; X_add_number : Z }.
Arguments Exp {sym}. Arguments X_op {sym}. Arguments X_add_symbol {sym}.
Arguments X_op_symbol {sym}. Arguments X_add_number {sym}.

Inductive reloc :=
  | BFD_RELOC_8 | BFD_RELOC_16 | BFD_RELOC_24 | BFD_RELOC_32 | BFD_RELOC_64
  | BFD_RELOC_8_PCREL | BFD_RELOC_16_PCREL | BFD_RELOC_24_PCREL | BFD_RELOC_32_PCREL
  | BFD_RELOC_64_PCREL | BFD_RELOC_VTABLE_INHERIT | BFD_RELOC_VTABLE_ENTRY
  | BFD_RELOC_DADAO_ABS | BFD_RELOC_DADAO_BRCC | BFD_RELOC_DADAO_BRCC12
  | BFD_RELOC_DADAO_CALL | BFD_RELOC_DADAO_JUMP | BFD_RELOC_DADAO_HI18
  | BFD_RELOC_DADAO_LO12 | BFD_RELOC_other (n : Z).
#[export] Instance reloc_eq_dec : EqDecision reloc.
Proof. solve_decision. Defined.

(** ** Relaxation states *)
Definition STATE_ABS : Z := 1.
Definition STATE_BRCC : Z := 2.
Definition STATE_CALL : Z := 3.
Definition STATE_JUMP : Z := 4.
Definition STATE_HI18 : Z := 5.
Definition STATE_LO12 : Z := 6.
Definition STATE_BRCC12 : Z := 7.
Definition STATE_ZERO : Z := 0.
Definition STATE_MAX : Z := 1.
Definition STATE_UNDF : Z := STATE_MAX.
Definition RELAX_ENCODE_SHIFT : Z := 1.
Definition ENCODE_RELAX (what length : Z) : Z := Z.shiftl what RELAX_ENCODE_SHIFT + length.
Definition DD_INSN_BYTES (n : Z) : Z := n * 4.

Section Gas.
Context {sym : Type}.
Notation exp := (expressionS sym).

(** The calls of dadao_md_assemble on the current frag. *)
Inductive gas_call :=
  | C_frag_more
  | C_number (w : Z)
  | C_fix_new_exp (e : exp) (pcrel : bool) (r : reloc)
  | C_frag_var (max_chars var subtype : Z) (symbol : option sym) (offset : Z)
  | C_demand_empty_rest_of_line (line : string)
  | C_as_bad (msg : string).

(** Four bytes reserved and filled with a word. *)
Definition emit_insn (w : Z) : list gas_call := [C_frag_more; C_number (w32 w)].

(** ** dd_pseudo_set_imm *)
Definition wyde_insn (insn reg wyde imm : Z) : Z :=
  Z.lor (Z.lor (Z.lor insn (Z.shiftl reg 18)) wyde) imm.
Definition set_wyde (skip insn reg wyde imm imm' : Z) : list gas_call :=
  if imm =? skip then [] else emit_insn (wyde_insn insn reg wyde imm').

Definition dd_pseudo_set_imm (reg_dst src_imm : Z) : list gas_call :=
  let imm_w16_1 := Z.land src_imm 0xFFFF in
  let imm_w16_2 := Z.land (Z.shiftr src_imm 16) 0xFFFF in
  let imm_w16_3 := Z.land (Z.shiftr src_imm 32) 0xFFFF in
  let imm_w16_4 := Z.land (Z.shiftr src_imm 48) 0xFFFF in
  let eqw v x := b2z (x =? v) in
  let neg x := Z.land (Z.lnot x) 0xFFFF in
  if reg_dst <? 0x40 then
    let flag := eqw 0 imm_w16_4 + eqw 0 imm_w16_3 + eqw 0 imm_w16_2
                <? eqw 0xFFFF imm_w16_4 + eqw 0xFFFF imm_w16_3 + eqw 0xFFFF imm_w16_2 in
    if flag then
      (C_number (w32 (wyde_insn DADAO_INSN_SETOW_RD reg_dst DADAO_WYDE_WL imm_w16_1))
       :: set_wyde 0xFFFF DADAO_INSN_ANDNW_RD reg_dst DADAO_WYDE_WK imm_w16_2 (neg imm_w16_2)
       ++ set_wyde 0xFFFF DADAO_INSN_ANDNW_RD reg_dst DADAO_WYDE_WJ imm_w16_3 (neg imm_w16_3)
       ++ set_wyde 0xFFFF DADAO_INSN_ANDNW_RD reg_dst DADAO_WYDE_WH imm_w16_4 (neg imm_w16_4))%list
    else
      (C_number (w32 (wyde_insn DADAO_INSN_SETZW_RD reg_dst DADAO_WYDE_WL imm_w16_1))
       :: set_wyde 0 DADAO_INSN_ORW_RD reg_dst DADAO_WYDE_WK imm_w16_2 imm_w16_2
       ++ set_wyde 0 DADAO_INSN_ORW_RD reg_dst DADAO_WYDE_WJ imm_w16_3 imm_w16_3
       ++ set_wyde 0 DADAO_INSN_ORW_RD reg_dst DADAO_WYDE_WH imm_w16_4 imm_w16_4)%list
  else if (0x40 <=? reg_dst) && (reg_dst <? 0x80) then
    let reg_dst := reg_dst - 0x40 in
    (C_number (w32 (wyde_insn DADAO_INSN_SETZW_RB reg_dst DADAO_WYDE_WL imm_w16_1))
     :: set_wyde 0 DADAO_INSN_ORW_RB reg_dst DADAO_WYDE_WK imm_w16_2 imm_w16_2
     ++ set_wyde 0 DADAO_INSN_ORW_RB reg_dst DADAO_WYDE_WJ imm_w16_3 imm_w16_3
     ++ set_wyde 0 DADAO_INSN_ORW_RB reg_dst DADAO_WYDE_WH imm_w16_4 imm_w16_4)%list
  else
    let reg_dst := reg_dst - 0x80 in
    (C_number (w32 (wyde_insn DADAO_INSN_SETW reg_dst DADAO_WYDE_WL imm_w16_1))
     :: emit_insn (wyde_insn DADAO_INSN_SETW reg_dst DADAO_WYDE_WK imm_w16_2)
     ++ emit_insn (wyde_insn DADAO_INSN_SETW reg_dst DADAO_WYDE_WJ imm_w16_3)
     ++ emit_insn (wyde_insn DADAO_INSN_SETW reg_dst DADAO_WYDE_WH imm_w16_4))%list.

(** ** dd_pseudo_set_symbol *)
Definition dd_pseudo_set_symbol (expand_op : bool) (e0 e1 : exp) : list gas_call :=
  let n := X_add_number e0 in
  let number :=
    if n <? 0x40 then Z.lor (Z.lor DADAO_INSN_SETZW_RD DADAO_WYDE_WL) (Z.shiftl n 18)
    else if (0x40 <=? n) && (n <? 0x80) then
      Z.lor (Z.lor DADAO_INSN_SETZW_RB DADAO_WYDE_WL) (Z.shiftl (n - 0x40) 18)
    else Z.lor (Z.lor DADAO_INSN_SETW DADAO_WYDE_WL) (Z.shiftl (n - 0x80) 18) in
  [C_number (w32 number);
   if negb expand_op then C_fix_new_exp e1 true BFD_RELOC_DADAO_ABS
   else C_frag_var (DD_INSN_BYTES 3) 0 (ENCODE_RELAX STATE_ABS STATE_UNDF)
          (X_add_symbol e1) (X_add_number e1)].

(** ** dd_pseudo_set_register *)
Definition move_insn (insn dst src : Z) : Z :=
  w32 (Z.lor (Z.lor (Z.lor insn (Z.shiftl dst 12)) (Z.shiftl src 6)) 1).
Definition dd_pseudo_set_register (reg_dst_1 reg_dst_2 : Z) : Z :=
  let between a r b := (a <=? r) && (r <? b) in
  if reg_dst_1 <? 0x40 then
    if reg_dst_2 <? 0x40 then move_insn (MATCH "RD2RD") reg_dst_1 reg_dst_2
    else if between 0x40 reg_dst_2 0x80 then move_insn (MATCH "RB2RD") reg_dst_1 (reg_dst_2 - 0x40)
    else if between 0x80 reg_dst_2 0xc0 then move_insn (MATCH "RF2RD") reg_dst_1 (reg_dst_2 - 0x80)
    else move_insn (MATCH "RA2RD") reg_dst_1 (reg_dst_2 - 0xc0)
  else if between 0x40 reg_dst_1 0x80 then
    if reg_dst_2 <? 0x40 then move_insn (MATCH "RD2RB") (reg_dst_1 - 0x40) reg_dst_2
    else move_insn (MATCH "RB2RB") (reg_dst_1 - 0x40) (reg_dst_2 - 0x40)
  else
    if reg_dst_2 <? 0x40 then move_insn (MATCH "RD2RF") (reg_dst_1 - 0x80) reg_dst_2
    else move_insn (MATCH "RF2RF") (reg_dst_1 - 0x80) (reg_dst_2 - 0x80).

(** ** dd_get_insn_code *)

(** The macros __DD_EXP_SHOULD_BE_*: [None] is "return -1". *)
Definition SHOULD_BE_RD (e : exp) : option Z :=
  if negb (bool_decide (X_op e = O_register)) then None
  else if 0x3F <? X_add_number e then None
  else Some (w32 (X_add_number e)).
Definition should_be_reg (min max : Z) (e : exp) : option Z :=
  if negb (bool_decide (X_op e = O_register)) then None
  else if max <? X_add_number e then None
  else if X_add_number e <? min then None
  else Some (w32 (X_add_number e - min)).
Definition SHOULD_BE_RB : exp -> option Z := should_be_reg 0x40 0x7F.
Definition SHOULD_BE_RF : exp -> option Z := should_be_reg 0x80 0xBF.
Definition SHOULD_BE_RA : exp -> option Z := should_be_reg 0xC0 0xFF.
Definition SHOULD_BE_CP : exp -> option Z := should_be_reg 0x100 0x13F.
Definition SHOULD_BE_CR : exp -> option Z := should_be_reg 0x140 0x17F.
Definition SHOULD_BE_IMM (min max : Z) (e : exp) : option Z :=
  if negb (bool_decide (X_op e = O_constant)) then None
  else if max <? X_add_number e then None
  else if X_add_number e <? min then None
  else Some (X_add_number e).
Definition SHOULD_BE_WW (e : exp) : option Z :=
  if negb (bool_decide (X_op e = O_wyde)) then None
  else if 0x3 <? X_add_number e then None
  else Some (w32 (X_add_number e)).

(** The value of an enum dadao_insn_type as the int it is returned as. *)
Definition insn_type_int (t : dadao_insn_type) : Z :=
  match t with
  | dadao_type_normal => 0 | dadao_type_condbranch => 1 | dadao_type_condbranch12 => 2
  | dadao_type_branch => 3 | dadao_type_geta => 4 | dadao_type_dref => 5
  | dadao_type_jsr => 6 | dadao_type_pseudo => 7 | dadao_type_adrp => 8 | dadao_type_lo12 => 9
  end.

(** The int returned and *insn_code, [None] when it is not written. *)
Definition code_result : Type := Z * option Z.
Definition fail : code_result := (-1, None).
Definition orfail {A} (x : option A) (k : A -> code_result) : code_result :=
  match x with Some x => k x | None => fail end.
Definition code (w : Z) : option Z := Some (w32 w).

Section Code.
Variable symbol_get_value_expression : option sym -> exp.
Variable insn : dadao_opcode.
Variable exps : list exp.
Variable n_operands : Z.

Definition exp_at (i : Z) : exp := default (Exp O_illegal None None 0) (zlookup exps i).
Definition maj : Z := Z.shiftl (major_opcode insn) 24.
Definition ty : Z := insn_type_int (type insn).

(** The switch on op_fd. *)
Definition code_fd (ha hb hc : Z) (exp_last : exp) : code_result :=
  let done hd :=
    (0, code (Z.lor (Z.lor (Z.lor (Z.lor maj (Z.shiftl ha 18)) (Z.shiftl hb 12)) (Z.shiftl hc 6)) hd)) in
  match op_fd insn with
  | dadao_operand_rd => orfail (SHOULD_BE_RD exp_last) done
  | dadao_operand_rb => orfail (SHOULD_BE_RB exp_last) done
  | dadao_operand_rf => orfail (SHOULD_BE_RF exp_last) done
  | dadao_operand_ra => orfail (SHOULD_BE_RA exp_last) done
  | dadao_operand_cr => orfail (SHOULD_BE_CR exp_last) done
  | dadao_operand_immu6 =>
      (* << i6 can be omitted, thus i6 will be 0 *)
      if bool_decide (X_op exp_last = O_constant) then
        orfail (SHOULD_BE_IMM 0 0x3F exp_last) done
      else done 0
  | dadao_operand_none => done 0
  | _ => fail
  end.

(** The switch on op_fc. *)
Definition code_fc (ha hb : Z) (n_exp : Z) (exp_next exp_last : exp) : code_result :=
  let fields := Z.lor (Z.lor maj (Z.shiftl ha 18)) (Z.shiftl hb 12) in
  let go hc := code_fd ha hb hc exp_last in
  match op_fc insn with
  | dadao_operand_rd => orfail (SHOULD_BE_RD exp_next) go
  | dadao_operand_rb => orfail (SHOULD_BE_RB exp_next) go
  | dadao_operand_rf => orfail (SHOULD_BE_RF exp_next) go
  | dadao_operand_ra => orfail (SHOULD_BE_RA exp_next) go
  | dadao_operand_cr => orfail (SHOULD_BE_CR exp_next) go
  | dadao_operand_imms12 =>
      if bool_decide (X_op exp_next = O_symbol) then (ty, code fields)
      else orfail (SHOULD_BE_IMM (-0x800) 0x7FF exp_next) (fun v =>
        (* call rb0, rd0, 0 doesn't exist *)
        if (major_opcode insn =? 0x6D) && (operands_num insn =? 3)
           && ((ha =? 0) && (hb =? 0) && (Z.land v 0xFFF =? 0)) then fail
        else (0, code (Z.lor fields (Z.land v 0xFFF))))
  | dadao_operand_immu12 =>
      orfail (SHOULD_BE_IMM 0 0xFFF exp_next) (fun v => (0, code (Z.lor fields (Z.land v 0xFFF))))
  | dadao_operand_immu16 =>
      orfail (SHOULD_BE_IMM 0 0xFFFF (exp_at n_exp)) (fun v =>
        (0, code (Z.lor (Z.lor (Z.lor maj (Z.shiftl ha 18)) (Z.shiftl hb 16)) (Z.land v 0xFFFF))))
  | dadao_operand_none => go 0
  | _ => fail
  end.

(** Between op_fb and op_fc: the operand [rg << i6]. *)
Definition code_shift (ha hb : Z) (n_exp : Z) : code_result :=
  if (n_operands =? 3) && bool_decide (X_op (exp_at 2) = O_left_shift) then
    if negb (bool_decide (op_fc insn = dadao_operand_rd))
       || negb (bool_decide (op_fd insn = dadao_operand_immu6)) then fail
    else code_fc ha hb n_exp (symbol_get_value_expression (X_add_symbol (exp_at 2)))
           (symbol_get_value_expression (X_op_symbol (exp_at 2)))
  else code_fc ha hb n_exp (exp_at n_exp) (exp_at (n_exp + 1)).

(** The switch on op_fb. *)
Definition code_fb (ha : Z) (n_exp : Z) : code_result :=
  let fields := Z.lor maj (Z.shiftl ha 18) in
  let e := exp_at n_exp in
  let go hb := code_shift ha hb (n_exp + 1) in
  match op_fb insn with
  | dadao_operand_rd => orfail (SHOULD_BE_RD e) go
  | dadao_operand_rb => orfail (SHOULD_BE_RB e) go
  | dadao_operand_rf => orfail (SHOULD_BE_RF e) go
  | dadao_operand_ra => orfail (SHOULD_BE_RA e) go
  | dadao_operand_cr => orfail (SHOULD_BE_CR e) go
  | dadao_operand_ww => orfail (SHOULD_BE_WW e) go
  | dadao_operand_imms18 =>
      if bool_decide (X_op e = O_constant) then
        orfail (SHOULD_BE_IMM (-0x20000) 0x1FFFF e) (fun v =>
          (0, code (Z.lor fields (Z.land v 0x3FFFF))))
      else (ty, code fields)
  | dadao_operand_immu18 =>
      orfail (SHOULD_BE_IMM 0 0x3FFFF e) (fun v => (0, code (Z.lor fields (Z.land v 0x3FFFF))))
  | dadao_operand_none => code_shift ha 0 n_exp
  | _ => fail
  end.

(** The switch on op_fa. *)
Definition dd_get_insn_code : code_result :=
  let e := exp_at 0 in
  let go ha := code_fb ha 1 in
  if negb (n_operands =? operands_num insn) then fail
  else match op_fa insn with
  | dadao_operand_rd => orfail (SHOULD_BE_RD e) go
  | dadao_operand_rb => orfail (SHOULD_BE_RB e) go
  | dadao_operand_rf => orfail (SHOULD_BE_RF e) go
  | dadao_operand_ra => orfail (SHOULD_BE_RA e) go
  | dadao_operand_cp => orfail (SHOULD_BE_CP e) go
  | dadao_operand_op => code_fb (minor_opcode insn) 0
  | dadao_operand_imms24 =>
      if bool_decide (X_op e = O_constant) then
        orfail (SHOULD_BE_IMM (-0x800000) 0x7FFFFF e) (fun v =>
          (0, code (Z.lor maj (Z.land v 0xFFFFFF))))
      else (ty, code maj)
  | dadao_operand_none => code_fb 0 0
  | _ => fail
  end.
End Code.

(** ** get_operands *)

(** A [char *] into the line; scanning for a character past the terminating
    zero leaves the buffer. *)
Fixpoint strchr (c : ascii) (s : string) : option string :=
  match s with
  | EmptyString => None
  | String a s' => if Ascii.eqb a c then Some s else strchr c s'
  end.
Fixpoint until (c : ascii) (s : string) : option string :=
  match s with
  | EmptyString => None
  | String a s' => if Ascii.eqb a c then Some EmptyString else String a <$> until c s'
  end.
Fixpoint skip_blanks (s : string) : string :=
  match s with
  | String a s' => if Ascii.eqb a " " || Ascii.eqb a "009" then skip_blanks s' else s
  | EmptyString => s
  end.
(** The character a pointer is at; the zero at the end. *)
Definition char_at (s : string) (i : nat) : ascii := default "000"%char (String.get i s).

(** [(symbol)%hi] and [(symbol)%lo]: the parentheses and all behind them are
    removed; [None] when there is no '%' or no ')'. *)
Record paren_state := Paren { ret_code : option Z; is_adrp : bool; adrp_flag : bool }.
Definition operand_paren (p : string) (st : paren_state) : option (string * paren_state) :=
  if Ascii.eqb (char_at p 0) "(" then
    q ← strchr "%" p;
    let at2 a b := Ascii.eqb (char_at q 1) a && Ascii.eqb (char_at q 2) b in
    let st := if at2 "h"%char "i"%char then Paren (ret_code st) (is_adrp st) true else st in
    let st := if at2 "l"%char "o"%char then Paren (Some (insn_type_int dadao_type_lo12)) true true else st in
    if adrp_flag st then
      p' ← until ")" (Py.drop 1 p);
      Some (p', st)
    else Some (p, st)
  else Some (p, st).

Section Operands.
Variable expression : string -> exp * string.

(** A wyde position [w0], [w1], ...: the character, the digit and a comma. *)
Definition parse_operand (p : string) (old : exp) : exp * string :=
  let ww_number := Z.of_nat (nat_of_ascii (char_at p 1)) - 48 in
  if Ascii.eqb (char_at p 0) "w" && Ascii.eqb (char_at p 2) "," then
    (Exp O_wyde (X_add_symbol old) (X_op_symbol old) ww_number, Py.drop 2 p)
  else expression p.

Record operands := Operands {
  o_numexp : Z;                (* the value returned *)
  o_exps : list exp;           (* the memory from exp[0] on *)
  o_paren : paren_state;
  o_rest : option string;      (* what demand_empty_rest_of_line checks *)
  o_bad : list string }.

Definition operand_errors (e : exp) : list string :=
  if bool_decide (X_op e = O_illegal) then ["invalid operands"]
  else if bool_decide (X_op e = O_absent) then ["missing operand"] else [].

(** The sentinel after the operands. *)
Definition end_operands (n : nat) (exps : list exp) : list exp :=
  match exps !! n with
  | Some e => <[n := Exp O_illegal (X_add_symbol e) (X_op_symbol e) (X_add_number e)]> exps
  | None => exps
  end.

(** One round per operand; [rounds] bounds the operands to come. *)
Fixpoint operand_loop (rounds : nat) (p : string) (n : nat) (exps : list exp)
    (st : paren_state) (bad : list string) : option operands :=
  let p := skip_blanks p in
  '(p, st) ← operand_paren p st;
  let c := char_at p 0 in
  if Ascii.eqb c "000" || Ascii.eqb c "010" || Ascii.eqb c "013" then
    Some (Operands (Z.of_nat n) (end_operands n exps) st None bad)
  else
    match rounds with
    | O => Some (Operands 0 exps st None (bad ++ ["too many operands"])%list)
    | S rounds =>
        let old := default (Exp O_illegal None None 0) (exps !! n) in
        let '(e, rest) := parse_operand p old in
        let exps := <[n := e]> exps in
        let bad := (bad ++ operand_errors e)%list in
        let p := skip_blanks rest in
        if Ascii.eqb (char_at p 0) "," then operand_loop rounds (Py.drop 1 p) (S n) exps st bad
        else Some (Operands (Z.of_nat (S n)) (end_operands (S n) exps) st (Some rest) bad)
    end.
Definition max_operands : nat := 4.
Definition get_operands (s : string) (exps : list exp) : option operands :=
  operand_loop max_operands s 0 exps (Paren None false false) [].
End Operands.

(** ** dadao_md_assemble *)
Section Assemble.
Context {H : Type} `{HashOps H}.
Variable is_part_of_name : ascii -> bool.
Variable expression : string -> exp * string.
Variable symbol_get_value_expression : option sym -> exp.

(** The options of md_parse_option. *)
Record gas_options := Options { expand_op : bool; multiple_to_single : bool }.
Inductive gas_option := OPTION_x | OPTION_NOEXPAND | OPTION_MULTI_TO_SINGLE | OPTION_unknown.
Definition md_parse_option (c : gas_option) (o : gas_options) : Z * gas_options :=
  match c with
  | OPTION_x => (1, o)
  | OPTION_NOEXPAND => (1, Options false (multiple_to_single o))
  | OPTION_MULTI_TO_SINGLE => (1, Options (expand_op o) true)
  | OPTION_unknown => (0, o)
  end.

Fixpoint split_name (s : string) : string * string :=
  match s with
  | String a s' => if is_part_of_name a then let '(n, r) := split_name s' in (String a n, r)
                   else (EmptyString, s)
  | EmptyString => (EmptyString, EmptyString)
  end.

Definition num (exps : list exp) (i : Z) : Z := X_add_number (exp_at exps i).
Definition op_is (exps : list exp) (i : Z) (o : operatorT) : bool :=
  bool_decide (X_op (exp_at exps i) = o).

(** "the number of registers exceeds the limit" *)
Definition is_ldm_stm (n : string) : bool := String.prefix "ldm" n || String.prefix "stm" n.
Definition is_move (n : string) : bool := Ascii.eqb (char_at n 2) "2".
Definition register_limit (n : string) (exps : list exp) : list gas_call :=
  let msg := C_as_bad "the number of registers exceeds the limit" in
  ((if is_ldm_stm n && (64 <? Z.rem (num exps 0) 64 + num exps 3) then [msg] else [])
   ++ (if is_move n && ((64 <? Z.rem (num exps 0) 64 + num exps 2)
                        || (64 <? Z.rem (num exps 1) 64 + num exps 2)) then [msg] else []))%list.

(** The integers [1 .. n-1]. *)
Definition from1 (n : Z) : list Z := map (fun k => 1 + Z.of_nat k) (seq 0 (Z.to_nat (n - 1))).

(** multiple_to_single: an ldm or stm becomes a series of one-register
    instructions around increments of the index register. *)
Definition split_ldm (i : dadao_opcode) (exps : list exp) : list gas_call :=
  let len_data := Z.shiftl 1 (Z.land (major_opcode i) 0x3) in
  let one k := Z.lor (Z.lor (Z.lor (Z.lor (Z.shiftl (major_opcode i) 24) (Z.shiftl (num exps 0 + k) 18))
                 (Z.shiftl (num exps 1 - 64) 12)) (Z.shiftl (num exps 2) 6)) 1 in
  let addi v := Z.lor (Z.lor (Z.lor (MATCH "ADDIRD") (Z.shiftl (num exps 2) 18))
                  (Z.shiftl (num exps 2) 12)) v in
  (C_number (w32 (one 0))
   :: flat_map (fun k => emit_insn (addi len_data) ++ emit_insn (one k)) (from1 (num exps 3))
   ++ emit_insn (addi (0x1000 - len_data * (num exps 3 - 1))))%list.

(** A move of many registers becomes a series of moves of one. *)
Definition class_base (t : dadao_operand_type) : Z :=
  match t with
  | dadao_operand_rb => 64 | dadao_operand_rf => 128 | dadao_operand_ra => 192 | _ => 0
  end.
Definition split_move (i : dadao_opcode) (exps : list exp) : list gas_call :=
  let r0 := num exps 0 - class_base (op_fb i) in
  let r1 := num exps 1 - class_base (op_fc i) in
  let one k := Z.lor (Z.lor (Z.lor (Z.lor (Z.shiftl (major_opcode i) 24) (Z.shiftl (minor_opcode i) 18))
                 (Z.shiftl (r0 + k) 12)) (Z.shiftl (r1 + k) 6)) 1 in
  (C_number (w32 (one 0)) :: flat_map (fun k => emit_insn (one k)) (from1 (num exps 2)))%list.

(** The pseudo instructions setrd, setrb and setrf: for each lookup its hash
    table, the operand whose kind the first test looks at, and the source
    registers accepted. *)
Definition pseudo_classes (n : string) : list ((hashes H -> H) * Z * Z * Z) :=
  if (n =? "setrd")%string then
    [(hash_2, 0, 0, 0x40); (hash_3, 0, 0x40, 0x80); (hash_4, 0, 0x80, 0xC0); (hash_5, 0, 0xC0, 0xF0)]
  else if (n =? "setrb")%string then [(hash_2, 0, 0, 0x40); (hash_3, 1, 0x40, 0x80)]
  else [(hash_2, 0, 0, 0x40); (hash_3, 0, 0x80, 0xc0)].
Definition is_pseudo (n : string) : bool :=
  (n =? "setrd")%string || (n =? "setrb")%string || (n =? "setrf")%string.

Fixpoint pseudo_register (t : hashes H) (n : string) (cls : list ((hashes H -> H) * Z * Z * Z))
    (n_operands : Z) (exps : list exp) : list gas_call :=
  match cls with
  | [] => [C_as_bad "unknown insn"]
  | (h, tested, lo, hi) :: cls =>
      let src := num exps 1 in
      if bool_decide (is_Some (hash_find (h t) n)) && (n_operands =? 2)
         && op_is exps tested O_register && op_is exps 1 O_register
         && ((lo =? 0) || (lo <=? src)) && (src <? hi)
      then [C_number (dd_pseudo_set_register (s32 (num exps 0)) (s32 src))]
      else pseudo_register t n cls n_operands exps
  end.
Definition assemble_pseudo (o : gas_options) (t : hashes H) (n : string) (n_operands : Z)
    (exps : list exp) : list gas_call :=
  if (n_operands =? 2) && op_is exps 0 O_register && op_is exps 1 O_constant then
    dd_pseudo_set_imm (s32 (num exps 0)) (w64 (num exps 1))
  else if (n_operands =? 2) && op_is exps 0 O_register && op_is exps 1 O_symbol then
    dd_pseudo_set_symbol (expand_op o) (exp_at exps 0) (exp_at exps 1)
  else pseudo_register t n (pseudo_classes n) n_operands exps.

(** The calls for the value dd_get_insn_code returned; a relaxable
    instruction ends its frag. *)
Definition relaxable (o : gas_options) (insn_code : Z) (exps : list exp) (n_insns : Z)
    (state : Z) (r : reloc) (i : Z) : list gas_call :=
  [C_number insn_code;
   if negb (expand_op o) then C_fix_new_exp (exp_at exps 1) true r
   else C_frag_var (DD_INSN_BYTES n_insns) 0 (ENCODE_RELAX state STATE_UNDF)
          (X_add_symbol (exp_at exps i)) (num exps i)].
Definition assemble_code (o : gas_options) (exps : list exp) (ret_code insn_code : Z) : list gas_call :=
  let relax := relaxable o insn_code exps in
  if ret_code =? insn_type_int dadao_type_condbranch then relax 5 STATE_BRCC BFD_RELOC_DADAO_BRCC 1
  else if ret_code =? insn_type_int dadao_type_condbranch12 then
    relax 5 STATE_BRCC12 BFD_RELOC_DADAO_BRCC12 2
  else if ret_code =? insn_type_int dadao_type_geta then relax 3 STATE_ABS BFD_RELOC_DADAO_ABS 1
  else if ret_code =? insn_type_int dadao_type_branch then relax 4 STATE_JUMP BFD_RELOC_DADAO_JUMP 0
  else if ret_code =? insn_type_int dadao_type_jsr then relax 4 STATE_CALL BFD_RELOC_DADAO_CALL 0
  else if ret_code =? insn_type_int dadao_type_adrp then relax 4 STATE_HI18 BFD_RELOC_DADAO_HI18 1
  else if ret_code =? insn_type_int dadao_type_lo12 then relax 4 STATE_LO12 BFD_RELOC_DADAO_LO12 2
  else if ret_code =? 0 then [C_number insn_code]
  else [C_as_bad "unknown insn"].

(** The rows of the name, tried in turn while the result is -1; *insn_code
    keeps what was written last. *)
Definition try_row (t : H) (n : string) (exps : list exp) (n_operands : Z) (r : code_result) : code_result :=
  if fst r =? -1 then
    match hash_find t n with
    | Some i =>
        let '(c, w) := dd_get_insn_code symbol_get_value_expression i exps n_operands in
        (c, match w with Some w => Some w | None => snd r end)
    | None => r
    end
  else r.

Inductive asm_result :=
  | AsmOk (calls : list gas_call)
  | AsmPastLine       (* get_operands runs past the end of the line *)
  | AsmNameOverflow.  (* insn_alt[16] is written past its end *)

(** [exps] and [garbage] are the initial contents of exp and insn_code, which
    dadao_md_assemble does not initialise. *)
Definition md_assemble (o : gas_options) (t : hashes H) (exps : list exp) (garbage : Z)
    (str : string) : asm_result :=
  let '(n, rest) := split_name str in
  if 16 <=? Z.of_nat (String.length n) then AsmNameOverflow
  else match get_operands expression rest exps with
  | None => AsmPastLine
  | Some ops =>
      let exps := o_exps ops in
      let n_operands := o_numexp ops in
      let rest := match o_rest ops with Some l => [C_demand_empty_rest_of_line l] | None => [] end in
      let start := (map C_as_bad (o_bad ops) ++ rest ++ [C_frag_more])%list in
      match hash_find (hash_1 t) n with
      | None => AsmOk (start ++ [C_as_bad "unknown insn"])%list
      | Some i =>
          let start := (start ++ register_limit n exps)%list in
          if multiple_to_single o && is_ldm_stm n && (1 <? num exps 3) then
            AsmOk (start ++ split_ldm i exps)%list
          else if multiple_to_single o && is_move n && (0 <? num exps 3) then
            AsmOk (start ++ split_move i exps)%list
          else if is_pseudo n then AsmOk (start ++ assemble_pseudo o t n n_operands exps)%list
          else
            let '(c, w) := dd_get_insn_code symbol_get_value_expression i exps n_operands in
            let c := if is_adrp (o_paren ops) then default 0 (ret_code (o_paren ops)) else c in
            let r := (c, w) in
            let r := try_row (hash_2 t) n exps n_operands r in
            let r := try_row (hash_3 t) n exps n_operands r in
            let r := try_row (hash_4 t) n exps n_operands r in
            let '(c, w) := try_row (hash_5 t) n exps n_operands r in
            AsmOk (start ++ assemble_code o exps c (default garbage w))%list
      end
  end.
End Assemble.
End Gas.
Arguments gas_call : clear implicits.
