(* ===== verification/GasProps.v ===== *)
(** The assembler's tables and its encoder: every name finds its rows, and
    the word of an instruction is decoded by the emulator as that instruction
    with those operands. *)
From S2P Require Import Prelude Opcodes Cpu Tcg Translate Decode Disas DisasProps GasData Gas.
Local Open Scope string_scope.
Local Open Scope Z_scope.

(** ** The hash tables of dadao_md_begin *)
Definition rows_named (n : string) (rows : list dadao_opcode) : list dadao_opcode :=
  filter (fun r => name r = n) rows.
Definition nth_hash {H} (t : hashes H) (k : nat) : H :=
  match k with 0 => hash_1 t | 1 => hash_2 t | 2 => hash_3 t | 3 => hash_4 t | _ => hash_5 t end%nat.

Lemma at_most_five : Forall (fun r => (length (rows_named (name r) dadao_opcodes) <= 5)%nat) dadao_opcodes.
Proof. apply (bool_decide_unpack _). vm_compute. done. Qed.

Section Tables.
Context {H : Type} `{HashLaws H}.
Definition tables_hold (t : hashes H) (rows : list dadao_opcode) : Prop :=
  forall k n, (k < 5)%nat -> hash_find (nth_hash t k) n = rows_named n rows !! k.

Lemma rows_named_snoc n rows r :
  rows_named n (rows ++ [r]) = (rows_named n rows ++ if decide (name r = n) then [r] else [])%list.
Proof. unfold rows_named. rewrite filter_app, filter_cons, filter_nil. by destruct (decide _). Qed.

(** What is stored in table [j] when the tables hold [j] rows of the name. *)
Lemma tables_insert (t t' : hashes H) (rows : list dadao_opcode) (r : dadao_opcode) (j : nat) :
  tables_hold t rows -> length (rows_named (name r) rows) = j -> (j < 5)%nat ->
  (forall k, (k < 5)%nat -> nth_hash t' k = if decide (k = j) then hash_insert (nth_hash t j) (name r) r else nth_hash t k)
  -> tables_hold t' (rows ++ [r]).
Proof.
  intros Ht Hl Hj Hi k n Hk. rewrite rows_named_snoc, Hi by done.
  destruct (decide (k = j)) as [->|Hne].
  - rewrite hash_find_insert by (rewrite Ht by done; apply lookup_ge_None_2; lia).
    destruct (String.eqb_spec n (name r)) as [->|Hn].
    + rewrite decide_True by done. by rewrite list_lookup_middle.
    + rewrite decide_False by congruence. rewrite app_nil_r. by apply Ht.
  - rewrite Ht by done. destruct (decide (name r = n)) as [<-|]; [|by rewrite app_nil_r].
    destruct (decide (k < j)%nat); [by rewrite lookup_app_l by lia|].
    rewrite !lookup_ge_None_2; [done|rewrite length_app; cbn; lia|lia].
Qed.

Lemma md_begin_insert_holds t rows r :
  tables_hold t rows -> (length (rows_named (name r) rows) < 5)%nat ->
  tables_hold (md_begin_insert t r) (rows ++ [r]).
Proof.
  intros Ht Hl. unfold md_begin_insert. destruct t as [h1 h2 h3 h4 h5].
  pose proof (Ht 0%nat (name r)) as F1. pose proof (Ht 1%nat (name r)) as F2.
  pose proof (Ht 2%nat (name r)) as F3. pose proof (Ht 3%nat (name r)) as F4.
  cbn [nth_hash hash_1 hash_2 hash_3 hash_4] in F1, F2, F3, F4.
  rewrite F1, F2, F3, F4 by lia. clear F1 F2 F3 F4.
  destruct (rows_named (name r) rows) as [|x1 [|x2 [|x3 [|x4 [|x5 l]]]]] eqn:E; cbn [lookup list_lookup];
    [eapply (tables_insert _ _ _ _ 0)|eapply (tables_insert _ _ _ _ 1)|eapply (tables_insert _ _ _ _ 2)
    |eapply (tables_insert _ _ _ _ 3)|eapply (tables_insert _ _ _ _ 4)|cbn in Hl; lia];
    try exact Ht; try (rewrite E; reflexivity); try lia;
    intros [|[|[|[|[|k]]]]] Hk; (reflexivity || lia).
Qed.

Lemma rows_named_mono n rows rows' : (length (rows_named n rows) <= length (rows_named n (rows ++ rows')))%nat.
Proof. unfold rows_named. rewrite filter_app, length_app. lia. Qed.

Lemma insert_all t done todo :
  tables_hold t done -> (done ++ todo)%list = dadao_opcodes ->
  tables_hold (foldl md_begin_insert t todo) dadao_opcodes.
Proof.
  revert t done. induction todo as [|r todo IH]; intros t done Ht Heq.
  - rewrite app_nil_r in Heq. by subst.
  - cbn [foldl]. apply (IH _ (done ++ [r])%list); [|by rewrite <- app_assoc].
    apply md_begin_insert_holds; [done|].
    assert (Hin : r ∈ dadao_opcodes) by (rewrite <- Heq; apply elem_of_app; right; left).
    pose proof (proj1 (Forall_forall _ _) at_most_five r Hin) as H5. cbn beta in H5.
    rewrite <- Heq in H5. unfold rows_named in H5. rewrite filter_app, filter_cons_True, length_app in H5 by done.
    cbn [length] in H5. unfold rows_named. lia.
Qed.
Lemma md_begin_holds : tables_hold md_begin_hashes dadao_opcodes.
Proof.
  apply (insert_all _ []); [|done]. intros k n Hk. cbn [rows_named].
  destruct k as [|[|[|[|[|k]]]]]; cbn [nth_hash hash_1 hash_2 hash_3 hash_4 hash_5]; apply hash_find_new.
Qed.
End Tables.

(** The register symbols. *)
Definition reg_class (number : Z) : string :=
  if number <? 64 then "rd" else if number <? 128 then "rb" else if number <? 192 then "rf"
  else if number <? 256 then "ra" else if number <? 320 then "cp" else "cr".

(** Dadao_md_begin loses no instruction: for every hash table that
    behaves like one, the k-th table finds the k-th row of a name in
    dadao_opcodes, and no name has a sixth row.  The register symbols are
    pairwise distinct, start with the letters of their class, and the names
    that are formatted fit the five-character buffer. *)
Theorem md_begin_tables (H : Type) `{HashLaws H} :
  (forall n k, (k < 5)%nat ->
     hash_find (nth_hash (md_begin_hashes (H := H)) k) n = rows_named n dadao_opcodes !! k) /\
  (forall n, rows_named n dadao_opcodes !! 5%nat = None) /\
  NoDup (md_begin_symbols.*1) /\
  Forall (fun '(n, v) => Py.starts (reg_class v) n = true /\ 0 <= v < 384) md_begin_symbols /\
  Forall (fun '(n, _) => (String.length n + 1 <= 5)%nat) (take 384 md_begin_symbols).
Proof.
  split; [intros n k Hk; by apply md_begin_holds|]. split.
  - intros n. destruct (rows_named n dadao_opcodes !! 5%nat) as [r|] eqn:E; [|done].
    pose proof E as Hr%list_elem_of_lookup_2. apply list_elem_of_filter in Hr as [<- Hin].
    pose proof (proj1 (Forall_forall _ _) at_most_five r Hin). apply lookup_lt_Some in E. cbn beta in *. lia.
  - split; [apply (bool_decide_unpack _); vm_compute; done|].
    split; apply (bool_decide_unpack _); vm_compute; done.
Qed.
