(* ===== verification/GasEncode.v ===== *)
(** The encoder dd_get_insn_code against the decoder of the emulator: what
    the assembler writes for an operand is what the emulator reads. *)
From S2P Require Import Prelude Opcodes Cpu Tcg Translate IsaArith Frame Decode Disas DisasProps.
From S2P Require Import GasData Gas.
Local Open Scope string_scope.
Local Open Scope Z_scope.

(** ** Rows and patterns *)

(** The field an operand of a row is placed in. *)
Definition reg_field (pos : Z) : string * bool * nat * nat :=
  if pos =? 0 then ("ha", false, 6, 18)%nat else if pos =? 1 then ("hb", false, 6, 12)%nat
  else if pos =? 2 then ("hc", false, 6, 6)%nat else ("hd", false, 6, 0)%nat.
Definition slot (pos : Z) (t : dadao_operand_type) : option (string * bool * nat * nat) :=
  match t with
  | dadao_operand_rd | dadao_operand_rb | dadao_operand_rf | dadao_operand_ra
  | dadao_operand_cp | dadao_operand_cr => Some (reg_field pos)
  | dadao_operand_immu6 => Some ("immu6", false, 6, 0)%nat
  | dadao_operand_immu12 => Some ("immu12", false, 12, 0)%nat
  | dadao_operand_immu16 => Some ("immu16", false, 16, 0)%nat
  | dadao_operand_immu18 => Some ("immu18", false, 18, 0)%nat
  | dadao_operand_imms12 => Some ("imms12", true, 12, 0)%nat
  | dadao_operand_imms18 => Some ("imms18", true, 18, 0)%nat
  | dadao_operand_imms24 => Some ("imms24", true, 24, 0)%nat
  | dadao_operand_ww => Some ("ww", false, 2, 16)%nat
  | dadao_operand_none | dadao_operand_op | dadao_operand_noop => None
  end.
Definition has_minor (r : dadao_opcode) : bool := bool_decide (op_fa r = dadao_operand_op).
Definition row_slots (r : dadao_opcode) : list (string * bool * nat * nat) :=
  omap (fun '(k, t) => slot k t) [(0, op_fa r); (1, op_fb r); (2, op_fc r); (3, op_fd r)].

(** The row of a pattern: the same fixed bits and fields. *)
Definition opc_row_of (p : pattern) (r : dadao_opcode) : Prop :=
  p_mask p = (if has_minor r then 0xFFFC0000 else 0xFF000000) /\
  p_match p = Z.shiftl (major_opcode r) 24 + (if has_minor r then Z.shiftl (minor_opcode r) 18 else 0) /\
  placed_fields (p_fields p) = row_slots r /\
  operands_num r = Z.of_nat (length (row_slots r)).
#[export] Instance opc_row_of_dec p r : Decision (opc_row_of p r).
Proof. unfold opc_row_of. apply _. Defined.

Lemma opc_rows_cover : Forall (fun r => Exists (fun p => opc_row_of p r) insns_decode) insn_opc.
Proof. apply (bool_decide_unpack _). vm_compute. done. Qed.
Lemma opc_patterns_cover : Forall (fun p => Exists (opc_row_of p) insn_opc) insns_decode.
Proof. apply (bool_decide_unpack _). vm_compute. done. Qed.
Lemma opc_ranges : Forall (fun r => 0 <= major_opcode r < 256 /\ 0 <= minor_opcode r < 64) insn_opc.
Proof. apply (bool_decide_unpack _). vm_compute. done. Qed.

(** The shapes of the rows. *)
Definition shape (r : dadao_opcode) := (op_fa r, op_fb r, op_fc r, op_fd r).
Definition shapes := Eval vm_compute in remove_dups (map shape insn_opc).
Lemma shapes_cover : Forall (fun r => shape r ∈ shapes) insn_opc.
Proof. apply (bool_decide_unpack _). vm_compute. done. Qed.

(** ** The value an operand is encoded as *)
Section Encode.
Context {sym : Type}.
Variable symbol_get_value_expression : option sym -> expressionS sym.
Notation exp := (expressionS sym).

Definition encoded (t : dadao_operand_type) (e : exp) : Z :=
  match t with
  | dadao_operand_rb => X_add_number e - 0x40
  | dadao_operand_rf => X_add_number e - 0x80
  | dadao_operand_ra => X_add_number e - 0xC0
  | dadao_operand_cp => X_add_number e - 0x100
  | dadao_operand_cr => X_add_number e - 0x140
  | dadao_operand_immu6 | dadao_operand_imms18 | dadao_operand_imms24 =>
      if bool_decide (X_op e = O_constant) then X_add_number e else 0
  | dadao_operand_imms12 => if bool_decide (X_op e = O_symbol) then 0 else X_add_number e
  | _ => X_add_number e
  end.

(** Which expression goes to which operand: the last two may be one
    expression [rg << i6]. *)
Definition shifted (r : dadao_opcode) (exps : list exp) : bool :=
  (operands_num r =? 3) && bool_decide (X_op (exp_at exps 2) = O_left_shift).
Definition count_ab (r : dadao_opcode) : Z :=
  Z.of_nat (length (omap (fun '(k, t) => slot k t) [(0, op_fa r); (1, op_fb r)])).
Definition exp_c (r : dadao_opcode) (exps : list exp) : exp :=
  if shifted r exps then symbol_get_value_expression (X_add_symbol (exp_at exps 2))
  else exp_at exps (count_ab r).
Definition exp_d (r : dadao_opcode) (exps : list exp) : exp :=
  if shifted r exps then symbol_get_value_expression (X_op_symbol (exp_at exps 2))
  else exp_at exps (count_ab r + 1).
Definition row_exps (r : dadao_opcode) (exps : list exp)
    : list (dadao_operand_type * exp * (string * bool * nat * nat)) :=
  let fb := if bool_decide (is_Some (slot 0 (op_fa r))) then 1 else 0 in
  omap (fun '(k, t, e) => (fun f => (t, e, f)) <$> slot k t)
    [(0, op_fa r, exp_at exps 0); (1, op_fb r, exp_at exps fb);
     (2, op_fc r, exp_c r exps); (3, op_fd r, exp_d r exps)].

(** Register numbers and wyde positions are not negative. *)
Definition numbers_ok (e : exp) : Prop :=
  X_op e = O_register \/ X_op e = O_wyde -> 0 <= X_add_number e.

(** The word of an instruction: the fixed bits, and every field holds its
    operand. *)
Definition word_ok (r : dadao_opcode) (exps : list exp) (w : Z) : Prop :=
  0 <= w < 2^32 /\ w / 2^24 = major_opcode r /\
  (has_minor r = true -> w / 2^18 mod 64 = minor_opcode r) /\
  Forall (fun '(t, e, (_, s, len, k)) => field_val s len k w = encoded t e) (row_exps r exps).

(** *** What the operand checks give *)
Lemma be_rd (e : exp) v : numbers_ok e -> SHOULD_BE_RD e = Some v -> v = X_add_number e /\ 0 <= v < 64.
Proof.
  unfold SHOULD_BE_RD, numbers_ok. intros Hn. destruct (bool_decide_reflect (X_op e = O_register)); [|done].
  cbn [negb]. destruct (Z.ltb_spec 0x3F (X_add_number e)); [done|]. intros [= <-].
  specialize (Hn ltac:(by left)). rewrite w32_id by lia. lia.
Qed.
Lemma be_reg min max (e : exp) v : 0 <= min < 2^16 -> max = min + 63 ->
  should_be_reg min max e = Some v -> v = X_add_number e - min /\ 0 <= v < 64.
Proof.
  unfold should_be_reg. intros Hm ->. destruct (negb _); [done|].
  destruct (Z.ltb_spec (min + 63) (X_add_number e)); [done|].
  destruct (Z.ltb_spec (X_add_number e) min); [done|]. intros [= <-]. rewrite w32_id by lia. lia.
Qed.
Lemma be_imm min max (e : exp) v : SHOULD_BE_IMM min max e = Some v ->
  v = X_add_number e /\ min <= v <= max /\ X_op e = O_constant.
Proof.
  unfold SHOULD_BE_IMM. destruct (bool_decide_reflect (X_op e = O_constant)); [|done]. cbn [negb].
  destruct (Z.ltb_spec max (X_add_number e)); [done|].
  destruct (Z.ltb_spec (X_add_number e) min); [done|]. intros [= <-]. split; [done|]. split; [lia|done].
Qed.
Lemma be_ww (e : exp) v : numbers_ok e -> SHOULD_BE_WW e = Some v -> v = X_add_number e /\ 0 <= v < 4.
Proof.
  unfold SHOULD_BE_WW, numbers_ok. intros Hn. destruct (bool_decide_reflect (X_op e = O_wyde)); [|done].
  cbn [negb]. destruct (Z.ltb_spec 0x3 (X_add_number e)); [done|]. intros [= <-].
  specialize (Hn ltac:(by right)). rewrite w32_id by lia. lia.
Qed.

(** *** The words *)
Lemma lor_next (A x k n : Z) : 0 <= k <= n -> 0 <= x < 2^(n - k) -> A mod 2^n = 0 ->
  Z.lor A (Z.shiftl x k) = A + x * 2^k.
Proof.
  intros Hk Hx HA. rewrite Z.shiftl_mul_pow2 by lia.
  assert (A = A / 2^n * 2^n) as -> by (pose proof (Z.div_mod A (2^n)); lia).
  apply lor_add_mul; [lia|].
  replace (2^n) with (2^(n - k) * 2^k) by (rewrite <- Z.pow_add_r by lia; f_equal; lia). nia.
Qed.
Lemma lor_low (A x n : Z) : 0 <= n -> 0 <= x < 2^n -> A mod 2^n = 0 -> Z.lor A x = A + x.
Proof.
  intros Hn Hx HA. assert (A = A / 2^n * 2^n) as -> by (pose proof (Z.div_mod A (2^n)); lia).
  by apply lor_add_mul.
Qed.
Lemma word_maj M : Z.shiftl M 24 = M * 2^24.
Proof. apply Z.shiftl_mul_pow2. lia. Qed.
Lemma word_a M a : 0 <= a < 64 -> Z.lor (Z.shiftl M 24) (Z.shiftl a 18) = M * 2^24 + a * 2^18.
Proof. intros Ha. rewrite word_maj. apply (lor_next _ _ _ 24); [lia|lia|apply Z.mod_mul; lia]. Qed.
Lemma word_ab M a b : 0 <= a < 64 -> 0 <= b < 64 ->
  Z.lor (Z.lor (Z.shiftl M 24) (Z.shiftl a 18)) (Z.shiftl b 12) = M * 2^24 + a * 2^18 + b * 2^12.
Proof.
  intros Ha Hb. rewrite word_a by done. apply (lor_next _ _ _ 18); [lia|lia|].
  Z.div_mod_to_equations; lia.
Qed.
Lemma word_abcd M a b c d : 0 <= a < 64 -> 0 <= b < 64 -> 0 <= c < 64 -> 0 <= d < 64 ->
  Z.lor (Z.lor (Z.lor (Z.lor (Z.shiftl M 24) (Z.shiftl a 18)) (Z.shiftl b 12)) (Z.shiftl c 6)) d
  = M * 2^24 + a * 2^18 + b * 2^12 + c * 2^6 + d.
Proof.
  intros Ha Hb Hc Hd. rewrite word_ab by done. rewrite (lor_next _ c 6 12) by (lia || (Z.div_mod_to_equations; lia)).
  apply (lor_low _ _ 6); [lia|lia|]. Z.div_mod_to_equations; lia.
Qed.
Lemma word_ab12 M a b v : 0 <= a < 64 -> 0 <= b < 64 ->
  Z.lor (Z.lor (Z.lor (Z.shiftl M 24) (Z.shiftl a 18)) (Z.shiftl b 12)) (Z.land v 0xFFF)
  = M * 2^24 + a * 2^18 + b * 2^12 + v mod 2^12.
Proof.
  intros Ha Hb. rewrite word_ab, (land_mask v 0xFFF 12) by (lia || done).
  apply (lor_low _ _ 12); [lia|apply Z.mod_pos_bound; lia|]. Z.div_mod_to_equations; lia.
Qed.
Lemma word_a18 M a v : 0 <= a < 64 ->
  Z.lor (Z.lor (Z.shiftl M 24) (Z.shiftl a 18)) (Z.land v 0x3FFFF) = M * 2^24 + a * 2^18 + v mod 2^18.
Proof.
  intros Ha. rewrite word_a, (land_mask v 0x3FFFF 18) by (lia || done).
  apply (lor_low _ _ 18); [lia|apply Z.mod_pos_bound; lia|]. Z.div_mod_to_equations; lia.
Qed.
Lemma word_a_ww M a b v : 0 <= a < 64 -> 0 <= b < 4 ->
  Z.lor (Z.lor (Z.lor (Z.shiftl M 24) (Z.shiftl a 18)) (Z.shiftl b 16)) (Z.land v 0xFFFF)
  = M * 2^24 + a * 2^18 + b * 2^16 + v mod 2^16.
Proof.
  intros Ha Hb. rewrite word_a, (land_mask v 0xFFFF 16) by (lia || done).
  rewrite (lor_next _ b 16 18) by (lia || (Z.div_mod_to_equations; lia)).
  apply (lor_low _ _ 16); [lia|apply Z.mod_pos_bound; lia|]. Z.div_mod_to_equations; lia.
Qed.
Lemma word_24 M v : Z.lor (Z.shiftl M 24) (Z.land v 0xFFFFFF) = M * 2^24 + v mod 2^24.
Proof.
  rewrite word_maj, (land_mask v 0xFFFFFF 24) by (lia || done).
  apply (lor_low _ _ 24); [lia|apply Z.mod_pos_bound; lia|apply Z.mod_mul; lia].
Qed.

(** *** The fields of a word *)
Lemma field_u len k w v : w / 2 ^ Z.of_nat k mod 2 ^ Z.of_nat len = v -> field_val false len k w = v.
Proof. done. Qed.
Lemma field_s len w v : (0 < len)%nat -> w mod 2 ^ Z.of_nat len = v mod 2 ^ Z.of_nat len ->
  - 2 ^ (Z.of_nat len - 1) <= v < 2 ^ (Z.of_nat len - 1) -> field_val true len 0 w = v.
Proof.
  intros Hl Hm Hv. unfold field_val. rewrite Z.div_1_r.
  rewrite (sext_congr _ _ v) by (lia || done). apply sext_id; lia.
Qed.
End Encode.

(** One check of an operand in the hypothesis [H]. *)
Ltac operand H :=
  lazymatch type of H with
  | orfail ?x _ = _ =>
      let E := fresh "E" in let v := fresh "v" in
      destruct x as [v|] eqn:E; cbn [orfail] in H; [|discriminate H];
      lazymatch type of E with
      | SHOULD_BE_RD _ = _ => apply be_rd in E; [|done]; destruct E as [E ?]
      | SHOULD_BE_WW _ = _ => apply be_ww in E; [|done]; destruct E as [E ?]
      | SHOULD_BE_IMM _ _ _ = _ => apply be_imm in E; destruct E as (E & ? & ?)
      | _ => apply be_reg in E; [|lia|lia]; destruct E as [E ?]
      end
  | (if negb ?x || negb ?y then _ else _) = _ =>
      let c := eval vm_compute in (negb x || negb y) in
      change (negb x || negb y) with c in H; cbv iota in H
  | (if bool_decide ?P then _ else _) = _ => destruct (bool_decide_reflect P)
  | (if ?b then _ else _) = _ => destruct b; [discriminate H|]
  end.
(** A word whose fields are sums. *)
Ltac word_sum H :=
  apply (f_equal snd) in H; cbn [snd] in H; unfold code in H; apply (inj Some) in H;
  rewrite ?word_abcd, ?word_ab12, ?word_a18, ?word_a_ww, ?word_24, ?word_ab, ?word_a, ?word_maj in H by lia;
  rewrite w32_id in H by (Z.div_mod_to_equations; lia).
(** A row of a known shape: the checks one after the other, then the word. *)
Ltac solve_shape H :=
  cbn -[Z.shiftl Z.lor exp_at Z.add Z.pow Z.div Z.modulo] in H |- *;
  repeat operand H; try discriminate H;
  word_sum H; subst;
  (split; [Z.div_mod_to_equations; lia|]); (split; [Z.div_mod_to_equations; lia|]);
  (split; [first [done | intros _; Z.div_mod_to_equations; lia]|]);
  repeat (apply Forall_cons_2); try apply Forall_nil_2;
  cbn [encoded]; rewrite ?bool_decide_eq_true_2, ?bool_decide_eq_false_2 by assumption;
  try match goal with
      | |- context [Z.of_nat ?n] => let k := eval cbv in (Z.of_nat n) in change (Z.of_nat n) with k
      end;
  change (0 + 1) with 1 in *; change (1 + 1) with 2 in *; change (2 + 1) with 3 in *;
  lazymatch goal with
  | |- field_val false _ _ _ = _ => apply field_u
  | |- field_val true _ _ _ = _ => apply field_s; [lia| |]
  end;
  cbn [Z.of_nat Pos.of_succ_nat Pos.succ]; Z.div_mod_to_equations; lia.

Section Words.
Context {sym : Type}.
Variable symbol_get_value_expression : option sym -> expressionS sym.
Hypothesis Hsym : forall s, numbers_ok (symbol_get_value_expression s).

Lemma shape_word r exps n w :
  shape r ∈ shapes -> 0 <= major_opcode r < 256 -> 0 <= minor_opcode r < 64 ->
  (forall i, numbers_ok (exp_at exps i)) ->
  dd_get_insn_code symbol_get_value_expression r exps n = (0, Some w) ->
  word_ok symbol_get_value_expression r exps w.
Proof.
  intros Hs Hmaj Hmin Hnum H. unfold dd_get_insn_code in H.
  destruct (Z.eqb_spec n (operands_num r)) as [->|]; [|done]. cbn [negb] in H.
  unfold word_ok, has_minor, row_exps, exp_c, exp_d, count_ab, shifted.
  unfold code_fb, code_shift, code_fc, code_fd, maj, ty in H.
  destruct r as [rn rk rM rm ra rb rc rd rt]. unfold shape in Hs. cbn [op_fa op_fb op_fc op_fd
    operands_num major_opcode minor_opcode type] in *.
  set (sh := (rk =? 3) && bool_decide (X_op (exp_at exps 2) = O_left_shift)) in *. clearbody sh.
  assert (Hx : forall i, numbers_ok (symbol_get_value_expression i)) by apply Hsym.
  unfold shapes in Hs.
  repeat (apply elem_of_cons in Hs as [[= -> -> -> ->]|Hs]; [destruct sh; solve_shape H|]).
  by apply elem_of_nil in Hs.
Qed.

Lemma word_matches p r exps w :
  opc_row_of p r -> 0 <= major_opcode r < 256 -> 0 <= minor_opcode r < 64 ->
  word_ok symbol_get_value_expression r exps w -> matches p w = true.
Proof.
  intros (Hm & Hp & _) HM Hmin (Hw & HwM & Hwm & _). unfold matches. apply Z.eqb_eq. rewrite Hm, Hp.
  rewrite !Z.shiftl_mul_pow2 by lia. destruct (has_minor r).
  - change 0xFFFC0000 with (Z.shiftl (Z.ones 14) 18). rewrite land_field by lia.
    specialize (Hwm eq_refl). Z.div_mod_to_equations; lia.
  - change 0xFF000000 with (Z.shiftl (Z.ones 8) 24). rewrite land_field by lia.
    rewrite HwM, Z.mod_small by lia. lia.
Qed.

Lemma row_exps_slot r exps t e f :
  (t, e, f) ∈ row_exps symbol_get_value_expression r exps -> f ∈ row_slots r.
Proof.
  intros H. enough (map snd (row_exps symbol_get_value_expression r exps) = row_slots r) as <-
    by (apply list_elem_of_fmap; by exists (t, e, f)).
  unfold row_exps, row_slots. cbn. by destruct (slot 0 _), (slot 1 _), (slot 2 _), (slot 3 _).
Qed.

Lemma code_decodes r exps n w :
  r ∈ insn_opc -> (forall i, numbers_ok (exp_at exps i)) ->
  dd_get_insn_code symbol_get_value_expression r exps n = (0, Some w) ->
  exists p, opc_row_of p r /\ decode w = Some p /\
    Forall (fun '(t, e, f) => get_arg (field_name f) (pattern_args p w) = encoded t e)
      (row_exps symbol_get_value_expression r exps).
Proof.
  intros Hr Hn Hc. pose proof (proj1 (Forall_forall _ _) opc_ranges r Hr) as [HM Hm].
  pose proof (proj1 (Forall_forall _ _) shapes_cover r Hr) as Hs.
  pose proof (shape_word r exps n w Hs HM Hm Hn Hc) as Hw.
  pose proof (proj1 (Forall_forall _ _) opc_rows_cover r Hr) as (p & Hp & Hrow)%Exists_exists.
  exists p. split; [done|]. pose proof (word_matches p r exps w Hrow HM Hm Hw) as Hmat.
  split.
  { destruct (decode w) as [q|] eqn:Eq.
    - apply decode_some in Eq as [Hq Hqm]. f_equal. by apply (disjoint_match q p w).
    - rewrite (decode_none w Eq p Hp) in Hmat. done. }
  destruct Hw as (_ & _ & _ & Hf). rewrite Forall_forall in Hf |- *. intros [[t e] f] Hin.
  specialize (Hf _ Hin). cbn in Hf. destruct f as [[[m s] len] k]. rewrite <- Hf.
  apply pattern_args_field; [done|]. destruct Hrow as (_ & _ & -> & _). by eapply row_exps_slot.
Qed.

(** C11: The word the assembler encodes for a row of the opcode table is
    decoded by the emulator as the instruction of that row, and every operand
    arrives: registers as their number in their class, wyde positions and
    immediates as themselves, with their sign.  (A symbol where a 12-bit or an
    18-bit immediate is expected is encoded as 0.) *)
Theorem insn_code_decodes r exps n w :
  r ∈ insn_opc -> (forall i, numbers_ok (exp_at exps i)) ->
  dd_get_insn_code symbol_get_value_expression r exps n = (0, Some w) ->
  exists p, opc_row_of p r /\ decode w = Some p /\
    Forall (fun '(t, e, f) => get_arg (field_name f) (pattern_args p w) = encoded t e)
      (row_exps symbol_get_value_expression r exps).
Proof. apply code_decodes. Qed.
End Words.
