(* ===== verification/GasExec.v ===== *)
(** What assembled words do on the emulator: runs of several instructions,
    and the sequences the assembler emits for setrd, setrb and setrf. *)
From S2P Require Import Prelude Opcodes Cpu Tcg Translate Run RefBackend IsaArith Frame Decode.
From S2P Require Import Step Isa Disas DisasProps GasData Gas GasEncode.
Local Open Scope string_scope.
Local Open Scope Z_scope.

(** The words a sequence of calls stores. *)
Definition words {sym} (calls : list (gas_call sym)) : list Z :=
  omap (fun c => match c with C_number w => Some w | _ => None end) calls.

(** The state after some words: register [i] of [f] holds [v]; every other
    register but the three the emulator maintains is as before. *)
Record loaded (f : regfile) (i v pc : Z) (env env' : CPUDADAOState) : Prop := Loaded {
  ld_wf : wf_env env'; ld_u64 : u64_env env'; ld_pc : REG_PC env' = pc;
  ld_reg : reg f i env' = v;
  ld_other : forall g j, j <> 0 -> (g, j) <> (f, i) -> reg g j env' = reg g j env }.

Lemma reg_prologue g j env : j <> 0 -> reg g j (prologue env) = reg g j env.
Proof. intros Hj. unfold prologue. rewrite !reg_set_reg_ne by (by right). done. Qed.
(** One instruction that writes one register. *)
Lemma loaded_step f i v pc env env' pc' v' :
  0 <= i < 64 -> i <> 0 -> 0 <= v' < 2^64 -> 0 <= pc' < 2^64 ->
  loaded f i v pc env env' -> loaded f i v' pc' env (set_PC pc' (set_reg f i v' (prologue env'))).
Proof.
  intros Hi Hi0 Hv Hp [Hwf Hu Hpc Hr Ho]. split.
  - unfold set_PC. eauto with cpu.
  - unfold set_PC. apply u64_set_reg; [apply u64_set_reg; [by apply u64_prologue|done]|done].
  - unfold REG_PC, set_PC. apply reg_set_reg_eq; [eauto with cpu|lia].
  - unfold set_PC. rewrite reg_set_reg_ne by (right; lia). apply reg_set_reg_eq; [eauto with cpu|lia].
  - intros g j Hj Hne. unfold set_PC. rewrite reg_set_reg_ne by (right; lia).
    rewrite reg_set_reg_ne, reg_prologue by (done || (destruct (decide (f = g)) as [->|]; [right; naive_solver|by left])).
    by apply Ho.
Qed.

Section Straight.
Context {M : Type} (B : backend M) (L : tcg_laws B).
Variable helper : string -> CPUDADAOState -> list Z -> Z * CPUDADAOState.
Variable disas : Z -> gen bool.
Hypothesis Hdisas : decodetree_laws disas.
Variable goto_tb : Z -> bool.

(** Instructions that each continue at the next word; [None] when one does not. *)
Fixpoint run_words (ws : list Z) (pc : Z) (env : CPUDADAOState) (mem : M)
    : option (CPUDADAOState * M) :=
  match ws with
  | [] => Some (env, mem)
  | w :: ws =>
      match step B helper disas goto_tb pc w env mem with
      | Some (RExit env mem) =>
          if REG_PC env =? w64 (pc + 4) then run_words ws (w64 (pc + 4)) env mem else None
      | _ => None
      end
  end.

Lemma run_words_app ws1 ws2 pc env mem :
  run_words (ws1 ++ ws2) pc env mem
  = match run_words ws1 pc env mem with
    | Some (env', mem') =>
        run_words ws2 (fold_left (fun p _ => w64 (p + 4)) ws1 pc) env' mem'
    | None => None
    end.
Proof.
  revert pc env mem. induction ws1 as [|w ws1 IH]; intros; cbn; [done|].
  destruct (step _ _ _ _ _ _ _ _) as [[]|]; try done. by destruct (_ =? _).
Qed.
End Straight.

(** ** The wyde instructions *)
Definition wyde_ops : list (string * Z) :=
  [("SETZWrd", DADAO_INSN_SETZW_RD); ("ORWrd", DADAO_INSN_ORW_RD); ("ANDNWrd", DADAO_INSN_ANDNW_RD);
   ("SETOW", DADAO_INSN_SETOW_RD); ("SETZWrb", DADAO_INSN_SETZW_RB); ("ORWrb", DADAO_INSN_ORW_RB);
   ("SETW", DADAO_INSN_SETW)].
Lemma wyde_patterns : Forall (fun p => Forall (fun '(n, m) => p_name p = n ->
    p_mask p = 0xFF000000 /\ p_match p = m /\ m mod 2^24 = 0 /\ 0 <= m < 2^32 /\
    placed_fields (p_fields p) = [("ha", false, 6, 18); ("ww", false, 2, 16); ("immu16", false, 16, 0)]%nat)
  wyde_ops) insns_decode.
Proof. apply (bool_decide_unpack _). vm_compute. done. Qed.

(** The wyde position and the value of a wyde instruction. *)
Definition wyde_word (m i k x : Z) : Z := m + i * 2^18 + k * 2^16 + x.
Lemma wyde_insn_word m i k x :
  m mod 2^24 = 0 -> 0 <= m < 2^32 -> 0 <= i < 64 -> 0 <= k < 4 -> 0 <= x < 2^16 ->
  w32 (wyde_insn m i (Z.shiftl k 16) x) = wyde_word m i k x.
Proof.
  intros Hm Hr Hi Hk Hx. unfold wyde_insn, wyde_word.
  rewrite (lor_next m i 18 24) by lia. rewrite (lor_next _ k 16 18) by (lia || (Z.div_mod_to_equations; lia)).
  rewrite (lor_low _ x 16) by (lia || (Z.div_mod_to_equations; lia)). apply w32_id. Z.div_mod_to_equations; lia.
Qed.

Lemma wyde_word_args p n m i k x :
  p ∈ insns_decode -> p_name p = n -> (n, m) ∈ wyde_ops -> 0 <= i < 64 -> 0 <= k < 4 -> 0 <= x < 2^16 ->
  matches p (wyde_word m i k x) = true /\ ha (pattern_args p (wyde_word m i k x)) = i /\
  ww (pattern_args p (wyde_word m i k x)) = k /\ immu16 (pattern_args p (wyde_word m i k x)) = x.
Proof.
  intros Hp Hn Hm Hi Hk Hx. pose proof (proj1 (Forall_forall _ _) wyde_patterns p Hp) as Hw.
  rewrite Forall_forall in Hw. destruct (Hw _ Hm Hn) as (Hmask & Hmat & Hm0 & Hmr & Hf).
  assert (Hfld : forall f s len q, (f, s, len, q) ∈ placed_fields (p_fields p) ->
            get_arg f (pattern_args p (wyde_word m i k x)) = field_val s len q (wyde_word m i k x))
    by (intros; by apply pattern_args_field).
  rewrite Hf in Hfld. unfold wyde_word in *. split; [|split; [|split]].
  - unfold matches. apply Z.eqb_eq. rewrite Hmask, Hmat. change 0xFF000000 with (Z.shiftl (Z.ones 8) 24).
    rewrite land_field by lia. Z.div_mod_to_equations; lia.
  - specialize (Hfld "ha" _ _ _ ltac:(left)). cbn [get_arg String.eqb Ascii.eqb Bool.eqb] in Hfld.
    unfold get_arg in Hfld. cbn in Hfld. rewrite Hfld. cbn -[Z.pow Z.div Z.modulo]. Z.div_mod_to_equations; lia.
  - specialize (Hfld "ww" _ _ _ ltac:(right; left)). unfold get_arg in Hfld. cbn in Hfld.
    rewrite Hfld. cbn -[Z.pow Z.div Z.modulo]. Z.div_mod_to_equations; lia.
  - specialize (Hfld "immu16" _ _ _ ltac:(right; right; left)). unfold get_arg in Hfld. cbn in Hfld.
    rewrite Hfld. cbn -[Z.pow Z.div Z.modulo]. Z.div_mod_to_equations; lia.
Qed.

(** ** Putting a value together from its wydes *)
Lemma wyde_or lo k x : 0 <= k -> 0 <= lo < 2^(16 * k) ->
  Z.lor lo (x * 2^(16 * k)) = lo + x * 2^(16 * k).
Proof. intros Hk Hlo. rewrite Z.lor_comm, lor_add_mul by lia. lia. Qed.
Lemma wyde_andn lo k x : 0 <= k <= 3 -> 0 <= lo < 2^(16 * k) -> 0 <= x < 2^16 ->
  Z.ldiff (lo + (2^64 - 2^(16 * k))) ((2^16 - 1 - x) * 2^(16 * k))
  = lo + x * 2^(16 * k) + (2^64 - 2^(16 * (k + 1))).
Proof.
  intros Hk Hlo Hx. rewrite ldiff_sub_land.
  assert (Hl : Z.land (lo + (2^64 - 2^(16 * k))) ((2^16 - 1 - x) * 2^(16 * k)) = (2^16 - 1 - x) * 2^(16 * k)).
  { assert (Hs : lo + (2^64 - 2^(16*k)) = (2^(64 - 16*k) - 1) * 2^(16*k) + lo).
    { rewrite Z.mul_sub_distr_r, <- Z.pow_add_r by lia. replace (64 - 16*k + 16*k) with 64 by lia. lia. }
    rewrite Hs. apply Z.bits_inj'. intros j Hj. rewrite Z.land_spec.
    destruct (Z.ltb_spec j (16 * k)); [rewrite (Z.mul_pow2_bits_low _ (16*k)) by lia; apply andb_false_r|].
    rewrite (Z.mul_pow2_bits (2^16 - 1 - x)) by lia.
    rewrite <- (lor_add_mul _ lo) by lia. rewrite Z.lor_spec, Z.mul_pow2_bits by lia.
    destruct (Z.testbit (2^16 - 1 - x) (j - 16*k)) eqn:E; [|apply andb_false_r].
    rewrite andb_true_r. assert (j - 16 * k < 16).
    { destruct (Z.ltb_spec (j - 16*k) 16); [done|].
      rewrite <- (Z.mod_small (2^16 - 1 - x) (2^16)), Z.mod_pow2_bits_high in E by lia. done. }
    replace (2^(64 - 16*k) - 1) with (Z.ones (64 - 16*k)) by (rewrite Z.ones_equiv; lia).
    rewrite Z.ones_spec_low by lia. done. }
  rewrite Hl. replace (16 * (k + 1)) with (16 * k + 16) by lia. rewrite Z.pow_add_r by lia. lia.
Qed.

Section Exec.
Context {M : Type} (B : backend M) (L : tcg_laws B).
Variable helper : string -> CPUDADAOState -> list Z -> Z * CPUDADAOState.
Variable disas : Z -> gen bool.
Hypothesis Hdisas : decodetree_laws disas.
Variable goto_tb : Z -> bool.
Abbreviation run := (run_words B helper disas goto_tb).

(** Words that take register [i] of [f] from [v] to [v'] and change nothing else. *)
Definition advances (f : regfile) (i : Z) (ws : list Z) (v v' : Z) : Prop :=
  forall pc env env' mem, 0 <= pc < 2^64 -> loaded f i v pc env env' ->
    exists env'', run ws pc env' mem = Some (env'', mem) /\
      loaded f i v' (w64 (pc + 4 * Z.of_nat (length ws))) env env''.

Lemma advances_nil f i v : advances f i [] v v.
Proof.
  intros pc env env' mem Hpc Hl. exists env'. split; [done|].
  cbn. by rewrite Z.add_0_r, w64_id.
Qed.
Lemma advances_cons f i w ws v v' v'' :
  advances f i [w] v v' -> advances f i ws v' v'' -> advances f i (w :: ws) v v''.
Proof.
  intros H1 H2 pc env env' mem Hpc Hl. destruct (H1 pc env env' mem Hpc Hl) as (e1 & Hr1 & Hl1).
  cbn [run_words] in Hr1 |- *. destruct (step _ _ _ _ _ _ _ _) as [[]|]; try done.
  destruct (_ =? _); [|done]. injection Hr1 as -> ->. cbn [length Z.of_nat] in Hl1.
  destruct (H2 (w64 (pc + 4)) env e1 mem (w64_range _)) as (e2 & Hr2 & Hl2).
  { by replace (pc + 4) with (pc + 4 * Z.of_nat 1) by lia. }
  exists e2. split; [done|]. cbn [length]. autorewrite with word in Hl2.
  by replace (pc + 4 * Z.of_nat (S (length ws))) with (pc + 4 + 4 * Z.of_nat (length ws)) by lia.
Qed.
Lemma advances_app f i ws1 ws2 v v' v'' :
  advances f i ws1 v v' -> advances f i ws2 v' v'' -> advances f i (ws1 ++ ws2) v v''.
Proof.
  intros H1 H2 pc env env' mem Hpc Hl. destruct (H1 pc env env' mem Hpc Hl) as (e1 & Hr1 & Hl1).
  destruct (H2 _ env e1 mem (w64_range _) Hl1) as (e2 & Hr2 & Hl2). exists e2. split.
  - rewrite run_words_app, Hr1.
    assert (Hf : fold_left (fun p (_ : Z) => w64 (p + 4)) ws1 pc = w64 (pc + 4 * Z.of_nat (length ws1))).
    { clear -Hpc. revert pc Hpc. induction ws1 as [|w ws1 IH]; intros pc Hpc; cbn [fold_left length].
      - by rewrite Z.add_0_r, w64_id.
      - rewrite IH by apply w64_range. autorewrite with word. f_equal. lia. }
    by rewrite Hf.
  - rewrite length_app. autorewrite with word in Hl2.
    by replace (pc + 4 * Z.of_nat (length ws1 + length ws2))
      with (pc + 4 * Z.of_nat (length ws1) + 4 * Z.of_nat (length ws2)) by lia.
Qed.

(** One instruction of a row that writes [g] of the wyde and the old value. *)
Lemma advances_row r f m (g : Z -> Z -> Z -> Z) i k x v :
  r ∈ isa_alu -> isa_pre r = always -> (isa_name r, m) ∈ wyde_ops ->
  (forall pc a e, ha a <> 0 ->
     isa_spec r pc a e = set_reg f (ha a) (g (ww a) (immu16 a) (reg f (ha a) e)) e) ->
  0 < i < 64 -> 0 <= k < 4 -> 0 <= x < 2^16 -> 0 <= g k x v < 2^64 ->
  advances f i [wyde_word m i k x] v (g k x v).
Proof.
  intros Hr Hpre Hn Hsem Hi Hk Hx Hv pc env env' mem Hpc Hl.
  assert (Hs : step_implements B helper disas (sp_alu r)).
  { pose proof (alu_implemented B L helper disas Hdisas) as Ha. rewrite Forall_forall in Ha. apply Ha.
    unfold isa_alu_specs. apply list_elem_of_fmap. eauto. }
  destruct Hs as (p & Hp & Hpn & Hstep).
  destruct (wyde_word_args p (isa_name r) m i k x) as (Hm & Hha & Hww & Himm); try done; [lia|].
  destruct Hl as [Hwf Hu Hpc' Hreg Hoth].
  specialize (Hstep goto_tb pc _ env' mem Hpc Hwf Hu Hm). cbn [sp_pre sp_sem sp_alu] in Hstep.
  rewrite Hpre in Hstep. specialize (Hstep I). cbn [next_insn] in Hstep.
  rewrite Hsem, Hha, Hww, Himm, reg_prologue, Hreg in Hstep by lia.
  exists (set_PC (w64 (pc + 4)) (set_reg f i (g k x v) (prologue env'))). split.
  - cbn [run_words]. rewrite Hstep.
    assert (Hq : REG_PC (set_PC (w64 (pc + 4)) (set_reg f i (g k x v) (prologue env'))) = w64 (pc + 4))
      by (unfold REG_PC, set_PC; apply reg_set_reg_eq; [eauto with cpu|lia]).
    by rewrite Hq, Z.eqb_refl.
  - cbn [length]. apply (loaded_step f i v pc env env'); try done; [lia|lia|apply w64_range].
Qed.
End Exec.

(** ** The value a set-immediate sequence leaves *)
Definition class_number (f : regfile) : Z :=
  match f with RD => 0 | RB => 0x40 | RF => 0x80 | RA => 0xC0 end.
Definition wyde_of (imm k : Z) : Z := imm / 2^(16 * k) mod 2^16.

Lemma wydes imm : 0 <= imm < 2^64 ->
  imm = wyde_of imm 0 + wyde_of imm 1 * 2^16 + wyde_of imm 2 * 2^32 + wyde_of imm 3 * 2^48.
Proof. intros H. unfold wyde_of. cbn [Z.mul]. rewrite Z.pow_0_r, Z.div_1_r. Z.div_mod_to_equations; lia. Qed.
Lemma wyde_of_range imm k : 0 <= wyde_of imm k < 2^16.
Proof. apply Z.mod_pos_bound. lia. Qed.
Lemma wyde_of_land imm k : 0 <= k -> Z.land (Z.shiftr imm (16 * k)) 0xFFFF = wyde_of imm k.
Proof. intros Hk. rewrite (land_mask _ _ 16), Z.shiftr_div_pow2 by (done || lia). done. Qed.
Lemma wyde_of_land0 imm : Z.land imm 0xFFFF = wyde_of imm 0.
Proof. rewrite <- wyde_of_land by lia. by rewrite Z.shiftr_0_r. Qed.
Lemma wyde_not x : 0 <= x < 2^16 -> Z.land (Z.lnot x) 0xFFFF = 2^16 - 1 - x.
Proof.
  intros Hx. rewrite (land_mask _ _ 16) by (done || lia). unfold Z.lnot.
  symmetry. apply (Z.mod_unique _ _ (-1)); lia.
Qed.

Section SetImm.
Context {M : Type} (B : backend M) (L : tcg_laws B).
Variable helper : string -> CPUDADAOState -> list Z -> Z * CPUDADAOState.
Variable disas : Z -> gen bool.
Hypothesis Hdisas : decodetree_laws disas.
Variable goto_tb : Z -> bool.
Abbreviation advances := (advances B helper disas goto_tb).

(** A row of the table by its name. *)
Definition row_named (n : string) (spec : args -> CPUDADAOState -> CPUDADAOState) : row :=
  Row n always (fun _ => spec).
Lemma assign_row n spec : row_named n spec ∈ isa_assign -> row_named n spec ∈ isa_alu.
Proof. intros H. unfold isa_alu. apply elem_of_app. right. apply elem_of_app. by right. Qed.
Ltac find_assign := apply assign_row; unfold isa_assign, row_named; cbv zeta; repeat first [left | right].

Lemma adv_rwii n f op m i k x v :
  row_named n (spec_rwii f op) ∈ isa_alu -> (n, m) ∈ wyde_ops ->
  0 < i < 64 -> 0 <= k < 4 -> 0 <= x < 2^16 -> 0 <= op v (x * 2^(16 * k)) < 2^64 ->
  advances f i [wyde_word m i k x] v (op v (x * 2^(16 * k))).
Proof.
  intros Hr Hn Hi Hk Hx Hv.
  apply (advances_row B L helper disas Hdisas goto_tb (row_named n (spec_rwii f op)) f m
           (fun k x v => op v (x * 2^(16 * k)))); try done.
  intros pc a e Ha. cbn [isa_spec row_named]. unfold spec_rwii, write. by rewrite (proj2 (Z.eqb_neq _ _) Ha).
Qed.
Lemma adv_setow i x v : 0 < i < 64 -> 0 <= x < 2^16 ->
  advances RD i [wyde_word DADAO_INSN_SETOW_RD i 0 x] v (x + (2^64 - 2^16)).
Proof.
  intros Hi Hx. replace (x + (2^64 - 2^16)) with (2^64 - 1 - (2^16 - 1 - x) * 2^(16 * 0)) by lia.
  apply (advances_row B L helper disas Hdisas goto_tb (row_named "SETOW" spec_setow) RD DADAO_INSN_SETOW_RD
           (fun k x _ => 2^64 - 1 - (2^16 - 1 - x) * 2^(16 * k))); try done; try lia.
  - find_assign.
  - unfold wyde_ops. set_solver.
  - intros pc a e Ha. cbn [isa_spec row_named]. unfold spec_setow, write. by rewrite (proj2 (Z.eqb_neq _ _) Ha).
Qed.
Lemma adv_setw i k x v : 0 < i < 64 -> 0 <= k < 4 -> 0 <= x < 2^16 -> 0 <= put_wyde k x v < 2^64 ->
  advances RF i [wyde_word DADAO_INSN_SETW i k x] v (put_wyde k x v).
Proof.
  intros Hi Hk Hx Hv.
  apply (advances_row B L helper disas Hdisas goto_tb (row_named "SETW" spec_setw) RF DADAO_INSN_SETW
           put_wyde); try done.
  - find_assign.
  - unfold wyde_ops. set_solver.
Qed.

(** A wyde that is skipped when it is already there. *)
Lemma adv_skip {sym} f i skip insn k x x' v v' :
  insn mod 2^24 = 0 -> 0 <= insn < 2^32 -> 0 < i < 64 -> 0 <= k < 4 -> 0 <= x' < 2^16 ->
  (x = skip -> v' = v) -> advances f i [wyde_word insn i k x'] v v' ->
  advances f i (words (sym := sym) (set_wyde skip insn i (Z.shiftl k 16) x x')) v v'.
Proof.
  intros Hm Hr Hi Hk Hx Hs Ha. unfold set_wyde. destruct (Z.eqb_spec x skip) as [E|E].
  - rewrite Hs by done. apply advances_nil.
  - unfold words, emit_insn. cbn [omap list_omap]. rewrite wyde_insn_word by (done || lia). done.
Qed.
Lemma adv_or {sym} n f m i k lo x :
  row_named n (spec_rwii f Z.lor) ∈ isa_alu -> (n, m) ∈ wyde_ops -> m mod 2^24 = 0 -> 0 <= m < 2^32 ->
  0 < i < 64 -> 0 <= k < 4 -> 0 <= x < 2^16 -> 0 <= lo < 2^(16 * k) ->
  advances f i (words (sym := sym) (set_wyde 0 m i (Z.shiftl k 16) x x)) lo (lo + x * 2^(16 * k)).
Proof.
  intros Hr Hn Hm Hmr Hi Hk Hx Hlo. apply adv_skip; try done; [by intros ->; lia|].
  rewrite <- wyde_or by lia. apply (adv_rwii n f Z.lor); try done. rewrite wyde_or by lia.
  assert (2^(16 * k) * 2^16 <= 2^64) by (rewrite <- Z.pow_add_r by lia; apply Z.pow_le_mono_r; lia).
  assert (0 < 2^(16*k)) by (apply Z.pow_pos_nonneg; lia). nia.
Qed.
Lemma adv_andn {sym} i k lo x :
  0 < i < 64 -> 0 <= k < 4 -> 0 <= x < 2^16 -> 0 <= lo < 2^(16 * k) ->
  advances RD i (words (sym := sym) (set_wyde 0xFFFF DADAO_INSN_ANDNW_RD i (Z.shiftl k 16) x
                                       (Z.land (Z.lnot x) 0xFFFF)))
    (lo + (2^64 - 2^(16 * k))) (lo + x * 2^(16 * k) + (2^64 - 2^(16 * (k + 1)))).
Proof.
  intros Hi Hk Hx Hlo. rewrite wyde_not by done.
  assert (2^(16 * (k + 1)) = 2^(16 * k) * 2^16) by (rewrite <- Z.pow_add_r by lia; f_equal; lia).
  assert (2^(16 * k) * 2^16 <= 2^64) by (rewrite <- Z.pow_add_r by lia; apply Z.pow_le_mono_r; lia).
  assert (0 < 2^(16*k)) by (apply Z.pow_pos_nonneg; lia).
  apply adv_skip; try done; [lia|intros ->; lia|]. rewrite <- wyde_andn by lia.
  apply (adv_rwii "ANDNWrd" RD Z.ldiff); try done; [find_assign|unfold wyde_ops; set_solver|lia|].
  rewrite wyde_andn by lia. nia.
Qed.
Lemma adv_setzw n f m i x v :
  row_named n (spec_rwii f (fun _ v => v)) ∈ isa_alu -> (n, m) ∈ wyde_ops ->
  0 < i < 64 -> 0 <= x < 2^16 -> advances f i [wyde_word m i 0 x] v x.
Proof.
  intros Hr Hn Hi Hx. replace x with (x * 2^(16 * 0)) at 2 by lia.
  apply (adv_rwii n f (fun _ v => v)); try done; lia.
Qed.
Lemma words_cons {sym} w (cs : list (gas_call sym)) : words (C_number w :: cs) = ([w] ++ words cs)%list.
Proof. done. Qed.
Lemma words_app {sym} (c1 c2 : list (gas_call sym)) : words (c1 ++ c2)%list = (words c1 ++ words c2)%list.
Proof. apply omap_app. Qed.

Ltac known :=
  lazymatch goal with
  | |- _ ∈ isa_alu => find_assign
  | |- _ ∈ wyde_ops => unfold wyde_ops; set_solver
  | |- _ => first [done | lia]
  end.

(** The or-sequences of rd and rb. *)
Lemma adv_or_sequence {sym} nz no mz mo f i imm v :
  row_named nz (spec_rwii f (fun _ v => v)) ∈ isa_alu -> (nz, mz) ∈ wyde_ops ->
  row_named no (spec_rwii f Z.lor) ∈ isa_alu -> (no, mo) ∈ wyde_ops ->
  mz mod 2^24 = 0 -> 0 <= mz < 2^32 -> mo mod 2^24 = 0 -> 0 <= mo < 2^32 ->
  0 < i < 64 -> 0 <= imm < 2^64 ->
  let x := wyde_of imm in
  advances f i (words (sym := sym)
    (C_number (w32 (wyde_insn mz i DADAO_WYDE_WL (x 0)))
     :: set_wyde 0 mo i DADAO_WYDE_WK (x 1) (x 1) ++ set_wyde 0 mo i DADAO_WYDE_WJ (x 2) (x 2)
     ++ set_wyde 0 mo i DADAO_WYDE_WH (x 3) (x 3))%list) v imm.
Proof.
  intros Hz Hzn Ho Hon Hm1 Hm2 Hm3 Hm4 Hi Himm x. rewrite words_cons, !words_app.
  pose proof (wyde_of_range imm 0). pose proof (wyde_of_range imm 1).
  pose proof (wyde_of_range imm 2). pose proof (wyde_of_range imm 3).
  unfold DADAO_WYDE_WL, DADAO_WYDE_WK, DADAO_WYDE_WJ, DADAO_WYDE_WH, x.
  pose proof (wydes imm Himm) as Hw.
  set (x0 := wyde_of imm 0) in *. set (x1 := wyde_of imm 1) in *. set (x2 := wyde_of imm 2) in *.
  set (x3 := wyde_of imm 3) in *. clearbody x0 x1 x2 x3. rewrite Hw, wyde_insn_word by (done || lia).
  eapply advances_app; [by apply (adv_setzw nz)|].
  eapply advances_app; [apply (adv_or no _ _ _ 1); (done || lia)|].
  eapply advances_app; [apply (adv_or no _ _ _ 2); (done || lia)|].
  apply (adv_or no _ _ _ 3); (done || lia).
Qed.

(** The and-not sequence of rd. *)
Lemma adv_andn_sequence {sym} i imm v : 0 < i < 64 -> 0 <= imm < 2^64 ->
  let x := wyde_of imm in let neg y := Z.land (Z.lnot y) 0xFFFF in
  advances RD i (words (sym := sym)
    (C_number (w32 (wyde_insn DADAO_INSN_SETOW_RD i DADAO_WYDE_WL (x 0)))
     :: set_wyde 0xFFFF DADAO_INSN_ANDNW_RD i DADAO_WYDE_WK (x 1) (neg (x 1))
     ++ set_wyde 0xFFFF DADAO_INSN_ANDNW_RD i DADAO_WYDE_WJ (x 2) (neg (x 2))
     ++ set_wyde 0xFFFF DADAO_INSN_ANDNW_RD i DADAO_WYDE_WH (x 3) (neg (x 3)))%list) v imm.
Proof.
  intros Hi Himm x neg. rewrite words_cons, !words_app.
  pose proof (wyde_of_range imm 0). pose proof (wyde_of_range imm 1).
  pose proof (wyde_of_range imm 2). pose proof (wyde_of_range imm 3).
  unfold DADAO_WYDE_WL, DADAO_WYDE_WK, DADAO_WYDE_WJ, DADAO_WYDE_WH, x, neg.
  pose proof (wydes imm Himm) as Hw.
  set (x0 := wyde_of imm 0) in *. set (x1 := wyde_of imm 1) in *. set (x2 := wyde_of imm 2) in *.
  set (x3 := wyde_of imm 3) in *. clearbody x0 x1 x2 x3. rewrite Hw, wyde_insn_word by (done || lia).
  eapply advances_app; [by apply adv_setow|].
  eapply advances_app; [apply (adv_andn _ 1); (done || lia)|].
  eapply advances_app; [apply (adv_andn _ 2); (done || lia)|].
  match goal with |- advances _ _ _ _ ?e => replace e with (e + (2^64 - 2^(16 * (3 + 1)))) by lia end.
  apply (adv_andn _ 3); (done || lia).
Qed.

(** The four setw of rf: each replaces one wyde of what is there. *)
Lemma put_wyde_step k lo q x : 0 <= k -> 0 <= lo < 2^(16 * k) ->
  put_wyde k x (lo + q * 2^(16 * k)) = lo + x * 2^(16 * k) + q / 2^16 * 2^(16 * (k + 1)).
Proof.
  intros Hk Hlo. unfold put_wyde. rewrite Z.div_add, (Z.div_small lo), Z.add_0_l by lia.
  replace (16 * (k + 1)) with (16 * k + 16) by lia. rewrite Z.pow_add_r by lia.
  pose proof (Z.div_mod q (2^16)). nia.
Qed.
Lemma adv_setw_wyde i k lo q x :
  0 < i < 64 -> 0 <= k < 4 -> 0 <= x < 2^16 -> 0 <= lo < 2^(16 * k) -> 0 <= q < 2^(64 - 16 * k) ->
  advances RF i [wyde_word DADAO_INSN_SETW i k x] (lo + q * 2^(16 * k))
    (lo + x * 2^(16 * k) + q / 2^16 * 2^(16 * (k + 1))).
Proof.
  intros Hi Hk Hx Hlo Hq. rewrite <- put_wyde_step by lia. apply adv_setw; try done.
  rewrite put_wyde_step by lia.
  assert (k = 0 \/ k = 1 \/ k = 2 \/ k = 3) as [->|[->|[->| ->]]] by lia;
    cbn -[Z.pow Z.div Z.modulo] in *; Z.div_mod_to_equations; lia.
Qed.
Lemma adv_setw_sequence {sym} i imm v : 0 < i < 64 -> 0 <= imm < 2^64 -> 0 <= v < 2^64 ->
  let x := wyde_of imm in
  advances RF i (words (sym := sym)
    (C_number (w32 (wyde_insn DADAO_INSN_SETW i DADAO_WYDE_WL (x 0)))
     :: emit_insn (wyde_insn DADAO_INSN_SETW i DADAO_WYDE_WK (x 1))
     ++ emit_insn (wyde_insn DADAO_INSN_SETW i DADAO_WYDE_WJ (x 2))
     ++ emit_insn (wyde_insn DADAO_INSN_SETW i DADAO_WYDE_WH (x 3)))%list) v imm.
Proof.
  intros Hi Himm Hv x. unfold emit_insn. cbn [app words omap list_omap].
  pose proof (wyde_of_range imm 0). pose proof (wyde_of_range imm 1).
  pose proof (wyde_of_range imm 2). pose proof (wyde_of_range imm 3).
  unfold DADAO_WYDE_WL, DADAO_WYDE_WK, DADAO_WYDE_WJ, DADAO_WYDE_WH, x.
  pose proof (wydes imm Himm) as Hw.
  set (x0 := wyde_of imm 0) in *. set (x1 := wyde_of imm 1) in *. set (x2 := wyde_of imm 2) in *.
  set (x3 := wyde_of imm 3) in *. clearbody x0 x1 x2 x3. rewrite !wyde_insn_word by (done || lia).
  replace v with (0 + v * 2^(16 * 0)) by lia.
  eapply advances_cons; [apply adv_setw_wyde; lia|].
  eapply advances_cons; [apply (adv_setw_wyde _ 1); (lia || (Z.div_mod_to_equations; lia))|].
  eapply advances_cons; [apply (adv_setw_wyde _ 2); (lia || (Z.div_mod_to_equations; lia))|].
  rewrite Hw. match goal with |- advances _ _ _ _ ?e =>
    replace e with (e + v / 2^16 / 2^16 / 2^16 / 2^16 * 2^(16 * (3 + 1))) by (Z.div_mod_to_equations; lia) end.
  match goal with |- advances _ _ _ (?l + _) _ => replace (x0 + x1 * 2^16 + x2 * 2^32) with l by lia end.
  apply (adv_setw_wyde _ 3); (lia || (Z.div_mod_to_equations; lia)).
Qed.

Lemma set_imm_advances {sym} f i imm v :
  f <> RA -> 0 < i < 64 -> 0 <= imm < 2^64 -> 0 <= v < 2^64 ->
  advances f i (words (sym := sym) (dd_pseudo_set_imm (class_number f + i) imm)) v imm.
Proof.
  intros Hf Hi Himm Hv. unfold dd_pseudo_set_imm.
  rewrite (wyde_of_land0 imm), (wyde_of_land imm 1 ltac:(lia) : Z.land (Z.shiftr imm 16) _ = _),
    (wyde_of_land imm 2 ltac:(lia) : Z.land (Z.shiftr imm 32) _ = _),
    (wyde_of_land imm 3 ltac:(lia) : Z.land (Z.shiftr imm 48) _ = _).
  destruct f; cbn [class_number]; [| | |done].
  - rewrite (proj2 (Z.ltb_lt (0 + i) 0x40)), Z.add_0_l by lia.
    destruct (_ <? _); [by apply adv_andn_sequence|].
    apply (adv_or_sequence "SETZWrd" "ORWrd"); known.
  - rewrite (proj2 (Z.ltb_ge (0x40 + i) 0x40)), (proj2 (Z.leb_le 0x40 (0x40 + i))),
      (proj2 (Z.ltb_lt (0x40 + i) 0x80)) by lia. cbn [andb].
    replace (0x40 + i - 0x40) with i by lia.
    apply (adv_or_sequence "SETZWrb" "ORWrb"); known.
  - rewrite (proj2 (Z.ltb_ge (0x80 + i) 0x40)), (proj2 (Z.leb_le 0x40 (0x80 + i))),
      (proj2 (Z.ltb_ge (0x80 + i) 0x80)) by lia. cbn [andb].
    replace (0x80 + i - 0x80) with i by lia. by apply adv_setw_sequence.
Qed.
Lemma set_imm_length {sym} reg imm :
  (1 <= length (words (sym := sym) (dd_pseudo_set_imm reg imm)) <= 4)%nat.
Proof.
  unfold dd_pseudo_set_imm, set_wyde. repeat case_match; cbn; lia.
Qed.

(** C12: The instructions the assembler emits for "setrd rd, imm", "setrb
    rb, imm" and "setrf rf, imm" are at most four and, run on the emulator
    one after the other, leave exactly the 64-bit immediate in the register,
    whatever it is, and change no other register but the program counter and
    the three the emulator keeps (rd0, rb0, rf0) and no memory. *)
Theorem set_imm_loads {sym} f i imm pc env mem :
  f <> RA -> 0 < i < 64 -> 0 <= imm < 2^64 ->
  0 <= pc < 2^64 -> REG_PC env = pc -> wf_env env -> u64_env env ->
  let ws := words (sym := sym) (dd_pseudo_set_imm (class_number f + i) imm) in
  (1 <= length ws <= 4)%nat /\
  exists env', run_words B helper disas goto_tb ws pc env mem = Some (env', mem) /\
    loaded f i imm (w64 (pc + 4 * Z.of_nat (length ws))) env env'.
Proof.
  intros Hf Hi Himm Hpc Hreg Hwf Hu ws. split; [apply set_imm_length|].
  apply (set_imm_advances f i imm (reg f i env) Hf Hi Himm (Hu f i) pc env env mem Hpc).
  by split.
Qed.
End SetImm.
