(* ===== verification/GasMoves.v ===== *)
(** The register moves of the assembler: setrd, setrb and setrf between
    registers, the limit on multiple-register instructions and the expansion
    of --multiple-to-single. *)
From S2P Require Import Prelude Opcodes Cpu Tcg Translate Run RefBackend IsaArith IsaMove Frame.
From S2P Require Import Decode Step Isa Disas DisasProps GasData Gas GasEncode GasExec.
Local Open Scope string_scope.
Local Open Scope Z_scope.

(** The move instruction between two classes. *)
Definition move_name (dst src : regfile) : option string :=
  match dst, src with
  | RD, RD => Some "RD2RD" | RD, RB => Some "RB2RD" | RD, RF => Some "RF2RD" | RD, RA => Some "RA2RD"
  | RB, RD => Some "RD2RB" | RB, RB => Some "RB2RB"
  | RF, RD => Some "RD2RF" | RF, RF => Some "RF2RF"
  | _, _ => None
  end.
Definition move_match (n : string) : Z := MATCH n.

Definition move_names : list string :=
  ["RD2RD"; "RB2RD"; "RF2RD"; "RA2RD"; "RD2RB"; "RB2RB"; "RD2RF"; "RF2RF"].
Lemma move_patterns : Forall (fun p => Forall (fun n => p_name p = n ->
    p_mask p = 0xFFFC0000 /\ p_match p = move_match n /\ move_match n mod 2^18 = 0 /\
    0 <= move_match n < 2^32 /\
    placed_fields (p_fields p) = [("hb", false, 6, 12); ("hc", false, 6, 6); ("immu6", false, 6, 0)]%nat)
  move_names) insns_decode.
Proof. apply (bool_decide_unpack _). vm_compute. done. Qed.

Lemma move_insn_word m i j : m mod 2^18 = 0 -> 0 <= m < 2^32 -> 0 <= i < 64 -> 0 <= j < 64 ->
  move_insn m i j = m + i * 2^12 + j * 2^6 + 1.
Proof.
  intros Hm Hr Hi Hj. unfold move_insn.
  rewrite (lor_next m i 12 18) by lia. rewrite (lor_next _ j 6 12) by (lia || (Z.div_mod_to_equations; lia)).
  rewrite (lor_low _ 1 6) by (lia || (Z.div_mod_to_equations; lia)). apply w32_id. Z.div_mod_to_equations; lia.
Qed.

Lemma move_word_args p n i j :
  p ∈ insns_decode -> p_name p = n -> n ∈ move_names -> 0 <= i < 64 -> 0 <= j < 64 ->
  let w := move_insn (move_match n) i j in
  matches p w = true /\ hb (pattern_args p w) = i /\ hc (pattern_args p w) = j /\
  immu6 (pattern_args p w) = 1.
Proof.
  intros Hp Hn Hm Hi Hj w. pose proof (proj1 (Forall_forall _ _) move_patterns p Hp) as Hw.
  rewrite Forall_forall in Hw. destruct (Hw _ Hm Hn) as (Hmask & Hmat & Hm0 & Hmr & Hf).
  assert (Hfld : forall f s len q, (f, s, len, q) ∈ placed_fields (p_fields p) ->
            get_arg f (pattern_args p w) = field_val s len q w)
    by (intros; by apply pattern_args_field).
  rewrite Hf in Hfld. unfold w in *. clear w.
  rewrite move_insn_word in * by done. set (m := move_match n) in *. clearbody m. split; [|split; [|split]].
  - unfold matches. apply Z.eqb_eq. rewrite Hmask, Hmat. change 0xFFFC0000 with (Z.shiftl (Z.ones 14) 18).
    rewrite land_field by lia. Z.div_mod_to_equations; lia.
  - specialize (Hfld "hb" _ _ _ ltac:(left)). unfold get_arg in Hfld. cbn in Hfld.
    rewrite Hfld. cbn -[Z.pow Z.div Z.modulo]. Z.div_mod_to_equations; lia.
  - specialize (Hfld "hc" _ _ _ ltac:(right; left)). unfold get_arg in Hfld. cbn in Hfld.
    rewrite Hfld. cbn -[Z.pow Z.div Z.modulo]. Z.div_mod_to_equations; lia.
  - specialize (Hfld "immu6" _ _ _ ltac:(right; right; left)). unfold get_arg in Hfld. cbn in Hfld.
    rewrite Hfld. cbn -[Z.pow Z.div Z.modulo]. Z.div_mod_to_equations; lia.
Qed.

(** The assembler picks the instruction of the two classes. *)
Lemma set_register_word dst src n i j :
  move_name dst src = Some n -> 0 <= i < 64 -> 0 <= j < 64 ->
  dd_pseudo_set_register (class_number dst + i) (class_number src + j) = move_insn (move_match n) i j.
Proof.
  intros Hn Hi Hj. unfold dd_pseudo_set_register, move_match.
  destruct dst, src; try done; injection Hn as <-; cbn [class_number]; zcases; cbn [andb]; try lia;
    f_equal; lia.
Qed.

(** ** The limit on multiple-register instructions *)
Definition multi_shape (r : dadao_opcode) : Prop :=
  (is_ldm_stm (name r) = true ->
     op_fb r = dadao_operand_rb /\ op_fc r = dadao_operand_rd /\ op_fd r = dadao_operand_immu6 /\
     operands_num r = 4 /\
     (op_fa r = dadao_operand_rd \/ op_fa r = dadao_operand_rb \/ op_fa r = dadao_operand_rf \/
      op_fa r = dadao_operand_ra)) /\
  (is_move (name r) = true ->
     op_fa r = dadao_operand_op /\ op_fd r = dadao_operand_immu6 /\ operands_num r = 3 /\
     (op_fb r = dadao_operand_rd \/ op_fb r = dadao_operand_rb \/ op_fb r = dadao_operand_rf \/
      op_fb r = dadao_operand_ra) /\
     (op_fc r = dadao_operand_rd \/ op_fc r = dadao_operand_rb \/ op_fc r = dadao_operand_rf \/
      op_fc r = dadao_operand_ra)).
#[export] Instance multi_shape_dec r : Decision (multi_shape r).
Proof. unfold multi_shape. apply _. Defined.
Lemma multi_shapes : Forall multi_shape insn_opc.
Proof. apply (bool_decide_unpack _). vm_compute. done. Qed.

Section Limit.
Context {sym : Type}.
Variable symbol_get_value_expression : option sym -> expressionS sym.
Hypothesis Hsym : forall s, numbers_ok (symbol_get_value_expression s).

(** The register number the limit tests is the field of the word. *)
Lemma rem_class t (e : expressionS sym) v :
  t = dadao_operand_rd \/ t = dadao_operand_rb \/ t = dadao_operand_rf \/ t = dadao_operand_ra ->
  0 <= v < 64 -> v = encoded t e -> Z.rem (X_add_number e) 64 = v.
Proof.
  intros Ht Hv He. assert (exists q, 0 <= q /\ X_add_number e = v + q * 64) as (q & Hq & ->).
  { destruct Ht as [->|[->|[->| ->]]]; cbn in He; [exists 0|exists 1|exists 2|exists 3]; lia. }
  rewrite Z.rem_mod_nonneg, Z.mod_add, Z.mod_small by lia. done.
Qed.

Lemma limit_field t (e ec : expressionS sym) v c :
  t = dadao_operand_rd \/ t = dadao_operand_rb \/ t = dadao_operand_rf \/ t = dadao_operand_ra ->
  0 <= v < 64 -> v = encoded t e -> c = encoded dadao_operand_immu6 ec ->
  Z.rem (X_add_number e) 64 + X_add_number ec <= 64 -> v + c <= 64.
Proof.
  intros Ht Hv He Hc. rewrite (rem_class t e v Ht Hv He). cbn in Hc. destruct (bool_decide _); lia.
Qed.

(** When the assembler does not complain that "the number of registers
    exceeds the limit", the registers of the multiple-register instruction it
    encodes all exist, so that for a count that is not 0 the emulator's
    translator stays within its register arrays. *)
Theorem register_limit_safe r exps n w p :
  r ∈ insn_opc -> (forall i, numbers_ok (exp_at exps i)) -> X_op (exp_at exps 2) <> O_left_shift ->
  register_limit (sym := sym) (name r) exps = [] ->
  dd_get_insn_code symbol_get_value_expression r exps n = (0, Some w) -> decode w = Some p ->
  let a := pattern_args p w in
  (is_ldm_stm (name r) = true -> immu6 a <> 0 -> range_ok (ha a) (immu6 a)) /\
  (is_move (name r) = true -> immu6 a <> 0 -> range_ok (hb a) (immu6 a) /\ range_ok (hc a) (immu6 a)).
Proof.
  intros Hr Hn Hshift Hlim Hc Hd a.
  destruct (code_decodes symbol_get_value_expression Hsym r exps n w Hr Hn Hc) as (p' & Hrow & Hd' & Hf).
  rewrite Hd in Hd'. injection Hd' as <-. fold a in Hf.
  apply decode_some in Hd as [Hp _]. destruct (pattern_args_ok p w Hp) as [(Hha & Hhb & Hhc & _) (_ & Hi6 & _)].
  fold a in Hha, Hhb, Hhc, Hi6.
  destruct (proj1 (Forall_forall _ _) multi_shapes r Hr) as [H1 H2].
  unfold row_exps, exp_c, exp_d, shifted, count_ab in Hf.
  rewrite (bool_decide_eq_false_2 _ Hshift), andb_false_r in Hf.
  apply app_eq_nil in Hlim as [Hl1 Hl2]. unfold range_ok. split.
  - intros Hm Hz. destruct (H1 Hm) as (Eb & Ec & Ed & _ & Ea). rewrite Hm in Hl1. cbn [andb] in Hl1.
    destruct (Z.ltb_spec 64 (Z.rem (num exps 0) 64 + num exps 3)); [done|].
    rewrite Eb, Ec, Ed in Hf. rewrite Forall_forall in Hf.
    pose proof (limit_field (op_fa r) (exp_at exps 0) (exp_at exps 3) (ha a) (immu6 a) Ea Hha) as Hlf.
    enough (ha a = encoded (op_fa r) (exp_at exps 0) /\ immu6 a = encoded dadao_operand_immu6 (exp_at exps 3))
      as [F1 F2] by (specialize (Hlf F1 F2); unfold num in *; lia).
    split.
    + apply (Hf (_, _, ("ha", false, 6, 18)%nat)). destruct Ea as [->|[->|[->| ->]]]; left.
    + apply (Hf (_, _, ("immu6", false, 6, 0)%nat)).
      destruct Ea as [->|[->|[->| ->]]]; cbn; right; right; right; left.
  - intros Hm Hz. destruct (H2 Hm) as (Ea & Ed & _ & Eb & Ec). rewrite Hm in Hl2. cbn [andb] in Hl2.
    destruct (Z.ltb_spec 64 (Z.rem (num exps 0) 64 + num exps 2)); [done|].
    destruct (Z.ltb_spec 64 (Z.rem (num exps 1) 64 + num exps 2)); [done|].
    rewrite Ea, Ed in Hf. rewrite Forall_forall in Hf.
    pose proof (limit_field (op_fb r) (exp_at exps 0) (exp_at exps 2) (hb a) (immu6 a) Eb Hhb) as Hlb.
    pose proof (limit_field (op_fc r) (exp_at exps 1) (exp_at exps 2) (hc a) (immu6 a) Ec Hhc) as Hlc.
    enough (hb a = encoded (op_fb r) (exp_at exps 0) /\ hc a = encoded (op_fc r) (exp_at exps 1) /\
            immu6 a = encoded dadao_operand_immu6 (exp_at exps 2)) as (F1 & F2 & F3)
      by (specialize (Hlb F1 F3); specialize (Hlc F2 F3); unfold num in *; lia).
    split; [|split].
    + apply (Hf (_, _, ("hb", false, 6, 12)%nat)). destruct Eb as [->|[->|[->| ->]]]; left.
    + apply (Hf (_, _, ("hc", false, 6, 6)%nat)).
      destruct Eb as [->|[->|[->| ->]]], Ec as [->|[->|[->| ->]]]; cbn; right; left.
    + apply (Hf (_, _, ("immu6", false, 6, 0)%nat)).
      destruct Eb as [->|[->|[->| ->]]], Ec as [->|[->|[->| ->]]]; cbn; right; right; left.
Qed.
End Limit.

Section Moves.
Context {M : Type} (B : backend M) (L : tcg_laws B).
Variable helper : string -> CPUDADAOState -> list Z -> Z * CPUDADAOState.
Variable disas : Z -> gen bool.
Hypothesis Hdisas : decodetree_laws disas.
Variable goto_tb : Z -> bool.


(** One register copied to another. *)
Lemma iter_move_one E b c env : iter_move E b c 1 env = E b c env.
Proof.
  unfold iter_move. change (Z.to_nat 1) with 1%nat. cbn [iter_up iter_down].
  replace (b + 1 - 1) with b by lia. replace (c + 1 - 1) with c by lia. by destruct (c <? b).
Qed.
Lemma spec_r2r_one src dest a env :
  wf_env env -> 0 <= hb a < 64 -> 0 <= hc a < 64 -> immu6 a = 1 -> hb a <> 0 ->
  spec_r2r src dest a env = set_reg dest (hb a) (reg src (hc a) env) env.
Proof.
  intros Hwf Hb Hc Hn Hb0. rewrite <- iter_move_spec by (done || (unfold range_ok; lia)).
  rewrite Hn, iter_move_one. unfold move_reg. by rewrite (proj2 (Z.eqb_neq _ _) Hb0).
Qed.

Lemma run_move dst src n i j pc env mem :
  move_name dst src = Some n -> 0 < i < 64 -> 0 < j < 64 ->
  0 <= pc < 2^64 -> REG_PC env = pc -> wf_env env -> u64_env env ->
  exists env', run_words B helper disas goto_tb [move_insn (move_match n) i j] pc env mem = Some (env', mem) /\
    loaded dst i (reg src j env) (w64 (pc + 4)) env env'.
Proof.
  intros Hn Hi Hj Hpc Hreg Hwf Hu.
  assert (Hs : step_implements B helper disas (sp_move n src dst)).
  { pose proof (moves_implemented B L helper disas Hdisas) as Ha. rewrite Forall_forall in Ha. apply Ha.
    unfold isa_moves. destruct dst, src; cbn in Hn; try discriminate Hn; injection Hn as <-;
      repeat first [left | right]. }
  destruct Hs as (p & Hp & Hpn & Hstep).
  destruct (move_word_args p n i j) as (Hm & Hhb & Hhc & Himm); try done; [|lia|lia|].
  { unfold move_names. destruct dst, src; cbn in Hn; try discriminate Hn; injection Hn as <-;
      repeat first [left | right]. }
  specialize (Hstep goto_tb pc _ env mem Hpc Hwf Hu Hm). cbn [sp_pre sp_sem sp_move next_insn] in Hstep.
  specialize (Hstep ltac:(unfold two_ranges, range_ok; lia)).
  rewrite spec_r2r_one, Hhb, Hhc, reg_prologue in Hstep by (done || lia || eauto with cpu).
  exists (set_PC (w64 (pc + 4)) (set_reg dst i (reg src j env) (prologue env))). split.
  - cbn [run_words]. rewrite Hstep.
    assert (Hq : REG_PC (set_PC (w64 (pc + 4)) (set_reg dst i (reg src j env) (prologue env))) = w64 (pc + 4))
      by (unfold REG_PC, set_PC; apply reg_set_reg_eq; [eauto with cpu|lia]).
    by rewrite Hq, Z.eqb_refl.
  - apply (loaded_step dst i (reg dst i env) pc env env); try done; [lia|lia|apply w64_range].
Qed.

(** "setrd", "setrb" and "setrf" between registers are one instruction
    that copies the source register to the target and changes nothing else,
    for every pair of classes that has a move instruction. *)
Theorem set_register_copies dst src n i j pc env mem :
  move_name dst src = Some n -> 0 < i < 64 -> 0 < j < 64 ->
  0 <= pc < 2^64 -> REG_PC env = pc -> wf_env env -> u64_env env ->
  exists env',
    run_words B helper disas goto_tb
      [dd_pseudo_set_register (class_number dst + i) (class_number src + j)] pc env mem = Some (env', mem) /\
    loaded dst i (reg src j env) (w64 (pc + 4)) env env'.
Proof.
  intros Hn Hi Hj Hpc Hreg Hwf Hu. rewrite (set_register_word dst src n) by (done || lia).
  by apply run_move.
Qed.
End Moves.
