(* ===== verification/GasRelax.v ===== *)
(** The assembler's back end: gas/config/tc-dadao.c, relaxation of frags,
    their conversion to instructions and fixups, and the fixups' resolution.

    A frag's bytes are a list, fr_literal, in which fr_opcode is an offset;
    what gas knows of a symbol is a parameter.  [None] is as_fatal or
    BAD_CASE, which end the assembly. *)
From S2P Require Import Prelude Opcodes GasData Gas.
Local Open Scope string_scope.
Local Open Scope Z_scope.

(** ** Little-endian words in memory *)
Definition number_to_chars (n : nat) (buf : list Z) (p v : Z) : list Z :=
  foldl (fun buf k => zupdate buf (p + Z.of_nat k) (v / 2^(8 * Z.of_nat k) mod 2^8)) buf (seq 0 n).
Definition md_number_to_chars (buf : list Z) (p v : Z) : list Z := number_to_chars 4 buf p v.
Definition bfd_getl32 (buf : list Z) (p : Z) : Z :=
  byte_at buf p + byte_at buf (p + 1) * 2^8 + byte_at buf (p + 2) * 2^16 + byte_at buf (p + 3) * 2^24.

(** ** dd_set_addr_offset *)
Definition dd_set_addr_offset (buf : list Z) (opcodep value bitcount : Z) (is_insn : bool)
    : option (list Z) :=
  if is_insn && negb (Z.land value 0x3 =? 0) then None
  else
    let value := if is_insn then Z.quot value 4 else value in
    if (0 <? value) && (Z.shiftl 1 bitcount <=? value) then None
    else if (value <? 0) && (Z.shiftl 1 bitcount <? - value) then None
    else
      let fc_fd buf := DDOP_SET_FD (DDOP_SET_FC buf opcodep (Z.land (Z.shiftr value 6) 0x3F))
                         opcodep (Z.land value 0x3F) in
      let fb buf := DDOP_SET_FB buf opcodep (Z.land (Z.shiftr value 12) 0x3F) in
      let fa buf := DDOP_SET_FA buf opcodep (Z.land (Z.shiftr value 18) 0x3F) in
      if bitcount =? 24 then Some (fc_fd (fb (fa buf)))
      else if bitcount =? 18 then Some (fc_fd (fb buf))
      else if bitcount =? 12 then Some (fc_fd buf)
      else None.

(** Fill in NOP:s for the expanded part. *)
Definition dd_fill_nops (buf : list Z) (opcodep : Z) (n : nat) : list Z :=
  foldl (fun buf i => md_number_to_chars buf (opcodep + Z.of_nat i * 4) (MATCH "SWYM")) buf (seq 0 n).

(** ** dadao_relax_table *)
Record relax_typeS := Relax { rlx_forward : Z; rlx_backward : Z; rlx_length : Z; rlx_more : Z }.
Definition dadao_relax_table : list relax_typeS :=
  [Relax 1 1 0 0; Relax 1 1 0 0;
   Relax (Z.shiftl 1 18) (- Z.shiftl 1 18) 0 (ENCODE_RELAX STATE_ABS STATE_MAX);
   Relax 0 0 (DD_INSN_BYTES 3) 0].

Section Relax.
Context {sym seg : Type} `{EqDecision seg}.
Variable S_IS_DEFINED S_IS_WEAK S_IS_COMMON : sym -> bool.
Variable S_GET_SEGMENT : sym -> seg.
Variable S_GET_VALUE : sym -> Z.
Variable absolute_section reg_section : seg.

Record fragS := Frag {
  fr_address : Z; fr_fix : Z; fr_var : Z; fr_subtype : Z; fr_symbol : option sym;
  fr_offset : Z; fr_opcode : Z; fr_literal : list Z }.
Definition set_fr_var (v : Z) (f : fragS) : fragS :=
  let 'Frag a x _ s y o p l := f in Frag a x v s y o p l.
Definition set_fr_subtype (s : Z) (f : fragS) : fragS :=
  let 'Frag a x v _ y o p l := f in Frag a x v s y o p l.
Definition set_fr_literal (l : list Z) (f : fragS) : fragS :=
  let 'Frag a x v s y o p _ := f in Frag a x v s y o p l.
(** fr_fix += var_part_size; fr_var = 0 *)
Definition close_frag (var_part_size : Z) (f : fragS) : fragS :=
  let 'Frag a x _ s y o p l := f in Frag a (x + var_part_size) 0 s y o p l.

(** ** relaxed_branch_length *)

(** The reach of a conditional branch, by its major opcode as an unsigned
    conversion of a char. *)
Definition branch_range (f : fragS) : option Z :=
  let major := w32 (sext 8 (byte_at (fr_literal f) (fr_opcode f + 3))) in
  if (Z.shiftr (MATCH "BRN") 24 <=? major) && (major <=? Z.shiftr (MATCH "BRNP") 24) then Some 0x40000
  else if (major =? Z.shiftr (MATCH "BREQ") 24) || (major =? Z.shiftr (MATCH "BRNE") 24) then Some 0x1000
  else None.
Definition relaxed_branch_length (f : fragS) (sec : seg) : Z :=
  match branch_range f, fr_symbol f with
  | Some range, Some s =>
      if S_IS_DEFINED s && negb (S_IS_WEAK s) && bool_decide (sec = S_GET_SEGMENT s) then
        let val := s64 (S_GET_VALUE s + fr_offset f - fr_address f) in
        if ((range <=? w64 (Z.quot val 4 + range / 2)) && (0 <? val))
           || ((range <? w64 (- Z.quot val 4 + range / 2)) && (val <? 0))
        then 4 else 0
      else 0
  | _, _ => 0
  end.

(** ** md_estimate_size_before_relax *)
Definition relaxable_states : list Z :=
  [STATE_BRCC; STATE_BRCC12; STATE_JUMP; STATE_CALL; STATE_HI18; STATE_LO12].
Definition known_subtype (t : Z) : bool :=
  existsb (fun s => (t =? ENCODE_RELAX s STATE_UNDF) || (t =? ENCODE_RELAX s STATE_ZERO))
    (STATE_ABS :: relaxable_states).
Definition md_estimate_size_before_relax (f : fragS) (segtype : seg) : option (Z * fragS) :=
  if known_subtype (fr_subtype f) then
    let f :=
      match List.find (fun s => fr_subtype f =? ENCODE_RELAX s STATE_UNDF) relaxable_states, fr_symbol f with
      | Some state, Some s =>
          if bool_decide (S_GET_SEGMENT s = segtype) && negb (S_IS_WEAK s)
          then set_fr_subtype (ENCODE_RELAX state STATE_ZERO) f else f
      | _, _ => f
      end in
    let n := relaxed_branch_length f segtype in
    Some (n, set_fr_var n f)
  else None.

(** ** dadao_relax_frag *)
Definition dadao_relax_frag (sec : seg) (f : fragS) : Z * fragS :=
  if (fr_subtype f =? 14) || (fr_subtype f =? 15) then
    let n := relaxed_branch_length f sec in (n - fr_var f, set_fr_var n f)
  else if fr_subtype f =? 3 then (12 - fr_var f, set_fr_var 12 f)
  else (0, f).

(** ** md_convert_frag *)
Record fixS := Fix {
  fx_where : Z; fx_size : Z; fx_addsy : option sym; fx_offset : Z; fx_pcrel : bool; fx_r_type : reloc;
  fx_done : bool }.

(** Expand far branches to multi-instruction sequences: the inverted branch
    and a jump. *)
Definition md_convert_frag_branch (f : fragS) : fragS :=
  let insn := bfd_getl32 (fr_literal f) (fr_opcode f) in
  let insn := if Z.shiftr insn 24 mod 2 =? 0 then insn + 0x1000000 else insn - 0x1000000 in
  let l := md_number_to_chars (fr_literal f) (fr_opcode f) insn in
  set_fr_literal (md_number_to_chars l (fr_opcode f + 4) (MATCH "JUMPI")) f.

Definition set_offset (f : fragS) (opcodep value bitcount : Z) : option fragS :=
  (fun l => set_fr_literal l f) <$> dd_set_addr_offset (fr_literal f) opcodep value bitcount true.

Definition max_reloc (t : Z) : option reloc :=
  if t =? ENCODE_RELAX STATE_BRCC STATE_MAX then Some BFD_RELOC_DADAO_BRCC
  else if t =? ENCODE_RELAX STATE_BRCC12 STATE_MAX then Some BFD_RELOC_DADAO_BRCC12
  else if t =? ENCODE_RELAX STATE_CALL STATE_MAX then Some BFD_RELOC_DADAO_CALL
  else if t =? ENCODE_RELAX STATE_JUMP STATE_MAX then Some BFD_RELOC_DADAO_JUMP
  else if t =? ENCODE_RELAX STATE_HI18 STATE_MAX then Some BFD_RELOC_DADAO_HI18
  else if t =? ENCODE_RELAX STATE_LO12 STATE_MAX then Some BFD_RELOC_DADAO_LO12
  else None.

Definition convert_branch (f : fragS) (distance bitcount : Z) : option (fragS * list fixS) :=
  if (fr_var f =? 4) && (fr_fix f =? 4) then
    let f := md_convert_frag_branch f in
    f ← set_offset f (fr_opcode f) 8 bitcount;
    f ← set_offset f (fr_opcode f + 4) (s64 (distance - 4)) 24;
    Some (close_frag 4 f, [])
  else
    f ← set_offset f (fr_opcode f) distance bitcount;
    Some (close_frag 0 f, []).

Definition md_convert_frag (f : fragS) : option (fragS * list fixS) :=
  let var_part_offset := fr_fix f in
  let target_address :=
    match fr_symbol f with Some s => S_GET_VALUE s | None => 0 end + fr_offset f in
  let opcode_address := fr_address f + fr_fix f - 4 in
  let distance := s64 (target_address - opcode_address) in
  let subtype := fr_subtype f in
  let state_is state := subtype =? ENCODE_RELAX state STATE_ZERO in
  let fixup r := Fix var_part_offset 4 (fr_symbol f) (fr_offset f) true r false in
  if state_is STATE_CALL || state_is STATE_JUMP then
    f ← set_offset f (fr_opcode f) distance 24; Some (close_frag 0 f, [])
  else if state_is STATE_BRCC then convert_branch f distance 18
  else if state_is STATE_BRCC12 then convert_branch f distance 12
  else if state_is STATE_HI18 || state_is STATE_LO12 then
    f ← set_offset f (fr_opcode f) distance 30; Some (close_frag 0 f, [])
  else if subtype =? ENCODE_RELAX STATE_ABS STATE_MAX then
    let var_part_size := rlx_length (nth (Z.to_nat (ENCODE_RELAX STATE_ABS STATE_MAX)) dadao_relax_table
                                       (Relax 0 0 0 0)) in
    let f' := set_fr_literal (dd_fill_nops (fr_literal f) var_part_offset (Z.to_nat (var_part_size / 4))) f in
    Some (close_frag var_part_size f', [fixup BFD_RELOC_DADAO_ABS])
  else match max_reloc subtype with
       | Some r => Some (close_frag 0 f, [fixup r])
       | None => None
       end.

(** ** Fixups *)
Definition fix_segment (fx : fixS) : seg :=
  match fx_addsy fx with None => absolute_section | Some s => S_GET_SEGMENT s end.
Definition set_fix (done : bool) (offset : Z) (fx : fixS) : fixS :=
  Fix (fx_where fx) (fx_size fx) (fx_addsy fx) offset (fx_pcrel fx) (fx_r_type fx) done.

(** Fields that hold plain numbers. *)
Definition is_number_reloc (r : reloc) : bool :=
  match r with
  | BFD_RELOC_64 | BFD_RELOC_32 | BFD_RELOC_24 | BFD_RELOC_16 | BFD_RELOC_8
  | BFD_RELOC_64_PCREL | BFD_RELOC_32_PCREL | BFD_RELOC_24_PCREL | BFD_RELOC_16_PCREL
  | BFD_RELOC_8_PCREL => true
  | _ => false
  end.
(** These are never "fixed". *)
Definition never_fixed (r : reloc) : bool :=
  match r with
  | BFD_RELOC_DADAO_ABS | BFD_RELOC_VTABLE_INHERIT | BFD_RELOC_VTABLE_ENTRY => true
  | _ => false
  end.

(** What md_apply_fix cannot resolve here. *)
Definition unresolved (fx : fixS) (segment : seg) : bool :=
  match fx_addsy fx with
  | None => false
  | Some s =>
      negb (S_IS_DEFINED s) || S_IS_WEAK s
      || (fx_pcrel fx && negb (bool_decide (fix_segment fx = segment)))
      || (negb (fx_pcrel fx) && negb (bool_decide (fix_segment fx = absolute_section)))
  end.

(** The bytes of the fix's frag and the fix; the value is a valueT that is
    read as an offsetT. *)
Definition md_apply_fix (buf : list Z) (fx : fixS) (valP : Z) (segment : seg)
    : option (list Z * fixS) :=
  let val := s64 valP in
  if unresolved fx segment || never_fixed (fx_r_type fx) then Some (buf, set_fix false (fx_offset fx) fx)
  else
    buf ← (match fx_r_type fx with
           | BFD_RELOC_DADAO_ABS => dd_set_addr_offset buf (fx_where fx) val 18 false
           | BFD_RELOC_DADAO_BRCC => dd_set_addr_offset buf (fx_where fx) val 18 true
           | BFD_RELOC_DADAO_BRCC12 => dd_set_addr_offset buf (fx_where fx) val 12 true
           | BFD_RELOC_DADAO_CALL | BFD_RELOC_DADAO_JUMP => dd_set_addr_offset buf (fx_where fx) val 24 true
           | r => if is_number_reloc r
                  then Some (number_to_chars (Z.to_nat (fx_size fx)) buf (fx_where fx) val)
                  else None
           end);
    Some (buf, set_fix true val fx).

(** The relocation written to the object file. *)
Record arelent := Arelent { r_sym : option sym; r_address : Z; r_addend : Z; r_code : reloc }.
Inductive gen_reloc_result :=
  | GenReloc (r : arelent)
  | GenResolved (buf : list Z)       (* stored; no relocation *)
  | GenBad.                          (* "operands were not reducible" *)

Definition is_plain_number (r : reloc) : bool :=
  match r with BFD_RELOC_64 | BFD_RELOC_32 | BFD_RELOC_24 | BFD_RELOC_16 | BFD_RELOC_8 => true | _ => false end.
Definition is_kept_reloc (r : reloc) : bool :=
  match r with
  | BFD_RELOC_64_PCREL | BFD_RELOC_32_PCREL | BFD_RELOC_24_PCREL | BFD_RELOC_16_PCREL
  | BFD_RELOC_8_PCREL | BFD_RELOC_VTABLE_INHERIT | BFD_RELOC_VTABLE_ENTRY
  | BFD_RELOC_DADAO_ABS | BFD_RELOC_DADAO_BRCC | BFD_RELOC_DADAO_BRCC12
  | BFD_RELOC_DADAO_CALL | BFD_RELOC_DADAO_JUMP | BFD_RELOC_DADAO_HI18 | BFD_RELOC_DADAO_LO12 => true
  | _ => false
  end.

Variable bfd_asymbol_value : sym -> Z.
Definition tc_gen_reloc (buf : list Z) (frag_address : Z) (fx : fixS) : gen_reloc_result :=
  let val := fx_offset fx + match fx_addsy fx with
                            | Some s => if negb (S_IS_WEAK s) && negb (S_IS_COMMON s) then S_GET_VALUE s else 0
                            | None => 0
                            end in
  let addend := w64 (val - match fx_addsy fx with
                           | Some s => if S_IS_COMMON s || S_IS_WEAK s then 0 else bfd_asymbol_value s
                           | None => 0
                           end) in
  let relP := GenReloc (Arelent (fx_addsy fx) (frag_address + fx_where fx) addend (fx_r_type fx)) in
  if is_plain_number (fx_r_type fx) then
    match fx_addsy fx with
    | Some s => if bool_decide (S_GET_SEGMENT s = absolute_section)
                then GenResolved (number_to_chars (Z.to_nat (fx_size fx)) buf (fx_where fx) val) else relP
    | None => GenResolved (number_to_chars (Z.to_nat (fx_size fx)) buf (fx_where fx) val)
    end
  else if is_kept_reloc (fx_r_type fx) then relP
  else GenBad.

(** All our pcrel relocations are must-keep. *)
Variable generic_force_reloc : fixS -> bool.
Definition dadao_force_relocation (fx : fixS) : bool :=
  if fx_pcrel fx then true else generic_force_reloc fx.
Definition md_pcrel_from_section (frag_address : Z) (fx : fixS) (sec : seg) : Z :=
  match fx_addsy fx with
  | Some s => if negb (S_IS_DEFINED s) || negb (bool_decide (S_GET_SEGMENT s = sec)) then 0
              else frag_address + fx_where fx
  | None => frag_address + fx_where fx
  end.
Definition tc_fix_adjustable (fx : fixS) : bool :=
  match fx_addsy fx with
  | Some s => negb (bool_decide (S_GET_SEGMENT s = reg_section))
  | None => true
  end
  && negb (bool_decide (fx_r_type fx = BFD_RELOC_VTABLE_INHERIT))
  && negb (bool_decide (fx_r_type fx = BFD_RELOC_VTABLE_ENTRY)).
End Relax.
