(* ===== verification/GasFix.v ===== *)
(** Branch offsets in memory: what dd_set_addr_offset stores, byte by byte
    and as a word, and what the emulator reads back. *)
From S2P Require Import Prelude GasData Gas GasRelax.
From Stdlib Require Import Btauto.
Local Open Scope Z_scope.

(** ** Bits of a byte *)
Lemma byte_bits x y : 0 <= x < 256 -> 0 <= y < 256 ->
  (forall i, 0 <= i < 8 -> Z.testbit x i = Z.testbit y i) -> x = y.
Proof.
  intros Hx Hy H. apply Z.bits_inj'. intros i Hi. destruct (Z.ltb_spec i 8); [by apply H|].
  rewrite <- (Z.mod_small x (2^8)), <- (Z.mod_small y (2^8)), !Z.mod_pow2_bits_high by lia. done.
Qed.
Ltac byte_case :=
  intros H; apply byte_bits;
  [ rewrite (land_mask _ 0xFF 8) by (done || lia); apply Z.mod_pos_bound; lia
  | apply (lor_range 8); [lia|done|rewrite (land_mask _ 0xFF 8) by (done || lia); apply Z.mod_pos_bound; lia]
  | intros i Hi; 
    assert (i = 0 \/ i = 1 \/ i = 2 \/ i = 3 \/ i = 4 \/ i = 5 \/ i = 6 \/ i = 7) as Hc by lia;
    rewrite ?Z.land_spec, ?Z.lor_spec, ?Z.land_spec, ?Z.lor_spec;
    repeat (rewrite ?Z.land_spec, ?Z.lor_spec, ?Z.shiftr_spec by lia);
    destruct Hc as [->|[->|[->|[->|[->|[->|[->| ->]]]]]]];
    repeat (rewrite ?Z.land_spec, ?Z.lor_spec, ?Z.shiftl_spec, ?Z.shiftr_spec by lia);
    repeat match goal with
    | |- context [?a - ?b] => let v := eval vm_compute in (a - b) in change (a - b) with v
    | |- context [?a + ?b] => let v := eval vm_compute in (a + b) in change (a + b) with v
    | |- context [Z.testbit (Z.pos ?c) ?k] =>
        let v := eval vm_compute in (Z.testbit (Z.pos c) k) in change (Z.testbit (Z.pos c) k) with v
    | |- context [Z.testbit ?c (Z.neg ?k)] => rewrite (Z.testbit_neg_r c (Z.neg k)) by lia
    end; btauto ].

Lemma or_fc_fd b q : 0 <= b < 256 ->
  Z.land (Z.lor (Z.land (Z.lor b (Z.shiftl (Z.land (Z.land (Z.shiftr q 6) 0x3F) 0x3) 6)) 0xFF)
            (Z.land (Z.land q 0x3F) 0x3F)) 0xFF = Z.lor b (Z.land q 0xFF).
Proof. byte_case. Qed.
Lemma or_fc b q : 0 <= b < 256 ->
  Z.land (Z.lor b (Z.shiftr (Z.land (Z.land (Z.shiftr q 6) 0x3F) 0x3F) 2)) 0xFF
  = Z.lor b (Z.land (Z.land (Z.shiftr q 8) 0xF) 0xFF).
Proof. byte_case. Qed.
Lemma or_fb_fc b q : 0 <= b < 256 ->
  Z.land (Z.lor (Z.land (Z.lor b (Z.shiftl (Z.land (Z.land (Z.shiftr q 12) 0x3F) 0xF) 4)) 0xFF)
            (Z.shiftr (Z.land (Z.land (Z.shiftr q 6) 0x3F) 0x3F) 2)) 0xFF
  = Z.lor b (Z.land (Z.shiftr q 8) 0xFF).
Proof. byte_case. Qed.
Lemma or_fb b q : 0 <= b < 256 ->
  Z.land (Z.lor b (Z.shiftr (Z.land (Z.land (Z.shiftr q 12) 0x3F) 0x3F) 4)) 0xFF
  = Z.lor b (Z.land (Z.land (Z.shiftr q 16) 0x3) 0xFF).
Proof. byte_case. Qed.
Lemma or_fa_fb b q : 0 <= b < 256 ->
  Z.land (Z.lor (Z.land (Z.lor b (Z.shiftl (Z.land (Z.land (Z.shiftr q 18) 0x3F) 0x3F) 2)) 0xFF)
            (Z.shiftr (Z.land (Z.land (Z.shiftr q 12) 0x3F) 0x3F) 4)) 0xFF
  = Z.lor b (Z.land (Z.shiftr q 16) 0xFF).
Proof. byte_case. Qed.

(** ** Bytes of a buffer *)
Definition bytes_ok (buf : list Z) : Prop := Forall (fun b => 0 <= b < 256) buf.
Definition in_buf (buf : list Z) (i : Z) : Prop := 0 <= i < Z.of_nat (length buf).

Lemma byte_at_range buf i : bytes_ok buf -> 0 <= byte_at buf i < 256.
Proof.
  intros H. unfold byte_at, zlookup. destruct (0 <=? i); [|cbn; lia].
  destruct (buf !! Z.to_nat i) as [b|] eqn:E; [|cbn; lia]. cbn.
  unfold bytes_ok in H. rewrite Forall_forall in H. apply H. by eapply list_elem_of_lookup_2.
Qed.
Lemma byte_at_update_eq buf i x : in_buf buf i -> byte_at (zupdate buf i x) i = x.
Proof. intros H. unfold byte_at. by rewrite zlookup_zupdate_eq. Qed.
Lemma byte_at_update_ne buf i j x : i <> j -> byte_at (zupdate buf i x) j = byte_at buf j.
Proof. intros H. unfold byte_at. by rewrite zlookup_zupdate_ne. Qed.
Lemma byte_at_or_eq buf i x : in_buf buf i ->
  byte_at (or_byte buf i x) i = Z.land (Z.lor (byte_at buf i) x) 0xFF.
Proof. apply byte_at_update_eq. Qed.
Lemma byte_at_or_ne buf i j x : i <> j -> byte_at (or_byte buf i x) j = byte_at buf j.
Proof. apply byte_at_update_ne. Qed.
Lemma length_or_byte buf i x : length (or_byte buf i x) = length buf.
Proof. apply length_zupdate. Qed.
Lemma bytes_ok_update buf i x : bytes_ok buf -> 0 <= x < 256 -> bytes_ok (zupdate buf i x).
Proof. intros H Hx. unfold zupdate. destruct (0 <=? i); [|done]. by apply Forall_insert. Qed.
Lemma bytes_ok_or buf i x : bytes_ok buf -> bytes_ok (or_byte buf i x).
Proof.
  intros H. apply bytes_ok_update; [done|]. rewrite (land_mask _ 0xFF 8) by (done || lia).
  apply Z.mod_pos_bound. lia.
Qed.
#[export] Hint Resolve bytes_ok_or : word.

(** ** The bytes dd_set_addr_offset leaves *)
Definition mid_mask (n : Z) : Z := if n =? 12 then 0xF else 0xFF.
Definition high_mask (n : Z) : Z := if n =? 12 then 0 else if n =? 18 then 0x3 else 0xFF.
Definition bitcounts : list Z := [12; 18; 24].

Record stored (buf buf' : list Z) (p q n : Z) : Prop := Stored {
  st_ok : bytes_ok buf'; st_length : length buf' = length buf;
  st_b0 : byte_at buf' p = Z.lor (byte_at buf p) (Z.land q 0xFF);
  st_b1 : byte_at buf' (p + 1) = Z.lor (byte_at buf (p + 1)) (Z.land (Z.land (Z.shiftr q 8) (mid_mask n)) 0xFF);
  st_b2 : byte_at buf' (p + 2) = Z.lor (byte_at buf (p + 2)) (Z.land (Z.land (Z.shiftr q 16) (high_mask n)) 0xFF);
  st_other : forall j, j < p \/ p + 2 < j -> byte_at buf' j = byte_at buf j }.

Ltac bytes :=
  repeat first
    [ rewrite byte_at_or_ne by lia
    | rewrite byte_at_or_eq by (unfold in_buf in *; rewrite ?length_or_byte; lia) ].

(** Accepted values, in bytes: aligned, and of magnitude 2^n words. *)
Definition offset_accepted (v n : Z) : bool :=
  (v mod 4 =? 0) && (- 2^n <=? v / 4) && (v / 4 <? 2^n).

Lemma quot4 v : v mod 4 = 0 -> Z.quot v 4 = v / 4.
Proof. intros H. apply Z.quot_div_exact; [lia|]. apply Z.mod_divide; lia. Qed.

(** The stores of the switch. *)
Definition store_offset (buf : list Z) (p q n : Z) : option (list Z) :=
  let fc_fd buf := DDOP_SET_FD (DDOP_SET_FC buf p (Z.land (Z.shiftr q 6) 0x3F)) p (Z.land q 0x3F) in
  let fb buf := DDOP_SET_FB buf p (Z.land (Z.shiftr q 12) 0x3F) in
  let fa buf := DDOP_SET_FA buf p (Z.land (Z.shiftr q 18) 0x3F) in
  if n =? 24 then Some (fc_fd (fb (fa buf))) else if n =? 18 then Some (fc_fd (fb buf))
  else if n =? 12 then Some (fc_fd buf) else None.

Lemma store_offset_bytes buf p q n :
  n ∈ bitcounts -> bytes_ok buf -> 0 <= p -> p + 4 <= Z.of_nat (length buf) ->
  exists buf', store_offset buf p q n = Some buf' /\ stored buf buf' p q n.
Proof.
  intros Hn Hok Hp Hlen. pose proof (fun i => byte_at_range buf i Hok) as Hr.
  unfold bitcounts in Hn. rewrite !elem_of_cons in Hn. unfold store_offset.
  destruct Hn as [->|[->|[->|Hn]]]; [| | |by apply elem_of_nil in Hn]; cbn [Z.eqb Pos.eqb];
    eexists; (split; [reflexivity|]);
    unfold DDOP_SET_FD, DDOP_SET_FC, DDOP_SET_FB, DDOP_SET_FA;
    (split; [eauto 10 with word | rewrite ?length_or_byte; done | .. | intros j Hj; bytes; done]);
    unfold mid_mask, high_mask; cbn [Z.eqb Pos.eqb]; bytes;
    rewrite ?Z.land_0_r, ?Z.land_0_l, ?Z.lor_0_r; try done.
  all: first [by rewrite or_fc_fd | by rewrite or_fc | by rewrite or_fb |
              rewrite <- (Z.land_assoc _ 0xFF 0xFF); change (Z.land 0xFF 0xFF) with 0xFF;
              first [by rewrite or_fb_fc | by rewrite or_fa_fb]].
Qed.

Lemma set_addr_offset_bytes buf p v n :
  n ∈ bitcounts -> bytes_ok buf -> 0 <= p -> p + 4 <= Z.of_nat (length buf) ->
  if offset_accepted v n
  then exists buf', dd_set_addr_offset buf p v n true = Some buf' /\ stored buf buf' p (v / 4) n
  else dd_set_addr_offset buf p v n true = None.
Proof.
  intros Hn Hok Hp Hlen. destruct (store_offset_bytes buf p (v / 4) n) as (buf' & Hs & Hb); try done.
  unfold dd_set_addr_offset, offset_accepted.
  rewrite (land_mask v 0x3 2) by (done || lia). change (2^2) with 4. cbn [andb].
  destruct (Z.eqb_spec (v mod 4) 0) as [Hv|Hv]; [|done]. cbn [negb andb]. rewrite quot4 by done.
  fold (store_offset buf p (v / 4) n). rewrite Hs. clear Hs. set (q := v / 4) in *. clearbody q.
  rewrite Z.shiftl_1_l.
  assert (Hn0 : 0 < 2^n).
  { apply Z.pow_pos_nonneg; [lia|]. unfold bitcounts in Hn. rewrite !elem_of_cons in Hn.
    destruct Hn as [->|[->|[->|H]]]; try lia. by apply elem_of_nil in H. }
  destruct (Z.leb_spec (- 2^n) q), (Z.ltb_spec q (2^n)), (Z.ltb_spec 0 q), (Z.leb_spec (2^n) q),
    (Z.ltb_spec q 0), (Z.ltb_spec (2^n) (- q)); cbn [andb]; try lia; try done; by exists buf'.
Qed.

(** ** The word they make *)
Lemma lor_aligned b x k : 0 <= k -> b mod 2^k = 0 -> 0 <= x < 2^k -> Z.lor b x = b + x.
Proof.
  intros Hk Hb Hx. assert (b = b / 2^k * 2^k) as -> by (pose proof (Z.div_mod b (2^k)); lia).
  by apply lor_add_mul.
Qed.
Lemma byte_field q k : 0 <= k -> Z.land (Z.shiftr q k) 0xFF = q / 2^k mod 2^8.
Proof. intros Hk. rewrite (land_mask _ 0xFF 8), Z.shiftr_div_pow2 by (done || lia). done. Qed.

Lemma stored_word buf buf' p q n :
  n ∈ bitcounts -> bytes_ok buf -> stored buf buf' p q n -> bfd_getl32 buf p mod 2^n = 0 ->
  bfd_getl32 buf' p = bfd_getl32 buf p + q mod 2^n.
Proof.
  intros Hn Hok [_ _ H0 H1 H2 Ho] Hz. unfold bfd_getl32 in *. rewrite (Ho (p + 3)), H0, H1, H2 by lia.
  pose proof (byte_at_range buf p Hok). pose proof (byte_at_range buf (p + 1) Hok).
  pose proof (byte_at_range buf (p + 2) Hok). pose proof (byte_at_range buf (p + 3) Hok).
  set (b0 := byte_at buf p) in *. set (b1 := byte_at buf (p + 1)) in *.
  set (b2 := byte_at buf (p + 2)) in *. set (b3 := byte_at buf (p + 3)) in *. clearbody b0 b1 b2 b3.
  clear H0 H1 H2 Ho. unfold bitcounts in Hn. rewrite !elem_of_cons in Hn.
  rewrite (land_mask q 0xFF 8) by (done || lia).
  destruct Hn as [->|[->|[->|Hn]]]; [| | |by apply elem_of_nil in Hn];
    unfold mid_mask, high_mask; cbn [Z.eqb Pos.eqb];
    rewrite (lor_aligned b0 _ 8) by (lia || (apply Z.mod_pos_bound; lia) || (Z.div_mod_to_equations; lia)).
  - rewrite Z.land_0_r, Z.land_0_l, Z.lor_0_r, <- Z.land_assoc. change (Z.land 0xF 0xFF) with 0xF.
    rewrite (land_mask _ 0xF 4), Z.shiftr_div_pow2 by (done || lia).
    rewrite (lor_aligned b1 _ 4); [|lia|Z.div_mod_to_equations; lia|apply Z.mod_pos_bound; lia].
    Z.div_mod_to_equations; lia.
  - rewrite <- !Z.land_assoc. change (Z.land 0xFF 0xFF) with 0xFF. change (Z.land 0x3 0xFF) with 0x3.
    rewrite byte_field, (land_mask _ 0x3 2), Z.shiftr_div_pow2 by (done || lia).
    rewrite (lor_aligned b1 _ 8); [|lia|Z.div_mod_to_equations; lia|apply Z.mod_pos_bound; lia].
    rewrite (lor_aligned b2 _ 2); [|lia|Z.div_mod_to_equations; lia|apply Z.mod_pos_bound; lia].
    Z.div_mod_to_equations; lia.
  - rewrite <- !Z.land_assoc. change (Z.land 0xFF 0xFF) with 0xFF. rewrite !byte_field by lia.
    rewrite (lor_aligned b1 _ 8); [|lia|Z.div_mod_to_equations; lia|apply Z.mod_pos_bound; lia].
    rewrite (lor_aligned b2 _ 8); [|lia|Z.div_mod_to_equations; lia|apply Z.mod_pos_bound; lia].
    Z.div_mod_to_equations; lia.
Qed.

Lemma bitcount_pos n : n ∈ bitcounts -> 0 < n.
Proof. unfold bitcounts. rewrite !elem_of_cons, elem_of_nil. lia. Qed.

(** Storing a branch offset in a field that is empty: an offset that is
    not a multiple of four, or whose word count has a magnitude of more than
    2^n, is rejected; otherwise the field holds the word count modulo 2^n and
    no other bit of the buffer changes.  The emulator reads back the same
    offset when it fits a signed n-bit field; a word count from 2^(n-1) up is
    accepted all the same and read back with the wrong sign. *)
Theorem set_addr_offset_stores buf p v n :
  n ∈ bitcounts -> bytes_ok buf -> 0 <= p -> p + 4 <= Z.of_nat (length buf) ->
  bfd_getl32 buf p mod 2^n = 0 ->
  if offset_accepted v n then
    exists buf', dd_set_addr_offset buf p v n true = Some buf' /\
      bfd_getl32 buf' p = bfd_getl32 buf p + (v / 4) mod 2^n /\
      (forall j, j < p \/ p + 2 < j -> byte_at buf' j = byte_at buf j) /\
      (- 2^(n-1) <= v / 4 < 2^(n-1) -> 4 * sext n (bfd_getl32 buf' p) = v) /\
      (2^(n-1) <= v / 4 -> 4 * sext n (bfd_getl32 buf' p) = v - 4 * 2^n)
  else dd_set_addr_offset buf p v n true = None.
Proof.
  intros Hn Hok Hp Hlen Hz. pose proof (set_addr_offset_bytes buf p v n Hn Hok Hp Hlen) as H.
  pose proof (bitcount_pos n Hn) as Hn0.
  destruct (offset_accepted v n) eqn:Ha; [|done]. destruct H as (buf' & Hs & Hst).
  pose proof (stored_word buf buf' p (v / 4) n Hn Hok Hst Hz) as Hw. exists buf'. split; [done|].
  split; [done|]. split; [apply Hst|].
  unfold offset_accepted in Ha. apply andb_prop in Ha as [[Hv Hlo]%andb_prop Hhi].
  apply Z.eqb_eq in Hv. apply Z.leb_le in Hlo. apply Z.ltb_lt in Hhi.
  assert (Hmod : bfd_getl32 buf' p mod 2^n = (v / 4) mod 2^n).
  { rewrite Hw, <- Zplus_mod_idemp_l, Hz, Z.add_0_l. apply Z.mod_mod. lia. }
  assert (H2 : 2^n = 2 * 2^(n-1)) by (rewrite <- Z.pow_succ_r by lia; f_equal; lia).
  rewrite (sext_congr n _ (v / 4)) by (done || lia). pose proof (Z.div_mod v 4 ltac:(lia)). split; intros Hr.
  - rewrite sext_id by lia. lia.
  - rewrite (sext_congr n _ (v / 4 - 2^n)), sext_id by
      (lia || (rewrite <- Zminus_mod_idemp_r, Z_mod_same_full, Z.sub_0_r; lia)). lia.
Qed.

(** An offset in the signed range. *)
Lemma set_offset_word buf p v n :
  n ∈ bitcounts -> bytes_ok buf -> 0 <= p -> p + 4 <= Z.of_nat (length buf) ->
  bfd_getl32 buf p mod 2^n = 0 -> v mod 4 = 0 -> - 2^(n-1) <= v / 4 < 2^(n-1) ->
  exists buf', dd_set_addr_offset buf p v n true = Some buf' /\ bytes_ok buf' /\
    length buf' = length buf /\ bfd_getl32 buf' p = bfd_getl32 buf p + (v / 4) mod 2^n /\
    (forall j, j < p \/ p + 2 < j -> byte_at buf' j = byte_at buf j).
Proof.
  intros Hn Hok Hp Hlen Hz Hv Hr. pose proof (set_addr_offset_bytes buf p v n Hn Hok Hp Hlen) as H.
  pose proof (bitcount_pos n Hn).
  assert (2^n = 2 * 2^(n-1)) by (rewrite <- Z.pow_succ_r by lia; f_equal; lia).
  assert (Ha : offset_accepted v n = true) by (unfold offset_accepted; zcases; lia || done).
  rewrite Ha in H. destruct H as (buf' & Hs & Hst). exists buf'. split; [done|].
  split; [apply Hst|]. split; [apply Hst|]. split; [|apply Hst]. by apply stored_word.
Qed.

(** A word stored by md_number_to_chars. *)
Lemma number_word buf p v : bytes_ok buf -> 0 <= p -> p + 4 <= Z.of_nat (length buf) ->
  let buf' := md_number_to_chars buf p v in
  bytes_ok buf' /\ length buf' = length buf /\ bfd_getl32 buf' p = v mod 2^32 /\
  (forall j, j < p \/ p + 3 < j -> byte_at buf' j = byte_at buf j).
Proof.
  intros Hok Hp Hlen buf'. unfold buf', md_number_to_chars, number_to_chars. cbn [seq foldl].
  change (Z.of_nat 0) with 0. change (Z.of_nat 1) with 1. change (Z.of_nat 2) with 2.
  change (Z.of_nat 3) with 3. rewrite Z.add_0_r.
  assert (Hb : forall k, 0 <= v / 2^(8 * k) mod 2^8 < 256) by (intros; apply Z.mod_pos_bound; lia).
  split; [eauto 10 using bytes_ok_update|]. split; [by rewrite !length_zupdate|]. split.
  - unfold bfd_getl32.
    repeat first [ rewrite byte_at_update_ne by lia
                 | rewrite byte_at_update_eq by (unfold in_buf; rewrite ?length_zupdate; lia) ].
    cbn [Z.mul Pos.mul]. rewrite Z.pow_0_r, Z.div_1_r. Z.div_mod_to_equations; lia.
  - intros j Hj. by rewrite !byte_at_update_ne by lia.
Qed.
Lemma getl32_other buf buf' p : (forall j, p <= j <= p + 3 -> byte_at buf' j = byte_at buf j) ->
  bfd_getl32 buf' p = bfd_getl32 buf p.
Proof. intros H. unfold bfd_getl32. by rewrite !H by lia. Qed.
