(* ===== verification/GasBranch.v ===== *)
(** Long branches: the pair of instructions md_convert_frag makes of a branch
    that is out of reach, run on the emulator, and the estimate that asks
    for it. *)
From S2P Require Import Prelude Opcodes Cpu Tcg Translate Run RefBackend IsaArith IsaMove IsaControl Frame.
From S2P Require Import Decode Step Isa Disas DisasProps GasData Gas GasEncode GasExec GasRelax GasFix.
Local Open Scope string_scope.
Local Open Scope Z_scope.

(** ** The conditional branches: major opcode, name, offset bits, condition *)
Definition branch_row (m : Z) : option (string * Z * (Z -> Z -> bool)) :=
  if m =? 0x28 then Some ("BRN", 18, fun x _ => s64 x <? 0)
  else if m =? 0x29 then Some ("BRNN", 18, fun x _ => 0 <=? s64 x)
  else if m =? 0x2A then Some ("BRZ", 18, fun x _ => x =? 0)
  else if m =? 0x2B then Some ("BRNZ", 18, fun x _ => negb (x =? 0))
  else if m =? 0x2C then Some ("BRP", 18, fun x _ => 0 <? s64 x)
  else if m =? 0x2D then Some ("BRNP", 18, fun x _ => s64 x <=? 0)
  else if m =? 0x2E then Some ("BREQ", 12, fun x y => x =? y)
  else if m =? 0x2F then Some ("BRNE", 12, fun x y => negb (x =? y))
  else None.
Definition inverted (m : Z) : Z := if m mod 2 =? 0 then m + 1 else m - 1.

Lemma branch_row_range m r : branch_row m = Some r -> 0x28 <= m <= 0x2F.
Proof. unfold branch_row. zcases; try done; lia. Qed.

(** The inverted branch has the same fields and the opposite condition. *)
Lemma inverted_row m name n test : branch_row m = Some (name, n, test) ->
  exists name' test', branch_row (inverted m) = Some (name', n, test') /\
    forall x y, test' x y = negb (test x y).
Proof.
  intros H. pose proof (branch_row_range m _ H).
  assert (m = 0x28 \/ m = 0x29 \/ m = 0x2A \/ m = 0x2B \/ m = 0x2C \/ m = 0x2D \/ m = 0x2E \/ m = 0x2F)
    as Hm by lia.
  destruct Hm as [->|[->|[->|[->|[->|[->|[->| ->]]]]]]]; cbn in H; injection H as <- <- <-;
    do 2 eexists; (split; [reflexivity|]); intros x y; cbn; zcases; try done; lia.
Qed.

(** The word of a branch with empty offset field. *)
Definition branch_word (m n a b : Z) : Z := m * 2^24 + a * 2^18 + (if n =? 12 then b * 2^12 else 0).

Definition branch_table : list (Z * string * Z) :=
  [(0x28, "BRN", 18); (0x29, "BRNN", 18); (0x2A, "BRZ", 18); (0x2B, "BRNZ", 18); (0x2C, "BRP", 18);
   (0x2D, "BRNP", 18); (0x2E, "BREQ", 12); (0x2F, "BRNE", 12)].
Lemma branch_in_table m name n test : branch_row m = Some (name, n, test) -> (m, name, n) ∈ branch_table.
Proof.
  intros H. pose proof (branch_row_range m _ H).
  assert (m = 0x28 \/ m = 0x29 \/ m = 0x2A \/ m = 0x2B \/ m = 0x2C \/ m = 0x2D \/ m = 0x2E \/ m = 0x2F)
    as Hm by lia.
  destruct Hm as [->|[->|[->|[->|[->|[->|[->| ->]]]]]]]; cbn in H; injection H as <- <- _;
    unfold branch_table; repeat first [left | right].
Qed.
Lemma branch_patterns : Forall (fun p => Forall (fun '(m, name, n) => p_name p = name ->
    p_mask p = 0xFF000000 /\ p_match p = Z.shiftl m 24 /\
    placed_fields (p_fields p)
    = if n =? 12 then [("ha", false, 6, 18); ("hb", false, 6, 12); ("imms12", true, 12, 0)]%nat
      else [("ha", false, 6, 18); ("imms18", true, 18, 0)]%nat) branch_table) insns_decode.
Proof. apply (bool_decide_unpack _). vm_compute. done. Qed.
Lemma branch_pattern m name n test p :
  branch_row m = Some (name, n, test) -> p ∈ insns_decode -> p_name p = name ->
  p_mask p = 0xFF000000 /\ p_match p = Z.shiftl m 24 /\
  placed_fields (p_fields p)
  = if n =? 12 then [("ha", false, 6, 18); ("hb", false, 6, 12); ("imms12", true, 12, 0)]%nat
    else [("ha", false, 6, 18); ("imms18", true, 18, 0)]%nat.
Proof.
  intros Hr Hp Hn. pose proof (proj1 (Forall_forall _ _) branch_patterns p Hp) as H. cbn beta in H.
  rewrite Forall_forall in H. exact (H _ (branch_in_table _ _ _ _ Hr) Hn).
Qed.

Lemma branch_word_args m name n test p a b off :
  branch_row m = Some (name, n, test) -> p ∈ insns_decode -> p_name p = name ->
  0 <= a < 64 -> 0 <= b < 64 -> - 2^(n-1) <= off < 2^(n-1) ->
  let w := branch_word m n a b + off mod 2^n in
  matches p w = true /\ ha (pattern_args p w) = a /\
  (if n =? 12 then hb (pattern_args p w) = b /\ imms12 (pattern_args p w) = off
   else imms18 (pattern_args p w) = off).
Proof.
  intros Hr Hp Hn Ha Hb Hoff w. pose proof (branch_row_range m _ Hr) as Hm.
  destruct (branch_pattern m name n test p Hr Hp Hn) as (Hmask & Hmat & Hf).
  assert (Hfld : forall f s len q, (f, s, len, q) ∈ placed_fields (p_fields p) ->
            get_arg f (pattern_args p w) = field_val s len q w)
    by (intros; by apply pattern_args_field).
  rewrite Hf in Hfld.
  assert (Hn2 : n = 18 \/ n = 12).
  { unfold branch_row in Hr.
    repeat (destruct (_ =? _) in Hr; [injection Hr as <- <- <-; lia|]). done. }
  unfold w, branch_word in *. clear w.
  split; [unfold matches; apply Z.eqb_eq; rewrite Hmask, Hmat, Z.shiftl_mul_pow2 by lia;
    change 0xFF000000 with (Z.shiftl (Z.ones 8) 24); rewrite land_field by lia|].
  { destruct Hn2 as [->| ->]; cbn [Z.eqb Pos.eqb]; Z.div_mod_to_equations; lia. }
  destruct Hn2 as [->| ->]; cbn [Z.eqb Pos.eqb] in *.
  - split.
    + etransitivity; [exact (Hfld "ha" _ _ _ ltac:(left))|]. apply field_u. Z.div_mod_to_equations; lia.
    + etransitivity; [exact (Hfld "imms18" _ _ _ ltac:(right; left))|].
      apply field_s; [lia| |exact Hoff]. change (Z.of_nat 18) with 18. Z.div_mod_to_equations; lia.
  - split; [|split].
    + etransitivity; [exact (Hfld "ha" _ _ _ ltac:(left))|]. apply field_u. Z.div_mod_to_equations; lia.
    + etransitivity; [exact (Hfld "hb" _ _ _ ltac:(right; left))|]. apply field_u. Z.div_mod_to_equations; lia.
    + etransitivity; [exact (Hfld "imms12" _ _ _ ltac:(right; right; left))|].
      apply field_s; [lia| |exact Hoff]. change (Z.of_nat 12) with 12. Z.div_mod_to_equations; lia.
Qed.

Section Steps.
Context {M : Type} (B : backend M) (L : tcg_laws B).
Variable helper : string -> CPUDADAOState -> list Z -> Z * CPUDADAOState.
Variable disas : Z -> gen bool.
Hypothesis Hdisas : decodetree_laws disas.
Variable goto_tb : Z -> bool.
Abbreviation step := (step B helper disas goto_tb).

(** [env'] continues at [pc]; all registers but the three the emulator keeps
    are those of [env]. *)
Record continues (pc : Z) (env env' : CPUDADAOState) : Prop := Continues {
  ct_wf : wf_env env'; ct_u64 : u64_env env'; ct_pc : REG_PC env' = pc;
  ct_regs : forall g j, j <> 0 -> reg g j env' = reg g j env }.

Lemma continues_at pc d env e :
  0 <= pc < 2^64 -> wf_env env -> u64_env env ->
  e = prologue env \/ e = set_jmp_pc d (prologue env) -> continues pc env (set_PC pc e).
Proof.
  intros Hpc Hwf Hu He.
  assert (Hwe : wf_env e) by (destruct He as [->| ->]; eauto with cpu).
  assert (Hre : forall g j, reg g j e = reg g j (prologue env))
    by (intros g j; destruct He as [->| ->]; [done|apply reg_set_jmp_pc]).
  split.
  - unfold set_PC. eauto with cpu.
  - unfold set_PC. apply u64_set_reg; [|done]. intros g j. rewrite Hre. by apply u64_prologue.
  - unfold REG_PC, set_PC. apply reg_set_reg_eq; [done|lia].
  - intros g j Hj. unfold set_PC. rewrite reg_set_reg_ne by (right; lia). by rewrite Hre, reg_prologue.
Qed.

(** One conditional branch. *)
Lemma branch_step m name n test a b off pc env mem :
  branch_row m = Some (name, n, test) -> 0 < a < 64 -> 0 < b < 64 -> - 2^(n-1) <= off < 2^(n-1) ->
  0 <= pc < 2^64 -> wf_env env -> u64_env env ->
  exists env', step pc (branch_word m n a b + off mod 2^n) env mem = Some (RExit env' mem) /\
    continues (if test (reg RD a env) (reg RD b env) then w64 (pc + 4 * off) else w64 (pc + 4)) env env'.
Proof.
  intros Hr Ha Hb Hoff Hpc Hwf Hu.
  pose proof (control_implemented B L helper disas Hdisas) as Hall. rewrite Forall_forall in Hall.
  assert (Hs : exists sp, sp ∈ isa_control B /\ sp_name sp = name /\ (forall q x e, sp_pre sp q x e) /\
    forall q x e mm, sp_sem sp q x e mm
      = jump (RFall (set_jmp_pc (if test (reg RD (ha x) e) (reg RD (hb x) e)
               then w64 (q + 4 * (if n =? 12 then imms12 x else imms18 x)) else w64 (q + 4)) e) mm)).
  { pose proof (branch_row_range m _ Hr).
    assert (m = 0x28 \/ m = 0x29 \/ m = 0x2A \/ m = 0x2B \/ m = 0x2C \/ m = 0x2D \/ m = 0x2E \/ m = 0x2F)
      as Hm by lia.
    destruct Hm as [->|[->|[->|[->|[->|[->|[->| ->]]]]]]]; cbn in Hr; injection Hr as <- <- <-;
      [exists (sp_br1 "BRN" (fun x => s64 x <? 0)) | exists (sp_br1 "BRNN" (fun x => 0 <=? s64 x))
      |exists (sp_br1 "BRZ" (fun x => x =? 0)) | exists (sp_br1 "BRNZ" (fun x => negb (x =? 0)))
      |exists (sp_br1 "BRP" (fun x => 0 <? s64 x)) | exists (sp_br1 "BRNP" (fun x => s64 x <=? 0))
      |exists (sp_br2 "BREQ" Z.eqb) | exists (sp_br2 "BRNE" (fun x y => negb (x =? y)))];
      (split; [unfold isa_control; repeat first [left | right]|]);
      (split; [reflexivity|]); split; done. }
  destruct Hs as (sp & Hin & Hname & Hpre & Hsem). destruct (Hall sp Hin) as (p & Hp & Hpn & Hstep).
  rewrite Hname in Hpn.
  destruct (branch_word_args m name n test p a b off Hr Hp Hpn ltac:(lia) ltac:(lia) Hoff) as (Hm & Hha & Hrest).
  specialize (Hstep goto_tb pc _ env mem Hpc Hwf Hu Hm (Hpre _ _ _)).
  rewrite Hsem, Hha, reg_prologue in Hstep by lia.
  set (x := pattern_args p (branch_word m n a b + off mod 2^n)) in *.
  assert (Ht : test (reg RD a env) (reg RD (hb x) (prologue env)) = test (reg RD a env) (reg RD b env)
               /\ (if n =? 12 then imms12 x else imms18 x) = off).
  { assert (Hcases : n = 12 \/ forall u v w, test u v = test u w).
    { clear -Hr. unfold branch_row in Hr.
      repeat (destruct (_ =? _) in Hr; [injection Hr as <- <- <-; (by left) || (by right)|]). done. }
    destruct (Z.eqb_spec n 12) as [->|Hne].
    - destruct Hrest as [-> Himm]. by rewrite reg_prologue by lia.
    - destruct Hcases as [->|Ht]; [done|]. split; [apply Ht|done]. }
  destruct Ht as [Ht Ho]. rewrite Ht, Ho in Hstep. cbn [jump] in Hstep.
  eexists. split; [exact Hstep|].
  assert (Hj : forall v e, jmp_pc (set_jmp_pc v e) = v) by (by intros v []).
  rewrite Hj. eapply continues_at; [destruct (test _ _); apply w64_range|done|done|by right].
Qed.

Lemma jumpi_pattern : Forall (fun p => p_name p = "JUMPi" ->
    p_mask p = 0xFF000000 /\ p_match p = MATCH "JUMPI" /\
    placed_fields (p_fields p) = [("imms24", true, 24, 0)]%nat) insns_decode.
Proof. apply (bool_decide_unpack _). vm_compute. done. Qed.
Lemma jump_step off pc env mem :
  - 2^23 <= off < 2^23 -> 0 <= pc < 2^64 -> pc mod 4 = 0 -> wf_env env -> u64_env env ->
  exists env', step pc (MATCH "JUMPI" + off mod 2^24) env mem = Some (RExit env' mem) /\
    continues (w64 (pc + 4 * off)) env env'.
Proof.
  intros Hoff Hpc Hal Hwf Hu. pose proof (control_implemented B L helper disas Hdisas) as Hall.
  rewrite Forall_forall in Hall.
  destruct (Hall (Spec "JUMPi" aligned (fun pc a env mem => jump_to (jump_dest pc a) (RFall env mem))))
    as (p & Hp & Hpn & Hstep).
  { unfold isa_control. repeat first [left | right]. }
  destruct (proj1 (Forall_forall _ _) jumpi_pattern p Hp Hpn) as (Hmask & Hmat & Hf).
  set (w := MATCH "JUMPI" + off mod 2^24) in *.
  assert (HM : MATCH "JUMPI" = 0x64 * 2^24) by reflexivity.
  assert (Hm : matches p w = true).
  { unfold matches. apply Z.eqb_eq. rewrite Hmask, Hmat. change 0xFF000000 with (Z.shiftl (Z.ones 8) 24).
    rewrite land_field by lia. unfold w. rewrite HM. Z.div_mod_to_equations; lia. }
  assert (Himm : imms24 (pattern_args p w) = off).
  { etransitivity; [apply (pattern_args_field p w "imms24" true 24 0 Hp); rewrite Hf; left|].
    apply field_s; [lia| |exact Hoff]. unfold w. rewrite HM. change (Z.of_nat 24) with 24.
    Z.div_mod_to_equations; lia. }
  specialize (Hstep goto_tb pc w env mem Hpc Hwf Hu Hm Hal). cbn [sp_sem jump_to] in Hstep.
  unfold jump_dest in Hstep. rewrite Himm in Hstep. eexists. split; [exact Hstep|].
  apply (continues_at _ 0); [apply w64_range|done|done|by left].
Qed.
End Steps.

(** ** The expansion *)
Lemma branch_word_small m name n test a b : branch_row m = Some (name, n, test) ->
  0 <= a < 64 -> 0 <= b < 64 ->
  n ∈ bitcounts /\ 0 <= branch_word m n a b < 2^32 /\ branch_word m n a b / 2^24 = m /\
  branch_word m n a b mod 2^n = 0 /\ (n = 18 \/ n = 12).
Proof.
  intros Hr Ha Hb. pose proof (branch_row_range m _ Hr).
  assert (Hn : n = 18 \/ n = 12).
  { unfold branch_row in Hr. repeat (destruct (_ =? _) in Hr; [injection Hr as <- <- <-; lia|]). done. }
  unfold branch_word. split; [unfold bitcounts; destruct Hn as [->| ->]; set_solver|].
  destruct Hn as [->| ->]; cbn [Z.eqb Pos.eqb]; (split; [lia|]);
    (split; [Z.div_mod_to_equations; lia|]); (split; [Z.div_mod_to_equations; lia|lia]).
Qed.
Lemma inverted_word m n a b : branch_word (inverted m) n a b
  = if m mod 2 =? 0 then branch_word m n a b + 0x1000000 else branch_word m n a b - 0x1000000.
Proof. unfold branch_word, inverted. destruct (m mod 2 =? 0); lia. Qed.

Section Convert.
Context {sym : Type}.
Variable S_GET_VALUE : sym -> Z.

Definition brcc_state (n : Z) : Z := if n =? 12 then STATE_BRCC12 else STATE_BRCC.

(** The frag of one branch that has been given room for a second instruction. *)
Record far_branch (f : fragS (sym := sym)) (m n a b : Z) : Prop := FarBranch {
  fb_subtype : fr_subtype f = ENCODE_RELAX (brcc_state n) STATE_ZERO;
  fb_var : fr_var f = 4; fb_fix : fr_fix f = 4; fb_opcode : fr_opcode f = 0;
  fb_bytes : bytes_ok (fr_literal f); fb_room : 8 <= Z.of_nat (length (fr_literal f));
  fb_word : bfd_getl32 (fr_literal f) 0 = branch_word m n a b }.
Definition frag_target (f : fragS (sym := sym)) : Z :=
  match fr_symbol f with Some s => S_GET_VALUE s | None => 0 end + fr_offset f.

Lemma expand_branch (l : list Z) m name n test a b q :
  branch_row m = Some (name, n, test) -> 0 <= a < 64 -> 0 <= b < 64 ->
  bytes_ok l -> 8 <= Z.of_nat (length l) -> bfd_getl32 l 0 = branch_word m n a b ->
  q mod 4 = 0 -> - 2^23 <= q / 4 < 2^23 ->
  let insn := bfd_getl32 l 0 in
  let insn := if Z.shiftr insn 24 mod 2 =? 0 then insn + 0x1000000 else insn - 0x1000000 in
  let l2 := md_number_to_chars (md_number_to_chars l 0 insn) 4 (MATCH "JUMPI") in
  exists l3 l4, dd_set_addr_offset l2 0 8 n true = Some l3 /\ dd_set_addr_offset l3 4 q 24 true = Some l4 /\
    bfd_getl32 l4 0 = branch_word (inverted m) n a b + 2 mod 2^n /\
    bfd_getl32 l4 4 = MATCH "JUMPI" + (q / 4) mod 2^24.
Proof.
  intros Hr Ha Hb Hok Hlen Hw Hq Hq2 insn insn' l2. unfold insn in *. clear insn.
  destruct (branch_word_small m name n test a b Hr Ha Hb) as (Hn & Hbw & Hmaj & _ & Hn2).
  assert (Hi : insn' = branch_word (inverted m) n a b).
  { unfold insn'. rewrite inverted_word, Hw, Z.shiftr_div_pow2, Hmaj by lia. done. }
  destruct (inverted_row m name n test Hr) as (name' & test' & Hr' & _).
  destruct (branch_word_small _ _ _ _ a b Hr' Ha Hb) as (_ & Hbw' & _ & Hz & _).
  clearbody insn'. subst insn'.
  destruct (number_word l 0 (branch_word (inverted m) n a b)) as (O1 & L1 & W1 & _); [done|lia|lia|].
  set (l1 := md_number_to_chars l 0 (branch_word (inverted m) n a b)) in *.
  destruct (number_word l1 4 (MATCH "JUMPI")) as (O2 & L2 & W2 & R2); [done|lia|lia|]. fold l2 in O2, L2, W2, R2.
  assert (W20 : bfd_getl32 l2 0 = branch_word (inverted m) n a b).
  { rewrite (getl32_other l1) by (intros j Hj; apply R2; lia). rewrite W1. apply Z.mod_small. lia. }
  destruct (set_offset_word l2 0 8 n) as (l3 & E3 & O3 & L3 & W3 & R3);
    [done|done|lia|lia|by rewrite W20|done|destruct Hn2 as [->| ->]; (split; vm_compute; congruence)|].
  assert (W34 : bfd_getl32 l3 4 = MATCH "JUMPI").
  { rewrite (getl32_other l2) by (intros j Hj; apply R3; lia). rewrite W2. reflexivity. }
  destruct (set_offset_word l3 4 q 24) as (l4 & E4 & O4 & L4 & W4 & R4);
    [unfold bitcounts; set_solver|done|lia|lia|by rewrite W34|done|done|].
  exists l3, l4. split; [done|]. split; [done|]. split.
  - rewrite (getl32_other l3) by (intros j Hj; apply R4; lia). by rewrite W3, W20.
  - by rewrite W4, W34.
Qed.
End Convert.

Section LongBranch.
Context {sym : Type}.
Variable S_GET_VALUE : sym -> Z.
Context {M : Type} (B : backend M) (L : tcg_laws B).
Variable helper : string -> CPUDADAOState -> list Z -> Z * CPUDADAOState.
Variable disas : Z -> gen bool.
Hypothesis Hdisas : decodetree_laws disas.
Variable goto_tb : Z -> bool.
Abbreviation step := (step B helper disas goto_tb).

(** C13: A conditional branch whose target is out of its reach but within
    the reach of a jump becomes two instructions, and they are a conditional
    branch to that target: run on the emulator from the branch's address,
    they continue at the target when the condition holds and behind both
    when it does not, and change no register but the three the emulator
    keeps. *)
Theorem long_branch f m name n test a b env mem :
  let pc := fr_address f in let target := frag_target S_GET_VALUE f in
  branch_row m = Some (name, n, test) -> 0 < a < 64 -> 0 < b < 64 -> far_branch f m n a b ->
  0 <= pc < 2^64 - 8 -> pc mod 4 = 0 -> target mod 4 = 0 ->
  - 2^23 <= (target - pc - 4) / 4 < 2^23 -> wf_env env -> u64_env env ->
  exists f', md_convert_frag S_GET_VALUE f = Some (f', []) /\ fr_fix f' = 8 /\ fr_var f' = 0 /\
  exists env1, step pc (bfd_getl32 (fr_literal f') 0) env mem = Some (RExit env1 mem) /\
    if test (reg RD a env) (reg RD b env) then
      REG_PC env1 = pc + 4 /\
      exists env2, step (pc + 4) (bfd_getl32 (fr_literal f') 4) env1 mem = Some (RExit env2 mem) /\
        REG_PC env2 = w64 target /\ forall g j, j <> 0 -> reg g j env2 = reg g j env
    else continues (pc + 8) env env1.
Proof.
  intros pc target Hr Ha Hb [Hs Hv Hf Ho Hok Hlen Hw] Hpc Hal Htal Hd Hwf Hu.
  set (q := target - pc - 4) in *. assert (Hq : q mod 4 = 0) by (unfold q; Z.div_mod_to_equations; lia).
  destruct (expand_branch (fr_literal f) m name n test a b q Hr ltac:(lia) ltac:(lia) Hok Hlen Hw Hq Hd)
    as (l3 & l4 & E3 & E4 & W0 & W4).
  destruct (inverted_row m name n test Hr) as (name' & test' & Hr' & Ht).
  assert (Hc : md_convert_frag S_GET_VALUE f
    = Some (Frag pc 8 0 (fr_subtype f) (fr_symbol f) (fr_offset f) 0 l4, [])).
  { destruct f as [fa ff fv fs fy fo fp fl]. cbn [fr_address fr_fix fr_var fr_subtype fr_symbol fr_offset
      fr_opcode fr_literal] in *. subst ff fv fp fs. unfold pc in *.
    assert (Hs64 : s64 (q + 4 - 4) = q /\ s64 (q + 4) = q + 4).
    { unfold s64. rewrite !sext_id; [lia| lia| |lia|]; Z.div_mod_to_equations; lia. }
    destruct Hs64 as [Hs1 Hs2].
    assert (Hdist : s64 (match fy with Some s => S_GET_VALUE s | None => 0 end + fo - (fa + 4 - 4)) = q + 4).
    { rewrite <- Hs2. f_equal. unfold q, target, frag_target. cbn. lia. }
    assert (Hcb : convert_branch (Frag fa 4 4 (ENCODE_RELAX (brcc_state n) STATE_ZERO) fy fo 0 fl) (q + 4) n
      = Some (Frag fa 8 0 (ENCODE_RELAX (brcc_state n) STATE_ZERO) fy fo 0 l4, [])).
    { unfold convert_branch, md_convert_frag_branch, set_offset. cbn [fr_var fr_fix Z.eqb Pos.eqb andb
        set_fr_literal fr_literal fr_opcode]. change (0 + 4) with 4. rewrite E3.
      cbn [fmap option_fmap option_map mbind option_bind set_fr_literal fr_literal fr_opcode].
      rewrite Hs1. change (0 + 4) with 4. rewrite E4. reflexivity. }
    unfold md_convert_frag. cbn [fr_fix fr_symbol fr_offset fr_address fr_subtype]. rewrite Hdist.
    destruct (branch_word_small m name n test a b Hr ltac:(lia) ltac:(lia)) as (_ & _ & _ & _ & [->| ->]);
      exact Hcb. }
  eexists. split; [exact Hc|]. split; [done|]. split; [done|]. cbn [fr_literal]. rewrite W0, W4.
  assert (Hoff2 : - 2^(n-1) <= 2 < 2^(n-1)).
  { destruct (branch_word_small m name n test a b Hr ltac:(lia) ltac:(lia)) as (_ & _ & _ & _ & [->| ->]); cbn; lia. }
  destruct (branch_step B L helper disas Hdisas goto_tb _ _ _ _ a b 2 pc env mem Hr' Ha Hb Hoff2 ltac:(lia) Hwf Hu)
    as (env1 & Hst & Hcont). exists env1. split; [exact Hst|]. rewrite Ht in Hcont.
  destruct (test (reg RD a env) (reg RD b env)); cbn [negb] in Hcont.
  - destruct Hcont as [Hwf1 Hu1 Hpc1 Hreg1]. rewrite w64_id in Hpc1 by lia. split; [done|].
    destruct (jump_step B L helper disas Hdisas goto_tb (q / 4) (pc + 4) env1 mem Hd ltac:(lia)
      ltac:(Z.div_mod_to_equations; lia) Hwf1 Hu1) as (env2 & Hst2 & [_ _ Hpc2 Hreg2]).
    exists env2. split; [done|]. split.
    + rewrite Hpc2. f_equal. unfold q in *. Z.div_mod_to_equations; lia.
    + intros g j Hj. by rewrite Hreg2, Hreg1.
  - by rewrite w64_id in Hcont by lia.
Qed.
End LongBranch.

(** ** The estimate *)
Section Estimate.
Context {sym seg : Type} `{EqDecision seg}.
Variable S_IS_DEFINED S_IS_WEAK : sym -> bool.
Variable S_GET_SEGMENT : sym -> seg.
Variable S_GET_VALUE : sym -> Z.
Abbreviation branch_length := (relaxed_branch_length S_IS_DEFINED S_IS_WEAK S_GET_SEGMENT S_GET_VALUE).
Abbreviation estimate := (md_estimate_size_before_relax S_IS_DEFINED S_IS_WEAK S_GET_SEGMENT S_GET_VALUE).

(** A symbol of the frag's own section. *)
Definition local_symbol (s : sym) (sec : seg) : Prop :=
  S_IS_DEFINED s = true /\ S_IS_WEAK s = false /\ sec = S_GET_SEGMENT s.
(** The distance is in reach of [n] bits. *)
Definition in_reach (n d : Z) : bool := (- 2^(n-1) <=? Z.quot d 4) && (Z.quot d 4 <? 2^(n-1)).

Lemma branch_length_reach (f : fragS (sym := sym)) sec s n :
  branch_range f = Some (2^n) -> n = 18 \/ n = 12 -> fr_symbol f = Some s -> local_symbol s sec ->
  let d := S_GET_VALUE s + fr_offset f - fr_address f in - 2^62 <= d < 2^62 ->
  branch_length f sec = if in_reach n d then 0 else 4.
Proof.
  intros Hr Hn Hs (Hd & Hw & Hseg) d Hd62. unfold relaxed_branch_length. rewrite Hr, Hs, Hd, Hw.
  rewrite bool_decide_eq_true_2 by done. cbn [andb negb]. fold d. clearbody d.
  assert (Hs64 : s64 d = d) by (unfold s64; apply sext_id; lia). rewrite Hs64. unfold in_reach, w64.
  assert (Hq : Z.abs (Z.quot d 4) <= 2^60 /\ (0 < d -> 0 <= Z.quot d 4) /\ (d < 0 -> Z.quot d 4 <= 0))
    by (Z.quot_rem_to_equations; lia).
  destruct Hq as (Hq & Hqp & Hqn). clear Hd Hw Hseg Hs64 Hr.
  assert (Hn2 : 2^n = 2 * 2^(n-1) /\ 2^n / 2 = 2^(n-1) /\ 0 < 2^(n-1) <= 2^17)
    by (destruct Hn as [->| ->]; vm_compute; (split; [done|]); (split; [done|]); split; congruence).
  destruct Hn2 as (E1 & E2 & E3). rewrite E2, E1. set (h := 2^(n-1)) in *. clearbody h.
  destruct (Z.lt_trichotomy d 0) as [Hneg|[->|Hpos]].
  - rewrite (Z.mod_small (- Z.quot d 4 + h)) by lia. rewrite (proj2 (Z.ltb_ge 0 d)), (proj2 (Z.ltb_lt d 0)) by lia.
    rewrite andb_false_r, andb_true_r. zcases; cbn [andb orb]; try done; lia.
  - change (Z.quot 0 4) with 0. rewrite !andb_false_r. zcases; cbn [andb orb]; try done; lia.
  - rewrite (Z.mod_small (Z.quot d 4 + h)) by lia. rewrite (proj2 (Z.ltb_ge d 0)), (proj2 (Z.ltb_lt 0 d)) by lia.
    rewrite andb_false_r, andb_true_r, orb_false_r. zcases; cbn [andb orb]; try done; lia.
Qed.

Lemma estimate_branch f sec s n :
  fr_subtype f = ENCODE_RELAX (brcc_state n) STATE_UNDF -> n = 18 \/ n = 12 ->
  branch_range f = Some (2^n) -> fr_symbol f = Some s -> local_symbol s sec ->
  let d := S_GET_VALUE s + fr_offset f - fr_address f in - 2^62 <= d < 2^62 ->
  let k := if in_reach n d then 0 else 4 in
  estimate f sec = Some (k, set_fr_var k (set_fr_subtype (ENCODE_RELAX (brcc_state n) STATE_ZERO) f)).
Proof.
  intros Hsub Hn Hr Hs Hl d Hd k. unfold md_estimate_size_before_relax. destruct Hl as (Hdef & Hw & Hseg).
  set (f1 := set_fr_subtype (ENCODE_RELAX (brcc_state n) STATE_ZERO) f).
  assert (Hlen : branch_length f1 sec = k).
  { destruct f. apply (branch_length_reach f1 sec s n); done. }
  assert (Hk : known_subtype (fr_subtype f) = true) by (rewrite Hsub; destruct Hn as [->| ->]; reflexivity).
  assert (Hf : List.find (fun t => fr_subtype f =? ENCODE_RELAX t STATE_UNDF) relaxable_states
               = Some (brcc_state n)) by (rewrite Hsub; destruct Hn as [->| ->]; reflexivity).
  rewrite Hk, Hf, Hs, bool_decide_eq_true_2, Hw by done. cbn [andb negb]. fold f1. by rewrite Hlen.
Qed.

(** The estimate for a conditional branch to a symbol of its own section
    reserves no room when the target is in the signed reach of the branch,
    and one more instruction otherwise; in the first case the branch is
    converted to the single instruction with exactly that offset. *)
Theorem branch_estimate f sec s n :
  fr_subtype f = ENCODE_RELAX (brcc_state n) STATE_UNDF -> n = 18 \/ n = 12 ->
  branch_range f = Some (2^n) -> fr_symbol f = Some s -> local_symbol s sec ->
  let d := S_GET_VALUE s + fr_offset f - fr_address f in - 2^62 <= d < 2^62 ->
  exists k f1, estimate f sec = Some (k, f1) /\ fr_var f1 = k /\ k = (if in_reach n d then 0 else 4) /\
  (in_reach n d = true -> d mod 4 = 0 -> fr_fix f = 4 -> fr_opcode f = 0 -> bytes_ok (fr_literal f) ->
   4 <= Z.of_nat (length (fr_literal f)) -> bfd_getl32 (fr_literal f) 0 mod 2^n = 0 ->
   exists f2, md_convert_frag S_GET_VALUE f1 = Some (f2, []) /\ fr_fix f2 = 4 /\ fr_var f2 = 0 /\
     bfd_getl32 (fr_literal f2) 0 = bfd_getl32 (fr_literal f) 0 + (d / 4) mod 2^n).
Proof.
  intros Hsub Hn Hr Hs Hl d Hd. pose proof (estimate_branch f sec s n Hsub Hn Hr Hs Hl Hd) as He.
  set (k := if in_reach n d then 0 else 4) in *. exists k.
  exists (set_fr_var k (set_fr_subtype (ENCODE_RELAX (brcc_state n) STATE_ZERO) f)).
  split; [exact He|]. split; [by destruct f|]. split; [done|].
  intros Hreach Hal Hfix Hop Hok Hlen Hz. unfold k. rewrite Hreach. clear He k.
  assert (Hd4 : - 2^(n-1) <= d / 4 < 2^(n-1)).
  { unfold in_reach in Hreach. rewrite quot4 in Hreach by done. apply andb_prop in Hreach as [H1 H2].
    apply Z.leb_le in H1. by apply Z.ltb_lt in H2. }
  destruct (set_offset_word (fr_literal f) 0 d n) as (l & El & _ & _ & Hw & _);
    [unfold bitcounts; destruct Hn as [->| ->]; set_solver|done|lia|lia|done|done|done|].
  assert (Hs64 : s64 d = d) by (unfold s64; apply sext_id; lia).
  destruct f as [fa ff fv fs fy fo fp fl]. cbn [fr_fix fr_opcode fr_literal fr_symbol fr_offset fr_address
    fr_subtype] in *. subst ff fp fy fs.
  exists (Frag fa 4 0 (ENCODE_RELAX (brcc_state n) STATE_ZERO) (Some s) fo 0 l).
  split; [|done]. unfold md_convert_frag. cbn [set_fr_var set_fr_subtype fr_fix fr_symbol fr_offset
    fr_address fr_subtype].
  replace (S_GET_VALUE s + fo - (fa + 4 - 4)) with d by (unfold d; lia). rewrite Hs64.
  destruct Hn as [->| ->]; unfold convert_branch, set_offset;
    cbn -[dd_set_addr_offset d]; rewrite El; done.
Qed.

(** dadao_relax_frag looks at the two subtypes of BRCC12 only: a branch with
    an 18-bit offset that the growth of other frags moved out of reach is
    never given room. *)
Lemma brcc_never_relaxed f sec :
  fr_subtype f = ENCODE_RELAX STATE_BRCC STATE_ZERO ->
  dadao_relax_frag S_IS_DEFINED S_IS_WEAK S_GET_SEGMENT S_GET_VALUE sec f = (0, f).
Proof. intros H. unfold dadao_relax_frag. by rewrite H. Qed.

(** Room given to a branch that is not the first instruction of its frag is
    not used: the frag shrinks and the branch keeps its single word. *)
Lemma unused_room f f' fixes :
  fr_subtype f = ENCODE_RELAX STATE_BRCC STATE_ZERO -> fr_fix f <> 4 ->
  md_convert_frag S_GET_VALUE f = Some (f', fixes) -> fr_fix f' = fr_fix f /\ fr_var f' = 0.
Proof.
  intros Hs Hf.
  assert (Hc : exists d, md_convert_frag S_GET_VALUE f = convert_branch f d 18)
    by (unfold md_convert_frag; rewrite Hs; by eexists).
  destruct Hc as [d ->]. unfold convert_branch, set_offset.
  rewrite (proj2 (Z.eqb_neq _ _) Hf), andb_false_r.
  destruct (dd_set_addr_offset _ _ _ _ _); [|done]. cbn [fmap option_fmap option_map mbind option_bind].
  intros H. apply (inj Some) in H. apply (f_equal fst) in H. cbn [fst] in H. subst f'.
  destruct f. cbn. lia.
Qed.
End Estimate.
