(* ===== verification/GasWitness.v ===== *)
(** The theorems on the assembler at concrete inputs, and where the assembler
    does not do what its comments and messages say. *)
From S2P Require Import Prelude Opcodes Cpu Tcg Translate Run RefBackend IsaArith IsaMove IsaControl.
From S2P Require Import Frame Decode Step Isa IsaProps Disas DisasProps.
From S2P Require Import GasData Gas GasProps GasEncode GasExec GasMoves GasRelax GasFix GasBranch.
Local Open Scope string_scope.
Local Open Scope Z_scope.

(** Symbols are numbers; no symbol stands for an expression. *)
Definition no_expr (s : option Z) : expressionS Z := Exp O_absent None None 0.
Lemma no_expr_ok s : numbers_ok (no_expr s).
Proof. intros [H|H]; discriminate H. Qed.
Definition e_reg (n : Z) : expressionS Z := Exp O_register None None n.
Definition e_const (n : Z) : expressionS Z := Exp O_constant None None n.
Definition e_sym (n : Z) : expressionS Z := Exp O_symbol (Some n) None 0.

Lemma exps_ok (l : list (expressionS Z)) : Forall numbers_ok l -> forall i, numbers_ok (exp_at l i).
Proof.
  intros H i. unfold exp_at, zlookup. destruct (0 <=? i); [|by intros [?|?]].
  destruct (l !! Z.to_nat i) as [e|] eqn:E; [|by intros [?|?]].
  rewrite Forall_forall in H. apply (H e). by eapply list_elem_of_lookup_2.
Qed.
Lemma reg_ok n : 0 <= n -> numbers_ok (e_reg n).
Proof. intros H _. done. Qed.
Lemma const_ok n : numbers_ok (e_const n).
Proof. by intros [H|H]. Qed.

(** "jump" has two rows. *)
Lemma md_begin_tables_witness :
  hash_find (hash_2 (md_begin_hashes (H := list (string * dadao_opcode)))) "jump"
  = rows_named "jump" dadao_opcodes !! 1%nat.
Proof.
  destruct (md_begin_tables (list (string * dadao_opcode))) as [H _]. apply (H "jump" 1%nat). lia.
Defined.

(** addi rd5, rd6, -3 *)
Definition addi_row : dadao_opcode :=
  Opcode "addi" 3 25 0 dadao_operand_rd dadao_operand_rd dadao_operand_imms12 dadao_operand_none
    dadao_type_normal.
Definition addi_exps : list (expressionS Z) := [e_reg 5; e_reg 6; e_const (-3)].
Lemma insn_code_decodes_witness :
  exists p, opc_row_of p addi_row /\ decode 0x19146FFD = Some p /\
    Forall (fun '(t, e, f) => get_arg (field_name f) (pattern_args p 0x19146FFD) = encoded t e)
      (row_exps no_expr addi_row addi_exps).
Proof.
  apply (insn_code_decodes no_expr no_expr_ok addi_row addi_exps 3 0x19146FFD).
  - unfold insn_opc. repeat first [left | right].
  - apply exps_ok. repeat (apply Forall_cons_2; [first [apply reg_ok; lia | apply const_ok]|]). apply Forall_nil_2.
  - vm_compute. reflexivity.
Defined.

(** setrd rd9, 0xFFFF1234FFFF5678 takes two instructions. *)
Definition demo_pc : Z := 0x1000.
Lemma demo_env_pc : REG_PC demo_env = demo_pc.
Proof. reflexivity. Qed.
Lemma set_imm_loads_witness :
  exists env', run_words ref_backend no_helper decode_ref (fun _ => true)
    (words (sym := Z) (dd_pseudo_set_imm 9 0xFFFF1234FFFF5678)) demo_pc demo_env ∅ = Some (env', ∅) /\
  loaded RD 9 0xFFFF1234FFFF5678 (demo_pc + 8) demo_env env'.
Proof.
  destruct (set_imm_loads ref_backend ref_laws no_helper decode_ref decode_ref_laws (fun _ => true)
    (sym := Z) RD 9 0xFFFF1234FFFF5678 demo_pc demo_env ∅) as (Hl & env' & Hr & Hs).
  - discriminate.
  - lia.
  - lia.
  - unfold demo_pc. lia.
  - apply demo_env_pc.
  - apply demo_wf.
  - apply demo_u64.
  - exists env'. split; [exact Hr|exact Hs].
Defined.

(** setrd rd4, rb7 *)
Lemma set_register_copies_witness :
  exists env', run_words ref_backend no_helper decode_ref (fun _ => true)
    [dd_pseudo_set_register 4 0x47] demo_pc demo_env ∅ = Some (env', ∅) /\
  loaded RD 4 (reg RB 7 demo_env) (demo_pc + 4) demo_env env'.
Proof.
  apply (set_register_copies ref_backend ref_laws no_helper decode_ref decode_ref_laws (fun _ => true)
    RD RB "RB2RD" 4 7 demo_pc demo_env ∅).
  - reflexivity.
  - lia.
  - lia.
  - unfold demo_pc. lia.
  - apply demo_env_pc.
  - apply demo_wf.
  - apply demo_u64.
Defined.

(** ldmo rd60, rb1, rd2, 4: the last four registers. *)
Definition ldmo_row : dadao_opcode :=
  Opcode "ldmo" 4 55 0 dadao_operand_rd dadao_operand_rb dadao_operand_rd dadao_operand_immu6 dadao_type_dref.
Definition ldmo_exps : list (expressionS Z) := [e_reg 60; e_reg 65; e_reg 2; e_const 4].
Lemma register_limit_safe_witness : range_ok 60 4.
Proof.
  destruct (register_limit_safe no_expr no_expr_ok ldmo_row ldmo_exps 4 0x37F01084
    (Pattern "LDMOrd" "00110111" [DField "ha" false 6; DField "hb" false 6; DField "hc" false 6; DField "immu6" false 6]))
    as [H _].
  - unfold insn_opc. repeat first [left | right].
  - apply exps_ok. repeat (apply Forall_cons_2; [first [apply reg_ok; lia | apply const_ok]|]). apply Forall_nil_2.
  - discriminate.
  - reflexivity.
  - vm_compute. reflexivity.
  - vm_compute. reflexivity.
  - apply H; [reflexivity|vm_compute; discriminate].
Defined.

(** brn rd5, -8 at a word whose offset is empty. *)
Definition brn_bytes : list Z := [0; 0; 0x14; 0x28; 0; 0; 0; 0].
Lemma brn_bytes_ok : bytes_ok brn_bytes.
Proof. apply (bool_decide_unpack _). vm_compute. exact I. Qed.
Lemma set_addr_offset_stores_witness :
  exists buf', dd_set_addr_offset brn_bytes 0 (-8) 18 true = Some buf' /\
    4 * sext 18 (bfd_getl32 buf' 0) = -8.
Proof.
  pose proof (set_addr_offset_stores brn_bytes 0 (-8) 18 ltac:(unfold bitcounts; right; left) brn_bytes_ok
    ltac:(lia) ltac:(cbn; lia) ltac:(reflexivity)) as H.
  change (offset_accepted (-8) 18) with true in H. destruct H as (buf' & H1 & _ & _ & H2 & _).
  exists buf'. split; [exact H1|]. apply H2. change (-8 / 4) with (-2). lia.
Defined.

(** The same branch to an address 2 MiB away. *)
Definition far_frag : fragS (sym := Z) :=
  Frag 0x1000 4 4 (ENCODE_RELAX STATE_BRCC STATE_ZERO) (Some 0x201000) 0 0 brn_bytes.
Lemma far_frag_ok : far_branch far_frag 0x28 18 5 7.
Proof. split; try reflexivity. apply brn_bytes_ok. Qed.
Lemma long_branch_witness :
  exists f', md_convert_frag (fun s => s) far_frag = Some (f', []) /\ fr_fix f' = 8.
Proof.
  destruct (long_branch (fun s : Z => s) ref_backend ref_laws no_helper decode_ref decode_ref_laws
    (fun _ => true) far_frag 0x28 "BRN" 18 (fun x _ => s64 x <? 0) 5 7 demo_env ∅) as (f' & H1 & H2 & _).
  - reflexivity.
  - lia.
  - lia.
  - apply far_frag_ok.
  - cbn. lia.
  - reflexivity.
  - reflexivity.
  - vm_compute. split; congruence.
  - apply demo_wf.
  - apply demo_u64.
  - exists f'. split; [exact H1|exact H2].
Defined.

(** And to an address near by. *)
Definition near_frag : fragS (sym := Z) :=
  Frag 0x1000 4 0 (ENCODE_RELAX STATE_BRCC STATE_UNDF) (Some 0x2000) 0 0 brn_bytes.
Lemma branch_estimate_witness :
  exists k f1, md_estimate_size_before_relax (fun _ : Z => true) (fun _ => false) (fun _ => 0%nat) (fun s => s)
    near_frag 0%nat = Some (k, f1) /\ k = 0.
Proof.
  destruct (branch_estimate (fun _ : Z => true) (fun _ => false) (fun _ => 0%nat) (fun s => s) near_frag 0%nat
    0x2000 18) as (k & f1 & H1 & _ & H2 & _).
  - reflexivity.
  - left. reflexivity.
  - reflexivity.
  - reflexivity.
  - repeat split.
  - cbn. lia.
  - exists k, f1. split; [exact H1|]. rewrite H2. reflexivity.
Defined.

(** ** Where the assembler departs from its comments and messages *)

(** adrp with a symbol is encoded with offset 0 and needs no fixup: the row
    has the type normal, whose number is the result "complete". *)
Definition adrp_row : dadao_opcode :=
  Opcode "adrp" 2 72 0 dadao_operand_rb dadao_operand_imms18 dadao_operand_none dadao_operand_none
    dadao_type_normal.
Lemma adrp_symbol_dropped s : adrp_row ∈ insn_opc /\
  dd_get_insn_code no_expr adrp_row [e_reg 65; e_sym s] 2 = (0, Some 0x48040000).
Proof. split; [unfold insn_opc; repeat first [left | right]|reflexivity]. Qed.

(** The wyde position is not checked: "w/" is position -1 and overwrites the
    opcode. *)
Definition setzw_row : dadao_opcode :=
  Opcode "setzw" 3 22 0 dadao_operand_rd dadao_operand_ww dadao_operand_immu16 dadao_operand_none
    dadao_type_normal.
Lemma wyde_unchecked :
  parse_operand (fun s => (e_const 0, s)) "w/,1" (e_const 0) = (Exp O_wyde None None (-1), ",1") /\
  dd_get_insn_code no_expr setzw_row [e_reg 5; Exp O_wyde None None (-1); e_const 1] 3
  = (0, Some 0xFFFF0001).
Proof. split; vm_compute; reflexivity. Qed.

(** Four operands: the sentinel is the fifth element of exp[4]. *)
Definition comma_numbers (s : string) : expressionS Z * string := (e_const 0, Py.drop 1 s).
Lemma sentinel_past_end garbage :
  length garbage = 5%nat ->
  exists ops, get_operands comma_numbers "0,0,0,0" garbage = Some ops /\ o_numexp ops = 4 /\
    (X_op <$> o_exps ops !! 4%nat) = Some O_illegal.
Proof.
  intros H. destruct garbage as [|a [|b [|c [|d [|e [|]]]]]]; try discriminate H.
  eexists. split; [reflexivity|]. split; reflexivity.
Qed.

(** setrd from ra48 to ra63 is refused. *)
Lemma ra_sources_refused (t : hashes (list (string * dadao_opcode))) (n : Z) :
  0xF0 <= n < 0x100 ->
  pseudo_register (sym := Z) t "setrd" (pseudo_classes "setrd") 2 [e_reg 5; e_reg n] = [C_as_bad "unknown insn"].
Proof.
  intros Hn. assert (Hc : forall x, x <= 0xF0 -> (n <? x) = false) by (intros; apply Z.ltb_ge; lia).
  cbn -[Z.ltb Z.leb hash_find bool_decide]. unfold num, exp_at. cbn -[Z.ltb Z.leb hash_find bool_decide].
  rewrite !Hc by lia. by rewrite !andb_false_r.
Qed.

(** "setrb 5, rb3" is taken for a move to register 5: the third test looks at
    the source operand twice. *)
Lemma setrb_constant_target :
  pseudo_register (sym := Z) (md_begin_hashes (H := list (string * dadao_opcode))) "setrb" (pseudo_classes "setrb") 2
    [e_const 5; e_reg 0x43] = [C_number (move_insn (MATCH "RB2RD") 5 3)].
Proof. vm_compute. reflexivity. Qed.

(** --multiple-to-single copies upwards: "rd2rd rd2, rd1, 2" leaves the old
    rd1 in rd3, where the instruction leaves the old rd2. *)
Definition rd2rd_row : dadao_opcode :=
  Opcode "rd2rd" 3 16 40 dadao_operand_op dadao_operand_rd dadao_operand_rd dadao_operand_immu6 dadao_type_normal.
Lemma split_move_overlap :
  let run ws := run_words ref_backend no_helper decode_ref (fun _ => true) ws 0x1000 demo_env ∅ in
  let exps := [e_reg 2; e_reg 1; e_const 2] in
  (reg RD 3 ∘ fst <$> run (words (split_move rd2rd_row exps))) = Some 1 /\
  exists w, dd_get_insn_code no_expr rd2rd_row exps 3 = (0, Some w) /\ (reg RD 3 ∘ fst <$> run [w]) = Some 2.
Proof. split; [vm_compute; reflexivity|]. exists 0x10A02042. split; vm_compute; reflexivity. Qed.

(** A HI18 or LO12 relaxation ends the assembly: dd_set_addr_offset knows no
    field of 30 bits. *)
Lemma hi18_fatal (get_value : Z -> Z) (f : fragS (sym := Z)) :
  fr_subtype f = ENCODE_RELAX STATE_HI18 STATE_ZERO \/ fr_subtype f = ENCODE_RELAX STATE_LO12 STATE_ZERO ->
  md_convert_frag get_value f = None.
Proof.
  assert (Hn : forall buf p v, dd_set_addr_offset buf p v 30 true = None).
  { intros. unfold dd_set_addr_offset. cbn [Z.eqb Pos.eqb]. by repeat destruct (_ && _). }
  intros Hs. unfold md_convert_frag, set_offset. destruct Hs as [->| ->]; cbn -[dd_set_addr_offset];
    by rewrite Hn.
Qed.
