(* ===== verification/Bfd.v ===== *)
(** Relocations: include/elf/dadao.h and bfd/elf64-dadao.c, the howto tables,
    and applying a relocation to a section's contents (dd_fill_abs,
    dadao_elf_perform_relocation and the linker's calls of it).

    The howto of each relocation is the table row with the number of the
    relocation; R_DADAO_max is the number of relocations.  A section's
    contents are a list of bytes and a [bfd_byte *] an offset into it;
    bfd_get_32 and bfd_put_32 are those of the little-endian target.  The
    generic BFD code is a parameter: bfd_check_overflow and
    _bfd_final_link_relocate, bfd_elf_generic_reloc, and what the linker knows
    of symbols.  [None] is an access outside the contents, the use of
    a variable that is not set, or the abort of BAD_CASE. *)
From S2P Require Import Prelude Opcodes GasData Gas GasRelax.
Local Open Scope string_scope.
Local Open Scope Z_scope.

Definition MINUS_ONE : Z := 2^64 - 1.

(** ** include/elf/dadao.h *)
Inductive elf_dadao_reloc_type :=
  | R_DADAO_NONE | R_DADAO_8 | R_DADAO_16 | R_DADAO_24 | R_DADAO_32 | R_DADAO_64
  | R_DADAO_PC_8 | R_DADAO_PC_16 | R_DADAO_PC_24 | R_DADAO_PC_32 | R_DADAO_PC_64
  | R_DADAO_GNU_VTINHERIT | R_DADAO_GNU_VTENTRY
  | R_DADAO_ABS | R_DADAO_BRCC | R_DADAO_BRCC12 | R_DADAO_CALL | R_DADAO_JUMP
  | R_DADAO_HI18 | R_DADAO_LO12.
#[export] Instance elf_dadao_reloc_type_eq_dec : EqDecision elf_dadao_reloc_type.
Proof. solve_decision. Defined.

Definition reloc_number (r : elf_dadao_reloc_type) : Z :=
  match r with
  | R_DADAO_NONE => 0 | R_DADAO_8 => 1 | R_DADAO_16 => 2 | R_DADAO_24 => 3 | R_DADAO_32 => 4
  | R_DADAO_64 => 5 | R_DADAO_PC_8 => 6 | R_DADAO_PC_16 => 7 | R_DADAO_PC_24 => 8
  | R_DADAO_PC_32 => 9 | R_DADAO_PC_64 => 10 | R_DADAO_GNU_VTINHERIT => 11
  | R_DADAO_GNU_VTENTRY => 12 | R_DADAO_ABS => 13 | R_DADAO_BRCC => 14 | R_DADAO_BRCC12 => 15
  | R_DADAO_CALL => 16 | R_DADAO_JUMP => 17 | R_DADAO_HI18 => 18 | R_DADAO_LO12 => 19
  end.
Definition R_DADAO_max : Z := 20.

(** ** elf_dadao_howto_table *)
Inductive complain_overflow := complain_overflow_dont | complain_overflow_bitfield.
Inductive special_function := bfd_elf_generic_reloc | dadao_elf_reloc_fn | _bfd_elf_rel_vtable_reloc_fn.

(** [size]: 0 = byte, 1 = short, 2 = long, 3 = none, 4 = 64 bits. *)
Record reloc_howto_type := HOWTO {
  h_type : elf_dadao_reloc_type; h_rightshift : Z; h_size : Z; h_bitsize : Z;
  h_pc_relative : bool; h_bitpos : Z; h_complain : complain_overflow;
  h_special : option special_function; h_name : string; h_partial_inplace : bool;
  h_src_mask : Z; h_dst_mask : Z; h_pcrel_offset : bool }.

Definition abs_howto (r : elf_dadao_reloc_type) (size bits : Z) (n : string) (src dst : Z) : reloc_howto_type :=
  HOWTO r 0 size bits false 0 complain_overflow_bitfield (Some bfd_elf_generic_reloc) n false src dst false.
Definition pc_howto (r : elf_dadao_reloc_type) (size bits : Z) (n : string) (src dst : Z) : reloc_howto_type :=
  HOWTO r 0 size bits true 0 complain_overflow_bitfield (Some bfd_elf_generic_reloc) n false src dst true.
Definition branch_howto (r : elf_dadao_reloc_type) (bits : Z) (n : string) (dst : Z) : reloc_howto_type :=
  HOWTO r 2 2 bits true 0 complain_overflow_bitfield (Some dadao_elf_reloc_fn) n false (Z.lnot dst) dst true.
Definition addr_howto (r : elf_dadao_reloc_type) (n : string) : reloc_howto_type :=
  HOWTO r 0 2 32 false 0 complain_overflow_dont (Some dadao_elf_reloc_fn) n false (Z.lnot 0xffffff) 0xffffff false.

(** Standard absolute, standard relative and C++ vtable relocations. *)
Definition absolute_howtos : list reloc_howto_type :=
  [ HOWTO R_DADAO_NONE 0 3 0 false 0 complain_overflow_dont (Some bfd_elf_generic_reloc) "R_DADAO_NONE"
      false 0 0 false;
    abs_howto R_DADAO_8 0 8 "R_DADAO_8" 0 0xff;
    abs_howto R_DADAO_16 1 16 "R_DADAO_16" 0 0xffff;
    abs_howto R_DADAO_24 2 24 "R_DADAO_24" (Z.lnot 0xffffff) 0xffffff;
    abs_howto R_DADAO_32 2 32 "R_DADAO_32" 0 0xffffffff;
    abs_howto R_DADAO_64 4 64 "R_DADAO_64" 0 MINUS_ONE ].
Definition relative_howtos : list reloc_howto_type :=
  [ pc_howto R_DADAO_PC_8 0 8 "R_DADAO_PC_8" 0 0xff;
    pc_howto R_DADAO_PC_16 1 16 "R_DADAO_PC_16" 0 0xffff;
    pc_howto R_DADAO_PC_24 2 24 "R_DADAO_PC_24" (Z.lnot 0xffffff) 0xffffff;
    pc_howto R_DADAO_PC_32 2 32 "R_DADAO_PC_32" 0 0xffffffff;
    pc_howto R_DADAO_PC_64 4 64 "R_DADAO_PC_64" 0 MINUS_ONE;
    HOWTO R_DADAO_GNU_VTINHERIT 0 0 0 false 0 complain_overflow_dont None "R_DADAO_GNU_VTINHERIT"
      false 0 0 true;
    HOWTO R_DADAO_GNU_VTENTRY 0 0 0 false 0 complain_overflow_dont (Some _bfd_elf_rel_vtable_reloc_fn)
      "R_DADAO_GNU_VTENTRY" false 0 0 false ].
(** DADAO's own. *)
Definition dadao_howtos : list reloc_howto_type :=
  [ HOWTO R_DADAO_ABS 0 0 16 true 0 complain_overflow_bitfield (Some dadao_elf_reloc_fn) "R_DADAO_ABS"
      false (Z.lnot 0x0000ffff) 0x0000ffff true;
    branch_howto R_DADAO_BRCC 20 "R_DADAO_BRCC" 0x0003ffff;
    branch_howto R_DADAO_BRCC12 14 "R_DADAO_BRCC12" 0x00000fff;
    branch_howto R_DADAO_CALL 26 "R_DADAO_CALL" 0xffffff;
    branch_howto R_DADAO_JUMP 26 "R_DADAO_JUMP" 0xffffff;
    addr_howto R_DADAO_HI18 "R_DADAO_HI18";
    addr_howto R_DADAO_LO12 "R_DADAO_LO12" ].
Definition elf_dadao_howto_table : list reloc_howto_type :=
  (absolute_howtos ++ relative_howtos ++ dadao_howtos)%list.

(** ** Lookups *)

(** BFD_RELOC_NONE has no constructor of [reloc]: its number is another. *)
Definition BFD_RELOC_NONE : reloc := BFD_RELOC_other 0.
Definition dadao_reloc_map : list (reloc * elf_dadao_reloc_type) :=
  [ (BFD_RELOC_NONE, R_DADAO_NONE); (BFD_RELOC_8, R_DADAO_8); (BFD_RELOC_16, R_DADAO_16);
    (BFD_RELOC_24, R_DADAO_24); (BFD_RELOC_32, R_DADAO_32); (BFD_RELOC_64, R_DADAO_64);
    (BFD_RELOC_8_PCREL, R_DADAO_PC_8); (BFD_RELOC_16_PCREL, R_DADAO_PC_16);
    (BFD_RELOC_24_PCREL, R_DADAO_PC_24); (BFD_RELOC_32_PCREL, R_DADAO_PC_32);
    (BFD_RELOC_64_PCREL, R_DADAO_PC_64); (BFD_RELOC_VTABLE_INHERIT, R_DADAO_GNU_VTINHERIT);
    (BFD_RELOC_VTABLE_ENTRY, R_DADAO_GNU_VTENTRY); (BFD_RELOC_DADAO_ABS, R_DADAO_ABS);
    (BFD_RELOC_DADAO_BRCC, R_DADAO_BRCC); (BFD_RELOC_DADAO_BRCC12, R_DADAO_BRCC12);
    (BFD_RELOC_DADAO_CALL, R_DADAO_CALL); (BFD_RELOC_DADAO_JUMP, R_DADAO_JUMP);
    (BFD_RELOC_DADAO_HI18, R_DADAO_HI18); (BFD_RELOC_DADAO_LO12, R_DADAO_LO12) ].

Definition howto_at (r_type : Z) : option reloc_howto_type := zlookup elf_dadao_howto_table r_type.
Definition bfd_elf64_bfd_reloc_type_lookup (code : reloc) : option reloc_howto_type :=
  e ← List.find (fun '(b, _) => bool_decide (b = code)) dadao_reloc_map;
  howto_at (reloc_number (snd e)).

(** strcasecmp, on ASCII. *)
Definition lower_ascii (c : Ascii.ascii) : Ascii.ascii :=
  let n := Ascii.nat_of_ascii c in
  if (65 <=? n)%nat && (n <=? 90)%nat then Ascii.ascii_of_nat (n + 32) else c.
Fixpoint lower (s : string) : string :=
  match s with EmptyString => EmptyString | String c s => String (lower_ascii c) (lower s) end.
Definition bfd_elf64_bfd_reloc_name_lookup (r_name : string) : option reloc_howto_type :=
  List.find (fun h => (lower (h_name h) =? lower r_name)%string) elf_dadao_howto_table.

(** [None] is the error "unsupported relocation type". *)
Definition dadao_info_to_howto_rela (r_type : Z) : option reloc_howto_type :=
  if R_DADAO_max <=? w32 r_type then None else howto_at (w32 r_type).

(** ** bfd/cpu-dadao.c *)
Record bfd_arch_info_type := ArchInfo {
  bits_per_word : Z; bits_per_address : Z; bits_per_byte : Z; mach : Z;
  arch_name : string; printable_name : string; section_align_power : Z; the_default : bool }.
Definition bfd_dadao_arch : bfd_arch_info_type := ArchInfo 64 64 8 0 "dadao" "dadao" 3 true.

(** ** Words of the contents *)
Definition in_contents (buf : list Z) (p : Z) : bool := (0 <=? p) && (p + 4 <=? Z.of_nat (length buf)).
Definition bfd_get_32 (buf : list Z) (p : Z) : option Z :=
  if in_contents buf p then Some (bfd_getl32 buf p) else None.
Definition bfd_put_32 (buf : list Z) (v p : Z) : option (list Z) :=
  if in_contents buf p then Some (number_to_chars 4 buf p v) else None.

Inductive bfd_reloc_status_type :=
  | bfd_reloc_ok | bfd_reloc_overflow | bfd_reloc_outofrange | bfd_reloc_continue
  | bfd_reloc_notsupported | bfd_reloc_other | bfd_reloc_undefined | bfd_reloc_dangerous.
#[export] Instance bfd_reloc_status_eq_dec : EqDecision bfd_reloc_status_type.
Proof. solve_decision. Defined.

(** ** dd_fill_abs *)

(** The instruction for the wydes after the first one stored. *)
Definition fill_insn_type (opcode : Z) : option Z :=
  if opcode =? DADAO_INSN_SETZW_RB then Some DADAO_INSN_ORW_RB
  else if opcode =? DADAO_INSN_SETZW_RD then Some DADAO_INSN_ORW_RD
  else if opcode =? DADAO_INSN_SETOW_RD then Some DADAO_INSN_ANDNW_RD
  else None.

(** One wyde: nothing when it is zero. *)
Definition fill_wyde (opcode reg : Z) (datap wyde imm : Z) (st : list Z * Z) : option (list Z * Z) :=
  let '(buf, tmp) := st in
  if imm =? 0 then Some (buf, tmp)
  else
    insn ← (if tmp =? 0 then Some opcode else fill_insn_type opcode);
    buf ← bfd_put_32 buf (Z.lor (Z.lor (Z.lor insn reg) wyde) imm) (datap + tmp);
    Some (buf, tmp + 4).
Definition dd_fill_abs (opcode reg addr : Z) (buf : list Z) (datap : Z) : option (list Z * Z) :=
  let imm_w16_1 := Z.land addr 0xFFFF in
  let imm_w16_2 := Z.land (Z.shiftr addr 16) 0xFFFF in
  let imm_w16_3 := Z.land (Z.shiftr addr 32) 0xFFFF in
  let imm_w16_4 := Z.land (Z.shiftr addr 48) 0xFFFF in
  st ← fill_wyde opcode reg datap DADAO_WYDE_WL imm_w16_1 (buf, 0);
  st ← fill_wyde opcode reg datap DADAO_WYDE_WK imm_w16_2 st;
  st ← fill_wyde opcode reg datap DADAO_WYDE_WJ imm_w16_3 st;
  '(buf, tmp) ← fill_wyde opcode reg datap DADAO_WYDE_WH imm_w16_4 st;
  if tmp =? 0 then
    buf ← bfd_put_32 buf (Z.lor (Z.lor (Z.lor opcode reg) DADAO_WYDE_WL) imm_w16_1) (datap + tmp);
    Some (buf, 4)
  else Some (buf, tmp).

(** ** What the linker knows of sections and symbols *)
Record section_place := Place { os_vma : Z; output_offset : Z; sec_size : Z }.

Section Reloc.
(** bfd_check_overflow (complain_overflow_bitfield, bitsize, 0, 64, value) == bfd_reloc_ok *)
Variable bfd_check_overflow : Z -> Z -> bool.
(** _bfd_final_link_relocate, for the relocations that are not DADAO's own *)
Variable _bfd_final_link_relocate :
  reloc_howto_type -> section_place -> list Z -> Z -> Z -> Z -> option (bfd_reloc_status_type * list Z).

(** ** dadao_elf_perform_relocation *)

(** R_DADAO_BRCC and R_DADAO_BRCC12: the fields of the instruction are
    dropped; R_DADAO_CALL and R_DADAO_JUMP keep the instruction. *)
Definition relocate_branch (keep : Z -> Z) (mask : Z) (howto : reloc_howto_type) (buf : list Z) (datap value : Z)
    : option (bfd_reloc_status_type * list Z) :=
  if negb (Z.land value 3 =? 0) then Some (bfd_reloc_notsupported, buf)
  else
    insn_origin ← bfd_get_32 buf datap;
    if bfd_check_overflow (h_bitsize howto) value then
      buf ← bfd_put_32 buf (Z.lor (keep insn_origin) (Z.land (Z.shiftr value 2) mask)) datap;
      Some (bfd_reloc_ok, buf)
    else Some (bfd_reloc_notsupported, buf).

Definition relocate_abs (howto : reloc_howto_type) (buf : list Z) (datap addr : Z)
    : option (bfd_reloc_status_type * list Z) :=
  insn_origin ← bfd_get_32 buf datap;
  if bfd_check_overflow (h_bitsize howto) addr then
    buf ← bfd_put_32 buf (Z.lor insn_origin addr) datap; Some (bfd_reloc_ok, buf)
  else
    '(buf, _) ← dd_fill_abs (Z.land insn_origin 0xFF000000) (Z.land insn_origin 0x00FC0000) addr buf datap;
    Some (bfd_reloc_ok, buf).

(** [addr] and [value] are 64-bit addresses. *)
Definition dadao_elf_perform_relocation (howto : reloc_howto_type) (buf : list Z) (datap addr value : Z)
    : option (bfd_reloc_status_type * list Z) :=
  match h_type howto with
  | R_DADAO_ABS => relocate_abs howto buf datap addr
  | R_DADAO_BRCC => relocate_branch (fun insn => Z.land insn 0xFF000000) 0x3FFFF howto buf datap value
  | R_DADAO_BRCC12 => relocate_branch (fun insn => Z.land insn 0xFF000000) 0xFFF howto buf datap value
  | R_DADAO_CALL | R_DADAO_JUMP => relocate_branch (fun insn => insn) 0xFFFFFF howto buf datap value
  | R_DADAO_HI18 =>
      let value := w64 (Z.shiftr addr 12 - Z.shiftr (w64 (addr - value)) 12) in
      let value := DD_X value 0 18 in
      insn_origin ← bfd_get_32 buf datap;
      buf ← bfd_put_32 buf (Z.lor insn_origin value) datap;
      Some (bfd_reloc_ok, buf)
  | R_DADAO_LO12 =>
      let addr := ENCODE_ITYPE_IMM addr in
      insn_origin ← bfd_get_32 buf datap;
      buf ← bfd_put_32 buf (Z.lor insn_origin (Z.shiftr addr 18)) datap;
      Some (bfd_reloc_ok, buf)
  | _ => None
  end.

(** ** dadao_final_link_relocate

    [r_offset] is the address after the instruction's first word. *)
Definition own_relocation (t : elf_dadao_reloc_type) : bool :=
  match t with
  | R_DADAO_ABS | R_DADAO_BRCC | R_DADAO_BRCC12 | R_DADAO_CALL | R_DADAO_JUMP
  | R_DADAO_HI18 | R_DADAO_LO12 => true
  | _ => false
  end.
Definition dadao_final_link_relocate (howto : reloc_howto_type) (input_section : section_place)
    (contents : list Z) (r_offset r_addend relocation : Z) : option (bfd_reloc_status_type * list Z) :=
  if own_relocation (h_type howto) then
    let addr_abs := w64 (relocation + r_addend) in
    let addr_rel := w64 (addr_abs - (os_vma input_section + output_offset input_section + r_offset) + 4) in
    dadao_elf_perform_relocation howto contents (r_offset - 4) addr_abs addr_rel
  else _bfd_final_link_relocate howto input_section contents r_offset relocation r_addend.

(** ** dadao_elf_reloc *)
Record asymbol := Sym {
  sy_value : Z; sy_weak : bool; sy_und : bool; sy_com : bool; sy_section : section_place }.
Record arelent := Rel { re_address : Z; re_addend : Z; re_howto : reloc_howto_type }.

(** bfd_elf_generic_reloc *)
Variable generic_reloc : arelent -> asymbol -> bool -> bfd_reloc_status_type * arelent.

(** [has_output]: output_bfd is given (a partial link). *)
Definition dadao_elf_reloc (reloc_entry : arelent) (symbol : asymbol) (data : list Z)
    (input_section : section_place) (has_output : bool)
    : option (bfd_reloc_status_type * arelent * list Z) :=
  let '(r, reloc_entry) := generic_reloc reloc_entry symbol has_output in
  if negb (bool_decide (r = bfd_reloc_continue)) then Some (r, reloc_entry, data)
  else if sy_und symbol && negb (sy_weak symbol) && negb has_output
  then Some (bfd_reloc_undefined, reloc_entry, data)
  else if sec_size input_section <? re_address reloc_entry
  then Some (bfd_reloc_outofrange, reloc_entry, data)
  else
    let relocation := if sy_com symbol then 0 else sy_value symbol in
    let output_base := if has_output then 0 else os_vma (sy_section symbol) in
    let relocation := w64 (relocation + (output_base + output_offset (sy_section symbol))) in
    if has_output then
      let relocation := w64 (relocation + re_addend reloc_entry) in
      Some (bfd_reloc_ok,
            Rel (w64 (re_address reloc_entry + output_offset input_section)) relocation (re_howto reloc_entry),
            data)
    else
      '(r, data) ← dadao_final_link_relocate (re_howto reloc_entry) input_section data
                     (re_address reloc_entry) (re_addend reloc_entry) relocation;
      Some (r, reloc_entry, data).

(** ** dadao_elf_relocate_section *)
Record rela := Rela { r_offset : Z; r_type : Z; r_sym : Z; r_addend : Z }.
Definition set_addend (v : Z) (rel : rela) : rela :=
  let 'Rela o t s _ := rel in Rela o t s v.

(** What a relocation's symbol resolves to: _bfd_elf_rela_local_sym, which may
    adjust the addend, and RELOC_FOR_GLOBAL_SYMBOL. *)
Record resolved := Resolved {
  rs_relocation : Z; rs_rel : rela; rs_name : string; rs_discarded : bool;
  rs_section_symbol : option Z; rs_undefined_signalled : bool }.
Variable local_sym : rela -> resolved.
(** [None]: the macro returns FALSE. *)
Variable global_sym : rela -> option resolved.
(** RELOC_AGAINST_DISCARDED_SECTION *)
Variable discard : rela -> list Z -> rela * list Z.

Inductive link_message :=
  | M_reloc_overflow (name howto : string) (r_offset : Z)
  | M_undefined_symbol (name : string) (r_offset : Z)
  | M_warning (msg name : string) (r_offset : Z).
Definition reloc_message (r : bfd_reloc_status_type) (res : resolved) (howto : reloc_howto_type)
    : list link_message :=
  let off := r_offset (rs_rel res) in
  match r with
  | bfd_reloc_ok => []
  | bfd_reloc_overflow => [M_reloc_overflow (rs_name res) (h_name howto) off]
  | bfd_reloc_undefined =>
      if rs_undefined_signalled res then [] else [M_undefined_symbol (rs_name res) off]
  | bfd_reloc_outofrange => [M_warning "internal error: out of range error" (rs_name res) off]
  | bfd_reloc_notsupported => [M_warning "internal error: unsupported relocation error" (rs_name res) off]
  | bfd_reloc_dangerous => [M_warning "internal error: dangerous relocation" (rs_name res) off]
  | _ => [M_warning "internal error: unknown error" (rs_name res) off]
  end.

Record link_state := Link { l_contents : list Z; l_done : list rela; l_messages : list link_message }.
Definition link_next (st : link_state) (rel : rela) (contents : list Z) (m : list link_message) : link_state :=
  Link contents (l_done st ++ [rel]) (l_messages st ++ m).

(** The body of the loop.  [inl] is return FALSE. *)
Definition relocate_one (relocatable : bool) (sh_info : Z) (input_section : section_place)
    (st : link_state) (rel : rela) : option (unit + link_state) :=
  if (r_type rel =? reloc_number R_DADAO_GNU_VTINHERIT) || (r_type rel =? reloc_number R_DADAO_GNU_VTENTRY)
  then Some (inr (link_next st rel (l_contents st) []))
  else
    howto ← howto_at (r_type rel);
    match (if r_sym rel <? sh_info then Some (local_sym rel) else global_sym rel) with
    | None => Some (inl tt)
    | Some res =>
        let rel := rs_rel res in
        if rs_discarded res then
          let '(rel, contents) := discard rel (l_contents st) in Some (inr (link_next st rel contents []))
        else if relocatable then
          let rel := match rs_section_symbol res with
                     | Some off => if r_sym rel <? sh_info then set_addend (w64 (r_addend rel + off)) rel else rel
                     | None => rel
                     end in
          Some (inr (link_next st rel (l_contents st) []))
        else
          '(r, contents) ← dadao_final_link_relocate howto input_section (l_contents st)
                             (r_offset rel) (r_addend rel) (rs_relocation res);
          Some (inr (link_next st rel contents (reloc_message r res howto)))
    end.
Fixpoint relocate_all (relocatable : bool) (sh_info : Z) (input_section : section_place)
    (st : link_state) (relocs : list rela) : option (unit + link_state) :=
  match relocs with
  | [] => Some (inr st)
  | rel :: relocs =>
      o ← relocate_one relocatable sh_info input_section st rel;
      match o with
      | inl tt => Some (inl tt)
      | inr st => relocate_all relocatable sh_info input_section st relocs
      end
  end.
(** The memset of the stub area. *)
Definition zero_stub (rawsize size : Z) (contents : list Z) : list Z :=
  if negb (rawsize =? 0) && (rawsize <? size)
  then imap (fun i b => if (rawsize <=? Z.of_nat i) && (Z.of_nat i <? size) then 0 else b) contents
  else contents.
Definition dadao_elf_relocate_section (relocatable : bool) (sh_info rawsize : Z)
    (input_section : section_place) (contents : list Z) (relocs : list rela)
    : option (unit + link_state) :=
  relocate_all relocatable sh_info input_section
    (Link (zero_stub rawsize (sec_size input_section) contents) [] []) relocs.
End Reloc.

(** ** dadao_elf_gc_mark_hook

    [None] is no section to mark. *)
Definition dadao_elf_gc_mark_hook {sec} (_bfd_elf_gc_mark_hook : rela -> option sec) (has_h : bool)
    (rel : rela) : option sec :=
  if has_h && ((r_type rel =? reloc_number R_DADAO_GNU_VTINHERIT)
               || (r_type rel =? reloc_number R_DADAO_GNU_VTENTRY))
  then None else _bfd_elf_gc_mark_hook rel.
