(* ===== verification/BfdFill.v ===== *)
(** What dd_fill_abs stores, run on the emulator: the instructions that leave
    an address in a register. *)
From S2P Require Import Prelude Opcodes Cpu Tcg Translate Run RefBackend IsaArith Frame Decode.
From S2P Require Import Step Isa GasData Gas GasEncode GasExec GasRelax GasFix Bfd.
Local Open Scope string_scope.
Local Open Scope Z_scope.

(** [n] words of a buffer from [p] on. *)
Definition words_at (buf : list Z) (p : Z) (n : nat) : list Z :=
  map (fun k => bfd_getl32 buf (p + 4 * Z.of_nat k)) (seq 0 n).

Lemma words_at_S buf p n :
  words_at buf p (S n) = (words_at buf p n ++ [bfd_getl32 buf (p + 4 * Z.of_nat n)])%list.
Proof. unfold words_at. rewrite seq_S, map_app. done. Qed.
Lemma words_at_other buf buf' p n :
  (forall j, p <= j < p + 4 * Z.of_nat n -> byte_at buf' j = byte_at buf j) ->
  words_at buf' p n = words_at buf p n.
Proof.
  intros H. unfold words_at. apply map_ext_in. intros k Hk%in_seq. apply getl32_other.
  intros j Hj. apply H. lia.
Qed.

Lemma get_32_in buf p : 0 <= p -> p + 4 <= Z.of_nat (length buf) ->
  bfd_get_32 buf p = Some (bfd_getl32 buf p).
Proof. intros. unfold bfd_get_32, in_contents. zcases; done || lia. Qed.
Lemma put_32_in buf v p : bytes_ok buf -> 0 <= p -> p + 4 <= Z.of_nat (length buf) ->
  exists buf', bfd_put_32 buf v p = Some buf' /\ bytes_ok buf' /\ length buf' = length buf /\
    bfd_getl32 buf' p = v mod 2^32 /\ (forall j, j < p \/ p + 3 < j -> byte_at buf' j = byte_at buf j).
Proof.
  intros Hok Hp Hl. pose proof (number_word buf p v Hok Hp Hl) as H. unfold md_number_to_chars in H.
  exists (number_to_chars 4 buf p v). split; [|exact H]. unfold bfd_put_32, in_contents. zcases; done || lia.
Qed.

(** The state of dd_fill_abs: the words stored so far. *)
Record filled (buf : list Z) (p : Z) (ws : list Z) (st : list Z * Z) : Prop := Filled {
  fl_ok : bytes_ok (fst st); fl_length : length (fst st) = length buf;
  fl_tmp : snd st = 4 * Z.of_nat (length ws); fl_words : words_at (fst st) p (length ws) = ws;
  fl_other : forall j, j < p \/ p + 4 * Z.of_nat (length ws) <= j -> byte_at (fst st) j = byte_at buf j }.

Lemma filled_put buf p ws b v : 0 <= p -> p + 4 * Z.of_nat (length ws) + 4 <= Z.of_nat (length buf) ->
  0 <= v < 2^32 -> filled buf p ws (b, 4 * Z.of_nat (length ws)) ->
  exists b', bfd_put_32 b v (p + 4 * Z.of_nat (length ws)) = Some b' /\
    filled buf p (ws ++ [v]) (b', 4 * Z.of_nat (length ws) + 4).
Proof.
  intros Hp Hl Hv [Hok Hlen _ Hw Ho]. cbn [fst snd] in *.
  destruct (put_32_in b v (p + 4 * Z.of_nat (length ws))) as (b' & Hput & Hok' & Hlen' & Hword & Hoth);
    [done|lia|lia|].
  exists b'. split; [done|]. split; cbn [fst snd]; rewrite ?length_app; cbn [length].
  - done.
  - lia.
  - lia.
  - replace (length ws + 1)%nat with (S (length ws)) by lia. rewrite words_at_S, Hword, Z.mod_small by done.
    rewrite (words_at_other b) by (intros j Hj; apply Hoth; lia). by rewrite Hw.
  - intros j Hj. rewrite Hoth by lia. apply Ho. lia.
Qed.

(** ** The wydes *)
Definition fill_ops : list (regfile * string * Z * string * Z) :=
  [(RD, "SETZWrd", DADAO_INSN_SETZW_RD, "ORWrd", DADAO_INSN_ORW_RD);
   (RB, "SETZWrb", DADAO_INSN_SETZW_RB, "ORWrb", DADAO_INSN_ORW_RB)].

Section Fill.
Context {M : Type} (B : backend M) (L : tcg_laws B).
Variable helper : string -> CPUDADAOState -> list Z -> Z * CPUDADAOState.
Variable disas : Z -> gen bool.
Hypothesis Hdisas : decodetree_laws disas.
Variable goto_tb : Z -> bool.
Abbreviation advances := (advances B helper disas goto_tb).

(** What a pair of operations does to the register. *)
Record fill_pair (f : regfile) (mz mo : Z) : Prop := FillPair {
  fp_zero : mz mod 2^24 = 0 /\ 0 <= mz < 2^32; fp_or : mo mod 2^24 = 0 /\ 0 <= mo < 2^32;
  fp_type : fill_insn_type mz = Some mo;
  fp_set : forall i k x v, 0 < i < 64 -> 0 <= k < 4 -> 0 <= x < 2^16 ->
    advances f i [wyde_word mz i k x] v (x * 2^(16 * k));
  fp_next : forall i k x v, 0 < i < 64 -> 0 <= k < 4 -> 0 <= x < 2^16 -> 0 <= v < 2^(16 * k) ->
    advances f i [wyde_word mo i k x] v (v + x * 2^(16 * k)) }.

Ltac row_in := apply assign_row; unfold isa_assign, row_named; cbv zeta; repeat first [left | right].
Ltac op_in := unfold wyde_ops; repeat first [left | right].
Lemma pow_wyde k : 0 <= k < 4 -> 0 < 2^(16 * k) /\ 2^(16 * k) * 2^16 <= 2^64.
Proof.
  intros Hk. split; [apply Z.pow_pos_nonneg; lia|]. rewrite <- Z.pow_add_r by lia. apply Z.pow_le_mono_r; lia.
Qed.
Lemma pair_of nz no f mz mo :
  row_named nz (spec_rwii f (fun _ v => v)) ∈ isa_alu -> (nz, mz) ∈ wyde_ops ->
  row_named no (spec_rwii f Z.lor) ∈ isa_alu -> (no, mo) ∈ wyde_ops ->
  mz mod 2^24 = 0 /\ 0 <= mz < 2^32 -> mo mod 2^24 = 0 /\ 0 <= mo < 2^32 ->
  fill_insn_type mz = Some mo -> fill_pair f mz mo.
Proof.
  intros Hz Hzn Ho Hon Hm1 Hm2 Ht. split; try done; intros i k x v Hi Hk Hx.
  - pose proof (pow_wyde k Hk).
    apply (adv_rwii B L helper disas Hdisas goto_tb nz f (fun _ v => v)); try done. nia.
  - intros Hv. rewrite <- wyde_or by lia. pose proof (pow_wyde k Hk).
    apply (adv_rwii B L helper disas Hdisas goto_tb no f Z.lor); try done. rewrite wyde_or by lia. nia.
Qed.
Lemma fill_ops_pair f nz mz no mo : (f, nz, mz, no, mo) ∈ fill_ops -> fill_pair f mz mo.
Proof.
  unfold fill_ops. rewrite !elem_of_cons, elem_of_nil.
  intros [[= -> -> -> -> ->]|[[= -> -> -> -> ->]|[]]].
  - apply (pair_of "SETZWrd" "ORWrd"); [row_in|op_in|row_in|op_in|by vm_compute..].
  - apply (pair_of "SETZWrb" "ORWrb"); [row_in|op_in|row_in|op_in|by vm_compute..].
Qed.

(** After [k] wydes: nothing while the address is zero so far, then words that
    leave the low [k] wydes in the register. *)
Definition fill_inv (f : regfile) (i addr k : Z) (ws : list Z) : Prop :=
  Z.of_nat (length ws) <= k /\
  if decide (ws = []) then addr mod 2^(16 * k) = 0
  else forall v, advances f i ws v (addr mod 2^(16 * k)).

Lemma fill_word m i k x :
  m mod 2^24 = 0 /\ 0 <= m < 2^32 -> 0 < i < 64 -> 0 <= k < 4 -> 0 <= x < 2^16 ->
  Z.lor (Z.lor (Z.lor m (i * 2^18)) (Z.shiftl k 16)) x = wyde_word m i k x /\ 0 <= wyde_word m i k x < 2^32.
Proof.
  intros [Hm Hr] Hi Hk Hx. unfold wyde_word. rewrite !Z.shiftl_mul_pow2 by lia.
  rewrite (lor_aligned m _ 24), (lor_aligned _ (k * 2^16) 18), (lor_aligned _ x 16)
    by (lia || (Z.div_mod_to_equations; lia)).
  split; [done|]. Z.div_mod_to_equations; lia.
Qed.
Lemma mod_wyde addr k : 0 <= k ->
  addr mod 2^(16 * (k + 1)) = addr mod 2^(16 * k) + wyde_of addr k * 2^(16 * k).
Proof.
  intros Hk. replace (16 * (k + 1)) with (16 * k + 16) by lia. rewrite Z.pow_add_r by lia.
  rewrite Z.rem_mul_r by (apply Z.pow_nonzero || apply Z.pow_pos_nonneg; lia). unfold wyde_of. lia.
Qed.

Lemma fill_step f mz mo i addr k buf p ws b tmp :
  fill_pair f mz mo -> 0 < i < 64 -> 0 <= k < 4 -> 0 <= p -> p + 16 <= Z.of_nat (length buf) ->
  filled buf p ws (b, tmp) -> fill_inv f i addr k ws ->
  exists ws' st, fill_wyde mz (i * 2^18) p (Z.shiftl k 16) (wyde_of addr k) (b, tmp) = Some st /\
    filled buf p ws' st /\ fill_inv f i addr (k + 1) ws' /\
    length ws' = (length ws + if (wyde_of addr k =? 0)%Z then 0 else 1)%nat.
Proof.
  intros Hf Hi Hk Hp Hl Hst [Hlen Hinv]. pose proof (wyde_of_range addr k) as Hx.
  unfold fill_wyde. destruct (Z.eqb_spec (wyde_of addr k) 0) as [Hz|Hz].
  { exists ws, (b, tmp). split; [done|]. split; [done|]. split; [|lia]. split; [lia|].
    rewrite mod_wyde, Hz, Z.mul_0_l, Z.add_0_r by lia. done. }
  pose proof (fl_tmp _ _ _ _ Hst) as Ht. cbn [snd] in Ht. subst tmp.
  set (m := if decide (ws = []) then mz else mo).
  assert (Hm : (if 4 * Z.of_nat (length ws) =? 0 then Some mz else fill_insn_type mz) = Some m /\
               m mod 2^24 = 0 /\ 0 <= m < 2^32).
  { rewrite (fp_type _ _ _ Hf). unfold m. destruct ws as [|w ws]; cbn [length].
    - split; [done|apply (fp_zero _ _ _ Hf)].
    - rewrite (proj2 (Z.eqb_neq _ _)) by lia. split; [done|apply (fp_or _ _ _ Hf)]. }
  destruct Hm as [Hm Hmr]. rewrite Hm. cbn [mbind option_bind].
  destruct (fill_word m i k _ Hmr Hi Hk Hx) as [-> Hwr].
  destruct (filled_put buf p ws b (wyde_word m i k (wyde_of addr k)) Hp ltac:(lia) Hwr Hst) as (b' & Hput & Hst').
  rewrite Hput. do 2 eexists. split; [reflexivity|]. split; [exact Hst'|]. rewrite length_app. cbn [length].
  split; [|lia]. split; [rewrite length_app; cbn [length]; lia|].
  rewrite decide_False by (by destruct ws). intros v. rewrite mod_wyde by lia.
  destruct (decide (ws = [])) as [->|Hne].
  - cbn [app]. rewrite Hinv, Z.add_0_l. by apply (fp_set _ _ _ Hf).
  - eapply advances_app; [apply Hinv|]. apply (fp_next _ _ _ Hf); try done.
    apply Z.mod_pos_bound. by apply pow_wyde.
Qed.

(** Wydes of an address that are not zero. *)
Definition nonzero_wydes (addr : Z) : nat := length (filter (fun k => wyde_of addr k <> 0)%Z [0; 1; 2; 3]).

Lemma nonzero_cons addr k ks :
  length (filter (fun k => wyde_of addr k <> 0) (k :: ks))
  = ((if (wyde_of addr k =? 0)%Z then 0 else 1) + length (filter (fun k => wyde_of addr k <> 0)%Z ks))%nat.
Proof. rewrite filter_cons. destruct (Z.eqb_spec (wyde_of addr k) 0), (decide _); done. Qed.

Lemma fill_abs_advances f mz mo i addr buf p :
  fill_pair f mz mo -> 0 < i < 64 -> 0 <= addr < 2^64 -> bytes_ok buf ->
  0 <= p -> p + 16 <= Z.of_nat (length buf) ->
  exists ws st, dd_fill_abs mz (i * 2^18) addr buf p = Some st /\ filled buf p ws st /\
    length ws = Nat.max 1 (nonzero_wydes addr) /\ forall v, advances f i ws v addr.
Proof.
  intros Hf Hi Ha Hok Hp Hl. unfold dd_fill_abs.
  rewrite (wyde_of_land0 addr), (wyde_of_land addr 1 ltac:(lia) : Z.land (Z.shiftr addr 16) _ = _),
    (wyde_of_land addr 2 ltac:(lia) : Z.land (Z.shiftr addr 32) _ = _),
    (wyde_of_land addr 3 ltac:(lia) : Z.land (Z.shiftr addr 48) _ = _).
  assert (H0 : filled buf p [] (buf, 0)) by (split; cbn; done || (intros; done)).
  assert (I0 : fill_inv f i addr 0 []) by (split; [done|]; cbn; apply Z.mod_1_r).
  destruct (fill_step f mz mo i addr 0 buf p [] buf 0 Hf Hi ltac:(lia) Hp Hl H0 I0)
    as (w1 & [b1 t1] & E1 & F1 & I1 & N1).
  destruct (fill_step f mz mo i addr 1 buf p w1 b1 t1 Hf Hi ltac:(lia) Hp Hl F1 I1)
    as (w2 & [b2 t2] & E2 & F2 & I2 & N2).
  destruct (fill_step f mz mo i addr 2 buf p w2 b2 t2 Hf Hi ltac:(lia) Hp Hl F2 I2)
    as (w3 & [b3 t3] & E3 & F3 & I3 & N3).
  destruct (fill_step f mz mo i addr 3 buf p w3 b3 t3 Hf Hi ltac:(lia) Hp Hl F3 I3)
    as (w4 & [b4 t4] & E4 & F4 & [Hlen I4] & N4).
  change DADAO_WYDE_WL with (Z.shiftl 0 16). change DADAO_WYDE_WK with (Z.shiftl 1 16).
  change DADAO_WYDE_WJ with (Z.shiftl 2 16). change DADAO_WYDE_WH with (Z.shiftl 3 16).
  rewrite E1. cbn [mbind option_bind]. rewrite E2. cbn [mbind option_bind]. rewrite E3.
  cbn [mbind option_bind]. rewrite E4. cbn [mbind option_bind].
  pose proof (fl_tmp _ _ _ _ F4) as Ht. cbn [snd] in Ht.
  assert (Hnz : length w4 = nonzero_wydes addr).
  { unfold nonzero_wydes. rewrite !nonzero_cons, N4, N3, N2, N1. cbn [length filter list_filter Z.add Pos.add Pos.succ]. lia. }
  destruct (decide (w4 = [])) as [E|E].
  - subst w4. cbn [length] in Ht, Hnz. rewrite Ht, Z.mul_0_r, Z.eqb_refl, Z.add_0_r in *.
    destruct (fill_word mz i 0 (wyde_of addr 0)) as [Hw Hr]; [apply (fp_zero _ _ _ Hf)|done|lia|apply wyde_of_range|].
    rewrite Hw. destruct (filled_put buf p [] b4 _ Hp ltac:(cbn; lia) Hr F4) as (b' & Hput & F').
    cbn [length] in Hput. rewrite Z.mul_0_r, Z.add_0_r in Hput. rewrite Hput. do 2 eexists.
    split; [reflexivity|]. split; [exact F'|]. rewrite <- Hnz. split; [done|]. intros v. cbn [app].
    change (16 * (3 + 1)) with 64 in I4. rewrite Z.mod_small in I4 by done. subst addr.
    change (wyde_of 0 0) with 0. apply (fp_set _ _ _ Hf i 0 0 v); lia.
  - assert (Z.of_nat (length w4) <> 0) by (destruct w4; cbn [length]; [done|lia]).
    rewrite (proj2 (Z.eqb_neq _ _)) by lia. do 2 eexists. split; [reflexivity|]. split; [exact F4|].
    split; [lia|]. change (16 * (3 + 1)) with 64 in I4. by rewrite Z.mod_small in I4.
Qed.

(** C14: Storing an absolute address at a setzw of rd or rb: the linker stores
    one instruction for each 16-bit part that is not zero, at least one, and
    leaves the other bytes of the contents.  Run on the emulator, the stored
    words leave exactly the address in the register and change nothing else.
    The other opcodes the function is given are not among these: a setow is
    filled with the wrong parts and a setw has no part to add at all
    (setow_fill_wrong and setw_fill_undefined of BfdWitness). *)
Theorem fill_abs_loads f nz mz no mo i addr buf p pc env mem :
  (f, nz, mz, no, mo) ∈ fill_ops -> 0 < i < 64 -> 0 <= addr < 2^64 -> bytes_ok buf ->
  0 <= p -> p + 16 <= Z.of_nat (length buf) ->
  0 <= pc < 2^64 -> REG_PC env = pc -> wf_env env -> u64_env env ->
  let n := Nat.max 1 (nonzero_wydes addr) in
  exists buf', dd_fill_abs mz (i * 2^18) addr buf p = Some (buf', 4 * Z.of_nat n) /\
    (forall j, j < p \/ p + 4 * Z.of_nat n <= j -> byte_at buf' j = byte_at buf j) /\
    exists env', run_words B helper disas goto_tb (words_at buf' p n) pc env mem = Some (env', mem) /\
      loaded f i addr (w64 (pc + 4 * Z.of_nat n)) env env'.
Proof.
  intros Hf Hi Ha Hok Hp Hl Hpc Hreg Hwf Hu n.
  destruct (fill_abs_advances f mz mo i addr buf p (fill_ops_pair _ _ _ _ _ Hf) Hi Ha Hok Hp Hl)
    as (ws & [b t] & Hfill & [_ _ Ht Hw Ho] & Hn & Hadv).
  cbn [fst snd] in *. fold n in Hn. exists b. rewrite <- Hn, <- Ht. split; [done|].
  rewrite Ht. split; [done|]. rewrite Hw. by apply (Hadv (reg f i env) pc env env mem Hpc).
Qed.
End Fill.
