(* ===== verification/BfdLink.v ===== *)
(** Relocated instructions run on the emulator: branches reach their symbol,
    and adrp with addi gives the address of theirs. *)
From S2P Require Import Prelude Opcodes Cpu Tcg Translate Run RefBackend IsaArith IsaMove IsaControl Frame.
From S2P Require Import Decode Step Isa Disas DisasProps GasData Gas GasEncode GasExec GasRelax GasFix GasBranch Bfd BfdFill.
Local Open Scope string_scope.
Local Open Scope Z_scope.

(** bfd_check_overflow of a bitfield: the value, or its negation, fits. *)
Definition overflow_laws (bfd_check_overflow : Z -> Z -> bool) : Prop :=
  forall bits v, 0 < bits < 64 -> 0 <= v < 2^64 ->
    bfd_check_overflow bits v = (v <? 2^bits) || (2^64 - 2^bits <=? v).

(** ** Branches *)

(** The branch relocations, the bits of their field and whether the rest of
    the instruction but its opcode is dropped. *)
Definition branch_relocs : list (elf_dadao_reloc_type * Z * bool) :=
  [(R_DADAO_BRCC, 18, true); (R_DADAO_BRCC12, 12, true); (R_DADAO_CALL, 24, false); (R_DADAO_JUMP, 24, false)].
Definition kept (dropped : bool) (w : Z) : Z := if dropped then w / 2^24 * 2^24 else w.

Lemma land_top w : 0 <= w < 2^32 -> Z.land w 0xFF000000 = w / 2^24 * 2^24.
Proof.
  intros Hw. change 0xFF000000 with (Z.shiftl (Z.ones 8) 24). rewrite land_field by lia.
  rewrite (Z.mod_small (w / 2^24)) by (Z.div_mod_to_equations; lia). done.
Qed.
Lemma getl32_range buf p : bytes_ok buf -> 0 <= bfd_getl32 buf p < 2^32.
Proof.
  intros H. unfold bfd_getl32. pose proof (byte_at_range buf p H). pose proof (byte_at_range buf (p + 1) H).
  pose proof (byte_at_range buf (p + 2) H). pose proof (byte_at_range buf (p + 3) H). lia.
Qed.

(** Adding a distance in a field of [n] bits back to the place. *)
Lemma field_target n w pc addr : 0 < n <= 62 ->
  w64 (addr - pc) mod 4 = 0 -> - 2^(n+1) <= s64 (w64 (addr - pc)) < 2^(n+1) ->
  w mod 2^n = w64 (addr - pc) / 4 mod 2^n -> w64 (pc + 4 * sext n w) = w64 addr.
Proof.
  intros Hn Hv Hr Hw. set (v := w64 (addr - pc)) in *.
  assert (Hd : s64 v mod 2^64 = v mod 2^64) by (apply sext_mod; lia).
  assert (Hv' : v mod 2^64 = v) by (apply Z.mod_small, w64_range). rewrite Hv' in Hd.
  set (d := s64 v) in *. clearbody d.
  assert (Hd4 : d mod 4 = 0).
  { clear -Hd Hv. rewrite <- Hd in Hv. Z.div_mod_to_equations; lia. }
  assert (Hdv : d / 4 mod 2^62 = v / 4 mod 2^62).
  { clear -Hd Hd4 Hv. Z.div_mod_to_equations; lia. }
  assert (H62 : 2^62 = 2^n * 2^(62 - n)) by (rewrite <- Z.pow_add_r by lia; f_equal; lia).
  assert (0 < 2^n) by (apply Z.pow_pos_nonneg; lia).
  assert (0 < 2^(62 - n)) by (apply Z.pow_pos_nonneg; lia).
  assert (Hm : (d / 4) mod 2^n = v / 4 mod 2^n).
  { apply (f_equal (fun x => x mod 2^n)) in Hdv. rewrite H62, !Z.rem_mul_r in Hdv by lia.
    rewrite !(Z.mul_comm (2^n)), !Z.mod_add, !Z.mod_mod in Hdv by lia. done. }
  assert (H1 : 2^(n+1) = 4 * 2^(n-1)).
  { replace (n + 1) with (2 + (n - 1)) by lia. by rewrite Z.pow_add_r by lia. }
  pose proof (Z.div_mod d 4 ltac:(lia)).
  rewrite (sext_congr n w (d / 4)), sext_id by (lia || (rewrite Hm; done)). replace (4 * (d / 4)) with d by lia.
  unfold w64 in *. rewrite <- Zplus_mod_idemp_r, Hd. unfold v, w64. rewrite Zplus_mod_idemp_r. f_equal. lia.
Qed.

(** A distance the signed field does not hold is never reached. *)
Lemma field_misses n w pc addr : 0 < n <= 62 ->
  w64 (pc + 4 * sext n w) = w64 addr -> - 2^(n+1) <= s64 (w64 (addr - pc)) < 2^(n+1).
Proof.
  intros Hn E. pose proof (sext_range n w ltac:(lia)) as Hs.
  assert (H1 : 2^(n+1) = 4 * 2^(n-1)).
  { replace (n + 1) with (2 + (n - 1)) by lia. by rewrite Z.pow_add_r by lia. }
  assert (H62 : 2^(n-1) <= 2^61) by (apply Z.pow_le_mono_r; lia).
  assert (E' : w64 (addr - pc) = w64 (4 * sext n w)).
  { unfold w64 in *. rewrite Zminus_mod, <- E, <- Zminus_mod. f_equal. lia. }
  unfold s64. rewrite E'. unfold w64. rewrite (sext_congr 64 _ (4 * sext n w)) by (lia || (by rewrite Z.mod_mod)).
  rewrite sext_id by (change (2 ^ (64 - 1)) with (4 * 2^61); lia). lia.
Qed.

Section Branches.
Variable bfd_check_overflow : Z -> Z -> bool.
Hypothesis Hoverflow : overflow_laws bfd_check_overflow.

Lemma relocate_branch_word keep mask n (dropped : bool) h buf p v :
  0 < n <= 24 -> mask = Z.ones n -> h_bitsize h = n + 2 ->
  (forall w, 0 <= w < 2^32 -> keep w = kept dropped w) ->
  bytes_ok buf -> 0 <= p -> p + 4 <= Z.of_nat (length buf) -> 0 <= v < 2^64 ->
  kept dropped (bfd_getl32 buf p) mod 2^n = 0 ->
  if (v mod 4 =? 0) && ((v <? 2^(n+2)) || (2^64 - 2^(n+2) <=? v)) then
    exists buf', relocate_branch bfd_check_overflow keep mask h buf p v = Some (bfd_reloc_ok, buf') /\
      bytes_ok buf' /\ length buf' = length buf /\
      bfd_getl32 buf' p = kept dropped (bfd_getl32 buf p) + v / 4 mod 2^n /\
      (forall j, j < p \/ p + 3 < j -> byte_at buf' j = byte_at buf j)
  else relocate_branch bfd_check_overflow keep mask h buf p v = Some (bfd_reloc_notsupported, buf).
Proof.
  intros Hn Hmask Hh Hkeep Hok Hp Hl Hv Hz. unfold relocate_branch.
  rewrite (land_mask v 3 2) by (done || lia). change (2^2) with 4.
  destruct (v mod 4 =? 0); [|done]. cbn [negb andb].
  rewrite get_32_in by done. cbn [mbind option_bind]. rewrite Hh, Hoverflow by lia.
  destruct ((_ <? _) || _); [|done].
  pose proof (getl32_range buf p Hok) as Hw. rewrite Hkeep by done.
  rewrite (land_mask _ mask n), Z.shiftr_div_pow2 by (done || lia). change (2^2) with 4.
  assert (Hp2 : 0 < 2^n) by (apply Z.pow_pos_nonneg; lia).
  pose proof (Z.mod_pos_bound (v / 4) (2^n) Hp2) as Hf.
  assert (Hk : 0 <= kept dropped (bfd_getl32 buf p) < 2^32).
  { unfold kept. destruct dropped; [Z.div_mod_to_equations; lia|done]. }
  rewrite (lor_aligned _ _ n) by lia.
  destruct (put_32_in buf (kept dropped (bfd_getl32 buf p) + v / 4 mod 2^n) p Hok Hp Hl)
    as (buf' & Hput & Hok' & Hlen' & Hword & Hoth).
  rewrite Hput. cbn [mbind option_bind]. exists buf'. split; [done|]. split; [done|]. split; [done|].
  split; [|done]. rewrite Hword. apply Z.mod_small. split; [lia|].
  assert (H32 : 2^32 = 2^n * 2^(32 - n)) by (rewrite <- Z.pow_add_r by lia; f_equal; lia).
  set (k := kept dropped (bfd_getl32 buf p)) in *.
  assert (k / 2^n < 2^(32 - n)) by (apply Z.div_lt_upper_bound; lia).
  pose proof (Z.div_mod k (2^n) ltac:(lia)). nia.
Qed.

Lemma branch_howtos : Forall (fun '(t, n, _) =>
  (h_bitsize <$> howto_at (reloc_number t)) = Some (n + 2)
  /\ (h_type <$> howto_at (reloc_number t)) = Some t) branch_relocs.
Proof. apply (bool_decide_unpack _). vm_compute. done. Qed.

(** The relocation of a branch at [p], the address of which is [pc]. *)
Variable final_link_relocate :
  reloc_howto_type -> section_place -> list Z -> Z -> Z -> Z -> option (bfd_reloc_status_type * list Z).
Abbreviation relocate := (dadao_final_link_relocate bfd_check_overflow final_link_relocate).
Definition place (sec : section_place) (p : Z) : Z := w64 (os_vma sec + output_offset sec + p).

Lemma addr_rel sec p x : w64 (w64 x - (os_vma sec + output_offset sec + (p + 4)) + 4) = w64 (x - place sec p).
Proof.
  unfold place. replace (w64 x - (os_vma sec + output_offset sec + (p + 4)) + 4)
    with (w64 x + - (os_vma sec + output_offset sec + p)) by lia.
  rewrite w64_add_l. unfold w64. by rewrite Zminus_mod_idemp_r.
Qed.
Lemma link_branch_word t n dropped h sec buf p addend relocation :
  (t, n, dropped) ∈ branch_relocs -> howto_at (reloc_number t) = Some h ->
  bytes_ok buf -> 0 <= p -> p + 4 <= Z.of_nat (length buf) ->
  kept dropped (bfd_getl32 buf p) mod 2^n = 0 ->
  let v := w64 (relocation + addend - place sec p) in
  if (v mod 4 =? 0) && ((v <? 2^(n+2)) || (2^64 - 2^(n+2) <=? v)) then
    exists buf', relocate h sec buf (p + 4) addend relocation = Some (bfd_reloc_ok, buf') /\
      bytes_ok buf' /\ length buf' = length buf /\
      bfd_getl32 buf' p = kept dropped (bfd_getl32 buf p) + v / 4 mod 2^n /\
      (forall j, j < p \/ p + 3 < j -> byte_at buf' j = byte_at buf j)
  else relocate h sec buf (p + 4) addend relocation = Some (bfd_reloc_notsupported, buf).
Proof.
  intros Ht Hh Hok Hp Hl Hz v. pose proof (proj1 (Forall_forall _ _) branch_howtos _ Ht) as [Hb Hty].
  rewrite Hh in Hb, Hty. cbn [fmap option_fmap option_map] in Hb, Hty.
  apply (inj Some) in Hb. apply (inj Some) in Hty.
  unfold dadao_final_link_relocate, dadao_elf_perform_relocation. rewrite Hty, addr_rel.
  replace (p + 4 - 4) with p by lia. fold v.
  assert (Hv : 0 <= v < 2^64) by apply w64_range.
  unfold branch_relocs in Ht. rewrite !elem_of_cons, elem_of_nil in Ht.
  destruct Ht as [[= -> -> ->]|[[= -> -> ->]|[[= -> -> ->]|[[= -> -> ->]|[]]]]]; cbn [own_relocation];
    apply relocate_branch_word; try done; try lia; intros w Hw; by apply land_top.
Qed.

(** C15: Linking a branch whose offset field of n bits is empty.  A distance of
    symbol plus addend from the instruction that is no multiple of four, or is
    outside [-2^(n+2), 2^(n+2)), is reported with the contents left alone.  Any
    other is accepted: the word distance goes into the field modulo 2^n and
    no byte outside the instruction changes.  The address the emulator computes
    from the field is the symbol's exactly when the distance is in
    [-2^(n+1), 2^(n+1)): the check admits distances up to twice as far as the
    field holds, and of those the upper bits are lost without a report.  Jumps
    and calls keep their word; a conditional branch keeps only its opcode, so
    its registers are lost (they read as register 0). *)
Theorem link_branch t n dropped h sec buf p addend relocation :
  (t, n, dropped) ∈ branch_relocs -> howto_at (reloc_number t) = Some h ->
  bytes_ok buf -> 0 <= p -> p + 4 <= Z.of_nat (length buf) ->
  kept dropped (bfd_getl32 buf p) mod 2^n = 0 ->
  let addr := w64 (relocation + addend) in
  let v := w64 (relocation + addend - place sec p) in
  if (v mod 4 =? 0) && ((v <? 2^(n+2)) || (2^64 - 2^(n+2) <=? v)) then
    exists buf', relocate h sec buf (p + 4) addend relocation = Some (bfd_reloc_ok, buf') /\
      bfd_getl32 buf' p = kept dropped (bfd_getl32 buf p) + v / 4 mod 2^n /\
      (forall j, j < p \/ p + 3 < j -> byte_at buf' j = byte_at buf j) /\
      (w64 (place sec p + 4 * sext n (bfd_getl32 buf' p)) = addr <-> - 2^(n+1) <= s64 v < 2^(n+1)) /\
      (dropped = true -> bfd_getl32 buf' p / 2^18 mod 2^6 = 0)
  else relocate h sec buf (p + 4) addend relocation = Some (bfd_reloc_notsupported, buf).
Proof.
  intros Ht Hh Hok Hp Hl Hz addr v.
  pose proof (link_branch_word t n dropped h sec buf p addend relocation Ht Hh Hok Hp Hl Hz) as H.
  cbv zeta in H. fold v in H. destruct (Z.eqb_spec (v mod 4) 0) as [Hv|Hv]; [|exact H].
  destruct (_ || _); cbn [andb] in *; [|exact H].
  destruct H as (buf' & Hr & _ & _ & Hw & Ho). exists buf'. split; [done|]. split; [done|]. split; [done|].
  assert (Hn : 0 < n <= 24 /\ (dropped = true -> n <= 18)).
  { unfold branch_relocs in Ht. rewrite !elem_of_cons, elem_of_nil in Ht.
    destruct Ht as [[= -> -> ->]|[[= -> -> ->]|[[= -> -> ->]|[[= -> -> ->]|[]]]]]; split; lia || done. }
  destruct Hn as [Hn Hn18]. assert (Hp2 : 0 < 2^n) by (apply Z.pow_pos_nonneg; lia). split; [split|].
  - intros Ha. apply (field_misses n (bfd_getl32 buf' p) (place sec p) (relocation + addend)); [lia|exact Ha].
  - intros Hs. apply (field_target n _ (place sec p) (relocation + addend)); try done; [lia|].
    rewrite Hw, <- Zplus_mod_idemp_l, Hz, Z.add_0_l. apply Z.mod_mod. lia.
  - intros Hd. specialize (Hn18 Hd). rewrite Hw, Hd. unfold kept.
    assert (2^n <= 2^18) by (apply Z.pow_le_mono_r; lia).
    pose proof (Z.mod_pos_bound (v / 4) (2^n) Hp2). Z.div_mod_to_equations; lia.
Qed.
End Branches.

(** ** Addresses: adrp and addi *)
Definition adrp_word (i : Z) : Z := MATCH "ADRP" + i * 2^18.
Definition addi_word (i j : Z) : Z := MATCH "ADDIRB" + i * 2^18 + j * 2^12.
Definition address_patterns_ok (p : pattern) : Prop :=
  (p_name p = "ADRP" -> p_mask p = 0xFF000000 /\ p_match p = 0x48 * 2^24 /\
     placed_fields (p_fields p) = [("ha", false, 6, 18); ("imms18", true, 18, 0)]%nat) /\
  (p_name p = "ADDIrb" -> p_mask p = 0xFF000000 /\ p_match p = 0x49 * 2^24 /\
     placed_fields (p_fields p) = [("ha", false, 6, 18); ("hb", false, 6, 12); ("imms12", true, 12, 0)]%nat).
Lemma address_patterns : Forall address_patterns_ok insns_decode.
Proof. apply (bool_decide_unpack _). vm_compute. done. Qed.

Section Address.
Context {M : Type} (B : backend M) (L : tcg_laws B).
Variable helper : string -> CPUDADAOState -> list Z -> Z * CPUDADAOState.
Variable disas : Z -> gen bool.
Hypothesis Hdisas : decodetree_laws disas.
Variable goto_tb : Z -> bool.
Abbreviation run := (run_words B helper disas goto_tb).

(** One instruction of the table that writes one register. *)
Lemma row_advances r w f i v v' pc env env' mem :
  r ∈ isa_alu -> isa_pre r = always -> 0 < i < 64 -> 0 <= v' < 2^64 -> 0 <= pc < 2^64 ->
  (forall p, p ∈ insns_decode -> p_name p = isa_name r ->
     matches p w = true /\
     isa_spec r pc (pattern_args p w) (prologue env') = set_reg f i v' (prologue env')) ->
  loaded f i v pc env env' ->
  exists env'', run [w] pc env' mem = Some (env'', mem) /\ loaded f i v' (w64 (pc + 4)) env env''.
Proof.
  intros Hr Hpre Hi Hv Hpc Hp Hl.
  assert (Hs : step_implements B helper disas (sp_alu r)).
  { pose proof (alu_implemented B L helper disas Hdisas) as Ha. rewrite Forall_forall in Ha. apply Ha.
    unfold isa_alu_specs. apply list_elem_of_fmap. eauto. }
  destruct Hs as (p & Hin & Hpn & Hstep). destruct (Hp p Hin Hpn) as [Hm Hspec].
  pose proof Hl as [Hwf Hu _ _ _].
  specialize (Hstep goto_tb pc _ env' mem Hpc Hwf Hu Hm). cbn [sp_pre sp_sem sp_alu] in Hstep.
  rewrite Hpre in Hstep. specialize (Hstep I). cbn [next_insn] in Hstep. rewrite Hspec in Hstep.
  exists (set_PC (w64 (pc + 4)) (set_reg f i v' (prologue env'))). split.
  - cbn [run_words]. rewrite Hstep.
    assert (Hq : REG_PC (set_PC (w64 (pc + 4)) (set_reg f i v' (prologue env'))) = w64 (pc + 4))
      by (unfold REG_PC, set_PC; apply reg_set_reg_eq; [eauto with cpu|lia]).
    by rewrite Hq, Z.eqb_refl.
  - apply (loaded_step f i v pc env env'); try done; [lia|lia|apply w64_range].
Qed.

Ltac arith_row :=
  unfold isa_alu; apply elem_of_app; left;
  unfold isa_arith; cbv zeta; repeat first [left | right].
Lemma adrp_step i imm v pc env env' mem :
  0 < i < 64 -> - 2^17 <= imm < 2^17 -> 0 <= pc < 2^64 -> loaded RB i v pc env env' ->
  exists env'', run [adrp_word i + imm mod 2^18] pc env' mem = Some (env'', mem) /\
    loaded RB i (w64 (pc / 2^12 * 2^12 + imm * 2^12)) (w64 (pc + 4)) env env''.
Proof.
  intros Hi Himm Hpc. apply (row_advances (Row "ADRP" always spec_adrp)); try done.
  - arith_row.
  - apply w64_range.
  - intros p Hp Hn. destruct (proj1 (Forall_forall _ _) address_patterns p Hp) as [H _].
    destruct (H Hn) as (Hmask & Hmat & Hf). set (w := adrp_word i + imm mod 2^18).
    assert (Hw : w = 0x48 * 2^24 + i * 2^18 + imm mod 2^18) by done. split.
    { unfold matches. apply Z.eqb_eq. rewrite Hmask, Hmat. change 0xFF000000 with (Z.shiftl (Z.ones 8) 24).
      rewrite land_field by lia. rewrite Hw. Z.div_mod_to_equations; lia. }
    assert (Ha : ha (pattern_args p w) = i).
    { etransitivity; [apply (pattern_args_field p w "ha" false 6 18 Hp); rewrite Hf; left|].
      apply field_u. rewrite Hw. Z.div_mod_to_equations; lia. }
    assert (Hm : imms18 (pattern_args p w) = imm).
    { etransitivity; [apply (pattern_args_field p w "imms18" true 18 0 Hp); rewrite Hf; right; left|].
      apply field_s; [lia| |exact Himm]. change (Z.of_nat 18) with 18. rewrite Hw. Z.div_mod_to_equations; lia. }
    cbn [isa_spec]. unfold spec_adrp, write. rewrite Ha, Hm, (proj2 (Z.eqb_neq i 0)) by lia. done.
Qed.
Lemma addi_step i imm v pc env env' mem :
  0 < i < 64 -> - 2^11 <= imm < 2^11 -> 0 <= pc < 2^64 -> loaded RB i v pc env env' ->
  exists env'', run [addi_word i i + imm mod 2^12] pc env' mem = Some (env'', mem) /\
    loaded RB i (w64 (v + imm)) (w64 (pc + 4)) env env''.
Proof.
  intros Hi Himm Hpc Hl.
  apply (row_advances (Row "ADDIrb" always (fun _ => spec_rrii RB (fun x i => w64 (x + i)) imms12)) _ RB i v);
    try done.
  - arith_row.
  - apply w64_range.
  - intros p Hp Hn. destruct (proj1 (Forall_forall _ _) address_patterns p Hp) as [_ H].
    destruct (H Hn) as (Hmask & Hmat & Hf). set (w := addi_word i i + imm mod 2^12).
    assert (Hw : w = 0x49 * 2^24 + i * 2^18 + i * 2^12 + imm mod 2^12) by done. split.
    { unfold matches. apply Z.eqb_eq. rewrite Hmask, Hmat. change 0xFF000000 with (Z.shiftl (Z.ones 8) 24).
      rewrite land_field by lia. rewrite Hw. Z.div_mod_to_equations; lia. }
    assert (Ha : ha (pattern_args p w) = i).
    { etransitivity; [apply (pattern_args_field p w "ha" false 6 18 Hp); rewrite Hf; left|].
      apply field_u. rewrite Hw. Z.div_mod_to_equations; lia. }
    assert (Hb : hb (pattern_args p w) = i).
    { etransitivity; [apply (pattern_args_field p w "hb" false 6 12 Hp); rewrite Hf; right; left|].
      apply field_u. rewrite Hw. Z.div_mod_to_equations; lia. }
    assert (Hm : imms12 (pattern_args p w) = imm).
    { etransitivity; [apply (pattern_args_field p w "imms12" true 12 0 Hp); rewrite Hf; right; right; left|].
      apply field_s; [lia| |exact Himm]. change (Z.of_nat 12) with 12. rewrite Hw. Z.div_mod_to_equations; lia. }
    cbn [isa_spec]. unfold spec_rrii, write. rewrite Ha, Hb, Hm, (proj2 (Z.eqb_neq i 0)), reg_prologue by lia.
    by rewrite (ld_reg _ _ _ _ _ _ Hl).
Qed.

(** ** The relocations of the pair *)
Variable bfd_check_overflow : Z -> Z -> bool.
Variable final_link_relocate :
  reloc_howto_type -> section_place -> list Z -> Z -> Z -> Z -> option (bfd_reloc_status_type * list Z).
Abbreviation relocate := (dadao_final_link_relocate bfd_check_overflow final_link_relocate).

(** Storing a field in the empty low bits of a word. *)
Lemma store_field buf p n x : 0 <= n -> 0 <= x < 2^n -> bytes_ok buf -> 0 <= p ->
  p + 4 <= Z.of_nat (length buf) -> bfd_getl32 buf p mod 2^n = 0 -> bfd_getl32 buf p + x < 2^32 ->
  exists buf', bfd_put_32 buf (Z.lor (bfd_getl32 buf p) x) p = Some buf' /\ bytes_ok buf' /\
    length buf' = length buf /\ bfd_getl32 buf' p = bfd_getl32 buf p + x /\
    (forall j, j < p \/ p + 3 < j -> byte_at buf' j = byte_at buf j).
Proof.
  intros Hn Hx Hok Hp Hl Hz Hs. rewrite (lor_aligned _ _ n) by done.
  destruct (put_32_in buf (bfd_getl32 buf p + x) p Hok Hp Hl) as (buf' & H1 & H2 & H3 & H4 & H5).
  exists buf'. rewrite H4, Z.mod_small by (pose proof (getl32_range buf p Hok); lia). done.
Qed.
Definition page_distance (sec : section_place) (p x : Z) : Z := w64 x / 2^12 - place sec p / 2^12.
Lemma link_hi18 h sec buf p addend relocation i :
  howto_at (reloc_number R_DADAO_HI18) = Some h -> 0 < i < 64 ->
  bytes_ok buf -> 0 <= p -> p + 4 <= Z.of_nat (length buf) -> bfd_getl32 buf p = adrp_word i ->
  exists buf', relocate h sec buf (p + 4) addend relocation = Some (bfd_reloc_ok, buf') /\ bytes_ok buf' /\
    length buf' = length buf /\
    bfd_getl32 buf' p = adrp_word i + page_distance sec p (relocation + addend) mod 2^18 /\
    (forall j, j < p \/ p + 3 < j -> byte_at buf' j = byte_at buf j).
Proof.
  intros Hh Hi Hok Hp Hl Hw. injection Hh as <-. unfold dadao_final_link_relocate, dadao_elf_perform_relocation.
  cbn [h_type addr_howto own_relocation]. rewrite addr_rel. replace (p + 4 - 4) with p by lia.
  set (x := relocation + addend). set (a := w64 x).
  assert (Hpl : w64 (a - w64 (x - place sec p)) = place sec p).
  { unfold a, w64. rewrite Zminus_mod_idemp_r, Zminus_mod_idemp_l.
    replace (x - (x - place sec p)) with (place sec p) by lia. apply Z.mod_small, w64_range. }
  rewrite Hpl, !Z.shiftr_div_pow2 by lia. fold (page_distance sec p x).
  assert (Hd : DD_X (w64 (page_distance sec p x)) 0 18 = page_distance sec p x mod 2^18).
  { unfold DD_X. rewrite Z.shiftr_0_r, (land_mask _ _ 18) by (done || lia). unfold w64.
    Z.div_mod_to_equations; lia. }
  unfold page_distance at 1 in Hd. fold a in Hd. rewrite Hd, get_32_in by done. cbn [mbind option_bind].
  assert (HM : adrp_word i = 0x48 * 2^24 + i * 2^18) by done.
  destruct (store_field buf p 18 (page_distance sec p x mod 2^18)) as (buf' & Hput & Hrest);
    [lia|apply Z.mod_pos_bound; lia|done|done|done|rewrite Hw, HM; Z.div_mod_to_equations; lia|
     rewrite Hw, HM; Z.div_mod_to_equations; lia|].
  rewrite Hput. cbn [mbind option_bind]. exists buf'. by rewrite <- Hw.
Qed.
Lemma link_lo12 h sec buf p addend relocation i :
  howto_at (reloc_number R_DADAO_LO12) = Some h -> 0 < i < 64 ->
  bytes_ok buf -> 0 <= p -> p + 4 <= Z.of_nat (length buf) -> bfd_getl32 buf p = addi_word i i ->
  exists buf', relocate h sec buf (p + 4) addend relocation = Some (bfd_reloc_ok, buf') /\ bytes_ok buf' /\
    length buf' = length buf /\
    bfd_getl32 buf' p = addi_word i i + w64 (relocation + addend) mod 2^12 /\
    (forall j, j < p \/ p + 3 < j -> byte_at buf' j = byte_at buf j).
Proof.
  intros Hh Hi Hok Hp Hl Hw. injection Hh as <-. unfold dadao_final_link_relocate, dadao_elf_perform_relocation.
  cbn [h_type addr_howto own_relocation]. replace (p + 4 - 4) with p by lia.
  set (a := w64 (relocation + addend)).
  assert (Hd : Z.shiftr (ENCODE_ITYPE_IMM a) 18 = a mod 2^12).
  { unfold ENCODE_ITYPE_IMM, DD_X. rewrite Z.shiftr_shiftl_l, Z.shiftl_0_r, Z.shiftr_0_r by lia.
    by apply land_mask. }
  rewrite Hd, get_32_in by done. cbn [mbind option_bind].
  assert (HM : addi_word i i = 0x49 * 2^24 + i * 2^18 + i * 2^12) by done.
  destruct (store_field buf p 12 (a mod 2^12)) as (buf' & Hput & Hrest);
    [lia|apply Z.mod_pos_bound; lia|done|done|done|rewrite Hw, HM; Z.div_mod_to_equations; lia|
     rewrite Hw, HM; Z.div_mod_to_equations; lia|].
  rewrite Hput. cbn [mbind option_bind]. exists buf'. by rewrite <- Hw.
Qed.

(** The pair "adrp rb, symbol" and "addi rb, rb, symbol", linked at [p]
    with R_DADAO_HI18 and R_DADAO_LO12 and run on the emulator.  For a symbol
    within 2^17 pages the pair leaves the symbol's address in the register,
    and changes nothing else, when bit 11 of the address is clear.  When it is
    set, addi extends the sign of the low part, the high part has not been
    rounded for that, and the register is 4096 short. *)
Theorem hi18_lo12_address h18 h12 sec buf p addend relocation i env mem :
  howto_at (reloc_number R_DADAO_HI18) = Some h18 -> howto_at (reloc_number R_DADAO_LO12) = Some h12 ->
  0 < i < 64 -> bytes_ok buf -> 0 <= p -> p + 8 <= Z.of_nat (length buf) ->
  bfd_getl32 buf p = adrp_word i -> bfd_getl32 buf (p + 4) = addi_word i i ->
  let addr := w64 (relocation + addend) in let pc := place sec p in
  - 2^17 <= addr / 2^12 - pc / 2^12 < 2^17 ->
  REG_PC env = pc -> wf_env env -> u64_env env ->
  exists buf1 buf2, relocate h18 sec buf (p + 4) addend relocation = Some (bfd_reloc_ok, buf1) /\
    relocate h12 sec buf1 (p + 8) addend relocation = Some (bfd_reloc_ok, buf2) /\
    exists env', run (words_at buf2 p 2) pc env mem = Some (env', mem) /\
      loaded RB i (if addr mod 2^12 <? 2^11 then addr else w64 (addr - 2^12)) (w64 (pc + 8)) env env'.
Proof.
  intros H18 H12 Hi Hok Hp Hl Hw1 Hw2 addr pc Hd Hpc Hwf Hu.
  destruct (link_hi18 h18 sec buf p addend relocation i) as (b1 & E1 & O1 & L1 & W1 & R1); try done; [lia|].
  destruct (link_lo12 h12 sec b1 (p + 4) addend relocation i) as (b2 & E2 & O2 & L2 & W2 & R2);
    try done; [lia|lia|rewrite (getl32_other buf) by (intros; apply R1; lia); done|].
  replace (p + 4 + 4) with (p + 8) in E2 by lia. exists b1, b2. split; [done|]. split; [done|].
  assert (Hwords : words_at b2 p 2
    = [adrp_word i + page_distance sec p (relocation + addend) mod 2^18;
       addi_word i i + (sext 12 addr) mod 2^12]).
  { unfold words_at. cbn [seq map]. change (Z.of_nat 0) with 0. change (Z.of_nat 1) with 1.
    rewrite Z.mul_0_r, Z.add_0_r, Z.mul_1_r, W2, (getl32_other b1), W1 by (intros; apply R2; lia).
    by rewrite sext_mod. }
  rewrite Hwords. fold addr in Hd. unfold page_distance. fold addr pc.
  destruct (adrp_step i (addr / 2^12 - pc / 2^12) (reg RB i env) pc env env mem Hi Hd (w64_range _))
    as (e1 & Hr1 & Hl1); [by split|].
  destruct (addi_step i (sext 12 addr) _ (w64 (pc + 4)) env e1 mem Hi (sext_range 12 addr ltac:(lia)) (w64_range _) Hl1)
    as (e2 & Hr2 & Hl2).
  exists e2. split.
  - cbn [run_words] in Hr1, Hr2 |- *. destruct (step _ _ _ _ _ _ _ _) as [[]|]; try done.
    destruct (_ =? _); [|done]. injection Hr1 as -> ->. exact Hr2.
  - autorewrite with word in Hl2. replace (pc + 4 + 4) with (pc + 8) in Hl2 by lia.
    replace (pc / 2^12 * 2^12 + (addr / 2^12 - pc / 2^12) * 2^12) with (addr / 2^12 * 2^12) in Hl2 by lia.
    assert (Hv : w64 (addr / 2^12 * 2^12 + sext 12 addr)
                 = if addr mod 2^12 <? 2^11 then addr else w64 (addr - 2^12)); [|by rewrite Hv in Hl2].
    pose proof (Z.div_mod addr (2^12)). pose proof (sext_range 12 addr ltac:(lia)).
    assert (Hs : sext 12 addr = addr mod 2^12 \/ sext 12 addr = addr mod 2^12 - 2^12)
      by (unfold sext; destruct (Z.testbit _ _); auto).
    pose proof (Z.mod_pos_bound addr (2^12)). destruct (Z.ltb_spec (addr mod 2^12) (2^11)).
    + replace (addr / 2^12 * 2^12 + sext 12 addr) with addr by lia. apply w64_w64.
    + f_equal. lia.
Qed.
End Address.
