(* ===== verification/BfdRelax.v ===== *)
(** The order of relocations and linker relaxation: bfd/elf64-dadao.c,
    dadao_elf_sort_relocs to dadao_elf_relax_section.

    What these functions change of a bfd is one state: the section's contents
    and size, its relocations and the symbols defined in it.  Reading them
    from the file is not modelled.  [None] is an access outside the
    contents. *)
From S2P Require Import Prelude Opcodes GasData Gas GasRelax Bfd.
Local Open Scope Z_scope.

(** ** dadao_elf_sort_relocs *)
Definition insn_of (rel : rela) : Z := Z.land (r_offset rel) (w64 (Z.lnot 3)).
Definition dadao_elf_sort_relocs (r1 r2 : rela) : Z :=
  if insn_of r2 <? insn_of r1 then 1
  else if insn_of r1 <? insn_of r2 then -1
  else if r_offset r2 <? r_offset r1 then 1
  else if r_offset r1 <? r_offset r2 then -1
  else 0.

(** ** dadao_elf_check_relocs *)
Section Check.
(** qsort, and the recording of virtual tables for garbage collection *)
Variable qsort : (rela -> rela -> Z) -> list rela -> list rela.
Context {H G : Type}.
Variable sym_hash : Z -> option H.
Variable record_vtinherit record_vtentry : option H -> Z -> G -> option G.

(** [None] is return FALSE. *)
Definition check_reloc (sh_info : Z) (g : G) (rel : rela) : option G :=
  let h := if r_sym rel <? sh_info then None else sym_hash (r_sym rel - sh_info) in
  if r_type rel =? reloc_number R_DADAO_GNU_VTINHERIT then record_vtinherit h (r_offset rel) g
  else if r_type rel =? reloc_number R_DADAO_GNU_VTENTRY then record_vtentry h (r_addend rel) g
  else Some g.
Fixpoint check_all (sh_info : Z) (g : G) (relocs : list rela) : option G :=
  match relocs with
  | [] => Some g
  | rel :: relocs => g ← check_reloc sh_info g rel; check_all sh_info g relocs
  end.
(** The sorted relocations stay, also when a recording fails. *)
Definition dadao_elf_check_relocs (relocatable : bool) (sh_info : Z) (g : G) (relocs : list rela)
    : list rela * option G :=
  let relocs := qsort dadao_elf_sort_relocs relocs in
  (relocs, if relocatable then Some g else check_all sh_info g relocs).
End Check.

(** ** The state of relaxation *)
Record local_symbol := Lsym { st_shndx : Z; st_value : Z }.
(** A global symbol: whether it is defined (or weakly so), whether in this
    section, its value, and the address of the section it is in. *)
Record hash_entry := Hash { he_defined : bool; he_in_sec : bool; he_value : Z; he_base : Z }.
Record relax_state := RelaxSt {
  x_contents : list Z; x_size : Z; x_relocs : list rela;
  x_locals : list local_symbol; x_globals : list hash_entry }.

Definition move_reloc (addr count : Z) (rel : rela) : rela :=
  let 'Rela o t s a := rel in if addr <? o then Rela (o - count) t s a else rel.
Definition move_local (sec_shndx addr count : Z) (isym : local_symbol) : local_symbol :=
  if (st_shndx isym =? sec_shndx) && (addr <? st_value isym)
  then Lsym (st_shndx isym) (st_value isym - count) else isym.
Definition move_global (addr count : Z) (h : hash_entry) : hash_entry :=
  let 'Hash d i v b := h in if d && i && (addr <? v) then Hash d i (v - count) b else h.

(** memmove (contents + d, contents + s, n), with [d <= s] *)
Definition memmove (contents : list Z) (d s n : Z) : option (list Z) :=
  if (0 <=? d) && (0 <=? n) && (d <=? s) && (s + n <=? Z.of_nat (length contents)) then
    let dn := Z.to_nat d in let sn := Z.to_nat s in let len := Z.to_nat n in
    Some (take dn contents ++ take len (drop sn contents) ++ drop (dn + len) contents)
  else None.

Definition dadao_elf_relax_delete_bytes (sec_shndx : Z) (st : relax_state) (addr count : Z)
    : option relax_state :=
  contents ← memmove (x_contents st) addr (addr + count) (x_size st - addr - count);
  Some (RelaxSt contents (x_size st - count) (map (move_reloc addr count) (x_relocs st))
          (map (move_local sec_shndx addr count) (x_locals st))
          (map (move_global addr count) (x_globals st))).

(** ** dadao_elf_relax_section *)
Definition MATCH_insn (opcode insn : Z) : bool := Z.land opcode 0xFF000000 =? insn.

(** The bytes to delete, and the contents dd_fill_abs leaves. *)
Definition relax_delcnt (r_type opcode symval : Z) (contents : list Z) (ptr : Z) : option (Z * list Z) :=
  let top := Z.shiftr opcode 24 in
  if (r_type =? reloc_number R_DADAO_CALL) && MATCH_insn opcode DADAO_INSN_CALL_IIII then Some (16, contents)
  else if (r_type =? reloc_number R_DADAO_BRCC) && ((0x28 <=? top) && (top <=? 0x2D)) then Some (20, contents)
  else if (r_type =? reloc_number R_DADAO_BRCC12) && ((top =? 0x2E) && (top =? 0x2F)) then Some (14, contents)
  else if (r_type =? reloc_number R_DADAO_JUMP) && MATCH_insn opcode DADAO_INSN_JUMP_IIII then Some (16, contents)
  else if (r_type =? reloc_number R_DADAO_ABS)
          && (MATCH_insn opcode DADAO_INSN_SETZW_RD || MATCH_insn opcode DADAO_INSN_SETOW_RD
              || MATCH_insn opcode DADAO_INSN_SETZW_RB) then
    '(contents, n) ← dd_fill_abs (Z.land opcode 0xFF000000) (Z.land opcode 0x00FC0000) symval contents ptr;
    Some (16 - n, contents)
  else Some (0, contents).

(** One relocation, the [i]th: the state after it and *again. *)
Definition relax_one (sec_shndx sh_info : Z) (st : relax_state) (i : nat) : option (relax_state * bool) :=
  irel ← x_relocs st !! i;
  if r_sym irel <? sh_info then Some (st, false)
  else
    h ← zlookup (x_globals st) (r_sym irel - sh_info);
    if negb (he_defined h) then Some (st, false)
    else
      let symval := w64 (he_value h + he_base h) in
      let ptr := r_offset irel - 4 in
      opcode ← bfd_get_32 (x_contents st) ptr;
      nextopc ← bfd_get_32 (x_contents st) (ptr + 4);
      if nextopc =? 0 then
        '(delcnt, contents) ← relax_delcnt (r_type irel) opcode symval (x_contents st) ptr;
        let st := RelaxSt contents (x_size st) (x_relocs st) (x_locals st) (x_globals st) in
        if delcnt =? 0 then Some (st, false)
        else
          st ← dadao_elf_relax_delete_bytes sec_shndx st (r_offset irel) delcnt;
          Some (st, true)
      else Some (st, false).
Fixpoint relax_loop (sec_shndx sh_info : Z) (st : relax_state) (idxs : list nat) (again : bool)
    : option (relax_state * bool) :=
  match idxs with
  | [] => Some (st, again)
  | i :: idxs =>
      '(st, a) ← relax_one sec_shndx sh_info st i;
      relax_loop sec_shndx sh_info st idxs (again || a)
  end.
(** [relaxable]: the section has code and relocations, in a final link. *)
Definition dadao_elf_relax_section (relocatable sec_reloc sec_code : bool) (sec_shndx sh_info : Z)
    (st : relax_state) : option (relax_state * bool) :=
  if relocatable || negb sec_reloc || (length (x_relocs st) =? 0)%nat || negb sec_code
  then Some (st, false)
  else relax_loop sec_shndx sh_info st (seq 0 (length (x_relocs st))) false.
