(* ===== verification/BfdRelaxProps.v ===== *)
(** Linker relaxation: what deleting bytes keeps, and that a pass that asks
    for another has made the section smaller. *)
From S2P Require Import Prelude Opcodes GasData Gas GasRelax GasFix Bfd BfdFill BfdRelax.
Local Open Scope Z_scope.

(** ** memmove *)
Lemma memmove_spec buf d s n : 0 <= d <= s -> 0 <= n -> s + n <= Z.of_nat (length buf) ->
  exists buf', memmove buf d s n = Some buf' /\ length buf' = length buf /\
    (forall j, j < d -> byte_at buf' j = byte_at buf j) /\
    (forall j, d <= j < d + n -> byte_at buf' j = byte_at buf (j + (s - d))).
Proof.
  intros Hd Hn Hl. unfold memmove.
  rewrite !(proj2 (Z.leb_le _ _)) by lia. cbn [andb].
  set (t := take (Z.to_nat n) (drop (Z.to_nat s) buf)).
  assert (Ht : length t = Z.to_nat n) by (unfold t; rewrite length_take, length_drop; lia).
  assert (Hk : length (take (Z.to_nat d) buf) = Z.to_nat d) by (rewrite length_take; lia).
  eexists. split; [reflexivity|]. split; [|split].
  - rewrite !length_app, Hk, Ht, length_drop. lia.
  - intros j Hj. unfold byte_at, zlookup. destruct (Z.leb_spec 0 j); [|done].
    rewrite lookup_app_l by lia. by rewrite lookup_take_lt by lia.
  - intros j Hj. unfold byte_at, zlookup. rewrite !(proj2 (Z.leb_le 0 _)) by lia.
    rewrite lookup_app_r, Hk by lia. rewrite lookup_app_l by lia.
    unfold t. rewrite lookup_take_lt, lookup_drop by lia. do 2 f_equal. lia.
Qed.
Lemma memmove_Some buf d s n buf' : memmove buf d s n = Some buf' ->
  0 <= d /\ 0 <= n /\ d <= s /\ s + n <= Z.of_nat (length buf).
Proof.
  unfold memmove. destruct (_ && _) eqn:E; [|done]. intros _.
  repeat (apply andb_prop in E as [E ?]); repeat match goal with H : (_ <=? _) = true |- _ => apply Z.leb_le in H end.
  lia.
Qed.

(** ** Where a place of the section goes *)
Definition moved (addr count o : Z) : Z := if addr <? o then o - count else o.
Lemma moved_reloc addr count rel : r_offset (move_reloc addr count rel) = moved addr count (r_offset rel).
Proof. destruct rel as [o t s a]. unfold moved. cbn. by destruct (addr <? o). Qed.
Lemma moved_reloc_same addr count rel : r_type (move_reloc addr count rel) = r_type rel
  /\ r_sym (move_reloc addr count rel) = r_sym rel /\ r_addend (move_reloc addr count rel) = r_addend rel.
Proof. destruct rel as [o t s a]. cbn. by destruct (addr <? o). Qed.
Lemma moved_local shndx addr count s : st_value (move_local shndx addr count s)
  = if st_shndx s =? shndx then moved addr count (st_value s) else st_value s.
Proof. unfold move_local, moved. destruct (_ =? _), (_ <? _); done. Qed.
Lemma moved_global addr count h : he_value (move_global addr count h)
  = if he_defined h && he_in_sec h then moved addr count (he_value h) else he_value h.
Proof. destruct h as [[] [] v b]; unfold moved; cbn; by destruct (addr <? v). Qed.

(** A place outside the bytes deleted. *)
Definition survives (addr count o : Z) : Prop := o <= addr \/ addr + count <= o.

Lemma delete_contents shndx st addr count :
  0 <= addr -> 0 <= count -> addr + count <= x_size st -> x_size st <= Z.of_nat (length (x_contents st)) ->
  exists st', dadao_elf_relax_delete_bytes shndx st addr count = Some st' /\
    x_size st' = x_size st - count /\ length (x_contents st') = length (x_contents st) /\
    (forall j, j < addr -> byte_at (x_contents st') j = byte_at (x_contents st) j) /\
    (forall j, addr <= j < x_size st - count -> byte_at (x_contents st') j = byte_at (x_contents st) (j + count)) /\
    x_relocs st' = map (move_reloc addr count) (x_relocs st) /\
    x_locals st' = map (move_local shndx addr count) (x_locals st) /\
    x_globals st' = map (move_global addr count) (x_globals st).
Proof.
  intros Ha Hc Hs Hl. unfold dadao_elf_relax_delete_bytes.
  destruct (memmove_spec (x_contents st) addr (addr + count) (x_size st - addr - count))
    as (buf & Hm & Hlen & Hlo & Hhi); [lia|lia|lia|].
  rewrite Hm. cbn [mbind option_bind]. eexists. split; [reflexivity|]. cbn.
  split; [done|]. split; [done|]. split; [done|]. split; [|done].
  intros j Hj. rewrite Hhi by lia. f_equal. lia.
Qed.

(** C16: Deleting [count] bytes at [addr]: the section is [count] bytes
    shorter; every relocation whose instruction is not among the deleted
    bytes is moved along with its instruction and keeps its type, symbol and
    addend; and every symbol of the section, local or global, outside the
    deleted bytes still marks the byte it marked, while symbols of other
    sections keep their value. *)
Theorem delete_bytes_moves shndx st addr count :
  0 <= addr -> 0 < count -> addr + count <= x_size st -> x_size st <= Z.of_nat (length (x_contents st)) ->
  exists st', dadao_elf_relax_delete_bytes shndx st addr count = Some st' /\
    x_size st' = x_size st - count /\
    (forall k rel, x_relocs st !! k = Some rel ->
       r_offset rel <= addr \/ addr + count <= r_offset rel - 4 -> r_offset rel <= x_size st ->
       exists rel', x_relocs st' !! k = Some rel' /\ r_type rel' = r_type rel /\ r_sym rel' = r_sym rel /\
         r_addend rel' = r_addend rel /\
         bfd_getl32 (x_contents st') (r_offset rel' - 4) = bfd_getl32 (x_contents st) (r_offset rel - 4)) /\
    (forall k s, x_locals st !! k = Some s ->
       exists s', x_locals st' !! k = Some s' /\
         if st_shndx s =? shndx
         then addr + count <= st_value s < x_size st \/ st_value s < addr ->
              byte_at (x_contents st') (st_value s') = byte_at (x_contents st) (st_value s)
         else s' = s) /\
    (forall k h, x_globals st !! k = Some h ->
       exists h', x_globals st' !! k = Some h' /\
         if he_defined h && he_in_sec h
         then addr + count <= he_value h < x_size st \/ he_value h < addr ->
              byte_at (x_contents st') (he_value h') = byte_at (x_contents st) (he_value h)
         else h' = h).
Proof.
  intros Ha Hc Hs Hl.
  destruct (delete_contents shndx st addr count) as (st' & Hd & Hsz & Hlen & Hlo & Hhi & Hr & Hloc & Hg);
    [done|lia|done|done|].
  exists st'. split; [done|]. split; [done|]. rewrite Hr, Hloc, Hg.
  assert (Hbyte : forall v, addr + count <= v < x_size st \/ v < addr ->
            byte_at (x_contents st') (moved addr count v) = byte_at (x_contents st) v).
  { intros v Hv. unfold moved. destruct (Z.ltb_spec addr v); [|apply Hlo; lia].
    rewrite Hhi by lia. f_equal. lia. }
  split; [|split].
  - intros k rel Hk Hout Hin. exists (move_reloc addr count rel). rewrite list_lookup_fmap, Hk. split; [done|].
    destruct (moved_reloc_same addr count rel) as (-> & -> & ->). split; [done|]. split; [done|]. split; [done|].
    rewrite moved_reloc. unfold moved, bfd_getl32. destruct (Z.ltb_spec addr (r_offset rel)).
    + assert (Hshift : forall d, 0 <= d < 4 ->
        byte_at (x_contents st') (r_offset rel - count - 4 + d) = byte_at (x_contents st) (r_offset rel - 4 + d))
        by (intros d Hd4; rewrite Hhi by lia; f_equal; lia).
      rewrite <- (Z.add_0_r (r_offset rel - count - 4)) at 1. rewrite !Hshift, Z.add_0_r by lia. done.
    + by rewrite !Hlo by lia.
  - intros k s Hk. exists (move_local shndx addr count s). rewrite list_lookup_fmap, Hk. split; [done|].
    pose proof (moved_local shndx addr count s) as Hm. unfold move_local in *.
    destruct (_ =? _); [|done]. intros Hv. rewrite Hm. by apply Hbyte.
  - intros k h Hk. exists (move_global addr count h). rewrite list_lookup_fmap, Hk. split; [done|].
    pose proof (moved_global addr count h) as Hm.
    destruct (he_defined h && he_in_sec h) eqn:E; [intros Hv; rewrite Hm; by apply Hbyte|].
    destruct h as [d i v b]. cbn in *. by rewrite E.
Qed.

(** ** A pass *)
Lemma fill_wyde_range opcode reg p w imm b t b' t' :
  fill_wyde opcode reg p w imm (b, t) = Some (b', t') -> t' = t \/ t' = t + 4.
Proof.
  unfold fill_wyde. destruct (imm =? 0); [intros [= <- <-]; by left|].
  destruct (if t =? 0 then _ else _); [|done]. cbn [mbind option_bind].
  destruct (bfd_put_32 _ _ _); [|done]. cbn [mbind option_bind]. intros [= <- <-]. by right.
Qed.
Lemma put_32_length buf v p buf' : bfd_put_32 buf v p = Some buf' -> length buf' = length buf.
Proof.
  unfold bfd_put_32. destruct (in_contents _ _); [|done]. intros [= <-].
  unfold number_to_chars. cbn [seq foldl]. by rewrite !length_zupdate.
Qed.
Lemma fill_wyde_length opcode reg p w imm b t b' t' :
  fill_wyde opcode reg p w imm (b, t) = Some (b', t') -> length b' = length b.
Proof.
  unfold fill_wyde. destruct (imm =? 0); [by intros [= <- <-]|].
  destruct (if t =? 0 then _ else _); [|done]. cbn [mbind option_bind].
  destruct (bfd_put_32 _ _ _) eqn:E; [|done]. cbn [mbind option_bind]. intros [= <- <-].
  by eapply put_32_length.
Qed.
Lemma fill_abs_range opcode reg addr buf p buf' n :
  dd_fill_abs opcode reg addr buf p = Some (buf', n) -> 4 <= n <= 16 /\ length buf' = length buf.
Proof.
  unfold dd_fill_abs.
  destruct (fill_wyde _ _ _ _ _ (buf, 0)) as [[b1 t1]|] eqn:E1; [|done]. cbn [mbind option_bind].
  destruct (fill_wyde _ _ _ _ _ (b1, t1)) as [[b2 t2]|] eqn:E2; [|done]. cbn [mbind option_bind].
  destruct (fill_wyde _ _ _ _ _ (b2, t2)) as [[b3 t3]|] eqn:E3; [|done]. cbn [mbind option_bind].
  destruct (fill_wyde _ _ _ _ _ (b3, t3)) as [[b4 t4]|] eqn:E4; [|done]. cbn [mbind option_bind].
  pose proof (fill_wyde_length _ _ _ _ _ _ _ _ _ E1). pose proof (fill_wyde_length _ _ _ _ _ _ _ _ _ E2).
  pose proof (fill_wyde_length _ _ _ _ _ _ _ _ _ E3). pose proof (fill_wyde_length _ _ _ _ _ _ _ _ _ E4).
  apply fill_wyde_range in E1, E2, E3, E4.
  destruct (Z.eqb_spec t4 0).
  - destruct (bfd_put_32 _ _ _) as [b5|] eqn:E5; [|done]. cbn [mbind option_bind]. intros [= <- <-].
    apply put_32_length in E5. split; [lia|congruence].
  - intros [= <- <-]. split; [lia|congruence].
Qed.
Lemma delcnt_range t opcode symval buf p n buf' :
  relax_delcnt t opcode symval buf p = Some (n, buf') -> 0 <= n <= 20 /\ length buf' = length buf.
Proof.
  unfold relax_delcnt.
  repeat (destruct (_ && _); [try (intros [= <- <-]; split; [lia|done])|]);
    try (intros [= <- <-]; split; [lia|done]).
  destruct (dd_fill_abs _ _ _ _ _) as [[b k]|] eqn:E; [|done]. cbn [mbind option_bind]. intros [= <- <-].
  apply fill_abs_range in E. split; [lia|apply E].
Qed.

(** One relocation keeps the number of relocations and never makes the
    section larger; when it asks for another pass, the section is smaller. *)
Record relaxed (st st' : relax_state) (again : bool) : Prop := Relaxed {
  rx_relocs : length (x_relocs st') = length (x_relocs st);
  rx_size : if again then 0 <= x_size st' < x_size st else x_size st' = x_size st }.
Lemma relaxed_refl st : relaxed st st false.
Proof. by split. Qed.
#[local] Hint Resolve relaxed_refl : core.
Lemma relaxed_trans st1 st2 st3 a b : relaxed st1 st2 a -> relaxed st2 st3 b -> relaxed st1 st3 (a || b).
Proof. intros [R1 S1] [R2 S2]. split; [congruence|]. destruct a, b; cbn; lia. Qed.

Lemma relax_one_relaxed shndx sh_info st i st' a :
  relax_one shndx sh_info st i = Some (st', a) -> relaxed st st' a.
Proof.
  unfold relax_one. destruct (x_relocs st !! i) as [irel|]; [|done]. cbn [mbind option_bind].
  destruct (_ <? _); [intros [= <- <-]; auto|].
  destruct (zlookup _ _) as [h|]; [|done]. cbn [mbind option_bind].
  destruct (negb _); [intros [= <- <-]; auto|].
  destruct (bfd_get_32 _ (r_offset irel - 4)) as [opcode|]; [|done]. cbn [mbind option_bind].
  destruct (bfd_get_32 _ (r_offset irel - 4 + 4)) as [next|]; [|done]. cbn [mbind option_bind].
  destruct (next =? 0); [|intros [= <- <-]; auto].
  destruct (relax_delcnt _ _ _ _ _) as [[n c]|] eqn:En; [|done]. cbn [mbind option_bind].
  apply delcnt_range in En as [Hn _].
  destruct (Z.eqb_spec n 0); [intros [= <- <-]; by split|].
  unfold dadao_elf_relax_delete_bytes. cbn [x_contents x_size x_relocs x_locals x_globals].
  destruct (memmove _ _ _ _) as [c'|] eqn:Em; [|done]. cbn [mbind option_bind].
  apply memmove_Some in Em. intros [= <- <-]. split; cbn; [by rewrite length_map|lia].
Qed.
Lemma relax_loop_relaxed shndx sh_info idxs st again st' a :
  relax_loop shndx sh_info st idxs again = Some (st', a) ->
  exists b, a = again || b /\ relaxed st st' b.
Proof.
  revert st again. induction idxs as [|i idxs IH]; intros st again; cbn [relax_loop].
  { intros [= <- <-]. exists false. rewrite orb_false_r. auto. }
  destruct (relax_one _ _ _ _) as [[st1 b1]|] eqn:E; [|done]. cbn [mbind option_bind].
  intros H. apply IH in H as (b2 & -> & H2). apply relax_one_relaxed in E.
  exists (b1 || b2). rewrite orb_assoc. split; [done|]. by eapply relaxed_trans.
Qed.

(** The relocation's instruction is followed by a word that is not zero, or
    its symbol is none the pass looks at. *)
Definition not_relaxable (sh_info : Z) (st : relax_state) (rel : rela) : Prop :=
  r_sym rel < sh_info \/
  exists h, zlookup (x_globals st) (r_sym rel - sh_info) = Some h /\
    (he_defined h = false \/
     exists w n, bfd_get_32 (x_contents st) (r_offset rel - 4) = Some w /\
       bfd_get_32 (x_contents st) (r_offset rel) = Some n /\ n <> 0).
Lemma relax_one_id shndx sh_info st i rel :
  x_relocs st !! i = Some rel -> not_relaxable sh_info st rel ->
  relax_one shndx sh_info st i = Some (st, false).
Proof.
  intros Hi H. unfold relax_one. rewrite Hi. cbn [mbind option_bind].
  destruct (Z.ltb_spec (r_sym rel) sh_info); [done|]. destruct H as [|(h & -> & H)]; [lia|]. cbn [mbind option_bind].
  destruct (he_defined h) eqn:E; [|done]. destruct H as [|(w & n & -> & Hn & Hne)]; [done|].
  cbn [negb mbind option_bind]. replace (r_offset rel - 4 + 4) with (r_offset rel) by lia. rewrite Hn.
  cbn [mbind option_bind]. by rewrite (proj2 (Z.eqb_neq _ _)).
Qed.

(** Relaxing until a pass asks for no other. *)
Section Rounds.
Variables relocatable sec_reloc sec_code : bool.
Variables shndx sh_info : Z.
Abbreviation pass := (dadao_elf_relax_section relocatable sec_reloc sec_code shndx sh_info).
Fixpoint relax_rounds (fuel : nat) (st : relax_state) : option (option relax_state) :=
  match fuel with
  | O => None
  | S fuel =>
      match pass st with
      | None => Some None
      | Some (st', true) => relax_rounds fuel st'
      | Some (st', false) => Some (Some st')
      end
  end.

Lemma pass_relaxed st st' a : pass st = Some (st', a) -> relaxed st st' a.
Proof.
  unfold dadao_elf_relax_section. destruct (_ || _ || _ || _); [intros [= <- <-]; auto|].
  intros H. apply relax_loop_relaxed in H as (b & -> & H). done.
Qed.
Lemma rounds_end fuel st : x_size st < Z.of_nat fuel -> 0 < Z.of_nat fuel -> is_Some (relax_rounds fuel st).
Proof.
  revert st. induction fuel as [|fuel IH]; intros st Hs Hf; [lia|]. cbn [relax_rounds].
  destruct (pass st) as [[st' []]|] eqn:E; [|by eexists..].
  apply pass_relaxed in E as [_ Hsz]. cbn in Hsz. apply IH; lia.
Qed.

(** C17: A relaxation pass that asks for another has made the section smaller
    (and never negative), so relaxing until no pass asks for another ends
    within one pass more than the section has bytes; and a section in which
    no relocated instruction is followed by a zero word is left as it is,
    with no other pass asked for. *)
Theorem relaxation_ends st :
  (forall st', pass st = Some (st', true) -> 0 <= x_size st' < x_size st) /\
  is_Some (relax_rounds (S (Z.to_nat (x_size st))) st) /\
  (Forall (not_relaxable sh_info st) (x_relocs st) -> pass st = Some (st, false)).
Proof.
  split; [intros st' H; exact (rx_size _ _ _ (pass_relaxed _ _ _ H))|].
  split; [apply rounds_end; lia|]. intros Hall. unfold dadao_elf_relax_section.
  destruct (_ || _ || _ || _); [done|]. rewrite Forall_forall in Hall.
  assert (Hin : forall i, i ∈ seq 0 (length (x_relocs st)) -> (i < length (x_relocs st))%nat)
    by (intros i Hi; apply elem_of_seq in Hi; lia).
  revert Hin. generalize (seq 0 (length (x_relocs st))) as idxs. induction idxs as [|i idxs IH]; intros Hin; [done|].
  cbn [relax_loop]. destruct (lookup_lt_is_Some_2 (x_relocs st) i) as [rel Hrel]; [apply Hin; left|].
  rewrite (relax_one_id shndx sh_info st i rel Hrel) by (apply Hall; by eapply list_elem_of_lookup_2).
  cbn [mbind option_bind orb]. apply IH. intros k Hk. apply Hin. by right.
Qed.
End Rounds.
