(* ===== verification/BfdWitness.v ===== *)
(** The theorems on the linker at concrete inputs, and where the linker does
    not do what its comments say. *)
From S2P Require Import Prelude Opcodes Cpu Tcg Translate Run RefBackend IsaArith IsaMove IsaControl Frame.
From S2P Require Import Decode Step Isa IsaProps GasData Gas GasExec GasRelax GasFix GasWitness.
From S2P Require Import Bfd BfdFill BfdLink BfdRelax BfdRelaxProps.
Local Open Scope string_scope.
Local Open Scope Z_scope.

Definition check_bitfield (bits v : Z) : bool := (v <? 2^bits) || (2^64 - 2^bits <=? v).
Lemma check_bitfield_laws : overflow_laws check_bitfield.
Proof. intros bits v _ _. reflexivity. Qed.
Definition no_relocate (h : reloc_howto_type) (s : section_place) (c : list Z) (_ _ _ : Z)
  : option (bfd_reloc_status_type * list Z) := Some (bfd_reloc_ok, c).
Definition zeros (n : nat) : list Z := repeat 0 n.
Ltac bytes_check := apply (bool_decide_unpack _); vm_compute; exact I.

(** setrb rb5, 0x40002000 takes two instructions. *)
Lemma fill_abs_loads_witness :
  exists env', run_words ref_backend no_helper decode_ref (fun _ => true)
    [0x4E142000; 0x4C154000] demo_pc demo_env ∅
    = Some (env', ∅) /\ loaded RB 5 0x40002000 (demo_pc + 8) demo_env env'.
Proof.
  destruct (fill_abs_loads ref_backend ref_laws no_helper decode_ref decode_ref_laws (fun _ => true)
    RB "SETZWrb" DADAO_INSN_SETZW_RB "ORWrb" DADAO_INSN_ORW_RB 5 0x40002000 (zeros 20) 0 demo_pc demo_env ∅)
    as (buf & Hf & _ & env' & Hr & Hl).
  - unfold fill_ops. right. left.
  - lia.
  - lia.
  - bytes_check.
  - lia.
  - cbn. lia.
  - unfold demo_pc. lia.
  - apply demo_env_pc.
  - apply demo_wf.
  - apply demo_u64.
  - vm_compute in Hf. injection Hf as <-. exists env'. split; [exact Hr|exact Hl].
Defined.

(** jump 0x1100, linked at 0x1000. *)
Definition text : section_place := Place 0x1000 0 0x100.
Lemma link_branch_witness :
  exists h buf, howto_at (reloc_number R_DADAO_JUMP) = Some h /\
  dadao_final_link_relocate check_bitfield no_relocate h text [0; 0; 0; 0x64] 4 0 0x1100 = Some (bfd_reloc_ok, buf) /\
  bfd_getl32 buf 0 = 0x64000040 /\ w64 (place text 0 + 4 * sext 24 (bfd_getl32 buf 0)) = 0x1100.
Proof.
  destruct (howto_at (reloc_number R_DADAO_JUMP)) as [h|] eqn:E; [|discriminate E]. exists h.
  pose proof (link_branch check_bitfield check_bitfield_laws no_relocate R_DADAO_JUMP 24 false h text [0; 0; 0; 0x64] 0 0 0x1100)
    as (buf & Hr & Hw & _ & Ha & _).
  - unfold branch_relocs. repeat first [left | right].
  - exact E.
  - bytes_check.
  - lia.
  - cbn. lia.
  - reflexivity.
  - exists buf. split; [reflexivity|]. split; [exact Hr|]. split; [exact Hw|].
    apply Ha. vm_compute. split; [discriminate|reflexivity].
Defined.

(** adrp rb5, 0x12345; addi rb5, rb5, 0x12345 *)
Definition adrp_bytes : list Z := [0; 0; 0x14; 0x48; 0; 0x50; 0x14; 0x49].
Definition hi18 : reloc_howto_type := addr_howto R_DADAO_HI18 "R_DADAO_HI18".
Definition lo12 : reloc_howto_type := addr_howto R_DADAO_LO12 "R_DADAO_LO12".
Lemma hi18_lo12_address_witness :
  exists buf1 buf2,
  dadao_final_link_relocate check_bitfield no_relocate hi18 text adrp_bytes 4 0 0x12345 = Some (bfd_reloc_ok, buf1) /\
  dadao_final_link_relocate check_bitfield no_relocate lo12 text buf1 8 0 0x12345 = Some (bfd_reloc_ok, buf2) /\
  exists env', run_words ref_backend no_helper decode_ref (fun _ => true) (words_at buf2 0 2) demo_pc demo_env ∅
    = Some (env', ∅) /\ loaded RB 5 0x12345 (demo_pc + 8) demo_env env'.
Proof.
  apply (hi18_lo12_address ref_backend ref_laws no_helper decode_ref decode_ref_laws (fun _ => true)
    check_bitfield no_relocate hi18 lo12 text adrp_bytes 0 0 0x12345 5 demo_env ∅).
  - reflexivity.
  - reflexivity.
  - lia.
  - bytes_check.
  - lia.
  - cbn. lia.
  - reflexivity.
  - reflexivity.
  - vm_compute. split; [discriminate|reflexivity].
  - apply demo_env_pc.
  - apply demo_wf.
  - apply demo_u64.
Defined.

(** A call with room for its expansion, a relocation after it and a symbol. *)
Definition call_section : relax_state :=
  RelaxSt ([0; 0; 0; 0x6C] ++ zeros 16 ++ [1; 2; 3; 0x28])%list 24
    [Rela 4 16 1 0; Rela 24 17 1 0] [Lsym 1 20; Lsym 2 20] [Hash true true 20 0x1000].
Lemma delete_bytes_moves_witness :
  exists st', dadao_elf_relax_delete_bytes 1 call_section 4 16 = Some st' /\ x_size st' = 8 /\
  bfd_getl32 (x_contents st') 4 = 0x28030201.
Proof.
  destruct (delete_bytes_moves 1 call_section 4 16) as (st' & Hd & Hs & Hr & _ & _).
  - lia.
  - lia.
  - cbn. lia.
  - cbn. lia.
  - exists st'. split; [exact Hd|]. split; [exact Hs|].
    destruct (Hr 1%nat (Rela 24 17 1 0)) as (rel' & Hk & _ & _ & _ & Hw); [reflexivity|right; cbn; lia|cbn; lia|].
    vm_compute in Hd. injection Hd as <-. injection Hk as <-. exact Hw.
Defined.

(** The call reaches its symbol and its expansion is deleted. *)
Lemma relaxation_ends_witness :
  exists st', dadao_elf_relax_section false true true 1 1 call_section = Some (st', true) /\ 0 <= x_size st' < 24.
Proof.
  destruct (dadao_elf_relax_section false true true 1 1 call_section) as [[st' b]|] eqn:E; [|vm_compute in E; discriminate E].
  assert (b = true) as -> by (vm_compute in E; injection E as _ <-; reflexivity).
  exists st'. split; [reflexivity|].
  destruct (relaxation_ends false true true 1 1 call_section) as (H & _ & _). exact (H st' E).
Defined.

(** ** Findings *)

(** A jump to a symbol 2^25 bytes away is accepted, and goes as far the other way. *)
Lemma far_jump_accepted : exists h buf, howto_at (reloc_number R_DADAO_JUMP) = Some h /\
  dadao_final_link_relocate check_bitfield no_relocate h text [0; 0; 0; 0x64] 4 0 (0x1000 + 2^25) = Some (bfd_reloc_ok, buf) /\
  w64 (place text 0 + 4 * sext 24 (bfd_getl32 buf 0)) = w64 (0x1000 - 2^25).
Proof. eexists _, _. split; [reflexivity|]. split; [vm_compute; reflexivity|]. vm_compute. reflexivity. Qed.

(** The no-operation of the assembler is not the zero word that relaxation
    looks for: an expanded call filled with swym is kept as it is. *)
Lemma swym_not_relaxed : MATCH "SWYM" <> 0 /\
  dadao_elf_relax_section false true true 1 1
    (RelaxSt ([0; 0; 0; 0x6C; 0; 0; 0; 0x10] ++ zeros 12) 20 [Rela 4 16 1 0] [] [Hash true true 0 0x1000])
  = Some (RelaxSt ([0; 0; 0; 0x6C; 0; 0; 0; 0x10] ++ zeros 12) 20 [Rela 4 16 1 0] [] [Hash true true 0 0x1000], false).
Proof. split; [discriminate|vm_compute; reflexivity]. Qed.

(** breq and brne are never relaxed: the test asks for both opcodes at once. *)
Lemma brcc12_never_relaxed opcode symval buf p :
  relax_delcnt (reloc_number R_DADAO_BRCC12) opcode symval buf p = Some (0, buf).
Proof.
  unfold relax_delcnt. set (t := Z.shiftr opcode 24). clearbody t. cbn -[Z.eqb].
  change (15 =? 16) with false. change (15 =? 14) with false. change (15 =? 15) with true.
  change (15 =? 17) with false. change (15 =? 13) with false. cbn [andb].
  destruct (Z.eqb_spec t 0x2E) as [->|]; reflexivity.
Qed.

(** A setow filled with an address of two parts leaves another value: the
    second instruction is andnw of the part itself. *)
Lemma setow_fill_wrong :
  let buf := fst <$> dd_fill_abs DADAO_INSN_SETOW_RD (5 * 2^18) 0x12345678 (zeros 16) 0 in
  (b ← buf; reg RD 5 ∘ fst <$> run_words ref_backend no_helper decode_ref (fun _ => true) (words_at b 0 2)
     0x1000 demo_env ∅) = Some 0xFFFFFFFFEDCB5678.
Proof. vm_compute. reflexivity. Qed.

(** setrf of a symbol: the instruction of the second part is not set. *)
Lemma setw_fill_undefined : dd_fill_abs DADAO_INSN_SETW 0 0x12345678 (zeros 16) 0 = None.
Proof. vm_compute. reflexivity. Qed.

(** An expanded call is cut short wherever its symbol is: the distance is
    computed but not looked at. *)
Lemma far_call_relaxed : (snd <$> dadao_elf_relax_section false true true 1 1
    (RelaxSt ([0; 0; 0; 0x6C] ++ zeros 16) 20 [Rela 4 16 1 0] [] [Hash true true (2^40) 0x1000])) = Some true.
Proof. vm_compute. reflexivity. Qed.
