(* ===== verification/Gcc.v ===== *)
(** The compiler's target description: gcc/config/dadao/dadao.h and the hooks
    of dadao.c on registers, arguments, addresses and constants.

    RTL is the part of gcc's expressions these functions look at.  What gcc
    knows of modes is [GET_MODE_SIZE] and [GET_MODE_CLASS]; the allocation of
    pseudo registers and the target image of a floating-point constant are
    parameters.  [None] is internal_error, fatal_insn, gcc_unreachable or the
    use of a field an expression does not have. *)
From S2P Require Import Prelude Opcodes GasData.
Local Open Scope string_scope.
Local Open Scope Z_scope.

(** ** Registers *)
Definition DADAO_REG_RD_START : Z := 0x00.
Definition DADAO_REG_RB_START : Z := 0x40.
Definition DADAO_REG_RF_START : Z := 0x80.
Definition DADAO_REG_RA_START : Z := 0xC0.
Definition DADAO_MAX_ARGS_IN_REGS : Z := 16.
Definition DADAO_CONST_ZERO_REGNUM : Z := DADAO_REG_RD_START + 0x00.
Definition DADAO_FIRST_ARG_REGNUM : Z := DADAO_REG_RD_START + 0x10.
Definition DADAO_RETURN_VALUE_REGNUM : Z := DADAO_REG_RD_START + 0x1F.
Definition DADAO_PROGRAM_COUNTER_REGNUM : Z := DADAO_REG_RB_START + 0x00.
Definition DADAO_STACK_POINTER_REGNUM : Z := DADAO_REG_RB_START + 0x01.
Definition DADAO_FRAME_POINTER_REGNUM : Z := DADAO_REG_RB_START + 0x02.
Definition DADAO_ARG_POINTER_REGNUM : Z := DADAO_REG_RB_START + 0x03.
Definition DADAO_RETURN_ADDRESS_REGNUM : Z := DADAO_REG_RB_START + 0x3E.
Definition DADAO_STRUCT_VALUE_REGNUM : Z := DADAO_REG_RB_START + 0x3F.
Definition FIRST_PSEUDO_REGISTER : Z := 64 * 4.
Definition UNITS_PER_WORD : Z := 8.

Inductive reg_class := NO_REGS | GENERAL_REGS | POINTER_REGS | FLOATING_REGS | RETURN_REGS | ALL_REGS.
#[export] Instance reg_class_eq_dec : EqDecision reg_class.
Proof. solve_decision. Defined.
Definition REGNO_REG_CLASS (regno : Z) : reg_class :=
  if FIRST_PSEUDO_REGISTER <=? regno then NO_REGS
  else if regno <? 0x40 then GENERAL_REGS
  else if regno <? 0x80 then POINTER_REGS
  else if regno <? 0xC0 then FLOATING_REGS else RETURN_REGS.

(** The eight words of a class's register set. *)
Definition REG_CLASS_CONTENTS (c : reg_class) : list Z :=
  let all := 2^32 - 1 in
  match c with
  | NO_REGS => [0; 0; 0; 0; 0; 0; 0; 0]
  | GENERAL_REGS => [all; all; 0; 0; 0; 0; 0; 0]
  | POINTER_REGS => [0; 0; all; all; 0; 0; 0; 0]
  | FLOATING_REGS => [0; 0; 0; 0; all; all; 0; 0]
  | RETURN_REGS => [0; 0; 0; 0; 0; 0; all; all]
  | ALL_REGS => [all; all; all; all; all; all; all; all]
  end.

Definition first_fixed : list bool := (repeat true 8 ++ repeat false 56)%list.
Definition FIXED_REGISTERS : list bool :=
  (first_fixed ++ first_fixed ++ first_fixed ++ repeat true 64)%list.
Definition half_used : list bool := (repeat true 32 ++ repeat false 32)%list.
Definition CALL_USED_REGISTERS : list bool :=
  (half_used ++ half_used ++ half_used ++ repeat true 64)%list.
Definition class_names (prefix : string) : list string :=
  map (fun i => prefix ++ Py.str_nat i) (seq 0 64).
Definition REGISTER_NAMES : list string :=
  (class_names "rd" ++ class_names "rb" ++ class_names "rf" ++ class_names "ra")%list.

(** ** Machine modes *)
Inductive machine_mode :=
  | VOIDmode | BLKmode | QImode | HImode | SImode | DImode | TImode | SFmode | DFmode
  | CCSSmode | CCUUmode | CCFFmode.
#[export] Instance machine_mode_eq_dec : EqDecision machine_mode.
Proof. solve_decision. Defined.
Definition Pmode : machine_mode := DImode.
Inductive mode_class := MODE_RANDOM | MODE_CC | MODE_INT | MODE_FLOAT.
#[export] Instance mode_class_eq_dec : EqDecision mode_class.
Proof. solve_decision. Defined.
Definition GET_MODE_CLASS (m : machine_mode) : mode_class :=
  match m with
  | VOIDmode | BLKmode => MODE_RANDOM
  | QImode | HImode | SImode | DImode | TImode => MODE_INT
  | SFmode | DFmode => MODE_FLOAT
  | CCSSmode | CCUUmode | CCFFmode => MODE_CC
  end.
Definition GET_MODE_SIZE (m : machine_mode) : Z :=
  match m with
  | VOIDmode | BLKmode => 0
  | QImode => 1 | HImode => 2 | SImode => 4 | DImode => 8 | TImode => 16
  | SFmode => 4 | DFmode => 8
  | CCSSmode | CCUUmode | CCFFmode => 4
  end.

Definition dd_promote_function_mode (mode : machine_mode) (for_return : Z) : machine_mode :=
  if for_return =? 1 then mode
  else if bool_decide (GET_MODE_CLASS mode = MODE_INT) && (GET_MODE_SIZE mode <? 8) then DImode
  else mode.
Definition dd_hard_regno_mode_ok (regno : Z) (mode : machine_mode) : bool :=
  if bool_decide (REGNO_REG_CLASS regno = POINTER_REGS) then bool_decide (mode = Pmode)
  else if bool_decide (REGNO_REG_CLASS regno = FLOATING_REGS)
  then bool_decide (GET_MODE_CLASS mode = MODE_FLOAT)
  else bool_decide (REGNO_REG_CLASS regno = GENERAL_REGS).

(** ** RTL *)
Inductive rtx :=
  | REG (mode : machine_mode) (regno : Z)
  | SUBREG (x : rtx)
  | MEM (mode : machine_mode) (x : rtx)
  | PLUS (x y : rtx)
  | CONST_INT (v : Z)
  | CONST_DOUBLE (mode : machine_mode) (low high : Z)
  | CONST (x : rtx)
  | SYMBOL_REF (s : string)
  | LABEL_REF (n : Z)
  | HIGH (x : rtx)
  | RTX_other.

Definition REG_P (x : rtx) : bool := match x with REG _ _ => true | _ => false end.
Definition MEM_P (x : rtx) : bool := match x with MEM _ _ => true | _ => false end.
Definition REGNO (x : rtx) : option Z := match x with REG _ n => Some n | _ => None end.
Definition satisfies_constraint_Id (x : rtx) : bool :=
  match x with CONST_INT v => (-0x800 <=? v) && (v <=? 0x7FF) | _ => false end.

(** ** Arguments *)
Record function_arg_info := Arg {
  arg_mode : machine_mode; arg_aggregate : bool; arg_type_size : Z; arg_end_marker : bool }.
Record CUMULATIVE_ARGS := Cum { regs : Z; lib : bool }.
Definition INIT_CUMULATIVE_ARGS (libname : bool) : CUMULATIVE_ARGS := Cum 0 libname.
Definition FUNCTION_ARG_REGNO_P (regno : Z) : bool :=
  (DADAO_FIRST_ARG_REGNUM <=? regno) && (regno <? DADAO_FIRST_ARG_REGNUM + DADAO_MAX_ARGS_IN_REGS).
Definition DADAO_FUNCTION_ARG_SIZE (arg : function_arg_info) : Z :=
  if negb (bool_decide (arg_mode arg = BLKmode)) then GET_MODE_SIZE (arg_mode arg) else arg_type_size arg.

Section Arguments.
Variable TARGET_LIBFUNC : bool.

Definition dd_must_pass_in_stack (arg : function_arg_info) : bool :=
  bool_decide (arg_mode arg = BLKmode) || arg_aggregate arg.

(** [Some None]: the argument goes on the stack. *)
Definition dd_function_arg (argsp : CUMULATIVE_ARGS) (arg : function_arg_info) : option (option rtx) :=
  if bool_decide (arg_mode arg = VOIDmode) then Some (Some (CONST_INT 0))
  else if arg_end_marker arg then
    if regs argsp <? DADAO_MAX_ARGS_IN_REGS
    then Some (Some (REG (arg_mode arg) (DADAO_FIRST_ARG_REGNUM + regs argsp)))
    else None
  else Some
    (if (regs argsp <? DADAO_MAX_ARGS_IN_REGS) && negb (dd_must_pass_in_stack arg)
        && ((GET_MODE_SIZE (arg_mode arg) * 8 <=? 64) || lib argsp || TARGET_LIBFUNC)
     then Some (REG (arg_mode arg) (DADAO_FIRST_ARG_REGNUM + regs argsp)) else None).
Definition dd_pass_by_reference (argsp : option CUMULATIVE_ARGS) (arg : function_arg_info) : bool :=
  if dd_must_pass_in_stack arg then true
  else (8 <? DADAO_FUNCTION_ARG_SIZE arg) && negb TARGET_LIBFUNC
       && match argsp with Some argsp => negb (lib argsp) | None => true end.
Definition dd_function_arg_advance (argsp : CUMULATIVE_ARGS) (arg : function_arg_info) : CUMULATIVE_ARGS :=
  let arg_size := DADAO_FUNCTION_ARG_SIZE arg in
  Cum (if dd_must_pass_in_stack arg || ((8 <? arg_size) && negb TARGET_LIBFUNC && negb (lib argsp))
       then DADAO_MAX_ARGS_IN_REGS + 1
       else regs argsp + Z.quot (7 + arg_size) 8) (lib argsp).

(** The registers stored from the first one on and the size of the area they
    are stored to; [None] is the internal error. *)
Record varargs := Varargs {
  va_saved : option (Z * Z);      (* move_block_from_reg: first register and number *)
  va_pretend_size : option Z;     (* *pretend_sizep, when it is set *)
  va_args : CUMULATIVE_ARGS }.
Definition dd_setup_incoming_varargs (args_so_farp : CUMULATIVE_ARGS) (arg : function_arg_info)
    (second_time : bool) : option varargs :=
  let args := dd_function_arg_advance args_so_farp arg in
  let r :=
    if regs args <? DADAO_MAX_ARGS_IN_REGS then
      Varargs (if second_time then None
               else Some (regs args + DADAO_FIRST_ARG_REGNUM, DADAO_MAX_ARGS_IN_REGS - regs args))
        (Some ((DADAO_MAX_ARGS_IN_REGS - regs args) * 8)) args
    else Varargs None None args in
  if negb (Z.quot (7 + DADAO_FUNCTION_ARG_SIZE arg) 8 =? 1) then None else Some r.
End Arguments.

Definition dd_function_value (mode : machine_mode) : rtx := REG mode DADAO_RETURN_VALUE_REGNUM.
Definition dd_libcall_value (mode : machine_mode) : rtx := REG mode DADAO_RETURN_VALUE_REGNUM.
Definition dd_function_value_regno_p (regno : Z) : bool := regno =? DADAO_RETURN_VALUE_REGNUM.
Definition dd_struct_value_rtx : rtx := REG Pmode DADAO_STRUCT_VALUE_REGNUM.

(** ** Constants *)
Section Constants.
(** REAL_VALUE_TO_TARGET_DOUBLE and _SINGLE: the words of the target image. *)
Variable real_to_target_double : Z -> Z -> Z * Z.
Variable real_to_target_single : Z -> Z -> Z.

Definition dadao_intval (x : rtx) : option Z :=
  match x with
  | CONST_INT v => Some v
  | CONST_DOUBLE VOIDmode _ high => Some high
  | CONST_DOUBLE DFmode low high =>
      let '(b0, b1) := real_to_target_double low high in
      Some (s64 (Z.lor (w64 (Z.shiftl (w64 b0) 32)) (w64 b1)))
  | CONST_DOUBLE SFmode low high => Some (s64 (w64 (real_to_target_single low high)))
  | _ => None
  end.

(** constant_ok is 0: an addend has to be a multiple of four. *)
Definition dadao_constant_address_p (x : rtx) : option bool :=
  let constant_ok := false in
  let check addend := Some (constant_ok || (Z.land (s32 addend) 3 =? 0)) in
  match x with
  | LABEL_REF _ | SYMBOL_REF _ => Some true
  | HIGH _ => Some constant_ok
  | CONST_INT v => check v
  | CONST_DOUBLE mode low _ =>
      if negb (bool_decide (mode = VOIDmode)) then Some constant_ok else check low
  | CONST (PLUS x0 x1) =>
      let symbolic := match x0 with SYMBOL_REF _ | LABEL_REF _ => true | _ => false end in
      let number := match x1 with
                    | CONST_INT _ => true
                    | CONST_DOUBLE mode _ _ => bool_decide (mode = VOIDmode)
                    | _ => false
                    end in
      if symbolic && number then addend ← dadao_intval x1; check addend else Some constant_ok
  | CONST _ => Some constant_ok
  | _ => Some false
  end.
Definition dd_legitimate_constant_p (x : rtx) : option bool :=
  match x with
  | CONST_INT _ | CONST_DOUBLE _ _ _ => Some true
  | _ => dadao_constant_address_p x
  end.
End Constants.

(** ** Addresses *)
Definition _DD_LEGITIMATE_ADDR_GENERAL (x : rtx) (xc : reg_class) : bool :=
  match x with REG _ n => bool_decide (REGNO_REG_CLASS n = xc) | _ => false end.
Definition dd_load_legitimate_address_rbrd (x : rtx) : bool :=
  match x with
  | PLUS x1 x2 =>
      (_DD_LEGITIMATE_ADDR_GENERAL x1 POINTER_REGS && _DD_LEGITIMATE_ADDR_GENERAL x2 GENERAL_REGS)
      || (_DD_LEGITIMATE_ADDR_GENERAL x2 POINTER_REGS && _DD_LEGITIMATE_ADDR_GENERAL x1 GENERAL_REGS)
  | _ => false
  end.
Fixpoint dd_judge_legitimate_address (x : rtx) : bool :=
  match x with
  | MEM _ x1 =>
      if _DD_LEGITIMATE_ADDR_GENERAL x1 POINTER_REGS then true
      else match x1 with
      | PLUS op0 op1 =>
          let rb op := _DD_LEGITIMATE_ADDR_GENERAL op POINTER_REGS in
          let rd op := _DD_LEGITIMATE_ADDR_GENERAL op GENERAL_REGS in
          if rb op0 && rd op1 then true
          else if rb op1 && rd op0 then true
          else if rb op0 && satisfies_constraint_Id op1 then true
          else if (rb op0 && MEM_P op1) || (rb op1 && MEM_P op0)
          then (if MEM_P op0 then dd_judge_legitimate_address op0 else dd_judge_legitimate_address op1)
          else false
      | _ => false
      end
  | _ => false
  end.

Section Strict.
Variable reg_renumber : Z -> Z.
Variable strict_checking : bool.

Definition _DD_LEGITIMATE_ADDR_RC (x : rtx) (xc : reg_class) : bool :=
  match x with
  | REG _ n =>
      bool_decide (REGNO_REG_CLASS n = xc)
      || (negb strict_checking && (FIRST_PSEUDO_REGISTER <=? n))
      || (strict_checking && bool_decide (REGNO_REG_CLASS (reg_renumber n) = xc))
  | _ => false
  end.
Definition dd_legitimate_address_p (x : rtx) : option bool :=
  let rc := _DD_LEGITIMATE_ADDR_RC in
  if rc x POINTER_REGS then Some true
  else match x with
  | PLUS x1 x2 =>
      if rc x1 POINTER_REGS && rc x2 GENERAL_REGS then Some true
      else if rc x1 POINTER_REGS && satisfies_constraint_Id x2 then Some true
      else if rc x2 POINTER_REGS && rc x1 GENERAL_REGS then Some true
      else
        n ← REGNO x1;
        if (bool_decide (REGNO_REG_CLASS n = POINTER_REGS) && MEM_P x2)
           || (_DD_LEGITIMATE_ADDR_GENERAL x2 POINTER_REGS && MEM_P x1)
        then Some (dd_judge_legitimate_address (if MEM_P x1 then x1 else x2))
        else Some false
  | _ => Some false
  end.
End Strict.

(** ** Costs and comparisons *)
Inductive rtx_code := GTU | LTU | GEU | LEU | CODE_other.
Definition dadao_select_cc_mode (op : rtx_code) (mode_of_x : machine_mode) : machine_mode :=
  if bool_decide (GET_MODE_CLASS mode_of_x = MODE_FLOAT) then CCFFmode
  else match op with GTU | LTU | GEU | LEU => CCUUmode | CODE_other => CCSSmode end.
Definition dd_register_move_cost (from to : reg_class) : Z :=
  if bool_decide (from = GENERAL_REGS) && bool_decide (to = GENERAL_REGS) then 2
  else if bool_decide (from = GENERAL_REGS) || bool_decide (to = GENERAL_REGS) then 4
  else 6.
