(* ===== verification/GccFrame.v ===== *)
(** Frames of gcc/config/dadao/dadao.c: when a frame pointer is needed, the
    offsets that eliminate the argument and frame pointers, and the
    instructions that dadao_expand_prologue and dadao_expand_epilogue emit.

    The instructions are RTL sets; running them needs the registers and a
    byte memory, both at their width.  A [HOST_WIDE_INT] is a [Z] and an
    [int] is kept with [s32] where the code narrows to it. *)
From S2P Require Import Prelude Gcc.

(** ** The function being compiled *)

(** What gcc knows of the function: fields of crtl and cfun, get_frame_size
    and the two decisions of the register allocator. *)
Record function_info := Function {
  is_leaf : bool; stdarg : bool; sp_is_unchanging : bool; profile_flag : bool;
  frame_size : Z; outgoing_args_size : Z; pretend_args_size : Z;
  frame_pointer_needed : bool; reload_completed : bool }.

Definition dd_frame_pointer_required (f : function_info) : bool :=
  negb (is_leaf f) || negb (frame_size f =? 0) || stdarg f || negb (sp_is_unchanging f)
  || profile_flag f.
Definition round8 (x : Z) : Z := Z.land (x + 7) (Z.lnot 7).
Definition dadao_initial_elimination_offset (f : function_info) (fromreg toreg : Z) : Z :=
  if fromreg =? DADAO_ARG_POINTER_REGNUM then 0
  else s32 (round8 (outgoing_args_size f + frame_size f)).
Definition dd_can_eliminate (f : function_info) (from_reg to_reg : Z) : bool :=
  if (from_reg =? DADAO_ARG_POINTER_REGNUM) && (to_reg =? DADAO_STACK_POINTER_REGNUM)
  then negb (frame_pointer_needed f) else true.
Definition dadao_use_simple_return (f : function_info) : Z :=
  let stack_space_to_allocate :=
    s32 (round8 (outgoing_args_size f + pretend_args_size f + frame_size f)) in
  if negb (reload_completed f) then 0
  else b2z (stack_space_to_allocate + (if frame_pointer_needed f then 8 else 0) =? 0).

(** gcc's call_used_or_fixed_reg_p, with the tables of dadao.h. *)
Definition call_used_or_fixed_reg_p (regno : Z) : bool :=
  default true (zlookup FIXED_REGISTERS regno) || default true (zlookup CALL_USED_REGISTERS regno).

(** ** Prologue and epilogue *)
Definition stack_pointer_rtx : rtx := REG Pmode DADAO_STACK_POINTER_REGNUM.
Definition frame_pointer_rtx : rtx := REG Pmode DADAO_FRAME_POINTER_REGNUM.
(** gcc's plus_constant on a register. *)
Definition plus_constant (x : rtx) (c : Z) : rtx := if c =? 0 then x else PLUS x (CONST_INT c).
(** A set: destination and source. *)
Definition insn : Type := rtx * rtx.
Definition add_sp (c : Z) : insn := (stack_pointer_rtx, PLUS stack_pointer_rtx (CONST_INT c)).
Definition when_fp (f : function_info) (l : list insn) : list insn :=
  if frame_pointer_needed f then l else [].
Definition when_nz (c : Z) (i : insn) : list insn := if c =? 0 then [] else [i].

Section Frame.
Variable df_regs_ever_live_p : Z -> bool.

Definition dadao_call_saved_reg_p (regno : Z) : bool :=
  negb (call_used_or_fixed_reg_p regno) && df_regs_ever_live_p regno.

Definition rtype_regnos (rtype : Z) : list Z :=
  map (fun k => 32 + rtype * 64 + Z.of_nat k) (seq 0 32).
Definition save_mode (rtype : Z) : machine_mode := if 1 <? rtype then DFmode else DImode.
(** The loops' pairs of rtype and regno, in the order of the prologue. *)
Definition saved_regnos : list (Z * Z) :=
  flat_map (fun rtype => map (pair rtype) (rtype_regnos rtype)) [0; 1; 2].

Definition save_step (off : Z) (acc : Z * list insn) (r : Z * Z) : Z * list insn :=
  let '(n, insns) := acc in
  let '(rtype, regno) := r in
  if dadao_call_saved_reg_p regno then
    (n + 1, insns ++ [(MEM (save_mode rtype) (plus_constant stack_pointer_rtx (off + -8 * (n + 1))),
                       REG (save_mode rtype) regno)])%list
  else acc.
Definition dadao_expand_prologue (f : function_info) : list insn :=
  let fsize := frame_size f in
  let off := if frame_pointer_needed f then -8 else 0 in
  let save_fp := when_fp f [(MEM Pmode (plus_constant stack_pointer_rtx off), frame_pointer_rtx)] in
  let '(n, saves) := foldl (save_step off) (0, []) saved_regnos in
  let off := off - n * UNITS_PER_WORD - pretend_args_size f in
  (save_fp ++ saves ++ when_nz off (add_sp off)
   ++ when_fp f [(frame_pointer_rtx, stack_pointer_rtx)]
   ++ when_nz fsize (add_sp (-fsize)))%list.

Definition restore_step (acc : Z * list insn) (r : Z * Z) : Z * list insn :=
  let '(n, insns) := acc in
  let '(rtype, regno) := r in
  if dadao_call_saved_reg_p regno then
    (n + 1, insns ++ [(REG (save_mode rtype) regno,
                       MEM (save_mode rtype) (plus_constant stack_pointer_rtx (8 * n)))])%list
  else acc.
(** The loops of the epilogue run through the registers backwards. *)
Definition dadao_expand_epilogue (f : function_info) : list insn :=
  let size := frame_size f + pretend_args_size f in
  let '(n, restores) := foldl restore_step (0, []) (reverse saved_regnos) in
  (when_nz size (add_sp (s32 size))
   ++ restores ++ when_nz n (add_sp (n * 8))
   ++ when_fp f [(frame_pointer_rtx, MEM Pmode stack_pointer_rtx); add_sp 8])%list.
End Frame.

(** ** Running the instructions *)
Record machine := Machine { m_reg : Z -> Z; m_byte : Z -> Z }.

(** Little-endian (BYTES_BIG_ENDIAN is 0); addresses wrap at 2^64. *)
Fixpoint load (n : nat) (a : Z) (m : Z -> Z) : Z :=
  match n with O => 0 | S n => m (w64 a) + 256 * load n (a + 1) m end.
Definition store (size a v : Z) (m : Z -> Z) : Z -> Z := fun x =>
  let d := w64 (x - a) in if d <? size then v / 2^(8 * d) mod 256 else m x.
Definition set_m_reg (regno v : Z) (s : machine) : machine :=
  Machine (fun r => if r =? regno then v else m_reg s r) (m_byte s).

Fixpoint eval (s : machine) (x : rtx) : option Z :=
  match x with
  | REG _ n => Some (m_reg s n)
  | CONST_INT c => Some (w64 c)
  | PLUS x y => a ← eval s x; b ← eval s y; Some (w64 (a + b))
  | MEM mode x => a ← eval s x; Some (load (Z.to_nat (GET_MODE_SIZE mode)) a (m_byte s))
  | _ => None
  end.
Definition run_set (s : machine) (i : insn) : option machine :=
  v ← eval s (snd i);
  match fst i with
  | REG _ n => Some (set_m_reg n v s)
  | MEM mode x => a ← eval s x; Some (Machine (m_reg s) (store (GET_MODE_SIZE mode) a v (m_byte s)))
  | _ => None
  end.
Fixpoint run_sets (s : machine) (l : list insn) : option machine :=
  match l with [] => Some s | i :: l => s' ← run_set s i; run_sets s' l end.
