(* ===== verification/GccFrameProps.v ===== *)
(** The prologue and the epilogue: what they save, restore and leave, and the
    pointers that register elimination computes. *)
From S2P Require Import Prelude Gcc GccFrame.

(** ** The byte memory *)
Lemma w64_sub_l x y : w64 (w64 x - y) = w64 (x - y).
Proof. apply Zminus_mod_idemp_l. Qed.
Lemma w64_sub_r x y : w64 (x - w64 y) = w64 (x - y).
Proof. apply Zminus_mod_idemp_r. Qed.
#[export] Hint Rewrite w64_sub_l w64_sub_r : word.

Definition same_bytes (base len : Z) (m m' : Z -> Z) : Prop :=
  forall d, 0 <= d < len -> m' (w64 (base + d)) = m (w64 (base + d)).

Lemma load_w64 n a m : load n (w64 a) m = load n a m.
Proof.
  enough (H : forall a b, w64 a = w64 b -> load n a m = load n b m) by apply H, w64_w64.
  clear a. induction n as [|n IH]; intros a b Hab; [done|]. cbn [load]. rewrite Hab. do 2 f_equal.
  apply IH. rewrite <- (w64_add_l a), Hab. apply w64_add_l.
Qed.
Lemma load_same a m m' : same_bytes a 8 m m' -> load 8 a m' = load 8 a m.
Proof.
  intros H. cbn [load]. repeat f_equal; rewrite <- ?Z.add_assoc; [|apply (H _); lia..].
  rewrite <- (Z.add_0_r a). apply H. lia.
Qed.
Lemma store_in a v m d : 0 <= d < 8 -> store 8 a v m (w64 (a + d)) = v / 2^(8 * d) mod 256.
Proof.
  intros Hd. unfold store. rewrite w64_sub_l. replace (a + d - a) with d by lia.
  rewrite w64_id by lia. by rewrite (proj2 (Z.ltb_lt d 8)) by lia.
Qed.
Lemma store_out a v m b : 8 <= w64 (b - a) -> store 8 a v m (w64 b) = m (w64 b).
Proof. intros H. unfold store. rewrite w64_sub_l. by destruct (Z.ltb_spec (w64 (b - a)) 8); [lia|]. Qed.
Lemma load_store_part a v m n d : 0 <= d -> d + Z.of_nat n <= 8 ->
  load n (a + d) (store 8 a v m) = v / 2^(8 * d) mod 2^(8 * Z.of_nat n).
Proof.
  revert d. induction n as [|n IH]; intros d Hd Hn; [by rewrite Z.mod_1_r|].
  cbn [load]. rewrite store_in, <- Z.add_assoc, IH by lia.
  replace (8 * Z.of_nat (S n)) with (8 + 8 * Z.of_nat n) by lia.
  replace (8 * (d + 1)) with (8 * d + 8) by lia. rewrite !Z.pow_add_r by lia.
  rewrite Z.rem_mul_r, Z.div_div by lia. done.
Qed.
Lemma load_store a v m : 0 <= v < 2^64 -> load 8 a (store 8 a v m) = v.
Proof.
  intros Hv. rewrite <- (Z.add_0_r a) at 1. rewrite load_store_part by lia.
  rewrite Z.div_1_r. by apply Z.mod_small.
Qed.

Lemma set_m_reg_eq n v s : m_reg (set_m_reg n v s) n = v.
Proof. cbn. by rewrite Z.eqb_refl. Qed.
Lemma set_m_reg_ne n v s r : r <> n -> m_reg (set_m_reg n v s) r = m_reg s r.
Proof. intros H. cbn. by rewrite (proj2 (Z.eqb_neq _ _)). Qed.

(** ** The lists of saves and restores *)
Lemma run_sets_app s l1 l2 : run_sets s (l1 ++ l2) = run_sets s l1 ≫= (fun s => run_sets s l2).
Proof. revert s. induction l1 as [|i l1 IH]; intros s; [done|]. cbn. destruct (run_set s i); [apply IH|done]. Qed.
Lemma eval_plus_constant s mode r c : 0 <= m_reg s r < 2^64 ->
  eval s (plus_constant (REG mode r) c) = Some (w64 (m_reg s r + c)).
Proof.
  intros Hr. unfold plus_constant. destruct (Z.eqb_spec c 0) as [->|].
  - by rewrite Z.add_0_r, w64_id.
  - cbn. by rewrite w64_add_r.
Qed.

Notation sp_of s := (m_reg s DADAO_STACK_POINTER_REGNUM).
Notation fp_of s := (m_reg s DADAO_FRAME_POINTER_REGNUM).

Lemma run_when_nz s c c' : 0 <= sp_of s < 2^64 -> (c = 0 -> c' = 0) ->
  exists s', run_sets s (when_nz c (add_sp c')) = Some s' /\ m_byte s' = m_byte s /\
    sp_of s' = w64 (sp_of s + c') /\
    forall r, r <> DADAO_STACK_POINTER_REGNUM -> m_reg s' r = m_reg s r.
Proof.
  intros Hs Hc. unfold when_nz. destruct (Z.eqb_spec c 0) as [->|].
  - exists s. by rewrite Hc, Z.add_0_r, w64_id.
  - eexists. split; [reflexivity|]. split; [done|]. split.
    + cbn. by rewrite w64_add_r.
    + intros r Hr. by apply set_m_reg_ne.
Qed.

Section Lists.
Variable live : Z -> bool.

Definition saved (r : Z * Z) : Prop := dadao_call_saved_reg_p live r.2 = true.
#[export] Instance saved_dec r : Decision (saved r).
Proof. unfold saved. apply _. Defined.
Definition spill (off n : Z) (r : Z * Z) : insn :=
  (MEM (save_mode r.1) (plus_constant stack_pointer_rtx (off + -8 * (n + 1))), REG (save_mode r.1) r.2).
Definition reload (n : Z) (r : Z * Z) : insn :=
  (REG (save_mode r.1) r.2, MEM (save_mode r.1) (plus_constant stack_pointer_rtx (8 * n))).
Fixpoint numbered (g : Z -> Z * Z -> insn) (n : Z) (l : list (Z * Z)) : list insn :=
  match l with [] => [] | r :: l => g n r :: numbered g (n + 1) l end.

Lemma fold_numbered (step : Z * list insn -> Z * Z -> Z * list insn) g rs n l :
  (forall n l r, step (n, l) r =
     if dadao_call_saved_reg_p live r.2 then (n + 1, l ++ [g n r])%list else (n, l)) ->
  foldl step (n, l) rs = (n + Z.of_nat (length (filter saved rs)), l ++ numbered g n (filter saved rs))%list.
Proof.
  intros Hs. revert n l. induction rs as [|r rs IH]; intros n l.
  - cbn. by rewrite Z.add_0_r, app_nil_r.
  - cbn [foldl]. rewrite Hs, filter_cons. destruct (decide (saved r)) as [H|H]; unfold saved in H.
    + rewrite H, IH. cbn [length numbered]. rewrite <- app_assoc. f_equal. lia.
    + by rewrite (not_true_is_false _ H), IH.
Qed.

Lemma save_mode_size rtype : GET_MODE_SIZE (save_mode rtype) = 8.
Proof. unfold save_mode. by destruct (1 <? rtype). Qed.

Lemma run_spill s off n r : 0 <= sp_of s < 2^64 ->
  run_set s (spill off n r)
  = Some (Machine (m_reg s) (store 8 (w64 (sp_of s + (off + -8 * (n + 1)))) (m_reg s r.2) (m_byte s))).
Proof.
  intros Hr. unfold run_set, spill, stack_pointer_rtx. cbn [fst snd eval mbind option_bind].
  rewrite eval_plus_constant by done. cbn [mbind option_bind]. by rewrite save_mode_size.
Qed.
Lemma run_reload s n r : 0 <= sp_of s < 2^64 ->
  run_set s (reload n r) = Some (set_m_reg r.2 (load 8 (sp_of s + 8 * n) (m_byte s)) s).
Proof.
  intros Hr. unfold run_set, reload, stack_pointer_rtx. cbn [fst snd eval mbind option_bind].
  rewrite eval_plus_constant by done. cbn [mbind option_bind]. by rewrite save_mode_size, load_w64.
Qed.

(** Where the [k]-th saved register is, below the stack pointer on entry. *)
Lemma run_spills off l n s :
  (forall r, 0 <= m_reg s r < 2^64) -> 0 <= n -> n + Z.of_nat (length l) <= 96 ->
  exists m, run_sets s (numbered (spill off) n l) = Some (Machine (m_reg s) m) /\
    (forall k r, l !! k = Some r ->
       load 8 (sp_of s + off - 8 * (n + Z.of_nat k + 1)) m = m_reg s r.2) /\
    same_bytes (sp_of s + off - 8 * n) (2^64 - 8 * Z.of_nat (length l)) (m_byte s) m.
Proof.
  revert n s. induction l as [|r l IH]; intros n s Hr Hn Hl.
  - exists (m_byte s). by destruct s.
  - cbn [length] in Hl. cbn [numbered run_sets]. rewrite run_spill by done. cbn [mbind option_bind].
    set (s1 := Machine _ _). destruct (IH (n + 1) s1) as (m & Hrun & Hload & Hsame); [done|lia..|].
    exists m. split; [done|]. cbn [m_reg m_byte s1] in Hload, Hsame. split.
    + intros k r' Hk. destruct k as [|k]; cbn in Hk.
      * injection Hk as ->. rewrite (load_same _ (m_byte s1)).
        -- cbn [m_byte s1]. rewrite <- load_w64.
           replace (sp_of s + off - 8 * (n + Z.of_nat 0 + 1)) with (sp_of s + (off + -8 * (n + 1))) by lia.
           by apply load_store.
        -- intros d Hd. replace (n + Z.of_nat 0 + 1) with (n + 1) by lia. apply Hsame. lia.
      * rewrite <- (Hload k r' Hk). f_equal; lia.
    + intros d Hd. cbn [length] in Hd.
      replace (sp_of s + off - 8 * n + d) with (sp_of s + off - 8 * (n + 1) + (d + 8)) by lia.
      rewrite Hsame by lia. cbn [s1 m_byte]. apply store_out.
      rewrite w64_sub_r. match goal with |- _ <= w64 ?x => replace x with (d + 8) by lia end.
      rewrite w64_id by lia. lia.
Qed.

Lemma run_reloads l n s :
  0 <= sp_of s < 2^64 -> NoDup l.*2 -> DADAO_STACK_POINTER_REGNUM ∉ l.*2 ->
  exists s', run_sets s (numbered reload n l) = Some s' /\ m_byte s' = m_byte s /\
    (forall k r, l !! k = Some r ->
       m_reg s' r.2 = load 8 (sp_of s + 8 * (n + Z.of_nat k)) (m_byte s)) /\
    (forall r, r ∉ l.*2 -> m_reg s' r = m_reg s r).
Proof.
  revert n s. induction l as [|r l IH]; intros n s Hr Hd Hsp; [by exists s|].
  cbn [fmap list_fmap] in Hd, Hsp. apply NoDup_cons in Hd as [Hn Hd].
  apply not_elem_of_cons in Hsp as [Hne Hsp].
  cbn [numbered run_sets]. rewrite run_reload by done. cbn [mbind option_bind].
  set (s1 := set_m_reg _ _ _). assert (Hsp1 : sp_of s1 = sp_of s).
  { by apply set_m_reg_ne. }
  destruct (IH (n + 1) s1) as (s' & Hrun & Hb & Hload & Hsame); [by rewrite Hsp1|done..|].
  exists s'. split; [done|]. split; [done|]. split.
  - intros k r' Hk. destruct k as [|k]; cbn in Hk.
    + injection Hk as ->. rewrite Hsame by done. unfold s1. by rewrite set_m_reg_eq, Z.add_0_r.
    + rewrite (Hload k r' Hk), Hsp1. cbn [m_byte s1 set_m_reg]. f_equal; lia.
  - intros x Hx. apply not_elem_of_cons in Hx as [Hx1 Hx2]. rewrite Hsame by done.
    by apply set_m_reg_ne.
Qed.
End Lists.

(** ** The registers the loops save *)
Lemma saved_regnos_ok :
  NoDup saved_regnos.*2 /\ DADAO_STACK_POINTER_REGNUM ∉ saved_regnos.*2 /\
  DADAO_FRAME_POINTER_REGNUM ∉ saved_regnos.*2 /\ length saved_regnos = 96%nat /\
  Forall (fun k => call_used_or_fixed_reg_p (Z.of_nat k) = false -> Z.of_nat k ∈ saved_regnos.*2) (seq 0 256).
Proof. apply (bool_decide_unpack _). vm_compute. done. Qed.
Lemma saved_regnos_cover r :
  0 <= r < FIRST_PSEUDO_REGISTER -> call_used_or_fixed_reg_p r = false -> r ∈ saved_regnos.*2.
Proof.
  intros Hr Hc. destruct saved_regnos_ok as (_ & _ & _ & _ & H). rewrite Forall_forall in H.
  unfold FIRST_PSEUDO_REGISTER in Hr. specialize (H (Z.to_nat r)). rewrite Z2Nat.id in H by lia.
  apply H; [|done]. apply elem_of_seq. lia.
Qed.

Section Frames.
Variable live : Z -> bool.
Definition callee_saved : list (Z * Z) := filter (saved live) saved_regnos.
Definition fp_area (f : function_info) : Z := if frame_pointer_needed f then 8 else 0.
(** What the prologue saves on the stack. *)
Definition save_area (f : function_info) : Z := fp_area f + 8 * Z.of_nat (length callee_saved).

Lemma callee_saved_length : Z.of_nat (length callee_saved) <= 96.
Proof.
  destruct saved_regnos_ok as (_ & _ & _ & H & _). unfold callee_saved.
  pose proof (length_filter (saved live) saved_regnos). lia.
Qed.
Lemma callee_saved_nodup : NoDup callee_saved.*2.
Proof.
  destruct saved_regnos_ok as (H & _). unfold callee_saved. apply (sublist_NoDup _ _ H).
  apply fmap_sublist, sublist_filter.
Qed.
Lemma callee_saved_sub r : r ∈ callee_saved.*2 -> r ∈ saved_regnos.*2.
Proof. intros H. eapply elem_of_sublist; [exact H|]. apply fmap_sublist, sublist_filter. Qed.
Lemma callee_saved_elem r : 0 <= r < FIRST_PSEUDO_REGISTER ->
  call_used_or_fixed_reg_p r = false -> live r = true -> r ∈ callee_saved.*2.
Proof.
  intros Hr Hc Hl. pose proof (saved_regnos_cover r Hr Hc) as Hin.
  apply list_elem_of_fmap in Hin as ([t r'] & Heq & Hin). cbn in Heq. subst r'.
  apply list_elem_of_fmap. exists (t, r). split; [done|].
  apply list_elem_of_filter. split; [|done]. unfold saved, dadao_call_saved_reg_p. cbn. by rewrite Hc, Hl.
Qed.

Lemma prologue_eq f : dadao_expand_prologue live f =
  (when_fp f [(MEM Pmode (plus_constant stack_pointer_rtx (-8)), frame_pointer_rtx)]
   ++ numbered (spill (- fp_area f)) 0 callee_saved
   ++ when_nz (- save_area f - pretend_args_size f) (add_sp (- save_area f - pretend_args_size f))
   ++ when_fp f [(frame_pointer_rtx, stack_pointer_rtx)]
   ++ when_nz (frame_size f) (add_sp (- frame_size f)))%list.
Proof.
  unfold dadao_expand_prologue.
  rewrite (fold_numbered live _ (spill (- fp_area f))); [|intros n l [t r]; unfold fp_area; by destruct (frame_pointer_needed f)].
  fold callee_saved. cbn [app Z.add].
  replace ((if frame_pointer_needed f then -8 else 0) - _ * UNITS_PER_WORD - pretend_args_size f)
    with (- save_area f - pretend_args_size f)
    by (unfold save_area, fp_area, UNITS_PER_WORD; destruct (frame_pointer_needed f); lia).
  unfold when_fp, fp_area. by destruct (frame_pointer_needed f).
Qed.
Lemma epilogue_eq f : dadao_expand_epilogue live f =
  (when_nz (frame_size f + pretend_args_size f) (add_sp (s32 (frame_size f + pretend_args_size f)))
   ++ numbered reload 0 (reverse callee_saved)
   ++ when_nz (Z.of_nat (length callee_saved)) (add_sp (8 * Z.of_nat (length callee_saved)))
   ++ when_fp f [(frame_pointer_rtx, MEM Pmode stack_pointer_rtx); add_sp 8])%list.
Proof.
  unfold dadao_expand_epilogue. rewrite (fold_numbered live _ reload); [|by intros n l [t r]].
  rewrite filter_reverse. fold callee_saved. rewrite length_reverse, Z.add_0_l.
  by rewrite (Z.mul_comm 8).
Qed.

Lemma run_save_fp f s : 0 <= sp_of s < 2^64 -> 0 <= fp_of s < 2^64 ->
  exists m, run_sets s (when_fp f [(MEM Pmode (plus_constant stack_pointer_rtx (-8)), frame_pointer_rtx)])
            = Some (Machine (m_reg s) m) /\
    (frame_pointer_needed f = true -> load 8 (sp_of s - 8) m = fp_of s) /\
    same_bytes (sp_of s) (2^64 - fp_area f) (m_byte s) m.
Proof.
  intros Hs Hf. unfold fp_area, when_fp. destruct (frame_pointer_needed f); [|by exists (m_byte s); destruct s].
  eexists. split; [reflexivity|]. split.
  - intros _. rewrite <- load_w64. unfold Z.sub. rewrite <- w64_add_r. by apply load_store.
  - intros d Hd. apply store_out. rewrite w64_sub_r, Z.sub_add_distr, w64_sub_r.
    match goal with |- _ <= w64 ?x => replace x with (d + 8) by lia end.
    rewrite w64_id by lia. lia.
Qed.
Lemma same_bytes_trans b l m1 m2 m3 : same_bytes b l m1 m2 -> same_bytes b l m2 m3 -> same_bytes b l m1 m3.
Proof. intros H1 H2 d Hd. by rewrite H2, H1. Qed.
Lemma same_bytes_sub b l b' l' m m' : same_bytes b l m m' -> b <= b' -> b' + l' <= b + l -> same_bytes b' l' m m'.
Proof. intros H Hb Hl d Hd. replace (b' + d) with (b + (b' - b + d)) by lia. apply H. lia. Qed.

Lemma run_fp_restore f s : 0 <= sp_of s < 2^64 -> exists s',
  run_sets s (when_fp f [(frame_pointer_rtx, MEM Pmode stack_pointer_rtx); add_sp 8]) = Some s' /\
  m_byte s' = m_byte s /\ sp_of s' = w64 (sp_of s + fp_area f) /\
  (frame_pointer_needed f = true -> fp_of s' = load 8 (sp_of s) (m_byte s)) /\
  forall r, r <> DADAO_STACK_POINTER_REGNUM ->
    (r = DADAO_FRAME_POINTER_REGNUM -> frame_pointer_needed f = false) -> m_reg s' r = m_reg s r.
Proof.
  intros Hs. unfold when_fp, fp_area. destruct (frame_pointer_needed f).
  - eexists. split; [reflexivity|]. split; [done|]. split; [done|]. split; [done|].
    intros r H1 H2. rewrite !set_m_reg_ne; [done| |done]. intros Heq. by specialize (H2 Heq).
  - exists s. rewrite Z.add_0_r, w64_id by done. done.
Qed.
Lemma run_fp_from_sp f s : exists s',
  run_sets s (when_fp f [(frame_pointer_rtx, stack_pointer_rtx)]) = Some s' /\
  m_byte s' = m_byte s /\ sp_of s' = sp_of s /\ (frame_pointer_needed f = true -> fp_of s' = sp_of s) /\
  forall r, (r = DADAO_FRAME_POINTER_REGNUM -> frame_pointer_needed f = false) -> m_reg s' r = m_reg s r.
Proof.
  unfold when_fp. destruct (frame_pointer_needed f).
  - eexists. split; [reflexivity|]. repeat split. intros r Hr. apply set_m_reg_ne.
    intros Heq. by specialize (Hr Heq).
  - by exists s.
Qed.

Definition saved_in (f : function_info) (s : machine) (m : Z -> Z) : Prop :=
  (forall k r, callee_saved !! k = Some r ->
     load 8 (sp_of s - fp_area f - 8 * (Z.of_nat k + 1)) m = m_reg s r.2) /\
  (frame_pointer_needed f = true -> load 8 (sp_of s - 8) m = fp_of s).

Lemma prologue_runs f s : (forall r, 0 <= m_reg s r < 2^64) ->
  exists s1, run_sets s (dadao_expand_prologue live f) = Some s1 /\
    sp_of s1 = w64 (sp_of s - save_area f - pretend_args_size f - frame_size f) /\
    (frame_pointer_needed f = true -> fp_of s1 = w64 (sp_of s - save_area f - pretend_args_size f)) /\
    (forall r, r <> DADAO_STACK_POINTER_REGNUM ->
       (r = DADAO_FRAME_POINTER_REGNUM -> frame_pointer_needed f = false) -> m_reg s1 r = m_reg s r) /\
    saved_in f s (m_byte s1) /\
    same_bytes (sp_of s) (2^64 - save_area f) (m_byte s) (m_byte s1).
Proof.
  intros Hr. pose proof callee_saved_length as Hn.
  assert (Hfa : fp_area f = 0 \/ fp_area f = 8) by (unfold fp_area; destruct (frame_pointer_needed f); auto).
  rewrite prologue_eq, !run_sets_app.
  destruct (run_save_fp f s) as (m & -> & Hfp & Hm); [done..|]. cbn [mbind option_bind].
  rewrite run_sets_app.
  destruct (run_spills (- fp_area f) callee_saved 0 (Machine (m_reg s) m)) as (m' & -> & Hld & Hm');
    [done|lia..|]. cbn [mbind option_bind m_reg m_byte] in *. rewrite run_sets_app.
  set (off := - save_area f - pretend_args_size f).
  destruct (run_when_nz (Machine (m_reg s) m') off off) as (s2 & -> & Hb2 & Hs2 & Hr2); [apply Hr|done|].
  cbn [mbind option_bind m_reg m_byte] in *. rewrite run_sets_app.
  destruct (run_fp_from_sp f s2) as (s3 & -> & Hb3 & Hs3 & Hf3 & Hr3). cbn [mbind option_bind].
  destruct (run_when_nz s3 (frame_size f) (- frame_size f)) as (s4 & -> & Hb4 & Hs4 & Hr4).
  { rewrite Hs3, Hs2. apply w64_range. }
  { lia. }
  exists s4. split; [done|]. split; [|split; [|split; [|split; [split|]]]].
  - rewrite Hs4, Hs3, Hs2, w64_add_l. f_equal. lia.
  - intros H. rewrite Hr4, Hf3, Hs2 by done. f_equal. lia.
  - intros r H1 H2. by rewrite Hr4, Hr3, Hr2.
  - intros k r Hk. rewrite Hb4, Hb3, Hb2, <- (Hld k r Hk). f_equal; lia.
  - intros H. rewrite Hb4, Hb3, Hb2, <- (Hfp H). apply load_same.
    unfold fp_area in *. rewrite H in *. apply (same_bytes_sub _ _ _ _ _ _ Hm'); lia.
  - rewrite Hb4, Hb3, Hb2. unfold save_area. apply (same_bytes_trans _ _ _ m).
    + apply (same_bytes_sub _ _ _ _ _ _ Hm); lia.
    + apply (same_bytes_sub _ _ _ _ _ _ Hm'); lia.
Qed.

Lemma epilogue_runs f s : (forall r, 0 <= m_reg s r < 2^64) ->
  - 2^31 <= frame_size f + pretend_args_size f < 2^31 ->
  let base := sp_of s + frame_size f + pretend_args_size f in
  let n := Z.of_nat (length callee_saved) in
  exists s1, run_sets s (dadao_expand_epilogue live f) = Some s1 /\
    m_byte s1 = m_byte s /\
    sp_of s1 = w64 (base + save_area f) /\
    (frame_pointer_needed f = true -> fp_of s1 = load 8 (base + 8 * n) (m_byte s)) /\
    (forall k r, callee_saved !! k = Some r ->
       m_reg s1 r.2 = load 8 (base + 8 * (n - 1 - Z.of_nat k)) (m_byte s)) /\
    (forall r, r ∉ callee_saved.*2 -> r <> DADAO_STACK_POINTER_REGNUM ->
       (r = DADAO_FRAME_POINTER_REGNUM -> frame_pointer_needed f = false) -> m_reg s1 r = m_reg s r).
Proof.
  intros Hr Hsz base n. pose proof callee_saved_length as Hn.
  destruct saved_regnos_ok as (_ & Hsp & Hfp & _).
  assert (Hsp' : DADAO_STACK_POINTER_REGNUM ∉ (reverse callee_saved).*2).
  { rewrite fmap_reverse, elem_of_reverse. by intros ?%callee_saved_sub. }
  rewrite epilogue_eq, !run_sets_app. fold n.
  set (size := frame_size f + pretend_args_size f) in *.
  destruct (run_when_nz s size (s32 size)) as (s1 & -> & Hb1 & Hs1 & Hr1); [apply Hr|by intros ->|].
  cbn [mbind option_bind]. rewrite run_sets_app. unfold s32 in Hs1. rewrite sext_id in Hs1 by lia.
  destruct (run_reloads (reverse callee_saved) 0 s1) as (s2 & -> & Hb2 & Hl2 & Hr2).
  { rewrite Hs1. apply w64_range. }
  { rewrite fmap_reverse, reverse_Permutation. apply callee_saved_nodup. }
  { done. }
  cbn [mbind option_bind]. rewrite run_sets_app.
  assert (Hs2 : sp_of s2 = sp_of s1) by by apply Hr2.
  destruct (run_when_nz s2 n (8 * n)) as (s3 & -> & Hb3 & Hs3 & Hr3); [rewrite Hs2, Hs1; apply w64_range|lia|].
  cbn [mbind option_bind].
  destruct (run_fp_restore f s3) as (s4 & -> & Hb4 & Hs4 & Hf4 & Hr4); [rewrite Hs3; apply w64_range|].
  assert (Hs3' : sp_of s3 = w64 (base + 8 * n)).
  { rewrite Hs3, Hs2, Hs1, w64_add_l. f_equal. unfold base, size. lia. }
  exists s4. split; [done|]. split; [by rewrite Hb4, Hb3, Hb2|]. split; [|split; [|split]].
  - rewrite Hs4, Hs3', w64_add_l. f_equal. unfold save_area. fold n. lia.
  - intros H. by rewrite Hf4, Hs3', load_w64, Hb3, Hb2, Hb1.
  - intros k r Hk. pose proof (lookup_lt_Some _ _ _ Hk) as Hlt.
    assert (Hin : r.2 ∈ callee_saved.*2).
    { apply list_elem_of_fmap. exists r. split; [done|]. by eapply list_elem_of_lookup_2. }
    rewrite Hr4, Hr3; try (intros He; by rewrite He in Hin; apply callee_saved_sub in Hin).
    rewrite (Hl2 (length callee_saved - S k)%nat r).
    + rewrite Hs1, Hb1, <- (load_w64 _ (base + _)). rewrite <- load_w64, w64_add_l. do 2 f_equal.
      unfold base, size, n. lia.
    + apply reverse_lookup_Some. split; [|lia]. rewrite <- Hk. f_equal. lia.
  - intros r H1 H2 H3. rewrite Hr4, Hr3, Hr2, Hr1; try done. by rewrite fmap_reverse, elem_of_reverse.
Qed.
End Frames.

(** ** Properties *)

(** C18: The epilogue undoes the prologue.  Whatever the body of the function
    does in between, as long as it leaves the stack pointer and the saved
    bytes alone and does not touch a call-saved register the allocator calls
    dead, the caller finds its stack pointer, its frame pointer and each of
    the call-saved registers of dadao.h unchanged; and the prologue writes
    nothing at or above the caller's stack pointer. *)
Theorem epilogue_restores live f s s2 :
  (forall r, 0 <= m_reg s r < 2^64) -> (forall r, 0 <= m_reg s2 r < 2^64) ->
  0 <= frame_size f -> 0 <= pretend_args_size f -> frame_size f + pretend_args_size f < 2^31 ->
  exists s1, run_sets s (dadao_expand_prologue live f) = Some s1 /\
    same_bytes (sp_of s) (2^64 - save_area live f) (m_byte s) (m_byte s1) /\
    (sp_of s2 = sp_of s1 ->
     same_bytes (sp_of s - save_area live f) (save_area live f) (m_byte s1) (m_byte s2) ->
     (forall r, call_used_or_fixed_reg_p r = false -> live r = false -> m_reg s2 r = m_reg s1 r) ->
     (frame_pointer_needed f = false -> fp_of s2 = fp_of s1) ->
     exists s3, run_sets s2 (dadao_expand_epilogue live f) = Some s3 /\
       sp_of s3 = sp_of s /\ fp_of s3 = fp_of s /\ m_byte s3 = m_byte s2 /\
       forall r, 0 <= r < FIRST_PSEUDO_REGISTER -> call_used_or_fixed_reg_p r = false ->
         m_reg s3 r = m_reg s r).
Proof.
  intros Hs Hs2 Hfs Hpa Hsz. destruct saved_regnos_ok as (_ & _ & Hnfp & _).
  destruct (prologue_runs live f s Hs) as (s1 & Hr1 & Hsp1 & Hfp1 & Hreg1 & [Hl1 Hlf] & Hb1).
  exists s1. split; [done|]. split; [done|]. intros Hsp Hsame Hdead Hfp.
  destruct (epilogue_runs live f s2 Hs2) as (s3 & Hr3 & Hb3 & Hsp3 & Hfp3 & Hl3 & Hreg3); [lia|].
  set (n := Z.of_nat (length (callee_saved live))) in *.
  assert (Hbase : forall c, w64 (sp_of s2 + frame_size f + pretend_args_size f + c)
                            = w64 (sp_of s - save_area live f + c)).
  { intros c. rewrite Hsp, Hsp1, <- !Z.add_assoc, w64_add_l. f_equal. lia. }
  assert (Hload : forall c, 0 <= c -> c + 8 <= save_area live f ->
    load 8 (sp_of s2 + frame_size f + pretend_args_size f + c) (m_byte s3)
    = load 8 (sp_of s - save_area live f + c) (m_byte s1)).
  { intros c Hc1 Hc2. rewrite Hb3, <- load_w64, Hbase, load_w64. apply load_same.
    apply (same_bytes_sub _ _ _ _ _ _ Hsame); lia. }
  exists s3. split; [done|]. split; [|split; [|split; [done|]]].
  - rewrite Hsp3, Hbase, Z.sub_add. by apply w64_id.
  - destruct (frame_pointer_needed f) eqn:E.
    + assert (Ha : save_area live f = 8 + 8 * n) by (unfold save_area, fp_area; by rewrite E).
      rewrite Hfp3, <- Hb3, Hload by (done || lia). rewrite <- Hlf by done. f_equal. lia.
    + rewrite Hreg3, Hfp, Hreg1; try done. by intros ?%callee_saved_sub.
  - intros r Hr Hc. assert (Hne : r <> DADAO_STACK_POINTER_REGNUM /\ r <> DADAO_FRAME_POINTER_REGNUM).
    { split; intros ->; vm_compute in Hc; done. }
    destruct Hne as [Hne1 Hne2]. destruct (live r) eqn:El.
    + pose proof (callee_saved_elem live r Hr Hc El) as Hin.
      apply list_elem_of_fmap in Hin as ([t r'] & -> & [k Hk]%list_elem_of_lookup_1). cbn [snd] in *.
      pose proof (lookup_lt_Some _ _ _ Hk) as Hlt.
      pose proof (Hl3 _ _ Hk) as Hv3. pose proof (Hl1 _ _ Hk) as Hv1. cbn [snd] in Hv3, Hv1.
      rewrite Hv3, <- Hb3, Hload.
      * rewrite <- Hv1. f_equal. unfold save_area. fold n. lia.
      * unfold n. lia.
      * unfold save_area, fp_area. fold n. destruct (frame_pointer_needed f); lia.
    + rewrite Hreg3, Hdead, Hreg1; try done.
      intros ([t r'] & Heq & Hin)%list_elem_of_fmap. cbn in Heq. subst r'.
      apply list_elem_of_filter in Hin as [Hin _]. unfold saved, dadao_call_saved_reg_p in Hin.
      cbn in Hin. by rewrite El, andb_false_r in Hin.
Qed.

Lemma round8_eq x : round8 x = 8 * ((x + 7) / 8).
Proof.
  unfold round8. rewrite <- Z.ldiff_land, ldiff_sub_land, (land_mask _ 7 3) by (lia || done).
  change (2^3) with 8. Z.div_mod_to_equations. lia.
Qed.
Lemma w64_eq_shift a b c : 0 <= b < 2^64 -> 0 <= c < 2^64 -> w64 (a + b) = w64 (a + c) -> b = c.
Proof.
  intros Hb Hc H. apply (f_equal (fun x => w64 (x - a))) in H. rewrite !w64_sub_l in H.
  replace (a + b - a) with b in H by lia. replace (a + c - a) with c in H by lia.
  by rewrite !w64_id in H.
Qed.

(** What register elimination assumes of the frame.  The distance from
    the stack pointer to the frame pointer that dadao_initial_elimination_offset
    computes is the one the prologue leaves exactly when the function has no
    outgoing stack arguments and its frame is a multiple of eight bytes: the
    prologue allocates no outgoing area.  The argument pointer is taken to be
    the frame pointer; the caller's stack pointer, where the stack arguments
    are, lies above it by all that the prologue saved. *)
Theorem elimination_offsets live f s :
  (forall r, 0 <= m_reg s r < 2^64) -> frame_pointer_needed f = true ->
  0 <= frame_size f -> 0 <= pretend_args_size f < 2^31 -> 0 <= outgoing_args_size f ->
  outgoing_args_size f + frame_size f < 2^31 - 8 ->
  let offset := dadao_initial_elimination_offset f in
  exists s1, run_sets s (dadao_expand_prologue live f) = Some s1 /\
    (fp_of s1 = w64 (sp_of s1 + offset DADAO_FRAME_POINTER_REGNUM DADAO_STACK_POINTER_REGNUM) <->
     outgoing_args_size f = 0 /\ frame_size f mod 8 = 0) /\
    let ap := w64 (fp_of s1 + offset DADAO_ARG_POINTER_REGNUM DADAO_FRAME_POINTER_REGNUM) in
    sp_of s = w64 (ap + (save_area live f + pretend_args_size f)) /\ ap <> sp_of s.
Proof.
  intros Hs Hfp Hf Hp Ho Hsz offset.
  destruct (prologue_runs live f s Hs) as (s1 & Hr1 & Hsp1 & Hfp1 & _). exists s1. split; [done|].
  specialize (Hfp1 Hfp). pose proof (callee_saved_length live) as Hn.
  assert (Ha : 8 <= save_area live f <= 776) by (unfold save_area, fp_area; rewrite Hfp; lia).
  split.
  - change (offset _ _) with (s32 (round8 (outgoing_args_size f + frame_size f))).
    rewrite round8_eq. unfold s32. rewrite sext_id by (lia || Z.div_mod_to_equations; lia).
    rewrite Hfp1, Hsp1, w64_add_l. set (x := sp_of s - _ - _). split.
    + intros H. replace x with (x - frame_size f + frame_size f) in H at 1 by lia.
      apply w64_eq_shift in H; [|lia|Z.div_mod_to_equations; lia].
      Z.div_mod_to_equations. lia.
    + intros [-> Hm]. f_equal. Z.div_mod_to_equations. lia.
  - change (offset _ _) with 0. cbv zeta. rewrite Z.add_0_r, Hfp1, w64_w64, w64_add_l.
    replace (sp_of s - save_area live f - pretend_args_size f + (save_area live f + pretend_args_size f))
      with (sp_of s) by lia. rewrite w64_id by done. split; [done|]. intros H.
    rewrite <- (w64_id (sp_of s)) in H at 2 by done.
    set (k := save_area live f + pretend_args_size f).
    replace (sp_of s) with (sp_of s - k + k) in H at 2 by lia.
    replace (sp_of s - save_area live f - pretend_args_size f) with (sp_of s - k + 0) in H by (unfold k; lia).
    apply w64_eq_shift in H; unfold k in *; lia.
Qed.

(** *** At a concrete function *)
Definition demo_machine : machine :=
  Machine (fun r => if r =? DADAO_STACK_POINTER_REGNUM then 0x8000 else w64 (r * 0x0101010101010101)) (fun _ => 0).
Lemma demo_machine_ok r : 0 <= m_reg demo_machine r < 2^64.
Proof. cbn. destruct (r =? DADAO_STACK_POINTER_REGNUM); [lia|apply w64_range]. Qed.
(** A function with 24 bytes of locals that uses rd32, rb33 and rf40. *)
Definition demo_live (r : Z) : bool := bool_decide (r ∈ [32; 97; 168]).
Definition demo_function (needed : bool) (outgoing : Z) : function_info :=
  Function false false true false 24 outgoing 0 needed true.
Definition clobbered (s : machine) : machine :=
  set_m_reg 32 1 (set_m_reg 97 2 (set_m_reg 168 3 s)).

Lemma epilogue_restores_witness : exists s1 s3,
  run_sets demo_machine (dadao_expand_prologue demo_live (demo_function true 0)) = Some s1 /\
  run_sets (clobbered s1) (dadao_expand_epilogue demo_live (demo_function true 0)) = Some s3 /\
  sp_of s3 = 0x8000 /\ m_reg s3 168 = m_reg demo_machine 168.
Proof.
  destruct (prologue_runs demo_live (demo_function true 0) demo_machine demo_machine_ok)
    as (s1 & H1 & H2 & H3 & H4 & _).
  assert (Hok : forall r, 0 <= m_reg (clobbered s1) r < 2^64).
  { intros r. unfold clobbered, set_m_reg. cbn [m_reg]. repeat (destruct (r =? _); [lia|]).
    destruct (Z.eq_dec r DADAO_STACK_POINTER_REGNUM) as [->|]; [rewrite H2; apply w64_range|].
    destruct (Z.eq_dec r DADAO_FRAME_POINTER_REGNUM) as [->|]; [rewrite H3 by reflexivity; apply w64_range|].
    rewrite H4; [apply demo_machine_ok|assumption|intros ?; contradiction]. }
  destruct (epilogue_restores demo_live (demo_function true 0) demo_machine (clobbered s1) demo_machine_ok Hok)
    as (s1' & H1' & _ & H); [cbn; lia..|].
  assert (s1' = s1) as -> by congruence.
  destruct H as (s3 & Hr3 & Hsp & _ & _ & Hregs).
  - reflexivity.
  - intros d Hd. reflexivity.
  - intros r Hc Hl. unfold clobbered. rewrite !set_m_reg_ne; [reflexivity|intros ->; vm_compute in Hl; discriminate..].
  - discriminate.
  - exists s1, s3. split; [exact H1|]. split; [exact Hr3|]. split; [exact Hsp|].
    apply Hregs; [unfold FIRST_PSEUDO_REGISTER; lia|reflexivity].
Defined.

Lemma elimination_offsets_witness : exists s1,
  run_sets demo_machine (dadao_expand_prologue demo_live (demo_function true 0)) = Some s1 /\
  fp_of s1 = w64 (sp_of s1 + dadao_initial_elimination_offset (demo_function true 0)
                               DADAO_FRAME_POINTER_REGNUM DADAO_STACK_POINTER_REGNUM).
Proof.
  destruct (elimination_offsets demo_live (demo_function true 0) demo_machine demo_machine_ok)
    as (s1 & H1 & [_ H2] & _); [reflexivity|cbn; lia..|].
  exists s1. split; [exact H1|]. apply H2. split; reflexivity.
Defined.

(** With 16 bytes of outgoing arguments the eliminated frame pointer is 16
    bytes off: locals are addressed in the caller-saved area. *)
Lemma outgoing_args_not_allocated : exists s1,
  run_sets demo_machine (dadao_expand_prologue demo_live (demo_function true 16)) = Some s1 /\
  sp_of s1 + dadao_initial_elimination_offset (demo_function true 16)
               DADAO_FRAME_POINTER_REGNUM DADAO_STACK_POINTER_REGNUM = fp_of s1 + 16.
Proof.
  destruct (prologue_runs demo_live (demo_function true 16) demo_machine demo_machine_ok)
    as (s1 & H1 & H2 & H3 & _).
  exists s1. split; [exact H1|]. rewrite H2, H3 by reflexivity. vm_compute. reflexivity.
Qed.

(** A leaf function that uses rd32 and has no frame may return simply, though
    its prologue has moved the stack pointer. *)
Definition simple_leaf : function_info := Function true false true false 0 0 0 false true.
Lemma simple_return_forgets_saves :
  dadao_use_simple_return simple_leaf = 1 /\
  dadao_expand_prologue (fun r => r =? 32) simple_leaf =
    [(MEM DImode (PLUS stack_pointer_rtx (CONST_INT (-8))), REG DImode 32); add_sp (-8)].
Proof. split; vm_compute; reflexivity. Qed.
