(* ===== verification/GccPrint.v ===== *)
(** Assembly output of gcc/config/dadao/dadao.c.

    What a function writes to asm_out_file is the string it returns; the
    printers of loads, stores and calls also return the template that gcc's
    output_asm_insn expands with the operands.  [None] is internal_error,
    fatal_insn, gcc_unreachable or REGNO of something that is not a register.
    gcc's output_addr_const is a parameter. *)
From stdpp Require Import pretty.
From Stdlib Require Import Ascii String.
From S2P Require Import Prelude Gcc.
Local Open Scope string_scope.
Local Open Scope Z_scope.

(** ** Formats *)
Definition tab : string := String "009"%char EmptyString.
Definition nl : string := String "010"%char EmptyString.
(** %d of a HOST_WIDE_INT argument prints its low 32 bits; PRId64 all of it. *)
Definition fmt_d (v : Z) : string := pretty (s32 v).
Definition fmt_ld (v : Z) : string := pretty v.
Fixpoint hex_digits (fuel : nat) (n : Z) : string :=
  let d := String.get (Z.to_nat (n mod 16)) "0123456789abcdef" in
  let s := match d with Some c => String c "" | None => "" end in
  match fuel with
  | O => s
  | S fuel => if n <? 16 then s else hex_digits fuel (n / 16) ++ s
  end.
(** Sixteen digits hold a 64-bit value. *)
Definition fmt_x (v : Z) : string := hex_digits 15 v.

Definition reg_name (regno : Z) : option string := zlookup REGISTER_NAMES regno.
Definition reg_of (x : rtx) : option string := n ← REGNO x; reg_name n.
Definition int_of (x : rtx) : option Z := match x with CONST_INT v => Some v | _ => None end.
Definition CONSTANT_P (x : rtx) : bool :=
  match x with
  | CONST_INT _ | CONST_DOUBLE _ _ _ | CONST _ | SYMBOL_REF _ | LABEL_REF _ | HIGH _ => true
  | _ => false
  end.
Definition in_class (x : rtx) (c : reg_class) : bool := _DD_LEGITIMATE_ADDR_GENERAL x c.

Section Print.
Variable output_addr_const : rtx -> string.
Variable real_to_target_double : Z -> Z -> Z * Z.
Variable real_to_target_single : Z -> Z -> Z.

(** ** Operands *)
Definition dadao_output_octa (value : Z) (do_begin_end : bool) : string :=
  (if do_begin_end then tab ++ ".dd.o64 " else "") ++
  (if ((value <? 0) && (-10000 <? value)) || ((0 <=? value) && (value <=? 16384)) then fmt_d value
   else if (0 <? value) && (value <? Z.shiftl 1 31 * 2) then "0x" ++ fmt_x (w32 value)
   else "0x" ++ fmt_x (w64 value)) ++
  (if do_begin_end then nl else "").

Definition dd_print_operand_address (x : rtx) : option string :=
  match x with
  | CONST_INT v => r ← reg_name 0; Some (r ++ ", " ++ fmt_d v)
  | REG _ n => r ← reg_name n; Some (r ++ ", 0")
  | PLUS x1 x2 =>
      if in_class x1 POINTER_REGS && in_class x2 GENERAL_REGS then
        r1 ← reg_of x1; r2 ← reg_of x2; Some (r1 ++ ", " ++ r2)
      else if in_class x2 POINTER_REGS && in_class x1 GENERAL_REGS then
        r2 ← reg_of x2; r1 ← reg_of x1; Some (r2 ++ ", " ++ r1)
      else if in_class x1 POINTER_REGS && satisfies_constraint_Id x2 then
        r1 ← reg_of x1; Some (r1 ++ ", " ++ output_addr_const x2)
      else None
  | _ => None
  end.
(** [code] is the letter of the operand's '%', 0 without one. *)
Definition dd_print_operand (x : rtx) (code : Z) : option string :=
  if negb (code =? 0) then None
  else match x with
  | REG _ regno => if FIRST_PSEUDO_REGISTER <=? regno then None else reg_name regno
  | MEM _ x => dd_print_operand_address x
  | CONST_INT v => Some (fmt_ld v)
  | CONST_DOUBLE _ _ _ =>
      v ← dadao_intval real_to_target_double real_to_target_single x; Some (dadao_output_octa v false)
  | CONST _ => Some (output_addr_const x)
  | _ => if CONSTANT_P x then Some (output_addr_const x) else None
  end.

(** ** Indirect addresses *)
(** The container of an indirect access is [dest]; rd7 holds inner ones. *)
Fixpoint dadao_print_indirect_operand (dest src : rtx) : option (string * rtx) :=
  match src with
  | MEM _ (REG _ a) =>
      rd ← reg_of dest; ra ← reg_name a;
      Some (tab ++ "ldo" ++ tab ++ rd ++ ", " ++ ra ++ ", 0", dest)
  | MEM _ (PLUS op0 op1) =>
      '(pre, op1) ← (if MEM_P op1 then dadao_print_indirect_operand (REG Pmode 7) op1 else Some ("", op1));
      match op1 with
      | REG _ b =>
          rd ← reg_of dest; r0 ← reg_of op0; r1 ← reg_name b;
          Some (pre ++ tab ++ "ldmo" ++ tab ++ rd ++ ", " ++ r0 ++ ", " ++ r1 ++ ", 1" ++ nl, dest)
      | CONST_INT v =>
          rd ← reg_of dest; r0 ← reg_of op0;
          Some (pre ++ tab ++ "ldo" ++ tab ++ rd ++ ", " ++ r0 ++ ", " ++ fmt_d v ++ nl, dest)
      | _ => None
      end
  | _ => None
  end.

(** ** Loads, stores and calls *)
(** ldst_mmodes[mode % 4], with the mode numbers its comment gives. *)
Definition mode_number (mode : machine_mode) : option Z :=
  match mode with QImode => Some 7 | HImode => Some 8 | SImode => Some 9 | DImode => Some 10 | _ => None end.
Definition ldst_mmodes : list string := ["w"; "t"; "o"; "b"].
Definition mmode (mode : machine_mode) : option string := m ← mode_number mode; zlookup ldst_mmodes (m mod 4).

Definition DD_SWAP_OP (op0 op1 : rtx) : rtx * rtx :=
  if in_class op0 GENERAL_REGS && in_class op1 POINTER_REGS then (op1, op0) else (op0, op1).

(** The common shape of the two printers: [ld] and [st] with their suffixes,
    and what ends the line of an indirect access. *)
Definition print_access (single multiple end_ : string) (t_single t_multiple : string)
    (reg addr : rtx) : option (string * string) :=
  match addr with
  | REG _ _ => Some (tab ++ single, t_single)
  | PLUS op0 op1 =>
      let '(op0, op1) := DD_SWAP_OP op0 op1 in
      match op1 with
      | CONST_INT _ => Some (tab ++ single, t_single)
      | MEM _ _ =>
          '(pre, _) ← dadao_print_indirect_operand (REG DImode 7) op1;
          r ← reg_of reg; r0 ← reg_of op0;
          Some (pre ++ tab ++ multiple ++ tab ++ r ++ ", " ++ r0 ++ ", rd7, 1" ++ end_, "")
      | REG _ _ => Some (tab ++ multiple, t_multiple)
      | _ => None
      end
  | _ => None
  end.
Definition mem_addr (x : rtx) : option rtx := match x with MEM _ a => Some a | _ => None end.

Definition dadao_print_ldst_operand (mode : machine_mode) (dest src : rtx) (strict : bool)
    : option (string * string) :=
  let mode := if bool_decide (GET_MODE_CLASS mode = MODE_FLOAT) then DImode else mode in
  m ← mmode mode;
  if strict then
    let u := if bool_decide (mode = DImode) then "" else "u" in
    addr ← mem_addr src;
    print_access ("ld" ++ m ++ u) ("ldm" ++ m ++ u) nl "%0, %1" "%0, %1, 1" dest addr
  else
    addr ← mem_addr dest;
    print_access ("st" ++ m) ("stm" ++ m) nl "%1, %0" "%1, %0, 1" src addr.
Definition dadao_print_fldst_operand (mode : machine_mode) (dest src : rtx) (strict : bool)
    : option (string * string) :=
  let suffix := if bool_decide (mode = SFmode) then "t" else "o" in
  if strict then
    addr ← mem_addr src;
    print_access ("ld" ++ suffix) ("ldm" ++ suffix) "" "%0, %1" "%0, %1, 1" dest addr
  else
    addr ← mem_addr dest;
    print_access ("st" ++ suffix) ("stm" ++ suffix) nl "%1, %0" "%1, %0, 1" src addr.

(** [op]: the operands of the call pattern, of which a value-returning one
    has its result first. *)
Definition dadao_print_call_operand (op : list rtx) (strict : bool) : option (string * string) :=
  let at_ i := op !! (if strict then i else S i) in
  callobj ← at_ 0%nat;
  let n := if strict then "0" else "1" in
  match callobj with
  | REG _ _ | SUBREG _ => Some ("", "call" ++ tab ++ "%" ++ n ++ ", rd0, 0")
  | CONST _ | SYMBOL_REF _ => Some ("", "call" ++ tab ++ "%" ++ n)
  | PLUS b i =>
      offset ← at_ 2%nat;
      match i with
      | REG _ _ =>
          rb ← reg_of b; ri ← reg_of i; v ← int_of offset;
          Some (tab ++ "call" ++ tab ++ rb ++ ", " ++ ri ++ ", " ++ fmt_d v ++ nl, "")
      | _ =>
          if CONSTANT_P i then
            rb ← reg_of b; v ← int_of offset; w ← int_of i;
            Some (tab ++ "call" ++ tab ++ rb ++ ", rd0, " ++ fmt_d (v + w) ++ nl, "")
          else None
      end
  | _ => None
  end.
End Print.
