(* ===== verification/GccWords.v ===== *)
(** How the assembler reads what the compiler prints: what is assumed of gas's
    expression parser and get_operands on a line of three or four operands;
    the rows of the opcode table that the mnemonics of loads and stores name,
    and the fields of their words. *)
From stdpp Require Import pretty.
From Stdlib Require Import Ascii String.
From S2P Require Import Prelude Opcodes Cpu Tcg Translate Run RefBackend IsaArith IsaMove IsaMem Frame.
From S2P Require Import Decode Step Isa Disas DisasProps GasData Gas GasProps GasEncode Gcc GccPrint.
Local Open Scope string_scope.
Local Open Scope Z_scope.

(** ** Reading a line of operands *)
Definition at_end (s : string) : Prop := s = "" \/ char_at s 0 = ","%char.
(** The first character of a register name or of a number. *)
Definition plain_char (c : ascii) : bool :=
  negb (existsb (Ascii.eqb c) [" "; "009"; "("; "000"; "010"; "013"; "w"; ","]%char).
Definition plain (s : string) : Prop :=
  match s with String c _ => plain_char c = true | EmptyString => False end.
Fixpoint all_lower (s : string) : bool :=
  match s with
  | EmptyString => true
  | String c s => ((97 <=? nat_of_ascii c) && (nat_of_ascii c <=? 122))%nat && all_lower s
  end.

Lemma append_assoc_s (a b c : string) : ((a ++ b) ++ c = a ++ (b ++ c))%string.
Proof. induction a as [|x a IH]; [done|]. exact (f_equal (String x) IH). Qed.
Lemma append_nil_s (a : string) : (a ++ "" = a)%string.
Proof. induction a as [|x a IH]; [done|]. exact (f_equal (String x) IH). Qed.

Section Line.
Context {sym : Type}.
Variable is_part_of_name : ascii -> bool.
Variable expression : string -> expressionS sym * string.

(** What gas's parser does with the names md_begin enters in the register
    section, with decimal numbers, and with the characters of a mnemonic. *)
Record gas_reads : Prop := GasReads {
  gr_lower : forall c, ((97 <=? nat_of_ascii c) && (nat_of_ascii c <=? 122))%nat = true ->
    is_part_of_name c = true;
  gr_tab : is_part_of_name "009"%char = false;
  gr_register : forall n s rest, reg_name n = Some s -> at_end rest ->
    expression (s ++ rest) = (Exp O_register None None n, rest);
  gr_number : forall v rest, -2048 <= v <= 2047 -> at_end rest ->
    expression (pretty v ++ rest) = (Exp O_constant None None v, rest) }.

Definition token (s : string) (e : expressionS sym) : Prop :=
  plain s /\ X_op e <> O_illegal /\ X_op e <> O_absent /\
  forall rest, at_end rest -> expression (s ++ rest) = (e, rest).
Definition blank (s : string) : Prop := s = "" \/ s = " " \/ s = tab.

Lemma plain_cases c : plain_char c = true ->
  Ascii.eqb c " " = false /\ Ascii.eqb c "009" = false /\
  Ascii.eqb c "(" = false /\ Ascii.eqb c "000" = false /\ Ascii.eqb c "010" = false /\
  Ascii.eqb c "013" = false /\ Ascii.eqb c "w" = false.
Proof.
  unfold plain_char, existsb. intros H%negb_true_iff.
  repeat (apply orb_false_iff in H as [? H]). done.
Qed.
Lemma skip_blanks_token b s r : blank b -> plain s -> skip_blanks (b ++ s ++ r) = (s ++ r)%string.
Proof.
  intros Hb Hs. assert (H : skip_blanks (s ++ r) = (s ++ r)%string).
  { destruct s as [|c s]; [done|]. destruct (plain_cases c Hs) as (H1 & H2 & _).
    change (String c s ++ r)%string with (String c (s ++ r)). cbn [skip_blanks]. by rewrite H1, H2. }
  by destruct Hb as [-> | [-> | ->]].
Qed.
(** One round of the loop. *)
Lemma operand_round rounds b s e rest n exps st bad :
  blank b -> token s e -> at_end rest ->
  operand_loop expression (S rounds) (b ++ s ++ rest) n exps st bad
  = let exps := <[n := e]> exps in
    if Ascii.eqb (char_at rest 0) "," then operand_loop expression rounds (Py.drop 1 rest) (S n) exps st bad
    else Some (Operands (Z.of_nat (S n)) (end_operands (S n) exps) st (Some rest) bad).
Proof.
  intros Hb (Hp & Hi & Ha & He) Hr. cbn [operand_loop]. rewrite skip_blanks_token by done.
  assert (Hc : exists c s', s = String c s' /\ plain_char c = true) by (destruct s; [done|eauto]).
  destruct Hc as (c & s' & -> & Hc). destruct (plain_cases c Hc) as (_ & _ & H1 & H2 & H3 & H4 & H5).
  unfold operand_paren. change (char_at ((String c s' ++ rest)%string) 0) with c. rewrite H1.
  cbn [mbind option_bind]. change (char_at ((String c s' ++ rest)%string) 0) with c. rewrite H2, H3, H4. cbn [orb].
  unfold parse_operand. change (char_at ((String c s' ++ rest)%string) 0) with c. rewrite H5. cbn [andb].
  rewrite He by done. unfold operand_errors. rewrite !bool_decide_false by done. rewrite app_nil_r.
  assert (Hs : skip_blanks rest = rest).
  { destruct Hr as [->|Hr]; [done|]. destruct rest as [|x rest]; [done|]. cbn in Hr. by subst x. }
  by rewrite Hs.
Qed.
Lemma operand_comma rounds b s e rest n exps st bad :
  blank b -> token s e ->
  operand_loop expression (S rounds) (b ++ s ++ ", " ++ rest) n exps st bad
  = operand_loop expression rounds (" " ++ rest) (S n) (<[n := e]> exps) st bad.
Proof. intros Hb Ht. rewrite (operand_round _ _ _ e) by (done || by right). done. Qed.
Lemma operand_last rounds b s e n exps st bad :
  blank b -> token s e ->
  operand_loop expression (S rounds) (b ++ s) n exps st bad
  = Some (Operands (Z.of_nat (S n)) (end_operands (S n) (<[n := e]> exps)) st (Some "") bad).
Proof.
  intros Hb Ht. rewrite <- (append_nil_s s). rewrite (operand_round _ _ _ e) by (done || by left). done.
Qed.

Definition no_paren : paren_state := Paren None false false.
Lemma get_three s1 e1 s2 e2 s3 e3 exps :
  token s1 e1 -> token s2 e2 -> token s3 e3 ->
  get_operands expression (tab ++ s1 ++ ", " ++ s2 ++ ", " ++ s3) exps
  = Some (Operands 3 (end_operands 3 (<[2%nat := e3]> (<[1%nat := e2]> (<[0%nat := e1]> exps))))
            no_paren (Some "") []).
Proof.
  intros H1 H2 H3. unfold get_operands, max_operands.
  rewrite (operand_comma _ tab _ e1), (operand_comma _ " " _ e2), (operand_last _ " " _ e3);
    by (done || unfold blank; auto).
Qed.
Lemma get_four s1 e1 s2 e2 s3 e3 s4 e4 exps :
  token s1 e1 -> token s2 e2 -> token s3 e3 -> token s4 e4 ->
  get_operands expression (tab ++ s1 ++ ", " ++ s2 ++ ", " ++ s3 ++ ", " ++ s4) exps
  = Some (Operands 4 (end_operands 4 (<[3%nat := e4]> (<[2%nat := e3]> (<[1%nat := e2]> (<[0%nat := e1]> exps)))))
            no_paren (Some "") []).
Proof.
  intros H1 H2 H3 H4. unfold get_operands, max_operands.
  rewrite (operand_comma _ tab _ e1), (operand_comma _ " " _ e2), (operand_comma _ " " _ e3),
    (operand_last _ " " _ e4); by (done || unfold blank; auto).
Qed.
Lemma split_name_tab n r : gas_reads -> all_lower n = true ->
  split_name is_part_of_name (n ++ String "009"%char r) = (n, String "009"%char r).
Proof.
  intros G. induction n as [|c n IH]; intros Hn.
  - change (split_name is_part_of_name (String "009" r) = ("", String "009" r)).
    cbn [split_name]. by rewrite (gr_tab G).
  - cbn [all_lower] in Hn. apply andb_true_iff in Hn as [Hc Hn].
    change (split_name is_part_of_name (String c (n ++ String "009" r)) = (String c n, String "009" r)).
    cbn [split_name]. by rewrite (gr_lower G), IH.
Qed.
End Line.

(** ** The tokens the compiler prints *)
Lemma reg_names_plain : Forall plain REGISTER_NAMES.
Proof.
  assert (H : forallb (fun s => match s with String c _ => plain_char c | _ => false end) REGISTER_NAMES = true)
    by (vm_compute; done).
  rewrite forallb_forall in H. apply Forall_forall. intros s Hs%list_elem_of_In. specialize (H s Hs).
  by destruct s.
Qed.
Lemma number_plain v : -2048 <= v <= 2047 -> plain (pretty v).
Proof.
  intros Hv.
  assert (H : forallb (fun k => match pretty (Z.of_nat k - 2048) with String c _ => plain_char c | _ => false end)
                (seq 0 4096) = true) by (vm_compute; done).
  rewrite forallb_forall in H. specialize (H (Z.to_nat (v + 2048))).
  rewrite Z2Nat.id in H by lia. replace (v + 2048 - 2048) with v in H by lia.
  assert (Hin : In (Z.to_nat (v + 2048)) (seq 0 4096)) by (apply in_seq; lia). specialize (H Hin).
  unfold plain. by destruct (pretty v).
Qed.
Lemma reg_name_some n : 0 <= n < 256 -> exists s, reg_name n = Some s /\ plain s.
Proof.
  intros Hn. destruct (proj2 (zlookup_is_Some REGISTER_NAMES n)) as [s Hs]; [vm_compute length; lia|].
  exists s. split; [done|]. pose proof reg_names_plain as H. rewrite Forall_forall in H. apply H.
  unfold zlookup in Hs. destruct (0 <=? n); [|done]. by eapply list_elem_of_lookup_2.
Qed.

(** ** The rows of the accesses *)
Definition data_mode (mode : machine_mode) : Prop := mode ∈ [QImode; HImode; SImode; DImode].
Definition mo_of (mode : machine_mode) : memop :=
  match mode with QImode => MO_UB | HImode => MO_TEUW | SImode => MO_TEUL | _ => MO_TEUQ end.
Definition letter (mode : machine_mode) : string :=
  match mode with QImode => "b" | HImode => "w" | SImode => "t" | _ => "o" end.
Definition mnemonic (is_load : bool) (mode : machine_mode) (multi : bool) : string :=
  (if is_load then "ld" else "st") ++ (if multi then "m" else "") ++ letter mode ++
  (if is_load && negb (bool_decide (mode = DImode)) then "u" else "").
Definition pattern_name (is_load : bool) (mode : machine_mode) (multi : bool) : string :=
  (if is_load then "LD" else "ST") ++ (if multi then "M" else "") ++
  match mode with QImode => "B" | HImode => "W" | SImode => "T" | _ => "O" end ++
  (if is_load then (if bool_decide (mode = DImode) then "rd" else "U")
   else match mode with SImode | DImode => "rd" | _ => "" end).
Definition no_row : dadao_opcode :=
  Opcode "" 0 0 0 dadao_operand_none dadao_operand_none dadao_operand_none dadao_operand_none dadao_type_normal.
Definition access_row (is_load : bool) (mode : machine_mode) (multi : bool) : dadao_opcode :=
  default no_row (rows_named (mnemonic is_load mode multi) dadao_opcodes !! 0%nat).

Definition row_facts (is_load : bool) (mode : machine_mode) (multi : bool) : Prop :=
  let n := mnemonic is_load mode multi in
  let r := access_row is_load mode multi in
  rows_named n dadao_opcodes !! 0%nat = Some r /\ r ∈ insn_opc /\
  op_fa r = dadao_operand_rd /\ op_fb r = dadao_operand_rb /\
  (if multi then op_fc r = dadao_operand_rd /\ op_fd r = dadao_operand_immu6 /\ operands_num r = 4
   else op_fc r = dadao_operand_imms12 /\ op_fd r = dadao_operand_none /\ operands_num r = 3) /\
  major_opcode r <> 0x6D /\
  Forall (fun p => p_name p = pattern_name is_load mode multi -> opc_row_of p r) insns_decode /\
  (String.length n < 16)%nat /\ all_lower n = true /\
  is_pseudo n = false /\ is_move n = false /\ is_ldm_stm n = multi.
#[export] Instance dadao_opcode_eq_dec : EqDecision dadao_opcode.
Proof. solve_decision. Defined.
#[export] Instance row_facts_dec l m k : Decision (row_facts l m k).
Proof. unfold row_facts. destruct k; apply _. Defined.
Lemma rows_hold is_load mode multi : data_mode mode -> row_facts is_load mode multi.
Proof.
  intros Hm. assert (Hall : Forall (fun '(l, m, k) => row_facts l m k)
    [(true, QImode, true); (true, QImode, false); (false, QImode, true); (false, QImode, false);
     (true, HImode, true); (true, HImode, false); (false, HImode, true); (false, HImode, false);
     (true, SImode, true); (true, SImode, false); (false, SImode, true); (false, SImode, false);
     (true, DImode, true); (true, DImode, false); (false, DImode, true); (false, DImode, false)])
    by (apply (bool_decide_unpack _); vm_compute; done).
  rewrite Forall_forall in Hall. apply (Hall (is_load, mode, multi)). unfold data_mode in Hm.
  repeat setoid_rewrite elem_of_cons in Hm.
  destruct Hm as [->|[->|[->|[->|Hm]]]]; [..|by apply elem_of_nil in Hm]; destruct is_load, multi;
    repeat first [left | right].
Qed.

(** ** The words *)
Section Words.
Context {sym : Type}.
Variable symbol_get_value_expression : option sym -> expressionS sym.
Hypothesis Hsym : forall s, numbers_ok (symbol_get_value_expression s).
Abbreviation code_of := (dd_get_insn_code symbol_get_value_expression).
Definition e_register (n : Z) : expressionS sym := Exp O_register None None n.
Definition e_number (n : Z) : expressionS sym := Exp O_constant None None n.

(** The operands of an access: register, base and offset or index. *)
Definition imm_exps (d b c : Z) : list (expressionS sym) := [e_register d; e_register (64 + b); e_number c].
Definition reg_exps (d b i : Z) : list (expressionS sym) :=
  [e_register d; e_register (64 + b); e_register i; e_number 1].
Definition agree (n : nat) (l l' : list (expressionS sym)) : Prop := take n l = take n l'.

Lemma be_rd_reg d : 0 <= d < 64 -> SHOULD_BE_RD (e_register d) = Some d.
Proof.
  intros Hd. unfold SHOULD_BE_RD. cbn [e_register X_op X_add_number]. rewrite bool_decide_true by done.
  cbn [negb]. destruct (Z.ltb_spec 0x3F d); [lia|]. by rewrite w32_id by lia.
Qed.
Lemma be_rb_reg b : 0 <= b < 64 -> SHOULD_BE_RB (e_register (64 + b)) = Some b.
Proof.
  intros Hb. unfold SHOULD_BE_RB, should_be_reg. cbn [e_register X_op X_add_number].
  rewrite bool_decide_true by done. cbn [negb].
  destruct (Z.ltb_spec 0x7F (64 + b)); [lia|]. destruct (Z.ltb_spec (64 + b) 0x40); [lia|].
  by rewrite w32_id by lia; f_equal; lia.
Qed.
Lemma be_imm_number lo hi v : lo <= v <= hi -> SHOULD_BE_IMM lo hi (e_number v) = Some v.
Proof.
  intros Hv. unfold SHOULD_BE_IMM. cbn [e_number X_op X_add_number]. rewrite bool_decide_true by done.
  cbn [negb]. destruct (Z.ltb_spec hi v); [lia|]. by destruct (Z.ltb_spec v lo); [lia|].
Qed.

Lemma code_access is_load mode (multi : bool) d b x l rest :
  data_mode mode -> 0 <= d < 64 -> 0 <= b < 64 ->
  (if multi then 0 <= x < 64 else -2048 <= x <= 2047) ->
  l = ((if multi then reg_exps d b x else imm_exps d b x) ++ rest)%list ->
  exists w, code_of (access_row is_load mode multi) l (if multi then 4 else 3) = (0, Some w) /\
    code_of (access_row is_load mode multi) (if multi then reg_exps d b x else imm_exps d b x)
      (if multi then 4 else 3) = (0, Some w).
Proof.
  intros Hm Hd Hb Hx ->.
  destruct (rows_hold is_load mode multi Hm) as (_ & _ & Ha & Hfb & Hc & Hmaj & _).
  set (r := access_row is_load mode multi) in *. unfold dd_get_insn_code, code_fb, code_shift, code_fc, code_fd.
  destruct multi; destruct Hc as (Hc1 & Hc2 & Hn); rewrite Ha, Hfb, Hc1, Hn, ?Hc2.
  - change (1 + 1) with 2. change (2 + 1) with 3.
    repeat change (exp_at _ 0) with (e_register d). repeat change (exp_at _ 1) with (e_register (64 + b)).
    repeat change (exp_at _ 2) with (e_register x). repeat change (exp_at _ 3) with (e_number 1).
    rewrite !be_rd_reg, be_rb_reg, be_imm_number by lia. cbn. eauto.
  - change (1 + 1) with 2.
    repeat change (exp_at _ 0) with (e_register d). repeat change (exp_at _ 1) with (e_register (64 + b)).
    repeat change (exp_at _ 2) with (e_number x).
    rewrite !be_rd_reg, be_rb_reg, be_imm_number by lia. cbn [orfail e_number X_op Z.eqb Pos.eqb].
    rewrite (bool_decide_false (O_constant = O_left_shift)), (bool_decide_false (O_constant = O_symbol)) by done.
    cbn [andb]. rewrite (proj2 (Z.eqb_neq _ _) Hmaj). cbn [andb]. eauto.
Qed.

Lemma clean_numbers (multi : bool) d b x i : 0 <= d -> 0 <= b -> (multi = true -> 0 <= x) ->
  numbers_ok (exp_at (if multi then reg_exps d b x else imm_exps d b x) i).
Proof.
  intros Hd Hb Hx. unfold exp_at, zlookup. destruct (0 <=? i); [|by intros [?|?]].
  destruct (_ !! Z.to_nat i) as [e|] eqn:E; [|by intros [?|?]]. cbn [default].
  apply list_elem_of_lookup_2 in E. unfold numbers_ok.
  destruct multi; unfold reg_exps, imm_exps in E; repeat setoid_rewrite elem_of_cons in E;
    repeat (destruct E as [->|E]; [cbn; try specialize (Hx eq_refl); try lia; by intros [?|?]|]); by apply elem_of_nil in E.
Qed.

Lemma access_word is_load mode (multi : bool) d b x w p :
  data_mode mode -> 0 <= d < 64 -> 0 <= b < 64 -> (multi = true -> 0 <= x) ->
  code_of (access_row is_load mode multi) (if multi then reg_exps d b x else imm_exps d b x)
    (if multi then 4 else 3) = (0, Some w) ->
  p ∈ insns_decode -> p_name p = pattern_name is_load mode multi ->
  matches p w = true /\ ha (pattern_args p w) = d /\ hb (pattern_args p w) = b /\
  (if multi then hc (pattern_args p w) = x /\ immu6 (pattern_args p w) = 1 else imms12 (pattern_args p w) = x).
Proof.
  intros Hm Hd Hb Hx Hw Hp Hn.
  destruct (rows_hold is_load mode multi Hm) as (_ & Hin & Ha & Hfb & Hc & _ & Hrow & _).
  rewrite Forall_forall in Hrow. specialize (Hrow p Hp Hn).
  pose proof opc_ranges as Hrg. rewrite Forall_forall in Hrg. destruct (Hrg _ Hin) as [HM Hmin].
  pose proof shapes_cover as Hsh. rewrite Forall_forall in Hsh. specialize (Hsh _ Hin).
  pose proof (shape_word _ Hsym _ _ _ _ Hsh HM Hmin (fun i => clean_numbers multi d b x i (proj1 Hd) (proj1 Hb) Hx) Hw) as Hok.
  split; [by eapply word_matches|].
  destruct Hok as (_ & _ & _ & Hf). rewrite Forall_forall in Hf.
  assert (Hget : forall t e n s len k,
    (t, e, (n, s, len, k)) ∈ row_exps symbol_get_value_expression (access_row is_load mode multi)
                               (if multi then reg_exps d b x else imm_exps d b x) ->
    get_arg n (pattern_args p w) = encoded t e).
  { intros t e n s len k Hi. specialize (Hf _ Hi). cbn in Hf. rewrite <- Hf.
    apply pattern_args_field; [done|]. destruct Hrow as (_ & _ & -> & _). by eapply row_exps_slot. }
  assert (Hr : row_exps symbol_get_value_expression (access_row is_load mode multi)
                 (if multi then reg_exps d b x else imm_exps d b x)
    = ([(dadao_operand_rd, e_register d, ("ha", false, 6, 18)%nat);
       (dadao_operand_rb, e_register (64 + b), ("hb", false, 6, 12)%nat)] ++
      if multi then [(dadao_operand_rd, e_register x, ("hc", false, 6, 6)%nat);
                     (dadao_operand_immu6, e_number 1, ("immu6", false, 6, 0)%nat)]
      else [(dadao_operand_imms12, e_number x, ("imms12", true, 12, 0)%nat)])%list).
  { unfold row_exps, exp_c, exp_d, shifted, count_ab. rewrite Ha, Hfb.
    destruct multi; destruct Hc as (-> & -> & ->); reflexivity. }
  rewrite Hr in Hget.
  pose proof (Hget _ _ _ _ _ _ ltac:(left)) as Hxa. cbn in Hxa.
  pose proof (Hget _ _ _ _ _ _ ltac:(right; left)) as Hxb. cbn [encoded e_register X_add_number] in Hxb.
  split; [exact Hxa|]. split; [etransitivity; [exact Hxb|lia]|]. destruct multi.
  - split; [exact (Hget _ _ _ _ _ _ ltac:(do 2 right; left))|exact (Hget _ _ _ _ _ _ ltac:(do 3 right; left))].
  - exact (Hget _ _ _ _ _ _ ltac:(do 2 right; left)).
Qed.
End Words.
