(* ===== verification/GccAsm.v ===== *)
(** From an RTL memory access to the instruction the emulator runs: the line
    that the compiler prints, read by the assembler's front end, is one word
    that accesses memory at the value of the RTL address. *)
From stdpp Require Import pretty.
From Stdlib Require Import Ascii String.
From S2P Require Import Prelude Opcodes Cpu Tcg Translate Run RefBackend IsaArith IsaMove IsaMem Frame.
From S2P Require Import Decode Step Isa Disas DisasProps GasData Gas GasProps GasEncode GasExec Gcc GccPrint GccWords.
Local Open Scope string_scope.
Local Open Scope Z_scope.

(** ** What the word does *)
Section Steps.
Context {M : Type} (B : backend M) (L : tcg_laws B).
Variable helper : string -> CPUDADAOState -> list Z -> Z * CPUDADAOState.
Variable disas : Z -> gen bool.
Hypothesis Hdisas : decodetree_laws disas.
Variable goto_tb : Z -> bool.

(** An access of register [d] at an address. *)
Definition access (is_load : bool) (mode : machine_mode) (d addr : Z) (env : CPUDADAOState) (mem : M)
    : result M :=
  if is_load then
    match b_ld B (mo_of mode) addr mem with
    | Some v => RFall (load_reg [RF] RD d v env) mem
    | None => RFault env mem
    end
  else
    match b_st B (mo_of mode) addr (reg RD d env) mem with
    | Some mem => RFall env mem
    | None => RFault env mem
    end.

Lemma access_spec is_load mode (multi : bool) : data_mode mode -> exists sp,
  step_implements B helper disas sp /\ sp_name sp = pattern_name is_load mode multi /\
  forall pc a env mem, 0 <= ha a < 64 -> (multi = true -> immu6 a = 1) ->
    sp_pre sp pc a env /\
    sp_sem sp pc a env mem = next_insn pc (access is_load mode (ha a)
      (if multi then multi_addr a env else w64 (reg RB (hb a) env + imms12 a)) env mem).
Proof.
  intros Hm. pose proof (memory_implemented B L helper disas Hdisas) as Hall. rewrite Forall_forall in Hall.
  exists ((if is_load then if multi then sp_ldm B else sp_ld B else if multi then sp_stm B else sp_st B)
            (pattern_name is_load mode multi) RD (mo_of mode)).
  split; [apply Hall|split].
  - unfold data_mode in Hm. repeat setoid_rewrite elem_of_cons in Hm.
    destruct Hm as [->|[->|[->|[->|Hm]]]]; [..|by apply elem_of_nil in Hm]; destruct is_load, multi;
      unfold isa_memory; repeat first [left | right].
  - by destruct is_load, multi.
  - intros pc a env mem Ha Hone. destruct multi; [specialize (Hone eq_refl)|];
      destruct is_load; (split; [done || (unfold sp_pre, sp_ldm, sp_stm, one_range, range_ok; lia)|]);
      cbn [sp_sem sp_ldm sp_stm sp_ld sp_st]; rewrite ?Hone; unfold access; try done.
Qed.

(** The word of an access, run at any address in any state. *)
Definition does (w : Z) (f : CPUDADAOState -> M -> result M) : Prop :=
  forall pc env mem, 0 <= pc < 2^64 -> wf_env env -> u64_env env ->
    step B helper disas goto_tb pc w env mem = Some (next_insn pc (f (prologue env) mem)).

Context {sym : Type}.
Variable symbol_get_value_expression : option sym -> expressionS sym.
Hypothesis Hsym : forall s, numbers_ok (symbol_get_value_expression s).

Lemma access_does is_load mode (multi : bool) d b x l rest :
  data_mode mode -> 0 <= d < 64 -> 0 <= b < 64 ->
  (if multi then 0 <= x < 64 else -2048 <= x <= 2047) ->
  l = ((if multi then reg_exps d b x else imm_exps d b x) ++ rest)%list ->
  exists w, dd_get_insn_code symbol_get_value_expression (access_row is_load mode multi) l
              (if multi then 4 else 3) = (0, Some w) /\
    does w (fun env => access is_load mode d
      (w64 (reg RB b env + (if multi then reg RD x env else x))) env).
Proof.
  intros Hm Hd Hb Hx Hl.
  destruct (code_access symbol_get_value_expression is_load mode multi d b x l rest) as (w & H1 & H2); try done.
  exists w. split; [done|]. intros pc env mem Hpc Hwf Hu.
  destruct (access_spec is_load mode multi Hm) as (sp & (p & Hp & Hn & Hstep) & Hsn & Hsem).
  destruct (access_word symbol_get_value_expression Hsym is_load mode multi d b x w p)
    as (Hmat & Ha & Hhb & Hrest); try done; [by destruct multi; lia|by rewrite Hn|].
  destruct (Hsem pc (pattern_args p w) (prologue env) mem) as [Hpre Hs];
    [by rewrite Ha|by intros ->; destruct Hrest|].
  rewrite (Hstep goto_tb pc w env mem) by done. rewrite Hs, Ha. unfold multi_addr.
  destruct multi; [destruct Hrest as [-> _] | rewrite Hrest]; by rewrite Hhb.
Qed.

(** ** The line *)
Context {H : Type} `{HashLaws H}.
Variable is_part_of_name : ascii -> bool.
Variable expression : string -> expressionS sym * string.
Hypothesis G : gas_reads is_part_of_name expression.

Lemma token_register n s : reg_name n = Some s -> token expression s (e_register n).
Proof.
  intros Hs. assert (Hn : 0 <= n < 256).
  { assert (is_Some (zlookup REGISTER_NAMES n)) as Hi by by exists s.
    apply zlookup_is_Some in Hi. vm_compute length in Hi. lia. }
  destruct (reg_name_some n Hn) as (s' & Hs' & Hp). assert (s' = s) as -> by congruence.
  split; [done|]. split; [done|]. split; [done|]. intros rest Hr. by apply (gr_register _ _ G).
Qed.
Lemma token_number v : -2048 <= v <= 2047 -> token expression (pretty v) (e_number v).
Proof.
  intros Hv. split; [by apply number_plain|]. split; [done|]. split; [done|].
  intros rest Hr. by apply (gr_number _ _ G).
Qed.

(** What md_assemble has been through when it comes to the rows. *)
Lemma assemble_line is_load mode (multi : bool) ops args exps o garbage w :
  data_mode mode ->
  get_operands expression (tab ++ ops) exps
  = Some (Operands (if multi then 4 else 3) args no_paren (Some "") []) ->
  (multi = true -> num args 3 = 1 /\ Z.rem (num args 0) 64 <= 63) ->
  dd_get_insn_code symbol_get_value_expression (access_row is_load mode multi) args
    (if multi then 4 else 3) = (0, Some w) ->
  md_assemble is_part_of_name expression symbol_get_value_expression o (md_begin_hashes (H := H)) exps garbage
    (mnemonic is_load mode multi ++ tab ++ ops)
  = AsmOk [C_demand_empty_rest_of_line ""; C_frag_more; C_number w].
Proof.
  intros Hm Hops Hone Hw.
  destruct (rows_hold is_load mode multi Hm) as (Hrow & _ & _ & _ & _ & _ & _ & Hlen & Hlow & Hps & Hmv & Hld).
  set (n := mnemonic is_load mode multi) in *. unfold md_assemble.
  change (n ++ tab ++ ops)%string with (n ++ String "009" ops)%string.
  rewrite (split_name_tab is_part_of_name expression n ops G Hlow).
  change (String "009" ops) with (tab ++ ops)%string. rewrite Hops. cbn [o_exps o_numexp o_rest o_bad o_paren].
  destruct (Z.leb_spec 16 (Z.of_nat (String.length n))); [lia|].
  pose proof (md_begin_holds (H := H) 0%nat n ltac:(lia)) as Hh. cbn [nth_hash] in Hh. rewrite Hh, Hrow.
  unfold register_limit. rewrite Hps, Hmv, Hld. cbn [map app andb orb].
  assert (Hl : (if multi && (64 <? Z.rem (num args 0) 64 + num args 3)
                then [@C_as_bad sym "the number of registers exceeds the limit"] else []) = []).
  { destruct multi; [|done]. destruct (Hone eq_refl) as [-> Hrem]. cbn [andb].
    by destruct (Z.ltb_spec 64 (Z.rem (num args 0) 64 + 1)); [lia|]. }
  rewrite Hl. rewrite !andb_false_r.
  assert (Hs : multiple_to_single o && multi && (1 <? num args 3) = false).
  { destruct multi; [|by rewrite andb_false_r]. destruct (Hone eq_refl) as [-> _]. by rewrite andb_false_r. }
  rewrite Hs. cbn [andb app]. rewrite Hw. cbn [is_adrp no_paren]. unfold try_row. cbn [fst]. done.
Qed.

Lemma assemble_imm is_load mode d b c sd sb exps o garbage :
  data_mode mode -> 0 <= d < 64 -> 0 <= b < 64 -> -2048 <= c <= 2047 -> length exps = 5%nat ->
  reg_name d = Some sd -> reg_name (64 + b) = Some sb ->
  exists w, md_assemble is_part_of_name expression symbol_get_value_expression o (md_begin_hashes (H := H)) exps garbage
      (mnemonic is_load mode false ++ tab ++ sd ++ ", " ++ sb ++ ", " ++ pretty c)
    = AsmOk [C_demand_empty_rest_of_line ""; C_frag_more; C_number w] /\
    does w (fun env => access is_load mode d (w64 (reg RB b env + c)) env).
Proof.
  intros Hm Hd Hb Hc Hl Hsd Hsb.
  destruct exps as [|a0 [|a1 [|a2 [|a3 [|a4 [|]]]]]]; try discriminate Hl.
  pose proof (get_three expression _ _ _ _ _ _ [a0; a1; a2; a3; a4]
    (token_register _ _ Hsd) (token_register _ _ Hsb) (token_number _ Hc)) as Hops.
  destruct (access_does is_load mode false d b c _
    [Exp O_illegal (X_add_symbol a3) (X_op_symbol a3) (X_add_number a3); a4] Hm Hd Hb Hc eq_refl) as (w & Hw & Hdo).
  exists w. split; [|exact Hdo]. by eapply (assemble_line is_load mode false).
Qed.
Lemma assemble_reg is_load mode d b i sd sb si exps o garbage :
  data_mode mode -> 0 <= d < 64 -> 0 <= b < 64 -> 0 <= i < 64 -> length exps = 5%nat ->
  reg_name d = Some sd -> reg_name (64 + b) = Some sb -> reg_name i = Some si ->
  exists w, md_assemble is_part_of_name expression symbol_get_value_expression o (md_begin_hashes (H := H)) exps garbage
      (mnemonic is_load mode true ++ tab ++ sd ++ ", " ++ sb ++ ", " ++ si ++ ", 1")
    = AsmOk [C_demand_empty_rest_of_line ""; C_frag_more; C_number w] /\
    does w (fun env => access is_load mode d (w64 (reg RB b env + reg RD i env)) env).
Proof.
  intros Hm Hd Hb Hi Hl Hsd Hsb Hsi.
  destruct exps as [|a0 [|a1 [|a2 [|a3 [|a4 [|]]]]]]; try discriminate Hl.
  pose proof (get_four expression _ _ _ _ _ _ _ _ [a0; a1; a2; a3; a4]
    (token_register _ _ Hsd) (token_register _ _ Hsb) (token_register _ _ Hsi) (token_number 1 ltac:(lia))) as Hops.
  destruct (access_does is_load mode true d b i _
    [Exp O_illegal (X_add_symbol a4) (X_op_symbol a4) (X_add_number a4)] Hm Hd Hb Hi eq_refl) as (w & Hw & Hdo).
  exists w. split; [|exact Hdo]. eapply (assemble_line is_load mode true); try done.
  intros _. split; [done|]. pose proof (Z.rem_bound_pos d 64). change (num _ 0) with d. lia.
Qed.

(** ** From the RTL access *)
(** The value of an address; register numbers are those of dadao.h. *)
Fixpoint rtx_value (env : CPUDADAOState) (x : rtx) : Z :=
  match x with
  | REG _ n => if n <? 64 then reg RD n env else reg RB (n - 64) env
  | CONST_INT c => c
  | PLUS x y => rtx_value env x + rtx_value env y
  | _ => 0
  end.
(** Only hard registers, and no memory operand inside. *)
Fixpoint direct (x : rtx) : bool :=
  match x with
  | REG _ n => (0 <=? n) && (n <? FIRST_PSEUDO_REGISTER)
  | PLUS x y => direct x && direct y
  | MEM _ _ => false
  | _ => true
  end.

Lemma class_pointer n : REGNO_REG_CLASS n = POINTER_REGS -> exists b, n = 64 + b /\ 0 <= b < 64.
Proof.
  unfold REGNO_REG_CLASS, FIRST_PSEUDO_REGISTER. intros Hc. exists (n - 64). revert Hc.
  zcases; intros Hc; try discriminate Hc; lia.
Qed.
Lemma class_general n : 0 <= n -> REGNO_REG_CLASS n = GENERAL_REGS -> 0 <= n < 64.
Proof.
  unfold REGNO_REG_CLASS, FIRST_PSEUDO_REGISTER. intros Hn. zcases; intros Hc; try discriminate Hc; lia.
Qed.
Lemma hard_class reg_renumber x c :
  _DD_LEGITIMATE_ADDR_RC reg_renumber false x c = true -> direct x = true ->
  exists mode n, x = REG mode n /\ 0 <= n /\ REGNO_REG_CLASS n = c.
Proof.
  destruct x as [mode n| | | | | | | | | |]; try done. cbn. intros Hc Hd%andb_true_iff.
  destruct Hd as [Hn%Z.leb_le Hp]. exists mode, n. split; [done|]. split; [done|].
  unfold FIRST_PSEUDO_REGISTER in *. rewrite orb_false_r in Hc.
  apply Z.ltb_lt in Hp. destruct (Z.leb_spec (64 * 4) n); [lia|]. rewrite orb_false_r in Hc.
  by apply bool_decide_eq_true in Hc.
Qed.
Lemma legitimate_forms reg_renumber x :
  dd_legitimate_address_p reg_renumber false x = Some true -> direct x = true ->
  (exists m b, x = REG m (64 + b) /\ 0 <= b < 64) \/
  (exists m b m' i, (x = PLUS (REG m (64 + b)) (REG m' i) \/ x = PLUS (REG m' i) (REG m (64 + b))) /\
     0 <= b < 64 /\ 0 <= i < 64) \/
  (exists m b c, x = PLUS (REG m (64 + b)) (CONST_INT c) /\ 0 <= b < 64 /\ -2048 <= c <= 2047).
Proof.
  intros Hl Hd. unfold dd_legitimate_address_p in Hl.
  destruct (_DD_LEGITIMATE_ADDR_RC reg_renumber false x POINTER_REGS) eqn:E.
  { destruct (hard_class _ _ _ E Hd) as (m & n & -> & _ & (b & -> & Hb)%class_pointer). eauto 6. }
  destruct x as [| | |x y| | | | | | |]; try discriminate Hl. cbn [direct] in Hd.
  apply andb_true_iff in Hd as [Hx Hy].
  destruct (_ && _) eqn:E1 in Hl.
  { apply andb_true_iff in E1 as [A1 A2].
    destruct (hard_class _ _ _ A1 Hx) as (m & n & -> & _ & (b & -> & Hb)%class_pointer).
    destruct (hard_class _ _ _ A2 Hy) as (m' & i & -> & Hi & Hc). apply class_general in Hc; [|done].
    right; left. exists m, b, m', i. auto. }
  destruct (_ && _) eqn:E2 in Hl.
  { apply andb_true_iff in E2 as [A1 A2].
    destruct (hard_class _ _ _ A1 Hx) as (m & n & -> & _ & (b & -> & Hb)%class_pointer).
    destruct y; try discriminate A2. right; right. exists m, b, v. split; [done|]. split; [done|].
    cbn in A2. lia. }
  destruct (_ && _) eqn:E3 in Hl.
  { apply andb_true_iff in E3 as [A1 A2].
    destruct (hard_class _ _ _ A1 Hy) as (m & n & -> & _ & (b & -> & Hb)%class_pointer).
    destruct (hard_class _ _ _ A2 Hx) as (m' & i & -> & Hi & Hc). apply class_general in Hc; [|done].
    right; left. exists m, b, m', i. auto. }
  exfalso. destruct x; try discriminate Hl; try discriminate Hx.
  destruct y; try discriminate Hy; cbn in Hl; rewrite ?andb_false_r in Hl; discriminate Hl.
Qed.

Variable output_addr_const : rtx -> string.
Variable real_to_target_double : Z -> Z -> Z * Z.
Variable real_to_target_single : Z -> Z -> Z.
Abbreviation print_operand x := (dd_print_operand output_addr_const real_to_target_double real_to_target_single x 0).
Variable output_asm_insn : (rtx -> option string) -> string -> list rtx -> option string.

(** What gcc's final pass does: a constant address is printed in decimal, and
    a template is a line with the operands in place of their numbers. *)
Record final_prints : Prop := FinalPrints {
  fp_const : forall c, output_addr_const (CONST_INT c) = pretty c;
  fp_load : forall p a b sa sb suffix, p a = Some sa -> p b = Some sb -> suffix ∈ [""; ", 1"] ->
    output_asm_insn p ("%0, %1" ++ suffix) [a; b] = Some (tab ++ sa ++ ", " ++ sb ++ suffix ++ nl);
  fp_store : forall p a b sa sb suffix, p a = Some sa -> p b = Some sb -> suffix ∈ [""; ", 1"] ->
    output_asm_insn p ("%1, %0" ++ suffix) [a; b] = Some (tab ++ sb ++ ", " ++ sa ++ suffix ++ nl) }.
Hypothesis P : final_prints.

Lemma print_template (is_load : bool) suffix mode d x sd sx :
  suffix ∈ [""; ", 1"] -> print_operand (REG mode d) = Some sd ->
  dd_print_operand_address output_addr_const x = Some sx ->
  output_asm_insn (fun x => print_operand x) ((if is_load then "%0, %1" else "%1, %0") ++ suffix)
    (if is_load then [REG mode d; MEM mode x] else [MEM mode x; REG mode d])
  = Some (tab ++ sd ++ ", " ++ sx ++ suffix ++ nl).
Proof.
  intros Hs Hd Hx. destruct is_load; [apply (fp_load P)|apply (fp_store P)]; done.
Qed.
Lemma print_register mode d sd : 0 <= d < 64 -> reg_name d = Some sd -> print_operand (REG mode d) = Some sd.
Proof.
  intros Hd Hs. unfold dd_print_operand, FIRST_PSEUDO_REGISTER. cbn [negb Z.eqb].
  by destruct (Z.leb_spec (64 * 4) d); [lia|].
Qed.
Lemma class_of_pointer b : 0 <= b < 64 -> REGNO_REG_CLASS (64 + b) = POINTER_REGS.
Proof. intros Hb. unfold REGNO_REG_CLASS, FIRST_PSEUDO_REGISTER. zcases; lia || done. Qed.
Lemma class_of_general i : 0 <= i < 64 -> REGNO_REG_CLASS i = GENERAL_REGS.
Proof. intros Hi. unfold REGNO_REG_CLASS, FIRST_PSEUDO_REGISTER. zcases; lia || done. Qed.

(** The opcode the printer of loads and stores chooses. *)
Lemma print_ldst (is_load : bool) mode d x (multi : bool) :
  data_mode mode ->
  (if multi then exists m b m' i, (x = PLUS (REG m (64 + b)) (REG m' i) \/ x = PLUS (REG m' i) (REG m (64 + b)))
                                /\ 0 <= b < 64 /\ 0 <= i < 64
   else (exists m n, x = REG m n) \/ (exists m n c, x = PLUS (REG m n) (CONST_INT c))) ->
  dadao_print_ldst_operand mode (if is_load then REG mode d else MEM mode x)
    (if is_load then MEM mode x else REG mode d) is_load
  = Some (tab ++ mnemonic is_load mode multi,
          (if is_load then "%0, %1" else "%1, %0") ++ (if multi then ", 1" else "")).
Proof.
  intros Hm Hx. unfold data_mode in Hm. repeat setoid_rewrite elem_of_cons in Hm.
  destruct multi.
  - destruct Hx as (m & b & m' & i & Hx & Hb & Hi).
    assert (Hsw : forall s1 s2 e t1 t2 r, print_access s1 s2 e t1 t2 r x = Some (tab ++ s2, t2)).
    { intros. unfold print_access, DD_SWAP_OP, in_class, _DD_LEGITIMATE_ADDR_GENERAL.
      destruct Hx as [-> | ->]; rewrite class_of_pointer, class_of_general by done; done. }
    destruct is_load; destruct Hm as [->|[->|[->|[->|Hm]]]]; try (by apply elem_of_nil in Hm);
      unfold dadao_print_ldst_operand; cbn [mem_addr mbind option_bind]; apply Hsw.
  - destruct Hx as [(m & n & ->)|(m & n & c & ->)];
      destruct is_load; destruct Hm as [->|[->|[->|[->|Hm]]]]; try (by apply elem_of_nil in Hm);
      try reflexivity.
    all: unfold dadao_print_ldst_operand, print_access, DD_SWAP_OP; cbn; by rewrite andb_false_r.
Qed.

Definition listing (is_load : bool) (mode : machine_mode) (d : Z) (x : rtx) (line : string) : Prop :=
  let op0 := if is_load then REG mode d else MEM mode x in
  let op1 := if is_load then MEM mode x else REG mode d in
  exists out template text,
    dadao_print_ldst_operand mode op0 op1 is_load = Some (out, template) /\
    output_asm_insn (fun x => print_operand x) template [op0; op1] = Some text /\
    (out ++ text = tab ++ line ++ nl)%string.

Lemma listing_intro (is_load : bool) mode d x (multi : bool) sd sx :
  data_mode mode -> 0 <= d < 64 -> reg_name d = Some sd ->
  dd_print_operand_address output_addr_const x = Some sx ->
  (if multi then exists m b m' i, (x = PLUS (REG m (64 + b)) (REG m' i) \/ x = PLUS (REG m' i) (REG m (64 + b)))
                                /\ 0 <= b < 64 /\ 0 <= i < 64
   else (exists m n, x = REG m n) \/ (exists m n c, x = PLUS (REG m n) (CONST_INT c))) ->
  listing is_load mode d x (mnemonic is_load mode multi ++ tab ++ sd ++ ", " ++ sx ++ (if multi then ", 1" else "")).
Proof.
  intros Hm Hd Hsd Hsx Hx. unfold listing.
  pose proof (print_ldst is_load mode d x multi Hm Hx) as Hl.
  pose proof (print_template is_load (if multi then ", 1" else "") mode d x sd sx
    ltac:(destruct multi; [right; left|left]) (print_register _ _ _ Hd Hsd) Hsx) as Ht.
  destruct is_load; do 3 eexists; (split; [exact Hl|split; [exact Ht|]]);
    rewrite ?append_assoc_s; done.
Qed.

(** The addresses as they are printed. *)
Lemma print_offset m b c sb : 0 <= b < 64 -> -2048 <= c <= 2047 -> reg_name (64 + b) = Some sb ->
  dd_print_operand_address output_addr_const (PLUS (REG m (64 + b)) (CONST_INT c))
  = Some (sb ++ ", " ++ pretty c).
Proof.
  intros Hb Hc Hsb. unfold dd_print_operand_address, in_class, _DD_LEGITIMATE_ADDR_GENERAL, reg_of, REGNO.
  rewrite class_of_pointer, bool_decide_true by done. cbn [satisfies_constraint_Id andb].
  rewrite (proj2 (Z.leb_le _ c)), (proj2 (Z.leb_le c _)) by lia. cbn [andb mbind option_bind].
  by rewrite Hsb, (fp_const P).
Qed.
Lemma print_index m b m' i x sb si : 0 <= b < 64 -> 0 <= i < 64 ->
  x = PLUS (REG m (64 + b)) (REG m' i) \/ x = PLUS (REG m' i) (REG m (64 + b)) ->
  reg_name (64 + b) = Some sb -> reg_name i = Some si ->
  dd_print_operand_address output_addr_const x = Some (sb ++ ", " ++ si).
Proof.
  intros Hb Hi Hx Hsb Hsi. unfold dd_print_operand_address, in_class, _DD_LEGITIMATE_ADDR_GENERAL, reg_of, REGNO.
  destruct Hx as [-> | ->]; rewrite class_of_pointer, class_of_general by done; cbn; by rewrite Hsb, Hsi.
Qed.
Lemma fmt_zero : pretty 0 = "0".
Proof. vm_compute. done. Qed.

(** C19: The compiler's loads and stores of integers do what the RTL says.
    For a mode of one, two, four or eight bytes, a general register and a
    direct address of hard registers (one without an access inside it) that
    dd_legitimate_address_p accepts, the line that dadao_print_ldst_operand
    and the operand printers write assembles, with no error, to one word;
    the emulator runs that word as a load or a store of the mode's width
    between the register and the memory at the value of the address, and goes
    on with the next word.  An address with an access inside is printed as
    two instructions on one line, and a single-precision value in a general
    register is accessed as eight bytes (indirect_line_not_ended and
    float_in_rd_is_octa of GccProps). *)
Theorem compiled_access reg_renumber is_load mode d x exps o garbage :
  data_mode mode -> 0 <= d < 64 ->
  dd_legitimate_address_p reg_renumber false x = Some true -> direct x = true -> length exps = 5%nat ->
  exists line w, listing is_load mode d x line /\
    md_assemble is_part_of_name expression symbol_get_value_expression o (md_begin_hashes (H := H)) exps garbage line
    = AsmOk [C_demand_empty_rest_of_line ""; C_frag_more; C_number w] /\
    forall pc env mem, 0 <= pc < 2^64 -> wf_env env -> u64_env env ->
      step B helper disas goto_tb pc w env mem
      = Some (next_insn pc
          (access is_load mode d (w64 (rtx_value (prologue env) x)) (prologue env) mem)).
Proof.
  intros Hm Hd Hleg Hdir Hl.
  destruct (reg_name_some d) as (sd & Hsd & _); [lia|].
  assert (Hreg : forall b, 0 <= b < 64 -> (64 + b <? 64) = false) by (intros; zcases; lia || done).
  assert (Hgen : forall i, 0 <= i < 64 -> (i <? 64) = true) by (intros; zcases; lia || done).
  destruct (legitimate_forms _ _ Hleg Hdir)
    as [(m & b & -> & Hb)|[(m & b & m' & i & Hx & Hb & Hi)|(m & b & c & -> & Hb & Hc)]].
  - destruct (reg_name_some (64 + b)) as (sb & Hsb & _); [lia|].
    destruct (assemble_imm is_load mode d b 0 sd sb exps o garbage) as (w & Hw & Hdo); try done.
    exists (mnemonic is_load mode false ++ tab ++ sd ++ ", " ++ sb ++ ", " ++ pretty 0)%string, w.
    split; [|split; [done|]].
    + pose proof (listing_intro is_load mode d (REG m (64 + b)) false sd (sb ++ ", 0") Hm Hd Hsd) as Hli.
      rewrite append_nil_s in Hli. rewrite fmt_zero. apply Hli; [|eauto]. cbn. by rewrite Hsb.
    + intros pc env mem Hpc Hwf Hu. rewrite Hdo by done. cbn [rtx_value]. rewrite Hreg by done.
      by rewrite Z.add_0_r, Z.add_simpl_l.
  - destruct (reg_name_some (64 + b)) as (sb & Hsb & _); [lia|].
    destruct (reg_name_some i) as (si & Hsi & _); [lia|].
    destruct (assemble_reg is_load mode d b i sd sb si exps o garbage) as (w & Hw & Hdo); try done.
    exists (mnemonic is_load mode true ++ tab ++ sd ++ ", " ++ sb ++ ", " ++ si ++ ", 1")%string, w.
    split; [|split; [done|]].
    + pose proof (listing_intro is_load mode d x true sd (sb ++ ", " ++ si) Hm Hd Hsd) as Hli.
      rewrite !append_assoc_s in Hli. apply Hli; [|eauto 10].
      by apply (print_index m b m' i).
    + intros pc env mem Hpc Hwf Hu. rewrite Hdo by done.
      destruct Hx as [-> | ->]; cbn [rtx_value]; rewrite Hreg, Hgen, Z.add_simpl_l by done; [done|].
      by rewrite Z.add_comm.
  - destruct (reg_name_some (64 + b)) as (sb & Hsb & _); [lia|].
    destruct (assemble_imm is_load mode d b c sd sb exps o garbage) as (w & Hw & Hdo); try done.
    exists (mnemonic is_load mode false ++ tab ++ sd ++ ", " ++ sb ++ ", " ++ pretty c)%string, w.
    split; [|split; [done|]].
    + pose proof (listing_intro is_load mode d (PLUS (REG m (64 + b)) (CONST_INT c)) false sd
        (sb ++ ", " ++ pretty c) Hm Hd Hsd) as Hli.
      rewrite append_nil_s in Hli. apply Hli; [|eauto 6].
      by apply print_offset.
    + intros pc env mem Hpc Hwf Hu. rewrite Hdo by done. cbn [rtx_value]. rewrite Hreg by done.
      by rewrite Z.add_simpl_l.
Qed.
End Steps.
