(* ===== verification/GccProps.v ===== *)
(** The compiler's calling convention, the theorems on its output at concrete
    inputs, and where its functions disagree with each other. *)
From stdpp Require Import pretty.
From Stdlib Require Import Ascii String.
From S2P Require Import Prelude Opcodes Cpu Tcg Translate Run RefBackend IsaArith IsaMove IsaMem IsaControl Frame.
From S2P Require Import Decode Step Isa IsaProps GasData Gas GasProps GasEncode GasExec GasWitness.
From S2P Require Import Gcc GccPrint GccWords GccAsm.
Local Open Scope string_scope.
Local Open Scope Z_scope.

(** ** Arguments *)

(** GCC's caller asks TARGET_PASS_BY_REFERENCE first: an argument for which
    the hook is true is replaced by a pointer to it, which then goes where
    a pointer does.  The modes are those after promotion. *)
Definition pointer_arg : function_arg_info := Arg Pmode false (GET_MODE_SIZE Pmode) false.
Definition passed (cum : CUMULATIVE_ARGS) (a : function_arg_info) : function_arg_info :=
  if dd_pass_by_reference false (Some cum) a then pointer_arg else a.
(** The registers of a function's arguments, as the caller assigns them. *)
Fixpoint assign_args (cum : CUMULATIVE_ARGS) (l : list function_arg_info) : list (option (option rtx)) :=
  match l with
  | [] => []
  | a :: l =>
      let a := passed cum a in
      dd_function_arg false cum a :: assign_args (dd_function_arg_advance false cum a) l
  end.
Definition after_args (cum : CUMULATIVE_ARGS) (l : list function_arg_info) : CUMULATIVE_ARGS :=
  foldl (fun cum a => dd_function_arg_advance false cum (passed cum a)) cum l.
(** A value that one register holds. *)
Definition scalar (a : function_arg_info) : bool :=
  negb (dd_must_pass_in_stack a) && (DADAO_FUNCTION_ARG_SIZE a <=? 8).
Definition real_arg (a : function_arg_info) : Prop := arg_mode a <> VOIDmode /\ arg_end_marker a = false.
(** The specification: argument [i], or the pointer to it when it is no
    scalar, is in register 16 + i when there are that many registers;
    otherwise it is on the stack. *)
Definition arg_place (i : nat) (a : function_arg_info) : option rtx :=
  if (i <? 16)%nat
  then Some (REG (if scalar a then arg_mode a else Pmode) (DADAO_FIRST_ARG_REGNUM + Z.of_nat i)) else None.

Lemma scalar_size a : real_arg a -> scalar a = true -> 1 <= DADAO_FUNCTION_ARG_SIZE a <= 8.
Proof.
  intros (Hv & _) Hs. unfold scalar, dd_must_pass_in_stack, DADAO_FUNCTION_ARG_SIZE in *.
  apply andb_true_iff in Hs as [Hb Hz%Z.leb_le]. destruct (decide (arg_mode a = BLKmode)) as [E|E].
  - by rewrite E, bool_decide_true in Hb.
  - rewrite bool_decide_false in Hz |- * by done. cbn [negb] in *. split; [|done].
    destruct (arg_mode a); cbn; done || lia.
Qed.
Lemma scalar_mode a : scalar a = true -> DADAO_FUNCTION_ARG_SIZE a = GET_MODE_SIZE (arg_mode a).
Proof.
  unfold scalar, dd_must_pass_in_stack, DADAO_FUNCTION_ARG_SIZE. intros H.
  by destruct (bool_decide (arg_mode a = BLKmode)).
Qed.

(** One argument. *)
Lemma arg_scalar r a : real_arg a -> scalar a = true ->
  dd_function_arg false (Cum r false) a
  = Some (if r <? 16 then Some (REG (arg_mode a) (DADAO_FIRST_ARG_REGNUM + r)) else None) /\
  dd_function_arg_advance false (Cum r false) a = Cum (r + 1) false.
Proof.
  intros Hr Hs. pose proof (scalar_size a Hr Hs) as Hz. pose proof (scalar_mode a Hs) as Hm.
  destruct Hr as (Hv & He). unfold dd_function_arg, dd_function_arg_advance. cbn [regs lib].
  rewrite bool_decide_false, He by done. unfold scalar in Hs. apply andb_true_iff in Hs as [Hs1 _].
  rewrite Hs1. apply negb_true_iff in Hs1. rewrite Hs1. unfold DADAO_MAX_ARGS_IN_REGS.
  rewrite (proj2 (Z.leb_le _ 64)) by lia. rewrite !andb_true_r. split; [done|].
  rewrite (proj2 (Z.ltb_ge 8 _)) by lia. cbn [orb andb]. f_equal.
  rewrite Z.quot_div_nonneg by lia. Z.div_mod_to_equations; lia.
Qed.
(** What is passed is a scalar: the argument, or a pointer. *)
Lemma passed_eq r a : passed (Cum r false) a = if scalar a then a else pointer_arg.
Proof.
  unfold passed, dd_pass_by_reference, scalar. cbn [lib negb]. destruct (dd_must_pass_in_stack a); [done|].
  rewrite !andb_true_r. cbn [negb andb]. by destruct (Z.ltb_spec 8 (DADAO_FUNCTION_ARG_SIZE a)),
    (Z.leb_spec (DADAO_FUNCTION_ARG_SIZE a) 8); try lia.
Qed.
Lemma passed_scalar r a : real_arg a ->
  real_arg (passed (Cum r false) a) /\ scalar (passed (Cum r false) a) = true.
Proof. intros Ha. rewrite passed_eq. destruct (scalar a) eqn:E; [done|]. by repeat split. Qed.
Lemma passed_mode r a : arg_mode (passed (Cum r false) a) = if scalar a then arg_mode a else Pmode.
Proof. rewrite passed_eq. by destruct (scalar a). Qed.

Lemma args_placed l r i a : 0 <= r -> Forall real_arg l -> l !! i = Some a ->
  assign_args (Cum r false) l !! i
  = Some (Some (if r + Z.of_nat i <? 16
                then Some (REG (if scalar a then arg_mode a else Pmode) (DADAO_FIRST_ARG_REGNUM + (r + Z.of_nat i)))
                else None)).
Proof.
  intros Hr Hl. revert r i Hr. induction Hl as [|b l Hb Hl IH]; intros r i Hr Hi; [done|].
  destruct (passed_scalar r b Hb) as [Hpb Hps]. destruct (arg_scalar r _ Hpb Hps) as [Hplace Hadv].
  cbn [assign_args]. rewrite Hplace, Hadv. destruct i as [|i]; cbn in Hi.
  - injection Hi as ->. cbn [lookup list_lookup]. by rewrite Z.add_0_r, passed_mode.
  - match goal with |- (?x :: ?t) !! S i = _ => change ((x :: t) !! S i) with (t !! i) end.
    rewrite (IH (r + 1) i) by (lia || done). by replace (r + 1 + Z.of_nat i) with (r + Z.of_nat (S i)) by lia.
Qed.
Lemma after_all l r : Forall real_arg l -> after_args (Cum r false) l = Cum (r + Z.of_nat (length l)) false.
Proof.
  intros Hl. revert r. induction Hl as [|a l Ha Hl IH]; intros r; cbn in *; [by rewrite Z.add_0_r|].
  destruct (passed_scalar r a Ha) as [Hpa Hps]. destruct (arg_scalar r _ Hpa Hps) as [_ ->].
  unfold after_args in IH. rewrite IH by done. f_equal. lia.
Qed.

(** C21: Where arguments go.  In a call of a user function, what is passed for
    argument [i] is the value of a scalar of at most eight bytes and a pointer
    to any other argument, as TARGET_PASS_BY_REFERENCE demands; it is in
    register rd(16+i) when [i] < 16 and on the stack otherwise.  A variadic
    function with [n] named arguments stores the registers of the others,
    from rd(16+n) to rd31, and reserves eight bytes for each of them. *)
Theorem arguments_placed l :
  Forall real_arg l ->
  (forall i a, l !! i = Some a ->
     dd_pass_by_reference false (Some (after_args (INIT_CUMULATIVE_ARGS false) (take i l))) a = negb (scalar a) /\
     assign_args (INIT_CUMULATIVE_ARGS false) l !! i = Some (Some (arg_place i a))) /\
  (forall named last, l = (named ++ [last])%list ->
     let n := Z.of_nat (length l) in
     let before := after_args (INIT_CUMULATIVE_ARGS false) named in
     dd_setup_incoming_varargs false before (passed before last) false
     = Some (if n <? 16
             then Varargs (Some (DADAO_FIRST_ARG_REGNUM + n, 16 - n)) (Some (8 * (16 - n))) (Cum n false)
             else Varargs None None (Cum n false))).
Proof.
  intros Hl. unfold INIT_CUMULATIVE_ARGS. split.
  - intros i a Hi. split.
    + rewrite after_all by (by apply Forall_take).
      unfold dd_pass_by_reference, scalar. cbn [lib negb]. destruct (dd_must_pass_in_stack a); [done|].
      rewrite !andb_true_r. cbn [negb andb]. rewrite Z.leb_antisym, negb_involutive. done.
    + rewrite (args_placed l 0 i a) by done. unfold arg_place. rewrite Z.add_0_l.
      replace (Z.of_nat i <? 16) with (i <? 16)%nat; [done|].
      destruct (Nat.ltb_spec i 16), (Z.ltb_spec (Z.of_nat i) 16); done || lia.
  - intros named last ->. cbv zeta. set (n := Z.of_nat (length (named ++ [last]))). apply Forall_app in Hl as [Hn Hla]. apply Forall_cons in Hla as [Hla _].
    rewrite (after_all named 0) by done. set (r := 0 + Z.of_nat (length named)).
    destruct (passed_scalar r last Hla) as [Hpa Hps]. unfold dd_setup_incoming_varargs.
    destruct (arg_scalar r _ Hpa Hps) as [_ ->].
    pose proof (scalar_size _ Hpa Hps) as Hz.
    assert (Hq : Z.quot (7 + DADAO_FUNCTION_ARG_SIZE (passed (Cum r false) last)) 8 = 1)
      by (rewrite Z.quot_div_nonneg by lia; Z.div_mod_to_equations; lia).
    rewrite Hq. cbn [Z.eqb Pos.eqb negb regs]. unfold DADAO_MAX_ARGS_IN_REGS.
    assert (Hlen : r + 1 = n) by (unfold n, r; rewrite length_app; cbn; lia).
    rewrite Hlen. rewrite (Z.add_comm n), (Z.mul_comm _ 8). by destruct (n <? 16).
Qed.

(** ** At concrete inputs *)

(** An expression parser for register names and decimal numbers, and a final
    pass that expands templates. *)
Fixpoint split_comma (s : string) : string * string :=
  match s with
  | EmptyString => ("", "")
  | String c r => if Ascii.eqb c "," then ("", s) else let '(a, b) := split_comma r in (String c a, b)
  end.
Fixpoint index_of (s : string) (l : list string) (i : Z) : option Z :=
  match l with [] => None | x :: l => if (s =? x)%string then Some i else index_of s l (i + 1) end.
Definition parse_number (s : string) : option Z :=
  match s with String "-" r => Z.opp <$> Py.int10 r | _ => Py.int10 s end.
Definition demo_expression (s : string) : expressionS Z * string :=
  let '(t, rest) := split_comma s in
  (match index_of t REGISTER_NAMES 0 with
   | Some n => Exp O_register None None n
   | None => match parse_number t with Some v => Exp O_constant None None v | None => Exp O_illegal None None 0 end
   end, rest).
Definition demo_name (c : ascii) : bool := ((97 <=? nat_of_ascii c) && (nat_of_ascii c <=? 122))%nat.
Definition no_comma (s : string) : bool := match strchr "," s with None => true | Some _ => false end.
Lemma split_comma_token s rest : no_comma s = true -> at_end rest -> split_comma (s ++ rest) = (s, rest).
Proof.
  intros Hs Hr. induction s as [|c s IH].
  - change (split_comma rest = ("", rest)). destruct Hr as [->|Hr]; [done|].
    destruct rest as [|c r]; [done|]. cbn in Hr. by subst c.
  - unfold no_comma in *. cbn [strchr] in Hs.
    change (split_comma (String c (s ++ rest)) = (String c s, rest)). cbn [split_comma].
    destruct (Ascii.eqb c ","); [done|]. by rewrite IH.
Qed.
Lemma demo_registers : forallb (fun k => match reg_name (Z.of_nat k) with
    | Some s => no_comma s && bool_decide (index_of s REGISTER_NAMES 0 = Some (Z.of_nat k))
    | None => false end) (seq 0 256) = true.
Proof. vm_compute. done. Qed.
Lemma demo_numbers : forallb (fun k => let v := Z.of_nat k - 2048 in
    no_comma (pretty v) && bool_decide (index_of (pretty v) REGISTER_NAMES 0 = None)
    && bool_decide (parse_number (pretty v) = Some v)) (seq 0 4096) = true.
Proof. vm_compute. done. Qed.
Lemma demo_reads : gas_reads demo_name demo_expression.
Proof.
  split; [done|done| |].
  - intros n s rest Hs Hr. assert (Hn : 0 <= n < 256).
    { assert (is_Some (zlookup REGISTER_NAMES n)) as Hi by by exists s.
      apply zlookup_is_Some in Hi. vm_compute length in Hi. lia. }
    pose proof demo_registers as H. rewrite forallb_forall in H. specialize (H (Z.to_nat n)).
    rewrite Z2Nat.id, Hs in H by lia. destruct (andb_prop _ _ (H ltac:(apply in_seq; lia))) as [H1 H2].
    unfold demo_expression. rewrite split_comma_token by done. apply bool_decide_eq_true in H2. by rewrite H2.
  - intros v rest Hv Hr. pose proof demo_numbers as H. rewrite forallb_forall in H.
    specialize (H (Z.to_nat (v + 2048))). cbv zeta in H. rewrite Z2Nat.id in H by lia.
    replace (v + 2048 - 2048) with v in H by lia.
    destruct (andb_prop _ _ (H ltac:(apply in_seq; lia))) as [[H1 H2]%andb_prop H3].
    unfold demo_expression. rewrite split_comma_token by done.
    apply bool_decide_eq_true in H2. apply bool_decide_eq_true in H3. by rewrite H2, H3.
Qed.

Fixpoint expand (p : rtx -> option string) (ops : list rtx) (t : string) : option string :=
  match t with
  | String "%" (String d t) =>
      x ← ops !! (nat_of_ascii d - 48)%nat; s ← p x; r ← expand p ops t; Some (s ++ r)
  | String c t => r ← expand p ops t; Some (String c r)
  | EmptyString => Some nl
  end.
Definition demo_output (p : rtx -> option string) (t : string) (ops : list rtx) : option string :=
  r ← expand p ops t; Some (tab ++ r).
Definition demo_const (x : rtx) : string := match x with CONST_INT c => pretty c | _ => "" end.
Lemma demo_prints : final_prints demo_const demo_output.
Proof.
  split; [done| |]; intros p a b sa sb suffix Ha Hb Hs; unfold demo_output;
    repeat setoid_rewrite elem_of_cons in Hs;
    destruct Hs as [->|[->|Hs]]; try (by apply elem_of_nil in Hs);
    cbv; rewrite Ha, Hb; reflexivity.
Qed.

(** A zero-extending load of two bytes at rb2 - 6 into rd16. *)
Definition demo_address : rtx := PLUS (REG DImode 66) (CONST_INT (-6)).
Definition demo_double (_ _ : Z) : Z * Z := (0, 0).
Definition demo_single (_ _ : Z) : Z := 0.
Lemma compiled_access_witness : exists line w,
  listing demo_const demo_double demo_single demo_output true HImode 16 demo_address line /\
  forall pc env mem, 0 <= pc < 2^64 -> wf_env env -> u64_env env ->
    step ref_backend no_helper decode_ref (fun _ => true) pc w env mem
    = Some (next_insn pc (access ref_backend true HImode 16 (w64 (rtx_value (prologue env) demo_address))
                            (prologue env) mem)).
Proof.
  destruct (compiled_access ref_backend ref_laws no_helper decode_ref decode_ref_laws (fun _ => true)
    no_expr no_expr_ok (H := list (string * dadao_opcode)) demo_name demo_expression demo_reads
    demo_const demo_double demo_single demo_output demo_prints
    (fun _ => -1) true HImode 16 demo_address (repeat (Exp O_absent None None 0) 5) (Options true false) 0)
    as (line & w & H1 & _ & H2).
  - right. left.
  - lia.
  - reflexivity.
  - reflexivity.
  - reflexivity.
  - exists line, w. split; [exact H1|exact H2].
Defined.
Lemma demo_listing : listing demo_const demo_double demo_single demo_output true HImode 16 demo_address
  ("ldwu" ++ tab ++ "rd16, rb2, -6").
Proof. do 3 eexists. split; [vm_compute; reflexivity|]. split; vm_compute; reflexivity. Qed.

Definition demo_args : list function_arg_info :=
  [Arg DImode false 8 false; Arg SFmode false 4 false; Arg BLKmode true 24 false; Arg SImode false 4 false].
Lemma demo_args_real : Forall real_arg demo_args.
Proof. repeat constructor; done. Qed.
Lemma arguments_placed_witness :
  assign_args (INIT_CUMULATIVE_ARGS false) demo_args !! 1%nat = Some (Some (Some (REG SFmode 17))) /\
  assign_args (INIT_CUMULATIVE_ARGS false) demo_args !! 2%nat = Some (Some (Some (REG DImode 18))) /\
  dd_setup_incoming_varargs false (Cum 3 false) (Arg SImode false 4 false) false
  = Some (Varargs (Some (20, 12)) (Some 96) (Cum 4 false)).
Proof.
  destruct (arguments_placed demo_args demo_args_real) as [H Hv].
  split; [exact (proj2 (H 1%nat _ eq_refl))|]. split; [exact (proj2 (H 2%nat _ eq_refl))|].
  exact (Hv [Arg DImode false 8 false; Arg SFmode false 4 false; Arg BLKmode true 24 false] _ eq_refl).
Defined.

(** ** Findings *)

(** reg_renumber is -1 for a register that is not renumbered, and
    REGNO_REG_CLASS (-1) is GENERAL_REGS: the strict check takes the sum of
    two base registers for an address, which nothing can print. *)
Lemma strict_accepts_two_bases oac :
  let x := PLUS (REG DImode 66) (REG DImode 67) in
  dd_legitimate_address_p (fun _ => -1) true x = Some true /\ dd_print_operand_address oac x = None.
Proof. done. Qed.

(** An inner access at a plain base register prints no newline: the outer
    instruction follows on the same line. *)
Lemma indirect_line_not_ended :
  let x := PLUS (REG DImode 66) (MEM DImode (REG DImode 67)) in
  dd_legitimate_address_p (fun _ => -1) false x = Some true /\
  dadao_print_ldst_operand DImode (REG DImode 16) (MEM DImode x) true
  = Some (tab ++ "ldo" ++ tab ++ "rd7, rb3, 0" ++ tab ++ "ldmo" ++ tab ++ "rd16, rb2, rd7, 1" ++ nl, "").
Proof. done. Qed.

(** The index-plus-base order of an indirect address is judged legitimate,
    but the printer takes the first operand for the base. *)
Lemma indirect_base_order :
  let inner := MEM DImode (PLUS (REG DImode 8) (REG DImode 67)) in
  dd_judge_legitimate_address inner = true /\
  dadao_print_indirect_operand (REG DImode 7) inner
  = Some (tab ++ "ldmo" ++ tab ++ "rd7, rd8, rb3, 1" ++ nl, REG DImode 7).
Proof. done. Qed.

(** A single-precision value in a general register is stored as eight bytes. *)
Lemma float_in_rd_is_octa :
  GET_MODE_SIZE SFmode = 4 /\
  dadao_print_ldst_operand SFmode (MEM SFmode (REG DImode 66)) (REG SFmode 16) false
  = Some (tab ++ "sto", "%1, %0").
Proof. done. Qed.
