(* ===== verification/GccCall.v ===== *)
(** Calls and returns of compiled functions: the line that the compiler prints
    for a call through a register, assembled and run, pushes the address
    behind it on the return-address stack and goes to the callee; the return
    that the epilogue ends in pops it. *)
From stdpp Require Import pretty.
From Stdlib Require Import Ascii String.
From S2P Require Import Prelude Opcodes Cpu Tcg Translate Run RefBackend IsaArith IsaMove IsaControl RetStack Frame.
From S2P Require Import Decode Step Isa IsaProps Disas DisasProps GasData Gas GasProps GasEncode GasExec GasWitness.
From S2P Require Import Gcc GccPrint GccWords GccAsm GccProps.
Local Open Scope string_scope.
Local Open Scope Z_scope.

(** ** The rows *)
Definition call_row : dadao_opcode :=
  Opcode "call" 3 109 0 dadao_operand_rb dadao_operand_rd dadao_operand_imms12 dadao_operand_none dadao_type_jsr.
Definition ret_row : dadao_opcode :=
  Opcode "ret" 2 110 0 dadao_operand_rd dadao_operand_imms18 dadao_operand_none dadao_operand_none dadao_type_jsr.
Lemma call_rows : rows_named "call" dadao_opcodes !! 1%nat = Some call_row /\
  (exists r, rows_named "call" dadao_opcodes !! 0%nat = Some r /\ operands_num r = 1) /\
  rows_named "ret" dadao_opcodes !! 0%nat = Some ret_row /\ call_row ∈ insn_opc /\ ret_row ∈ insn_opc.
Proof.
  split; [vm_compute; done|]. split; [eexists; split; vm_compute; done|]. split; [vm_compute; done|].
  split; apply (bool_decide_unpack _); vm_compute; done.
Qed.
Lemma control_patterns : Forall (fun p => (opc_row_of p call_row -> p_name p = "CALLr") /\
  (opc_row_of p ret_row -> p_name p = "RET")) insns_decode /\ NoDup (map p_name insns_decode).
Proof. split; apply (bool_decide_unpack _); vm_compute; done. Qed.
(** What a call and a return leave alone. *)
Abbreviation kept := link_kept.

(** ** The words *)
Section Words.
Context {M : Type} (B : backend M) (L : tcg_laws B).
Variable helper : string -> CPUDADAOState -> list Z -> Z * CPUDADAOState.
Variable disas : Z -> gen bool.
Hypothesis Hdisas : decodetree_laws disas.
Variable goto_tb : Z -> bool.
Context {sym : Type}.
Variable symbol_get_value_expression : option sym -> expressionS sym.
Hypothesis Hsym : forall s, numbers_ok (symbol_get_value_expression s).
Abbreviation code_of := (dd_get_insn_code symbol_get_value_expression).

Definition call_exps (b i c : Z) : list (expressionS sym) := [e_register (64 + b); e_register i; e_number c].
Definition ret_exps : list (expressionS sym) := [e_register 0; e_number 0].
Lemma code_call b i c rest : 0 <= b < 64 -> 0 <= i < 64 -> -2048 <= c <= 2047 -> ~ (b = 0 /\ i = 0 /\ c = 0) ->
  exists w, code_of call_row (call_exps b i c ++ rest)%list 3 = (0, Some w) /\
    code_of call_row (call_exps b i c) 3 = (0, Some w).
Proof.
  intros Hb Hi Hc Hn. unfold dd_get_insn_code, code_fb, code_shift, code_fc, call_row. cbn [operands_num op_fa op_fb op_fc op_fd Z.eqb Pos.eqb negb].
  change (1 + 1) with 2.
  repeat change (exp_at _ 0) with (@e_register sym (64 + b)). repeat change (exp_at _ 1) with (@e_register sym i).
  repeat change (exp_at _ 2) with (@e_number sym c).
  rewrite be_rb_reg, be_rd_reg, be_imm_number by lia. cbn [orfail e_number X_op].
  rewrite (bool_decide_false (O_constant = O_left_shift)), (bool_decide_false (O_constant = O_symbol)) by done.
  cbn [andb major_opcode Z.eqb Pos.eqb].
  assert (E : (b =? 0) && (i =? 0) && (Z.land c 0xFFF =? 0) = false).
  { destruct (Z.eqb_spec b 0); [|done]. destruct (Z.eqb_spec i 0); [|done]. cbn [andb]. apply Z.eqb_neq.
    change 0xFFF with (Z.ones 12). rewrite Z.land_ones by lia. Z.div_mod_to_equations; lia. }
  rewrite E. eauto.
Qed.
Lemma code_ret rest : code_of ret_row (ret_exps ++ rest)%list 2 = (0, Some 0x6E000000).
Proof. reflexivity. Qed.
Lemma call_numbers b i c j : 0 <= b -> 0 <= i -> numbers_ok (exp_at (call_exps b i c) j).
Proof.
  intros Hb Hi. unfold exp_at, zlookup. destruct (0 <=? j); [|by intros [?|?]].
  destruct (Z.to_nat j) as [|[|[|?]]]; cbn; intros [?|?]; done || (cbn; lia).
Qed.

(** What the word of a call is decoded to. *)
Lemma call_word b i c w p : 0 <= b < 64 -> 0 <= i < 64 -> code_of call_row (call_exps b i c) 3 = (0, Some w) ->
  p ∈ insns_decode -> p_name p = "CALLr" ->
  matches p w = true /\ ha (pattern_args p w) = b /\ hb (pattern_args p w) = i /\ imms12 (pattern_args p w) = c.
Proof.
  intros Hb Hi Hw Hp Hn. destruct call_rows as (_ & _ & _ & Hin & _).
  destruct (code_decodes _ Hsym _ _ _ _ Hin (fun j => call_numbers b i c j (proj1 Hb) (proj1 Hi)) Hw)
    as (q & Hq & Hd & Hf). apply decode_some in Hd as [Hqi Hm].
  assert (q = p) as ->.
  { apply pattern_by_name; [done..|]. rewrite Hn. destruct control_patterns as [H _]. rewrite Forall_forall in H.
    by apply (H q Hqi). }
  split; [done|]. rewrite Forall_forall in Hf.
  assert (Hr : row_exps symbol_get_value_expression call_row (call_exps b i c)
    = [(dadao_operand_rb, e_register (64 + b), ("ha", false, 6, 18)%nat);
       (dadao_operand_rd, e_register i, ("hb", false, 6, 12)%nat);
       (dadao_operand_imms12, e_number c, ("imms12", true, 12, 0)%nat)]) by reflexivity.
  rewrite Hr in Hf. split; [|split].
  - etransitivity; [exact (Hf _ ltac:(left))|]. cbn [encoded e_register X_add_number]. lia.
  - exact (Hf _ ltac:(right; left)).
  - exact (Hf _ ltac:(right; right; left)).
Qed.

(** ** What they do *)
Lemma call_does writable (O : octa_mem B writable) b i c w k pc env mem stk :
  0 <= b < 64 -> 0 <= i < 64 -> code_of call_row (call_exps b i c) 3 = (0, Some w) ->
  0 <= pc < 2^64 -> u64_env env -> holds B k env mem stk -> 0 < w64 (pc + 4) -> (k = 63%nat -> room writable env) ->
  exists env' mem' k', step B helper disas goto_tb pc w env mem = Some (RExit env' mem') /\
    reg RB 0 env' = w64 (reg RB b (prologue env) + reg RD i (prologue env) + 4 * c) /\
    kept (prologue env) env' /\ holds B k' env' mem' (w64 (pc + 4) :: stk).
Proof.
  intros Hb Hi Hw Hpc Hu Hh Hret Hroom.
  assert (Hp : pat "CALLr" ∈ insns_decode) by (apply (decode_some (p_match (pat "CALLr"))); vm_compute; done).
  destruct (call_word b i c w (pat "CALLr") Hb Hi Hw Hp eq_refl) as (Hm & Ha & Hhb & Hc).
  destruct (call_pushes B L helper disas Hdisas goto_tb writable O k pc w (pat "CALLr") env mem stk)
    as (env1 & mem1 & k1 & Hs & Hh1 & Hd & Hk); try done; [by apply decode_some|by right|].
  exists env1, mem1, k1. split; [done|]. split; [|by split].
  cbn [call_dest] in Hd. unfold call_dest in Hd. cbn in Hd. by rewrite <- Ha, <- Hhb, <- Hc.
Qed.

Definition ret_word : Z := 0x6E000000.
Lemma ret_does k pc env mem ret stk :
  0 <= pc < 2^64 -> u64_env env -> holds B k env mem (ret :: stk) -> reg RA 0 env + 8 < 2^64 ->
  exists env' k', step B helper disas goto_tb pc ret_word env mem = Some (RExit env' mem) /\
    reg RB 0 env' = ret /\ kept (prologue env) env' /\ holds B k' env' mem stk.
Proof.
  intros Hpc Hu Hh Htop.
  destruct (ret_pops B L helper disas Hdisas goto_tb k pc ret_word (pat "RET") env mem ret stk)
    as (env1 & k1 & Hs & Hh1 & Hd & Hk); try done.
  by exists env1, k1.
Qed.

(** ** The lines *)
Context {H : Type} `{HashLaws H}.
Variable is_part_of_name : ascii -> bool.
Variable expression : string -> expressionS sym * string.
Hypothesis G : gas_reads is_part_of_name expression.
(** The line is one word, and nothing is wrong with it. *)
Definition assembles (o : gas_options) (exps : list (expressionS sym)) (garbage : Z) (line : string) (w : Z) : Prop :=
  md_assemble is_part_of_name expression symbol_get_value_expression o (md_begin_hashes (H := H)) exps garbage line
  = AsmOk [C_demand_empty_rest_of_line ""; C_frag_more; C_number w].

Lemma get_two s1 e1 s2 e2 exps :
  token expression s1 e1 -> token expression s2 e2 ->
  get_operands expression (tab ++ s1 ++ ", " ++ s2) exps
  = Some (Operands 2 (end_operands 2 (<[1%nat := e2]> (<[0%nat := e1]> exps))) no_paren (Some "") []).
Proof.
  intros T1 T2. unfold get_operands, max_operands.
  rewrite (operand_comma _ _ tab _ e1), (operand_last _ _ " " _ e2); by (done || unfold blank; auto).
Qed.

Lemma assemble_call b i c sb si exps o garbage :
  0 <= b < 64 -> 0 <= i < 64 -> -2048 <= c <= 2047 -> ~ (b = 0 /\ i = 0 /\ c = 0) -> length exps = 5%nat ->
  reg_name (64 + b) = Some sb -> reg_name i = Some si ->
  exists w, code_of call_row (call_exps b i c) 3 = (0, Some w) /\
    assembles o exps garbage ("call" ++ tab ++ sb ++ ", " ++ si ++ ", " ++ pretty c) w.
Proof.
  intros Hb Hi Hc Hn Hl Hsb Hsi.
  destruct exps as [|a0 [|a1 [|a2 [|a3 [|a4 [|]]]]]]; try discriminate Hl.
  pose proof (get_three expression _ _ _ _ _ _ [a0; a1; a2; a3; a4]
    (token_register is_part_of_name expression G _ _ Hsb) (token_register is_part_of_name expression G _ _ Hsi)
    (token_number is_part_of_name expression G _ Hc)) as Hops.
  destruct (code_call b i c [Exp O_illegal (X_add_symbol a3) (X_op_symbol a3) (X_add_number a3); a4] Hb Hi Hc Hn)
    as (w & Hw & Hw'). exists w. split; [done|]. unfold assembles, md_assemble.
  set (ops := (sb ++ ", " ++ si ++ ", " ++ pretty c)%string) in *.
  change ("call" ++ tab ++ ops)%string with ("call" ++ String "009" ops)%string.
  rewrite (split_name_tab is_part_of_name expression "call" ops G) by done.
  change (String "009" ops) with (tab ++ ops)%string. rewrite Hops. cbn [o_exps o_numexp o_rest o_bad o_paren].
  destruct call_rows as (Hr1 & (r0 & Hr0 & Hk0) & _).
  pose proof (md_begin_holds (H := H) 0%nat "call" ltac:(lia)) as Hh1.
  pose proof (md_begin_holds (H := H) 1%nat "call" ltac:(lia)) as Hh2. cbn [nth_hash] in Hh1, Hh2.
  change (16 <=? Z.of_nat (String.length "call")) with false. cbv iota. rewrite Hh1, Hr0.
  change (end_operands 3 (<[2%nat:=e_number c]> (<[1%nat:=e_register i]> (<[0%nat:=e_register (64 + b)]> [a0; a1; a2; a3; a4]))))
    with (call_exps b i c ++ [Exp O_illegal (X_add_symbol a3) (X_op_symbol a3) (X_add_number a3); a4])%list.
  unfold register_limit. change (is_ldm_stm "call") with false. change (is_move "call") with false.
  change (is_pseudo "call") with false. rewrite !andb_false_r. cbn [andb app map].
  assert (E0 : forall l, code_of r0 l 3 = (-1, None)) by (intros l; unfold dd_get_insn_code; by rewrite Hk0).
  rewrite E0. cbn [is_adrp no_paren]. unfold try_row at 1 2 3 4. cbn [fst]. cbn [Z.eqb Pos.eqb]. rewrite Hh2, Hr1, Hw.
  cbn [fst snd]. done.
Qed.
Lemma assemble_ret exps o garbage : length exps = 5%nat ->
  assembles o exps garbage ("ret" ++ tab ++ "rd0, 0") ret_word.
Proof.
  intros Hl. destruct exps as [|a0 [|a1 [|a2 [|a3 [|a4 [|]]]]]]; try discriminate Hl.
  pose proof (get_two _ _ _ _ [a0; a1; a2; a3; a4]
    (token_register is_part_of_name expression G 0 "rd0" eq_refl)
    (token_number is_part_of_name expression G 0 ltac:(lia))) as Hops.
  change (pretty 0) with "0" in Hops. change ("rd0" ++ ", " ++ "0")%string with "rd0, 0" in Hops.
  unfold assembles, md_assemble. change ("ret" ++ tab ++ "rd0, 0")%string with ("ret" ++ String "009" "rd0, 0")%string.
  rewrite (split_name_tab is_part_of_name expression "ret" _ G) by done.
  change (String "009" "rd0, 0") with (tab ++ "rd0, 0")%string. rewrite Hops. cbn [o_exps o_numexp o_rest o_bad o_paren].
  destruct call_rows as (_ & _ & Hr & _).
  pose proof (md_begin_holds (H := H) 0%nat "ret" ltac:(lia)) as Hh1. cbn [nth_hash] in Hh1.
  change (16 <=? Z.of_nat (String.length "ret")) with false. cbv iota. rewrite Hh1, Hr.
  unfold register_limit. change (is_ldm_stm "ret") with false. change (is_move "ret") with false.
  change (is_pseudo "ret") with false. rewrite !andb_false_r. cbn [andb app map].
  pose proof (code_ret [Exp O_illegal (X_add_symbol a2) (X_op_symbol a2) (X_add_number a2); a3; a4]) as Hw.
  change (end_operands 2 (<[1%nat:=e_number 0]> (<[0%nat:=e_register 0]> [a0; a1; a2; a3; a4])))
    with (ret_exps ++ [Exp O_illegal (X_add_symbol a2) (X_op_symbol a2) (X_add_number a2); a3; a4])%list.
  rewrite Hw. cbn [is_adrp no_paren]. unfold try_row. cbn [fst]. done.
Qed.

(** ** What the compiler prints *)
Variable output_addr_const : rtx -> string.
Variable real_to_target_double : Z -> Z -> Z * Z.
Variable real_to_target_single : Z -> Z -> Z.
Abbreviation print_operand x := (dd_print_operand output_addr_const real_to_target_double real_to_target_single x 0).
Variable output_asm_insn : (rtx -> option string) -> string -> list rtx -> option string.

(** The call object is operand 0 of dd_call_real and operand 1 of
    dd_call_value_real. *)
Definition call_object (strict : bool) : nat := if strict then 0%nat else 1%nat.
(** What gcc's final pass does: nothing for an empty template, and otherwise
    a line with the operand in place of its number. *)
Record call_prints : Prop := CallPrints {
  cp_none : forall p ops, output_asm_insn p "" ops = Some "";
  cp_call : forall p ops strict x s, ops !! call_object strict = Some x -> p x = Some s ->
    output_asm_insn p ("call" ++ tab ++ "%" ++ (if strict then "0" else "1") ++ ", rd0, 0") ops
    = Some (tab ++ "call" ++ tab ++ s ++ ", rd0, 0" ++ nl);
  cp_ret : forall p, output_asm_insn p ("ret" ++ tab ++ "rd0, 0") [] = Some (tab ++ "ret" ++ tab ++ "rd0, 0" ++ nl) }.
Hypothesis P : call_prints.

(** The template of the pattern expanded_return. *)
Definition expanded_return : string := "ret" ++ tab ++ "rd0, 0".
Definition call_listing (op : list rtx) (strict : bool) (line : string) : Prop :=
  exists out template text,
    dadao_print_call_operand op strict = Some (out, template) /\
    output_asm_insn (fun x => print_operand x) template op = Some text /\
    (out ++ text = tab ++ line ++ nl)%string.
Definition return_listing (line : string) : Prop :=
  output_asm_insn (fun x => print_operand x) expanded_return [] = Some (tab ++ line ++ nl)%string.

(** The callee: base register, index register and the number printed.  [v]
    is the operand behind the call object and the argument size. *)
Definition callee (x : rtx) (v : Z) : option (Z * Z * Z) :=
  match x with
  | REG _ n => Some (n - 64, 0, 0)
  | PLUS (REG _ n) (REG _ i) => Some (n - 64, i, v)
  | PLUS (REG _ n) (CONST_INT c) => Some (n - 64, 0, v + c)
  | _ => None
  end.
Lemma call_line op strict x v b i c sb si :
  op !! call_object strict = Some x -> op !! (if strict then 2 else 3)%nat = Some (CONST_INT v) ->
  callee x v = Some (b, i, c) -> 0 <= b < 64 -> -2048 <= c <= 2047 ->
  reg_name (64 + b) = Some sb -> reg_name i = Some si ->
  call_listing op strict ("call" ++ tab ++ sb ++ ", " ++ si ++ ", " ++ pretty c).
Proof.
  intros Hx Hv Hcal Hb Hc Hsb Hsi.
  assert (Hsx : op !! (if strict then 0 else 1)%nat = Some x) by (by destruct strict).
  assert (Hs32 : s32 c = c) by (apply sext_id; lia).
  assert (Hsv : op !! (if strict then 2%nat else 3%nat) = Some (CONST_INT v)) by (by destruct strict).
  destruct x as [m n| | |x1 x2| | | | | | |]; try discriminate Hcal; [|destruct x1 as [m n| | | | | | | | | |]; try discriminate Hcal;
    destruct x2 as [m' i'| |c'| | | | | | | |]; try discriminate Hcal]; injection Hcal as <- <- <-;
    replace (64 + (n - 64)) with n in Hsb by lia; unfold call_listing, dadao_print_call_operand;
    rewrite Hsx; cbn [mbind option_bind].
  - assert (si = "rd0") as -> by (by injection Hsi). change (pretty 0) with "0".
    do 3 eexists. split; [reflexivity|]. split; [eapply (cp_call P); [exact Hx|]|].
    + unfold dd_print_operand, FIRST_PSEUDO_REGISTER. cbn [negb Z.eqb].
      destruct (Z.leb_spec (64 * 4) n); [lia|exact Hsb].
    + cbn [String.append]. by rewrite !append_assoc_s.
  - rewrite Hsv. cbn [mbind option_bind reg_of REGNO int_of]. rewrite Hsb, Hsi. cbn [mbind option_bind].
    do 3 eexists. split; [reflexivity|]. split; [apply (cp_none P)|].
    unfold fmt_d. rewrite append_nil_s, Hs32, !append_assoc_s. done.
  - assert (si = "rd0") as -> by (by injection Hsi).
    rewrite Hsv. cbn [CONSTANT_P mbind option_bind reg_of REGNO int_of]. rewrite Hsb. cbn [mbind option_bind].
    do 3 eexists. split; [reflexivity|]. split; [apply (cp_none P)|].
    unfold fmt_d. rewrite append_nil_s, Hs32, !append_assoc_s. done.
Qed.

(** C20: A call of a compiled function and its return.  For a callee in a
    base register, with an index register or a number, the line that
    dadao_print_call_operand and the final pass put out assembles, with no
    error, to one word; the emulator runs it by pushing the address of the
    next word on the return-address stack, spilling the oldest when the
    registers are full, and going to base + index + 4 * number; nothing but
    the return-address registers and the program counter changes.  The line
    that the pattern expanded_return puts out assembles to a word that takes
    the newest address from the stack, goes there and changes nothing else:
    a callee that leaves the stack as it found it returns behind the call. *)
Theorem compiled_call_returns writable (O : octa_mem B writable) op strict x v b i c exps o garbage :
  op !! call_object strict = Some x -> op !! (if strict then 2 else 3)%nat = Some (CONST_INT v) ->
  callee x v = Some (b, i, c) -> 0 <= b < 64 -> 0 <= i < 64 -> -2048 <= c <= 2047 ->
  ~ (b = 0 /\ i = 0 /\ c = 0) -> length exps = 5%nat ->
  exists line rline w rw,
    call_listing op strict line /\ assembles o exps garbage line w /\
    return_listing rline /\ assembles o exps garbage rline rw /\
    (forall k pc env mem stk, 0 <= pc < 2^64 -> u64_env env -> holds B k env mem stk -> 0 < w64 (pc + 4) ->
       (k = 63%nat -> room writable env) ->
       exists env' mem' k', step B helper disas goto_tb pc w env mem = Some (RExit env' mem') /\
         reg RB 0 env' = w64 (reg RB b (prologue env) + reg RD i (prologue env) + 4 * c) /\
         kept (prologue env) env' /\ holds B k' env' mem' (w64 (pc + 4) :: stk)) /\
    (forall k pc env mem ret stk, 0 <= pc < 2^64 -> u64_env env -> holds B k env mem (ret :: stk) ->
       reg RA 0 env + 8 < 2^64 ->
       exists env' k', step B helper disas goto_tb pc rw env mem = Some (RExit env' mem) /\
         reg RB 0 env' = ret /\ kept (prologue env) env' /\ holds B k' env' mem stk).
Proof.
  intros Hx Hv Hcal Hb Hi Hc Hn Hl.
  destruct (reg_name_some (64 + b)) as (sb & Hsb & _); [lia|].
  destruct (reg_name_some i) as (si & Hsi & _); [lia|].
  destruct (assemble_call b i c sb si exps o garbage Hb Hi Hc Hn Hl Hsb Hsi) as (w & Hw & Hasm).
  exists ("call" ++ tab ++ sb ++ ", " ++ si ++ ", " ++ pretty c)%string, ("ret" ++ tab ++ "rd0, 0")%string, w, ret_word.
  split; [by eapply call_line|]. split; [exact Hasm|].
  split; [unfold return_listing, expanded_return; by rewrite (cp_ret P)|]. split; [by apply assemble_ret|]. split.
  - intros. by eapply (call_does writable).
  - intros. by eapply ret_does.
Qed.
End Words.

(** ** At a concrete input *)

(** An empty template puts out nothing. *)
Definition demo_call_output (p : rtx -> option string) (t : string) (ops : list rtx) : option string :=
  if (t =? "")%string then Some "" else demo_output p t ops.
Lemma demo_call_prints : call_prints demo_call_output.
Proof.
  split; [done| |done]. intros p ops strict x s Hx Hp. unfold demo_call_output, demo_output.
  destruct strict; destruct ops as [|a [|a1 ops]]; try discriminate Hx; injection Hx as ->; cbv; rewrite Hp; reflexivity.
Qed.
(** A value-returning call of the function whose address is in rb5. *)
Definition demo_call : list rtx := [REG DImode 31; REG DImode 69; CONST_INT 0; CONST_INT 0].
Lemma compiled_call_returns_witness : exists line w,
  call_listing demo_const demo_double demo_single demo_call_output demo_call false line /\
  exists env' mem' k', step ref_backend no_helper decode_ref (fun _ => true) 0x400 w stack_env ∅ = Some (RExit env' mem') /\
    reg RB 0 env' = reg RB 5 (prologue stack_env) /\ holds ref_backend k' env' mem' [0x404].
Proof.
  destruct (compiled_call_returns ref_backend ref_laws no_helper decode_ref decode_ref_laws (fun _ => true)
    no_expr no_expr_ok (H := list (string * dadao_opcode)) demo_name demo_expression demo_reads
    demo_const demo_double demo_single demo_call_output demo_call_prints
    ref_writable ref_octa demo_call false (REG DImode 69) 0 5 0 0 (repeat (Exp O_absent None None 0) 5) (Options true false) 0)
    as (line & rline & w & rw & H1 & _ & _ & _ & H2 & _).
  - reflexivity.
  - reflexivity.
  - reflexivity.
  - lia.
  - lia.
  - lia.
  - lia.
  - reflexivity.
  - exists line, w. split; [exact H1|].
    destruct (H2 0%nat 0x400 stack_env ∅ []) as (env' & mem' & k' & E1 & E2 & _ & E4).
    + lia.
    + apply stack_u64.
    + apply stack_holds.
    + vm_compute. reflexivity.
    + discriminate.
    + exists env', mem', k'. split; [exact E1|]. split; [rewrite E2; vm_compute; reflexivity|exact E4].
Defined.

(** ** What the call printer gets wrong *)

(** The number behind the registers counts instructions, but the printer puts
    the number of bytes there: a callee at a base and a constant is missed. *)
Lemma call_offset_scaled env m b c : 0 <= b < 64 -> -2048 <= c <= 2047 -> c <> 0 ->
  callee (PLUS (REG m (64 + b)) (CONST_INT c)) 0 = Some (b, 0, c) /\
  w64 (reg RB b env + reg RD 0 env + 4 * c)
  <> w64 (rtx_value env (PLUS (REG m (64 + b)) (CONST_INT c)) + reg RD 0 env).
Proof.
  intros Hb Hc H0. cbn [callee rtx_value]. replace (64 + b - 64) with b by lia. split; [done|].
  destruct (Z.ltb_spec (64 + b) 64); [lia|]. unfold w64. intros E.
  assert ((3 * c) mod 2^64 = 0).
  { replace (3 * c) with ((reg RB b env + reg RD 0 env + 4 * c) - (reg RB b env + c + reg RD 0 env)) by lia.
    rewrite Zminus_mod, E, Z.sub_diag. done. }
  Z.div_mod_to_equations. lia.
Qed.
(** dd_legitimate_address_p accepts an index before the base; the printer
    leaves them in that order and no row of the table takes the line. *)
Lemma call_index_first :
  let x := PLUS (REG DImode 8) (REG DImode 69) in
  dd_legitimate_address_p (fun _ => -1) false x = Some true /\
  dadao_print_call_operand [x; CONST_INT 0; CONST_INT 0] true = Some (tab ++ "call" ++ tab ++ "rd8, rb5, 0" ++ nl, "") /\
  md_assemble demo_name demo_expression no_expr (Options true false)
    (md_begin_hashes (H := list (string * dadao_opcode))) (repeat (Exp O_absent None None 0) 5) 0
    ("call" ++ tab ++ "rd8, rb5, 0")
  = AsmOk [C_demand_empty_rest_of_line ""; C_frag_more; C_as_bad "unknown insn"].
Proof. split; [done|]. split; [done|]. vm_compute. done. Qed.
