(* ===== verification/LlvmData.v ===== *)
(** The LLVM back end: registers, operands, condition codes and the
    instruction table of lib/Target/Dadao/*.td.

    [MCInst] is LLVM's instruction between selection, printing, parsing and
    encoding.  The rows of DadaoInstrInfo.td are values of [Inst_Dadao] built
    by the format classes of DadaoInstrFormats.td: an operand's name says
    which bits of the word it fills. *)
From S2P Require Import Prelude Cpu.
Local Open Scope string_scope.
Local Open Scope Z_scope.

(** ** Registers *)

(** The registers of DadaoRegisterInfo.td; those after [RAx] are aliases of
    one of them with a name of their own. *)
Inductive Register :=
| RDx (i : Z) | RBx (i : Z) | RAx (i : Z)
| RDZERO | RDRV | RBIP | RBSP | RBFP | RBGP | RBTP | RBCA | RAVV | RASP | RDCC.
#[export] Instance Register_eq_dec : EqDecision Register.
Proof. solve_decision. Defined.

Definition hex6 (i : Z) : bool := (0 <=? i) && (i <=? 63).
Definition getDadaoRegisterNumbering (Reg : Register) : option Z :=
  match Reg with
  | RDx i | RBx i | RAx i => if hex6 i then Some i else None
  | RDZERO | RBIP | RAVV => Some 0
  | RBSP => Some 1
  | RBFP => Some 2
  | RBGP => Some 3
  | RBTP => Some 4
  | RBCA | RDCC => Some 7
  | RDRV => Some 31
  | RASP => Some 63
  end.

(** The file of a register, by its class. *)
Definition reg_file (r : Register) : regfile :=
  match r with
  | RDx _ | RDZERO | RDRV | RDCC => RD
  | RBx _ | RBIP | RBSP | RBFP | RBGP | RBTP | RBCA => RB
  | RAx _ | RAVV | RASP => RA
  end.

(** ** Condition codes and wyde positions *)

(** LPCC::CondCode; codes with several names have one here
    (HI is UGT, LS is ULE, CC is ULT, CS is UGE). *)
Inductive LPCC :=
| ICC_T | ICC_F | ICC_UGT | ICC_ULE | ICC_ULT | ICC_UGE | ICC_NE | ICC_EQ
| ICC_VC | ICC_VS | ICC_PL | ICC_MI | ICC_GE | ICC_LT | ICC_GT | ICC_LE | ICC_UNKNOWN.
#[export] Instance LPCC_eq_dec : EqDecision LPCC.
Proof. solve_decision. Defined.

Definition dadaoCondCodeToString (CC : LPCC) : option string :=
  match CC with
  | ICC_T => Some "t" | ICC_F => Some "f" | ICC_NE => Some "ne" | ICC_EQ => Some "eq"
  | ICC_VC => Some "vc" | ICC_VS => Some "vs" | ICC_PL => Some "pl" | ICC_MI => Some "mi"
  | ICC_GE => Some "ge" | ICC_LT => Some "lt" | ICC_GT => Some "gt" | ICC_LE => Some "le"
  | ICC_UGT => Some "ugt" | ICC_ULE => Some "ule" | ICC_ULT => Some "ult" | ICC_UGE => Some "uge"
  | ICC_UNKNOWN => None
  end.

(** StringSwitch: the first case that is a suffix. *)
Definition EndsWith (s suf : string) : bool :=
  (String.length suf <=? String.length s)%nat &&
  String.eqb (String.substring (String.length s - String.length suf) (String.length suf) s) suf.
Definition suffixToDadaoCondCode (S : string) : LPCC :=
  let fix switch (l : list (string * LPCC)) :=
    match l with
    | [] => ICC_UNKNOWN
    | (suf, cc) :: l => if EndsWith S suf then cc else switch l
    end in
  switch [("f", ICC_F); ("hi", ICC_UGT); ("ugt", ICC_UGT); ("ls", ICC_ULE); ("ule", ICC_ULE);
          ("cc", ICC_ULT); ("ult", ICC_ULT); ("cs", ICC_UGE); ("uge", ICC_UGE); ("ne", ICC_NE);
          ("eq", ICC_EQ); ("vc", ICC_VC); ("vs", ICC_VS); ("pl", ICC_PL); ("mi", ICC_MI);
          ("ge", ICC_GE); ("lt", ICC_LT); ("gt", ICC_GT); ("le", ICC_LE); ("t", ICC_T)].

(** DDWP::WydePosition; [None] is BEYOND. *)
Inductive wyde_pos := WPOS_0 | WPOS_1 | WPOS_2 | WPOS_3.
#[export] Instance wyde_pos_eq_dec : EqDecision wyde_pos.
Proof. solve_decision. Defined.
Definition wpos_val (w : wyde_pos) : Z :=
  match w with WPOS_0 => 0 | WPOS_1 => 1 | WPOS_2 => 2 | WPOS_3 => 3 end.
Definition dadaoWydePositionToString (WP : wyde_pos) : string :=
  match WP with WPOS_0 => "w0" | WPOS_1 => "w1" | WPOS_2 => "w2" | WPOS_3 => "w3" end.
(** CaseLower compares without regard to case. *)
Definition to_lower (c : Ascii.ascii) : Ascii.ascii :=
  let n := Ascii.nat_of_ascii c in
  if ((65 <=? n) && (n <=? 90))%nat then Ascii.ascii_of_nat (n + 32) else c.
Fixpoint lower (s : string) : string :=
  match s with EmptyString => EmptyString | String c s => String (to_lower c) (lower s) end.
Definition wposToDadaoWydePosition (S : string) : option wyde_pos :=
  if String.eqb (lower S) "w0" then Some WPOS_0
  else if String.eqb (lower S) "w1" then Some WPOS_1
  else if String.eqb (lower S) "w2" then Some WPOS_2
  else if String.eqb (lower S) "w3" then Some WPOS_3
  else None.

(** ** Expressions and operands *)
Inductive VariantKind := VK_Dadao_None | VK_Dadao_ABS_HI | VK_Dadao_ABS_LO.
Inductive MCExpr :=
| MCConstantExpr (v : Z)
| MCSymbolRefExpr (sym : string)
| DadaoMCExpr (k : VariantKind) (e : MCExpr)
| MCBinaryAdd (lhs rhs : MCExpr)
| MCBinarySub (lhs rhs : MCExpr).
Inductive MCOperand :=
| MCReg (r : Register)
| MCImm (v : Z)
| MCExp (e : MCExpr).

(** ** Instruction formats *)

(** The classes of operands of the instruction table. *)
Inductive opclass :=
| GPRD | GPRB
| C_imm12 | C_i64lo12and | C_i64lo12s | C_i64lo12z | C_i64lo18z | C_i64h1
| C_wyde (k : wyde_pos) | C_wpos (k : wyde_pos)
| MEM_RRII | MEM_RRRI | BrTarget | CallTarget | bare_symbol.
#[export] Instance opclass_eq_dec : EqDecision opclass.
Proof. solve_decision. Defined.

(** A row: the major opcode, the bits fixed by the format as (position,
    length, value), the bits each operand fills as (first bit of the operand,
    position, length), outputs and inputs, and the assembly text. *)
Record Inst_Dadao := InstDadao {
  MajorOpcode : Z;
  fixed_bits : list (Z * Z * Z);
  field_bits : list (string * (Z * Z * Z));
  OutOperandList : list (string * opclass);
  InOperandList : list (string * opclass);
  AsmMnemonic : string;
  AsmOperands : list string }.

Definition Inst_ORRR (majorop minorop : Z) outs ins opcstr oprstr : Inst_Dadao :=
  InstDadao majorop [(18, 6, minorop)]
    [("RxHb", (0, 12, 6)); ("RyHc", (0, 6, 6)); ("RzHd", (0, 0, 6))] outs ins opcstr oprstr.
Definition Inst_ORRI (majorop minorop : Z) outs ins opcstr oprstr : Inst_Dadao :=
  InstDadao majorop [(18, 6, minorop)]
    [("RxHb", (0, 12, 6)); ("RyHc", (0, 6, 6)); ("Imm6", (0, 0, 6))] outs ins opcstr oprstr.
Definition Inst_OIII (majorop minorop : Z) outs ins opcstr oprstr : Inst_Dadao :=
  InstDadao majorop [(18, 6, minorop)] [("Imm18", (0, 0, 18))] outs ins opcstr oprstr.
Definition Inst_RRRR (majorop : Z) outs ins opcstr oprstr : Inst_Dadao :=
  InstDadao majorop []
    [("RdHa", (0, 18, 6)); ("RdHb", (0, 12, 6)); ("RdHc", (0, 6, 6)); ("RdHd", (0, 0, 6))]
    outs ins opcstr oprstr.
Definition Inst_RRII (majorop : Z) outs ins opcstr oprstr : Inst_Dadao :=
  InstDadao majorop [] [("RxHa", (0, 18, 6)); ("RyHb", (0, 12, 6)); ("Imm12", (0, 0, 12))]
    outs ins opcstr oprstr.
Definition Inst_RIII (majorop : Z) outs ins opcstr oprstr : Inst_Dadao :=
  InstDadao majorop [] [("RxHa", (0, 18, 6)); ("Imm18", (0, 0, 18))] outs ins opcstr oprstr.
Definition Inst_RWII (majorop wpos : Z) outs ins opcstr oprstr : Inst_Dadao :=
  InstDadao majorop [(16, 2, wpos)] [("RxHa", (0, 18, 6)); ("Imm16", (0, 0, 16))] outs ins opcstr oprstr.
Definition Inst_IIII (majorop : Z) outs ins opcstr oprstr : Inst_Dadao :=
  InstDadao majorop [] [("Imm24", (0, 0, 24))] outs ins opcstr oprstr.
(** Bits of the format replaced by bits of one operand, or fixed. *)
Definition let_src (src : string) (lo pos len : Z) (d : Inst_Dadao) : Inst_Dadao :=
  InstDadao (MajorOpcode d) (fixed_bits d)
    (List.filter (fun '(_, (_, p, _)) => negb ((pos <=? p) && (p <? pos + len))) (field_bits d)
     ++ [(src, (lo, pos, len))])
    (OutOperandList d) (InOperandList d) (AsmMnemonic d) (AsmOperands d).
Definition let_fixed (pos len v : Z) (d : Inst_Dadao) : Inst_Dadao :=
  InstDadao (MajorOpcode d) (fixed_bits d ++ [(pos, len, v)])
    (List.filter (fun '(_, (_, p, _)) => negb ((pos <=? p) && (p <? pos + len))) (field_bits d))
    (OutOperandList d) (InOperandList d) (AsmMnemonic d) (AsmOperands d).

(** ** The classes of DadaoInstrInfo.td *)
Definition ALU_ORRR (minorop : Z) (opc : string) : Inst_Dadao :=
  Inst_ORRR 0x10 minorop [("RxHb", GPRD)] [("RyHc", GPRD); ("RzHd", GPRD)] opc ["RxHb"; "RyHc"; "RzHd"].
Definition R2R_ORRI (minorop : Z) (opc : string) (x y : opclass) : Inst_Dadao :=
  let_fixed 0 6 1 (Inst_ORRI 0x10 minorop [("RxHb", x)] [("RyHc", y)] opc ["RxHb"; "RyHc"]).
Definition PseudoSETRX (opc : string) (x : opclass) : Inst_Dadao :=
  InstDadao 0 [] [] [("RxHb", x)] [("addr", bare_symbol)] opc ["RxHb"; "addr"].
Definition SHIFT_ORRI (minorop : Z) (opc : string) : Inst_Dadao :=
  Inst_ORRI 0x10 minorop [("RxHb", GPRD)] [("RyHc", GPRD); ("Imm6", C_i64h1)] opc ["RxHb"; "RyHc"; "Imm6"].
Definition ALU_RRRR (majorop : Z) (opc : string) : Inst_Dadao :=
  Inst_RRRR majorop [("RdHa", GPRD); ("RdHb", GPRD)] [("RdHc", GPRD); ("RdHd", GPRD)] opc
    ["RdHa"; "RdHb"; "RdHc"; "RdHd"].
Definition ALU_RB_ORRR (minorop : Z) (opc : string) (x z : opclass) : Inst_Dadao :=
  Inst_ORRR 0x10 minorop [("RxHb", x)] [("RyHc", x); ("RzHd", z)] opc ["RxHb"; "RyHc"; "RzHd"].
Definition ALU_RRII (majorop : Z) (opc : string) (x y imm : opclass) : Inst_Dadao :=
  Inst_RRII majorop [("RxHa", x)] [("RyHb", y); ("Imm12", imm)] opc ["RxHa"; "RyHb"; "Imm12"].
Definition COMPARE_ORRR (minorop : Z) (opc : string) (c : opclass) : Inst_Dadao :=
  Inst_ORRR 0x10 minorop [("RxHb", GPRD)] [("RyHc", c); ("RzHd", c)] opc ["RxHb"; "RyHc"; "RzHd"].
Definition COMPARE_RRII (majorop : Z) (opc : string) (imm : opclass) : Inst_Dadao :=
  Inst_RRII majorop [] [("RxHa", GPRD); ("RyHb", GPRD); ("Imm12", imm)] opc ["RxHa"; "RyHb"; "Imm12"].
Definition CONDSET_RRRR (majorop : Z) (opc : string) : Inst_Dadao :=
  Inst_RRRR majorop [("RdHb", GPRD)] [("RdHa", GPRD); ("RdHc", GPRD); ("RdHd", GPRD)] opc
    ["RdHa"; "RdHb"; "RdHc"; "RdHd"].
Definition ORW_ANDNW (majorop : Z) (w : wyde_pos) (opc : string) (x : opclass) : Inst_Dadao :=
  Inst_RWII majorop (wpos_val w) [("RxHa_wb", x)] [("RxHa", x); ("WPos", C_wpos w); ("Imm16", C_wyde w)]
    opc ["RxHa"; "WPos"; "Imm16"].
Definition SETZW_SETOW (majorop : Z) (w : wyde_pos) (opc : string) (x : opclass) : Inst_Dadao :=
  Inst_RWII majorop (wpos_val w) [("RxHa", x)] [("WPos", C_wpos w); ("Imm16", C_wyde w)]
    opc ["RxHa"; "WPos"; "Imm16"].
Definition LOAD_RRII (majorop : Z) (opc : string) (x : opclass) : Inst_Dadao :=
  let_src "src" 0 0 18 (Inst_RRII majorop [("RxHa", x)] [("src", MEM_RRII)] opc ["RxHa"; "src"]).
Definition STORE_RRII (majorop : Z) (opc : string) (x : opclass) : Inst_Dadao :=
  let_src "dst" 0 0 18 (Inst_RRII majorop [] [("RxHa", x); ("dst", MEM_RRII)] opc ["RxHa"; "dst"]).
Definition Inst_RRRI (majorop : Z) outs ins opcstr oprstr : Inst_Dadao :=
  InstDadao majorop []
    [("RxHa", (0, 18, 6)); ("RbHb", (0, 12, 6)); ("RdHc", (0, 6, 6)); ("Imm6", (0, 0, 6))]
    outs ins opcstr oprstr.
(** [let Imm6 = 0] at the rows replaces the count of the class. *)
Definition LOAD_RRRI (majorop : Z) (opc : string) (x : opclass) : Inst_Dadao :=
  let_fixed 0 6 0 (let_src "src" 6 6 12
    (Inst_RRRI majorop [("RxHa", x)] [("src", MEM_RRRI)] opc ["RxHa"; "src"])).
Definition STORE_RRRI (majorop : Z) (opc : string) (x : opclass) : Inst_Dadao :=
  let_fixed 0 6 0 (let_src "dst" 6 6 12
    (Inst_RRRI majorop [] [("RxHa", x); ("dst", MEM_RRRI)] opc ["RxHa"; "dst"])).
Definition BRANCH_RIII (majorop : Z) (opc : string) : Inst_Dadao :=
  Inst_RIII majorop [] [("Imm18", BrTarget); ("RxHa", GPRD)] opc ["RxHa"; "Imm18"].
Definition BRANCH_RRII (majorop : Z) (opc : string) : Inst_Dadao :=
  Inst_RRII majorop [] [("Imm12", BrTarget); ("RxHa", GPRD); ("RyHb", GPRD)] opc ["RxHa"; "RyHb"; "Imm12"].

(** ** The instructions *)
Inductive Opcode :=
| SWYM_OIII
| AND_ORRR | ORR_ORRR | XOR_ORRR | XNOR_ORRR | SHLU_ORRR | SHRS_ORRR | SHRU_ORRR
| RD2RD_ORRI | RD2RB_ORRI | RB2RD_ORRI | RB2RB_ORRI | PseudoSETRD | PseudoSETRB
| SHLU_ORRI | SHRS_ORRI | SHRU_ORRI | ADD_RRRR | SUB_RRRR | ADD_RB_ORRR | SUB_RB_ORRR
| ANDI_RRII | ADDI_RRII | ADDI_RB_RRII | MULS_RRRR | MULU_RRRR | DIVS_RRRR | DIVU_RRRR
| CMPS_ORRR | CMPU_ORRR | CMP_ORRR | CMPS_RRII | CMPU_RRII | CSN | CSZ | CSP
| ORW_RWII (w : wyde_pos) | ORW_RB_RWII (w : wyde_pos)
| ANDNW_RWII (w : wyde_pos) | ANDNW_RB_RWII (w : wyde_pos)
| SETZW_RWII (w : wyde_pos) | SETZW_RB_RWII (w : wyde_pos) | SETOW_RWII (w : wyde_pos)
| LDBS_RRII | LDWS_RRII | LDTS_RRII | LDO_RRII | LDBU_RRII | LDWU_RRII | LDTU_RRII | LDO_RB_RRII
| LDMBS_RRRI | LDMWS_RRRI | LDMTS_RRRI | LDMO_RD_RRRI
| LDMBU_RRRI | LDMWU_RRRI | LDMTU_RRRI | LDMO_RB_RRRI
| STB_RRII | STW_RRII | STT_RRII | STO_RRII | STO_RB_RRII
| STMB_RRRI | STMW_RRRI | STMT_RRRI | STMO_RD_RRRI | STMO_RB_RRRI
| BRN_RIII | BRNN_RIII | BRZ_RIII | BRNZ_RIII | BRP_RIII | BRNP_RIII | BREQ_RRII | BRNE_RRII
| JUMP_IIII | JUMP_RRII | CALL_IIII | CALL_RRII | RET_FIXME.
#[export] Instance Opcode_eq_dec : EqDecision Opcode.
Proof. solve_decision. Defined.

Definition desc (op : Opcode) : Inst_Dadao :=
  match op with
  | SWYM_OIII => Inst_OIII 0x10 0 [] [("Imm18", C_i64lo18z)] "swym" ["Imm18"]
  | AND_ORRR => ALU_ORRR 0x08 "and" | ORR_ORRR => ALU_ORRR 0x09 "orr"
  | XOR_ORRR => ALU_ORRR 0x0a "xor" | XNOR_ORRR => ALU_ORRR 0x0b "xnor"
  | SHLU_ORRR => ALU_ORRR 0x11 "shlu" | SHRS_ORRR => ALU_ORRR 0x12 "shrs"
  | SHRU_ORRR => ALU_ORRR 0x13 "shru"
  | RD2RD_ORRI => R2R_ORRI 0x28 "setrd" GPRD GPRD | RD2RB_ORRI => R2R_ORRI 0x29 "setrb" GPRB GPRD
  | RB2RD_ORRI => R2R_ORRI 0x2a "setrd" GPRD GPRB | RB2RB_ORRI => R2R_ORRI 0x2b "setrb" GPRB GPRB
  | PseudoSETRD => PseudoSETRX "setrd" GPRD | PseudoSETRB => PseudoSETRX "setrb" GPRB
  | SHLU_ORRI => SHIFT_ORRI 0x19 "shlu" | SHRS_ORRI => SHIFT_ORRI 0x1a "shrs"
  | SHRU_ORRI => SHIFT_ORRI 0x1b "shru"
  | ADD_RRRR => ALU_RRRR 0x1a "add" | SUB_RRRR => ALU_RRRR 0x1b "sub"
  | ADD_RB_ORRR => ALU_RB_ORRR 0x2e "add" GPRB GPRD | SUB_RB_ORRR => ALU_RB_ORRR 0x2f "sub" GPRB GPRD
  | ANDI_RRII => ALU_RRII 0x18 "andi" GPRD GPRD C_i64lo12and
  | ADDI_RRII => ALU_RRII 0x19 "addi" GPRD GPRD C_imm12
  | ADDI_RB_RRII => ALU_RRII 0x49 "addi" GPRB GPRB C_imm12
  | MULS_RRRR => ALU_RRRR 0x1c "muls" | MULU_RRRR => ALU_RRRR 0x1d "mulu"
  | DIVS_RRRR => ALU_RRRR 0x1e "divs" | DIVU_RRRR => ALU_RRRR 0x1f "divu"
  | CMPS_ORRR => COMPARE_ORRR 0x24 "cmps" GPRD | CMPU_ORRR => COMPARE_ORRR 0x25 "cmpu" GPRD
  | CMP_ORRR => COMPARE_ORRR 0x2d "cmp" GPRB
  | CMPS_RRII => COMPARE_RRII 0x12 "cmps" C_i64lo12s | CMPU_RRII => COMPARE_RRII 0x13 "cmpu" C_i64lo12z
  | CSN => CONDSET_RRRR 0x20 "csn" | CSZ => CONDSET_RRRR 0x22 "csz" | CSP => CONDSET_RRRR 0x24 "csp"
  | ORW_RWII w => ORW_ANDNW 0x14 w "orw" GPRD | ORW_RB_RWII w => ORW_ANDNW 0x4c w "orw" GPRB
  | ANDNW_RWII w => ORW_ANDNW 0x15 w "andnw" GPRD | ANDNW_RB_RWII w => ORW_ANDNW 0x4d w "andnw" GPRB
  | SETZW_RWII w => SETZW_SETOW 0x16 w "setzw" GPRD | SETZW_RB_RWII w => SETZW_SETOW 0x4e w "setzw" GPRB
  | SETOW_RWII w => SETZW_SETOW 0x17 w "setow" GPRD
  | LDBS_RRII => LOAD_RRII 0x30 "ldbs" GPRD | LDWS_RRII => LOAD_RRII 0x31 "ldws" GPRD
  | LDTS_RRII => LOAD_RRII 0x32 "ldts" GPRD | LDO_RRII => LOAD_RRII 0x33 "ldo" GPRD
  | LDBU_RRII => LOAD_RRII 0x40 "ldbu" GPRD | LDWU_RRII => LOAD_RRII 0x41 "ldwu" GPRD
  | LDTU_RRII => LOAD_RRII 0x42 "ldtu" GPRD | LDO_RB_RRII => LOAD_RRII 0x43 "ldo" GPRB
  | LDMBS_RRRI => LOAD_RRRI 0x34 "ldmbs" GPRD | LDMWS_RRRI => LOAD_RRRI 0x35 "ldmws" GPRD
  | LDMTS_RRRI => LOAD_RRRI 0x36 "ldmts" GPRD | LDMO_RD_RRRI => LOAD_RRRI 0x37 "ldmo" GPRD
  | LDMBU_RRRI => LOAD_RRRI 0x44 "ldmbu" GPRD | LDMWU_RRRI => LOAD_RRRI 0x45 "ldmwu" GPRD
  | LDMTU_RRRI => LOAD_RRRI 0x46 "ldmtu" GPRD | LDMO_RB_RRRI => LOAD_RRRI 0x47 "ldmo" GPRB
  | STB_RRII => STORE_RRII 0x38 "stb" GPRD | STW_RRII => STORE_RRII 0x39 "stw" GPRD
  | STT_RRII => STORE_RRII 0x3a "stt" GPRD | STO_RRII => STORE_RRII 0x3b "sto" GPRD
  | STO_RB_RRII => STORE_RRII 0x4b "sto" GPRB
  | STMB_RRRI => STORE_RRRI 0x3c "stmb" GPRD | STMW_RRRI => STORE_RRRI 0x3d "stmw" GPRD
  | STMT_RRRI => STORE_RRRI 0x3e "stmt" GPRD | STMO_RD_RRRI => STORE_RRRI 0x3f "stmo" GPRD
  | STMO_RB_RRRI => STORE_RRRI 0x4f "stmo" GPRB
  | BRN_RIII => BRANCH_RIII 0x28 "brn" | BRNN_RIII => BRANCH_RIII 0x29 "brnn"
  | BRZ_RIII => BRANCH_RIII 0x2a "brz" | BRNZ_RIII => BRANCH_RIII 0x2b "brnz"
  | BRP_RIII => BRANCH_RIII 0x2c "brp" | BRNP_RIII => BRANCH_RIII 0x2d "brnp"
  | BREQ_RRII => BRANCH_RRII 0x2e "breq" | BRNE_RRII => BRANCH_RRII 0x2f "brne"
  | JUMP_IIII => Inst_IIII 0x64 [] [("Imm24", BrTarget)] "jump" ["Imm24"]
  | JUMP_RRII => Inst_RRII 0x65 [] [("RxHa", GPRB); ("RyHb", GPRD); ("Imm12", C_i64lo12s)]
                   "jump" ["RxHa"; "RyHb"; "Imm12"]
  | CALL_IIII => Inst_IIII 0x6c [] [("Imm24", CallTarget)] "call" ["Imm24"]
  | CALL_RRII => Inst_RRII 0x6d [] [("RxHa", GPRB); ("RyHb", GPRD); ("Imm12", C_i64lo12s)]
                   "call" ["RxHa"; "RyHb"; "Imm12"]
  | RET_FIXME => InstDadao 0x6e [(18, 6, 0); (12, 6, 0); (6, 6, 0); (0, 6, 0)] [] [] [] "ret" []
  end.
Definition isPseudo (op : Opcode) : bool :=
  match op with PseudoSETRD | PseudoSETRB => true | _ => false end.

(** An instruction: its operands are the outputs, then the inputs. *)
Record MCInst := MkMCInst { getOpcode : Opcode; Operands : list MCOperand }.
