(* ===== verification/LlvmMc.v ===== *)
(** The LLVM back end: the encoder, the fixups and the operand decoders of
    lib/Target/Dadao/MCTargetDesc and Disassembler.

    [getBinaryCodeForInstr] is what TableGen generates from the rows of the
    instruction table: every operand, encoded by the method of its class,
    fills the bits its name has in the format.  A failed assertion and an
    llvm_unreachable are [None]. *)
From S2P Require Import Prelude Cpu LlvmData.
Local Open Scope string_scope.
Local Open Scope Z_scope.

(** ** Fixups *)
Inductive FixupKindTy :=
| FK_NONE | FK_Data_1 | FK_Data_2 | FK_Data_4 | FK_Data_8
| FIXUP_DADAO_NONE | FIXUP_DADAO_21 | FIXUP_DADAO_21_F | FIXUP_DADAO_25 | FIXUP_DADAO_18
| FIXUP_DADAO_12 | FIXUP_DADAO_32 | FIXUP_DADAO_HI16 | FIXUP_DADAO_LO16 | FIXUP_DADAO_ABS.
#[export] Instance FixupKindTy_eq_dec : EqDecision FixupKindTy.
Proof. solve_decision. Defined.
Record MCFixup := MkFixup { fx_offset : Z; fx_value : MCExpr; fx_kind : FixupKindTy }.

(** Kind 0 is FK_NONE. *)
Definition FixupKind (Expr : MCExpr) : FixupKindTy :=
  match Expr with
  | MCSymbolRefExpr _ => FIXUP_DADAO_ABS
  | DadaoMCExpr VK_Dadao_None _ => FIXUP_DADAO_ABS
  | DadaoMCExpr VK_Dadao_ABS_HI _ => FIXUP_DADAO_HI16
  | DadaoMCExpr VK_Dadao_ABS_LO _ => FIXUP_DADAO_LO16
  | _ => FK_NONE
  end.

(** ** DadaoMCCodeEmitter *)
Definition getMachineOpValue (MCOp : MCOperand) : option (Z * list MCFixup) :=
  match MCOp with
  | MCReg r => n ← getDadaoRegisterNumbering r; Some (n, [])
  | MCImm v => Some (w32 v, [])
  | MCExp e =>
      let Expr := match e with MCBinaryAdd l _ | MCBinarySub l _ => l | e => e end in
      match Expr with
      | DadaoMCExpr _ _ | MCSymbolRefExpr _ => Some (0, [MkFixup 0 e (FixupKind Expr)])
      | _ => None
      end
  end.

Definition isInt (n v : Z) : bool := (- 2^(n-1) <=? v) && (v <? 2^(n-1)).
Definition isUInt (n v : Z) : bool := (0 <=? v) && (v <? 2^n).

Definition getRRIIMemoryOpValue (Op1 Op2 : MCOperand) : option (Z * list MCFixup) :=
  match Op1 with
  | MCReg r =>
      n ← getDadaoRegisterNumbering r;
      let Encoding := Z.shiftl n 12 in
      match Op2 with
      | MCImm v => if isInt 12 v then Some (Z.lor Encoding (Z.land v 0xfff), []) else None
      | MCExp _ => '(_, fx) ← getMachineOpValue Op2; Some (Encoding, fx)
      | MCReg _ => None
      end
  | _ => None
  end.
Definition getRRRIMemoryOpValue (Op1 Op2 AluMCOp : MCOperand) : option (Z * list MCFixup) :=
  match Op1, Op2, AluMCOp with
  | MCReg r1, MCReg r2, MCImm v =>
      n1 ← getDadaoRegisterNumbering r1;
      n2 ← getDadaoRegisterNumbering r2;
      Some (w32 (Z.lor (Z.lor (Z.shiftl n1 12) (Z.shiftl n2 6)) v), [])
  | _, _, _ => None
  end.
Definition getBranchTargetOpValue (opc : Opcode) (MCOp : MCOperand) : option (Z * list MCFixup) :=
  match MCOp with
  | MCReg _ | MCImm _ => getMachineOpValue MCOp
  | MCExp e =>
      let kind := match opc with
        | BRN_RIII | BRNN_RIII | BRZ_RIII | BRNZ_RIII | BRP_RIII | BRNP_RIII => FIXUP_DADAO_18
        | CALL_RRII | JUMP_RRII | BREQ_RRII | BRNE_RRII => FIXUP_DADAO_12
        | _ => FIXUP_DADAO_25
        end in
      Some (0, [MkFixup 0 e kind])
  end.

(** The operands of an instruction and the value each is encoded as; an
    operand without bits in the word is skipped.  A memory operand is several
    MCOperands, a row may be given more operands than it names. *)
Definition op_size (c : opclass) : nat :=
  match c with MEM_RRII => 2 | MEM_RRRI => 3 | _ => 1 end.
Definition op_value (opc : Opcode) (c : opclass) (l : list MCOperand) : option (Z * list MCFixup) :=
  match c, l with
  | MEM_RRII, [o1; o2] => getRRIIMemoryOpValue o1 o2
  | MEM_RRRI, [o1; o2; o3] => getRRRIMemoryOpValue o1 o2 o3
  | (BrTarget | CallTarget), [o] => getBranchTargetOpValue opc o
  | (MEM_RRII | MEM_RRRI), _ => None
  | _, [o] => getMachineOpValue o
  | _, _ => None
  end.
Definition has_field (d : Inst_Dadao) (n : string) : bool :=
  List.existsb (fun f => String.eqb n (fst f)) (field_bits d).
Fixpoint op_values (opc : Opcode) (ops : list (string * opclass)) (l : list MCOperand)
    : option (list (string * Z) * list MCFixup) :=
  match ops with
  | [] => Some ([], [])
  | (n, c) :: ops =>
      if (length l <? op_size c)%nat then None
      else
        '(vs, fs) ← op_values opc ops (drop (op_size c) l);
        if has_field (desc opc) n then
          '(v, f) ← op_value opc c (take (op_size c) l);
          Some ((n, v) :: vs, (f ++ fs)%list)
        else Some (vs, fs)
  end.
Definition operand_list (opc : Opcode) : list (string * opclass) :=
  (OutOperandList (desc opc) ++ InOperandList (desc opc))%list.

(** Bits [pos, pos + len) of the word. *)
Definition put_bits (w : Z) (f : Z * Z * Z) : Z :=
  let '(pos, len, v) := f in Z.lor w (Z.shiftl (Z.land v (Z.ones len)) pos).
Definition field_value (vs : list (string * Z)) (f : string * (Z * Z * Z)) : option (Z * Z * Z) :=
  let '(n, (lo, pos, len)) := f in v ← assoc n vs; Some (pos, len, Z.shiftr v lo).
Definition getBinaryCodeForInstr (Inst : MCInst) : option (Z * list MCFixup) :=
  let opc := getOpcode Inst in
  if isPseudo opc then None
  else
    '(vs, fx) ← op_values opc (operand_list opc) (Operands Inst);
    fs ← mapM (field_value vs) (field_bits (desc opc));
    Some (fold_left put_bits (fixed_bits (desc opc) ++ fs) (Z.shiftl (MajorOpcode (desc opc)) 24), fx).

(** Four bytes, the least significant first. *)
Definition emit_bytes (Value : Z) : list Z :=
  map (fun i => Z.land (Z.shiftr Value i) 0xff) [0; 8; 16; 24].
Definition emit_word (Inst : MCInst) : option (list Z * list MCFixup) :=
  '(Value, fx) ← getBinaryCodeForInstr Inst; Some (emit_bytes Value, fx).
Definition isExpr (o : MCOperand) : bool := match o with MCExp _ => true | _ => false end.
Definition setrd_symbol (Inst : MCInst) : option bool :=
  match getOpcode Inst with
  | PseudoSETRD => Some true
  | RD2RD_ORRI => o ← Operands Inst !! 1%nat; Some (isExpr o)
  | _ => Some false
  end.
Definition encodeInstruction (Inst : MCInst) : option (list Z * list MCFixup) :=
  sym ← setrd_symbol Inst;
  if sym : bool then
    o0 ← Operands Inst !! 0%nat; o1 ← Operands Inst !! 1%nat;
    match o1 with
    | MCExp e =>
        '(b0, f0) ← emit_word (MkMCInst (SETZW_RWII WPOS_0) [o0; MCImm 0; MCImm 0]);
        '(b1, f1) ← emit_word (MkMCInst SWYM_OIII [MCImm 0]);
        Some ((b0 ++ b1 ++ b1 ++ b1)%list, (MkFixup 0 e FIXUP_DADAO_ABS :: f0 ++ f1 ++ f1 ++ f1)%list)
    | _ => None
    end
  else emit_word Inst.

(** ** DadaoAsmBackend *)
Definition adjustFixupValue (Kind : FixupKindTy) (Value : Z) : option Z :=
  match Kind with
  | FK_Data_1 | FK_Data_2 | FK_Data_4 | FK_Data_8 => Some Value
  | FIXUP_DADAO_21 | FIXUP_DADAO_21_F | FIXUP_DADAO_32 | FIXUP_DADAO_HI16 | FIXUP_DADAO_LO16
  | FIXUP_DADAO_ABS => Some Value
  | FIXUP_DADAO_25 | FIXUP_DADAO_18 | FIXUP_DADAO_12 => Some (Z.shiftr Value 2)
  | FK_NONE | FIXUP_DADAO_NONE => None
  end.

(** TargetOffset, TargetSize and FKF_IsPCRel; the kinds FK_Data_n of LLVM are
    n bytes. *)
Definition getFixupKindInfo (Kind : FixupKindTy) : Z * Z * bool :=
  match Kind with
  | FK_NONE => (0, 0, false)
  | FK_Data_1 => (0, 8, false) | FK_Data_2 => (0, 16, false)
  | FK_Data_4 => (0, 32, false) | FK_Data_8 => (0, 64, false)
  | FIXUP_DADAO_NONE => (0, 32, false)
  | FIXUP_DADAO_21 => (16, 16, false) | FIXUP_DADAO_21_F => (16, 16, false)
  | FIXUP_DADAO_25 => (0, 24, true) | FIXUP_DADAO_18 => (0, 18, true) | FIXUP_DADAO_12 => (0, 12, true)
  | FIXUP_DADAO_32 => (0, 32, false)
  | FIXUP_DADAO_HI16 => (16, 16, false) | FIXUP_DADAO_LO16 => (16, 16, false)
  | FIXUP_DADAO_ABS => (16, 16, false)
  end.
Definition TargetSize (Kind : FixupKindTy) : Z := snd (fst (getFixupKindInfo Kind)).

Fixpoint read_bytes (n : nat) (Data : list Z) (off : Z) : option Z :=
  match n with
  | O => Some 0
  | S n =>
      b ← zlookup Data off; r ← read_bytes n Data (off + 1);
      Some (Z.lor b (Z.shiftl r 8))
  end.
Fixpoint write_bytes (n : nat) (Data : list Z) (off v : Z) : option (list Z) :=
  match n with
  | O => Some Data
  | S n =>
      _ ← zlookup Data off;
      write_bytes n (zupdate Data off (Z.land v 0xff)) (off + 1) (Z.shiftr v 8)
  end.
Definition applyFixup (Fixup : MCFixup) (Data : list Z) (Value : Z) : option (list Z) :=
  let Kind := fx_kind Fixup in
  Value ← adjustFixupValue Kind Value;
  if Value =? 0 then Some Data
  else
    let Offset := fx_offset Fixup in
    let NumBytes := Z.to_nat ((TargetSize Kind + 7) / 8) in
    CurVal ← read_bytes NumBytes Data Offset;
    let Mask := Z.shiftr (w64 (-1)) (64 - TargetSize Kind) in
    write_bytes NumBytes Data Offset (Z.lor CurVal (Z.land Value Mask)).

(** [None] is the result false. *)
Definition writeNopData (Count : Z) : option (list Z) :=
  if Count mod 4 =? 0 then Some (concat (replicate (Z.to_nat (Count / 4)) [0x15; 0; 0; 0])) else None.

(** ** DadaoELFObjectWriter *)
Definition R_DADAO_21 : Z := 1.
Definition R_DADAO_21_F : Z := 2.
Definition R_DADAO_25 : Z := 16.
Definition R_DADAO_HI16 : Z := 7.
Definition R_DADAO_LO16 : Z := 6.
Definition ELF_R_DADAO_NONE : Z := 0.
Definition ELF_R_DADAO_32 : Z := 4.
Definition ELF_R_DADAO_64 : Z := 5.
Definition ELF_R_DADAO_ABS : Z := 13.
Definition getRelocType (Kind : FixupKindTy) : option Z :=
  match Kind with
  | FIXUP_DADAO_21 => Some R_DADAO_21
  | FIXUP_DADAO_21_F => Some R_DADAO_21_F
  | FIXUP_DADAO_25 => Some R_DADAO_25
  | FIXUP_DADAO_32 | FK_Data_4 => Some ELF_R_DADAO_32
  | FK_Data_8 => Some ELF_R_DADAO_64
  | FIXUP_DADAO_HI16 => Some R_DADAO_HI16
  | FIXUP_DADAO_LO16 => Some R_DADAO_LO16
  | FIXUP_DADAO_ABS => Some ELF_R_DADAO_ABS
  | FIXUP_DADAO_NONE => Some ELF_R_DADAO_NONE
  | _ => None
  end.
Definition needsRelocateWithSymbol (Type_ : Z) : bool :=
  bool_decide (Type_ ∈ [R_DADAO_21; R_DADAO_21_F; R_DADAO_25; ELF_R_DADAO_32; ELF_R_DADAO_64;
                        R_DADAO_HI16; ELF_R_DADAO_ABS]).
(** recordRelocation, as the fixup of lib/MC/ELFObjectWriter.cpp has it. *)
Definition relocation_offset (Type_ FixupOffset : Z) : Z :=
  if (Type_ =? R_DADAO_25) || (Type_ =? ELF_R_DADAO_ABS) then FixupOffset + 4 else FixupOffset.

(** ** DadaoDisassembler *)
Definition readInstruction32 (Bytes : list Z) : option Z :=
  if (length Bytes <? 4)%nat then None
  else
    b3 ← Bytes !! 3%nat; b2 ← Bytes !! 2%nat; b1 ← Bytes !! 1%nat; b0 ← Bytes !! 0%nat;
    Some (Z.lor (Z.lor (Z.lor (Z.shiftl b3 24) (Z.shiftl b2 16)) (Z.shiftl b1 8)) b0).
Definition DecodeGPRDRegisterClass (RegNo : Z) : option MCOperand :=
  if 63 <? RegNo then None else Some (MCReg (RDx RegNo)).
Definition DecodeGPRBRegisterClass (RegNo : Z) : option MCOperand :=
  if 63 <? RegNo then None else Some (MCReg (RBx RegNo)).
Definition decodeRRIIMemoryValue (Insn : Z) : list MCOperand :=
  [MCReg (RBx (Z.land (Z.shiftr Insn 12) 0x3f)); MCImm (sext 12 (Z.land Insn 0xfff))].
Definition decodeRRRIMemoryValue (Insn : Z) : list MCOperand :=
  [MCReg (RBx (Z.land (Z.shiftr Insn 12) 0x3f)); MCReg (RDx (Z.land (Z.shiftr Insn 6) 0x3f))].
(** No symbol of the address is known. *)
Definition decodeBranch (Insn : Z) : list MCOperand := [MCImm Insn].
Definition decodeWPosOperand (wpos : Z) : option MCOperand :=
  if 4 <=? wpos then None else Some (MCImm wpos).
