(* ===== verification/LlvmLower.v ===== *)
(** The LLVM back end: the nodes of the selection DAG and the lowering and
    combining of DadaoISelLowering.cpp on them.

    Values have types; a leaf is a value computed elsewhere.  The operations
    are those of LLVM's ISD that the lowering of this target builds or looks
    at, the nodes of DadaoISD, and machine nodes, whose operations are
    instructions of the table.  A shift by 64 or more is an undefined value of
    LLVM: it is the parameter [big_shift].  [DAG.getNode] builds the node it
    is asked for; an llvm_unreachable is [None]. *)
From S2P Require Import Prelude IsaArith LlvmData.
Local Open Scope Z_scope.

Inductive MVT := i1 | i32 | i64 | bp64.
#[export] Instance MVT_eq_dec : EqDecision MVT.
Proof. solve_decision. Defined.

Inductive ISDOp := ISD_ADD | ISD_SUB | ISD_AND | ISD_OR | ISD_XOR | ISD_SHL | ISD_SRL | ISD_SRA.
#[export] Instance ISDOp_eq_dec : EqDecision ISDOp.
Proof. solve_decision. Defined.
(** ISD::CondCode; the others are comparisons of floating-point numbers. *)
Inductive ISDCond :=
| SETEQ | SETNE | SETLT | SETLE | SETGT | SETGE | SETULT | SETULE | SETUGT | SETUGE
| SETONE | SETUNE | SETOGE | SETOLE | SETOLT | SETOGT | SETOEQ | SETUEQ | SETO | SETUO.
#[export] Instance ISDCond_eq_dec : EqDecision ISDCond.
Proof. solve_decision. Defined.

Inductive SDNode :=
| Leaf (vt : MVT) (v : Z)
| Constant (vt : MVT) (v : Z)
| CopyFromReg (r : Register) (v : Z)
| BinOp (op : ISDOp) (a b : SDNode)
| SetCC (cc : ISDCond) (a b : SDNode)
| Select (c t f : SDNode)
| ZeroExtend (vt : MVT) (c : SDNode)
| SignExtend (vt : MVT) (c : SDNode)
| D_SETCC (a b : SDNode) (cc : LPCC)
| D_SELECT_CC (a b t f : SDNode) (cc : LPCC)
| Mach1 (op : Opcode) (res : nat) (a : SDNode)
| Mach2 (op : Opcode) (res : nat) (a b : SDNode)
| Mach3 (op : Opcode) (res : nat) (a b c : SDNode).

(** The type of a node's value; comparisons are made in registers. *)
Fixpoint getValueType (n : SDNode) : MVT :=
  match n with
  | Leaf vt _ | Constant vt _ | ZeroExtend vt _ | SignExtend vt _ => vt
  | BinOp _ a _ => getValueType a
  | Select _ t _ | D_SELECT_CC _ _ t _ _ => getValueType t
  | _ => i64
  end.

(** Types: what a legal DAG of this target satisfies. *)
Definition in_type (vt : MVT) (v : Z) : Prop :=
  match vt with i1 => 0 <= v < 2 | i32 => 0 <= v < 2^32 | i64 | bp64 => 0 <= v < 2^64 end.
Inductive has_type : SDNode -> MVT -> Prop :=
| T_leaf vt v : in_type vt v -> has_type (Leaf vt v) vt
| T_const vt v : in_type vt v -> has_type (Constant vt v) vt
| T_copy r v : in_type i64 v -> has_type (CopyFromReg r v) i64
| T_bin op a b : has_type a i64 -> has_type b i64 -> has_type (BinOp op a b) i64
| T_setcc cc a b : has_type a i64 -> has_type b i64 -> has_type (SetCC cc a b) i64
| T_select c t f ct : has_type c ct -> ct = i1 \/ ct = i64 -> has_type t i64 -> has_type f i64 ->
    has_type (Select c t f) i64
| T_zext c ct : has_type c ct -> ct <> bp64 -> has_type (ZeroExtend i64 c) i64
| T_sext c ct : has_type c ct -> ct <> bp64 -> has_type (SignExtend i64 c) i64
| T_dsetcc a b cc : has_type a i64 -> has_type b i64 -> has_type (D_SETCC a b cc) i64
| T_dselect a b t f cc : has_type a i64 -> has_type b i64 -> has_type t i64 -> has_type f i64 ->
    has_type (D_SELECT_CC a b t f cc) i64
| T_mach1 op r a : has_type a i64 -> has_type (Mach1 op r a) i64
| T_mach2 op r a b : has_type a i64 -> has_type b i64 -> has_type (Mach2 op r a b) i64
| T_mach3 op r a b c : has_type a i64 -> has_type b i64 -> has_type c i64 -> has_type (Mach3 op r a b c) i64.
#[export] Hint Constructors has_type : dag.

(** ** Evaluation *)

(** An integer comparison of two 64-bit values. *)
Definition isd_cond (cc : ISDCond) (x y : Z) : option bool :=
  match cc with
  | SETEQ => Some (x =? y) | SETNE => Some (negb (x =? y))
  | SETLT => Some (s64 x <? s64 y) | SETLE => Some (s64 x <=? s64 y)
  | SETGT => Some (s64 y <? s64 x) | SETGE => Some (s64 y <=? s64 x)
  | SETULT => Some (x <? y) | SETULE => Some (x <=? y)
  | SETUGT => Some (y <? x) | SETUGE => Some (y <=? x)
  | _ => None
  end.
(** What the names of the condition codes say; plus and minus test the first
    value. *)
Definition icc_cond (cc : LPCC) (x y : Z) : option bool :=
  match cc with
  | ICC_EQ => Some (x =? y) | ICC_NE => Some (negb (x =? y))
  | ICC_LT => Some (s64 x <? s64 y) | ICC_LE => Some (s64 x <=? s64 y)
  | ICC_GT => Some (s64 y <? s64 x) | ICC_GE => Some (s64 y <=? s64 x)
  | ICC_ULT => Some (x <? y) | ICC_ULE => Some (x <=? y)
  | ICC_UGT => Some (y <? x) | ICC_UGE => Some (y <=? x)
  | ICC_PL => Some (0 <=? s64 x) | ICC_MI => Some (s64 x <? 0)
  | _ => None
  end.

(** The results of an instruction, outputs in the order of the table, from its
    inputs.  The theorem [machine_sem_runs] derives this from the emulator. *)
Definition machine_sem (op : Opcode) (vals : list Z) : option (list Z) :=
  match op, vals with
  | ADD_RRRR, [x; y] => Some [w64 (Z.shiftr (s64 x + s64 y) 64); w64 (x + y)]
  | SUB_RRRR, [x; y] => Some [w64 (Z.shiftr (s64 x - s64 y) 64); w64 (x - y)]
  | MULS_RRRR, [x; y] => Some [w64 (Z.shiftr (s64 x * s64 y) 64); w64 (s64 x * s64 y)]
  | MULU_RRRR, [x; y] => Some [w64 (Z.shiftr (x * y) 64); w64 (x * y)]
  | DIVS_RRRR, [x; y] =>
      if (y =? 0) || ((s64 x =? - 2^63) && (s64 y =? -1)) then None
      else Some [w64 (Z.rem (s64 x) (s64 y)); w64 (Z.quot (s64 x) (s64 y))]
  | DIVU_RRRR, [x; y] => if y =? 0 then None else Some [x mod y; x / y]
  | AND_ORRR, [x; y] => Some [Z.land x y]
  | ORR_ORRR, [x; y] => Some [Z.lor x y]
  | XOR_ORRR, [x; y] => Some [Z.lxor x y]
  | SHLU_ORRR, [x; y] => if y <? 64 then Some [w64 (Z.shiftl x y)] else None
  | SHRU_ORRR, [x; y] => if y <? 64 then Some [Z.shiftr x y] else None
  | SHRS_ORRR, [x; y] => if y <? 64 then Some [w64 (Z.shiftr (s64 x) y)] else None
  | SHLU_ORRI, [x; i] => Some [w64 (Z.shiftl x (i mod 2^6))]
  | SHRU_ORRI, [x; i] => Some [Z.shiftr x (i mod 2^6)]
  | SHRS_ORRI, [x; i] => Some [w64 (Z.shiftr (s64 x) (i mod 2^6))]
  | ADDI_RRII, [x; i] => Some [w64 (x + sext 12 i)]
  | ANDI_RRII, [x; i] => Some [Z.land x (i mod 2^12)]
  | CMPS_ORRR, [x; y] => Some [three_way s64 x y]
  | CMPU_ORRR, [x; y] => Some [three_way (fun v => v) x y]
  | CSN, [c; x; y] => Some [if s64 c <? 0 then x else y]
  | CSZ, [c; x; y] => Some [if c =? 0 then x else y]
  | CSP, [c; x; y] => Some [if 0 <? s64 c then x else y]
  | _, _ => None
  end.
Definition machine_res (op : Opcode) (res : nat) (vals : list Z) : option Z :=
  outs ← machine_sem op vals; outs !! res.

Section Eval.
Variable big_shift : ISDOp -> Z -> Z -> Z.
Definition isd_op (op : ISDOp) (x y : Z) : Z :=
  match op with
  | ISD_ADD => w64 (x + y)
  | ISD_SUB => w64 (x - y)
  | ISD_AND => Z.land x y
  | ISD_OR => Z.lor x y
  | ISD_XOR => Z.lxor x y
  | ISD_SHL => if y <? 64 then w64 (Z.shiftl x y) else w64 (big_shift op x y)
  | ISD_SRL => if y <? 64 then Z.shiftr x y else w64 (big_shift op x y)
  | ISD_SRA => if y <? 64 then w64 (Z.shiftr (s64 x) y) else w64 (big_shift op x y)
  end.
(** Sign extension from the type of the operand. *)
Definition sext_from (vt : MVT) (v : Z) : Z :=
  w64 (sext (match vt with i1 => 1 | i32 => 32 | _ => 64 end) v).
Definition choose (c t f : Z) : option Z :=
  if c =? 1 then Some t else if c =? 0 then Some f else None.

Fixpoint eval (n : SDNode) : option Z :=
  match n with
  | Leaf _ v | Constant _ v | CopyFromReg _ v => Some v
  | BinOp op a b => x ← eval a; y ← eval b; Some (isd_op op x y)
  | SetCC cc a b => x ← eval a; y ← eval b; b2z <$> isd_cond cc x y
  | Select c t f => b ← eval c; x ← eval t; y ← eval f; choose b x y
  | ZeroExtend _ c => eval c
  | SignExtend _ c => v ← eval c; Some (sext_from (getValueType c) v)
  | D_SETCC a b cc => x ← eval a; y ← eval b; b2z <$> icc_cond cc x y
  | D_SELECT_CC a b t f cc =>
      x ← eval a; y ← eval b; u ← eval t; v ← eval f;
      (fun c : bool => if c then u else v) <$> icc_cond cc x y
  | Mach1 op r a => x ← eval a; machine_res op r [x]
  | Mach2 op r a b => x ← eval a; y ← eval b; machine_res op r [x; y]
  | Mach3 op r a b c => x ← eval a; y ← eval b; z ← eval c; machine_res op r [x; y; z]
  end.
End Eval.

(** When a branch on registers is taken. *)
Definition branch_sem (op : Opcode) (vals : list Z) : option bool :=
  match op, vals with
  | BRN_RIII, [x] => Some (s64 x <? 0)
  | BRNN_RIII, [x] => Some (0 <=? s64 x)
  | BRZ_RIII, [x] => Some (x =? 0)
  | BRNZ_RIII, [x] => Some (negb (x =? 0))
  | BRP_RIII, [x] => Some (0 <? s64 x)
  | BRNP_RIII, [x] => Some (s64 x <=? 0)
  | BREQ_RRII, [x; y] => Some (x =? y)
  | BRNE_RRII, [x; y] => Some (negb (x =? y))
  | _, _ => None
  end.

(** ** Comparisons *)

(** The condition code and the right-hand side the caller goes on with. *)
Definition is_const (v : Z) (n : SDNode) : bool :=
  match n with Constant _ c => c =? v | _ => false end.
Definition IntCondCCodeToICC (SetCCOpcode : ISDCond) (RHS : SDNode) : option (LPCC * SDNode) :=
  match SetCCOpcode with
  | SETEQ => Some (ICC_EQ, RHS)
  | SETGT =>
      if is_const 0xFFFFFFFF RHS then Some (ICC_PL, Constant (getValueType RHS) 0)
      else Some (ICC_GT, RHS)
  | SETUGT => Some (ICC_UGT, RHS)
  | SETLT => if is_const 0 RHS then Some (ICC_MI, RHS) else Some (ICC_LT, RHS)
  | SETULT => Some (ICC_ULT, RHS)
  | SETLE =>
      if is_const 0xFFFFFFFF RHS then Some (ICC_MI, Constant (getValueType RHS) 0)
      else Some (ICC_LE, RHS)
  | SETULE => Some (ICC_ULE, RHS)
  | SETGE => if is_const 0 RHS then Some (ICC_PL, RHS) else Some (ICC_GE, RHS)
  | SETUGE => Some (ICC_UGE, RHS)
  | SETNE => Some (ICC_NE, RHS)
  | SETONE | SETUNE | SETOGE | SETOLE | SETOLT | SETOGT | SETOEQ | SETUEQ | SETO | SETUO => None
  end.

(** A branch: the condition code, the two values and the destination. *)
Record D_BR_CC := BrCC { br_cc : LPCC; br_lhs : SDNode; br_rhs : SDNode; br_dest : Z }.
Definition LowerBR_CC (Cond : ISDCond) (LHS RHS : SDNode) (Dest : Z) : option D_BR_CC :=
  '(CC, RHS) ← IntCondCCodeToICC Cond RHS; Some (BrCC CC LHS RHS Dest).
Definition LowerSETCC (LHS RHS : SDNode) (Cond : ISDCond) : option SDNode :=
  '(CC, RHS) ← IntCondCCodeToICC Cond RHS; Some (D_SETCC LHS RHS CC).
Definition LowerSELECT_CC (LHS RHS TrueV FalseV : SDNode) (Cond : ISDCond) : option SDNode :=
  '(CC, RHS) ← IntCondCCodeToICC Cond RHS; Some (D_SELECT_CC LHS RHS TrueV FalseV CC).

(** ** Shifts of two words *)
Definition VTBits : Z := 64.
Definition LowerSHL_PARTS (ShOpLo ShOpHi ShAmt : SDNode) : SDNode * SDNode :=
  let RevShAmt := BinOp ISD_SUB (Constant i64 VTBits) ShAmt in
  let LoBitsForHi := BinOp ISD_SRL ShOpLo RevShAmt in
  let Zero := Constant i64 0 in
  let SetCC0 := SetCC SETEQ ShAmt Zero in
  let LoBitsForHi := Select SetCC0 Zero LoBitsForHi in
  let ExtraShAmt := BinOp ISD_SUB ShAmt (Constant i64 VTBits) in
  let HiBitsForHi := BinOp ISD_SHL ShOpHi ShAmt in
  let HiForNormalShift := BinOp ISD_OR LoBitsForHi HiBitsForHi in
  let HiForBigShift := BinOp ISD_SHL ShOpLo ExtraShAmt in
  let SetCC1 := SetCC SETGE ExtraShAmt Zero in
  let Hi := Select SetCC1 HiForBigShift HiForNormalShift in
  let LoForNormalShift := BinOp ISD_SHL ShOpLo ShAmt in
  let Lo := Select SetCC1 (Constant i64 0) LoForNormalShift in
  (Lo, Hi).

Definition LowerSRL_PARTS (ShOpLo ShOpHi ShAmt : SDNode) : SDNode * SDNode :=
  let Zero := Constant i64 0 in
  let NegatedPlus32 := BinOp ISD_SUB (Constant i64 VTBits) ShAmt in
  let SetCC0 := SetCC SETLE NegatedPlus32 Zero in
  let Hi := BinOp ISD_SRL ShOpHi ShAmt in
  let Hi := Select SetCC0 Zero Hi in
  let Lo := BinOp ISD_SRL ShOpLo ShAmt in
  let Lo := Select SetCC0 Hi Lo in
  let CarryBits := BinOp ISD_SHL ShOpHi NegatedPlus32 in
  let ShiftIsZero := SetCC SETEQ ShAmt Zero in
  let Lo := Select ShiftIsZero Lo (BinOp ISD_OR Lo CarryBits) in
  (Lo, Hi).

(** ** Combining selects of a constant with their use *)
Definition all_ones (vt : MVT) : Z := match vt with i1 => 1 | i32 => 2^32 - 1 | _ => 2^64 - 1 end.
Definition isNullConstant (N : SDNode) : bool := is_const 0 N.
Definition isAllOnesConstant (N : SDNode) : bool :=
  match N with Constant vt c => c =? all_ones vt | _ => false end.
Definition isZeroOrAllOnes (N : SDNode) (AllOnes : bool) : bool :=
  if AllOnes then isAllOnesConstant N else isNullConstant N.

(** The condition, Invert and OtherOp. *)
Definition isConditionalZeroOrAllOnes (N : SDNode) (AllOnes : bool) : option (SDNode * bool * SDNode) :=
  match N with
  | Select CC X1 X2 =>
      if isZeroOrAllOnes X1 AllOnes then Some (CC, false, X2)
      else if isZeroOrAllOnes X2 AllOnes then Some (CC, true, X1)
      else None
  | ZeroExtend VT CC =>
      if AllOnes then None
      else if negb (bool_decide (getValueType CC = i1)) then None
      else Some (CC, true, Constant VT 1)
  | SignExtend VT CC =>
      if negb (bool_decide (getValueType CC = i1)) then None
      else Some (CC, negb AllOnes, if AllOnes then Constant VT 0 else Constant VT (all_ones VT))
  | _ => None
  end.

Definition combineSelectAndUse (opc : ISDOp) (Slct OtherOp : SDNode) (AllOnes : bool) : option SDNode :=
  '(CCOp, SwapSelectOps, NonConstantVal) ← isConditionalZeroOrAllOnes Slct AllOnes;
  let TrueVal := OtherOp in
  let FalseVal := BinOp opc OtherOp NonConstantVal in
  Some (if SwapSelectOps : bool then Select CCOp FalseVal TrueVal else Select CCOp TrueVal FalseVal).

Section Combine.
Variable hasOneUse : SDNode -> bool.

Definition combineSelectAndUseCommutative (opc : ISDOp) (X0 X1 : SDNode) (AllOnes : bool) : option SDNode :=
  match (if hasOneUse X0 then combineSelectAndUse opc X0 X1 AllOnes else None) with
  | Some Result => Some Result
  | None => if hasOneUse X1 then combineSelectAndUse opc X1 X0 AllOnes else None
  end.
Definition PerformSUBCombine (X0 X1 : SDNode) : option SDNode :=
  if hasOneUse X1 then combineSelectAndUse ISD_SUB X1 X0 false else None.
(** [None] leaves the node as it is. *)
Definition PerformDAGCombine (N : SDNode) : option SDNode :=
  match N with
  | BinOp ((ISD_ADD | ISD_OR | ISD_XOR) as opc) X0 X1 => combineSelectAndUseCommutative opc X0 X1 false
  | BinOp ISD_AND X0 X1 => combineSelectAndUseCommutative ISD_AND X0 X1 true
  | BinOp ISD_SUB X0 X1 => PerformSUBCombine X0 X1
  | _ => None
  end.
End Combine.

(** ** Known bits: the bits known to be zero and those known to be one. *)
Record KnownBits := Known { known_zero : Z; known_one : Z }.
Definition commonBits (a b : KnownBits) : KnownBits :=
  Known (Z.land (known_zero a) (known_zero b)) (Z.land (known_one a) (known_one b)).
(** [rec] is DAG.computeKnownBits on an operand. *)
Definition computeKnownBitsForTargetNode (rec : SDNode -> KnownBits) (Op : SDNode) (known : KnownBits)
    : KnownBits :=
  match Op with
  | D_SETCC _ _ _ => Known (2^64 - 2) 0
  | D_SELECT_CC a b _ _ _ => commonBits (rec a) (rec b)
  | _ => known
  end.

(** ** Inline assembly constraints: the constant accepted by a letter
    (I, J, O, K, L, M, N by their codes). *)
Definition isInt64 (n v : Z) : bool := (- 2^(n-1) <=? v) && (v <? 2^(n-1)).
Definition LowerAsmOperandForConstraint (letter : Ascii.ascii) (C : Z) : option Z :=
  let sv := s64 C in
  let at_ (c : Z) := Z.of_nat (Ascii.nat_of_ascii letter) =? c in
  (if at_ 73 then if isInt64 16 sv then Some sv else None
   else if at_ 74 || at_ 79 then if C =? 0 then Some 0 else None
   else if at_ 75 then if (0 <=? C) && (C <? 2^16) then Some sv else None
   else if at_ 76 then if C <=? 31 then Some C else None
   else if at_ 77 then if isInt64 32 sv && (Z.land sv 0xffff =? 0) then Some sv else None
   else if at_ 78 then if (-33554432 <=? sv) && (sv <=? 33554431) then Some sv else None
   else None).
