(* ===== verification/LlvmIsel.v ===== *)
(** The LLVM back end: instruction selection, DadaoISelDAGToDAG.cpp and the
    constant patterns of DadaoInstrInfo.td.  An llvm_unreachable is [None]. *)
From S2P Require Import Prelude LlvmData LlvmMc LlvmLower.
Local Open Scope Z_scope.

(** ** Constants *)

(** [Select] on a constant: zero is the register rdzero, every other constant
    is left to the patterns. *)
Definition Select_Constant (n : SDNode) : SDNode :=
  match n with
  | Constant i64 v => if v =? 0 then CopyFromReg RDZERO 0 else n
  | _ => n
  end.

(** The transformations and predicates on immediates; the argument is
    N->getZExtValue(). *)
Definition Wyde0 (N : Z) : Z := Z.land (Z.shiftr N 0) 0xFFFF.
Definition Wyde1 (N : Z) : Z := Z.land (Z.shiftr N 16) 0xFFFF.
Definition Wyde2 (N : Z) : Z := Z.land (Z.shiftr N 32) 0xFFFF.
Definition Wyde3 (N : Z) : Z := Z.land (Z.shiftr N 48) 0xFFFF.
Definition NotWyde1 (N : Z) : Z := Z.land (w64 (Z.lnot (Z.shiftr N 16))) 0xFFFF.
Definition NotWyde2 (N : Z) : Z := Z.land (w64 (Z.lnot (Z.shiftr N 32))) 0xFFFF.
Definition i64w (w : wyde_pos) (N : Z) : bool := Z.land N (Z.shiftl 0xFFFF (16 * wpos_val w)) =? N.
Definition WydeOf (w : wyde_pos) (N : Z) : Z :=
  match w with WPOS_0 => Wyde0 N | WPOS_1 => Wyde1 N | WPOS_2 => Wyde2 N | WPOS_3 => Wyde3 N end.
Definition not64 (m : Z) : Z := 2^64 - 1 - m.
Definition oimm16 (N : Z) : bool := Z.land (not64 0xFFFF) N =? not64 0xFFFF.
Definition zimm32 (N : Z) : bool := Z.land (not64 0xFFFFFFFF) N =? 0.
Definition oimm32 (N : Z) : bool := Z.land (not64 0xFFFFFFFF) N =? not64 0xFFFFFFFF.
Definition zimm48 (N : Z) : bool := Z.land (not64 0xFFFFFFFFFFFF) N =? 0.
Definition oimm48 (N : Z) : bool := Z.land (not64 0xFFFFFFFFFFFF) N =? not64 0xFFFFFFFFFFFF.

(** A pattern: its predicate and the instructions it selects, in the order
    they execute, as (opcode, immediate). *)
Definition setzw_pattern (w : wyde_pos) : (Z -> bool) * (Z -> list (Opcode * Z)) :=
  (i64w w, fun N => [(SETZW_RWII w, WydeOf w N)]).
Definition constant_patterns : list ((Z -> bool) * (Z -> list (Opcode * Z))) :=
  [ setzw_pattern WPOS_0; setzw_pattern WPOS_1; setzw_pattern WPOS_2; setzw_pattern WPOS_3;
    (oimm16, fun N => [(SETOW_RWII WPOS_0, Wyde0 N)]);
    (zimm32, fun N => [(SETZW_RWII WPOS_0, Wyde0 N); (ORW_RWII WPOS_1, Wyde1 N)]);
    (oimm32, fun N => [(SETOW_RWII WPOS_0, Wyde0 N); (ANDNW_RWII WPOS_1, NotWyde1 N)]);
    (zimm48, fun N => [(SETZW_RWII WPOS_0, Wyde0 N); (ORW_RWII WPOS_1, Wyde1 N);
                       (ORW_RWII WPOS_2, Wyde2 N)]);
    (oimm48, fun N => [(SETOW_RWII WPOS_0, Wyde0 N); (ANDNW_RWII WPOS_1, NotWyde1 N);
                       (ANDNW_RWII WPOS_2, NotWyde2 N)]);
    (fun _ => true, fun N => [(SETZW_RWII WPOS_0, Wyde0 N); (ORW_RWII WPOS_1, Wyde1 N);
                              (ORW_RWII WPOS_2, Wyde2 N); (ORW_RWII WPOS_3, Wyde3 N)]) ].
(** The instructions with the register they load; the output of orw and andnw
    is tied to their input. *)
Definition constant_inst (r : Register) (p : Opcode * Z) : MCInst :=
  let '(op, x) := p in
  match op with
  | SETZW_RWII w | SETOW_RWII w => MkMCInst op [MCReg r; MCImm (wpos_val w); MCImm x]
  | ORW_RWII w | ANDNW_RWII w => MkMCInst op [MCReg r; MCReg r; MCImm (wpos_val w); MCImm x]
  | _ => MkMCInst op []
  end.

(** ** Arithmetic *)
Definition selectMUL (LHS RHS : SDNode) : SDNode := Mach2 MULS_RRRR 1 LHS RHS.
Inductive DivRem := ISD_SDIV | ISD_UDIV | ISD_SREM | ISD_UREM.
#[export] Instance DivRem_eq_dec : EqDecision DivRem.
Proof. solve_decision. Defined.
Definition selectDIVREM (oldOpcode : DivRem) (LHS RHS : SDNode) : SDNode :=
  let Opcode := match oldOpcode with ISD_UDIV | ISD_UREM => DIVU_RRRR | _ => DIVS_RRRR end in
  let resno := match oldOpcode with ISD_UREM | ISD_SREM => 0%nat | _ => 1%nat end in
  Mach2 Opcode resno LHS RHS.

(** ** Comparisons *)
Definition selectSETCC (LHS RHS : SDNode) (CC : LPCC) : option SDNode :=
  let Const_1 := Select_Constant (Constant i64 1) in
  let Const_0 := Select_Constant (Constant i64 0) in
  let sign a := Mach2 SHRU_ORRI 0 a (Constant i64 63) in
  match CC with
  | ICC_GT => Some (sign (Mach2 CMPS_ORRR 0 RHS LHS))
  | ICC_LT => Some (sign (Mach2 CMPS_ORRR 0 LHS RHS))
  | ICC_GE => Some (Mach3 CSN 0 (Mach2 CMPS_ORRR 0 LHS RHS) Const_0 Const_1)
  | ICC_LE => Some (Mach3 CSN 0 (Mach2 CMPS_ORRR 0 RHS LHS) Const_0 Const_1)
  | ICC_UGT => Some (sign (Mach2 CMPU_ORRR 0 RHS LHS))
  | ICC_ULT => Some (sign (Mach2 CMPU_ORRR 0 LHS RHS))
  | ICC_UGE => Some (Mach3 CSN 0 (Mach2 CMPU_ORRR 0 LHS RHS) Const_0 Const_1)
  | ICC_ULE => Some (Mach3 CSN 0 (Mach2 CMPU_ORRR 0 RHS LHS) Const_0 Const_1)
  | ICC_EQ => Some (Mach3 CSZ 0 (Mach2 CMPU_ORRR 0 LHS RHS) Const_1 Const_0)
  | ICC_NE => Some (Mach2 ANDI_RRII 0 (Mach2 CMPU_ORRR 0 LHS RHS) (Constant i64 1))
  | _ => None
  end.

(** A branch instruction: its condition operands and its destination. *)
Record MachineBranch := MkBranch { mb_opcode : Opcode; mb_args : list SDNode; mb_dest : Z }.
Definition selectBR_CC (n : D_BR_CC) : option MachineBranch :=
  let 'BrCC CC LHS RHS BranchDest := n in
  match CC with
  | ICC_PL => Some (MkBranch BRNN_RIII [LHS] BranchDest)
  | ICC_MI => Some (MkBranch BRN_RIII [LHS] BranchDest)
  | _ =>
      OpcodeCmp ← match CC with
        | ICC_GT | ICC_LT | ICC_GE | ICC_LE => Some (Some CMPS_ORRR)
        | ICC_UGT | ICC_ULT | ICC_UGE | ICC_ULE => Some (Some CMPU_ORRR)
        | ICC_EQ | ICC_NE => Some None
        | _ => None
        end;
      OpcodeBr ← match CC with
        | ICC_GT | ICC_UGT => Some BRP_RIII
        | ICC_LT | ICC_ULT => Some BRN_RIII
        | ICC_GE | ICC_UGE => Some BRNN_RIII
        | ICC_LE | ICC_ULE => Some BRNP_RIII
        | ICC_EQ => Some BREQ_RRII
        | ICC_NE => Some BRNE_RRII
        | _ => None
        end;
      match OpcodeCmp with
      | None => Some (MkBranch OpcodeBr [LHS; RHS] BranchDest)
      | Some c => Some (MkBranch OpcodeBr [Mach2 c 0 LHS RHS] BranchDest)
      end
  end.
Definition selectSELECT_CC (LHS RHS TrueV FalseV : SDNode) (CC : LPCC) : option SDNode :=
  InstrCmp ← selectSETCC LHS RHS CC; Some (Mach3 CSP 0 InstrCmp TrueV FalseV).
Definition select_compare (n : SDNode) : option SDNode :=
  match n with
  | D_SETCC LHS RHS CC => selectSETCC LHS RHS CC
  | D_SELECT_CC LHS RHS TrueV FalseV CC => selectSELECT_CC LHS RHS TrueV FalseV CC
  | _ => None
  end.

(** ** Addresses *)
Inductive AddrNode :=
| A_const (v : Z)
| A_frameindex (i : Z)
| A_symbol (s : string)
| A_add (a b : AddrNode)
| A_hi (a : AddrNode) | A_lo (a : AddrNode)
| A_value (v : Z).
Inductive AddrBase := B_rdzero | B_frameindex (i : Z) | B_node (a : AddrNode).

(** The base and the offset; a 12-bit constant goes through an int16_t. *)
Definition selectAddrRRII (Addr : AddrNode) : option (AddrBase * Z) :=
  match Addr with
  | A_const v =>
      if isInt 12 (s64 v) then Some (B_rdzero, sext 16 (s64 v)) else Some (B_node Addr, 0)
  | A_frameindex i => Some (B_frameindex i, 0)
  | A_symbol _ => None
  | A_add a (A_const v) =>
      if isInt 12 (s64 v) then
        Some (match a with A_frameindex i => B_frameindex i | _ => B_node a end, s64 v)
      else Some (B_node Addr, 0)
  | _ => Some (B_node Addr, 0)
  end.
(** Every path returns false. *)
Definition selectAddrRRRI (Addr : AddrNode) : option (AddrNode * AddrNode * Z) := None.
(** The registers rX and rd and the offset of a call through a register. *)
Definition selectIndirectCallTarget (Addr : AddrNode) : option (AddrNode * Register * Z) :=
  match Addr with A_symbol _ => None | _ => Some (Addr, RDZERO, 0) end.
