(* ===== verification/LlvmIselProps.v ===== *)
(** Lowering, combining and selection of the LLVM back end keep the value and
    the type of what they replace. *)
From S2P Require Import Prelude IsaArith LlvmData LlvmLower LlvmIsel.
Local Open Scope Z_scope.

(** ** Types *)
Lemma in_i64 v : in_type i64 v <-> 0 <= v < 2^64.
Proof. done. Qed.
Lemma in_type_i64 vt v : in_type vt v -> in_type i64 v.
Proof. destruct vt; cbn; lia. Qed.
Lemma bitop_range f x y :
  (forall i, Z.testbit (f x y) i = true -> Z.testbit x i = true \/ Z.testbit y i = true) ->
  0 <= f x y -> 0 <= x < 2^64 -> 0 <= y < 2^64 -> 0 <= f x y < 2^64.
Proof.
  intros Hf H0 Hx Hy. split; [done|]. destruct (Z.eq_dec (f x y) 0) as [->|Hn]; [lia|].
  apply Z.log2_lt_pow2; [lia|]. destruct (Z.lt_ge_cases (Z.log2 (f x y)) 64); [done|].
  destruct (Hf (Z.log2 (f x y))) as [H1|H1]; [apply Z.bit_log2; lia|..];
    rewrite Z.bits_above_log2 in H1; try done; try lia;
    (apply Z.le_lt_trans with 63; [|lia]); pose proof (Z.log2_le_mono x (2^64 - 1));
    pose proof (Z.log2_le_mono y (2^64 - 1)); change (Z.log2 (2^64 - 1)) with 63 in *; lia.
Qed.
Lemma land_range x y : 0 <= x < 2^64 -> 0 <= y -> 0 <= Z.land x y < 2^64.
Proof.
  intros Hx Hy. assert (0 <= Z.land x y) by (apply Z.land_nonneg; lia).
  split; [done|]. apply Z.le_lt_trans with x; [|lia].
  pose proof (Z.lor_ldiff_and x y). rewrite (ldiff_sub_land x y) in *.
  assert (0 <= x - Z.land x y); [|lia]. rewrite <- ldiff_sub_land. apply Z.ldiff_nonneg. lia.
Qed.
Lemma lor64_range x y : 0 <= x < 2^64 -> 0 <= y < 2^64 -> 0 <= Z.lor x y < 2^64.
Proof. by apply (lor_range 64). Qed.
Lemma lxor_range x y : 0 <= x < 2^64 -> 0 <= y < 2^64 -> 0 <= Z.lxor x y < 2^64.
Proof.
  intros. apply bitop_range; try done; [|apply Z.lxor_nonneg; lia].
  intros i. rewrite Z.lxor_spec. destruct (Z.testbit x i), (Z.testbit y i); auto.
Qed.
Lemma shiftr_range x y : 0 <= x < 2^64 -> 0 <= y -> 0 <= Z.shiftr x y < 2^64.
Proof.
  intros Hx Hy. rewrite Z.shiftr_div_pow2 by done. assert (0 < 2^y) by (apply Z.pow_pos_nonneg; lia).
  split; [apply Z.div_pos; lia|]. apply Z.le_lt_trans with x; [|lia]. apply Z.div_le_upper_bound; nia.
Qed.
Lemma three_way_range val x y : 0 <= three_way val x y < 2^64.
Proof. apply w64_range. Qed.
#[export] Hint Resolve w64_range land_range lor64_range lxor_range shiftr_range b2z_range three_way_range : dag.

Lemma machine_sem_range op vals outs : machine_sem op vals = Some outs ->
  Forall (in_type i64) vals -> Forall (in_type i64) outs.
Proof.
  intros H Hv. unfold machine_sem in H.
  destruct op; try done; destruct vals as [|x [|y [|z [|? ?]]]]; try done;
    rewrite ?Forall_cons in Hv; destruct Hv as (Hx & Hv); try destruct Hv as (Hy & Hv);
    try destruct Hv as (Hz & _); unfold in_type in *.
  all: repeat (match type of H with (if ?c then _ else _) = _ => destruct c eqn:?; try done end).
  all: injection H as <-; repeat apply Forall_cons_2; try apply Forall_nil_2.
  all: try (match goal with |- context [if ?c then _ else _] => destruct c end).
  all: eauto with dag.
  all: try (apply shiftr_range; [done|]; try lia; apply Z.mod_pos_bound; lia).
  all: try (apply land_range; [done|]; try lia; apply Z.mod_pos_bound; lia).
  all: cbn; rewrite ?orb_false_iff, ?Z.eqb_neq in *; try lia.
  all: try (pose proof (Z.mod_pos_bound x y); lia).
  all: split; [apply Z.div_pos; lia|apply Z.div_lt_upper_bound; nia].
Qed.

Section Types.
Variable big_shift : ISDOp -> Z -> Z -> Z.
Abbreviation eval := (eval big_shift).

Lemma isd_op_range op x y : in_type i64 x -> in_type i64 y -> in_type i64 (isd_op big_shift op x y).
Proof.
  cbn. intros Hx Hy. destruct op; cbn [isd_op]; try (apply land_range; lia); auto with dag.
  all: destruct (Z.ltb_spec y 64); auto with dag. apply shiftr_range; lia.
Qed.
Lemma machine_res_range op r vals v : machine_res op r vals = Some v ->
  Forall (in_type i64) vals -> in_type i64 v.
Proof.
  unfold machine_res. destruct (machine_sem op vals) as [outs|] eqn:E; [|done]. cbn. intros Hr Hv.
  pose proof (machine_sem_range _ _ _ E Hv) as Ho. by apply (Forall_lookup_1 _ _ _ _ Ho Hr).
Qed.

(** What an evaluation of options binds. *)
Local Ltac binds := repeat (match goal with
  | H : option_bind _ _ _ = Some _ |- _ => apply bind_Some in H as (? & ? & H)
  | H : mbind _ _ = Some _ |- _ => apply bind_Some in H as (? & ? & H)
  | H : fmap _ _ = Some _ |- _ => apply fmap_Some in H as (? & ? & H)
  | H : option_fmap _ _ _ = Some _ |- _ => apply fmap_Some in H as (? & ? & H)
  end).

Lemma eval_typed n vt : has_type n vt -> forall v, eval n = Some v -> in_type vt v.
Proof.
  induction 1; intros w Hw; cbn in Hw; try (by injection Hw as <-); binds.
  - injection Hw as <-. apply isd_op_range; auto.
  - subst. apply b2z_range.
  - unfold choose in Hw. destruct (_ =? _); [injection Hw as <-; auto|].
    destruct (_ =? _); [injection Hw as <-; auto|done].
  - eauto using in_type_i64.
  - injection Hw as <-. apply w64_range.
  - subst. apply b2z_range.
  - subst. match goal with |- context [if ?b then _ else _] => destruct b end; auto.
  - apply (machine_res_range _ _ _ _ Hw). auto.
  - apply (machine_res_range _ _ _ _ Hw). auto.
  - apply (machine_res_range _ _ _ _ Hw). auto 6.
Qed.
End Types.

(** ** Combining *)
Lemma is_const_inv v n : is_const v n = true -> exists vt, n = Constant vt v.
Proof. destruct n; try done. cbn. intros ->%Z.eqb_eq. eauto. Qed.
Lemma zero_or_ones N ones : isZeroOrAllOnes N ones = true -> has_type N i64 ->
  N = Constant i64 (if ones then 2^64 - 1 else 0).
Proof.
  intros H Ht. destruct ones; cbn in H.
  - destruct N; try done. apply Z.eqb_eq in H as ->. inversion Ht; subst; done.
  - apply is_const_inv in H as [vt ->]. inversion Ht; subst; done.
Qed.

Lemma typed_vt n vt : has_type n vt -> getValueType n = vt.
Proof. induction 1; cbn; congruence. Qed.

(** The identity of an operation, on the right. *)
Definition unit_of (ones : bool) : Z := if ones then 2^64 - 1 else 0.
Definition absorbs (op : ISDOp) (ones : bool) : Prop :=
  (op = ISD_AND /\ ones = true) \/ (op ∈ [ISD_ADD; ISD_SUB; ISD_OR; ISD_XOR] /\ ones = false).
Lemma unit_right big op ones x : absorbs op ones -> 0 <= x < 2^64 -> isd_op big op x (unit_of ones) = x.
Proof.
  intros [[-> ->]|[Hop ->]] Hx; cbn [isd_op unit_of].
  - change (2^64 - 1) with (Z.ones 64). rewrite Z.land_ones by lia. by apply Z.mod_small.
  - rewrite !elem_of_cons, elem_of_nil in Hop. destruct Hop as [->|[->|[->|[->|[]]]]]; cbn [isd_op].
    + rewrite Z.add_0_r. by apply w64_id.
    + rewrite Z.sub_0_r. by apply w64_id.
    + apply Z.lor_0_r.
    + apply Z.lxor_0_r.
Qed.
Definition commutes (op : ISDOp) : Prop := op ∈ [ISD_ADD; ISD_AND; ISD_OR; ISD_XOR].
Lemma isd_comm big op x y : commutes op -> isd_op big op x y = isd_op big op y x.
Proof.
  unfold commutes. rewrite !elem_of_cons, elem_of_nil.
  intros [->|[->|[->|[->|[]]]]]; cbn [isd_op].
  - by rewrite Z.add_comm.
  - apply Z.land_comm.
  - apply Z.lor_comm.
  - apply Z.lxor_comm.
Qed.

Section Combine.
Variable big_shift : ISDOp -> Z -> Z -> Z.
Abbreviation eval := (eval big_shift).

(** A conditional constant: it is the constant when the condition is Invert's
    opposite, and the other value otherwise. *)
Lemma conditional_sound N ones c inv other :
  isConditionalZeroOrAllOnes N ones = Some (c, inv, other) -> has_type N i64 ->
  (exists ct, has_type c ct /\ (ct = i1 \/ ct = i64)) /\ has_type other i64 /\
  eval N = b ← eval c; o ← eval other;
           (if inv : bool then choose b o (unit_of ones) else choose b (unit_of ones) o).
Proof.
  intros H Ht. destruct N; try done; cbn in H.
  - inversion Ht; subst. destruct (isZeroOrAllOnes N2 ones) eqn:E1.
    + injection H as <- <- <-. split; [eauto|]. split; [done|].
      rewrite (zero_or_ones _ _ E1) by done. cbn. by destruct (eval N1).
    + destruct (isZeroOrAllOnes N3 ones) eqn:E2; [|done]. injection H as <- <- <-.
      split; [eauto|]. split; [done|]. rewrite (zero_or_ones _ _ E2) by done. cbn.
      by destruct (eval N1), (eval N2).
  - destruct ones; [done|]. destruct (bool_decide_reflect (getValueType N = i1)) as [Hc|]; [|done].
    injection H as <- <- <-. inversion Ht as [| | | | | |? ct Hty| ? ct Hty| | | | |]; subst.
    assert (ct = i1) as -> by (by rewrite <- (typed_vt _ _ Hty)).
    split; [eauto|]. split; [constructor; cbn; lia|]. cbn.
    destruct (eval N) as [v|] eqn:Ev; [|done]. cbn.
    pose proof (eval_typed _ _ _ Hty _ Ev) as Hv. cbn in Hv.
    assert (v = 0 \/ v = 1) as [-> | ->] by lia; done.
  - destruct (bool_decide_reflect (getValueType N = i1)) as [Hc|]; [|done].
    injection H as <- <- <-. inversion Ht as [| | | | | |? ct Hty| ? ct Hty| | | | |]; subst.
    assert (ct = i1) as -> by (by rewrite <- (typed_vt _ _ Hty)).
    split; [eauto|]. split; [destruct ones; constructor; cbn; lia|]. cbn. rewrite Hc.
    destruct (eval N) as [v|] eqn:Ev; [|by destruct ones]. cbn.
    pose proof (eval_typed _ _ _ Hty _ Ev) as Hv. cbn in Hv.
    assert (v = 0 \/ v = 1) as [-> | ->] by lia; by destruct ones.
Qed.

Lemma combine_sound opc slct other ones n :
  combineSelectAndUse opc slct other ones = Some n -> absorbs opc ones ->
  has_type slct i64 -> has_type other i64 ->
  has_type n i64 /\ eval n = eval (BinOp opc other slct).
Proof.
  unfold combineSelectAndUse. intros H Hu Hs Ho.
  apply bind_Some in H as ([[c inv] v] & H & Hn).
  destruct (conditional_sound _ _ _ _ _ H Hs) as ((ct & Hc & Hct) & Hv & He).
  assert (Ht : has_type (BinOp opc other v) i64) by (by constructor).
  split; [destruct inv; injection Hn as <-; by econstructor|].
  cbn [LlvmLower.eval]. rewrite He.
  destruct (eval other) as [x|] eqn:Ex;
    [|destruct inv; injection Hn as <-; cbn; rewrite Ex; destruct (eval c), (eval v); done].
  pose proof (eval_typed _ _ _ Ho _ Ex) as Hx. cbn in Hx.
  assert (Hunit := unit_right big_shift opc ones x Hu Hx).
  destruct inv; injection Hn as <-; cbn; rewrite Ex; destruct (eval c) as [b|]; try done; cbn;
    destruct (eval v) as [y|]; try done; cbn; unfold choose;
    destruct (b =? 1); cbn; rewrite ?Hunit; try done; destruct (b =? 0); cbn; by rewrite ?Hunit.
Qed.
End Combine.

(** C29: combining an operation with a select of its identity keeps the value
    of the node for every combination of operand uses, and keeps its type, so
    that the value stays in the range of the type. *)
Theorem combine_preserves big_shift hasOneUse N N' :
  has_type N i64 -> PerformDAGCombine hasOneUse N = Some N' ->
  eval big_shift N' = eval big_shift N /\ has_type N' i64 /\
  (forall v, eval big_shift N' = Some v -> 0 <= v < 2^64).
Proof.
  intros Ht H. assert (Hgoal : has_type N' i64 /\ eval big_shift N' = eval big_shift N).
  { inversion Ht; subst; try done. cbn in H.
    assert (Hcomm : forall ones, absorbs op ones -> commutes op ->
      combineSelectAndUseCommutative hasOneUse op a b ones = Some N' ->
      has_type N' i64 /\ eval big_shift N' = eval big_shift (BinOp op a b)).
    { intros ones Hu Hc Hn. unfold combineSelectAndUseCommutative in Hn.
      assert (H2 : forall n, combineSelectAndUse op a b ones = Some n ->
        has_type n i64 /\ eval big_shift n = eval big_shift (BinOp op a b)).
      { intros n Hk. destruct (combine_sound big_shift op a b ones n Hk Hu H0 H1) as [Htn Hev].
        split; [done|]. rewrite Hev. cbn.
        destruct (eval big_shift a), (eval big_shift b); try done. cbn. f_equal. by apply isd_comm. }
      destruct (hasOneUse a); [destruct (combineSelectAndUse op a b ones) eqn:E|].
      - injection Hn as <-. by apply H2.
      - destruct (hasOneUse b); [|done]. by apply (combine_sound big_shift op b a ones).
      - destruct (hasOneUse b); [|done]. by apply (combine_sound big_shift op b a ones). }
    destruct op; try done.
    - apply (Hcomm false); [right|..|done]; [split; [set_solver|done]|unfold commutes; set_solver].
    - unfold PerformSUBCombine in H. destruct (hasOneUse b); [|done].
      apply (combine_sound big_shift ISD_SUB b a false); try done. right. split; [set_solver|done].
    - apply (Hcomm true); [by left|unfold commutes; set_solver|done].
    - apply (Hcomm false); [right|..|done]; [split; [set_solver|done]|unfold commutes; set_solver].
    - apply (Hcomm false); [right|..|done]; [split; [set_solver|done]|unfold commutes; set_solver]. }
  destruct Hgoal as [Ht' He]. split; [done|]. split; [done|].
  intros v Hv. apply (eval_typed big_shift N' i64 Ht' v Hv).
Qed.
Lemma combine_preserves_witness :
  exists N', PerformDAGCombine (fun _ => true)
    (BinOp ISD_AND (SignExtend i64 (Leaf i1 1)) (Leaf i64 12)) = Some N' /\
  eval (fun _ _ _ => 0) N' = Some 12.
Proof.
  set (n := BinOp ISD_AND (SignExtend i64 (Leaf i1 1)) (Leaf i64 12)).
  exists (Select (Leaf i1 1) (Leaf i64 12) (BinOp ISD_AND (Leaf i64 12) (Constant i64 0))).
  split; [reflexivity|].
  refine (eq_trans (proj1 (combine_preserves (fun _ _ _ => 0) (fun _ => true) n _ _ _)) _).
  - constructor; [eapply (T_sext _ i1); [|discriminate]|]; constructor; cbn; lia.
  - reflexivity.
  - vm_compute. reflexivity.
Defined.

(** ** Comparisons *)

(** The comparisons with a constant that become a sign test. *)
Definition sign_test (Cond : ISDCond) (RHS : SDNode) : bool :=
  match Cond with
  | SETLT | SETGE => is_const 0 RHS
  | SETGT | SETLE => is_const 0xFFFFFFFF RHS
  | _ => false
  end.
(** The condition code of any other integer comparison. *)
Definition icc_of (Cond : ISDCond) : LPCC :=
  match Cond with
  | SETEQ => ICC_EQ | SETNE => ICC_NE | SETLT => ICC_LT | SETLE => ICC_LE | SETGT => ICC_GT
  | SETGE => ICC_GE | SETULT => ICC_ULT | SETULE => ICC_ULE | SETUGT => ICC_UGT | SETUGE => ICC_UGE
  | _ => ICC_UNKNOWN
  end.
Lemma icc_of_lowered Cond RHS x y b : isd_cond Cond x y = Some b -> sign_test Cond RHS = false ->
  IntCondCCodeToICC Cond RHS = Some (icc_of Cond, RHS) /\ icc_cond (icc_of Cond) x y = Some b.
Proof. destruct Cond; try done; cbn; intros [= <-] Hs; rewrite ?Hs; done. Qed.
Lemma sign_test_lowered Cond RHS : sign_test Cond RHS = true ->
  exists RHS', IntCondCCodeToICC Cond RHS =
    Some (match Cond with SETGT | SETGE => ICC_PL | _ => ICC_MI end, RHS').
Proof. destruct Cond; try done; cbn; intros ->; eauto. Qed.

Ltac three_cases val x y :=
  let H := fresh in let E := fresh in
  assert (H : (val x < val y /\ three_way val x y = 2^64 - 1) \/
    (val x = val y /\ three_way val x y = 0) \/ (val y < val x /\ three_way val x y = 1))
    by (unfold three_way; destruct (Z.compare_spec (val x) (val y)); [right; left|left|right; right]; done);
  destruct H as [[H E]|[[H E]|[H E]]]; rewrite E; cbv beta in H.

Lemma s64_inj x y : 0 <= x < 2^64 -> 0 <= y < 2^64 -> s64 x = s64 y -> x = y.
Proof. intros Hx Hy H. rewrite <- (w64_id x), <- (w64_id y), <- (w64_s64 x), <- (w64_s64 y) by lia. by rewrite H. Qed.

Section Select.
Variable big_shift : ISDOp -> Z -> Z -> Z.
Abbreviation eval := (eval big_shift).

(** The instructions selected for a condition code compute it. *)
Lemma selectSETCC_sound l r cc x y b :
  eval l = Some x -> eval r = Some y -> icc_cond cc x y = Some b -> cc <> ICC_PL -> cc <> ICC_MI ->
  exists m, selectSETCC l r cc = Some m /\ eval m = Some (b2z b).
Proof.
  intros Hx Hy Hc Hpl Hmi. destruct cc; try done; cbn in Hc; injection Hc as <-;
    (eexists; split; [reflexivity|]); cbn [LlvmLower.eval]; rewrite Hx, Hy; cbn -[three_way Z.pow Z.shiftr];
    unfold machine_res; cbn -[three_way Z.pow Z.shiftr].
  all: first [three_cases s64 x y | three_cases (fun v : Z => v) x y
             |three_cases s64 y x | three_cases (fun v : Z => v) y x].
  all: change (s64 (2^64 - 1)) with (-1); change (s64 0) with 0; change (s64 1) with 1;
    cbn [Z.ltb Z.eqb Z.compare Pos.compare]; zcases; first [lia|reflexivity].
Qed.


(** A branch instruction on the values of its operands. *)
Definition taken (mb : MachineBranch) : option bool :=
  vals ← mapM eval (mb_args mb); branch_sem (mb_opcode mb) vals.
Lemma selectBR_sound l r d cc x y b :
  eval l = Some x -> eval r = Some y -> icc_cond cc x y = Some b ->
  exists mb, selectBR_CC (BrCC cc l r d) = Some mb /\ mb_dest mb = d /\ taken mb = Some b.
Proof.
  intros Hx Hy Hc. destruct cc; try done; cbn in Hc; injection Hc as <-;
    (eexists; split; [reflexivity|]; split; [reflexivity|]);
    unfold taken; cbn [mb_args mb_opcode mapM]; cbn [LlvmLower.eval]; rewrite ?Hx, ?Hy;
    unfold machine_res; cbn -[three_way Z.pow]; try reflexivity.
  all: first [three_cases s64 x y | three_cases (fun v : Z => v) x y].
  all: change (s64 (2^64 - 1)) with (-1); change (s64 0) with 0; change (s64 1) with 1;
    cbn [Z.ltb Z.leb Z.eqb Z.compare Pos.compare]; zcases; first [lia|reflexivity].
Qed.
End Select.

(** C28: setcc and select_cc: the instructions selected after the lowering give
    0 or 1, and the chosen value, as the comparison says.  A comparison the
    lowering turns into a sign test (with 0, or with 0xFFFFFFFF) has no
    instructions: the selection of plus and minus is unreachable. *)
Theorem comparison_selected big_shift Cond l r t f x y u v b :
  eval big_shift l = Some x -> eval big_shift r = Some y ->
  eval big_shift t = Some u -> eval big_shift f = Some v -> isd_cond Cond x y = Some b ->
  let set := LowerSETCC l r Cond ≫= select_compare in
  let sel := LowerSELECT_CC l r t f Cond ≫= select_compare in
  if sign_test Cond r then set = None /\ sel = None
  else exists m n, set = Some m /\ eval big_shift m = Some (b2z b) /\
         sel = Some n /\ eval big_shift n = Some (if b then u else v).
Proof.
  intros Hx Hy Hu Hv Hb set sel. subst set sel. unfold LowerSETCC, LowerSELECT_CC.
  destruct (sign_test Cond r) eqn:Hs.
  - destruct (sign_test_lowered Cond r Hs) as [r' ->]. cbn. by destruct Cond.
  - destruct (icc_of_lowered Cond r x y b Hb Hs) as [-> Hc]. cbn.
    destruct (selectSETCC_sound big_shift l r (icc_of Cond) x y b) as (m & Hm & He); try done;
      [by destruct Cond..|].
    unfold selectSELECT_CC. rewrite Hm. cbn. exists m, (Mach3 CSP 0 m t f).
    split; [done|]. split; [done|]. split; [done|]. cbn [LlvmLower.eval]. rewrite He, Hu, Hv.
    by destruct b.
Qed.
Lemma comparison_selected_witness :
  exists m n, LowerSETCC (Leaf i64 (2^64 - 5)) (Leaf i64 3) SETLE ≫= select_compare = Some m /\
    eval (fun _ _ _ => 0) m = Some 1 /\
    LowerSELECT_CC (Leaf i64 (2^64 - 5)) (Leaf i64 3) (Leaf i64 7) (Leaf i64 8) SETLE
      ≫= select_compare = Some n /\ eval (fun _ _ _ => 0) n = Some 7.
Proof.
  exact (comparison_selected (fun _ _ _ => 0) SETLE (Leaf i64 (2^64 - 5)) (Leaf i64 3) (Leaf i64 7)
    (Leaf i64 8) (2^64 - 5) 3 7 8 true eq_refl eq_refl eq_refl eq_refl eq_refl).
Defined.

(** The values on which the sign test that replaces [x > 0xFFFFFFFF] and
    [x <= 0xFFFFFFFF] answers the opposite. *)
Definition sign_test_wrong (Cond : ISDCond) (RHS : SDNode) (x : Z) : bool :=
  match Cond with
  | SETGT | SETLE => is_const 0xFFFFFFFF RHS && (0 <=? s64 x) && (s64 x <=? 0xFFFFFFFF)
  | _ => false
  end.

(** br_cc: the branch selected after the lowering goes to its destination
    and is taken exactly when the comparison holds, except for a comparison
    greater than, or not greater than, 4294967295 with a value between 0 and
    4294967295: there it does the opposite. *)
Theorem branch_selected big_shift Cond l r d x y b :
  eval big_shift l = Some x -> eval big_shift r = Some y -> isd_cond Cond x y = Some b ->
  exists mb, LowerBR_CC Cond l r d ≫= selectBR_CC = Some mb /\ mb_dest mb = d /\
    taken big_shift mb = Some (xorb b (sign_test_wrong Cond r x)).
Proof.
  intros Hx Hy Hb. unfold LowerBR_CC. destruct (sign_test Cond r) eqn:Hs.
  - assert (Hpm : forall r' cc, cc = ICC_PL \/ cc = ICC_MI -> exists mb,
      selectBR_CC (BrCC cc l r' d) = Some mb /\ mb_dest mb = d /\
      taken big_shift mb = icc_cond cc x 0).
    { intros r' cc [-> | ->]; (eexists; split; [reflexivity|]; split; [reflexivity|]);
        unfold taken; cbn [mb_args mb_opcode mapM]; rewrite Hx; reflexivity. }
    destruct Cond; try done; cbn in Hs; pose proof (is_const_inv _ _ Hs) as [vt ->];
      cbn in Hy; injection Hy as <-; cbn in Hb; injection Hb as <-; cbn [IntCondCCodeToICC];
      rewrite Hs; cbn [mbind option_bind].
    + destruct (Hpm (Constant vt 0) ICC_MI) as (mb & -> & Hd & Ht); [by right|].
      exists mb. split; [done|]. split; [done|]. rewrite Ht. cbn. by rewrite xorb_false_r.
    + destruct (Hpm (Constant vt 0) ICC_MI) as (mb & Hm & Hd & Ht); [by right|].
      exists mb. split; [done|]. split; [done|]. rewrite Ht. cbn -[Z.leb Z.ltb].
      change (s64 4294967295) with 4294967295. f_equal. by zcases; cbn; try lia.
    + destruct (Hpm (Constant vt 0) ICC_PL) as (mb & Hm & Hd & Ht); [by left|].
      exists mb. split; [done|]. split; [done|]. rewrite Ht. cbn -[Z.leb Z.ltb].
      change (s64 4294967295) with 4294967295. f_equal. by zcases; cbn; try lia.
    + destruct (Hpm (Constant vt 0) ICC_PL) as (mb & -> & Hd & Ht); [by left|].
      exists mb. split; [done|]. split; [done|]. rewrite Ht. cbn. by rewrite xorb_false_r.
  - destruct (icc_of_lowered Cond r x y b Hb Hs) as [-> Hc].
    destruct (selectBR_sound big_shift l r d (icc_of Cond) x y b Hx Hy Hc) as (mb & Hm & Hd & Ht).
    exists mb. split; [done|]. split; [done|]. rewrite Ht. f_equal.
    assert (sign_test_wrong Cond r x = false) as ->; [|by rewrite xorb_false_r].
    destruct Cond; try done; cbn in *; by rewrite Hs.
Qed.
Lemma branch_selected_witness :
  exists mb, LowerBR_CC SETGT (Leaf i64 5) (Constant i64 0xFFFFFFFF) 64 ≫= selectBR_CC = Some mb /\
    mb_dest mb = 64 /\ taken (fun _ _ _ => 0) mb = Some true.
Proof.
  exact (branch_selected (fun _ _ _ => 0) SETGT (Leaf i64 5) (Constant i64 0xFFFFFFFF) 64
    5 0xFFFFFFFF false eq_refl eq_refl eq_refl).
Defined.

(** ** Shifts of two words *)
Lemma shl_128 lo hi k : 0 <= lo < 2^64 -> 0 <= hi < 2^64 -> 0 <= k < 128 ->
  ((hi * 2^64 + lo) * 2^k) mod 2^128 =
  (if k <? 64 then w64 (hi * 2^k + lo / 2^(64 - k)) * 2^64 + w64 (lo * 2^k)
   else w64 (lo * 2^(k - 64)) * 2^64).
Proof.
  intros Hlo Hhi Hk. unfold w64. destruct (Z.ltb_spec k 64).
  - pose proof (Z.div_mod lo (2^(64 - k)) ltac:(apply Z.pow_nonzero; lia)) as Hd.
    assert (Hp : 2^(64 - k) * 2^k = 2^64) by (rewrite <- Z.pow_add_r by lia; f_equal; lia).
    assert (Hp0 : 0 < 2^k) by (apply Z.pow_pos_nonneg; lia).
    assert (Hm : lo * 2^k mod 2^64 = lo mod 2^(64 - k) * 2^k).
    { rewrite <- Hp, Zmult_mod_distr_r. done. }
    rewrite Hm. change (2^128) with (2^64 * 2^64).
    replace ((hi * 2^64 + lo) * 2^k)
      with (lo mod 2^(64 - k) * 2^k + 2^64 * (hi * 2^k + lo / 2^(64 - k)))
      by (rewrite Hd at 3; rewrite <- Hp; ring).
    rewrite Z.rem_mul_r by lia.
    pose proof (Z.mod_pos_bound lo (2^(64 - k)) ltac:(apply Z.pow_pos_nonneg; lia)).
    assert (0 <= lo mod 2^(64 - k) * 2^k < 2^64) by nia.
    rewrite !(Z.mul_comm (2^64) (hi * 2^k + _)), Z_mod_plus_full, Z.mod_small by lia.
    rewrite Z.div_add by lia. rewrite Z.div_small by lia. rewrite Z.add_0_l. lia.
  - replace (2^k) with (2^(k - 64) * 2^64) by (rewrite <- Z.pow_add_r by lia; f_equal; lia).
    change (2^128) with (2^64 * 2^64). rewrite Z.mul_assoc, Zmult_mod_distr_r. f_equal.
    rewrite Z.mul_add_distr_r. replace (hi * 2^64 * 2^(k - 64)) with (hi * 2^(k - 64) * 2^64) by lia.
    by rewrite Z.add_comm, Z_mod_plus_full.
Qed.
Lemma shr_128 lo hi k : 0 <= lo < 2^64 -> 0 <= hi < 2^64 -> 0 <= k ->
  (hi * 2^64 + lo) / 2^k =
  (if k <? 64 then hi / 2^k * 2^64 + (hi mod 2^k * 2^(64 - k) + lo / 2^k) else hi / 2^(k - 64)).
Proof.
  intros Hlo Hhi Hk. assert (Hp0 : 0 < 2^k) by (apply Z.pow_pos_nonneg; lia). destruct (Z.ltb_spec k 64).
  - assert (Hp : 2^64 = 2^(64 - k) * 2^k) by (rewrite <- Z.pow_add_r by lia; f_equal; lia).
    replace (hi * 2^64) with (hi * 2^(64 - k) * 2^k) by (rewrite Hp; ring).
    rewrite Z.div_add_l by lia. rewrite (Z.div_mod hi (2^k)) at 1 by lia. rewrite Hp. ring.
  - replace (2^k) with (2^64 * 2^(k - 64)) by (rewrite <- Z.pow_add_r by lia; f_equal; lia).
    rewrite <- Z.div_div by (try apply Z.pow_pos_nonneg; lia).
    rewrite Z.div_add_l by lia. rewrite (Z.div_small lo), Z.add_0_r by lia. done.
Qed.
Lemma s64_small x : 0 <= x < 2^63 -> s64 x = x.
Proof. intros. apply (sext_id 64); lia. Qed.
Lemma s64_w64 x : - 2^63 <= x < 2^63 -> s64 (w64 x) = x.
Proof.
  intros. transitivity (sext 64 x); [|apply (sext_id 64); lia].
  apply sext_congr; [lia|]. apply Z.mod_mod. lia.
Qed.

(** The parts of a value of 128 bits. *)
Definition parts (lo hi : option Z) : option Z := l ← lo; h ← hi; Some (h * 2^64 + l).

(** A left shift of a value of two words by less than 128 is the shift
    modulo 2^128, whatever the machine does for shifts by 64 or more. *)
Theorem shl_parts big_shift nlo nhi namt lo hi k :
  eval big_shift nlo = Some lo -> eval big_shift nhi = Some hi -> eval big_shift namt = Some k ->
  0 <= lo < 2^64 -> 0 <= hi < 2^64 -> 0 <= k < 128 ->
  let '(Lo, Hi) := LowerSHL_PARTS nlo nhi namt in
  parts (eval big_shift Lo) (eval big_shift Hi) = Some (Z.shiftl (hi * 2^64 + lo) k mod 2^128).
Proof.
  intros Elo Ehi Ek Hlo Hhi Hk. cbn -[isd_op Z.pow Z.shiftl]. rewrite Elo, Ehi, Ek. cbn -[Z.pow Z.shiftl Z.ltb].
  change (s64 0) with 0. unfold VTBits. rewrite s64_w64 by lia.
  rewrite (Z.shiftl_mul_pow2 (_ + _)), shl_128 by lia. unfold choose, parts.
  destruct (Z.ltb_spec k 64) as [H|H].
  - rewrite (proj2 (Z.leb_gt 0 (k - 64))) by lia. cbn -[Z.pow Z.shiftl Z.ltb].
    destruct (Z.eqb_spec k 0) as [->|Hk0]; cbn -[Z.pow Z.shiftl Z.ltb].
    + rewrite !Z.shiftl_0_r, !Z.mul_1_r, (w64_id hi), (w64_id lo) by lia.
      change (2^(64 - 0)) with (2^64). rewrite Z.div_small, Z.add_0_r, w64_id by lia. f_equal.
    + rewrite (w64_id (64 - k)) by lia. rewrite (proj2 (Z.ltb_lt (64 - k) 64)) by lia.
      do 2 f_equal; [|by rewrite Z.shiftl_mul_pow2 by lia]. f_equal.
      rewrite Z.shiftr_div_pow2, Z.shiftl_mul_pow2 by lia. unfold w64.
      assert (Hp : 2^64 = 2^(64 - k) * 2^k) by (rewrite <- Z.pow_add_r by lia; f_equal; lia).
      assert (0 < 2^(64 - k)) by (apply Z.pow_pos_nonneg; lia).
      assert (0 < 2^k) by (apply Z.pow_pos_nonneg; lia).
      assert (0 <= lo / 2^(64 - k) < 2^k) by (split; [apply Z.div_pos; lia|apply Z.div_lt_upper_bound; lia]).
      assert (Hq : hi * 2^k mod 2^64 = hi mod 2^(64 - k) * 2^k) by (rewrite Hp, Zmult_mod_distr_r; done).
      rewrite Hq, Z.lor_comm, lor_add_mul by lia.
      assert (0 <= hi mod 2^(64 - k) < 2^(64 - k)) by (apply Z.mod_pos_bound; lia).
      rewrite <- (Z.add_mod_idemp_l (hi * 2^k)), Hq by lia. symmetry. apply Z.mod_small. nia.
  - rewrite (proj2 (Z.leb_le 0 (k - 64))), (proj2 (Z.eqb_neq k 0)) by lia. cbn -[Z.pow Z.shiftl Z.ltb].
    rewrite (w64_id (k - 64)), (proj2 (Z.ltb_lt (k - 64) 64)), Z.shiftl_mul_pow2 by lia. by rewrite Z.add_0_r.
Qed.
Lemma shl_parts_witness :
  let '(Lo, Hi) := LowerSHL_PARTS (Leaf i64 (2^63 + 1)) (Leaf i64 3) (Leaf i64 65) in
  parts (eval (fun _ _ _ => 0) Lo) (eval (fun _ _ _ => 0) Hi) = Some (2 * 2^64).
Proof.
  exact (shl_parts (fun _ _ _ => 0) (Leaf i64 (2^63 + 1)) (Leaf i64 3) (Leaf i64 65) (2^63 + 1) 3 65
    eq_refl eq_refl eq_refl ltac:(lia) ltac:(lia) ltac:(lia)).
Defined.

(** A right shift of a value of two words is right up to an amount of 64.
    Beyond, the low word is what the machine's left shift makes of the high
    word and a negative amount: it is right for a machine that then shifts
    right by the opposite amount, and for no other. *)
Theorem srl_parts big_shift nlo nhi namt lo hi k :
  eval big_shift nlo = Some lo -> eval big_shift nhi = Some hi -> eval big_shift namt = Some k ->
  0 <= lo < 2^64 -> 0 <= hi < 2^64 -> 0 <= k < 128 ->
  let '(Lo, Hi) := LowerSRL_PARTS nlo nhi namt in
  parts (eval big_shift Lo) (eval big_shift Hi)
  = Some (if k <=? 64 then Z.shiftr (hi * 2^64 + lo) k
          else w64 (big_shift ISD_SHL hi (w64 (64 - k)))) /\
  (64 < k -> (parts (eval big_shift Lo) (eval big_shift Hi) = Some (Z.shiftr (hi * 2^64 + lo) k) <->
              w64 (big_shift ISD_SHL hi (w64 (64 - k))) = Z.shiftr hi (k - 64))).
Proof.
  intros Elo Ehi Ek Hlo Hhi Hk.
  assert (Hp : let '(Lo, Hi) := LowerSRL_PARTS nlo nhi namt in
    parts (eval big_shift Lo) (eval big_shift Hi)
    = Some (if k <=? 64 then Z.shiftr (hi * 2^64 + lo) k
            else w64 (big_shift ISD_SHL hi (w64 (64 - k))))).
  { cbn -[isd_op Z.pow Z.shiftl Z.shiftr]. rewrite Elo, Ehi, Ek. cbn -[Z.pow Z.shiftl Z.ltb Z.shiftr Z.leb Z.lor].
    change (s64 0) with 0. unfold VTBits. rewrite s64_w64 by lia.
    rewrite (Z.shiftr_div_pow2 (_ + _)), shr_128 by lia. unfold choose, parts.
    destruct (Z.ltb_spec k 64) as [H|H].
    - rewrite (proj2 (Z.leb_gt (64 - k) 0)), (proj2 (Z.leb_le k 64)) by lia.
      destruct (Z.eqb_spec k 0) as [->|Hk0]; cbn -[Z.pow Z.shiftl Z.ltb Z.shiftr Z.lor].
      + rewrite !Z.shiftr_0_r. change (hi mod 2^0) with (hi mod 1). change (2^0) with 1.
        rewrite Z.mod_1_r, !Z.div_1_r by lia. f_equal.
      + rewrite (w64_id (64 - k)), (proj2 (Z.ltb_lt (64 - k) 64)) by lia. f_equal.
        rewrite !Z.shiftr_div_pow2, Z.shiftl_mul_pow2 by lia. f_equal. unfold w64.
        assert (Hp : 2^64 = 2^k * 2^(64 - k)) by (rewrite <- Z.pow_add_r by lia; f_equal; lia).
        assert (0 < 2^k) by (apply Z.pow_pos_nonneg; lia).
        assert (0 <= lo / 2^k < 2^(64 - k)) by (split; [apply Z.div_pos; lia|apply Z.div_lt_upper_bound; lia]).
        rewrite Hp, Zmult_mod_distr_r, Z.lor_comm, lor_add_mul by lia. done.
    - rewrite (proj2 (Z.leb_le (64 - k) 0)), (proj2 (Z.eqb_neq k 0)) by lia.
      cbn -[Z.pow Z.shiftl Z.ltb Z.shiftr Z.lor Z.leb].
      destruct (Z.leb_spec k 64).
      + assert (k = 64) as -> by lia. cbn -[Z.pow Z.shiftl Z.lor].
        change (2^(64 - 64)) with 1. rewrite Z.shiftl_0_r, Z.div_1_r, (w64_id hi) by lia. done.
      + rewrite (proj2 (Z.ltb_ge (w64 (64 - k)) 64)).
        { by rewrite Z.lor_0_l. }
        rewrite <- (w64_add_mul _ 1), w64_id by lia. lia. }
  destruct (LowerSRL_PARTS nlo nhi namt) as [Lo Hi]. split; [done|]. intros Hk64.
  rewrite Hp, (proj2 (Z.leb_gt k 64)) by lia. rewrite (Z.shiftr_div_pow2 (_ + _)), shr_128 by lia.
  rewrite (proj2 (Z.ltb_ge k 64)), Z.shiftr_div_pow2 by lia. split; [by intros [= ?]|by intros ->].
Qed.
Lemma srl_parts_witness :
  let '(Lo, Hi) := LowerSRL_PARTS (Leaf i64 7) (Leaf i64 3) (Leaf i64 1) in
  parts (eval (fun _ _ _ => 0) Lo) (eval (fun _ _ _ => 0) Hi) = Some (2^64 + (2^63 + 3)).
Proof.
  exact (proj1 (srl_parts (fun _ _ _ => 0) (Leaf i64 7) (Leaf i64 3) (Leaf i64 1) 7 3 1
    eq_refl eq_refl eq_refl ltac:(lia) ltac:(lia) ltac:(lia))).
Defined.
(** With shifts that wrap around at 64: 2^64 shifted right by 65 is 0, and the
    code computes 2^63. *)
Example srl_parts_wraps :
  let wrap (op : ISDOp) x y := Z.shiftl x (y mod 64) in
  let '(Lo, Hi) := LowerSRL_PARTS (Leaf i64 0) (Leaf i64 1) (Leaf i64 65) in
  parts (eval wrap Lo) (eval wrap Hi) = Some (2^63) /\ Z.shiftr (2^64) 65 = 0.
Proof. vm_compute. done. Qed.

(** ** Multiplication, division and remainder *)
Definition divrem (op : DivRem) (x y : Z) : Z :=
  match op with
  | ISD_SDIV => w64 (Z.quot (s64 x) (s64 y))
  | ISD_UDIV => x / y
  | ISD_SREM => w64 (Z.rem (s64 x) (s64 y))
  | ISD_UREM => x mod y
  end.
(** A division LLVM defines. *)
Definition div_defined (op : DivRem) (x y : Z) : Prop :=
  y <> 0 /\ (op = ISD_SDIV \/ op = ISD_SREM -> ~ (s64 x = - 2^63 /\ s64 y = -1)).

(** A product is the product modulo 2^64, and a division or remainder that
    LLVM defines is the quotient rounded towards zero or the remainder, each
    from one instruction and its right output. *)
Theorem muldiv_selected big_shift l r x y op :
  eval big_shift l = Some x -> eval big_shift r = Some y -> div_defined op x y ->
  eval big_shift (selectMUL l r) = Some (w64 (x * y)) /\
  eval big_shift (selectDIVREM op l r) = Some (divrem op x y).
Proof.
  intros Hx Hy [Hy0 Hov]. cbn [selectMUL selectDIVREM eval]. rewrite Hx, Hy. cbn [mbind option_bind].
  unfold machine_res. split.
  - cbn -[Z.pow]. f_equal. unfold w64. rewrite Zmult_mod. pose proof (w64_s64 x). pose proof (w64_s64 y).
    unfold w64 in *. by rewrite H, H0, <- Zmult_mod.
  - destruct op; cbn -[Z.pow]; rewrite (proj2 (Z.eqb_neq y 0)) by done; cbn -[Z.pow]; try done.
    all: destruct (Z.eqb_spec (s64 x) (- 2^63)), (Z.eqb_spec (s64 y) (-1)); try done.
    all: exfalso; apply Hov; auto.
Qed.
Lemma muldiv_selected_witness :
  eval (fun _ _ _ => 0) (selectMUL (Leaf i64 (2^64 - 7)) (Leaf i64 2)) = Some (2^64 - 14) /\
  eval (fun _ _ _ => 0) (selectDIVREM ISD_SREM (Leaf i64 (2^64 - 7)) (Leaf i64 2)) = Some (2^64 - 1).
Proof.
  apply (muldiv_selected (fun _ _ _ => 0) (Leaf i64 (2^64 - 7)) (Leaf i64 2) (2^64 - 7) 2 ISD_SREM);
    [reflexivity|reflexivity|]. split; [discriminate|]. intros _ [H _]. vm_compute in H. discriminate.
Defined.

(** ** Known bits *)

(** A value agrees with what is known of it. *)
Definition known_of (k : KnownBits) (v : Z) : Prop :=
  forall i, 0 <= i < 64 ->
    (Z.testbit (known_zero k) i = true -> Z.testbit v i = false) /\
    (Z.testbit (known_one k) i = true -> Z.testbit v i = true).
(** The bits of setcc are known; those of select_cc are taken from the values
    compared and not from the values chosen. *)
Lemma known_setcc big_shift rec l r cc k v :
  eval big_shift (D_SETCC l r cc) = Some v ->
  known_of (computeKnownBitsForTargetNode rec (D_SETCC l r cc) k) v.
Proof.
  cbn [eval]. intros H. apply bind_Some in H as (x & _ & H). apply bind_Some in H as (y & _ & H).
  apply fmap_Some in H as (b & _ & ->). intros i Hi. cbn [computeKnownBitsForTargetNode known_zero known_one].
  split; [|by rewrite Z.bits_0]. destruct (Z.eq_dec i 0) as [->|]; [done|]. intros _.
  destruct b; cbn [b2z]; [|apply Z.bits_0]. rewrite Z.bits_above_log2; [done|lia|cbn; lia].
Qed.
Lemma known_select_wrong :
  exists rec n v, eval (fun _ _ _ => 0) n = Some v /\
    (forall vt w, known_of (rec (Constant vt w)) w \/ ~ 0 <= w < 2^64) /\
    ~ known_of (computeKnownBitsForTargetNode rec n (Known 0 0)) v.
Proof.
  exists (fun n => match n with Constant _ w => Known (w64 (Z.lnot w)) w | _ => Known 0 0 end),
    (D_SELECT_CC (Constant i64 1) (Constant i64 1) (Constant i64 2) (Constant i64 2) ICC_EQ), 2.
  split; [done|]. split.
  - intros vt w. destruct (decide (0 <= w < 2^64)); [left|by right]. intros i Hi. cbn -[Z.pow].
    split; [|done]. unfold w64. rewrite Z.mod_pow2_bits_low, Z.lnot_spec by lia. by destruct (Z.testbit w i).
  - intros H. destruct (H 1 ltac:(lia)) as [Hz _]. vm_compute in Hz. by specialize (Hz eq_refl).
Qed.
