(* ===== verification/LlvmEncode.v ===== *)
(** The encoder of the LLVM back end against the decoder of the emulator: the
    word of an instruction decodes to the instruction of its row, and the
    emulator reads the operands the encoder was given. *)
From S2P Require Import Prelude Opcodes Cpu Tcg Translate IsaArith Frame Decode Disas DisasProps.
From S2P Require Import Bfd BfdLink LlvmData LlvmMc.
Local Open Scope string_scope.
Local Open Scope Z_scope.

(** ** Bits of a word put together *)
Definition bits_of (i : Z) (f : Z * Z * Z) : bool :=
  let '(pos, len, v) := f in (pos <=? i) && (i <? pos + len) && Z.testbit v (i - pos).
Lemma put_bits_testbit w f i : 0 <= i -> 0 <= fst (fst f) -> 0 <= snd (fst f) ->
  Z.testbit (put_bits w f) i = Z.testbit w i || bits_of i f.
Proof.
  destruct f as [[pos len] v]. cbn [fst snd put_bits bits_of]. intros Hi Hp Hl.
  rewrite Z.lor_spec, Z.shiftl_spec by done. f_equal.
  destruct (Z.leb_spec pos i); cbn [andb]; [|by rewrite Z.testbit_neg_r by lia].
  rewrite Z.land_spec. destruct (Z.ltb_spec i (pos + len)).
  - rewrite Z.ones_spec_low by lia. by rewrite andb_true_r.
  - rewrite Z.ones_spec_high by lia. by rewrite andb_false_r.
Qed.
Lemma fold_put_bits fs w i : 0 <= i -> Forall (fun f => 0 <= fst (fst f) /\ 0 <= snd (fst f)) fs ->
  Z.testbit (fold_left put_bits fs w) i = Z.testbit w i || existsb (bits_of i) fs.
Proof.
  intros Hi H. revert w. induction H as [|f fs [Hp Hl] H IH]; intros w; cbn.
  - by rewrite orb_false_r.
  - rewrite IH, put_bits_testbit by done. by rewrite orb_assoc.
Qed.

(** Fields that do not overlap and stay below the major opcode. *)
Definition apart (f g : Z * Z) : bool := (fst f + snd f <=? fst g) || (fst g + snd g <=? fst f).
Fixpoint laid_out (fs : list (Z * Z)) : bool :=
  match fs with
  | [] => true
  | f :: fs => (0 <=? fst f) && (0 <? snd f) && (fst f + snd f <=? 24) && forallb (apart f) fs && laid_out fs
  end.
Lemma laid_out_pos (fs : list (Z * Z * Z)) : laid_out (map fst fs) = true ->
  Forall (fun f => 0 <= fst (fst f) /\ 0 <= snd (fst f)) fs.
Proof.
  induction fs as [|f fs IH]; [done|]. cbn. rewrite !andb_true_iff, Z.leb_le, Z.ltb_lt.
  intros [[[[H1 H2] H3] H4] H5]. constructor; [lia|auto].
Qed.
Lemma laid_out_len (fs : list (Z * Z * Z)) pos len v : laid_out (map fst fs) = true -> (pos, len, v) ∈ fs ->
  0 < len <= 24.
Proof.
  induction fs as [|f fs IH]; [by intros _ ?%elem_of_nil|]. cbn. rewrite !andb_true_iff, !Z.leb_le, Z.ltb_lt.
  intros [[[[H1 H2] H3] H4] H5] [<-|Hin]%elem_of_cons; [cbn in *; lia|auto].
Qed.
Lemma laid_out_apart (fs : list (Z * Z * Z)) f i : laid_out (map fst fs) = true -> f ∈ fs ->
  fst (fst f) <= i < fst (fst f) + snd (fst f) -> existsb (bits_of i) fs = bits_of i f.
Proof.
  induction fs as [|g fs IH]; [by intros _ ?%elem_of_nil|]. cbn.
  rewrite !andb_true_iff, forallb_forall. intros [[_ Ha] Hl] Hin Hi.
  apply elem_of_cons in Hin as [->|Hin].
  - destruct (bits_of i g) eqn:E; [done|]. cbn. apply not_true_is_false. intros Hx.
    apply existsb_exists in Hx as (h & Hh & Hb). specialize (Ha (fst h) (in_map fst _ _ Hh)).
    destruct g as [[p l] v], h as [[p' l'] v']. cbn in *. unfold apart in Ha. cbn in Ha.
    rewrite !andb_true_iff, Z.leb_le, Z.ltb_lt in Hb. rewrite orb_true_iff, !Z.leb_le in Ha. lia.
  - rewrite IH by done. destruct (bits_of i g) eqn:E; [|done]. exfalso.
    specialize (Ha (fst f)). rewrite <- list_elem_of_In in Hin || rewrite list_elem_of_In in Hin.
    specialize (Ha (in_map fst _ _ Hin)).
    destruct g as [[p l] v], f as [[p' l'] v']. cbn in *. unfold apart in Ha. cbn in Ha.
    rewrite !andb_true_iff, Z.leb_le, Z.ltb_lt in E. rewrite orb_true_iff, !Z.leb_le in Ha. lia.
Qed.

Definition word_of (major : Z) (fs : list (Z * Z * Z)) : Z := fold_left put_bits fs (Z.shiftl major 24).
Section Word.
Variables (major : Z) (fs : list (Z * Z * Z)).
Hypothesis Hlaid : laid_out (map fst fs) = true.
Hypothesis Hmajor : 0 <= major < 256.

Lemma existsb_high i : 24 <= i -> existsb (bits_of i) fs = false.
Proof.
  intros Hi. apply not_true_is_false. intros (f & Hf & Hb)%existsb_exists.
  destruct f as [[p l] v]. cbn in Hb. rewrite !andb_true_iff, Z.leb_le, Z.ltb_lt in Hb.
  clear -Hlaid Hf Hb Hi. induction fs as [|g gs IH]; [done|]. cbn in *.
  rewrite !andb_true_iff, Z.leb_le in Hlaid. destruct Hlaid as [[[[_ _] H24%Z.leb_le] _] Hl].
  destruct Hf as [->|Hf]; [cbn in H24; lia|auto].
Qed.
Lemma word_testbit i : 0 <= i ->
  Z.testbit (word_of major fs) i = if i <? 24 then existsb (bits_of i) fs else Z.testbit major (i - 24).
Proof.
  intros Hi. unfold word_of. rewrite fold_put_bits by (try apply laid_out_pos; done).
  rewrite Z.shiftl_spec by done. destruct (Z.ltb_spec i 24).
  - by rewrite Z.testbit_neg_r by lia.
  - by rewrite existsb_high, orb_false_r by lia.
Qed.
Lemma word_major : word_of major fs / 2^24 = major.
Proof.
  rewrite <- Z.shiftr_div_pow2 by lia. apply Z.bits_inj'. intros i Hi.
  rewrite Z.shiftr_spec, word_testbit by lia. rewrite (proj2 (Z.ltb_ge (i + 24) 24)) by lia. f_equal. lia.
Qed.
Lemma word_field pos len v : (pos, len, v) ∈ fs ->
  word_of major fs / 2^pos mod 2^len = v mod 2^len.
Proof.
  intros Hin. assert (Hb : 0 <= pos /\ 0 < len /\ pos + len <= 24).
  { clear -Hlaid Hin. induction fs as [|g gs IH]; [by apply elem_of_nil in Hin|]. cbn in *.
    rewrite !andb_true_iff, !Z.leb_le, Z.ltb_lt in Hlaid. destruct Hlaid as [[[[H1 H2] H3] _] Hl].
    apply elem_of_cons in Hin as [<-|Hin]; [cbn in *; lia|auto]. }
  rewrite <- Z.shiftr_div_pow2 by lia. apply Z.bits_inj'. intros i Hi.
  destruct (Z.lt_ge_cases i len).
  - rewrite !Z.mod_pow2_bits_low, Z.shiftr_spec, word_testbit by lia.
    rewrite (proj2 (Z.ltb_lt (i + pos) 24)) by lia.
    rewrite (laid_out_apart _ (pos, len, v)) by (done || (cbn; lia)). cbn.
    rewrite (proj2 (Z.leb_le pos (i + pos))), (proj2 (Z.ltb_lt (i + pos) (pos + len))) by lia.
    cbn. f_equal. lia.
  - by rewrite !Z.mod_pow2_bits_high by lia.
Qed.
Lemma word_range : 0 <= word_of major fs < 2^32.
Proof.
  pose proof word_major as H. pose proof (Z.div_mod (word_of major fs) (2^24)).
  pose proof (Z.mod_pos_bound (word_of major fs) (2^24)). lia.
Qed.
End Word.

(** ** Rows and patterns *)

(** The instruction of insns.decode a row stands for. *)
Definition isa_pattern (op : Opcode) : string :=
  match op with
  | SWYM_OIII => "SWYM" | AND_ORRR => "AND" | ORR_ORRR => "ORR" | XOR_ORRR => "XOR" | XNOR_ORRR => "XNOR"
  | SHLU_ORRR => "SHLUr" | SHRS_ORRR => "SHRSr" | SHRU_ORRR => "SHRUr"
  | RD2RD_ORRI => "RD2RD" | RD2RB_ORRI => "RD2RB" | RB2RD_ORRI => "RB2RD" | RB2RB_ORRI => "RB2RB"
  | PseudoSETRD | PseudoSETRB => ""
  | SHLU_ORRI => "SHLUi" | SHRS_ORRI => "SHRSi" | SHRU_ORRI => "SHRUi"
  | ADD_RRRR => "ADDrd" | SUB_RRRR => "SUBrd" | ADD_RB_ORRR => "ADDrb" | SUB_RB_ORRR => "SUBrb"
  | ANDI_RRII => "ANDI" | ADDI_RRII => "ADDIrd" | ADDI_RB_RRII => "ADDIrb"
  | MULS_RRRR => "MULS" | MULU_RRRR => "MULU" | DIVS_RRRR => "DIVS" | DIVU_RRRR => "DIVU"
  | CMPS_ORRR => "CMPSr" | CMPU_ORRR => "CMPUr" | CMP_ORRR => "CMP"
  | CMPS_RRII => "CMPSi" | CMPU_RRII => "CMPUi" | CSN => "CSNrd" | CSZ => "CSZrd" | CSP => "CSPrd"
  | ORW_RWII _ => "ORWrd" | ORW_RB_RWII _ => "ORWrb" | ANDNW_RWII _ => "ANDNWrd"
  | ANDNW_RB_RWII _ => "ANDNWrb" | SETZW_RWII _ => "SETZWrd" | SETZW_RB_RWII _ => "SETZWrb"
  | SETOW_RWII _ => "SETOW"
  | LDBS_RRII => "LDBS" | LDWS_RRII => "LDWS" | LDTS_RRII => "LDTS" | LDO_RRII => "LDOrd"
  | LDBU_RRII => "LDBU" | LDWU_RRII => "LDWU" | LDTU_RRII => "LDTU" | LDO_RB_RRII => "LDOrb"
  | LDMBS_RRRI => "LDMBS" | LDMWS_RRRI => "LDMWS" | LDMTS_RRRI => "LDMTS" | LDMO_RD_RRRI => "LDMOrd"
  | LDMBU_RRRI => "LDMBU" | LDMWU_RRRI => "LDMWU" | LDMTU_RRRI => "LDMTU" | LDMO_RB_RRRI => "LDMOrb"
  | STB_RRII => "STB" | STW_RRII => "STW" | STT_RRII => "STTrd" | STO_RRII => "STOrd" | STO_RB_RRII => "STOrb"
  | STMB_RRRI => "STMB" | STMW_RRRI => "STMW" | STMT_RRRI => "STMTrd" | STMO_RD_RRRI => "STMOrd"
  | STMO_RB_RRRI => "STMOrb"
  | BRN_RIII => "BRN" | BRNN_RIII => "BRNN" | BRZ_RIII => "BRZ" | BRNZ_RIII => "BRNZ" | BRP_RIII => "BRP"
  | BRNP_RIII => "BRNP" | BREQ_RRII => "BREQ" | BRNE_RRII => "BRNE"
  | JUMP_IIII => "JUMPi" | JUMP_RRII => "JUMPr" | CALL_IIII => "CALLi" | CALL_RRII => "CALLr"
  | RET_FIXME => "RET"
  end.

(** The fields of the emulator an operand name may stand for. *)
Definition arg_names_of (n : string) : list string :=
  if bool_decide (n ∈ ["RxHa"; "RdHa"]) then ["ha"]
  else if bool_decide (n ∈ ["RxHb"; "RdHb"; "RyHb"]) then ["hb"]
  else if bool_decide (n ∈ ["RyHc"; "RdHc"]) then ["hc"]
  else if bool_decide (n = "RzHd") then ["hd"]
  else if bool_decide (n = "RdHd") then ["hd"]
  else if bool_decide (n = "Imm6") then ["immu6"]
  else if bool_decide (n = "Imm12") then ["imms12"; "immu12"]
  else if bool_decide (n = "Imm16") then ["immu16"]
  else if bool_decide (n = "Imm18") then ["immu18"; "imms18"]
  else if bool_decide (n = "Imm24") then ["imms24"]
  else [].

Definition row_shape (op : Opcode) : list (Z * Z) :=
  (map fst (fixed_bits (desc op)) ++ map (fun '(_, (_, p, l)) => (p, l)) (field_bits (desc op)))%list.
Definition fixed_ok (op : Opcode) (p : pattern) : bool :=
  let m := MajorOpcode (desc op) in
  match fixed_bits (desc op) with
  | (18, 6, v) :: _ =>
      ((p_mask p =? 0xFFFC0000) && (p_match p =? m * 2^24 + v * 2^18) && (0 <=? v) && (v <? 64))
      || ((p_mask p =? 0xFF000000) && (p_match p =? m * 2^24))
  | _ => (p_mask p =? 0xFF000000) && (p_match p =? m * 2^24)
  end.
Definition placed (p : pattern) : list (string * bool * nat * nat) := placed_fields (p_fields p).
(** The field of the emulator an operand name stands for. *)
Definition field_of (p : pattern) (n : string) : option (string * bool * nat * nat) :=
  List.find (fun '(f, _, _, _) => bool_decide (f ∈ arg_names_of n)) (placed p).
Definition simple_ok (op : Opcode) (p : pattern) (n : string) : bool :=
  match field_of p n with
  | Some (f, s, len, k) => bool_decide ((n, (0, Z.of_nat k, Z.of_nat len)) ∈ field_bits (desc op))
  | None => false
  end.
Definition operand_ok (op : Opcode) (p : pattern) (o : string * opclass) : bool :=
  let '(n, c) := o in
  if has_field (desc op) n then
    match c with
    | MEM_RRII =>
        bool_decide ((n, (0, 0, 18)) ∈ field_bits (desc op)) &&
        bool_decide (("hb", false, 6, 12)%nat ∈ placed p) && bool_decide (("imms12", true, 12, 0)%nat ∈ placed p)
    | MEM_RRRI =>
        bool_decide ((n, (6, 6, 12)) ∈ field_bits (desc op)) &&
        bool_decide ((0, 6, 0) ∈ fixed_bits (desc op)) &&
        bool_decide (("hb", false, 6, 12)%nat ∈ placed p) && bool_decide (("hc", false, 6, 6)%nat ∈ placed p)
        && bool_decide (("immu6", false, 6, 0)%nat ∈ placed p)
    | _ => simple_ok op p n
    end
  else true.
Definition row_ok (op : Opcode) : bool :=
  (0 <=? MajorOpcode (desc op)) && (MajorOpcode (desc op) <? 256) && laid_out (row_shape op) &&
  bool_decide (NoDup (map fst (operand_list op))) &&
  match List.find (fun p => (p_name p =? isa_pattern op)%string) insns_decode with
  | Some p => fixed_ok op p && forallb (operand_ok op p) (operand_list op)
  | None => false
  end.
Lemma rows_ok op : isPseudo op = false -> row_ok op = true.
Proof. destruct op as [| | | | | | | | | | | | | | | | | | | | | | | | | | | | | | | | | | | |[]|[]|[]|[]|[]|[]|[]|
  | | | | | | | | | | | | | | | | | | | | | | | | | | | | | | | | | | | | | |]; intros Hp; try discriminate Hp;
  vm_compute; reflexivity. Qed.

(** ** The operands in the word *)
Fixpoint valued (opc : Opcode) (ops : list (string * opclass)) (l : list MCOperand) (vs : list (string * Z)) : Prop :=
  match ops with
  | [] => True
  | (n, c) :: ops =>
      (has_field (desc opc) n = true ->
       exists v f, op_value opc c (take (op_size c) l) = Some (v, f) /\ assoc n vs = Some v) /\
      valued opc ops (drop (op_size c) l) vs
  end.
Lemma valued_cons opc ops l vs n v : n ∉ map fst ops -> valued opc ops l vs -> valued opc ops l ((n, v) :: vs).
Proof.
  revert l. induction ops as [|[m c] ops IH]; [done|]. intros l Hn [H1 H2].
  cbn [map fst] in Hn. apply not_elem_of_cons in Hn as [Hm Hn]. split; [|by apply IH].
  intros Hf. destruct (H1 Hf) as (x & f & Hx & Ha). exists x, f. split; [done|]. cbn.
  destruct (String.eqb_spec m n); [by subst|done].
Qed.
Lemma op_values_valued opc ops l vs fx :
  NoDup (map fst ops) -> op_values opc ops l = Some (vs, fx) -> valued opc ops l vs.
Proof.
  revert l vs fx. induction ops as [|[n c] ops IH]; [done|]. intros l vs fx Hnd H.
  cbn [map fst] in Hnd. apply NoDup_cons in Hnd as [Hn Hnd]. cbn [op_values] in H.
  case_match; [done|]. destruct (op_values opc ops (drop (op_size c) l)) as [[ws fs]|] eqn:E; [|done]. cbn in H.
  specialize (IH _ _ _ Hnd E). case_match.
  - destruct (op_value opc c _) as [[v f]|] eqn:Ev; [|done]. cbn in H. injection H as <- <-.
    split; [|by apply valued_cons]. intros _. exists v, f. split; [done|]. cbn. by rewrite String.eqb_refl.
  - injection H as <- <-. split; [congruence|done].
Qed.

(** What the fields [a] of the emulator hold of an operand [n] of class [c]. *)
Definition field_holds (sgn : bool) (len : nat) (v x : Z) : Prop :=
  x = if sgn then sext (Z.of_nat len) v else v mod 2 ^ Z.of_nat len.
Definition holds (n : string) (c : opclass) (l : list MCOperand) (p : pattern) (a : args) : Prop :=
  match c, l with
  | MEM_RRII, [MCReg r; MCImm v] => getDadaoRegisterNumbering r = Some (hb a) /\ imms12 a = v
  | MEM_RRII, [MCReg r; MCExp _] => getDadaoRegisterNumbering r = Some (hb a) /\ imms12 a = 0
  | MEM_RRRI, [MCReg r1; MCReg r2; MCImm v] => 0 <= v < 64 ->
      getDadaoRegisterNumbering r1 = Some (hb a) /\ getDadaoRegisterNumbering r2 = Some (hc a) /\ immu6 a = 0
  | MEM_RRII, _ | MEM_RRRI, _ => False
  | _, [o] =>
      match field_of p n with
      | Some (f, s, len, _) =>
          match o with
          | MCReg r => exists i, getDadaoRegisterNumbering r = Some i /\ field_holds s len i (get_arg f a)
          | MCImm v => field_holds s len v (get_arg f a)
          | MCExp _ => get_arg f a = 0
          end
      | None => False
      end
  | _, _ => False
  end.
Fixpoint operands_hold (d : Inst_Dadao) (ops : list (string * opclass)) (l : list MCOperand)
    (p : pattern) (a : args) : Prop :=
  match ops with
  | [] => True
  | (n, c) :: ops =>
      (has_field d n = true -> holds n c (take (op_size c) l) p a) /\
      operands_hold d ops (drop (op_size c) l) p a
  end.

Lemma numbering_range r i : getDadaoRegisterNumbering r = Some i -> 0 <= i < 64.
Proof.
  destruct r; cbn; unfold hex6; repeat case_match; intros [= <-]; try lia;
    repeat match goal with H : _ && _ = true |- _ => apply andb_true_iff in H as [?%Z.leb_le ?%Z.leb_le] end; lia.
Qed.
Lemma field_of_mod sgn (len k : nat) w v : (0 < len)%nat ->
  w / 2 ^ Z.of_nat k mod 2 ^ Z.of_nat len = v mod 2 ^ Z.of_nat len ->
  field_holds sgn len v (field_val sgn len k w).
Proof.
  intros Hl H. unfold field_holds, field_val. destruct sgn; [|done]. apply sext_congr; [lia|done].
Qed.
Lemma field_holds_congr sgn (len : nat) u v x : (0 < len)%nat ->
  u mod 2 ^ Z.of_nat len = v mod 2 ^ Z.of_nat len -> field_holds sgn len u x -> field_holds sgn len v x.
Proof.
  intros Hl H Hx. unfold field_holds in *. destruct sgn; [|congruence].
  rewrite Hx. apply sext_congr; [lia|done].
Qed.
Lemma w32_mod_pow v n : 0 <= n <= 32 -> w32 v mod 2^n = v mod 2^n.
Proof.
  intros Hn. unfold w32. replace 32 with (n + (32 - n)) by lia. rewrite Z.pow_add_r by lia.
  assert (0 < 2^n) by (apply Z.pow_pos_nonneg; lia). assert (0 < 2^(32-n)) by (apply Z.pow_pos_nonneg; lia).
  rewrite Z.rem_mul_r by lia. rewrite (Z.mul_comm (2^n) (_ mod _)), Z.mod_add, Z.mod_mod by lia. done.
Qed.

(** Every field the encoder fills is in [word_of]. *)
Lemma encoded_word op l w fx : isPseudo op = false ->
  getBinaryCodeForInstr (MkMCInst op l) = Some (w, fx) ->
  exists vs fs, valued op (operand_list op) l vs /\
    w = word_of (MajorOpcode (desc op)) (fixed_bits (desc op) ++ fs) /\
    map fst (fixed_bits (desc op) ++ fs) = row_shape op /\
    forall n lo pos len v, (n, (lo, pos, len)) ∈ field_bits (desc op) -> assoc n vs = Some v ->
      (pos, len, Z.shiftr v lo) ∈ (fixed_bits (desc op) ++ fs)%list.
Proof.
  intros Hp H. pose proof (rows_ok op Hp) as Hrow. unfold row_ok in Hrow.
  rewrite !andb_true_iff in Hrow. destruct Hrow as [[_ Hnd%bool_decide_eq_true] _].
  unfold getBinaryCodeForInstr in H. cbn [getOpcode Operands] in H. rewrite Hp in H.
  destruct (op_values op (operand_list op) l) as [[vs fx']|] eqn:Ev; [|done]. cbn [mbind option_bind] in H.
  destruct (mapM (field_value vs) (field_bits (desc op))) as [fs|] eqn:Em; [|done].
  cbn [mbind option_bind] in H. injection H as <- <-.
  exists vs, fs. split; [by eapply op_values_valued|]. split; [done|].
  apply mapM_Some in Em. split.
  - rewrite map_app. unfold row_shape. f_equal. clear -Em.
    induction Em as [|[n [[lo pos] len]] f fbs fs Hf Em IH]; [done|]. cbn. rewrite IH. f_equal.
    cbn in Hf. destruct (assoc n vs); [|done]. by injection Hf as <-.
  - intros n lo pos len v Hin Ha. apply elem_of_app. right. clear -Em Hin Ha.
    induction Em as [|g f fbs fs Hf Em IH]; [by apply elem_of_nil in Hin|].
    apply elem_of_cons in Hin as [<-|Hin]; [|right; auto].
    cbn in Hf. rewrite Ha in Hf. cbn in Hf. injection Hf as <-. left.
Qed.

Lemma row_matched p w op fs : row_ok op = true -> map fst (fixed_bits (desc op) ++ fs) = row_shape op ->
  fixed_ok op p = true -> w = word_of (MajorOpcode (desc op)) (fixed_bits (desc op) ++ fs) ->
  matches p w = true.
Proof.
  intros Hrow Hsh Hok Hw. unfold row_ok in Hrow. rewrite !andb_true_iff, Z.leb_le, Z.ltb_lt in Hrow.
  destruct Hrow as [[[[Hm1 Hm2] Hlaid] _] _]. rewrite <- Hsh in Hlaid.
  pose proof (word_range _ _ Hlaid (conj Hm1 Hm2)) as Hr.
  pose proof (word_major (MajorOpcode (desc op)) _ Hlaid) as Hmaj. rewrite <- Hw in Hmaj, Hr.
  assert (Htop : p_mask p = 0xFF000000 -> p_match p = MajorOpcode (desc op) * 2^24 -> matches p w = true).
  { intros H1 H2. unfold matches. rewrite H1, H2, land_top, Hmaj by done. apply Z.eqb_refl. }
  assert (Hone : forall b, b && (p_match p =? MajorOpcode (desc op) * 2^24) = true ->
            b = (p_mask p =? 0xFF000000) -> matches p w = true).
  { intros b [Hb Hx]%andb_true_iff ->. apply Htop; lia. }
  unfold fixed_ok in Hok. destruct (fixed_bits (desc op)) as [|[[q l] v] fb] eqn:Ef; [by eapply Hone|].
  assert (Hf : (q, l, v) ∈ ((q, l, v) :: fb ++ fs)%list) by left.
  destruct (decide ((q, l) = (18, 6))) as [[= -> ->]|Hne].
  - apply orb_true_iff in Hok as [Hok|Hok]; [|by eapply Hone].
    rewrite !andb_true_iff, !Z.eqb_eq, Z.leb_le, Z.ltb_lt in Hok. destruct Hok as [[[H1 H2] H3] H4].
    pose proof (word_field (MajorOpcode (desc op)) _ Hlaid 18 6 v Hf) as Hv. cbn [app] in *. rewrite <- Hw in Hv.
    unfold matches. rewrite H1, H2. change 0xFFFC0000 with (Z.shiftl (Z.ones 14) 18).
    rewrite land_field by lia. apply Z.eqb_eq. Z.div_mod_to_equations; lia.
  - eapply Hone; [|reflexivity].
    destruct q as [|q|q]; try exact Hok. repeat (destruct q as [q|q|]; try exact Hok).
    destruct l as [|l|l]; try exact Hok. repeat (destruct l as [l|l|]; try exact Hok). congruence.
Qed.

Section Held.
Variables (op : Opcode) (p : pattern) (w : Z) (vs : list (string * Z)).
Hypothesis Hp : p ∈ insns_decode.
Hypothesis Hfield : forall n lo pos len v, (n, (lo, pos, len)) ∈ field_bits (desc op) -> assoc n vs = Some v ->
  0 < len <= 24 /\ w / 2^pos mod 2^len = Z.shiftr v lo mod 2^len.
Hypothesis Hfixed : (0, 6, 0) ∈ fixed_bits (desc op) -> w mod 2^6 = 0.

(** An operand of one field of the emulator. *)
Lemma simple_held n f s len k v :
  (f, s, len, k) ∈ placed p -> (n, (0, Z.of_nat k, Z.of_nat len)) ∈ field_bits (desc op) ->
  assoc n vs = Some v -> (0 < len <= 24)%nat /\ field_holds s len v (get_arg f (pattern_args p w)).
Proof.
  intros Hf Hn Hv. rewrite (pattern_args_field p w f s len k) by done.
  destruct (Hfield _ _ _ _ _ Hn Hv) as [Hl Hw]. rewrite Z.shiftr_0_r in Hw.
  split; [lia|]. apply field_of_mod; [lia|done].
Qed.
(** A field of the emulator inside the bits of a memory operand. *)
Lemma inner_held n lo pos len v f s (l k : nat) :
  (n, (lo, pos, len)) ∈ field_bits (desc op) -> assoc n vs = Some v -> (f, s, l, k) ∈ placed p ->
  (0 < l)%nat -> 0 <= lo -> 0 <= pos -> pos <= Z.of_nat k -> Z.of_nat k + Z.of_nat l <= pos + len ->
  field_holds s l (Z.shiftr v (lo + (Z.of_nat k - pos))) (get_arg f (pattern_args p w)).
Proof.
  intros Hn Hv Hf Hl Hlo Hpos H1 H2. rewrite (pattern_args_field p w f s l k) by done.
  apply field_of_mod; [done|]. destruct (Hfield _ _ _ _ _ Hn Hv) as [Hlen Hw].
  apply Z.bits_inj'. intros i Hi. destruct (Z.lt_ge_cases i (Z.of_nat l)); [|by rewrite !Z.mod_pow2_bits_high by lia].
  rewrite !Z.mod_pow2_bits_low by lia.
  apply (f_equal (fun x => Z.testbit x (i + (Z.of_nat k - pos)))) in Hw.
  rewrite !Z.mod_pow2_bits_low, <- !Z.shiftr_div_pow2, !Z.shiftr_spec in Hw by lia.
  rewrite <- Z.shiftr_div_pow2, !Z.shiftr_spec by lia.
  replace (i + Z.of_nat k) with (i + (Z.of_nat k - pos) + pos) by lia. rewrite Hw. f_equal. lia.
Qed.

Lemma simple_operand n c o v fx : simple_ok op p n = true -> assoc n vs = Some v ->
  getMachineOpValue o = Some (v, fx) \/ getBranchTargetOpValue op o = Some (v, fx) ->
  match c with MEM_RRII | MEM_RRRI => False | _ => True end -> holds n c [o] p (pattern_args p w).
Proof.
  unfold simple_ok. destruct (field_of p n) as [[[[f s] len] k]|] eqn:Ef; [|done].
  intros Hb%bool_decide_eq_true Ha Ho Hc. pose proof Ef as [Hin _]%find_some. apply list_elem_of_In in Hin.
  destruct (simple_held n f s len k v Hin Hb Ha) as [Hlen Hh].
  destruct o as [r|i|e]; cbn in Ho.
  - assert (Hr : getDadaoRegisterNumbering r = Some v).
    { destruct (getDadaoRegisterNumbering r); [|by destruct Ho]. cbn in Ho. destruct Ho as [Ho|Ho]; congruence. }
    destruct c; try done; unfold holds; rewrite Ef; by exists v.
  - assert (Hi : v = w32 i) by (destruct Ho as [Ho|Ho]; congruence). subst v.
    apply (field_holds_congr s len _ i) in Hh; [|lia|apply w32_mod_pow; lia].
    destruct c; try done; unfold holds; by rewrite Ef.
  - assert (Hi : v = 0). { destruct Ho as [Ho|Ho]; [|congruence]. repeat case_match; congruence. }
    subst v. assert (H0 : get_arg f (pattern_args p w) = 0).
    { unfold field_holds, sext in Hh. rewrite Z.bits_0, Z.mod_0_l in Hh by lia. by destruct s. }
    destruct c; try done; unfold holds; by rewrite Ef.
Qed.

Lemma rrii_operand n r o v fx : (n, (0, 0, 18)) ∈ field_bits (desc op) ->
  ("hb", false, 6%nat, 12%nat) ∈ placed p -> ("imms12", true, 12%nat, 0%nat) ∈ placed p ->
  assoc n vs = Some v -> getRRIIMemoryOpValue (MCReg r) o = Some (v, fx) ->
  holds n MEM_RRII [MCReg r; o] p (pattern_args p w).
Proof.
  intros Hn Hb Hi Ha Hv. cbn in Hv. destruct (getDadaoRegisterNumbering r) as [i|] eqn:Er; [|done].
  pose proof (numbering_range r i Er) as Hr. cbn in Hv.
  pose proof (inner_held n 0 0 18 v "hb" false 6 12 Hn Ha Hb ltac:(lia) ltac:(lia) ltac:(lia) ltac:(lia) ltac:(lia)) as H1.
  pose proof (inner_held n 0 0 18 v "imms12" true 12 0 Hn Ha Hi ltac:(lia) ltac:(lia) ltac:(lia) ltac:(lia) ltac:(lia)) as H2.
  cbn [get_arg field_holds String.eqb Ascii.eqb Bool.eqb] in H1, H2.
  assert (Hx : exists x, v = i * 2^12 + x /\ 0 <= x < 2^12 /\
    match o with MCImm j => isInt 12 j = true /\ x = j mod 2^12 | MCExp _ => x = 0 | MCReg _ => False end).
  { destruct o as [r'|j|e]; [done| |].
    - destruct (isInt 12 j); [|done]. injection Hv as <- _. exists (Z.land j (Z.ones 12)).
      rewrite Z.land_ones by lia. split; [|split; [apply Z.mod_pos_bound|]; done].
      change 0xfff with (Z.ones 12). rewrite Z.land_ones by lia.
      rewrite lor_shiftl_add by (try apply Z.mod_pos_bound; lia). done.
    - destruct (getMachineOpValue _) as [[? ?]|]; [|done]. cbn in Hv. injection Hv as <- _.
      exists 0. rewrite Z.shiftl_mul_pow2 by lia. split; [|split]; lia. }
  destruct Hx as (x & -> & Hx & Ho).
  assert (E1 : Z.shiftr (i * 2^12 + x) (0 + (Z.of_nat 12 - 0)) = i).
  { rewrite Z.shiftr_div_pow2 by lia. change (0 + (Z.of_nat 12 - 0)) with 12.
    rewrite Z.div_add_l, Z.div_small by lia. lia. }
  assert (E2 : Z.shiftr (i * 2^12 + x) (0 + (Z.of_nat 0 - 0)) mod 2^12 = x mod 2^12).
  { rewrite Z.shiftr_0_r, Z.add_comm, Z.mod_add by lia. done. }
  assert (G1 : hb (pattern_args p w) = i).
  { etransitivity; [exact H1|]. rewrite E1. apply Z.mod_small. cbn. lia. }
  assert (G2 : imms12 (pattern_args p w) = sext 12 x).
  { etransitivity; [exact H2|]. apply sext_congr; [lia|]. exact E2. }
  destruct o as [r'|j|e]; [done| |]; cbn [holds]; rewrite Er, G1, G2; (split; [done|]).
  - destruct Ho as [Hj ->]. unfold isInt in Hj. apply andb_true_iff in Hj as [?%Z.leb_le ?%Z.ltb_lt].
    rewrite (sext_congr 12 _ j), sext_id by (lia || (apply Z.mod_mod; lia)). done.
  - subst x. done.
Qed.
Lemma rrri_operand n r1 r2 k v fx : (n, (6, 6, 12)) ∈ field_bits (desc op) -> (0, 6, 0) ∈ fixed_bits (desc op) ->
  ("hb", false, 6%nat, 12%nat) ∈ placed p -> ("hc", false, 6%nat, 6%nat) ∈ placed p ->
  ("immu6", false, 6%nat, 0%nat) ∈ placed p ->
  assoc n vs = Some v -> getRRRIMemoryOpValue (MCReg r1) (MCReg r2) (MCImm k) = Some (v, fx) ->
  holds n MEM_RRRI [MCReg r1; MCReg r2; MCImm k] p (pattern_args p w).
Proof.
  intros Hn Hz Hb Hc Hi Ha Hv Hk. cbn in Hv.
  destruct (getDadaoRegisterNumbering r1) as [i|] eqn:Er1; [|done].
  destruct (getDadaoRegisterNumbering r2) as [j|] eqn:Er2; [|done].
  pose proof (numbering_range r1 i Er1) as Hri. pose proof (numbering_range r2 j Er2) as Hrj.
  cbn in Hv. injection Hv as Hv _.
  pose proof (inner_held n 6 6 12 v "hb" false 6 12 Hn Ha Hb ltac:(lia) ltac:(lia) ltac:(lia) ltac:(lia) ltac:(lia)) as H1.
  pose proof (inner_held n 6 6 12 v "hc" false 6 6 Hn Ha Hc ltac:(lia) ltac:(lia) ltac:(lia) ltac:(lia) ltac:(lia)) as H2.
  cbn [get_arg field_holds String.eqb Ascii.eqb Bool.eqb] in H1, H2.
  assert (Hw : v = i * 2^12 + (j * 2^6 + k)).
  { rewrite <- Hv, <- Z.lor_assoc, (lor_shiftl_add j), lor_shiftl_add by lia. apply w32_id. lia. }
  split; [|split].
  - f_equal. symmetry. etransitivity; [exact H1|]. rewrite Z.shiftr_div_pow2 by lia.
    change (6 + (Z.of_nat 12 - 6)) with 12. rewrite Hw, Z.div_add_l, Z.div_small, Z.add_0_r by lia.
    apply Z.mod_small. cbn. lia.
  - f_equal. symmetry. etransitivity; [exact H2|]. rewrite Z.shiftr_div_pow2 by lia.
    change (6 + (Z.of_nat 6 - 6)) with 6. change (Z.of_nat 6) with 6. rewrite Hw. Z.div_mod_to_equations; lia.
  - change (immu6 (pattern_args p w)) with (get_arg "immu6" (pattern_args p w)).
    rewrite (pattern_args_field p w "immu6" false 6 0) by done. unfold field_val.
    change (Z.of_nat 0) with 0. rewrite Z.pow_0_r, Z.div_1_r. by apply Hfixed.
Qed.
Lemma operand_held n c l : operand_ok op p (n, c) = true -> has_field (desc op) n = true ->
  (exists v f, op_value op c l = Some (v, f) /\ assoc n vs = Some v) -> holds n c l p (pattern_args p w).
Proof.
  intros Hok Hf (v & fx & Hv & Ha). unfold operand_ok in Hok. rewrite Hf in Hok.
  destruct c; cbn in Hv;
    try (destruct l as [|? [|? ?]]; try done; eapply simple_operand; eauto; fail);
    rewrite !andb_true_iff, !bool_decide_eq_true in Hok.
  - destruct Hok as [[? ?] ?]. destruct l as [|[] [|? [|? ?]]]; try done. eapply rrii_operand; eauto.
  - destruct Hok as [[[[? ?] ?] ?] ?]. destruct l as [|[] [|[] [|[] [|? ?]]]]; try done. eapply rrri_operand; eauto.
Qed.
End Held.

Lemma encoded_decodes op l w fx :
  getBinaryCodeForInstr (MkMCInst op l) = Some (w, fx) ->
  0 <= w < 2^32 /\
  exists p, decode w = Some p /\ p_name p = isa_pattern op /\
    operands_hold (desc op) (operand_list op) l p (pattern_args p w) /\
    forall f s len k v, (f, s, len, k) ∈ placed p -> (Z.of_nat k, Z.of_nat len, v) ∈ fixed_bits (desc op) ->
      field_holds s len v (get_arg f (pattern_args p w)).
Proof.
  intros H. assert (Hps : isPseudo op = false).
  { unfold getBinaryCodeForInstr in H. cbn [getOpcode] in H. by destruct (isPseudo op). }
  destruct (encoded_word op l w fx Hps H) as (vs & fs & Hval & Hw & Hsh & Hfs).
  pose proof (rows_ok op Hps) as Hrow. pose proof Hrow as Hr. unfold row_ok in Hr.
  rewrite !andb_true_iff, Z.leb_le, Z.ltb_lt in Hr. destruct Hr as [[[[Hm1 Hm2] Hlaid] _] Hfind].
  destruct (List.find _ insns_decode) as [p|] eqn:Ep; [|done].
  apply find_some in Ep as [Hp Hname%String.eqb_eq]. apply list_elem_of_In in Hp.
  apply andb_true_iff in Hfind as [Hfix Hops]. rewrite <- Hsh in Hlaid.
  assert (Hbits : forall pos len v, (pos, len, v) ∈ (fixed_bits (desc op) ++ fs)%list ->
            0 < len <= 24 /\ w / 2^pos mod 2^len = v mod 2^len).
  { intros pos len v Hin. split; [by eapply laid_out_len|]. rewrite Hw. by eapply word_field. }
  split; [rewrite Hw; by eapply word_range|]. exists p. split; [|split; [done|split]].
  - apply decode_some. split; [done|]. by eapply row_matched.
  - assert (Hheld : forall n c l, operand_ok op p (n, c) = true -> has_field (desc op) n = true ->
      (exists v f, op_value op c l = Some (v, f) /\ assoc n vs = Some v) -> holds n c l p (pattern_args p w)).
    { intros n c l'. apply (operand_held op p w vs Hp).
      - intros m lo pos len v Hm Ha. apply Hbits. by eapply Hfs.
      - intros Hz. destruct (Hbits 0 6 0 (proj2 (elem_of_app _ _ _) (or_introl Hz))) as [_ Hb].
        by rewrite Z.pow_0_r, Z.div_1_r in Hb. }
    rewrite forallb_forall in Hops. clear -Hops Hheld Hval. revert l Hval.
    induction (operand_list op) as [|[n c] ops IH]; [done|]. intros l [H1 H2]. split.
    + intros Hf. apply Hheld; [apply Hops; by left|done|]. by apply H1.
    + apply IH; [|done]. intros x Hx. apply Hops. by right.
  - intros f sg len k v Hf Hin. rewrite (pattern_args_field p w f sg len k Hp Hf).
    destruct (Hbits _ _ _ (proj2 (elem_of_app _ _ _) (or_introl Hin))) as [Hlen Hb].
    apply field_of_mod; [lia|done].
Qed.
(** C26: what the LLVM encoder emits, the emulator decodes: to the instruction
    the row stands for, with every register number, immediate and memory
    operand read back from the word as the operand it was given (an immediate
    modulo the width of its field, a symbol as zero), and the parts the row
    fixes (wyde positions, counts) in their fields. *)
Theorem encode_decodes op l w fx :
  getBinaryCodeForInstr (MkMCInst op l) = Some (w, fx) ->
  0 <= w < 2^32 /\
  exists p, decode w = Some p /\ p_name p = isa_pattern op /\
    operands_hold (desc op) (operand_list op) l p (pattern_args p w) /\
    forall f s len k v, (f, s, len, k) ∈ placed p -> (Z.of_nat k, Z.of_nat len, v) ∈ fixed_bits (desc op) ->
      field_holds s len v (get_arg f (pattern_args p w)).
Proof. apply encoded_decodes. Qed.
Lemma encode_decodes_witness : exists p,
  decode 0x30109ffc = Some p /\ p_name p = "LDBS" /\
  operands_hold (desc LDBS_RRII) (operand_list LDBS_RRII) [MCReg (RDx 4); MCReg (RBx 9); MCImm (-4)]
    p (pattern_args p 0x30109ffc).
Proof.
  assert (H : getBinaryCodeForInstr (MkMCInst LDBS_RRII [MCReg (RDx 4); MCReg (RBx 9); MCImm (-4)])
              = Some (0x30109ffc, [])) by (vm_compute; reflexivity).
  destruct (encode_decodes _ _ _ _ H) as (_ & p & Hd & Hn & Ho & _). by exists p.
Defined.

(** The operand decoder of the disassembler undoes the operand encoder. *)
Lemma memory_operand_roundtrip r i v fx :
  getRRIIMemoryOpValue (MCReg r) (MCImm i) = Some (v, fx) ->
  exists n, getDadaoRegisterNumbering r = Some n /\ decodeRRIIMemoryValue v = [MCReg (RBx n); MCImm i].
Proof.
  cbn. destruct (getDadaoRegisterNumbering r) as [n|] eqn:Er; [|done]. cbn.
  pose proof (numbering_range r n Er) as Hr. destruct (isInt 12 i) eqn:Hi; [|done].
  unfold isInt in Hi. apply andb_true_iff in Hi as [?%Z.leb_le ?%Z.ltb_lt]. intros [= <- _].
  exists n. split; [done|]. unfold decodeRRIIMemoryValue.
  change 0xfff with (Z.ones 12). change 0x3f with (Z.ones 6).
  rewrite !Z.land_ones by lia. rewrite lor_shiftl_add by (try apply Z.mod_pos_bound; lia).
  rewrite Z.shiftr_div_pow2 by lia. do 2 f_equal.
  - do 2 f_equal. rewrite Z.div_add_l, Z.div_small, Z.add_0_r by (try apply Z.mod_pos_bound; lia).
    apply Z.mod_small. lia.
  - do 2 f_equal. rewrite <- (sext_id 12 i) at 2 by lia. apply sext_congr; [lia|].
    rewrite Z.mod_mod, Z.add_comm, Z.mod_add, Z.mod_mod by lia. done.
Qed.

(** ** Using the fields *)
Lemma named_pattern p n q : p ∈ insns_decode -> p_name p = n ->
  List.find (fun p => (p_name p =? n)%string) insns_decode = Some q -> p = q.
Proof.
  intros Hp Hn [Hq Hqn%String.eqb_eq]%find_some. apply list_elem_of_In in Hq.
  apply pattern_by_name; congruence.
Qed.
Lemma register_field r i x : getDadaoRegisterNumbering r = Some i -> field_holds false 6 i x -> x = i.
Proof. intros Hr ->. apply Z.mod_small. by apply (numbering_range r). Qed.
