(* ===== verification/LlvmExec.v ===== *)
(** What the instructions of the LLVM back end do on the emulator: the results
    [machine_sem] of the selected instructions, the branches with their
    fixups, and the constants. *)
From S2P Require Import Prelude Opcodes Cpu Tcg Translate Run RefBackend IsaArith IsaMove IsaMem IsaControl.
From S2P Require Import Frame Decode Step Isa IsaProps Disas DisasProps Gas GasEncode GasExec.
From S2P Require Import LlvmData LlvmMc LlvmLower LlvmEncode.
Local Open Scope string_scope.
Local Open Scope Z_scope.

(** The value of an operand in a CPU state. *)
Definition operand_val (env : CPUDADAOState) (o : MCOperand) : option Z :=
  match o with
  | MCReg r => i ← getDadaoRegisterNumbering r; Some (reg (reg_file r) i env)
  | MCImm v => Some v
  | MCExp _ => None
  end.
(** A register of rd for a register class, an immediate otherwise. *)
Definition of_class (o : MCOperand) (c : string * opclass) : Prop :=
  match snd c, o with
  | GPRD, MCReg r => reg_file r = RD
  | GPRD, _ => False
  | _, MCImm _ => True
  | _, _ => False
  end.

(** After an instruction: the output registers hold their values (register 0
    drops its value), every other register is as it was. *)
Record after (env env' : CPUDADAOState) (outs : list (Z * Z)) (pc : Z) : Prop := After {
  af_wf : wf_env env';
  af_pc : REG_PC env' = pc;
  af_out : Forall (fun '(i, v) => i <> 0 -> reg RD i env' = v) outs;
  af_other : forall g j, j <> 0 -> (g = RD -> j ∉ map fst outs) -> reg g j env' = reg g j env }.

Lemma wf_write f i v env : wf_env env -> wf_env (write f i v env).
Proof. intros H. unfold write. destruct (i =? 0); eauto with cpu. Qed.
Lemma reg_write_ne f i v g j env : (g, j) <> (f, i) -> reg g j (write f i v env) = reg g j env.
Proof.
  intros H. unfold write. destruct (i =? 0); [done|]. apply reg_set_reg_ne.
  destruct (decide (f = g)) as [->|]; [right; congruence|by left].
Qed.
Lemma reg_write_eq f i v env : wf_env env -> 0 <= i < 64 -> i <> 0 -> reg f i (write f i v env) = v.
Proof. intros H Hi Hn. unfold write. rewrite (proj2 (Z.eqb_neq i 0)) by done. by apply reg_set_reg_eq. Qed.
Lemma after_one i v pc env : wf_env env -> 0 <= i < 64 ->
  after env (set_PC pc (write RD i v (prologue env))) [(i, v)] pc.
Proof.
  intros Hwf Hi. assert (Hw : wf_env (write RD i v (prologue env))) by (apply wf_write; by apply wf_prologue).
  split.
  - unfold set_PC. eauto with cpu.
  - unfold REG_PC, set_PC. by apply reg_set_reg_eq.
  - constructor; [|done]. intros Hn. unfold set_PC. rewrite reg_set_reg_ne by (by left).
    apply reg_write_eq; auto using wf_prologue.
  - intros g j Hj Hg. unfold set_PC. rewrite reg_set_reg_ne by (by right).
    rewrite reg_write_ne, reg_prologue; [done|done|]. intros [= -> ->]. apply Hg; [done|left].
Qed.
Lemma after_two i u j v pc env : wf_env env -> 0 <= i < 64 -> 0 <= j < 64 -> i <> j \/ i = 0 ->
  after env (set_PC pc (write RD i u (write RD j v (prologue env)))) [(i, u); (j, v)] pc /\
  after env (set_PC pc (write RD j v (write RD i u (prologue env)))) [(i, u); (j, v)] pc.
Proof.
  intros Hwf Hi Hj Hij. assert (Hp : wf_env (prologue env)) by (by apply wf_prologue).
  assert (Hw : forall k x, wf_env (write RD k x (prologue env))) by (intros; by apply wf_write).
  assert (Hww : forall k x l y, wf_env (write RD k x (write RD l y (prologue env)))) by (intros; by apply wf_write).
  split; (split; [unfold set_PC; eauto with cpu|unfold REG_PC, set_PC; by apply reg_set_reg_eq| |]).
  1,3: constructor; [|constructor; [|done]]; intros Hn; unfold set_PC; rewrite reg_set_reg_ne by (by left).
  1,4: by rewrite reg_write_eq by done.
  1,2: rewrite reg_write_ne by (intros [=]; subst; lia); by apply reg_write_eq.
  all: intros g k Hk Hg; unfold set_PC; rewrite reg_set_reg_ne by (by right);
    rewrite !reg_write_ne, reg_prologue; [done|done| |]; intros [= -> ->];
    (apply Hg; [done|]); cbn; set_solver.
Qed.

(** Closes [plain_row] of a row. *)
Ltac plain := split; repeat constructor; done.

Section Exec.
Context {M : Type} (B : backend M) (L : tcg_laws B).
Variable helper : string -> CPUDADAOState -> list Z -> Z * CPUDADAOState.
Variable disas : Z -> gen bool.
Hypothesis Hdisas : decodetree_laws disas.
Variable goto_tb : Z -> bool.
Abbreviation cpu_step := (step B helper disas goto_tb).

(** An encoded instruction runs as the specification of its row says. *)
Lemma encoded_step sp op l w fx pc env mem :
  step_implements B helper disas sp -> sp_name sp = isa_pattern op ->
  getBinaryCodeForInstr (MkMCInst op l) = Some (w, fx) ->
  0 <= pc < 2^64 -> wf_env env -> u64_env env ->
  exists p, p ∈ insns_decode /\ p_name p = isa_pattern op /\ fields_ok (pattern_args p w) /\
    operands_hold (desc op) (operand_list op) l p (pattern_args p w) /\
    (forall f s len k v, (f, s, len, k) ∈ placed p -> (Z.of_nat k, Z.of_nat len, v) ∈ fixed_bits (desc op) ->
      field_holds s len v (get_arg f (pattern_args p w))) /\
    (sp_pre sp pc (pattern_args p w) (prologue env) ->
     cpu_step pc w env mem = Some (sp_sem sp pc (pattern_args p w) (prologue env) mem)).
Proof.
  intros (q & Hq & Hqn & Hstep) Hsp Henc Hpc Hwf Hu.
  destruct (encoded_decodes _ _ _ _ Henc) as (_ & p & Hd & Hn & Hops & Hww).
  apply decode_some in Hd as [Hp Hm].
  assert (p = q) as ->.
  { destruct (List.find (fun p => (p_name p =? isa_pattern op)%string) insns_decode) as [r|] eqn:E.
    - rewrite (named_pattern p _ r Hp Hn E), (named_pattern q _ r Hq (eq_trans Hqn Hsp) E). done.
    - pose proof (find_none _ _ E p (proj1 (list_elem_of_In _ _) Hp)) as Hf. cbn in Hf.
      rewrite Hn, String.eqb_refl in Hf. done. }
  exists q. repeat (split; [done|]). split; [by apply pattern_args_ok|]. split; [done|]. split; [done|].
  intros Hpre. by apply Hstep.
Qed.
Lemma alu_step r : r ∈ isa_alu -> step_implements B helper disas (sp_alu r).
Proof.
  intros Hr. pose proof (alu_implemented B L helper disas Hdisas) as Ha. rewrite Forall_forall in Ha.
  apply Ha. unfold isa_alu_specs. apply list_elem_of_fmap. eauto.
Qed.

(** The fields of the emulator the operands of a row are in. *)
Definition fields_named (n : string) (l : list (string * (string * bool * nat * nat))) : bool :=
  forallb (fun p => negb (p_name p =? n)%string ||
    forallb (fun '(m, f) => bool_decide (field_of p m = Some f)) l) insns_decode.
Lemma field_named n l p m f : fields_named n l = true -> p ∈ insns_decode -> p_name p = n ->
  (m, f) ∈ l -> field_of p m = Some f.
Proof.
  unfold fields_named. rewrite forallb_forall. intros H Hp Hn Hf.
  specialize (H p (proj1 (list_elem_of_In _ _) Hp)). rewrite Hn, String.eqb_refl in H. cbn in H.
  rewrite forallb_forall in H. specialize (H (m, f) (proj1 (list_elem_of_In _ _) Hf)).
  by apply bool_decide_eq_true in H.
Qed.
Definition at_ha n : string * (string * bool * nat * nat) := (n, ("ha", false, 6, 18)%nat).
Definition at_hb n : string * (string * bool * nat * nat) := (n, ("hb", false, 6, 12)%nat).
Definition at_hc n : string * (string * bool * nat * nat) := (n, ("hc", false, 6, 6)%nat).
Definition at_hd n : string * (string * bool * nat * nat) := (n, ("hd", false, 6, 0)%nat).

(** Running the encoded instruction leaves the results [machine_sem] gives. *)
Definition runs_as (op : Opcode) : Prop :=
  forall outs ins vals rs pc w fx env mem,
    Forall2 of_class ins (InOperandList (desc op)) -> length outs = length (OutOperandList (desc op)) ->
    mapM (operand_val (prologue env)) ins = Some vals -> machine_sem op vals = Some rs ->
    getBinaryCodeForInstr (MkMCInst op (map MCReg outs ++ ins)) = Some (w, fx) ->
    0 <= pc < 2^64 -> wf_env env -> u64_env env ->
    exists env' ns, mapM getDadaoRegisterNumbering outs = Some ns /\
      ((forall i j, ns = [i; j] -> i <> j \/ i = 0) ->
       cpu_step pc w env mem = Some (RExit env' mem) /\ after env env' (zip ns rs) (w64 (pc + 4))).

(** What a field holds of an input, and of an output register. *)
Definition reads (p : pattern) (a : args) (env : CPUDADAOState) (v : Z) (o : string * opclass) : Prop :=
  match field_of p (fst o) with
  | Some (f, s, len, _) =>
      match snd o with
      | GPRD => s = false -> len = 6%nat -> reg RD (get_arg f a) env = v
      | _ => field_holds s len v (get_arg f a)
      end
  | None => False
  end.
Definition writes (p : pattern) (a : args) (r : Register) (o : string * opclass) : Prop :=
  match field_of p (fst o) with
  | Some (f, s, len, _) => s = false -> len = 6%nat -> getDadaoRegisterNumbering r = Some (get_arg f a)
  | None => False
  end.
Definition register_or_immediate (c : opclass) : Prop := c <> MEM_RRII /\ c <> MEM_RRRI.

Lemma holds_reads n c o p a env v : register_or_immediate c ->
  of_class o (n, c) -> operand_val env o = Some v -> holds n c [o] p a -> reads p a env v (n, c).
Proof.
  unfold of_class, reads, holds. intros [? ?] Hc Hv Hh. cbn [fst snd] in *.
  destruct o as [r|i|e]; [| |destruct c; done].
  - destruct c; try done. destruct (field_of p n) as [[[[f s] len] k]|]; [|done]. intros -> ->.
    destruct Hh as (i & Hi & Hf). cbn in Hv. rewrite Hi, Hc in Hv. cbn in Hv.
    rewrite (register_field r i _ Hi Hf). congruence.
  - injection Hv as <-. destruct c; try done; by destruct (field_of p n) as [[[[f s] len] k]|].
Qed.
Lemma holds_writes n r p a : holds n GPRD [MCReg r] p a -> writes p a r (n, GPRD).
Proof.
  unfold writes, holds. cbn. destruct (field_of p n) as [[[[f s] len] k]|]; [|done].
  intros (i & Hi & Hf) -> ->. by rewrite (register_field r i _ Hi Hf).
Qed.
Lemma op_size_one c : register_or_immediate c -> op_size c = 1%nat.
Proof. intros [? ?]. by destruct c. Qed.
Lemma inputs_read d p a env ops l vals :
  Forall (fun o => register_or_immediate (snd o) /\ has_field d (fst o) = true) ops ->
  operands_hold d ops l p a -> Forall2 of_class l ops -> mapM (operand_val env) l = Some vals ->
  Forall2 (reads p a env) vals ops.
Proof.
  intros Hf Hh Hc Hv. apply mapM_Some in Hv. revert vals Hv.
  induction Hc as [|o [n c] l ops Ho Hc IH]; intros vals Hv.
  - apply Forall2_nil_inv_l in Hv as ->. constructor.
  - apply Forall2_cons_inv_l in Hv as (v & vs & Hv & Hvs & ->).
    apply Forall_cons in Hf as [[Hr Hn] Hf]. cbn [fst snd] in *. destruct Hh as [H1 H2].
    rewrite (op_size_one c Hr) in *. constructor; [|by apply IH]. by apply (holds_reads n c o); auto.
Qed.
Lemma outputs_written d p a outs rest ops l :
  Forall (fun o => snd o = GPRD /\ has_field d (fst o) = true) ops -> length outs = length ops ->
  operands_hold d (ops ++ rest) (map MCReg outs ++ l) p a ->
  Forall2 (writes p a) outs ops /\ operands_hold d rest l p a.
Proof.
  intros Hf. revert outs. induction Hf as [|[n c] ops [Hc Hn] Hf IH]; intros [|r outs] Hl Hh; try done.
  cbn in Hc, Hn. subst c. destruct Hh as [H1 H2]. injection Hl as Hl. destruct (IH outs Hl H2) as [H3 H4].
  split; [|done]. constructor; [|done]. apply holds_writes. by apply H1.
Qed.

(** A row whose operands are registers and immediates in fields of their own. *)
Definition plain_row (op : Opcode) : Prop :=
  Forall (fun o => snd o = GPRD /\ has_field (desc op) (fst o) = true) (OutOperandList (desc op)) /\
  Forall (fun o => register_or_immediate (snd o) /\ has_field (desc op) (fst o) = true) (InOperandList (desc op)).
Lemma row_setup op sp outs ins vals pc w fx env mem :
  step_implements B helper disas sp -> sp_name sp = isa_pattern op -> plain_row op ->
  Forall2 of_class ins (InOperandList (desc op)) -> length outs = length (OutOperandList (desc op)) ->
  mapM (operand_val (prologue env)) ins = Some vals ->
  getBinaryCodeForInstr (MkMCInst op (map MCReg outs ++ ins)) = Some (w, fx) ->
  0 <= pc < 2^64 -> wf_env env -> u64_env env ->
  exists p, p ∈ insns_decode /\ p_name p = isa_pattern op /\ fields_ok (pattern_args p w) /\
    Forall2 (reads p (pattern_args p w) (prologue env)) vals (InOperandList (desc op)) /\
    Forall2 (writes p (pattern_args p w)) outs (OutOperandList (desc op)) /\
    (sp_pre sp pc (pattern_args p w) (prologue env) ->
     cpu_step pc w env mem = Some (sp_sem sp pc (pattern_args p w) (prologue env) mem)).
Proof.
  intros Hs Hn [Ho Hi] Hc Hl Hv Henc Hpc Hwf Hu.
  destruct (encoded_step sp op _ w fx pc env mem Hs Hn Henc Hpc Hwf Hu) as (p & Hp & Hpn & Hf & Hops & _ & Hst).
  destruct (outputs_written _ _ _ _ _ _ _ Ho Hl Hops) as [Hw Hr].
  exists p. repeat (split; [done|]). split; [|done]. by eapply inputs_read.
Qed.

(** The conclusion for one output. *)
Lemma runs_one r i v pc w env mem :
  getDadaoRegisterNumbering r = Some i -> wf_env env ->
  cpu_step pc w env mem = Some (next_insn pc (RFall (write RD i v (prologue env)) mem)) ->
  exists env' ns, mapM getDadaoRegisterNumbering [r] = Some ns /\
      ((forall i j, ns = [i; j] -> i <> j \/ i = 0) ->
       cpu_step pc w env mem = Some (RExit env' mem) /\ after env env' (zip ns [v]) (w64 (pc + 4))).
Proof.
  intros Hr Hwf Hs. exists (set_PC (w64 (pc + 4)) (write RD i v (prologue env))), [i].
  cbn. rewrite Hr. split; [done|]. intros _. split; [done|]. apply after_one; [done|by apply (numbering_range r)].
Qed.

Section At.
Variables (n : string) (l : list (string * (string * bool * nat * nat))) (p : pattern) (a : args).
Hypothesis Hf : fields_named n l = true.
Hypothesis Hp : p ∈ insns_decode.
Hypothesis Hpn : p_name p = n.
Lemma read_at env v m f k : (m, (f, false, 6%nat, k)) ∈ l -> reads p a env v (m, GPRD) -> reg RD (get_arg f a) env = v.
Proof. intros Hin. unfold reads. cbn. rewrite (field_named n l p m _ Hf Hp Hpn Hin). auto. Qed.
Lemma read_imm_at env v m f s len k c : (m, (f, s, len, k)) ∈ l -> c <> GPRD -> reads p a env v (m, c) ->
  field_holds s len v (get_arg f a).
Proof. intros Hin Hc. unfold reads. cbn. rewrite (field_named n l p m _ Hf Hp Hpn Hin). by destruct c. Qed.
Lemma write_at r m f k : (m, (f, false, 6%nat, k)) ∈ l -> writes p a r (m, GPRD) ->
  getDadaoRegisterNumbering r = Some (get_arg f a).
Proof. intros Hin. unfold writes. cbn. rewrite (field_named n l p m _ Hf Hp Hpn Hin). auto. Qed.
End At.

(** Runs the row of an instruction and names its fields. *)
Ltac setup Hrow :=
  let Hn := fresh "Hn" in let Hpl := fresh "Hpl" in let Hcl := fresh "Hcl" in let Hlen := fresh "Hlen" in
  let Hv := fresh "Hv" in let Henc := fresh "Henc" in
  intros Hn Hpl Hf Ho Hi Hsem outs ins vals rs pc w fx env mem Hcl Hlen Hv Hm Henc Hpc Hwf Hu;
  destruct (row_setup _ _ _ _ _ pc w fx env mem Hrow (eq_sym Hn) Hpl Hcl Hlen Hv Henc Hpc Hwf Hu)
    as (p & Hp & Hpn & Hfo & Hin & Hout & Hstep);
  rewrite Ho in Hout; rewrite Hi in Hin; rewrite Hn in Hpn;
  repeat (apply Forall2_cons_inv_r in Hin as (? & ? & ? & Hin & ->)); apply Forall2_nil_inv_r in Hin as ->;
  repeat (apply Forall2_cons_inv_r in Hout as (? & ? & ? & Hout & ->)); apply Forall2_nil_inv_r in Hout as ->;
  repeat match goal with
  | H : reads _ _ _ _ _ |- _ =>
      first [ eapply (read_at _ _ _ _ Hf Hp Hpn) in H; [cbn in H|repeat (left || right)]
            | eapply (read_imm_at _ _ _ _ Hf Hp Hpn) in H; [cbn in H|repeat (left || right)|done] ]
  | H : writes _ _ _ _ |- _ => eapply (write_at _ _ _ _ Hf Hp Hpn) in H; [cbn in H|repeat (left || right)]
  end.
Lemma runs_orrr op n pre (f : Z -> Z -> Z) :
  Row n pre (fun _ => spec_orrr RD f) ∈ isa_alu ->
  isa_pattern op = n -> plain_row op ->
  fields_named n [at_hb "RxHb"; at_hc "RyHc"; at_hd "RzHd"] = true ->
  OutOperandList (desc op) = [("RxHb", GPRD)] -> InOperandList (desc op) = [("RyHc", GPRD); ("RzHd", GPRD)] ->
  (forall x y rs, machine_sem op [x; y] = Some rs -> rs = [f x y] /\
     forall a env, reg RD (hd a) env = y -> pre a env) ->
  runs_as op.
Proof.
  intros Hrow%alu_step. setup Hrow. destruct (Hsem _ _ _ Hm) as [-> Hpre].
  apply (runs_one _ (hb (pattern_args p w))); [done|done|]. rewrite Hstep by (by apply Hpre).
  cbn [sp_sem sp_alu isa_spec]. unfold spec_orrr. by subst.
Qed.
Lemma runs_orri op n (f : Z -> Z -> Z) :
  Row n always (fun _ => spec_orri f) ∈ isa_alu ->
  isa_pattern op = n -> plain_row op ->
  fields_named n [at_hb "RxHb"; at_hc "RyHc"; ("Imm6", ("immu6", false, 6, 0)%nat)] = true ->
  OutOperandList (desc op) = [("RxHb", GPRD)] -> InOperandList (desc op) = [("RyHc", GPRD); ("Imm6", C_i64h1)] ->
  (forall x i rs, machine_sem op [x; i] = Some rs -> rs = [f x (i mod 2^6)]) ->
  runs_as op.
Proof.
  intros Hrow%alu_step. setup Hrow. rewrite (Hsem _ _ _ Hm).
  apply (runs_one _ (hb (pattern_args p w))); [done|done|]. rewrite Hstep by done.
  cbn [sp_sem sp_alu isa_spec]. unfold spec_orri, field_holds in *. subst.
  change (immu6 (pattern_args p w)) with (get_arg "immu6" (pattern_args p w)). by rewrite H0.
Qed.
Lemma runs_rrii op n (f : Z -> Z -> Z) (imm : args -> Z) F sgn cl :
  Row n always (fun _ => spec_rrii RD f imm) ∈ isa_alu ->
  (forall a, get_arg F a = imm a) -> cl <> GPRD ->
  isa_pattern op = n -> plain_row op ->
  fields_named n [at_ha "RxHa"; at_hb "RyHb"; ("Imm12", (F, sgn, 12, 0)%nat)] = true ->
  OutOperandList (desc op) = [("RxHa", GPRD)] -> InOperandList (desc op) = [("RyHb", GPRD); ("Imm12", cl)] ->
  (forall x i rs, machine_sem op [x; i] = Some rs -> rs = [f x (if sgn : bool then sext 12 i else i mod 2^12)]) ->
  runs_as op.
Proof.
  intros Hrow%alu_step HF Hcl'. setup Hrow. rewrite (Hsem _ _ _ Hm).
  apply (runs_one _ (ha (pattern_args p w))); [done|done|]. rewrite Hstep by done.
  cbn [sp_sem sp_alu isa_spec]. unfold spec_rrii, field_holds in *. rewrite <- HF. subst.
  by rewrite H0.
Qed.
Lemma runs_cset1 op n (test : Z -> bool) :
  Row n always (fun _ => spec_cset1 test) ∈ isa_alu ->
  isa_pattern op = n -> plain_row op ->
  fields_named n [at_ha "RdHa"; at_hb "RdHb"; at_hc "RdHc"; at_hd "RdHd"] = true ->
  OutOperandList (desc op) = [("RdHb", GPRD)] ->
  InOperandList (desc op) = [("RdHa", GPRD); ("RdHc", GPRD); ("RdHd", GPRD)] ->
  (forall c x y rs, machine_sem op [c; x; y] = Some rs -> rs = [if test c then x else y]) ->
  runs_as op.
Proof.
  intros Hrow%alu_step. setup Hrow. rewrite (Hsem _ _ _ _ Hm).
  apply (runs_one _ (hb (pattern_args p w))); [done|done|]. rewrite Hstep by done.
  cbn [sp_sem sp_alu isa_spec]. unfold spec_cset1. by subst.
Qed.

(** Two outputs: the first field and the second, written in either order. *)
Lemma runs_rrrr op n sp (g : Z -> Z -> Z * Z) (first : bool) :
  step_implements B helper disas sp -> sp_name sp = n ->
  (forall pc a env mem rs, machine_sem op [reg RD (hc a) env; reg RD (hd a) env] = Some rs ->
     let '(u, v) := g (reg RD (hc a) env) (reg RD (hd a) env) in
     rs = [u; v] /\ sp_pre sp pc a env /\
     sp_sem sp pc a env mem = next_insn pc (RFall
       (if first then write RD (ha a) u (write RD (hb a) v env)
        else write RD (hb a) v (write RD (ha a) u env)) mem)) ->
  isa_pattern op = n -> plain_row op ->
  fields_named n [at_ha "RdHa"; at_hb "RdHb"; at_hc "RdHc"; at_hd "RdHd"] = true ->
  OutOperandList (desc op) = [("RdHa", GPRD); ("RdHb", GPRD)] ->
  InOperandList (desc op) = [("RdHc", GPRD); ("RdHd", GPRD)] ->
  True -> runs_as op.
Proof.
  intros Hrow Hspn Hg. rewrite <- Hspn in *. setup Hrow.
  specialize (Hg pc (pattern_args p w) (prologue env) mem rs).
  change (get_arg "hc" (pattern_args p w)) with (hc (pattern_args p w)) in *.
  change (get_arg "hd" (pattern_args p w)) with (hd (pattern_args p w)) in *. subst.
  specialize (Hg Hm). destruct (g _ _) as [u v]. destruct Hg as (-> & Hpre & Hsm).
  eexists _, [_; _]. split; [cbn; rewrite H1, H2; reflexivity|]. intros Hd.
  rewrite Hstep, Hsm by done. cbn [next_insn]. split; [reflexivity|]. cbn [zip zip_with].
  assert (Hr : forall r i, getDadaoRegisterNumbering r = Some i -> 0 <= i < 64) by apply numbering_range.
  destruct first; apply after_two; eauto.
Qed.

Ltac find_alu := unfold isa_alu, isa_arith, isa_logic, isa_assign; cbv zeta; cbn [app]; repeat first [left | right].
Lemma orrr_run op : op ∈ [AND_ORRR; ORR_ORRR; XOR_ORRR; CMPS_ORRR; CMPU_ORRR; SHLU_ORRR; SHRU_ORRR; SHRS_ORRR] ->
  runs_as op.
Proof.
  intros H. repeat (apply elem_of_cons in H as [->|H]); [..|by apply elem_of_nil in H].
  - eapply (runs_orrr _ "AND" always Z.land); [find_alu|done|plain|by vm_compute|done|done|]. by intros x y rs [= <-].
  - eapply (runs_orrr _ "ORR" always Z.lor); [find_alu|done|plain|by vm_compute|done|done|]. by intros x y rs [= <-].
  - eapply (runs_orrr _ "XOR" always Z.lxor); [find_alu|done|plain|by vm_compute|done|done|]. by intros x y rs [= <-].
  - assert (Hr : Row "CMPSr" always (fun _ => spec_cmp RD s64) ∈ isa_alu) by find_alu.
    eapply (runs_orrr _ "CMPSr" always (three_way s64) Hr); [done|plain|by vm_compute|done|done|]. by intros x y rs [= <-].
  - assert (Hr : Row "CMPUr" always (fun _ => spec_cmp RD (fun x => x)) ∈ isa_alu) by find_alu.
    eapply (runs_orrr _ "CMPUr" always (three_way (fun x => x)) Hr); [done|plain|by vm_compute|done|done|]. by intros x y rs [= <-].
  - eapply (runs_orrr _ "SHLUr" shift_ok (fun x k => w64 (Z.shiftl x k))); [find_alu|done|plain|by vm_compute|done|done|].
    intros x y rs. cbn. destruct (Z.ltb_spec y 64); intros [= <-]. split; [done|]. intros a env <-. done.
  - eapply (runs_orrr _ "SHRUr" shift_ok Z.shiftr); [find_alu|done|plain|by vm_compute|done|done|].
    intros x y rs. cbn. destruct (Z.ltb_spec y 64); intros [= <-]. split; [done|]. intros a env <-. done.
  - eapply (runs_orrr _ "SHRSr" shift_ok (fun x k => w64 (Z.shiftr (s64 x) k))); [find_alu|done|plain|by vm_compute|done|done|].
    intros x y rs. cbn. destruct (Z.ltb_spec y 64); intros [= <-]. split; [done|]. intros a env <-. done.
Qed.
Lemma other_run op : op ∈ [SHLU_ORRI; SHRU_ORRI; SHRS_ORRI; ADDI_RRII; ANDI_RRII; CSN; CSZ; CSP] -> runs_as op.
Proof.
  intros H. repeat (apply elem_of_cons in H as [->|H]); [..|by apply elem_of_nil in H].
  - eapply (runs_orri _ "SHLUi" (fun x k => w64 (Z.shiftl x k))); [find_alu|done|plain|by vm_compute|done|done|]. by intros x y rs [= <-].
  - eapply (runs_orri _ "SHRUi" Z.shiftr); [find_alu|done|plain|by vm_compute|done|done|]. by intros x y rs [= <-].
  - eapply (runs_orri _ "SHRSi" (fun x k => w64 (Z.shiftr (s64 x) k))); [find_alu|done|plain|by vm_compute|done|done|]. by intros x y rs [= <-].
  - eapply (runs_rrii _ "ADDIrd" (fun x i => w64 (x + i)) imms12 "imms12" true C_imm12); [find_alu|done|done|done|plain|by vm_compute|done|done|].
    by intros x y rs [= <-].
  - eapply (runs_rrii _ "ANDI" Z.land immu12 "immu12" false C_i64lo12and); [find_alu|done|done|done|plain|by vm_compute|done|done|]. by intros x y rs [= <-].
  - eapply (runs_cset1 _ "CSNrd" (fun x => s64 x <? 0)); [find_alu|done|plain|by vm_compute|done|done|]. by intros c x y rs [= <-].
  - eapply (runs_cset1 _ "CSZrd" (fun x => x =? 0)); [find_alu|done|plain|by vm_compute|done|done|]. by intros c x y rs [= <-].
  - eapply (runs_cset1 _ "CSPrd" (fun x => 0 <? s64 x)); [find_alu|done|plain|by vm_compute|done|done|]. by intros c x y rs [= <-].
Qed.
Lemma rrrr_run op : op ∈ [ADD_RRRR; SUB_RRRR; MULS_RRRR; MULU_RRRR; DIVS_RRRR; DIVU_RRRR] -> runs_as op.
Proof.
  assert (Hd : forall sp, sp ∈ isa_division B -> step_implements B helper disas sp).
  { intros sp Hsp. pose proof (division_implemented B L helper disas Hdisas) as Ha.
    rewrite Forall_forall in Ha. by apply Ha. }
  intros H. repeat (apply elem_of_cons in H as [->|H]); [..|by apply elem_of_nil in H].
  - eapply (runs_rrrr _ "ADDrd" (sp_alu (Row "ADDrd" always (fun _ => spec_addsub Z.add)))
      (fun x y => (w64 (Z.shiftr (s64 x + s64 y) 64), w64 (x + y))) true);
      [apply alu_step; find_alu|done| |done|plain|by vm_compute|done|done|done].
    intros pc a env mem rs [= <-]. split; [done|]. split; [done|]. cbn [sp_sem sp_alu isa_spec]. unfold spec_addsub.
    by rewrite add_wide.
  - eapply (runs_rrrr _ "SUBrd" (sp_alu (Row "SUBrd" always (fun _ => spec_addsub Z.sub)))
      (fun x y => (w64 (Z.shiftr (s64 x - s64 y) 64), w64 (x - y))) true);
      [apply alu_step; find_alu|done| |done|plain|by vm_compute|done|done|done].
    intros pc a env mem rs [= <-]. split; [done|]. split; [done|]. cbn [sp_sem sp_alu isa_spec]. unfold spec_addsub.
    by rewrite sub_wide.
  - eapply (runs_rrrr _ "MULS" (sp_alu (Row "MULS" always (fun _ => spec_mul s64)))
      (fun x y => (w64 (Z.shiftr (s64 x * s64 y) 64), w64 (s64 x * s64 y))) false);
      [apply alu_step; find_alu|done| |done|plain|by vm_compute|done|done|done].
    by intros pc a env mem rs [= <-].
  - eapply (runs_rrrr _ "MULU" (sp_alu (Row "MULU" always (fun _ => spec_mul (fun x => x))))
      (fun x y => (w64 (Z.shiftr (x * y) 64), w64 (x * y))) false);
      [apply alu_step; find_alu|done| |done|plain|by vm_compute|done|done|done].
    by intros pc a env mem rs [= <-].
  - eapply (runs_rrrr _ "DIVS" (sp_div "DIVS"
        (fun x y => if divs_overflow x y then b_alu B A_div x y else w64 (Z.quot (s64 x) (s64 y)))
        (fun x y => if divs_overflow x y then b_alu B A_rem x y else w64 (Z.rem (s64 x) (s64 y))))
      (fun x y => (w64 (Z.rem (s64 x) (s64 y)), w64 (Z.quot (s64 x) (s64 y)))) false);
      [apply Hd; left|done| |done|plain|by vm_compute|done|done|done].
    intros pc a env mem rs. cbn [machine_sem]. destruct (Z.eqb_spec (reg RD (hd a) env) 0) as [|Hz]; [done|].
    cbn [orb]. case_match eqn:Eo; intros [= <-]. split; [done|]. split; [done|].
    cbn [sp_sem sp_div]. rewrite (proj2 (Z.eqb_neq _ _) Hz). unfold spec_div, divs_overflow. by rewrite Eo.
  - eapply (runs_rrrr _ "DIVU" (sp_div "DIVU" Z.div Z.modulo)
      (fun x y => (x mod y, x / y)) false);
      [apply Hd; right; left|done| |done|plain|by vm_compute|done|done|done].
    intros pc a env mem rs. cbn [machine_sem]. destruct (Z.eqb_spec (reg RD (hd a) env) 0) as [|Hz]; [done|].
    intros [= <-]. split; [done|]. split; [done|]. cbn [sp_sem sp_div]. by rewrite (proj2 (Z.eqb_neq _ _) Hz).
Qed.

(** C25: the results the selection theorems take for the instructions are what
    the emulator computes: an instruction of the list, encoded by the LLVM
    encoder and stepped, leaves [machine_sem] of its inputs in its output
    registers (distinct, or the first is register 0), goes to the next word
    and changes no other register. *)
Theorem machine_sem_runs op vals rs : machine_sem op vals = Some rs -> runs_as op.
Proof.
  intros H. destruct op; try discriminate H;
    first [apply orrr_run; solve [repeat (left || right)] | apply other_run; solve [repeat (left || right)]
          | apply rrrr_run; repeat (left || right)].
Qed.
End Exec.
(** A division of demo_env: rd7 by rd3, the remainder to rd1, the quotient to rd2. *)
Lemma machine_sem_runs_witness : exists env',
  step ref_backend no_helper decode_ref (fun _ => true) 0x1000 0x1f0421c3 demo_env ∅ = Some (RExit env' ∅) /\
  reg RD 1 env' = 1 /\ reg RD 2 env' = 2.
Proof.
  assert (Hm : machine_sem DIVU_RRRR [7; 3] = Some [1; 2]) by reflexivity.
  destruct (machine_sem_runs ref_backend ref_laws no_helper decode_ref decode_ref_laws (fun _ => true) _ _ _ Hm
    [RDx 1; RDx 2] [MCReg (RDx 7); MCReg (RDx 3)] [7; 3] [1; 2] 0x1000 0x1f0421c3 [] demo_env ∅) as (env' & ns & Hn & H);
    [repeat constructor|reflexivity|vm_compute; reflexivity|exact Hm|vm_compute; reflexivity|lia|apply demo_wf
    |apply demo_u64|].
  injection Hn as <-. destruct H as [H1 H2]; [by intros i j [= <- <-]; left|]. exists env'. split; [done|].
  destruct H2 as [_ _ Ho _]. apply Forall_cons in Ho as [Hx [Hy _]%Forall_cons]. auto.
Defined.
