(* ===== verification/LlvmFix.v ===== *)
(** Branches and symbols of the LLVM back end: the fixups the encoder leaves
    and what the resolved words do on the emulator. *)
From S2P Require Import Prelude Opcodes Cpu Tcg Translate Run RefBackend IsaArith IsaMove IsaMem IsaControl.
From S2P Require Import Frame Decode Step Isa IsaProps Disas DisasProps Gas GasEncode GasExec BfdLink.
From S2P Require Import LlvmData LlvmMc LlvmLower LlvmEncode LlvmExec.
Local Open Scope string_scope.
Local Open Scope Z_scope.

(** ** A fixup puts its value in the field of the word *)
Lemma byte_low w k j : 0 <= k -> 0 <= j < 8 -> Z.testbit (Z.land (Z.shiftr w k) 0xff) j = Z.testbit w (j + k).
Proof.
  intros Hk Hj. change 0xff with (Z.ones 8). rewrite Z.land_spec, Z.shiftr_spec, Z.ones_spec_low by lia.
  apply andb_true_r.
Qed.
Lemma byte_high w k j : 8 <= j -> Z.testbit (Z.land (Z.shiftr w k) 0xff) j = false.
Proof. intros Hj. change 0xff with (Z.ones 8). rewrite Z.land_spec, Z.ones_spec_high by lia. apply andb_false_r. Qed.
Lemma low_bytes_3 w : Z.lor (Z.land (Z.shiftr w 0) 0xff) (Z.shiftl (Z.lor (Z.land (Z.shiftr w 8) 0xff)
    (Z.shiftl (Z.lor (Z.land (Z.shiftr w 16) 0xff) (Z.shiftl 0 8)) 8)) 8) = w mod 2^24.
Proof.
  apply Z.bits_inj'. intros i Hi. rewrite Z.shiftl_0_l, Z.lor_0_r, Z.lor_spec, Z.shiftl_spec by done.
  destruct (Z.lt_ge_cases i 8).
  { rewrite byte_low, (Z.testbit_neg_r _ (i - 8)), Z.mod_pow2_bits_low, orb_false_r by lia. f_equal. lia. }
  rewrite byte_high, Z.lor_spec, Z.shiftl_spec by lia. cbn [orb]. destruct (Z.lt_ge_cases i 16).
  { rewrite byte_low, (Z.testbit_neg_r _ (i - 8 - 8)), Z.mod_pow2_bits_low, orb_false_r by lia. f_equal. lia. }
  rewrite byte_high by lia. cbn [orb]. destruct (Z.lt_ge_cases i 24).
  { rewrite byte_low, Z.mod_pow2_bits_low by lia. f_equal. lia. }
  by rewrite byte_high, Z.mod_pow2_bits_high by lia.
Qed.
Lemma low_bytes_2 w : Z.lor (Z.land (Z.shiftr w 0) 0xff)
    (Z.shiftl (Z.lor (Z.land (Z.shiftr w 8) 0xff) (Z.shiftl 0 8)) 8) = w mod 2^16.
Proof.
  apply Z.bits_inj'. intros i Hi. rewrite Z.shiftl_0_l, Z.lor_0_r, Z.lor_spec, Z.shiftl_spec by done.
  destruct (Z.lt_ge_cases i 8).
  { rewrite byte_low, (Z.testbit_neg_r _ (i - 8)), Z.mod_pow2_bits_low, orb_false_r by lia. f_equal. lia. }
  rewrite byte_high by lia. cbn [orb]. destruct (Z.lt_ge_cases i 16).
  { rewrite byte_low, Z.mod_pow2_bits_low by lia. f_equal. lia. }
  by rewrite byte_high, Z.mod_pow2_bits_high by lia.
Qed.
(** A byte below or above the bits that change. *)
Lemma byte_changed w x n k : 0 <= k -> k + 8 <= n ->
  Z.land (Z.shiftr (Z.lor (w mod 2^n) x) k) 0xff = Z.land (Z.shiftr (Z.lor w x) k) 0xff.
Proof.
  intros Hk Hn. apply Z.bits_inj'. intros i Hi. destruct (Z.lt_ge_cases i 8); [|by rewrite !byte_high by done].
  by rewrite !byte_low, !Z.lor_spec, Z.mod_pow2_bits_low by lia.
Qed.
Lemma byte_kept w x n k : 0 <= n <= k -> 0 <= x < 2^n ->
  Z.land (Z.shiftr w k) 0xff = Z.land (Z.shiftr (Z.lor w x) k) 0xff.
Proof.
  intros Hk Hx. apply Z.bits_inj'. intros i Hi. destruct (Z.lt_ge_cases i 8); [|by rewrite !byte_high by done].
  rewrite !byte_low, Z.lor_spec by lia. rewrite <- (Z.mod_small x (2^n)), Z.mod_pow2_bits_high by lia.
  by rewrite orb_false_r.
Qed.
Lemma patch_word w x (m : nat) : (m = 2 \/ m = 3)%nat -> 0 <= x < 2^(8 * Z.of_nat m) ->
  (c ← read_bytes m (emit_bytes w) 0; write_bytes m (emit_bytes w) 0 (Z.lor c x))
  = Some (emit_bytes (Z.lor w x)).
Proof.
  intros [->| ->] Hx; unfold emit_bytes; cbn [map].
  - transitivity (Some [Z.land (Z.lor (w mod 2^16) x) 0xff; Z.land (Z.shiftr (Z.lor (w mod 2^16) x) 8) 0xff;
      Z.land (Z.shiftr w 16) 0xff; Z.land (Z.shiftr w 24) 0xff]); [by rewrite <- low_bytes_2|].
    pose proof (byte_changed w x 16 0 ltac:(lia) ltac:(lia)) as H0. rewrite Z.shiftr_0_r in H0. rewrite H0.
    rewrite byte_changed by lia. do 2 f_equal. f_equal. by rewrite <- !(byte_kept w x 16) by lia.
  - transitivity (Some [Z.land (Z.lor (w mod 2^24) x) 0xff; Z.land (Z.shiftr (Z.lor (w mod 2^24) x) 8) 0xff;
      Z.land (Z.shiftr (Z.shiftr (Z.lor (w mod 2^24) x) 8) 8) 0xff; Z.land (Z.shiftr w 24) 0xff]);
      [by rewrite <- low_bytes_3|].
    pose proof (byte_changed w x 24 0 ltac:(lia) ltac:(lia)) as H0. rewrite Z.shiftr_0_r in H0. rewrite H0.
    rewrite Z.shiftr_shiftr, !byte_changed by lia. do 2 f_equal. do 2 f_equal. by rewrite <- (byte_kept w x 24) by lia.
Qed.

(** Four bytes read back give the word. *)
Lemma read_emitted w : 0 <= w < 2^32 -> readInstruction32 (emit_bytes w) = Some w.
Proof.
  intros Hw. cbn -[Z.lor Z.land Z.shiftl Z.shiftr]. f_equal.
  apply Z.bits_inj'. intros i Hi. rewrite !Z.lor_spec, !Z.shiftl_spec by done.
  assert (Hb : forall k, 0 <= k -> (if decide (k <= i < k + 8) then Z.testbit w i else false)
            = Z.testbit (Z.land (Z.shiftr w k) 0xff) (i - k)).
  { intros k Hk. case_decide; [rewrite byte_low by lia; f_equal; lia|].
    destruct (Z.lt_ge_cases i k); [by rewrite Z.testbit_neg_r by lia|by rewrite byte_high by lia]. }
  replace (Z.testbit (Z.land (Z.shiftr w 0) 0xff) i) with (Z.testbit (Z.land (Z.shiftr w 0) 0xff) (i - 0)) by (f_equal; lia).
  rewrite <- !Hb by lia. destruct (Z.lt_ge_cases i 32).
  - repeat case_decide; try lia; by destruct (Z.testbit w i).
  - rewrite <- (Z.mod_small w (2^32)), Z.mod_pow2_bits_high by lia. by repeat case_decide.
Qed.

(** The fixup of a branch to a symbol and the width of its field. *)
Definition branch_kind (op : Opcode) : option (FixupKindTy * Z) :=
  match op with
  | BRN_RIII | BRNN_RIII | BRZ_RIII | BRNZ_RIII | BRP_RIII | BRNP_RIII => Some (FIXUP_DADAO_18, 18)
  | BREQ_RRII | BRNE_RRII => Some (FIXUP_DADAO_12, 12)
  | JUMP_IIII | CALL_IIII => Some (FIXUP_DADAO_25, 24)
  | _ => None
  end.
Lemma target_size op kind n : branch_kind op = Some (kind, n) -> TargetSize kind = n /\ (n = 12 \/ n = 18 \/ n = 24) /\
  forall v, adjustFixupValue kind v = Some (Z.shiftr v 2).
Proof. destruct op; intros [= <- <-]; (split; [done|]); (split; [lia|done]). Qed.
Lemma op_values_regs opc ops regs vs fx :
  Forall (fun o => snd o = GPRD) ops -> op_values opc ops (map MCReg regs) = Some (vs, fx) -> fx = [].
Proof.
  intros Hf. revert regs vs fx. induction Hf as [|[n c] ops Hc Hf IH]; intros regs vs fx; cbn [op_values].
  - by intros [= _ <-].
  - cbn in Hc. subst c. destruct regs as [|r regs]; [done|]. cbn. rewrite drop_0, take_0.
    destruct (op_values opc ops (map MCReg regs)) as [[ws fs]|] eqn:E; [|done]. cbn.
    apply IH in E as ->. destruct (has_field _ _); [|by intros [= _ <-]].
    destruct (getDadaoRegisterNumbering r); [|done]. by intros [= _ <-].
Qed.
(** A branch to a symbol is the branch to an immediate with an empty field. *)
Lemma symbol_word op kind n e d regs w fx : branch_kind op = Some (kind, n) ->
  getBinaryCodeForInstr (MkMCInst op (MCExp e :: map MCReg regs)) = Some (w, fx) ->
  fx = [MkFixup 0 e kind] /\
  getBinaryCodeForInstr (MkMCInst op (MCImm d :: map MCReg regs)) = Some (Z.lor w (Z.land (w32 d) (Z.ones n)), []).
Proof.
  intros Hk. unfold getBinaryCodeForInstr.
  destruct op; try discriminate Hk; injection Hk as <- <-;
    try (destruct regs as [|r1 regs]; [done|]; try (destruct regs as [|r2 regs]; [done|]));
    cbn -[Z.lor Z.land Z.shiftl Z.shiftr w32]; rewrite ?take_0, ?drop_0;
    repeat match goal with |- context [getDadaoRegisterNumbering ?r] =>
      destruct (getDadaoRegisterNumbering r); [|done] end;
    cbn -[Z.lor Z.land Z.shiftl Z.shiftr w32];
    intros [= <- <-]; (split; [done|]);
    by rewrite !Z.shiftr_0_r, !Z.shiftl_0_r, Z.land_0_l, Z.lor_0_r.
Qed.
Lemma word_distance d n : 0 <= n <= 24 -> Z.land (Z.shiftr (w64 (4 * d)) 2) (Z.ones n) = Z.land (w32 d) (Z.ones n).
Proof.
  intros Hn. rewrite !Z.land_ones, Z.shiftr_div_pow2 by lia. rewrite w32_mod_pow by lia.
  assert (H : w64 (4 * d) / 2^2 = d mod 2^62) by (unfold w64; Z.div_mod_to_equations; lia).
  rewrite H. replace 62 with (n + (62 - n)) by lia. rewrite Z.pow_add_r by lia.
  assert (0 < 2^n) by (apply Z.pow_pos_nonneg; lia). assert (0 < 2^(62-n)) by (apply Z.pow_pos_nonneg; lia).
  rewrite Z.rem_mul_r by lia. rewrite (Z.mul_comm (2^n) (_ mod _)), Z.mod_add, Z.mod_mod by lia. done.
Qed.
Lemma fixup_applies op kind n e d w : branch_kind op = Some (kind, n) ->
  applyFixup (MkFixup 0 e kind) (emit_bytes w) (w64 (4 * d))
  = Some (emit_bytes (Z.lor w (Z.land (w32 d) (Z.ones n)))).
Proof.
  intros Hk. destruct (target_size op kind n Hk) as (Hn & Hr & Ha).
  unfold applyFixup. cbn [fx_kind fx_offset]. rewrite Ha, Hn. cbn [mbind option_bind].
  pose proof (word_distance d n ltac:(lia)) as Hd.
  destruct (Z.eqb_spec (Z.shiftr (w64 (4 * d)) 2) 0) as [E|E].
  { rewrite <- Hd, E, Z.land_0_l, Z.lor_0_r. done. }
  assert (Hm : Z.shiftr (w64 (-1)) (64 - n) = Z.ones n) by (destruct Hr as [->|[->| ->]]; reflexivity).
  rewrite Hm, Hd. apply patch_word; [destruct Hr as [->|[->| ->]]; vm_compute; auto|].
  rewrite Z.land_ones by lia. pose proof (Z.mod_pos_bound (w32 d) (2^n) ltac:(apply Z.pow_pos_nonneg; lia)) as Hb.
  assert (Hle : 2^n <= 2 ^ (8 * Z.of_nat (Z.to_nat ((n + 7) / 8))))
    by (destruct Hr as [->|[->| ->]]; by vm_compute). lia.
Qed.

Section Branch.
Context {M : Type} (B : backend M) (L : tcg_laws B).
Variable helper : string -> CPUDADAOState -> list Z -> Z * CPUDADAOState.
Variable disas : Z -> gen bool.
Hypothesis Hdisas : decodetree_laws disas.
Variable goto_tb : Z -> bool.

(** What a branch to [dest] does, from the values of its registers. *)
Definition branch_result (op : Opcode) (pc dest : Z) (vals : list Z) (env : CPUDADAOState) (mem : M)
    : option (result M) :=
  match op with
  | JUMP_IIII => Some (jump_to dest (RFall env mem))
  | CALL_IIII => Some (jump_to dest (spec_push B pc env mem))
  | _ => taken ← branch_sem op vals;
         Some (jump (RFall (set_jmp_pc (if taken : bool then dest else w64 (pc + 4)) env) mem))
  end.
Lemma control_step sp : sp ∈ isa_control B -> step_implements B helper disas sp.
Proof.
  intros Hsp. pose proof (control_implemented B L helper disas Hdisas) as Ha. rewrite Forall_forall in Ha. by apply Ha.
Qed.
Definition branch_steps (op : Opcode) (n : Z) : Prop :=
  forall regs vals d pc w fx env mem,
    Forall2 of_class (map MCReg regs) (tail (InOperandList (desc op))) ->
    mapM (operand_val (prologue env)) (map MCReg regs) = Some vals ->
    getBinaryCodeForInstr (MkMCInst op (MCImm d :: map MCReg regs)) = Some (w, fx) ->
    0 <= pc < 2^64 -> pc mod 4 = 0 -> wf_env env -> u64_env env ->
    step B helper disas goto_tb pc w env mem = branch_result op pc (w64 (pc + 4 * sext n d)) vals (prologue env) mem.

(** Runs the row of a branch and names its fields. *)
Ltac branch_setup Hrow :=
  let Hn := fresh "Hn" in let Hpl := fresh "Hpl" in let Ho := fresh "Ho" in let Hi := fresh "Hi" in
  let Hc := fresh "Hc" in let Hv := fresh "Hv" in let Henc := fresh "Henc" in
  intros Hn Hpl Hf Ho Hi Hres regs vals d pc w fx env mem Hc Hv Henc Hpc Hal Hwf Hu; rewrite Hi in Hc; cbn [tail] in Hc;
  destruct (row_setup B helper disas goto_tb _ _ [] (MCImm d :: map MCReg regs) (d :: vals) pc w fx env mem
    Hrow (eq_sym Hn) Hpl) as (p & Hp & Hpn & _ & Hin & _ & Hstep);
    [rewrite Hi; by constructor|by rewrite Ho|cbn [mapM operand_val]; by rewrite Hv|exact Henc|done..|];
  rewrite Hi in Hin; rewrite Hn in Hpn;
  apply Forall2_cons in Hin as [Hd Hin];
  repeat (apply Forall2_cons_inv_r in Hin as (? & ? & ? & Hin & ->)); apply Forall2_nil_inv_r in Hin as ->;
  eapply (read_imm_at _ _ _ _ Hf Hp Hpn) in Hd; [|repeat (left || right)|done];
  repeat match goal with
  | H : reads _ _ _ _ _ |- _ => eapply (read_at _ _ _ _ Hf Hp Hpn) in H; [|repeat (left || right)]
  end.
Lemma br1_steps op n (test : Z -> bool) : sp_br1 n test ∈ isa_control B ->
  isa_pattern op = n -> plain_row op ->
  fields_named n [at_ha "RxHa"; ("Imm18", ("imms18", true, 18, 0)%nat)] = true ->
  OutOperandList (desc op) = [] -> InOperandList (desc op) = [("Imm18", BrTarget); ("RxHa", GPRD)] ->
  (forall pc dest x env mem, branch_result op pc dest [x] env mem
     = Some (jump (RFall (set_jmp_pc (if test x then dest else w64 (pc + 4)) env) mem))) ->
  branch_steps op 18.
Proof.
  intros Hrow%control_step. branch_setup Hrow. rewrite Hres, Hstep by done. cbn [sp_sem sp_br1].
  unfold spec_br1, field_holds in *. change (imms18 (pattern_args p w)) with (get_arg "imms18" (pattern_args p w)).
  rewrite Hd. by subst.
Qed.
Lemma br2_steps op n (test : Z -> Z -> bool) : sp_br2 n test ∈ isa_control B ->
  isa_pattern op = n -> plain_row op ->
  fields_named n [at_ha "RxHa"; at_hb "RyHb"; ("Imm12", ("imms12", true, 12, 0)%nat)] = true ->
  OutOperandList (desc op) = [] ->
  InOperandList (desc op) = [("Imm12", BrTarget); ("RxHa", GPRD); ("RyHb", GPRD)] ->
  (forall pc dest x y env mem, branch_result op pc dest [x; y] env mem
     = Some (jump (RFall (set_jmp_pc (if test x y then dest else w64 (pc + 4)) env) mem))) ->
  branch_steps op 12.
Proof.
  intros Hrow%control_step. branch_setup Hrow. rewrite Hres, Hstep by done. cbn [sp_sem sp_br2].
  unfold spec_br2, field_holds in *. change (imms12 (pattern_args p w)) with (get_arg "imms12" (pattern_args p w)).
  rewrite Hd. by subst.
Qed.
Lemma jump_steps op sp n c : sp ∈ isa_control B -> sp_name sp = n -> (forall pc a env, pc mod 4 = 0 -> sp_pre sp pc a env) ->
  isa_pattern op = n -> plain_row op ->
  fields_named n [("Imm24", ("imms24", true, 24, 0)%nat)] = true ->
  OutOperandList (desc op) = [] -> InOperandList (desc op) = [("Imm24", c)] /\ c <> GPRD ->
  (forall pc a env mem, Some (sp_sem sp pc a env mem) = branch_result op pc (jump_dest pc a) [] env mem) ->
  c = BrTarget \/ c = CallTarget -> branch_steps op 24.
Proof.
  intros Hrow%control_step <- Hpre Hn Hpl Hf Ho [Hi Hg] Hres Hc. revert Hn Hpl Hf Ho Hi Hres.
  destruct Hc as [-> | ->]; branch_setup Hrow; rewrite Hstep, Hres by (by apply Hpre);
    unfold jump_dest; unfold field_holds in Hd;
    change (imms24 (pattern_args p w)) with (get_arg "imms24" (pattern_args p w)); by rewrite Hd.
Qed.

Ltac in_control := unfold isa_control; repeat (left || right).
Lemma branches_step op kind n : branch_kind op = Some (kind, n) -> branch_steps op n.
Proof.
  intros Hk. destruct op; try discriminate Hk; injection Hk as <- <-.
  - eapply (br1_steps _ "BRN" (fun x => s64 x <? 0)); [in_control|done|plain|by vm_compute|done|done|done].
  - eapply (br1_steps _ "BRNN" (fun x => 0 <=? s64 x)); [in_control|done|plain|by vm_compute|done|done|done].
  - eapply (br1_steps _ "BRZ" (fun x => x =? 0)); [in_control|done|plain|by vm_compute|done|done|done].
  - eapply (br1_steps _ "BRNZ" (fun x => negb (x =? 0))); [in_control|done|plain|by vm_compute|done|done|done].
  - eapply (br1_steps _ "BRP" (fun x => 0 <? s64 x)); [in_control|done|plain|by vm_compute|done|done|done].
  - eapply (br1_steps _ "BRNP" (fun x => s64 x <=? 0)); [in_control|done|plain|by vm_compute|done|done|done].
  - eapply (br2_steps _ "BREQ" Z.eqb); [in_control|done|plain|by vm_compute|done|done|done].
  - eapply (br2_steps _ "BRNE" (fun x y => negb (x =? y))); [in_control|done|plain|by vm_compute|done|done|done].
  - eapply (jump_steps _ (Spec "JUMPi" aligned (fun pc a env mem => jump_to (jump_dest pc a) (RFall env mem))) "JUMPi" BrTarget);
      [in_control|done|done|done|plain|by vm_compute|done|done|done|by left].
  - eapply (jump_steps _ (Spec "CALLi" aligned (fun pc a env mem => jump_to (jump_dest pc a) (spec_push B pc env mem))) "CALLi" CallTarget);
      [in_control|done|done|done|plain|by vm_compute|done|done|done|by right].
Qed.

(** C31: a branch, jump or call to a symbol, encoded with its fixup, resolved
    by the backend and run on the emulator: the condition on its registers
    decides, the taken branch goes to pc + 4 * (the distance truncated to the
    field), which is the symbol when the distance fits; nothing checks that
    it does. *)
Theorem branch_fixup op kind n e regs vals target pc bytes fx env mem :
  branch_kind op = Some (kind, n) ->
  emit_word (MkMCInst op (MCExp e :: map MCReg regs)) = Some (bytes, fx) ->
  Forall2 of_class (map MCReg regs) (tail (InOperandList (desc op))) ->
  mapM (operand_val (prologue env)) (map MCReg regs) = Some vals ->
  0 <= pc < 2^64 -> pc mod 4 = 0 -> 0 <= target < 2^64 -> target mod 4 = 0 -> wf_env env -> u64_env env ->
  fx = [MkFixup 0 e kind] /\
  exists bytes' w dest, applyFixup (MkFixup 0 e kind) bytes (w64 (target - pc)) = Some bytes' /\
    readInstruction32 bytes' = Some w /\
    step B helper disas goto_tb pc w env mem = branch_result op pc dest vals (prologue env) mem /\
    dest = w64 (pc + 4 * sext n ((target - pc) / 4)) /\
    (- 2^(n+1) <= target - pc < 2^(n+1) -> dest = target).
Proof.
  intros Hk Henc Hc Hv Hpc Hal Ht Htal Hwf Hu. unfold emit_word in Henc.
  destruct (getBinaryCodeForInstr _) as [[w fx']|] eqn:Ew; [|done]. cbn in Henc. injection Henc as <- <-.
  set (d := (target - pc) / 4). destruct (symbol_word op kind n e d regs w fx' Hk Ew) as [-> Hw].
  assert (Hd : target - pc = 4 * d) by (unfold d; Z.div_mod_to_equations; lia).
  split; [done|]. eexists _, _, _. split; [rewrite Hd; by eapply fixup_applies|].
  split; [apply read_emitted; by apply encoded_decodes in Hw as [? _]|].
  split; [by eapply (branches_step _ _ _ Hk); eauto|]. split; [done|]. intros Hr.
  destruct (target_size op kind n Hk) as (_ & Hn & _).
  rewrite sext_id by (lia || (destruct Hn as [->|[->| ->]]; cbn in *; lia)).
  replace (pc + 4 * d) with target by lia. by apply w64_id.
Qed.
End Branch.

(** brnz rd5, 8 bytes back. *)
Lemma branch_fixup_witness : exists bytes' w,
  applyFixup (MkFixup 0 (MCSymbolRefExpr "loop") FIXUP_DADAO_18) [0; 0; 0x14; 0x2b] (w64 (0x1000 - 0x1008)) = Some bytes' /\
  readInstruction32 bytes' = Some w /\
  step ref_backend no_helper decode_ref (fun _ => true) 0x1008 w demo_env ∅
  = branch_result ref_backend BRNZ_RIII 0x1008 0x1000 [5] (prologue demo_env) ∅.
Proof.
  destruct (branch_fixup ref_backend ref_laws no_helper decode_ref decode_ref_laws (fun _ => true)
    BRNZ_RIII FIXUP_DADAO_18 18 (MCSymbolRefExpr "loop") [RDx 5] [5] 0x1000 0x1008 [0; 0; 0x14; 0x2b]
    [MkFixup 0 (MCSymbolRefExpr "loop") FIXUP_DADAO_18] demo_env ∅) as (_ & b & w & dest & H1 & H2 & H3 & _ & H4);
    [reflexivity|vm_compute; reflexivity|repeat constructor|vm_compute; reflexivity|lia|reflexivity|lia|reflexivity
    |apply demo_wf|apply demo_u64|].
  exists b, w. rewrite H4 in H3 by lia. auto.
Defined.
