(* ===== verification/LlvmLink.v ===== *)
(** The address of a symbol: the four words of LLVM's setrd, linked by GNU ld
    and run on the emulator. *)
From S2P Require Import Prelude Opcodes Cpu Tcg Translate Run RefBackend IsaArith IsaMove IsaMem IsaControl.
From S2P Require Import Frame Decode Step Isa IsaProps Disas DisasProps GasData Gas GasEncode GasExec GasRelax GasFix.
From S2P Require Import Bfd BfdFill BfdLink BfdWitness GasWitness LlvmData LlvmMc LlvmLower LlvmEncode LlvmExec.
Local Open Scope string_scope.
Local Open Scope Z_scope.

(** The bytes of the sequence. *)
Definition swym_bytes : list Z := [0; 0; 0; 0x10].
Definition setrd_bytes (i : Z) : list Z := ([0; 0; 4 * i; 0x16] ++ swym_bytes ++ swym_bytes ++ swym_bytes)%list.
Definition swym_word : Z := 0x10000000.

Lemma setrd_encoding r i e bytes fx : getDadaoRegisterNumbering r = Some i ->
  encodeInstruction (MkMCInst PseudoSETRD [MCReg r; MCExp e]) = Some (bytes, fx) ->
  bytes = setrd_bytes i /\ fx = [MkFixup 0 e FIXUP_DADAO_ABS].
Proof.
  intros Hr. pose proof (numbering_range r i Hr) as Hi.
  assert (Hz : emit_word (MkMCInst (SETZW_RWII WPOS_0) [MCReg r; MCImm 0; MCImm 0])
               = emit_word (MkMCInst (SETZW_RWII WPOS_0) [MCReg (RDx i); MCImm 0; MCImm 0])).
  { unfold emit_word, getBinaryCodeForInstr. cbn -[Z.lor Z.land Z.shiftl Z.shiftr].
    unfold hex6. rewrite Hr, (proj2 (Z.leb_le 0 i)), (proj2 (Z.leb_le i 63)) by lia. done. }
  assert (Hall : Forall (fun i => emit_word (MkMCInst (SETZW_RWII WPOS_0) [MCReg (RDx i); MCImm 0; MCImm 0])
               = Some ([0; 0; 4 * i; 0x16], [])) (seqZ 0 64)).
  { repeat (constructor; [by vm_compute|]). constructor. }
  rewrite Forall_forall in Hall. specialize (Hall i ltac:(apply elem_of_seqZ; lia)).
  unfold encodeInstruction. cbn [setrd_symbol getOpcode Operands mbind option_bind lookup list_lookup].
  rewrite Hz, Hall. cbn [mbind option_bind].
  change (emit_word (MkMCInst SWYM_OIII [MCImm 0])) with (Some (swym_bytes, @nil MCFixup)). cbn [mbind option_bind].
  intros [= <- <-]. done.
Qed.

Lemma map_constant {A C} (g : A -> C) c l : (forall x, In x l -> g x = c) -> map g l = replicate (length l) c.
Proof. intros H. induction l as [|x l IH]; [done|]. cbn. f_equal; [apply H; by left|]. apply IH. intros y Hy. apply H. by right. Qed.

Section Link.
Context {M : Type} (B : backend M) (L : tcg_laws B).
Variable helper : string -> CPUDADAOState -> list Z -> Z * CPUDADAOState.
Variable disas : Z -> gen bool.
Hypothesis Hdisas : decodetree_laws disas.
Variable goto_tb : Z -> bool.
Abbreviation advances := (GasExec.advances B helper disas goto_tb).

(** swym does nothing. *)
Lemma adv_swym f i v : 0 < i < 64 -> 0 <= v < 2^64 -> advances f i [swym_word] v v.
Proof.
  intros Hi Hv pc env env' mem Hpc Hl.
  assert (Hs : step_implements B helper disas (sp_alu (Row "SWYM" always (fun _ _ env => env)))).
  { apply (alu_step B L helper disas Hdisas). unfold isa_alu, isa_assign. apply elem_of_app. right.
    apply elem_of_app. right. cbv zeta. repeat first [left | right]. }
  destruct Hs as (p & Hp & Hpn & Hstep).
  assert (Hm : matches p swym_word = true).
  { assert (H : Forall (fun p => p_name p = "SWYM" -> matches p swym_word = true) insns_decode)
      by (apply (bool_decide_unpack _); by vm_compute).
    rewrite Forall_forall in H. by apply H. }
  destruct Hl as [Hwf Hu Hpc' Hreg Hoth].
  specialize (Hstep goto_tb pc _ env' mem Hpc Hwf Hu Hm I). cbn [sp_sem sp_alu next_insn isa_spec] in Hstep.
  exists (set_PC (w64 (pc + 4)) (prologue env')).
  assert (Hw : wf_env (prologue env')) by (by apply wf_prologue). split.
  - cbn [run_words]. rewrite Hstep.
    assert (Hq : REG_PC (set_PC (w64 (pc + 4)) (prologue env')) = w64 (pc + 4))
      by (unfold REG_PC, set_PC; by apply reg_set_reg_eq).
    by rewrite Hq, Z.eqb_refl.
  - split; unfold set_PC.
    + eauto with cpu.
    + apply u64_set_reg; [by apply u64_prologue|apply w64_range].
    + unfold REG_PC. by apply reg_set_reg_eq.
    + rewrite reg_set_reg_ne, reg_prologue by (lia || (right; lia)). done.
    + intros g j Hj Hne. rewrite reg_set_reg_ne, reg_prologue by (lia || (right; lia)). by apply Hoth.
Qed.
Lemma adv_swyms f i v n : 0 < i < 64 -> 0 <= v < 2^64 -> advances f i (replicate n swym_word) v v.
Proof.
  intros Hi Hv. induction n as [|n IH]; [apply advances_nil|]. cbn [replicate].
  by eapply advances_cons; [by apply adv_swym|].
Qed.

Variable bfd_check_overflow : Z -> Z -> bool.
Hypothesis Hoverflow : overflow_laws bfd_check_overflow.
Variable final_link_relocate :
  reloc_howto_type -> section_place -> list Z -> Z -> Z -> Z -> option (bfd_reloc_status_type * list Z).
Abbreviation relocate := (dadao_final_link_relocate bfd_check_overflow final_link_relocate).

(** R_DADAO_ABS at a setzw of rd: one word or more that load the address. *)
Lemma relocate_abs_loads h i addr buf p : h_bitsize h = 16 ->
  bfd_getl32 buf p = wyde_word DADAO_INSN_SETZW_RD i 0 0 ->
  0 < i < 64 -> 0 <= addr < 2^64 - 2^16 -> bytes_ok buf -> 0 <= p -> p + 16 <= Z.of_nat (length buf) ->
  exists ws st, relocate_abs bfd_check_overflow h buf p addr = Some (bfd_reloc_ok, fst st) /\ filled buf p ws st /\
    (0 < length ws <= 4)%nat /\ forall v, advances RD i ws v addr.
Proof.
  intros Hb Hw Hi Ha Hok Hp Hl. unfold relocate_abs. rewrite get_32_in by lia. cbn [mbind option_bind].
  rewrite Hb, Hoverflow by lia. rewrite Hw.
  assert (Hf : fill_pair B helper disas goto_tb RD DADAO_INSN_SETZW_RD DADAO_INSN_ORW_RD).
  { apply (fill_ops_pair B L helper disas Hdisas goto_tb RD "SETZWrd" _ "ORWrd"). left. }
  pose proof Hf as [Hz _ _ Hset _]. rewrite (proj2 (Z.leb_gt (2^64 - 2^16) addr)), orb_false_r by lia.
  destruct (Z.ltb_spec addr (2^16)) as [Hlt|Hge].
  - destruct (fill_word goto_tb DADAO_INSN_SETZW_RD i 0 addr Hz) as [Hv Hr]; [done|lia|lia|].
    assert (Hlor : Z.lor (wyde_word DADAO_INSN_SETZW_RD i 0 0) addr = wyde_word DADAO_INSN_SETZW_RD i 0 addr).
    { rewrite (lor_aligned _ addr 16); [unfold wyde_word; lia|lia| |lia].
      unfold wyde_word. change DADAO_INSN_SETZW_RD with 0x16000000. Z.div_mod_to_equations; lia. }
    rewrite Hlor. destruct (filled_put buf p [] buf (wyde_word DADAO_INSN_SETZW_RD i 0 addr)) as (b' & Hput & F).
    + done.
    + cbn. lia.
    + done.
    + split; cbn; done || (intros; done).
    + cbn [length] in Hput, F. rewrite Z.mul_0_r, Z.add_0_r in Hput. rewrite Hput. cbn [mbind option_bind].
      exists [wyde_word DADAO_INSN_SETZW_RD i 0 addr], (b', 4 * Z.of_nat 0 + 4). split; [done|]. split; [exact F|].
      split; [cbn; lia|]. intros v. replace addr with (addr * 2^(16*0)) at 2 by lia.
      apply Hset; lia.
  - assert (H1 : Z.land (wyde_word DADAO_INSN_SETZW_RD i 0 0) 0xFF000000 = DADAO_INSN_SETZW_RD).
    { rewrite land_top by (unfold wyde_word; change DADAO_INSN_SETZW_RD with 0x16000000; lia).
      unfold wyde_word. change DADAO_INSN_SETZW_RD with 0x16000000. Z.div_mod_to_equations; lia. }
    assert (H2 : Z.land (wyde_word DADAO_INSN_SETZW_RD i 0 0) 0x00FC0000 = i * 2^18).
    { change 0x00FC0000 with (Z.shiftl (Z.ones 6) 18). rewrite land_field by lia.
      unfold wyde_word. change DADAO_INSN_SETZW_RD with 0x16000000. Z.div_mod_to_equations; lia. }
    rewrite H1, H2.
    destruct (fill_abs_advances B helper disas goto_tb RD _ _ i addr buf p Hf Hi ltac:(lia) Hok Hp Hl)
      as (ws & st & Hfill & F & Hn & Hadv).
    rewrite Hfill. destruct st as [b t]. cbn [mbind option_bind]. exists ws, (b, t). split; [done|].
    split; [done|]. split; [|done]. rewrite Hn. unfold nonzero_wydes.
    pose proof (length_filter (fun k => wyde_of addr k <> 0) [0; 1; 2; 3]) as Hle. cbn [length] in Hle. lia.
Qed.

(** C32: the address of a symbol, from the compiler to the machine.  The four
    words LLVM encodes for setrd of a symbol, stored at [off] with the
    relocation its object writer records (the number R_DADAO_ABS has in
    GNU ld, at the offset ld expects), linked by GNU ld: no byte outside the
    sixteen changes, and the sequence run on the emulator leaves symbol plus
    addend in the register and changes nothing else.  (The last 2^16 addresses
    are left out: ld takes them for negative 16-bit values.) *)
Theorem setrd_symbol_links r i e bytes fixups rt h off buf sec addend relocation pc env mem :
  encodeInstruction (MkMCInst PseudoSETRD [MCReg r; MCExp e]) = Some (bytes, fixups) ->
  getDadaoRegisterNumbering r = Some i -> i <> 0 ->
  getRelocType FIXUP_DADAO_ABS = Some rt -> howto_at rt = Some h ->
  bytes_ok buf -> 0 <= off -> off + 16 <= Z.of_nat (length buf) ->
  (forall j, 0 <= j < 16 -> byte_at buf (off + j) = byte_at bytes j) ->
  let addr := w64 (relocation + addend) in
  addr < 2^64 - 2^16 ->
  0 <= pc < 2^64 -> REG_PC env = pc -> wf_env env -> u64_env env ->
  fixups = [MkFixup 0 e FIXUP_DADAO_ABS] /\
  exists buf', relocate h sec buf (relocation_offset rt off) addend relocation = Some (bfd_reloc_ok, buf') /\
    (forall j, j < off \/ off + 16 <= j -> byte_at buf' j = byte_at buf j) /\
    exists env', run_words B helper disas goto_tb (words_at buf' off 4) pc env mem = Some (env', mem) /\
      loaded RD i addr (w64 (pc + 16)) env env'.
Proof.
  intros Henc Hr Hi0 [= <-] Hh Hok Hoff Hlen Hbytes addr Haddr Hpc Hreg Hwf Hu.
  pose proof (numbering_range r i Hr) as Hi. destruct (setrd_encoding r i e bytes fixups Hr Henc) as [-> ->].
  split; [done|].
  assert (Hbt : h_bitsize h = 16 /\ h_type h = R_DADAO_ABS) by (vm_compute in Hh; by injection Hh as <-).
  destruct Hbt as [Hbits Hty].
  assert (Hw0 : bfd_getl32 buf off = wyde_word DADAO_INSN_SETZW_RD i 0 0).
  { unfold bfd_getl32. rewrite <- (Z.add_0_r off) at 1. rewrite !Hbytes by lia.
    transitivity (0 + 0 * 2^8 + (4 * i) * 2^16 + 0x16 * 2^24); [reflexivity|].
    unfold wyde_word. change DADAO_INSN_SETZW_RD with 0x16000000. lia. }
  assert (Hsw : forall k, (0 < k < 4)%nat -> bfd_getl32 buf (off + 4 * Z.of_nat k) = swym_word).
  { intros k Hk. unfold bfd_getl32.
    assert (k = 1 \/ k = 2 \/ k = 3)%nat as [->|[->| ->]] by lia;
      rewrite <- !Z.add_assoc, !Hbytes by lia; done. }
  assert (Ha : 0 <= addr < 2^64 - 2^16) by (split; [apply w64_range|done]).
  destruct (relocate_abs_loads h i addr buf off Hbits Hw0 ltac:(lia) Ha Hok Hoff Hlen)
    as (ws & st & Hrel & [_ _ _ Hws Ho] & Hn & Hadv).
  exists (fst st). split; [|split].
  - unfold dadao_final_link_relocate. rewrite Hty. cbn [own_relocation]. unfold dadao_elf_perform_relocation. rewrite Hty.
    change (relocation_offset ELF_R_DADAO_ABS off) with (off + 4). fold addr.
    replace (off + 4 - 4) with off by lia. exact Hrel.
  - intros j Hj. apply Ho. lia.
  - assert (Hall : words_at (fst st) off 4 = (ws ++ replicate (4 - length ws) swym_word)%list).
    { rewrite <- Hws at 1. unfold words_at. replace 4%nat with (length ws + (4 - length ws))%nat at 1 by lia.
      rewrite seq_app, map_app. f_equal.
      rewrite (map_constant _ swym_word); [by rewrite length_seq|]. intros k Hk%in_seq.
      rewrite (getl32_other buf) by (intros j Hj; apply Ho; lia). apply Hsw. lia. }
    rewrite Hall. destruct (advances_app B helper disas goto_tb RD i ws _ (reg RD i env) addr addr
      (Hadv (reg RD i env)) (adv_swyms RD i addr (4 - length ws) ltac:(lia) ltac:(lia)) pc env env mem Hpc) as (env' & Hrun & Hld).
    + by split.
    + exists env'. split; [exact Hrun|]. rewrite length_app, length_replicate in Hld.
      replace (4 * Z.of_nat (length ws + (4 - length ws))) with 16 in Hld by lia. exact Hld.
Qed.
End Link.

(** setrd rd5 of a symbol at 0x12345678. *)
Lemma setrd_symbol_links_witness : exists h buf env',
  howto_at ELF_R_DADAO_ABS = Some h /\
  dadao_final_link_relocate check_bitfield no_relocate h text (setrd_bytes 5) 4 8 0x12345670 = Some (bfd_reloc_ok, buf) /\
  run_words ref_backend no_helper decode_ref (fun _ => true) (words_at buf 0 4) demo_pc demo_env ∅ = Some (env', ∅) /\
  reg RD 5 env' = 0x12345678.
Proof.
  destruct (howto_at ELF_R_DADAO_ABS) as [h|] eqn:E; [|discriminate E].
  destruct (encodeInstruction (MkMCInst PseudoSETRD [MCReg (RDx 5); MCExp (MCSymbolRefExpr "x")])) as [[bytes fx]|] eqn:Eb;
    [|discriminate Eb].
  destruct (setrd_symbol_links ref_backend ref_laws no_helper decode_ref decode_ref_laws (fun _ => true)
    check_bitfield check_bitfield_laws no_relocate (RDx 5) 5 (MCSymbolRefExpr "x") bytes fx ELF_R_DADAO_ABS h 0
    (setrd_bytes 5) text 8 0x12345670 demo_pc demo_env ∅ Eb eq_refl ltac:(discriminate) eq_refl E)
    as (_ & buf & Hl & _ & env' & Hr & Hld).
  - bytes_check.
  - lia.
  - cbn. lia.
  - intros j _. vm_compute in Eb. injection Eb as <- _. reflexivity.
  - reflexivity.
  - unfold demo_pc. lia.
  - apply demo_env_pc.
  - apply demo_wf.
  - apply demo_u64.
  - exists h, buf, env'. split; [done|]. split; [exact Hl|]. split; [exact Hr|].
    exact (ld_reg _ _ _ _ _ _ Hld).
Defined.

(** What the relocation numbers of LLVM name in include/elf/dadao.h: the call
    relocation is R_DADAO_CALL; the high and low halves of an address and the
    21-bit fields have the numbers of pc-relative and plain data. *)
Lemma relocation_numbers :
  map reloc_number [R_DADAO_CALL; Bfd.R_DADAO_ABS; Bfd.R_DADAO_32; Bfd.R_DADAO_64; R_DADAO_PC_16; R_DADAO_PC_8; R_DADAO_8; R_DADAO_16]
  = [R_DADAO_25; ELF_R_DADAO_ABS; ELF_R_DADAO_32; ELF_R_DADAO_64; R_DADAO_HI16; R_DADAO_LO16; R_DADAO_21; R_DADAO_21_F].
Proof. reflexivity. Qed.
(** The branches have no relocation: getRelocType gives none for their fixups. *)
Lemma branch_fixups_unrelocated :
  getRelocType FIXUP_DADAO_18 = None /\ getRelocType FIXUP_DADAO_12 = None.
Proof. done. Qed.
