(* ===== verification/LlvmConst.v ===== *)
(** The constants of the LLVM back end: every pattern that accepts an
    immediate selects instructions which, encoded and run on the emulator,
    leave that immediate in the register. *)
From S2P Require Import Prelude Opcodes Cpu Tcg Translate Run RefBackend IsaArith IsaMove IsaMem IsaControl.
From S2P Require Import Frame Decode Step Isa IsaProps Disas DisasProps GasData Gas GasEncode GasExec GasRelax GasFix GasWitness.
From S2P Require Import Bfd BfdFill LlvmData LlvmMc LlvmLower LlvmIsel LlvmEncode LlvmExec.
Local Open Scope string_scope.
Local Open Scope Z_scope.

(** ** The words *)
Definition wyde_major (op : Opcode) : option (Z * Z) :=
  match op with
  | SETZW_RWII w => Some (DADAO_INSN_SETZW_RD, wpos_val w)
  | ORW_RWII w => Some (DADAO_INSN_ORW_RD, wpos_val w)
  | ANDNW_RWII w => Some (DADAO_INSN_ANDNW_RD, wpos_val w)
  | SETOW_RWII w => Some (DADAO_INSN_SETOW_RD, wpos_val w)
  | _ => None
  end.
Lemma rwii_word major i k x : 0 <= major < 256 -> 0 <= i < 64 -> 0 <= k < 4 -> 0 <= x < 2^16 ->
  word_of major [(16, 2, k); (18, 6, i); (0, 16, x)] = wyde_word (major * 2^24) i k x.
Proof.
  intros Hm Hi Hk Hx. set (fs := [(16, 2, k); (18, 6, i); (0, 16, x)]).
  assert (Hl : laid_out (map fst fs) = true) by reflexivity.
  pose proof (word_major major fs Hl) as H0. pose proof (word_field major fs Hl 16 2 k ltac:(left)) as H1.
  pose proof (word_field major fs Hl 18 6 i ltac:(right; left)) as H2.
  pose proof (word_field major fs Hl 0 16 x ltac:(right; right; left)) as H3.
  unfold wyde_word. rewrite (Z.mod_small k), (Z.mod_small i), (Z.mod_small x) in * by lia.
  rewrite Z.pow_0_r, Z.div_1_r in H3. Z.div_mod_to_equations; lia.
Qed.
Lemma constant_word r i op m k x : getDadaoRegisterNumbering r = Some i -> wyde_major op = Some (m, k) ->
  0 <= x < 2^16 -> getBinaryCodeForInstr (constant_inst r (op, x)) = Some (wyde_word m i k x, []).
Proof.
  intros Hr Hm Hx. pose proof (numbering_range r i Hr) as Hi.
  assert (Hw : w32 x = x) by (apply w32_id; lia).
  destruct op;
    try discriminate Hm; injection Hm as <- <-; unfold getBinaryCodeForInstr, constant_inst;
    cbn -[Z.lor Z.land Z.shiftl Z.shiftr w32]; rewrite Hr; cbn -[Z.lor Z.land Z.shiftl Z.shiftr w32];
    (match goal with |- Some (Z.lor (Z.lor (Z.lor (Z.shiftl ?maj 24) (Z.shiftl (Z.land ?k _) _)) _) _, _) = _ =>
      transitivity (Some (wyde_word (maj * 2^24) i k x, @nil MCFixup)); [|reflexivity];
      rewrite <- (rwii_word maj i k x) by (lia || (destruct w; cbn; lia)); unfold word_of; cbn [fold_left put_bits] end).
  all: by rewrite !Z.shiftr_0_r, Hw.
Qed.

(** ** The immediates *)
Lemma WydeOf_wyde w N : WydeOf w N = GasExec.wyde_of N (wpos_val w).
Proof. destruct w; cbn [WydeOf wpos_val]; [apply (wyde_of_land N 0)|apply (wyde_of_land N 1)|apply (wyde_of_land N 2)|apply (wyde_of_land N 3)]; lia. Qed.
Lemma not_wyde N k : 0 <= k -> Z.land (w64 (Z.lnot (Z.shiftr N (16 * k)))) 0xFFFF = 2^16 - 1 - GasExec.wyde_of N k.
Proof.
  intros Hk. rewrite (land_mask _ _ 16) by (done || lia). unfold w64, GasExec.wyde_of.
  rewrite <- Z.shiftr_div_pow2 by lia. generalize (Z.shiftr N (16 * k)). intros m. unfold Z.lnot.
  Z.div_mod_to_equations; lia.
Qed.
Lemma i64w_wyde w N : i64w w N = true -> 0 <= N < 2^64 -> N = GasExec.wyde_of N (wpos_val w) * 2^(16 * wpos_val w).
Proof.
  unfold i64w. intros H%Z.eqb_eq HN. change 0xFFFF with (Z.ones 16) in H.
  rewrite land_field in H by (destruct w; cbn; lia). unfold GasExec.wyde_of. congruence.
Qed.
Lemma high_part n N : 0 <= n < 64 -> 0 <= N < 2^64 -> Z.land (not64 (Z.ones n)) N = N / 2^n * 2^n.
Proof.
  intros Hn HN. assert (Hs : not64 (Z.ones n) = Z.shiftl (Z.ones (64 - n)) n).
  { unfold not64. rewrite Z.shiftl_mul_pow2, !Z.ones_equiv by lia. unfold Z.pred.
    rewrite Z.mul_add_distr_r, <- Z.pow_add_r by lia. replace (64 - n + n) with 64 by lia. lia. }
  rewrite Hs, Z.land_comm, land_field by lia. assert (0 < 2^n) by (apply Z.pow_pos_nonneg; lia).
  rewrite Z.mod_small; [done|]. split; [apply Z.div_pos; lia|].
  apply Z.div_lt_upper_bound; [lia|]. rewrite <- Z.pow_add_r by lia. replace (n + (64 - n)) with 64 by lia. lia.
Qed.

(** ** Loading *)
Ltac in_assign := apply assign_row; unfold isa_assign, row_named; cbv zeta; repeat first [left | right].
Section Load.
Context {M : Type} (B : backend M) (L : tcg_laws B).
Variable helper : string -> CPUDADAOState -> list Z -> Z * CPUDADAOState.
Variable disas : Z -> gen bool.
Hypothesis Hdisas : decodetree_laws disas.
Variable goto_tb : Z -> bool.
Abbreviation advances := (GasExec.advances B helper disas goto_tb).

Lemma adv_andnw i k lo x : 0 < i < 64 -> 0 <= k < 4 -> 0 <= x < 2^16 -> 0 <= lo < 2^(16 * k) ->
  advances RD i [wyde_word DADAO_INSN_ANDNW_RD i k (2^16 - 1 - x)]
    (lo + (2^64 - 2^(16 * k))) (lo + x * 2^(16 * k) + (2^64 - 2^(16 * (k + 1)))).
Proof.
  intros Hi Hk Hx Hlo. rewrite <- wyde_andn by lia. pose proof (pow_wyde k Hk) as [? ?].
  assert (2^(16 * (k + 1)) = 2^(16 * k) * 2^16) by (rewrite <- Z.pow_add_r by lia; f_equal; lia).
  apply (adv_rwii B L helper disas Hdisas goto_tb "ANDNWrd" RD Z.ldiff); try done;
    [in_assign|unfold wyde_ops; repeat (left || right)|lia|]. rewrite wyde_andn by lia. nia.
Qed.

(** The words of a selected sequence. *)
Definition const_words (r : Register) (l : list (Opcode * Z)) : option (list Z) :=
  mapM (fun p => fst <$> getBinaryCodeForInstr (constant_inst r p)) l.
Definition loads (r : Register) (i : Z) (l : list (Opcode * Z)) (v v' : Z) : Prop :=
  exists ws, const_words r l = Some ws /\ advances RD i ws v v'.
Lemma loads_nil r i v v' : v = v' -> loads r i [] v v'.
Proof. intros <-. exists []. split; [done|]. apply advances_nil. Qed.
Lemma loads_cons r i op m k x l v v' v'' : getDadaoRegisterNumbering r = Some i -> wyde_major op = Some (m, k) ->
  0 <= x < 2^16 -> advances RD i [wyde_word m i k x] v v' -> loads r i l v' v'' -> loads r i ((op, x) :: l) v v''.
Proof.
  intros Hr Hm Hx Ha (ws & Hws & Hl). exists (wyde_word m i k x :: ws). split.
  - unfold const_words in *. cbn [mapM]. rewrite (constant_word r i op m k x Hr Hm Hx). cbn. by rewrite Hws.
  - by eapply advances_cons.
Qed.

Section Wydes.
Variables (r : Register) (i N : Z).
Hypothesis Hr : getDadaoRegisterNumbering r = Some i.
Hypothesis Hi : 0 < i < 64.
Hypothesis HN : 0 <= N < 2^64.
Abbreviation x := (GasExec.wyde_of N).

Lemma fills : fill_pair B helper disas goto_tb RD DADAO_INSN_SETZW_RD DADAO_INSN_ORW_RD.
Proof. apply (fill_ops_pair B L helper disas Hdisas goto_tb RD "SETZWrd" _ "ORWrd"). left. Qed.
Lemma load_setzw w l v v' : loads r i l (x (wpos_val w) * 2^(16 * wpos_val w)) v' ->
  loads r i ((SETZW_RWII w, WydeOf w N) :: l) v v'.
Proof.
  pose proof fills as [_ _ _ Hset _]. rewrite WydeOf_wyde. eapply loads_cons; [done|done|apply wyde_of_range|].
  apply Hset; [done|destruct w; cbn; lia|apply wyde_of_range].
Qed.
Lemma load_orw w l lo v' : 0 <= lo < 2^(16 * wpos_val w) ->
  loads r i l (lo + x (wpos_val w) * 2^(16 * wpos_val w)) v' -> loads r i ((ORW_RWII w, WydeOf w N) :: l) lo v'.
Proof.
  intros Hlo. pose proof fills as [_ _ _ _ Hnext]. rewrite WydeOf_wyde. eapply loads_cons; [done|done|apply wyde_of_range|].
  apply Hnext; [done|destruct w; cbn; lia|apply wyde_of_range|done].
Qed.
Lemma load_setow l v v' : loads r i l (x 0 + (2^64 - 2^16)) v' -> loads r i ((SETOW_RWII WPOS_0, Wyde0 N) :: l) v v'.
Proof.
  change (Wyde0 N) with (WydeOf WPOS_0 N). rewrite WydeOf_wyde. eapply loads_cons; [done|done|apply wyde_of_range|].
  apply (adv_setow B L helper disas Hdisas); [done|apply wyde_of_range].
Qed.
Lemma load_andnw w y l lo v' : y = 2^16 - 1 - x (wpos_val w) -> 0 <= lo < 2^(16 * wpos_val w) ->
  loads r i l (lo + x (wpos_val w) * 2^(16 * wpos_val w) + (2^64 - 2^(16 * (wpos_val w + 1)))) v' ->
  loads r i ((ANDNW_RWII w, y) :: l) (lo + (2^64 - 2^(16 * wpos_val w))) v'.
Proof.
  intros -> Hlo. pose proof (wyde_of_range N (wpos_val w)). eapply loads_cons; [done|done|lia|].
  apply adv_andnw; [done|destruct w; cbn; lia|done|done].
Qed.
End Wydes.

(** C30: every pattern of the instruction table that accepts a 64-bit constant
    selects instructions that, encoded and run on the emulator, leave exactly
    this constant in the register and change nothing else, whatever the
    register held. *)
Theorem constants_load r i N pr emit v :
  getDadaoRegisterNumbering r = Some i -> i <> 0 -> 0 <= N < 2^64 ->
  (pr, emit) ∈ constant_patterns -> pr N = true -> loads r i (emit N) v N.
Proof.
  intros Hr Hi0 HN Hin Hp. pose proof (numbering_range r i Hr). assert (Hi : 0 < i < 64) by lia.
  pose proof (wydes N HN) as Hw. pose proof (wyde_of_range N 0) as R0. pose proof (wyde_of_range N 1) as R1.
  pose proof (wyde_of_range N 2) as R2. pose proof (wyde_of_range N 3) as R3.
  unfold constant_patterns in Hin. repeat (apply elem_of_cons in Hin as [[= -> ->]|Hin]); [..|by apply elem_of_nil in Hin].
  1-4: apply load_setzw; try done; apply loads_nil; symmetry; by apply i64w_wyde.
  - apply Z.eqb_eq in Hp. change 0xFFFF with (Z.ones 16) in Hp. rewrite high_part in Hp by lia.
    unfold not64 in Hp. change (Z.ones 16) with 65535 in Hp.
    apply load_setow; try done. apply loads_nil. Z.div_mod_to_equations; lia.
  - apply Z.eqb_eq in Hp. change 0xFFFFFFFF with (Z.ones 32) in Hp. rewrite high_part in Hp by lia.
    apply (load_setzw r i N Hr Hi WPOS_0). apply (load_orw r i N Hr Hi WPOS_1); cbn [wpos_val]; [lia|].
    apply loads_nil. cbn [Z.mul] in *. Z.div_mod_to_equations; lia.
  - apply Z.eqb_eq in Hp. change 0xFFFFFFFF with (Z.ones 32) in Hp. rewrite high_part in Hp by lia.
    unfold not64 in Hp. change (Z.ones 32) with 4294967295 in Hp.
    apply load_setow; try done. apply (load_andnw r i N Hr Hi WPOS_1); [by apply (not_wyde N 1)|cbn; lia|].
    apply loads_nil. cbn [wpos_val]. Z.div_mod_to_equations; lia.
  - apply Z.eqb_eq in Hp. change 0xFFFFFFFFFFFF with (Z.ones 48) in Hp. rewrite high_part in Hp by lia.
    apply (load_setzw r i N Hr Hi WPOS_0). apply (load_orw r i N Hr Hi WPOS_1); cbn [wpos_val]; [lia|].
    apply (load_orw r i N Hr Hi WPOS_2); cbn [wpos_val]; [lia|].
    apply loads_nil. Z.div_mod_to_equations; lia.
  - apply Z.eqb_eq in Hp. change 0xFFFFFFFFFFFF with (Z.ones 48) in Hp. rewrite high_part in Hp by lia.
    unfold not64 in Hp. change (Z.ones 48) with 281474976710655 in Hp.
    apply load_setow; try done. apply (load_andnw r i N Hr Hi WPOS_1); [by apply (not_wyde N 1)|cbn; lia|].
    apply (load_andnw r i N Hr Hi WPOS_2); [by apply (not_wyde N 2)|cbn [wpos_val]; lia|].
    apply loads_nil. cbn [wpos_val]. Z.div_mod_to_equations; lia.
  - apply (load_setzw r i N Hr Hi WPOS_0). apply (load_orw r i N Hr Hi WPOS_1); cbn [wpos_val]; [lia|].
    apply (load_orw r i N Hr Hi WPOS_2); cbn [wpos_val]; [lia|].
    apply (load_orw r i N Hr Hi WPOS_3); cbn [wpos_val]; [lia|].
    apply loads_nil. lia.
Qed.
End Load.
(** setow, andnw for a constant with ones above 32 bits. *)
Lemma constants_load_witness : exists env',
  run_words ref_backend no_helper decode_ref (fun _ => true) [0x17145678; 0x1515edcb] demo_pc demo_env ∅ = Some (env', ∅) /\
  reg RD 5 env' = 0xFFFFFFFF12345678.
Proof.
  destruct (constants_load ref_backend ref_laws no_helper decode_ref decode_ref_laws (fun _ => true)
    (RDx 5) 5 0xFFFFFFFF12345678 oimm32 _ 5 eq_refl ltac:(discriminate) ltac:(lia)
    (list_elem_of_lookup_2 constant_patterns 6 _ eq_refl) eq_refl) as (ws & Hws & Ha).
  vm_compute in Hws. injection Hws as <-.
  destruct (Ha demo_pc demo_env demo_env ∅) as (env' & Hr & Hl).
  - unfold demo_pc. lia.
  - split; [apply demo_wf|apply demo_u64|apply demo_env_pc|reflexivity|done].
  - exists env'. split; [exact Hr|]. exact (ld_reg _ _ _ _ _ _ Hl).
Defined.
