(* ===== verification/LlvmInstr.v ===== *)
(** The LLVM back end: DadaoInstrInfo.cpp.

    A machine instruction is its opcode and explicit operands.  A basic block
    is the list of its instructions, first to last; debug instructions are
    left out, since every loop of the file skips them.  [None] is an
    llvm_unreachable. *)
From S2P Require Import Prelude Cpu LlvmData LlvmMc LlvmLower.
Local Open Scope Z_scope.

Inductive MachineOperand :=
| MO_Register (r : Register)
| MO_Immediate (v : Z)
| MO_MachineBasicBlock (b : nat)
| MO_FrameIndex (i : Z).
#[export] Instance MachineOperand_eq_dec : EqDecision MachineOperand.
Proof. solve_decision. Defined.
Record MachineInstr := MkMI { mi_opcode : Opcode; mi_operands : list MachineOperand }.
#[export] Instance MachineInstr_eq_dec : EqDecision MachineInstr.
Proof. solve_decision. Defined.

(** DadaoMCInstLower::Lower; a block is its symbol.  A frame index is gone by
    then. *)
Definition LowerOperand (symbol : nat -> String.string) (MO : MachineOperand) : option MCOperand :=
  match MO with
  | MO_Register r => Some (MCReg r)
  | MO_Immediate v => Some (MCImm v)
  | MO_MachineBasicBlock b => Some (MCExp (MCSymbolRefExpr (symbol b)))
  | MO_FrameIndex _ => None
  end.
Definition Lower (symbol : nat -> String.string) (MI : MachineInstr) : option MCInst :=
  ops ← mapM (LowerOperand symbol) (mi_operands MI); Some (MkMCInst (mi_opcode MI) ops).

(** ** Register classes and copies *)
Definition GPRDRegClass (r : Register) : bool :=
  match r with
  | RDx i => hex6 i && negb (i =? 15)
  | RDZERO | RDRV => true
  | _ => false
  end.
Definition GPRBRegClass (r : Register) : bool :=
  match r with
  | RBx i => hex6 i
  | RBIP | RBSP | RBFP | RBGP | RBTP | RBCA => true
  | _ => false
  end.
Definition copyPhysReg (DestinationRegister SourceRegister : Register) : option MachineInstr :=
  let build op := Some (MkMI op [MO_Register DestinationRegister; MO_Register SourceRegister]) in
  if GPRDRegClass DestinationRegister && GPRDRegClass SourceRegister then build RD2RD_ORRI
  else if GPRBRegClass DestinationRegister && GPRBRegClass SourceRegister then build RB2RB_ORRI
  else if GPRDRegClass DestinationRegister && GPRBRegClass SourceRegister then build RB2RD_ORRI
  else if GPRBRegClass DestinationRegister && GPRDRegClass SourceRegister then build RD2RB_ORRI
  else None.

(** ** Stack slots *)
Inductive RegisterClass := RC_GPRD | RC_GPRB | RC_GPRA.
Definition storeRegToStackSlot (SourceRegister : Register) (FrameIndex : Z) (RegisterClass : RegisterClass)
    : option MachineInstr :=
  let build op := Some (MkMI op [MO_Register SourceRegister; MO_FrameIndex FrameIndex; MO_Immediate 0]) in
  match RegisterClass with
  | RC_GPRD => build STO_RRII | RC_GPRB => build STO_RB_RRII | RC_GPRA => None
  end.
Definition loadRegFromStackSlot (DestinationRegister : Register) (FrameIndex : Z) (RegisterClass : RegisterClass)
    : option MachineInstr :=
  let build op := Some (MkMI op [MO_Register DestinationRegister; MO_FrameIndex FrameIndex; MO_Immediate 0]) in
  match RegisterClass with
  | RC_GPRD => build LDO_RRII | RC_GPRB => build LDO_RB_RRII | RC_GPRA => None
  end.
(** The register and the frame index; [None] is register 0. *)
Definition isLoadFromStackSlot (MI : MachineInstr) : option (Register * Z) :=
  match mi_opcode MI, mi_operands MI with
  | LDO_RRII, MO_Register r :: MO_FrameIndex i :: MO_Immediate v :: _ => if v =? 0 then Some (r, i) else None
  | _, _ => None
  end.
Definition isStoreToStackSlot (MI : MachineInstr) : option (Register * Z) :=
  match mi_opcode MI, mi_operands MI with
  | STO_RRII, MO_FrameIndex i :: MO_Immediate v :: MO_Register r :: _ => if v =? 0 then Some (r, i) else None
  | _, _ => None
  end.

(** ** Memory accesses *)
Definition mem_width (op : Opcode) : option Z :=
  match op with
  | LDMO_RD_RRRI | LDO_RRII | STMO_RD_RRRI | STO_RRII => Some 8
  | LDTU_RRII | LDTS_RRII | LDMTU_RRRI | LDMTS_RRRI | STMT_RRRI | STT_RRII => Some 4
  | LDWU_RRII | LDWS_RRII | LDMWU_RRRI | LDMWS_RRRI | STMW_RRRI | STW_RRII => Some 2
  | LDBU_RRII | LDBS_RRII | LDMBU_RRRI | LDMBS_RRRI | STMB_RRRI | STB_RRII => Some 1
  | _ => None
  end.
(** Base operand, offset and width. *)
Definition getMemOperandWithOffsetWidth (LdSt : MachineInstr) : option (MachineOperand * Z * Z) :=
  if negb (length (mi_operands LdSt) =? 4)%nat then None
  else
    match mi_operands LdSt with
    | _ :: MO_Register r :: MO_Immediate v :: _ => w ← mem_width (mi_opcode LdSt); Some (MO_Register r, v, w)
    | _ => None
    end.
Definition getMemOperandsWithOffsetWidth (LdSt : MachineInstr) : option (list MachineOperand * Z * Z) :=
  match mi_opcode LdSt with
  | LDMO_RD_RRRI | STMO_RD_RRRI | LDO_RRII | STO_RRII | LDTU_RRII | LDTS_RRII | STT_RRII
  | LDWU_RRII | LDWS_RRII | STW_RRII | LDBU_RRII | LDBS_RRII | STB_RRII =>
      '(BaseOp, Offset, Width) ← getMemOperandWithOffsetWidth LdSt; Some ([BaseOp], Offset, Width)
  | _ => None
  end.
(** [ordered] is whether one of the two has unmodeled side effects or an
    ordered reference; the offsets are kept in an int. *)
Definition areMemAccessesTriviallyDisjoint (ordered : bool) (MIa MIb : MachineInstr) : bool :=
  if ordered then false
  else
    match getMemOperandWithOffsetWidth MIa, getMemOperandWithOffsetWidth MIb with
    | Some (BaseOpA, OffsetA, WidthA), Some (BaseOpB, OffsetB, WidthB) =>
        if bool_decide (BaseOpA = BaseOpB) then
          let LowOffset := s32 (Z.min OffsetA OffsetB) in
          let HighOffset := s32 (Z.max OffsetA OffsetB) in
          let LowWidth := if LowOffset =? OffsetA then WidthA else WidthB in
          s32 (LowOffset + LowWidth) <=? HighOffset
        else false
    | _, _ => false
    end.

(** ** Conditions *)
Definition getOppositeCondition (CC : LPCC) : option LPCC :=
  match CC with
  | ICC_T => Some ICC_F | ICC_F => Some ICC_T
  | ICC_UGT => Some ICC_ULE | ICC_ULE => Some ICC_UGT
  | ICC_ULT => Some ICC_UGE | ICC_UGE => Some ICC_ULT
  | ICC_NE => Some ICC_EQ | ICC_EQ => Some ICC_NE
  | ICC_VC => Some ICC_VS | ICC_VS => Some ICC_VC
  | ICC_PL => Some ICC_MI | ICC_MI => Some ICC_PL
  | ICC_GE => Some ICC_LT | ICC_LT => Some ICC_GE
  | ICC_GT => Some ICC_LE | ICC_LE => Some ICC_GT
  | ICC_UNKNOWN => None
  end.
(** The condition is one immediate; it is changed in place. *)
Definition reverseBranchCondition (Condition : LPCC) : option LPCC := getOppositeCondition Condition.

(** SrcReg, SrcReg2, CmpValue. *)
Definition analyzeCompare (MI : MachineInstr) : option (MachineOperand * option MachineOperand * Z) :=
  match mi_opcode MI, mi_operands MI with
  | (CMPS_RRII | CMPU_RRII), o0 :: MO_Immediate v :: _ => Some (o0, None, v)
  | (CMPS_ORRR | CMPU_ORRR | CMP_ORRR), o0 :: o1 :: _ => Some (o0, Some o1, 0)
  | _, _ => None
  end.
Definition isRedundantFlagInstr (CmpI OI : MachineInstr) : bool := false.
Definition flagSettingOpcodeVariant (OldOpcode : Opcode) : Opcode := SWYM_OIII.

(** ** Branches *)
Definition isTerminator (op : Opcode) : bool :=
  match op with
  | BRN_RIII | BRNN_RIII | BRZ_RIII | BRNZ_RIII | BRP_RIII | BRNP_RIII | BREQ_RRII | BRNE_RRII
  | JUMP_IIII | JUMP_RRII | RET_FIXME => true
  | _ => false
  end.
Definition isBranch (op : Opcode) : bool :=
  match op with RET_FIXME => false | _ => isTerminator op end.
Definition isLayoutSuccessor (next b : nat) : bool := (next =? b)%nat.

(** From the bottom up: [above] is what is not looked at yet, last first, and
    [below] what is kept below it.  The result is whether the analysis failed,
    the block and TrueBlock; a jump to something else than a block is an
    assertion. *)
Fixpoint analyze_loop (AllowModify : bool) (next : nat) (above below : list MachineInstr) (TrueBlock : option nat)
    : option (bool * list MachineInstr * option nat) :=
  match above with
  | [] => Some (false, below, TrueBlock)
  | MI :: above' =>
      let block := (rev above ++ below)%list in
      if negb (isTerminator (mi_opcode MI)) then Some (false, block, TrueBlock)
      else if negb (isBranch (mi_opcode MI)) then Some (true, block, TrueBlock)
      else if bool_decide (mi_opcode MI = JUMP_IIII) then
        match mi_operands MI with
        | MO_MachineBasicBlock b :: _ =>
            if negb AllowModify then analyze_loop AllowModify next above' (MI :: below) (Some b)
            else if isLayoutSuccessor next b then analyze_loop AllowModify next above' [] None
            else analyze_loop AllowModify next above' [MI] (Some b)
        | _ => None
        end
      else Some (true, block, TrueBlock)
  end.
Definition analyzeBranch (MBB : list MachineInstr) (next : nat) (AllowModify : bool)
    : option (bool * list MachineInstr * option nat) :=
  analyze_loop AllowModify next (rev MBB) [] None.

Definition removable (op : Opcode) : bool :=
  match op with
  | JUMP_IIII | BRN_RIII | BRNN_RIII | BRZ_RIII | BRNZ_RIII | BRP_RIII | BRNP_RIII => true
  | _ => false
  end.
Fixpoint remove_loop (above : list MachineInstr) (Count : nat) : list MachineInstr * nat :=
  match above with
  | MI :: above' => if removable (mi_opcode MI) then remove_loop above' (S Count) else (rev above, Count)
  | [] => ([], Count)
  end.
Definition removeBranch (MBB : list MachineInstr) : list MachineInstr * nat := remove_loop (rev MBB) 0.

Definition jump_to_block (b : nat) : MachineInstr := MkMI JUMP_IIII [MO_MachineBasicBlock b].
Definition branch_opcode (CC : LPCC) : option Opcode :=
  match CC with
  | ICC_EQ => Some BRZ_RIII | ICC_NE => Some BRNZ_RIII | ICC_GE => Some BRNN_RIII
  | ICC_LT => Some BRN_RIII | ICC_GT => Some BRP_RIII | ICC_LE => Some BRNP_RIII
  | _ => None
  end.
Definition insertBranch (MBB : list MachineInstr) (TrueBlock : nat) (FalseBlock : option nat) (Condition : option LPCC)
    : option (list MachineInstr * nat) :=
  match Condition with
  | None =>
      match FalseBlock with
      | Some _ => None
      | None => Some ((MBB ++ [jump_to_block TrueBlock])%list, 1%nat)
      end
  | Some CC =>
      op ← branch_opcode CC;
      let MBB := (MBB ++ [MkMI op [MO_MachineBasicBlock TrueBlock]])%list in
      match FalseBlock with
      | None => Some (MBB, 1%nat)
      | Some b => Some ((MBB ++ [jump_to_block b])%list, 2%nat)
      end
  end.

(** ** Where a block goes *)

(** The first terminator decides; a block without one falls through.  [None]
    is a branch that is not a jump. *)
Fixpoint block_goes (next : nat) (MBB : list MachineInstr) : option nat :=
  match MBB with
  | [] => Some next
  | MI :: MBB =>
      if isTerminator (mi_opcode MI) then
        match mi_opcode MI, mi_operands MI with
        | JUMP_IIII, MO_MachineBasicBlock b :: _ => Some b
        | _, _ => None
        end
      else block_goes next MBB
  end.
(** Terminators are at the end of a block. *)
Fixpoint wf_block (MBB : list MachineInstr) : bool :=
  match MBB with
  | [] => true
  | MI :: MBB =>
      if isTerminator (mi_opcode MI) then forallb (fun MI => isTerminator (mi_opcode MI)) MBB else wf_block MBB
  end.
