(* ===== verification/LlvmInstrProps.v ===== *)
(** The theorems on DadaoInstrInfo.cpp. *)
From S2P Require Import Prelude Opcodes Cpu Tcg Translate Run RefBackend IsaArith IsaMove IsaMem IsaControl.
From S2P Require Import Frame Decode Step Isa IsaProps Disas DisasProps Gas GasEncode GasExec GasMoves.
From S2P Require Import LlvmData LlvmMc LlvmLower LlvmEncode LlvmExec LlvmInstr.
Local Open Scope string_scope.
Local Open Scope Z_scope.

(** ** Conditions *)
Lemma opposite_involutive cc cc' : getOppositeCondition cc = Some cc' -> getOppositeCondition cc' = Some cc.
Proof. by destruct cc; intros [= <-]. Qed.
Lemma opposite_negates cc cc' x y b : getOppositeCondition cc = Some cc' -> icc_cond cc x y = Some b ->
  icc_cond cc' x y = Some (negb b).
Proof.
  destruct cc; intros [= <-]; cbn; intros [= <-]; f_equal; rewrite ?negb_involutive; try done;
    rewrite <- ?Z.leb_antisym, <- ?Z.ltb_antisym; done.
Qed.

(** ** Blocks *)
Definition nonterm (MI : MachineInstr) : bool := negb (isTerminator (mi_opcode MI)).
Definition term (MI : MachineInstr) : bool := isTerminator (mi_opcode MI).
Lemma block_goes_app next A C : forallb nonterm A = true -> block_goes next (A ++ C) = block_goes next C.
Proof.
  induction A as [|MI A IH]; [done|]. cbn. rewrite andb_true_iff. unfold nonterm at 1. intros [H1 H2].
  rewrite (proj1 (negb_true_iff _) H1). auto.
Qed.
Lemma block_goes_congr next A C C' : block_goes next C = block_goes next C' ->
  block_goes next (A ++ C) = block_goes next (A ++ C').
Proof. intros H. induction A as [|MI A IH]; [done|]. cbn. by destruct (isTerminator _). Qed.
(** A block that ends in a non-terminator has none. *)
Lemma wf_last MBB MI : wf_block (MBB ++ [MI]) = true -> term MI = false -> forallb nonterm (MBB ++ [MI]) = true.
Proof.
  unfold term. induction MBB as [|J MBB IH]; cbn; unfold nonterm at 1.
  - intros _ ->. done.
  - destruct (isTerminator (mi_opcode J)); intros H HI; cbn; [|by apply IH].
    rewrite forallb_app in H. cbn in H. rewrite HI, !andb_false_r in H. done.
Qed.
Lemma wf_init MBB C : wf_block (MBB ++ C) = true -> wf_block MBB = true.
Proof.
  induction MBB as [|J MBB IH]; [done|]. cbn. destruct (isTerminator _); [|done].
  rewrite forallb_app. by intros [H _]%andb_true_iff.
Qed.

Lemma analyze_loop_sound allow next above below T MBB' T' :
  wf_block (rev above) = true -> block_goes next below = Some (default next T) ->
  analyze_loop allow next above below T = Some (false, MBB', T') ->
  block_goes next MBB' = Some (default next T') /\ block_goes next (rev above ++ below) = Some (default next T').
Proof.
  revert below T. induction above as [|MI above IH]; intros below T Hwf Hb.
  - by intros [= <- <-].
  - cbn [analyze_loop]. destruct (isTerminator (mi_opcode MI)) eqn:Et; cbn [negb].
    + destruct (isBranch (mi_opcode MI)); [|done]. cbn [negb]. case_bool_decide as Hj; [|done].
      destruct (mi_operands MI) as [|[| |b|] ops] eqn:Eo; try done. cbn [rev] in Hwf |- *.
      rewrite <- app_assoc. cbn [app]. pose proof (wf_init _ _ Hwf) as Hwf'.
      assert (HI : forall C, block_goes next (MI :: C) = Some b) by (intros C; cbn; by rewrite Et, Hj, Eo).
      destruct allow; cbn [negb]; [|intros Hr; by apply (IH (MI :: below) (Some b))].
      unfold isLayoutSuccessor. destruct (Nat.eqb_spec next b) as [->|Hn]; intros Hr.
      * destruct (IH [] None Hwf' eq_refl Hr) as [H1 H2]. split; [done|].
        rewrite <- H2. by apply block_goes_congr.
      * destruct (IH [MI] (Some b) Hwf' (HI _) Hr) as [H1 H2]. split; [done|].
        rewrite <- H2. apply block_goes_congr. by rewrite !HI.
    + intros [= <- <-]. cbn [rev] in Hwf |- *. pose proof (wf_last _ _ Hwf Et) as Hn.
      by rewrite block_goes_app.
Qed.

(** C35: analyzeBranch of a block whose terminators are at its end, when it
    reports success: the block it leaves goes where the block went, which is
    TrueBlock, or the layout successor when there is none; with AllowModify
    the jumps after the first and a jump to the next block are gone and this
    still holds. *)
Theorem analyzeBranch_sound MBB next allow MBB' T :
  wf_block MBB = true -> analyzeBranch MBB next allow = Some (false, MBB', T) ->
  block_goes next MBB = Some (default next T) /\ block_goes next MBB' = block_goes next MBB.
Proof.
  intros Hwf H. unfold analyzeBranch in H. rewrite <- (rev_involutive MBB) in Hwf.
  destruct (analyze_loop_sound allow next (rev MBB) [] None MBB' T Hwf eq_refl H) as [H1 H2].
  rewrite rev_involutive, app_nil_r in H2. by rewrite H1, H2.
Qed.
Lemma analyzeBranch_sound_witness :
  let MBB := [MkMI ADDI_RRII [MO_Register (RDx 8); MO_Register (RDx 8); MO_Immediate 1]; jump_to_block 3; jump_to_block 5] in
  analyzeBranch MBB 3 true = Some (false, take 1 MBB, None) /\ block_goes 3 MBB = Some 3%nat.
Proof.
  split; [vm_compute; reflexivity|].
  apply (proj1 (analyzeBranch_sound [MkMI ADDI_RRII [MO_Register (RDx 8); MO_Register (RDx 8); MO_Immediate 1];
    jump_to_block 3; jump_to_block 5] 3 true _ None eq_refl eq_refl)).
Defined.

Lemma remove_loop_nonterm next above below T r n :
  wf_block (rev above) = true -> analyze_loop false next above below T = Some (false, r.1, r.2) ->
  forallb nonterm (remove_loop above n).1 = true.
Proof.
  revert below T n. induction above as [|MI above IH]; intros below T n Hwf; [done|].
  cbn [analyze_loop remove_loop]. destruct (isTerminator (mi_opcode MI)) eqn:Et; cbn [negb].
  - destruct (isBranch (mi_opcode MI)); [|done]. cbn [negb]. case_bool_decide as Hj; [|done]. rewrite Hj. cbn [removable].
    destruct (mi_operands MI) as [|[| |b|] ops]; try done. apply IH. by eapply wf_init.
  - intros _. assert (removable (mi_opcode MI) = false) as ->.
    { unfold isTerminator in Et. by destruct (mi_opcode MI). }
    cbn [fst rev] in *. by apply wf_last.
Qed.
(** Replacing the branch of an analyzed block. *)
Lemma retarget MBB next MBB' T b : wf_block MBB = true -> analyzeBranch MBB next false = Some (false, MBB', T) ->
  exists MBB2, insertBranch (removeBranch MBB).1 b None None = Some (MBB2, 1%nat) /\ block_goes next MBB2 = Some b.
Proof.
  intros Hwf H. eexists. split; [reflexivity|]. rewrite block_goes_app; [done|].
  apply (remove_loop_nonterm next (rev MBB) [] None (MBB', T)); [by rewrite rev_involutive|done].
Qed.
(** A conditional branch insertBranch builds has no register: it cannot be encoded. *)
Lemma inserted_branch_incomplete op CC b sym inst :
  branch_opcode CC = Some op -> Lower sym (MkMI op [MO_MachineBasicBlock b]) = Some inst ->
  getBinaryCodeForInstr inst = None.
Proof. destruct CC; intros [= <-] [= <-]; reflexivity. Qed.

(** ** Stack slots *)
Lemma load_slot_seen r i MI : loadRegFromStackSlot r i RC_GPRD = Some MI -> isLoadFromStackSlot MI = Some (r, i).
Proof. by intros [= <-]. Qed.
(** A store to a slot is built as (register, index, 0) and looked for as
    (index, 0, register). *)
Lemma store_slot_unseen r i rc MI : storeRegToStackSlot r i rc = Some MI -> isStoreToStackSlot MI = None.
Proof. by destruct rc; intros [= <-]. Qed.

(** ** Disjoint accesses *)

(** The bytes of two accesses at the same base do not overlap, for offsets of
    an int; instructions of the table (three or four operands, the second
    register at the place of the offset) are never found disjoint. *)
Lemma accesses_disjoint ordered MIa MIb base a b wa wb :
  areMemAccessesTriviallyDisjoint ordered MIa MIb = true ->
  getMemOperandWithOffsetWidth MIa = Some (base, a, wa) -> getMemOperandWithOffsetWidth MIb = Some (base, b, wb) ->
  - 2^31 + 8 <= a < 2^31 - 8 -> - 2^31 + 8 <= b < 2^31 - 8 -> a + wa <= b \/ b + wb <= a.
Proof.
  unfold areMemAccessesTriviallyDisjoint. intros H Ha Hb Hra Hrb. destruct ordered; [done|].
  rewrite Ha, Hb, bool_decide_true in H by done.
  assert (Hw : forall MI o v w, getMemOperandWithOffsetWidth MI = Some (o, v, w) -> 0 < w <= 8).
  { intros MI o v w. unfold getMemOperandWithOffsetWidth. destruct (negb _); [done|].
    destruct (mi_operands MI) as [|? [|[] [|[] ?]]]; try done.
    destruct (mem_width _) as [w'|] eqn:E; [|done]. intros [= <- <- <-].
    destruct (mi_opcode MI); cbn in E; try discriminate E; injection E as <-; lia. }
  pose proof (Hw _ _ _ _ Ha). pose proof (Hw _ _ _ _ Hb).
  assert (Hs : forall v, - 2^31 <= v < 2^31 -> s32 v = v) by (intros; apply sext_id; lia).
  rewrite !(Hs (Z.min _ _)), !(Hs (Z.max _ _)) in H by lia.
  destruct (Z.eqb_spec (Z.min a b) a); rewrite Hs, Z.leb_le in H by lia; lia.
Qed.
(** An instruction with the operands of its row is never analyzed: a load or
    store at base and offset has three operands, and the fourth of the
    register-indexed ones is asked to be where a register is. *)
Definition row_size (op : Opcode) : nat := list_sum (map (fun o => op_size (snd o)) (operand_list op)).
Lemma never_disjoint sym MI inst : Lower sym MI = Some inst -> length (mi_operands MI) = row_size (mi_opcode MI) ->
  is_Some (getBinaryCodeForInstr inst) -> getMemOperandWithOffsetWidth MI = None.
Proof.
  unfold Lower, getMemOperandWithOffsetWidth. destruct MI as [op ops]. cbn [mi_opcode mi_operands].
  destruct (mapM _ ops) as [l|] eqn:El; [|done]. cbn [mbind option_bind]. intros [= <-] Hl Henc.
  destruct (Nat.eqb_spec (length ops) 4) as [H4|]; [|done]. cbn [negb].
  destruct ops as [|o0 [|o1 [|o2 [|o3 [|? ?]]]]]; try discriminate H4. destruct o1; try done. destruct o2; try done.
  cbn [mapM] in El. destruct (LowerOperand sym o0) as [m0|]; [|done]. cbn in El.
  destruct (LowerOperand sym o3) as [m3|]; [|done]. cbn in El. injection El as <-.
  destruct op; try reflexivity; try discriminate Hl; exfalso; destruct Henc as [x Hx];
    unfold getBinaryCodeForInstr in Hx; cbn -[Z.lor Z.land Z.shiftl Z.shiftr w32] in Hx; discriminate Hx.
Qed.

(** ** Copies *)
Section Copy.
Context {M : Type} (B : backend M) (L : tcg_laws B).
Variable helper : string -> CPUDADAOState -> list Z -> Z * CPUDADAOState.
Variable disas : Z -> gen bool.
Hypothesis Hdisas : decodetree_laws disas.
Variable goto_tb : Z -> bool.

Lemma reg_held p a n l r c m f k : fields_named n l = true -> p ∈ insns_decode -> p_name p = n ->
  (m, (f, false, 6%nat, k)) ∈ l -> c = GPRD \/ c = GPRB -> holds m c [MCReg r] p a ->
  getDadaoRegisterNumbering r = Some (get_arg f a).
Proof.
  intros Hf Hp Hn Hin Hc. unfold holds. rewrite (field_named n l p m _ Hf Hp Hn Hin).
  destruct Hc as [-> | ->]; intros (i & Hi & Hh); by rewrite (register_field r i _ Hi Hh).
Qed.
Lemma copy_step op n fd fs c1 c2 rd rs i w fx pc env mem :
  sp_move n fs fd ∈ @isa_moves M -> isa_pattern op = n -> operand_list op = [("RxHb", c1); ("RyHc", c2)] ->
  c1 = GPRD \/ c1 = GPRB -> c2 = GPRD \/ c2 = GPRB ->
  forallb (has_field (desc op)) ["RxHb"; "RyHc"] = true -> (0, 6, 1) ∈ fixed_bits (desc op) ->
  fields_named n [at_hb "RxHb"; at_hc "RyHc"; ("Imm6", ("immu6", false, 6, 0)%nat)] = true ->
  reg_file rd = fd -> reg_file rs = fs ->
  getBinaryCodeForInstr (MkMCInst op [MCReg rd; MCReg rs]) = Some (w, fx) ->
  getDadaoRegisterNumbering rd = Some i -> i <> 0 -> 0 <= pc < 2^64 -> wf_env env -> u64_env env ->
  exists j env', getDadaoRegisterNumbering rs = Some j /\
    run_words B helper disas goto_tb [w] pc env mem = Some (env', mem) /\
    loaded fd i (reg fs j (prologue env)) (w64 (pc + 4)) env env'.
Proof.
  intros Hsp Hn Hops Hc1 Hc2 Hh Hfix Hf Hrd Hrs Henc Hi Hi0 Hpc Hwf Hu.
  assert (Hs : step_implements B helper disas (sp_move n fs fd)).
  { pose proof (moves_implemented B L helper disas Hdisas) as Ha. rewrite Forall_forall in Ha. by apply Ha. }
  destruct (encoded_step B helper disas goto_tb (sp_move n fs fd) op _ w fx pc env mem Hs (eq_sym Hn) Henc Hpc Hwf Hu)
    as (p & Hp & Hpn & _ & Hhold & Hfx & Hstep).
  rewrite Hops in Hhold. rewrite Hn in Hpn. cbn in Hh. rewrite !andb_true_iff in Hh. destruct Hh as (H1 & H2 & _).
  destruct Hhold as [O1 [O2 _]]. specialize (O1 H1). specialize (O2 H2).
  assert (Hs1 : op_size c1 = 1%nat) by (by destruct Hc1 as [-> | ->]).
  assert (Hs2 : op_size c2 = 1%nat) by (by destruct Hc2 as [-> | ->]).
  rewrite Hs1 in O1, O2. rewrite Hs2 in O2. cbn in O1, O2.
  pose proof (reg_held p _ n _ rd c1 "RxHb" "hb" 12 Hf Hp Hpn ltac:(left) Hc1 O1) as Eb.
  pose proof (reg_held p _ n _ rs c2 "RyHc" "hc" 6 Hf Hp Hpn ltac:(right; left) Hc2 O2) as Ec.
  change (get_arg "hb" (pattern_args p w)) with (hb (pattern_args p w)) in Eb.
  change (get_arg "hc" (pattern_args p w)) with (hc (pattern_args p w)) in Ec.
  assert (E6 : immu6 (pattern_args p w) = 1).
  { assert (Hpl : ("immu6", false, 6%nat, 0%nat) ∈ placed p).
    { pose proof (field_named n _ p "Imm6" _ Hf Hp Hpn ltac:(right; right; left)) as Hx.
      unfold field_of in Hx. apply find_some in Hx as [Hx _]. by apply list_elem_of_In. }
    exact (Hfx _ _ _ _ _ Hpl Hfix). }
  pose proof (numbering_range _ _ Eb) as Rb. pose proof (numbering_range _ _ Ec) as Rc.
  rewrite Hi in Eb. injection Eb as Eb. exists (hc (pattern_args p w)).
  assert (Hwp : wf_env (prologue env)) by (by apply wf_prologue).
  cbn [sp_pre sp_sem sp_move next_insn] in Hstep.
  specialize (Hstep ltac:(unfold two_ranges, range_ok; rewrite E6; lia)).
  rewrite spec_r2r_one in Hstep by (done || lia). rewrite <- Eb in Hstep.
  set (v := reg fs (hc (pattern_args p w)) (prologue env)) in *.
  assert (Hup : u64_env (prologue env)) by (by apply u64_prologue).
  exists (set_PC (w64 (pc + 4)) (set_reg fd i v (prologue env))). split; [done|]. split.
  - cbn [run_words]. rewrite Hstep.
    assert (Hq : REG_PC (set_PC (w64 (pc + 4)) (set_reg fd i v (prologue env))) = w64 (pc + 4))
      by (unfold REG_PC, set_PC; apply reg_set_reg_eq; [eauto with cpu|lia]).
    by rewrite Hq, Z.eqb_refl.
  - assert (Hld : loaded fd i (reg fd i env) (REG_PC env) env env) by (by split).
    apply (loaded_step fd i (reg fd i env) (REG_PC env) env env); try done; [lia|apply Hup|apply w64_range].
Qed.

Ltac closes :=
  lazymatch goal with
  | |- _ ∈ isa_moves => unfold isa_moves; repeat (left || right)
  | |- _ ∈ fixed_bits _ => cbn; repeat (left || right)
  | |- fields_named _ _ = true => by vm_compute
  | |- _ => done
  end.
(** CopyPhysReg between any two registers it accepts, encoded and run on
    the emulator, copies the source to the destination and changes nothing
    else. *)
Theorem copyPhysReg_copies rd rs MI sym inst w fx i pc env mem :
  copyPhysReg rd rs = Some MI -> Lower sym MI = Some inst -> getBinaryCodeForInstr inst = Some (w, fx) ->
  getDadaoRegisterNumbering rd = Some i -> i <> 0 -> 0 <= pc < 2^64 -> wf_env env -> u64_env env ->
  exists j env', getDadaoRegisterNumbering rs = Some j /\
    run_words B helper disas goto_tb [w] pc env mem = Some (env', mem) /\
    loaded (reg_file rd) i (reg (reg_file rs) j (prologue env)) (w64 (pc + 4)) env env'.
Proof.
  intros Hc Hl Henc Hi Hi0 Hpc Hwf Hu.
  assert (Hd : forall r, GPRDRegClass r = true -> reg_file r = RD) by (by intros []).
  assert (Hb : forall r, GPRBRegClass r = true -> reg_file r = RB) by (by intros []).
  unfold copyPhysReg in Hc. repeat case_match; try done;
    repeat match goal with H : _ && _ = true |- _ => apply andb_true_iff in H as [? ?] end;
    injection Hc as <-; cbn in Hl; injection Hl as <-;
    repeat match goal with H : _ = true |- _ => first [apply Hd in H|apply Hb in H] end;
    match goal with H1 : reg_file rd = _, H2 : reg_file rs = _ |- _ => rewrite H1, H2 end.
  - eapply (copy_step RD2RD_ORRI "RD2RD" RD RD GPRD GPRD rd rs i w fx); eauto; closes.
  - eapply (copy_step RB2RB_ORRI "RB2RB" RB RB GPRB GPRB rd rs i w fx); eauto; closes.
  - eapply (copy_step RB2RD_ORRI "RB2RD" RD RB GPRD GPRB rd rs i w fx); eauto; closes.
  - eapply (copy_step RD2RB_ORRI "RD2RB" RB RD GPRB GPRD rd rs i w fx); eauto; closes.
Qed.
End Copy.
(** rd8 from rb9. *)
Lemma copyPhysReg_copies_witness : exists env',
  run_words ref_backend no_helper decode_ref (fun _ => true) [0x10a88241] 0x1000 demo_env ∅ = Some (env', ∅) /\
  reg RD 8 env' = reg RB 9 demo_env.
Proof.
  destruct (copyPhysReg_copies ref_backend ref_laws no_helper decode_ref decode_ref_laws (fun _ => true)
    (RDx 8) (RBx 9) _ (fun _ => "") _ 0x10a88241 [] 8 0x1000 demo_env ∅ eq_refl eq_refl ltac:(vm_compute; reflexivity)
    eq_refl ltac:(discriminate) ltac:(lia) demo_wf demo_u64) as (j & env' & Hj & Hr & Hl).
  exists env'. split; [exact Hr|]. injection Hj as <-. exact (ld_reg _ _ _ _ _ _ Hl).
Defined.
