(* ===== verification/LlvmFrame.v ===== *)
(** The LLVM back end: stack frames, DadaoFrameLowering.cpp and
    DadaoRegisterInfo.cpp.

    What LLVM keeps of a function's frame is a record; the placement of its
    objects is done by LLVM's own prologue pass.  [unsigned] values are
    32-bit, [int] values signed 32-bit.  hasReservedCallFrame is LLVM's.
    [None] is a failed assertion or an llvm_unreachable. *)
From S2P Require Import Prelude Cpu LlvmData LlvmMc LlvmInstr.
Local Open Scope Z_scope.

Record MachineFrameInfo := FrameInfo {
  StackSize : Z;
  MaxAlign : Z;
  MaxCallFrameSize : Z;
  hasVarSizedObjects : bool;
  adjustsStack : bool;
  getObjectOffset : Z -> Z }.
Record DadaoMachineFunctionInfo := FuncInfo { VarArgsSaveSize : Z; SpOffset : Z }.

Definition alignTo (v a : Z) : Z := (v + a - 1) / a * a.

Section Frame.
Variable hasReservedCallFrame : bool.
(** TRI->hasStackRealignment(MF) *)
Variable hasStackRealignment : bool.

(** The frame and the values setStackSize and setMaxCallFrameSize leave. *)
Definition determineFrameLayout (MFI : MachineFrameInfo) : MachineFrameInfo :=
  let FrameSize := w32 (StackSize MFI) in
  let StackAlign := if hasStackRealignment then MaxAlign MFI else 8 in
  let MaxCall := w32 (MaxCallFrameSize MFI) in
  let MaxCall := if hasVarSizedObjects MFI then w32 (alignTo MaxCall StackAlign) else MaxCall in
  let FrameSize := if negb (hasReservedCallFrame && adjustsStack MFI) then w32 (FrameSize + MaxCall) else FrameSize in
  FrameInfo (w32 (alignTo FrameSize StackAlign)) (MaxAlign MFI) MaxCall (hasVarSizedObjects MFI) (adjustsStack MFI)
    (getObjectOffset MFI).

(** ADJDYNALLOC becomes an addi of the maximum call frame size; [None] is
    another instruction, which is left. *)
Definition replaceAdjDynAlloc (MFI : MachineFrameInfo) (Dst Src : Register) : MachineInstr :=
  MkMI ADDI_RRII [MO_Register Dst; MO_Register Src; MO_Immediate (MaxCallFrameSize MFI)].

(** The instructions in order, and the frame. *)
Definition emitPrologue (MFI : MachineFrameInfo) (FI : DadaoMachineFunctionInfo) : MachineFrameInfo * list MachineInstr :=
  let MFI := determineFrameLayout MFI in
  (MFI,
   [MkMI STO_RB_RRII [MO_Register RBFP; MO_Register RBSP; MO_Immediate (SpOffset FI)];
    MkMI ADDI_RB_RRII [MO_Register RBFP; MO_Register RBSP; MO_Immediate 0]]
   ++ (if StackSize MFI =? 0 then []
       else [MkMI ADDI_RB_RRII [MO_Register RBSP; MO_Register RBSP; MO_Immediate (- StackSize MFI)]]))%list.
Definition emitEpilogue (FI : DadaoMachineFunctionInfo) : list MachineInstr :=
  [MkMI ADDI_RB_RRII [MO_Register RBSP; MO_Register RBFP; MO_Immediate 0];
   MkMI LDO_RB_RRII [MO_Register RBFP; MO_Register RBFP; MO_Immediate (SpOffset FI)]].

(** hasBasePointer, and the saved registers: the fixed objects created, as
    (size, offset), and whether the base register is left out. *)
Definition hasBasePointer (MFI : MachineFrameInfo) : bool := hasStackRealignment && hasVarSizedObjects MFI.
Definition determineCalleeSaves (MFI : MachineFrameInfo) (FI : DadaoMachineFunctionInfo)
    : DadaoMachineFunctionInfo * list (Z * Z) * bool :=
  let Offset := s32 (w32 (- VarArgsSaveSize FI - 8)) in
  (FuncInfo (VarArgsSaveSize FI) Offset,
   (8, Offset) :: (if hasBasePointer MFI then [(8, s32 (w32 (Offset - 8)))] else []),
   hasBasePointer MFI).

(** ** Frame indices *)
Definition getFrameRegister : Register := RBFP.
Definition getBaseRegister : Register := RBx 6.
Definition isMemRRIIOpcode (op : Opcode) : bool :=
  match op with
  | LDBS_RRII | LDBU_RRII | LDWS_RRII | LDWU_RRII | LDTS_RRII | LDTU_RRII | LDO_RRII
  | STB_RRII | STW_RRII | STT_RRII | STO_RRII => true
  | _ => false
  end.
Definition getRRRIOpcodeVariant (op : Opcode) : option Opcode :=
  match op with
  | LDBS_RRII => Some LDMBS_RRRI | LDBU_RRII => Some LDMBU_RRRI | LDWS_RRII => Some LDMWS_RRRI
  | LDWU_RRII => Some LDMWU_RRRI | LDTS_RRII => Some LDMTS_RRRI | LDTU_RRII => Some LDMTU_RRRI
  | LDO_RRII => Some LDMO_RD_RRRI | LDO_RB_RRII => Some LDMO_RB_RRRI
  | STB_RRII => Some STMB_RRRI | STW_RRII => Some STMW_RRRI | STT_RRII => Some STMT_RRRI
  | STO_RRII => Some STMO_RD_RRRI | STO_RB_RRII => Some STMO_RB_RRRI
  | _ => None
  end.

(** The register the frame index becomes and the offset. *)
Definition frame_address (MFI : MachineFrameInfo) (HasFP : bool) (FrameIndex Imm : Z) : Register * Z :=
  let Offset := s32 (w32 (getObjectOffset MFI FrameIndex + Imm)) in
  let Offset :=
    if negb HasFP || (hasStackRealignment && (0 <=? FrameIndex)) then s32 (w32 (Offset + StackSize MFI)) else Offset in
  let FrameReg :=
    if 0 <=? FrameIndex then
      if hasBasePointer MFI then getBaseRegister
      else if hasStackRealignment then RBSP else getFrameRegister
    else getFrameRegister in
  (FrameReg, Offset).
(** The instructions that replace [MI]; [n] is the position of its frame
    index, followed by an immediate; [Reg] is the register the scavenger
    found. *)
Definition set_operands (ops : list MachineOperand) (n : nat) (a b : MachineOperand) : list MachineOperand :=
  <[S n := b]> (<[n := a]> ops).
Definition eliminateFrameIndex (MFI : MachineFrameInfo) (HasFP : bool) (Reg : Register) (MI : MachineInstr) (n : nat)
    : option (list MachineInstr) :=
  match mi_operands MI !! n, mi_operands MI !! S n with
  | Some (MO_FrameIndex FrameIndex), Some (MO_Immediate Imm) =>
      let '(FrameReg, Offset) := frame_address MFI HasFP FrameIndex Imm in
      if isInt 12 Offset then
        Some [MkMI (mi_opcode MI) (set_operands (mi_operands MI) n (MO_Register FrameReg) (MO_Immediate Offset))]
      else
        let HasNegOffset := Offset <? 0 in
        let Offset := if HasNegOffset then s32 (w32 (- Offset)) else Offset in
        let load :=
          if negb (isInt 16 Offset) then
            [MkMI (SETZW_RWII WPOS_1) [MO_Register Reg; MO_Immediate (Z.shiftr (w32 Offset) 16)];
             MkMI (ORW_RWII WPOS_0) [MO_Register Reg; MO_Register Reg; MO_Immediate (Z.land Offset 0xFFFF)]]
          else [MkMI ADDI_RB_RRII [MO_Register Reg; MO_Immediate 0; MO_Immediate Offset]] in
        if bool_decide (mi_opcode MI = ADDI_RRII) then
          dst ← mi_operands MI !! 0%nat;
          Some (load ++ [MkMI (if HasNegOffset then SUB_RB_ORRR else ADD_RB_ORRR)
                           [dst; MO_Register FrameReg; MO_Register Reg]])%list
        else if isMemRRIIOpcode (mi_opcode MI) then
          op ← getRRRIOpcodeVariant (mi_opcode MI);
          Some (load ++ [MkMI op (set_operands (mi_operands MI) n (MO_Register FrameReg) (MO_Register Reg))])%list
        else None
  | _, _ => None
  end.
End Frame.

(** ** Registers *)
Definition callee_saved (r : Register) : bool := match r with RDx i => (32 <=? i) && (i <=? 63) | _ => false end.
(** set (I, E) sets the registers from I to before E. *)
Definition getReservedRegs (r : Register) : bool :=
  match r with
  | RDx i | RBx i => (0 <=? i) && (i <? 8)
  | RDZERO | RBSP | RBFP | RAVV | RASP => true
  | _ => false
  end.
