(* ===== verification/LlvmFrameProps.v ===== *)
(** The theorems on LLVM's stack frames. *)
From S2P Require Import Prelude Opcodes Cpu Tcg Translate Run RefBackend IsaArith IsaMove IsaMem IsaControl RetStack.
From S2P Require Import Frame Decode Step Isa IsaProps Disas DisasProps Gas GasEncode GasExec GasMoves.
From S2P Require Import LlvmData LlvmMc LlvmLower LlvmEncode LlvmExec LlvmInstr LlvmInstrProps LlvmFrame.
Local Open Scope string_scope.
Local Open Scope Z_scope.

(** ** Layout *)
Lemma alignTo_spec v a : 0 < a -> v <= alignTo v a < v + a /\ alignTo v a mod a = 0.
Proof. intros Ha. unfold alignTo. split; [Z.div_mod_to_equations; nia|]. apply Z.mod_mul. lia. Qed.

Section Exec.
Context {M : Type} (B : backend M) (L : tcg_laws B).
Variable helper : string -> CPUDADAOState -> list Z -> Z * CPUDADAOState.
Variable disas : Z -> gen bool.
Hypothesis Hdisas : decodetree_laws disas.
Variable goto_tb : Z -> bool.
Abbreviation cpu_step := (step B helper disas goto_tb).
Abbreviation run := (run_words B helper disas goto_tb).

Lemma run_cons w ws pc env mem env' mem' : cpu_step pc w env mem = Some (RExit env' mem') ->
  REG_PC env' = w64 (pc + 4) -> run (w :: ws) pc env mem = run ws (w64 (pc + 4)) env' mem'.
Proof. intros H Hp. cbn [run_words]. by rewrite H, Hp, Z.eqb_refl. Qed.
Lemma memory_step sp : sp ∈ isa_memory B -> step_implements B helper disas sp.
Proof.
  intros Hsp. pose proof (memory_implemented B L helper disas Hdisas) as Ha. rewrite Forall_forall in Ha. by apply Ha.
Qed.

(** One step that writes one register and nothing else. *)
Lemma wrote f i v pc env : 0 <= i < 64 -> i <> 0 -> 0 <= v < 2^64 -> wf_env env -> u64_env env ->
  loaded f i v (w64 (pc + 4)) env (set_PC (w64 (pc + 4)) (set_reg f i v (prologue env))).
Proof.
  intros Hi Hi0 Hv Hwf Hu. apply (loaded_step f i (reg f i env) (REG_PC env)); try done. apply w64_range.
Qed.
Lemma kept_step f i pc env : 0 <= i < 64 -> i <> 0 -> wf_env env -> u64_env env ->
  loaded f i (reg f i env) (w64 (pc + 4)) env (set_PC (w64 (pc + 4)) (prologue env)).
Proof.
  intros Hi Hi0 Hwf Hu. assert (Hw : wf_env (prologue env)) by (by apply wf_prologue). split; unfold set_PC.
  - eauto with cpu.
  - apply u64_set_reg; [by apply u64_prologue|apply w64_range].
  - unfold REG_PC. by apply reg_set_reg_eq.
  - rewrite reg_set_reg_ne, reg_prologue by (lia || (right; lia)). done.
  - intros g j Hj Hne. by rewrite reg_set_reg_ne, reg_prologue by (lia || (right; lia)).
Qed.

(** rb[i] := rb[j] + imm *)
Lemma addi_rb_step r1 r2 i j v w fx pc env mem :
  getBinaryCodeForInstr (MkMCInst ADDI_RB_RRII [MCReg r1; MCReg r2; MCImm v]) = Some (w, fx) ->
  getDadaoRegisterNumbering r1 = Some i -> getDadaoRegisterNumbering r2 = Some j -> i <> 0 -> j <> 0 ->
  0 <= pc < 2^64 -> wf_env env -> u64_env env ->
  exists env', cpu_step pc w env mem = Some (RExit env' mem) /\
    loaded RB i (w64 (reg RB j env + sext 12 v)) (w64 (pc + 4)) env env'.
Proof.
  intros Henc Hi Hj Hi0 Hj0 Hpc Hwf Hu. pose proof (numbering_range _ _ Hi). pose proof (numbering_range _ _ Hj).
  assert (Hrow : Row "ADDIrb" always (fun _ => spec_rrii RB (fun x i => w64 (x + i)) imms12) ∈ isa_alu).
  { unfold isa_alu, isa_arith. cbv zeta. cbn [app]. repeat first [left | right]. }
  assert (Hf : fields_named "ADDIrb" [at_ha "RxHa"; at_hb "RyHb"; ("Imm12", ("imms12", true, 12, 0)%nat)] = true)
    by (by vm_compute).
  destruct (encoded_step B helper disas goto_tb _ ADDI_RB_RRII _ w fx pc env mem
    (alu_step B L helper disas Hdisas _ Hrow) eq_refl Henc Hpc Hwf Hu) as (p & Hp & Hpn & _ & Hold & _ & Hst).
  destruct Hold as (O1 & O2 & O3 & _). specialize (O1 eq_refl). specialize (O2 eq_refl). specialize (O3 eq_refl).
  cbn [op_size take drop] in O1, O2, O3. rewrite ?drop_0, ?take_0 in O1, O2, O3.
  pose proof (reg_held p _ "ADDIrb" _ r1 GPRB "RxHa" "ha" 18 Hf Hp Hpn ltac:(left) ltac:(by right) O1) as Ea.
  pose proof (reg_held p _ "ADDIrb" _ r2 GPRB "RyHb" "hb" 12 Hf Hp Hpn ltac:(right; left) ltac:(by right) O2) as Eb.
  unfold holds in O3. rewrite (field_named "ADDIrb" _ p "Imm12" _ Hf Hp Hpn ltac:(right; right; left)) in O3.
  rewrite Hi in Ea. rewrite Hj in Eb. injection Ea as Ea. injection Eb as Eb.
  specialize (Hst I). cbn [sp_sem sp_alu isa_spec next_insn] in Hst. unfold spec_rrii, write in Hst.
  change (ha (pattern_args p w)) with (get_arg "ha" (pattern_args p w)) in Hst.
  change (hb (pattern_args p w)) with (get_arg "hb" (pattern_args p w)) in Hst.
  change (imms12 (pattern_args p w)) with (get_arg "imms12" (pattern_args p w)) in Hst.
  unfold field_holds in O3. change (Z.of_nat 12) with 12 in O3.
  rewrite O3, <- Ea, <- Eb, (proj2 (Z.eqb_neq i 0) Hi0), reg_prologue in Hst by done.
  eexists. split; [exact Hst|]. apply wrote; try done. apply w64_range.
Qed.

(** The base and offset of a load or store of rb. *)
Lemma memory_held op n r1 r2 i j v w fx sp pc env mem :
  sp ∈ isa_memory B -> sp_name sp = isa_pattern op -> isa_pattern op = n ->
  fields_named n [at_ha "RxHa"] = true ->
  operand_list op = [("RxHa", GPRB); ("src", MEM_RRII)] \/ operand_list op = [("RxHa", GPRB); ("dst", MEM_RRII)] ->
  has_field (desc op) "RxHa" = true -> forallb (fun o => has_field (desc op) (fst o)) (operand_list op) = true ->
  getBinaryCodeForInstr (MkMCInst op [MCReg r1; MCReg r2; MCImm v]) = Some (w, fx) ->
  getDadaoRegisterNumbering r1 = Some i -> getDadaoRegisterNumbering r2 = Some j ->
  0 <= pc < 2^64 -> wf_env env -> u64_env env ->
  exists a, ha a = i /\ hb a = j /\ imms12 a = v /\
    (sp_pre sp pc a (prologue env) -> cpu_step pc w env mem = Some (sp_sem sp pc a (prologue env) mem)).
Proof.
  intros Hsp Hspn Hn Hf Hops Hh Hall Henc Hi Hj Hpc Hwf Hu.
  destruct (encoded_step B helper disas goto_tb sp op _ w fx pc env mem (memory_step sp Hsp) Hspn Henc Hpc Hwf Hu)
    as (p & Hp & Hpn & _ & Hold & _ & Hst). rewrite Hn in Hpn. exists (pattern_args p w).
  assert (Hm : exists m, operand_list op = [("RxHa", GPRB); (m, MEM_RRII)]) by (destruct Hops as [-> | ->]; eauto).
  destruct Hm as [m Hm]. rewrite Hm in Hold, Hall. destruct Hold as (O1 & O2 & _). specialize (O1 Hh).
  cbn in Hall. rewrite !andb_true_iff in Hall. destruct Hall as (_ & Hm' & _). specialize (O2 Hm').
  cbn [op_size take drop] in O1, O2. rewrite ?drop_0, ?take_0 in O1, O2.
  pose proof (reg_held p _ n _ r1 GPRB "RxHa" "ha" 18 Hf Hp Hpn ltac:(left) ltac:(by right) O1) as Ea.
  rewrite Hi in Ea. injection Ea as Ea. cbn [holds] in O2. destruct O2 as [Eb Ev]. rewrite Hj in Eb. injection Eb as Eb.
  split; [by symmetry|]. split; [by symmetry|]. split; [by symmetry|done].
Qed.
Ltac in_memory := unfold isa_memory; repeat (left || right).
Lemma sto_rb_step r1 r2 i j v w fx pc env mem mem' :
  getBinaryCodeForInstr (MkMCInst STO_RB_RRII [MCReg r1; MCReg r2; MCImm v]) = Some (w, fx) ->
  getDadaoRegisterNumbering r1 = Some i -> getDadaoRegisterNumbering r2 = Some j -> i <> 0 -> j <> 0 ->
  0 <= pc < 2^64 -> wf_env env -> u64_env env ->
  b_st B MO_TEUQ (w64 (reg RB j env + v)) (reg RB i env) mem = Some mem' ->
  cpu_step pc w env mem = Some (RExit (set_PC (w64 (pc + 4)) (prologue env)) mem').
Proof.
  intros Henc Hi Hj Hi0 Hj0 Hpc Hwf Hu Hst.
  destruct (memory_held STO_RB_RRII "STOrb" r1 r2 i j v w fx (sp_st B "STOrb" RB MO_TEUQ) pc env mem)
    as (a & Ha & Hb & Hv & Hs); try done; [in_memory|by right|].
  rewrite (Hs I). cbn [sp_sem sp_st]. unfold spec_st. rewrite Ha, Hb, Hv, !reg_prologue, Hst by done. done.
Qed.
Lemma ldo_rb_step r1 r2 i j v x w fx pc env mem :
  getBinaryCodeForInstr (MkMCInst LDO_RB_RRII [MCReg r1; MCReg r2; MCImm v]) = Some (w, fx) ->
  getDadaoRegisterNumbering r1 = Some i -> getDadaoRegisterNumbering r2 = Some j -> i <> 0 -> j <> 0 ->
  0 <= pc < 2^64 -> wf_env env -> u64_env env -> 0 <= x < 2^64 ->
  b_ld B MO_TEUQ (w64 (reg RB j env + v)) mem = Some x ->
  exists env', cpu_step pc w env mem = Some (RExit env' mem) /\ loaded RB i x (w64 (pc + 4)) env env'.
Proof.
  intros Henc Hi Hj Hi0 Hj0 Hpc Hwf Hu Hx Hld. pose proof (numbering_range _ _ Hi).
  destruct (memory_held LDO_RB_RRII "LDOrb" r1 r2 i j v w fx (sp_ld B "LDOrb" RB MO_TEUQ) pc env mem)
    as (a & Ha & Hb & Hv & Hs); try done; [in_memory|by left|].
  eexists. split.
  - rewrite (Hs I). cbn [sp_sem sp_ld]. unfold spec_ld. rewrite Hb, Hv, reg_prologue, Hld by done.
    cbn [next_insn]. unfold load_reg. rewrite Ha, (proj2 (Z.eqb_neq i 0) Hi0). reflexivity.
  - by apply wrote.
Qed.

(** The words of a sequence of machine instructions. *)
Definition code (l : list MachineInstr) : option (list Z) :=
  mapM (fun MI => inst ← Lower (fun _ => "") MI; fst <$> getBinaryCodeForInstr inst) l.
Lemma code_nil ws : code [] = Some ws -> ws = [].
Proof. by intros [= <-]. Qed.
Lemma code_cons MI l ws : code (MI :: l) = Some ws ->
  exists inst w fx ws', Lower (fun _ => "") MI = Some inst /\ getBinaryCodeForInstr inst = Some (w, fx) /\
    code l = Some ws' /\ ws = w :: ws'.
Proof.
  unfold code. cbn [mapM]. destruct (Lower _ MI) as [inst|]; [|done]. cbn [mbind option_bind].
  destruct (getBinaryCodeForInstr inst) as [[w fx]|] eqn:E; [|done]. cbn. destruct (mapM _ l) as [ws'|]; [|done].
  cbn. intros [= <-]. by exists inst, w, fx, ws'.
Qed.

(** Two states with the same registers but for some of rb. *)
Definition same_but (l : list Z) (env env' : CPUDADAOState) : Prop :=
  forall g j, j <> 0 -> (g = RB -> j ∉ l) -> reg g j env' = reg g j env.
Variables (reserved realigned : bool) (writable : Z -> Prop).
Hypothesis Hmem : octa_mem B writable.

(** The prologue. *)
Lemma frame_prologue_runs MFI FI MFI' ins ws pc env mem :
  emitPrologue reserved realigned MFI FI = (MFI', ins) -> code ins = Some ws ->
  0 <= pc < 2^64 -> wf_env env -> u64_env env -> writable (w64 (reg RB 1 env + SpOffset FI)) ->
  exists env' mem', run ws pc env mem = Some (env', mem') /\ wf_env env' /\ u64_env env' /\
    reg RB 2 env' = reg RB 1 env /\
    reg RB 1 env' = w64 (reg RB 1 env + sext 12 (- StackSize MFI')) /\ same_but [1; 2] env env' /\
    b_st B MO_TEUQ (w64 (reg RB 1 env + SpOffset FI)) (reg RB 2 env) mem = Some mem'.
Proof.
  intros Hpro Hcode Hpc Hwf Hu Hwr. unfold emitPrologue in Hpro. cbv zeta in Hpro.
  apply pair_equal_spec in Hpro as [<- <-].
  set (MFI' := determineFrameLayout reserved realigned MFI) in *. cbn [app] in Hcode.
  apply code_cons in Hcode as (i1 & w1 & f1 & ws1 & L1 & E1 & Hcode & ->). injection L1 as <-.
  apply code_cons in Hcode as (i2 & w2 & f2 & ws2 & L2 & E2 & Hcode & ->). injection L2 as <-.
  destruct (om_store _ _ Hmem (w64 (reg RB 1 env + SpOffset FI)) (reg RB 2 env) mem Hwr) as [mem' Hst].
  pose proof (sto_rb_step RBFP RBSP 2 1 _ w1 f1 pc env mem mem' E1 eq_refl eq_refl ltac:(done) ltac:(done) Hpc Hwf Hu Hst) as S1.
  pose proof (kept_step RB 2 pc env ltac:(lia) ltac:(done) Hwf Hu) as K1.
  set (e1 := set_PC (w64 (pc + 4)) (prologue env)) in *. clearbody e1.
  assert (K1' : reg RB 1 e1 = reg RB 1 env) by (apply (ld_other _ _ _ _ _ _ K1); [done|congruence]).
  destruct (addi_rb_step RBFP RBSP 2 1 0 w2 f2 (w64 (pc + 4)) e1 mem' E2 eq_refl eq_refl ltac:(done) ltac:(done)
    (w64_range _) (ld_wf _ _ _ _ _ _ K1) (ld_u64 _ _ _ _ _ _ K1)) as (e2 & S2 & K2).
  rewrite K1' in K2. replace (w64 (reg RB 1 env + sext 12 0)) with (reg RB 1 env) in K2
    by (rewrite (sext_id 12 0), Z.add_0_r, w64_id by (lia || apply Hu); done).
  assert (R2 : forall g j, j <> 0 -> (g = RB -> j <> 2) -> reg g j e2 = reg g j env).
  { intros g j Hj Hg. rewrite (ld_other _ _ _ _ _ _ K2) by (try done; intros [= -> ->]; by apply Hg).
    apply (ld_other _ _ _ _ _ _ K1); [done|]. intros [= -> ->]. by apply Hg. }
  rewrite (run_cons w1 _ pc env mem e1 mem' S1 (ld_pc _ _ _ _ _ _ K1)).
  rewrite (run_cons w2 _ _ e1 mem' e2 mem' S2 (ld_pc _ _ _ _ _ _ K2)).
  destruct (Z.eqb_spec (StackSize MFI') 0) as [E0|E0].
  - apply code_nil in Hcode as ->. exists e2, mem'. split; [done|]. split; [apply K2|]. split; [apply K2|].
    split; [apply (ld_reg _ _ _ _ _ _ K2)|]. split; [|split; [|done]].
    + replace (sext 12 (- StackSize MFI')) with 0 by (by rewrite E0).
      rewrite Z.add_0_r, w64_id by apply Hu. by apply R2.
    + intros g j Hj Hg. apply R2; [done|]. intros ->. specialize (Hg eq_refl). set_solver.
  - apply code_cons in Hcode as (i3 & w3 & f3 & ws3 & L3 & E3 & Hcode & ->). injection L3 as <-. apply code_nil in Hcode as ->.
    destruct (addi_rb_step RBSP RBSP 1 1 _ w3 f3 (w64 (w64 (pc + 4) + 4)) e2 mem' E3 eq_refl eq_refl ltac:(done) ltac:(done)
      (w64_range _) (ld_wf _ _ _ _ _ _ K2) (ld_u64 _ _ _ _ _ _ K2)) as (e3 & S3 & K3).
    rewrite (run_cons w3 _ _ e2 mem' e3 mem' S3 (ld_pc _ _ _ _ _ _ K3)).
    exists e3, mem'. split; [done|]. split; [apply K3|]. split; [apply K3|].
    assert (R3 : forall g j, j <> 0 -> (g = RB -> j <> 1) -> reg g j e3 = reg g j e2).
    { intros g j Hj Hg. apply (ld_other _ _ _ _ _ _ K3); [done|]. intros [= -> ->]. by apply Hg. }
    split; [rewrite R3 by done; apply (ld_reg _ _ _ _ _ _ K2)|]. split; [|split; [|done]].
    + rewrite (ld_reg _ _ _ _ _ _ K3). by rewrite R2 by done.
    + intros g j Hj Hg. rewrite R3, R2; try done; intros ->; specialize (Hg eq_refl); set_solver.
Qed.

(** The epilogue, from any state with the frame pointer and the saved slot. *)
Lemma frame_epilogue_runs FI ws fp pc env mem :
  code (emitEpilogue FI) = Some ws -> 0 <= pc < 2^64 -> wf_env env -> u64_env env -> 0 <= fp < 2^64 ->
  b_ld B MO_TEUQ (w64 (reg RB 2 env + SpOffset FI)) mem = Some fp ->
  exists env', run ws pc env mem = Some (env', mem) /\ reg RB 1 env' = reg RB 2 env /\ reg RB 2 env' = fp /\
    same_but [1; 2] env env'.
Proof.
  intros Hcode Hpc Hwf Hu Hfp Hld. unfold emitEpilogue in Hcode.
  apply code_cons in Hcode as (i1 & w1 & f1 & ws1 & L1 & E1 & Hcode & ->). injection L1 as <-.
  apply code_cons in Hcode as (i2 & w2 & f2 & ws2 & L2 & E2 & Hcode & ->). injection L2 as <-. apply code_nil in Hcode as ->.
  destruct (addi_rb_step RBSP RBFP 1 2 0 w1 f1 pc env mem E1 eq_refl eq_refl ltac:(done) ltac:(done) Hpc Hwf Hu)
    as (e1 & S1 & K1).
  replace (w64 (reg RB 2 env + sext 12 0)) with (reg RB 2 env) in K1
    by (rewrite (sext_id 12 0), Z.add_0_r, w64_id by (lia || apply Hu); done).
  assert (R1 : forall g j, j <> 0 -> (g = RB -> j <> 1) -> reg g j e1 = reg g j env).
  { intros g j Hj Hg. apply (ld_other _ _ _ _ _ _ K1); [done|]. intros [= -> ->]. by apply Hg. }
  destruct (ldo_rb_step RBFP RBFP 2 2 (SpOffset FI) fp w2 f2 (w64 (pc + 4)) e1 mem E2 eq_refl eq_refl ltac:(done) ltac:(done)
    (w64_range _) (ld_wf _ _ _ _ _ _ K1) (ld_u64 _ _ _ _ _ _ K1) Hfp) as (e2 & S2 & K2).
  { by rewrite R1 by done. }
  exists e2. rewrite (run_cons w1 _ pc env mem e1 mem S1 (ld_pc _ _ _ _ _ _ K1)).
  rewrite (run_cons w2 _ _ e1 mem e2 mem S2 (ld_pc _ _ _ _ _ _ K2)). split; [done|].
  assert (R2 : forall g j, j <> 0 -> (g = RB -> j <> 2) -> reg g j e2 = reg g j e1).
  { intros g j Hj Hg. apply (ld_other _ _ _ _ _ _ K2); [done|]. intros [= -> ->]. by apply Hg. }
  split; [rewrite R2 by done; apply (ld_reg _ _ _ _ _ _ K1)|]. split; [apply (ld_reg _ _ _ _ _ _ K2)|].
  intros g j Hj Hg. rewrite R2, R1; try done; intros ->; specialize (Hg eq_refl); set_solver.
Qed.

(** a function's frame on the emulator.  The prologue, encoded and run,
    stores the caller's frame pointer in the slot at SpOffset, makes the old
    stack pointer the frame pointer and lowers the stack pointer by the frame
    size as far as it fits twelve bits (a frame of more than 2048 bytes does
    not).  Whatever runs then, if it leaves the frame pointer and the slot,
    the epilogue gives the caller its stack and frame pointers back.  No
    other register changes. *)
Theorem frame_roundtrip MFI FI MFI' ins wp we pc env mem :
  emitPrologue reserved realigned MFI FI = (MFI', ins) -> code ins = Some wp -> code (emitEpilogue FI) = Some we ->
  0 <= pc < 2^64 -> wf_env env -> u64_env env -> writable (w64 (reg RB 1 env + SpOffset FI)) ->
  let slot := w64 (reg RB 1 env + SpOffset FI) in
  exists env1 mem1, run wp pc env mem = Some (env1, mem1) /\
    reg RB 2 env1 = reg RB 1 env /\ reg RB 1 env1 = w64 (reg RB 1 env + sext 12 (- StackSize MFI')) /\
    (0 <= StackSize MFI' <= 2048 -> reg RB 1 env1 = w64 (reg RB 1 env - StackSize MFI')) /\
    same_but [1; 2] env env1 /\ b_ld B MO_TEUQ slot mem1 = Some (reg RB 2 env) /\
    forall pc2 env2 mem2, 0 <= pc2 < 2^64 -> wf_env env2 -> u64_env env2 ->
      reg RB 2 env2 = reg RB 2 env1 -> b_ld B MO_TEUQ slot mem2 = b_ld B MO_TEUQ slot mem1 ->
      exists env3, run we pc2 env2 mem2 = Some (env3, mem2) /\
        reg RB 1 env3 = reg RB 1 env /\ reg RB 2 env3 = reg RB 2 env /\ same_but [1; 2] env2 env3.
Proof.
  intros Hpro Hwp Hwe Hpc Hwf Hu Hwr slot.
  destruct (frame_prologue_runs MFI FI MFI' ins wp pc env mem Hpro Hwp Hpc Hwf Hu Hwr)
    as (env1 & mem1 & Hr & _ & _ & H2 & H1 & Hs & Hst).
  pose proof (om_same _ _ Hmem _ _ _ _ Hwr (Hu RB 2) Hst) as Hld. fold slot in Hld.
  exists env1, mem1. split; [done|]. split; [done|]. split; [done|]. split.
  { intros Hz. rewrite H1, (sext_id 12) by lia. f_equal. }
  split; [done|]. split; [done|]. intros pc2 env2 mem2 Hpc2 Hwf2 Hu2 Hfp Hslot.
  destruct (frame_epilogue_runs FI we (reg RB 2 env) pc2 env2 mem2 Hwe Hpc2 Hwf2 Hu2 (Hu RB 2)) as (env3 & Hr3 & E1 & E2 & E3).
  { rewrite Hfp, H2. fold slot. by rewrite Hslot. }
  exists env3. split; [done|]. rewrite E1, Hfp, H2. done.
Qed.
End Exec.

(** The frame size of determineFrameLayout: the objects and the largest
    call frame fit, it is a multiple of the alignment, and less than one
    alignment is wasted; nothing wraps below 2^31. *)
Theorem frame_layout (reserved realigned : bool) MFI :
  let a := if realigned then MaxAlign MFI else 8 in
  let MFI' := determineFrameLayout reserved realigned MFI in
  let outgoing := if reserved && adjustsStack MFI then 0 else MaxCallFrameSize MFI' in
  0 < a <= 2^16 -> 0 <= StackSize MFI < 2^30 -> 0 <= MaxCallFrameSize MFI < 2^30 ->
  StackSize MFI + outgoing <= StackSize MFI' < StackSize MFI + outgoing + a /\ StackSize MFI' mod a = 0 /\
  MaxCallFrameSize MFI <= MaxCallFrameSize MFI' /\
  (hasVarSizedObjects MFI = true -> MaxCallFrameSize MFI' mod a = 0).
Proof.
  intros a MFI' outgoing Ha Hs Hm. unfold outgoing, MFI', determineFrameLayout. cbn [StackSize MaxCallFrameSize].
  fold a. rewrite (w32_id (StackSize MFI)), (w32_id (MaxCallFrameSize MFI)) by lia.
  destruct (alignTo_spec (MaxCallFrameSize MFI) a ltac:(lia)) as [H1 H2].
  set (mc := if hasVarSizedObjects MFI then w32 (alignTo (MaxCallFrameSize MFI) a) else MaxCallFrameSize MFI).
  assert (Hmc : MaxCallFrameSize MFI <= mc < MaxCallFrameSize MFI + a /\ (hasVarSizedObjects MFI = true -> mc mod a = 0)).
  { unfold mc. destruct (hasVarSizedObjects MFI); [|split; [lia|done]]. rewrite w32_id by lia. done. }
  clearbody mc. assert (Hfs : exists fs, (if negb (reserved && adjustsStack MFI) then w32 (StackSize MFI + mc) else StackSize MFI)
      = StackSize MFI + fs /\ fs = (if reserved && adjustsStack MFI then 0 else mc)).
  { destruct (reserved && adjustsStack MFI); cbn [negb]; eexists; (split; [|reflexivity]); [lia|apply w32_id; lia]. }
  destruct Hfs as (fs & -> & ->). set (fs := if _ && _ then 0 else mc) in *.
  assert (0 <= fs < 2^30 + 2^16) by (unfold fs; destruct (_ && _); lia).
  destruct (alignTo_spec (StackSize MFI + fs) a ltac:(lia)) as [H3 H4]. rewrite w32_id by lia.
  split; [lia|]. split; [done|]. split; [lia|]. apply Hmc.
Qed.

(** ** Frame indices *)

(** A frame index near enough becomes a base register and an offset that
    give the address of the object: for a fixed object from the frame
    pointer, for any other from the frame pointer or, in a realigned frame
    without dynamic allocation, from the stack pointer the prologue left. *)
Theorem frame_index_address (realigned : bool) MFI Reg MI n i Imm ms env :
  mi_operands MI !! n = Some (MO_FrameIndex i) -> mi_operands MI !! S n = Some (MO_Immediate Imm) ->
  eliminateFrameIndex realigned MFI true Reg MI n = Some ms ->
  - 2^30 <= getObjectOffset MFI i + Imm < 2^30 -> 0 <= StackSize MFI < 2^30 ->
  hasBasePointer realigned MFI = false -> reg RB 1 env = w64 (reg RB 2 env - StackSize MFI) ->
  isInt 12 (snd (frame_address realigned MFI true i Imm)) = true ->
  exists r k off, ms = [MkMI (mi_opcode MI) (set_operands (mi_operands MI) n (MO_Register r) (MO_Immediate off))] /\
    getDadaoRegisterNumbering r = Some k /\ reg_file r = RB /\ isInt 12 off = true /\
    w64 (reg RB k env + off) = w64 (reg RB 2 env + getObjectOffset MFI i + Imm).
Proof.
  intros Ho1 Ho2 He Hoff Hst Hb Hsp Hfit. unfold eliminateFrameIndex in He. rewrite Ho1, Ho2 in He.
  destruct (frame_address realigned MFI true i Imm) as [r off] eqn:Ea. cbn [snd] in Hfit. rewrite Hfit in He.
  injection He as <-. exists r.
  assert (Hs : forall v, - 2^31 <= v < 2^31 -> s32 (w32 v) = v).
  { intros v Hv. unfold s32. rewrite (sext_congr 32 _ v) by (lia || (unfold w32; apply Z.mod_mod; lia)).
    by apply sext_id. }
  unfold frame_address in Ea. rewrite (Hs (getObjectOffset MFI i + Imm)), Hb in Ea by lia. cbn [negb orb] in Ea.
  destruct realigned; cbn [andb] in Ea; [destruct (0 <=? i)|destruct (0 <=? i)]; injection Ea as <- <-.
  - exists 1, (getObjectOffset MFI i + Imm + StackSize MFI). rewrite Hs in * by lia. repeat (split; [done|]).
    rewrite Hsp, w64_add_l. f_equal. lia.
  - exists 2, (getObjectOffset MFI i + Imm). repeat (split; [done|]). f_equal. lia.
  - exists 2, (getObjectOffset MFI i + Imm). repeat (split; [done|]). f_equal. lia.
  - exists 2, (getObjectOffset MFI i + Imm). repeat (split; [done|]). f_equal. lia.
Qed.

(** A frame index farther than twelve bits is not handled: for every
    instruction but ADDI_RRII (which selection does not build for a frame
    index) either the function has no case for it, the unreachable one, or the
    instructions it builds lack operands of their rows and have no encoding. *)
Theorem far_frame_index (realigned : bool) MFI Reg MI n i Imm :
  mi_operands MI !! n = Some (MO_FrameIndex i) -> mi_operands MI !! S n = Some (MO_Immediate Imm) ->
  length (mi_operands MI) = 3%nat -> mi_opcode MI <> ADDI_RRII ->
  isInt 12 (snd (frame_address realigned MFI true i Imm)) = false ->
  eliminateFrameIndex realigned MFI true Reg MI n = None \/
  exists ms, eliminateFrameIndex realigned MFI true Reg MI n = Some ms /\ code ms = None.
Proof.
  intros Ho1 Ho2 Hl Hop Hfit. unfold eliminateFrameIndex. rewrite Ho1, Ho2.
  destruct (frame_address realigned MFI true i Imm) as [r off]. cbn [snd] in Hfit. rewrite Hfit.
  rewrite bool_decide_false by done. destruct (isMemRRIIOpcode (mi_opcode MI)) eqn:Em; [|by left].
  destruct (getRRRIOpcodeVariant (mi_opcode MI)) as [op|] eqn:Ev; [|by left]. cbn [mbind option_bind]. right.
  set (ops := set_operands _ _ _ _). assert (Hops : length ops = 3%nat).
  { unfold ops, set_operands. by rewrite !length_insert. }
  assert (Hlast : code [MkMI op ops] = None).
  { unfold code. cbn [mapM]. unfold Lower. cbn [mi_operands mi_opcode].
    destruct (mapM (LowerOperand _) ops) as [l|] eqn:El; [|done]. cbn [mbind option_bind].
    apply length_mapM in El. rewrite Hops in El. destruct l as [|a [|b [|c [|? ?]]]]; try discriminate El.
    destruct (mi_opcode MI); try discriminate Em; injection Ev as <-; reflexivity. }
  assert (Happ : forall l, code (l ++ [MkMI op ops]) = None).
  { intros l. induction l as [|x l IH]; [exact Hlast|]. unfold code in *. cbn [app mapM].
    destruct (Lower _ x) as [inst|]; [|done]. cbn [mbind option_bind].
    destruct (getBinaryCodeForInstr inst); [|done]. cbn. by rewrite IH. }
  eexists. split; [reflexivity|]. apply Happ.
Qed.

(** ** Witnesses *)

(** 20 bytes of objects, 16 of outgoing arguments. *)
Definition demo_frame : MachineFrameInfo := FrameInfo 20 16 16 false true (fun _ => -16).
Lemma frame_roundtrip_witness : exists env1 mem1,
  run_words ref_backend no_helper decode_ref (fun _ => true) [0x4b081ff8; 0x49081000; 0x49041fd8] 0x1000 demo_env ∅
  = Some (env1, mem1) /\
  reg RB 2 env1 = 0x1008 /\ reg RB 1 env1 = 0x1008 - 40.
Proof.
  destruct (frame_roundtrip ref_backend ref_laws no_helper decode_ref decode_ref_laws (fun _ => true) false false ref_writable
    ref_octa demo_frame (FuncInfo 0 (-8)) _ _ [0x4b081ff8; 0x49081000; 0x49041fd8] [0x49042000; 0x43082ff8] 0x1000 demo_env ∅
    eq_refl ltac:(vm_compute; reflexivity) ltac:(vm_compute; reflexivity) ltac:(lia) demo_wf demo_u64
    ltac:(vm_compute; split; [discriminate|reflexivity || discriminate]))
    as (env1 & mem1 & Hr & H2 & _ & H1 & _).
  exists env1, mem1. split; [exact Hr|]. split; [exact H2|].
  exact (H1 ltac:(vm_compute; split; discriminate)).
Defined.
Lemma frame_layout_witness :
  StackSize (determineFrameLayout false true demo_frame) = 48 /\ 20 + 16 <= 48 < 20 + 16 + 16.
Proof.
  split; [reflexivity|].
  exact (proj1 (frame_layout false true demo_frame ltac:(cbn; lia) ltac:(cbn; lia) ltac:(cbn; lia))).
Defined.
(** ldo rd8 of a local object. *)
Lemma frame_index_address_witness : exists r k off,
  eliminateFrameIndex false demo_frame true (RDx 9) (MkMI LDO_RRII [MO_Register (RDx 8); MO_FrameIndex 3; MO_Immediate 4]) 1
  = Some [MkMI LDO_RRII [MO_Register (RDx 8); MO_Register r; MO_Immediate off]] /\
  w64 (reg RB k demo_env + off) = 0x1010 - 12.
Proof.
  set (e := set_reg RB 1 (0x1010 - 20) demo_env).
  destruct (frame_index_address false demo_frame (RDx 9) (MkMI LDO_RRII [MO_Register (RDx 8); MO_FrameIndex 3; MO_Immediate 4])
    1 3 4 _ e eq_refl eq_refl eq_refl ltac:(cbn; lia) ltac:(cbn; lia) eq_refl eq_refl eq_refl)
    as (r & k & off & Hms & Hk & _ & _ & Ha).
  injection Hms as <- <-. injection Hk as <-. exists RBFP, 2, (-12). split; [reflexivity|]. exact Ha.
Defined.
Lemma far_frame_index_witness :
  let MI := MkMI LDO_RRII [MO_Register (RDx 8); MO_FrameIndex 3; MO_Immediate 4000] in
  exists ms, eliminateFrameIndex false demo_frame true (RDx 9) MI 1 = Some ms /\ code ms = None.
Proof.
  destruct (far_frame_index false demo_frame (RDx 9) (MkMI LDO_RRII [MO_Register (RDx 8); MO_FrameIndex 3; MO_Immediate 4000])
    1 3 4000 eq_refl eq_refl eq_refl ltac:(discriminate) eq_refl) as [H|H]; [discriminate H|exact H].
Defined.

(** A frame of 4096 bytes: the stack pointer is not moved at all. *)
Lemma large_frame_not_allocated : sext 12 (- 4096) = 0.
Proof. reflexivity. Qed.
(** The address of an object selectFrameIndex asks for, far away. *)
Lemma far_object_address realigned MFI Reg dst i :
  isInt 12 (snd (frame_address realigned MFI true i 0)) = false ->
  eliminateFrameIndex realigned MFI true Reg (MkMI ADDI_RB_RRII [MO_Register dst; MO_FrameIndex i; MO_Immediate 0]) 1 = None.
Proof.
  unfold eliminateFrameIndex. cbn [mi_operands mi_opcode lookup list_lookup].
  destruct (frame_address realigned MFI true i 0) as [r off]. cbn [snd]. by intros ->.
Qed.
