(* ===== verification/LlvmCall.v ===== *)
(** The LLVM back end: calls, DadaoCallingConv.td, DadaoCallingConv.h and the
    call lowering of DadaoISelLowering.cpp.

    What a lowering builds is given by what it makes the machine do: the
    registers that are set, the stores to the outgoing argument area and the
    values that are read.  LLVM's CCState, which hands out registers and stack
    slots and walks over the arguments, is the interface [CCLib], with the
    documented behaviour as [CCLaws].  [None] is an llvm_unreachable, a failed
    assertion or a null pointer. *)
From S2P Require Import Prelude Cpu LlvmData.
Local Open Scope Z_scope.

Inductive ArgVT := vt_i8 | vt_i16 | vt_i32 | vt_i64 | vt_bp64.
#[export] Instance ArgVT_eq_dec : EqDecision ArgVT.
Proof. solve_decision. Defined.
Definition getSizeInBits (vt : ArgVT) : Z :=
  match vt with vt_i8 => 8 | vt_i16 => 16 | vt_i32 => 32 | vt_i64 | vt_bp64 => 64 end.
Record ArgFlagsTy := ArgFlags { isSExt : bool; isZExt : bool; isInReg : bool; isByVal : option Z }.
Definition setInReg (f : ArgFlagsTy) : ArgFlagsTy := ArgFlags (isSExt f) (isZExt f) true (isByVal f).

Inductive LocInfo := Loc_Full | Loc_SExt | Loc_ZExt | Loc_AExt.
#[export] Instance LocInfo_eq_dec : EqDecision LocInfo.
Proof. solve_decision. Defined.
Inductive ArgLoc := RegLoc (r : Register) | MemLoc (offset : Z).
Definition reg_loc (l : ArgLoc) : option Register := match l with RegLoc r => Some r | MemLoc _ => None end.
Definition mem_loc (l : ArgLoc) : option Z := match l with MemLoc o => Some o | RegLoc _ => None end.
Record CCValAssign := ValAssign {
  va_ValNo : nat; va_ValVT : ArgVT; va_loc : ArgLoc; va_LocVT : ArgVT; va_LocInfo : LocInfo }.

(** ** LLVM's CCState *)

(** A convention is asked for one argument at a time. *)
Definition CCAssignFn (S : Type) : Type := nat -> ArgVT -> ArgFlagsTy -> S -> option (CCValAssign * S).

Class CCLib (S : Type) := {
  cc_new : S;
  AllocateReg : list Register -> S -> option Register * S;
  AllocateStack : Z -> Z -> S -> Z * S;
  getNextStackOffset : S -> Z;
  isAllocated : S -> Register -> bool;
  Analyze : CCAssignFn S -> list (ArgVT * ArgFlagsTy) -> S -> option (list CCValAssign * S);
  CheckReturn : CCAssignFn S -> list (ArgVT * ArgFlagsTy) -> S -> bool }.

(** In the order of the arguments, from number [k] on. *)
Fixpoint analyze_from {S} (fn : CCAssignFn S) (k : nat) (l : list (ArgVT * ArgFlagsTy)) (s : S)
    : option (list CCValAssign * S) :=
  match l with
  | [] => Some ([], s)
  | (vt, flags) :: l =>
      '(va, s) ← fn k vt flags s;
      '(vas, s) ← analyze_from fn (Datatypes.S k) l s;
      Some (va :: vas, s)
  end.
Class CCLaws S `{CCLib S} := {
  new_regs : forall r, isAllocated cc_new r = false;
  new_stack : getNextStackOffset cc_new = 0;
  alloc_reg_some : forall l1 r l2 s,
    (forall x, x ∈ l1 -> isAllocated s x = true) -> isAllocated s r = false ->
    exists s', AllocateReg (l1 ++ r :: l2)%list s = (Some r, s') /\
      (forall x, isAllocated s' x = bool_decide (x = r) || isAllocated s x) /\
      getNextStackOffset s' = getNextStackOffset s;
  alloc_reg_none : forall l s, (forall x, x ∈ l -> isAllocated s x = true) -> AllocateReg l s = (None, s);
  alloc_stack : forall n a s, 0 < a -> 0 <= n -> 0 <= getNextStackOffset s ->
    getNextStackOffset s + n + a < 2^32 ->
    let o := (getNextStackOffset s + a - 1) / a * a in
    exists s', AllocateStack n a s = (o, s') /\ getNextStackOffset s' = o + n /\
      forall x, isAllocated s' x = isAllocated s x;
  analyze_order : forall fn l s, Analyze fn l s = analyze_from fn 0 l s;
  check_return : forall fn l s, CheckReturn fn l s = bool_decide (is_Some (analyze_from fn 0 l s)) }.

(** ** The conventions *)
Section Conventions.
Context {S : Type} `{CCLib S}.

(** CCPromoteToType<i64> for i8, i16 and i32. *)
Definition promote (vt : ArgVT) (flags : ArgFlagsTy) : ArgVT * LocInfo :=
  match vt with
  | vt_i8 | vt_i16 | vt_i32 =>
      (vt_i64, if isSExt flags then Loc_SExt else if isZExt flags then Loc_ZExt else Loc_AExt)
  | _ => (vt, Loc_Full)
  end.
Definition ArgGPRs : list Register := map RDx (seqZ 16 16).
Definition AddrRegList : list Register := map RBx (seqZ 16 16).
Definition assign_stack (ValNo : nat) (ValVT LocVT : ArgVT) (info : LocInfo) (s : S) : CCValAssign * S :=
  let '(o, s) := AllocateStack 8 8 s in (ValAssign ValNo ValVT (MemLoc o) LocVT info, s).

Definition CC_Dadao32 : CCAssignFn S := fun ValNo ValVT flags s =>
  let '(LocVT, info) := promote ValVT flags in
  match AllocateReg ArgGPRs s with
  | (Some r, s) => Some (ValAssign ValNo ValVT (RegLoc r) LocVT info, s)
  | (None, s) => Some (assign_stack ValNo ValVT LocVT info s)
  end.
(** [is_ptr i] is ArgTypeList[i]->isPointerTy(). *)
Definition CC_Dadao_AssignToReg (is_ptr : nat -> bool) (ValNo : nat) (ValVT LocVT : ArgVT) (info : LocInfo) (s : S)
    : option CCValAssign * S :=
  match (if is_ptr ValNo then AllocateReg AddrRegList s else AllocateReg ArgGPRs s) with
  | (Some r, s) => (Some (ValAssign ValNo ValVT (RegLoc r) LocVT info), s)
  | (None, s) => (None, s)
  end.
Definition CC_Dadao32_Fast (IsVarArg : bool) (is_ptr : nat -> bool) : CCAssignFn S := fun ValNo ValVT flags s =>
  let '(LocVT, info) := promote ValVT flags in
  if negb IsVarArg && isInReg flags && bool_decide (LocVT = vt_i64) then
    match CC_Dadao_AssignToReg is_ptr ValNo ValVT LocVT info s with
    | (Some va, s) => Some (va, s)
    | (None, s) => Some (assign_stack ValNo ValVT LocVT info s)
    end
  else Some (assign_stack ValNo ValVT LocVT info s).
Definition CC_Dadao32_VarArg (NumFixedArgs : nat) : CCAssignFn S := fun ValNo ValVT flags s =>
  if (ValNo <? NumFixedArgs)%nat then CC_Dadao32 ValNo ValVT flags s
  else let '(LocVT, info) := promote ValVT flags in Some (assign_stack ValNo ValVT LocVT info s).
Definition RetCC_Dadao32 : CCAssignFn S := fun ValNo ValVT flags s =>
  match ValVT with
  | vt_i64 | vt_bp64 =>
      match AllocateReg [RDRV] s with
      | (Some r, s) => Some (ValAssign ValNo ValVT (RegLoc r) ValVT Loc_Full, s)
      | (None, _) => None
      end
  | _ => None
  end.

(** ** The callee *)
Inductive CallingConv := CC_C | CC_Fast | CC_other.
Definition LocVT_size (va : CCValAssign) : Z := getSizeInBits (va_LocVT va) / 8.

(** [fa_fixed] are the fixed objects the loads read, as (size, offset from the
    incoming stack pointer); [fa_va] is the offset of the object va_start
    points at and the size of the save area, [fa_saves] the argument
    registers stored to it. *)
Record FormalArguments := Formals {
  fa_locs : list CCValAssign;
  fa_fixed : list (Z * Z);
  fa_va : option (Z * Z);
  fa_saves : list (Register * Z) }.
Definition fixed_objects (vas : list CCValAssign) : list (Z * Z) :=
  omap (fun va => o ← mem_loc (va_loc va); Some (LocVT_size va, o)) vas.
Definition LowerCCCArguments (CallConv : CallingConv) (IsVarArg : bool) (is_ptr : nat -> bool)
    (Ins : list (ArgVT * ArgFlagsTy)) : option FormalArguments :=
  '(ArgLocs, CCInfo) ← Analyze match CallConv with CC_Fast => CC_Dadao32_Fast IsVarArg is_ptr | _ => CC_Dadao32 end Ins cc_new;
  if IsVarArg then
    let Idx := length ArgGPRs in
    let '(VaArgOffset, VarArgsSaveSize) :=
      if (length ArgGPRs =? Idx)%nat then (getNextStackOffset CCInfo, 0)
      else let size := 8 * (Z.of_nat (length ArgGPRs) - Z.of_nat Idx) in (- size, size) in
    Some (Formals ArgLocs (fixed_objects ArgLocs) (Some (VaArgOffset, VarArgsSaveSize))
            (imap (fun i r => (r, VaArgOffset + 8 * Z.of_nat i)) (drop Idx ArgGPRs)))
  else Some (Formals ArgLocs (fixed_objects ArgLocs) None []).
Definition LowerFormalArguments (CallConv : CallingConv) (IsVarArg : bool) (is_ptr : nat -> bool)
    (Ins : list (ArgVT * ArgFlagsTy)) : option FormalArguments :=
  match CallConv with CC_other => None | _ => LowerCCCArguments CallConv IsVarArg is_ptr Ins end.
(** The value of an argument: registers are truncated to the type, stack
    slots are loaded at their offset from the incoming stack pointer. *)
Definition in_value (regs : Register -> Z) (stack : Z -> Z) (va : CCValAssign) : Z :=
  match va_loc va with
  | RegLoc r =>
      if bool_decide (va_LocInfo va = Loc_Full) then regs r else regs r mod 2^(getSizeInBits (va_ValVT va))
  | MemLoc o => stack o
  end.

(** ** The caller *)

(** The function called: through a pointer, a global that is a function of
    so many parameters, or a global that is none (an alias). *)
Inductive CalleeNode := Callee_indirect | Callee_function (name : String.string) (NumParams : nat) | Callee_alias.
Record CallSequence := CallSeq {
  cs_bytes : Z;
  cs_copies : list (Z * Z);          (* byval arguments: source and size *)
  cs_regs : list (Register * Z);
  cs_stores : list (Z * Z) }.        (* offset from the stack pointer, value *)

(** The bits an any-extension adds. *)
Variable any_extend : ArgVT -> Z -> Z.
(** The address of the local copy of the byval argument [J]. *)
Variable local_copy : nat -> Z.
Definition promoted (vt : ArgVT) (info : LocInfo) (Arg : Z) : Z :=
  match info with
  | Loc_Full | Loc_ZExt => Arg
  | Loc_SExt => w64 (sext (getSizeInBits vt) Arg)
  | Loc_AExt => any_extend vt Arg
  end.
Fixpoint out_values (J : nat) (Outs : list (ArgVT * ArgFlagsTy)) (ArgLocs : list CCValAssign) (OutVals : list Z)
    : list (ArgLoc * Z) :=
  match Outs, ArgLocs, OutVals with
  | (vt, flags) :: Outs, va :: ArgLocs, Arg :: OutVals =>
      match isByVal flags with
      | Some _ => (va_loc va, local_copy J) :: out_values (Datatypes.S J) Outs ArgLocs OutVals
      | None => (va_loc va, promoted vt (va_LocInfo va) Arg) :: out_values J Outs ArgLocs OutVals
      end
  | _, _, _ => []
  end.
Definition NumFixedArgs (IsVarArg : bool) (Callee : CalleeNode) : nat :=
  match Callee with Callee_function _ n => if IsVarArg then n else 0%nat | _ => 0%nat end.
Definition isPrintf (IsVarArg : bool) (Callee : CalleeNode) : bool :=
  match Callee with Callee_function name _ => IsVarArg && String.eqb name "printf" | _ => false end.
Definition caller_cc (CallConv : CallingConv) (IsVarArg : bool) (Callee : CalleeNode) (is_ptr : nat -> bool) : CCAssignFn S :=
  if negb (NumFixedArgs IsVarArg Callee =? 0)%nat && negb (isPrintf IsVarArg Callee)
  then CC_Dadao32_VarArg (NumFixedArgs IsVarArg Callee)
  else match CallConv with CC_Fast => CC_Dadao32_Fast IsVarArg is_ptr | _ => CC_Dadao32 end.
Definition LowerCCCCallTo (Callee : CalleeNode) (CallConv : CallingConv) (IsVarArg : bool) (is_ptr : nat -> bool)
    (Outs : list (ArgVT * ArgFlagsTy)) (OutVals : list Z) : option CallSequence :=
  match Callee with
  | Callee_alias => if IsVarArg then None else Some tt
  | _ => Some tt
  end ≫= fun _ =>
  '(ArgLocs, CCInfo) ← Analyze (caller_cc CallConv IsVarArg Callee is_ptr) Outs cc_new;
  let vals := out_values 0 Outs ArgLocs OutVals in
  Some (CallSeq (getNextStackOffset CCInfo)
          (omap (fun p => size ← isByVal (snd (fst p)); Some (snd p, size)) (zip Outs OutVals))
          (omap (fun p => r ← reg_loc (fst p); Some (r, snd p)) vals)
          (omap (fun p => o ← mem_loc (fst p); Some (o, snd p)) vals)).
Definition LowerCall (Callee : CalleeNode) (CallConv : CallingConv) (IsVarArg : bool) (is_ptr : nat -> bool)
    (Outs : list (ArgVT * ArgFlagsTy)) (OutVals : list Z) : option CallSequence :=
  let Outs := map (fun p => (fst p, setInReg (snd p))) Outs in
  match CallConv with CC_other => None | _ => LowerCCCCallTo Callee CallConv IsVarArg is_ptr Outs OutVals end.

(** ** Results *)
Definition CanLowerReturn (Outs : list (ArgVT * ArgFlagsTy)) : bool := CheckReturn RetCC_Dadao32 Outs cc_new.
(** The copies to registers in order; [sret] is the saved address of the
    structure. *)
Definition LowerReturn (sret : option Z) (Outs : list (ArgVT * ArgFlagsTy)) (OutVals : list Z)
    : option (list (Register * Z)) :=
  '(RVLocs, _) ← Analyze RetCC_Dadao32 Outs cc_new;
  copies ← mapM (fun p => r ← reg_loc (va_loc (fst p)); Some (r, snd p)) (zip RVLocs OutVals);
  Some (copies ++ match sret with Some a => [(RDRV, a)] | None => [] end)%list.
(** A value of another type than i64 is moved to an rb register. *)
Definition LowerCallResult (Ins : list (ArgVT * ArgFlagsTy)) (regs : Register -> Z) : option (list Z) :=
  '(RVLocs, _) ← Analyze RetCC_Dadao32 Ins cc_new;
  mapM (fun va =>
          r ← reg_loc (va_loc va);
          if bool_decide (va_ValVT va = vt_i64) || bool_decide (va_ValVT va = vt_bp64) then Some (regs r) else None) RVLocs.
End Conventions.

(** ** Frames and return addresses

    [load] reads a 64-bit word; the offset is an unsigned int that
    getIntPtrConstant extends with zeros. *)
Section Frames.
Variable load : Z -> Z.
Fixpoint LowerFRAMEADDR (RBFP_ : Z) (Depth : nat) : Z :=
  match Depth with
  | O => RBFP_
  | Datatypes.S Depth => LowerFRAMEADDR (load (w64 (RBFP_ + w32 (-8)))) Depth
  end.
Definition LowerRETURNADDR (RBCA_ RBFP_ : Z) (Depth : nat) : Z :=
  match Depth with
  | O => RBCA_
  | _ => load (w64 (LowerFRAMEADDR RBFP_ Depth + w32 (-4)))
  end.
End Frames.
(** The new stack pointer and the address of the area; [MaxCallFrameSize] is
    what ADJDYNALLOC adds in the prologue. *)
Definition LowerDYNAMIC_STACKALLOC (StackPointer Size MaxCallFrameSize : Z) : Z * Z :=
  let Sub := w64 (StackPointer - Size) in (Sub, w64 (Sub + MaxCallFrameSize)).
