(* ===== verification/LlvmCallProps.v ===== *)
(** The LLVM back end: what a caller puts in registers and on the stack is
    what the callee reads, and it is where GCC's callees look. *)
From stdpp Require Import list.
From S2P Require Import Prelude Cpu LlvmData LlvmFrame LlvmCall GccFrame Gcc GccProps.
Local Open Scope Z_scope.

(** ** Where arguments go *)

(** Argument [i] of a call with [nf] named arguments. *)
Definition place (nf i : nat) : ArgLoc :=
  if (i <? nf)%nat
  then if (i <? 16)%nat then RegLoc (RDx (16 + Z.of_nat i)) else MemLoc (8 * (Z.of_nat i - 16))
  else MemLoc (8 * (Z.max 0 (Z.of_nat nf - 16) + (Z.of_nat i - Z.of_nat nf))).
Definition assigned (nf i : nat) (a : ArgVT * ArgFlagsTy) : CCValAssign :=
  let '(LocVT, info) := promote (fst a) (snd a) in ValAssign i (fst a) (place nf i) LocVT info.

Section Places.
Context {St : Type} `{CCLaws St}.
Definition placed_upto (nf k : nat) (s : St) : Prop :=
  (forall j, (j < 16)%nat -> isAllocated s (RDx (16 + Z.of_nat j)) = (j <? Nat.min k nf)%nat) /\
  getNextStackOffset s
  = 8 * (Z.max 0 (Z.min (Z.of_nat k) (Z.of_nat nf) - 16) + Z.max 0 (Z.of_nat k - Z.of_nat nf)).

Lemma placed_new nf : placed_upto nf 0 cc_new.
Proof.
  split; [intros j _; rewrite new_regs; symmetry; apply Nat.ltb_ge; lia|rewrite new_stack; lia].
Qed.
Lemma gprs_split k : (k < 16)%nat ->
  ArgGPRs = (map RDx (seqZ 16 (Z.of_nat k)) ++ RDx (16 + Z.of_nat k) :: map RDx (seqZ (17 + Z.of_nat k) (15 - Z.of_nat k)))%list.
Proof. intros Hk. do 16 (destruct k as [|k]; [done|]). lia. Qed.
Lemma gprs_before k x : x ∈ map RDx (seqZ 16 (Z.of_nat k)) -> exists j, (j < k)%nat /\ x = RDx (16 + Z.of_nat j).
Proof.
  intros (y & -> & Hy)%list_elem_of_fmap. apply elem_of_seqZ in Hy. exists (Z.to_nat (y - 16)).
  split; [lia|]. f_equal. lia.
Qed.

Lemma stack_step nf k vt LocVT info s : placed_upto nf k s -> Z.of_nat k < 2^27 ->
  ((16 <= k)%nat \/ (nf <= k)%nat) ->
  exists s', assign_stack k vt LocVT info s = (ValAssign k vt (place nf k) LocVT info, s') /\
    placed_upto nf (Datatypes.S k) s'.
Proof.
  intros [Hr Ho] Hk Hs. destruct (alloc_stack 8 8 s) as (s' & Ha & Hn & Hx); [lia..|].
  unfold assign_stack. rewrite Ha. exists s'.
  assert (E : (getNextStackOffset s + 8 - 1) / 8 * 8 = getNextStackOffset s)
    by (rewrite Ho; Z.div_mod_to_equations; lia).
  rewrite E in *. split; [do 2 f_equal|split].
  - unfold place. destruct (Nat.ltb_spec k nf), (Nat.ltb_spec k 16); try lia; rewrite Ho; f_equal; lia.
  - intros j Hj. rewrite Hx, Hr by done.
    destruct (Nat.ltb_spec j (Nat.min k nf)), (Nat.ltb_spec j (Nat.min (Datatypes.S k) nf)); done || lia.
  - rewrite Hn, Ho. lia.
Qed.
Lemma va_step nf k vt flags s : placed_upto nf k s -> Z.of_nat k < 2^27 ->
  exists s', CC_Dadao32_VarArg nf k vt flags s = Some (assigned nf k (vt, flags), s') /\
    placed_upto nf (Datatypes.S k) s'.
Proof.
  intros Hp Hk. unfold CC_Dadao32_VarArg, CC_Dadao32, assigned. cbn [fst snd].
  destruct (promote vt flags) as [LocVT info]. destruct (Nat.ltb_spec k nf) as [Hf|Hf].
  - destruct (decide (k < 16)%nat) as [H16|H16].
    + destruct Hp as [Hr Ho]. rewrite (gprs_split k H16).
      destruct (alloc_reg_some (map RDx (seqZ 16 (Z.of_nat k))) (RDx (16 + Z.of_nat k))
        (map RDx (seqZ (17 + Z.of_nat k) (15 - Z.of_nat k))) s) as (s' & -> & Hx & Hn).
      { intros x (j & Hj & ->)%gprs_before. rewrite Hr by lia. apply Nat.ltb_lt. lia. }
      { rewrite Hr by lia. apply Nat.ltb_ge. lia. }
      exists s'. split; [|split].
      * unfold place. by rewrite (proj2 (Nat.ltb_lt _ _)), (proj2 (Nat.ltb_lt _ _)) by lia.
      * intros j Hj. rewrite Hx, Hr by done. destruct (decide (j = k)) as [->|Hjk].
        -- rewrite bool_decide_true by done. symmetry. apply Nat.ltb_lt. lia.
        -- rewrite bool_decide_false by (intros [=]; lia). cbn [orb].
           destruct (Nat.ltb_spec j (Nat.min k nf)), (Nat.ltb_spec j (Nat.min (Datatypes.S k) nf)); done || lia.
      * rewrite Hn, Ho. lia.
    + rewrite alloc_reg_none.
      { destruct (stack_step nf k vt LocVT info s Hp Hk) as (s' & -> & Hs'); [lia|]. by exists s'. }
      intros x Hx. change ArgGPRs with (map RDx (seqZ 16 (Z.of_nat 16))) in Hx.
      apply gprs_before in Hx as (j & Hj & ->). destruct Hp as [Hr _]. rewrite Hr by done. apply Nat.ltb_lt. lia.
  - destruct (stack_step nf k vt LocVT info s Hp Hk) as (s' & -> & Hs'); [lia|]. by exists s'.
Qed.
Lemma va_analyze nf l k s : placed_upto nf k s -> Z.of_nat (k + length l) < 2^27 ->
  exists s', analyze_from (CC_Dadao32_VarArg nf) k l s = Some (imap (fun i a => assigned nf (k + i) a) l, s') /\
    placed_upto nf (k + length l) s'.
Proof.
  revert k s. induction l as [|[vt flags] l IH]; intros k s Hp Hk; cbn [analyze_from length] in *.
  { exists s. split; [done|]. by rewrite Nat.add_0_r. }
  destruct (va_step nf k vt flags s Hp) as (s1 & -> & Hp1); [lia|]. cbn [mbind option_bind].
  destruct (IH (Datatypes.S k) s1 Hp1) as (s2 & -> & Hp2); [lia|]. cbn [mbind option_bind].
  exists s2. split; [|by rewrite Nat.add_succ_r]. rewrite imap_cons. do 3 f_equal; [by rewrite Nat.add_0_r|].
  apply imap_ext. intros i x _. cbn. by rewrite Nat.add_succ_r.
Qed.
Lemma fixed_analyze nf l k s : (k + length l <= nf)%nat ->
  analyze_from CC_Dadao32 k l s = analyze_from (CC_Dadao32_VarArg nf) k l s.
Proof.
  revert k s. induction l as [|[vt flags] l IH]; intros k s Hk; cbn [analyze_from length] in *; [done|].
  assert (E : CC_Dadao32_VarArg nf k vt flags s = CC_Dadao32 k vt flags s).
  { unfold CC_Dadao32_VarArg. by rewrite (proj2 (Nat.ltb_lt _ _)) by lia. }
  rewrite E. destruct (CC_Dadao32 k vt flags s) as [[va s']|]; [|done]. cbn. by rewrite IH by lia.
Qed.

(** The two sides. *)
Lemma callee_locs l : Z.of_nat (length l) < 2^27 ->
  exists s', Analyze CC_Dadao32 l cc_new = Some (imap (assigned (length l)) l, s') /\
    getNextStackOffset s' = 8 * Z.max 0 (Z.of_nat (length l) - 16).
Proof.
  intros Hl. rewrite analyze_order, (fixed_analyze (length l)) by done.
  destruct (va_analyze (length l) l 0 cc_new (placed_new _) Hl) as (s' & -> & [_ Ho]). exists s'. split; [done|].
  rewrite Ho. lia.
Qed.
End Places.

(** ** What the caller stores *)
Lemma place_inj nf i j : place nf i = place nf j -> i = j.
Proof.
  unfold place. destruct (Nat.ltb_spec i nf), (Nat.ltb_spec j nf), (Nat.ltb_spec i 16), (Nat.ltb_spec j 16);
    intros [=]; lia.
Qed.
Lemma place_mem nf n i o : place nf i = MemLoc o -> (i < n)%nat -> (nf <= n)%nat ->
  (8 | o) /\ 0 <= o /\
  o + 8 <= 8 * (Z.max 0 (Z.min (Z.of_nat n) (Z.of_nat nf) - 16) + Z.max 0 (Z.of_nat n - Z.of_nat nf)).
Proof.
  unfold place. intros Hp Hi Hn. destruct (Nat.ltb_spec i nf), (Nat.ltb_spec i 16); injection Hp as <- || discriminate Hp;
    (split; [apply Z.divide_factor_l|lia]).
Qed.
Lemma place_not_mem nf i r : place nf i = RegLoc r -> exists k, r = RDx (16 + Z.of_nat k) /\ (k < 16)%nat.
Proof. unfold place. destruct (i <? nf)%nat; [|done]. destruct (Nat.ltb_spec i 16); [|done]. intros [= <-]. by exists i. Qed.
Lemma promote_inreg vt flags : promote vt (setInReg flags) = promote vt flags.
Proof. by destruct vt. Qed.

Section Values.
Variable any_extend : ArgVT -> Z -> Z.
Variable local_copy : nat -> Z.

(** The values as they are passed: a byval argument is the address of its
    copy. *)
Fixpoint sent (J : nat) (Outs : list (ArgVT * ArgFlagsTy)) (OutVals : list Z) : list Z :=
  match Outs, OutVals with
  | (vt, flags) :: Outs, v :: OutVals =>
      match isByVal flags with
      | Some _ => local_copy J :: sent (Datatypes.S J) Outs OutVals
      | None => v :: sent J Outs OutVals
      end
  | _, _ => []
  end.
Definition byval_pointer (a : ArgVT * ArgFlagsTy) : Prop :=
  is_Some (isByVal (snd a)) -> fst a = vt_i64 \/ fst a = vt_bp64.
Lemma out_values_sent nf Outs k J OutVals : Forall byval_pointer Outs ->
  out_values any_extend local_copy J Outs (imap (fun i a => assigned nf (k + i) a) Outs) OutVals
  = imap (fun i p => (place nf (k + i), promoted any_extend (fst (fst p)) (snd (promote (fst (fst p)) (snd (fst p)))) (snd p)))
      (zip Outs (sent J Outs OutVals)).
Proof.
  intros Hb. revert k J OutVals. induction Hb as [|[vt flags] Outs Hb1 _ IH]; intros k J [|v OutVals]; try done.
  cbn [out_values sent imap].
  assert (Hk : forall J', out_values any_extend local_copy J' Outs
      (imap ((fun i a => assigned nf (k + i) a) ∘ Datatypes.S) Outs) OutVals
    = imap (fun i p => (place nf (k + Datatypes.S i),
        promoted any_extend (fst (fst p)) (snd (promote (fst (fst p)) (snd (fst p)))) (snd p)))
      (zip Outs (sent J' Outs OutVals))).
  { intros J'. rewrite (imap_ext _ (fun i a => assigned nf (Datatypes.S k + i) a)).
    2:{ intros i x _. cbn. by rewrite Nat.add_succ_r. }
    rewrite IH. apply imap_ext. intros i x _. cbn. by rewrite Nat.add_succ_r. }
  destruct (isByVal flags) as [sz|] eqn:E; cbn [zip zip_with imap fst snd]; rewrite Hk; f_equal;
    unfold assigned; cbn [fst snd]; destruct (promote vt flags) as [lv info] eqn:P; cbn [va_loc va_LocInfo snd]; f_equal.
  destruct (Hb1 ltac:(by exists sz)) as [V|V]; cbn in V; subst vt; injection P as <- <-; done.
Qed.
End Values.

(** An association list whose keys are distinct places. *)
Section Split.
Context {A : Type} (f : ArgLoc -> option A) (Hf : forall l l' a, f l = Some a -> f l' = Some a -> l = l').
Definition keyed (vals : list (ArgLoc * Z)) : list (A * Z) :=
  omap (fun p => a ← f (fst p); Some (a, snd p)) vals.
Lemma keyed_in vals a v : (a, v) ∈ keyed vals <-> exists l, (l, v) ∈ vals /\ f l = Some a.
Proof.
  unfold keyed. rewrite list_elem_of_omap. split.
  - intros ([l w] & Hin & E). cbn in E. destruct (f l) as [b|] eqn:F; [|done]. injection E as -> ->. by exists l.
  - intros (l & Hin & F). exists (l, v). split; [done|]. cbn. by rewrite F.
Qed.
Lemma keyed_nodup vals : NoDup vals.*1 -> NoDup (keyed vals).*1.
Proof.
  induction vals as [|[l v] vals IH]; [constructor|]. cbn. intros [Hl Hn]%NoDup_cons. unfold keyed. cbn [omap list_omap].
  change (list_omap _ _ _ vals) with (keyed vals). cbn [fst snd].
  destruct (f l) as [a|] eqn:F; cbn [mbind option_bind]; [|by apply IH]. cbn. apply NoDup_cons. split; [|by apply IH].
  intros ([b w] & E & Hin)%list_elem_of_fmap. cbn in E. subst b. apply keyed_in in Hin as (l' & Hin & F').
  apply Hl. rewrite (Hf _ _ _ F F'). apply list_elem_of_fmap. by exists (l', w).
Qed.
End Split.

Lemma promoted_low any_extend vt flags v :
  (forall vt v, any_extend vt v mod 2^(getSizeInBits vt) = v mod 2^(getSizeInBits vt)) ->
  0 <= v < 2^(getSizeInBits vt) ->
  promoted any_extend vt (snd (promote vt flags)) v mod 2^(getSizeInBits vt) = v /\
  (snd (promote vt flags) = Loc_Full -> promoted any_extend vt (snd (promote vt flags)) v = v).
Proof.
  intros Hany Hv. pose proof (Z.mod_small v _ Hv) as Hm.
  assert (Hs : w64 (sext (getSizeInBits vt) v) mod 2^(getSizeInBits vt) = v).
  { rewrite <-Hm at 2. unfold w64, sext. destruct vt; cbn [getSizeInBits] in *; case_match; Z.div_mod_to_equations; lia. }
  destruct (snd (promote vt flags)) eqn:P; cbn [promoted]; split; try done; rewrite ?Hany; done.
Qed.

Section Calls.
Context {St : Type} `{CCLaws St}.
Variable any_extend : ArgVT -> Z -> Z.
Hypothesis any_extend_low : forall vt v, any_extend vt v mod 2^(getSizeInBits vt) = v mod 2^(getSizeInBits vt).
Variable local_copy : nat -> Z.

(** A call of a function with the types [Ins] of its parameters, and [extra]
    ones if it is variadic. *)
Definition callee_of (name : String.string) (Ins : list (ArgVT * ArgFlagsTy)) : CalleeNode :=
  Callee_function name (length Ins).
Lemma caller_locs name IsVarArg is_ptr Ins extra :
  (if IsVarArg : bool then Ins <> [] /\ name <> "printf"%string else extra = []) ->
  Z.of_nat (length (Ins ++ extra)) < 2^27 ->
  let Outs := map (fun p => (fst p, setInReg (snd p))) (Ins ++ extra)%list in
  exists s', Analyze (caller_cc CC_C IsVarArg (callee_of name Ins) is_ptr) Outs cc_new
    = Some (imap (assigned (length Ins)) Outs, s') /\
    getNextStackOffset s' = 8 * (Z.max 0 (Z.of_nat (length Ins) - 16) + Z.of_nat (length extra)).
Proof.
  intros Hv Hl Outs. assert (HO : length Outs = (length Ins + length extra)%nat) by (unfold Outs; by rewrite length_map, length_app).
  rewrite length_app in Hl.
  assert (E : analyze_from (caller_cc CC_C IsVarArg (callee_of name Ins) is_ptr) 0 Outs cc_new
              = analyze_from (CC_Dadao32_VarArg (length Ins)) 0 Outs cc_new).
  { unfold caller_cc, callee_of, NumFixedArgs, isPrintf. destruct IsVarArg.
    - destruct Hv as [Hi Hn]. rewrite (proj2 (String.eqb_neq _ _) Hn). by destruct Ins.
    - subst extra. cbn [Nat.eqb negb andb]. apply fixed_analyze. cbn in HO. lia. }
  rewrite analyze_order, E. destruct (va_analyze (length Ins) Outs 0 cc_new (placed_new _)) as (s' & -> & [_ Ho]); [lia|].
  exists s'. split; [done|]. rewrite Ho, HO. lia.
Qed.

Lemma sent_inreg J l OutVals :
  sent local_copy J (map (fun p => (fst p, setInReg (snd p))) l) OutVals = sent local_copy J l OutVals.
Proof.
  revert J OutVals. induction l as [|[vt fl] l IH]; intros J [|v OutVals]; try done. cbn. by destruct (isByVal fl); rewrite IH.
Qed.

Section Call.
Context (Ins extra : list (ArgVT * ArgFlagsTy)) (OutVals : list Z).
Definition passed : list (ArgLoc * Z) :=
  imap (fun i p => (place (length Ins) i,
      promoted any_extend (fst (fst p)) (snd (promote (fst (fst p)) (snd (fst p)))) (snd p)))
    (zip (map (fun p => (fst p, setInReg (snd p))) (Ins ++ extra)) (sent local_copy 0 (Ins ++ extra) OutVals)).
Lemma passed_in i a v : (Ins ++ extra)%list !! i = Some a -> sent local_copy 0 (Ins ++ extra) OutVals !! i = Some v ->
  (place (length Ins) i, promoted any_extend (fst a) (snd (promote (fst a) (snd a))) v) ∈ passed.
Proof.
  intros Ha Hv. apply list_elem_of_lookup. exists i. unfold passed. rewrite list_lookup_imap, lookup_zip_with.
  rewrite list_lookup_fmap, Ha. cbn. rewrite Hv. cbn. by rewrite promote_inreg.
Qed.
Lemma passed_nodup : NoDup passed.*1.
Proof.
  apply NoDup_alt. intros i j l Hi Hj. unfold passed in Hi, Hj. rewrite list_lookup_fmap, list_lookup_imap in Hi, Hj.
  destruct (zip _ _ !! i); [|done]. destruct (zip _ _ !! j); [|done]. injection Hi as <-. injection Hj as E.
  symmetry. by eapply place_inj.
Qed.
Lemma passed_stores o v : (o, v) ∈ keyed mem_loc passed ->
  (8 | o) /\ 0 <= o /\ o + 8 <= 8 * (Z.max 0 (Z.of_nat (length Ins) - 16) + Z.of_nat (length extra)).
Proof.
  intros (l & Hlv & Ho)%keyed_in. apply list_elem_of_lookup in Hlv as [i Hi]. unfold passed in Hi.
  rewrite list_lookup_imap in Hi. destruct (zip _ _ !! i) as [p|] eqn:Ep; [|done]. injection Hi as <- _.
  destruct (place (length Ins) i) as [r|o'] eqn:P; [done|]. injection Ho as ->.
  apply lookup_lt_Some in Ep. rewrite length_zip_with, length_map, length_app in Ep.
  destruct (place_mem (length Ins) (length Ins + length extra) i o P) as (D & O & B); lia || (repeat split; [done|done|lia]).
Qed.
Definition in_registers (regs : Register -> Z) : Prop := forall r v, (r, v) ∈ keyed reg_loc passed -> regs r = v.
Definition on_stack (stack : Z -> Z) : Prop := forall o v, (o, v) ∈ keyed mem_loc passed -> stack o = v.
Lemma passed_reads regs stack i a v : in_registers regs -> on_stack stack ->
  (Ins ++ extra)%list !! i = Some a -> sent local_copy 0 (Ins ++ extra) OutVals !! i = Some v ->
  0 <= v < 2^(getSizeInBits (fst a)) ->
  in_value regs stack (assigned (length Ins) i a) mod 2^(getSizeInBits (fst a)) = v /\
  (is_Some (reg_loc (place (length Ins) i)) -> in_value regs stack (assigned (length Ins) i a) = v).
Proof.
  intros Hregs Hstack Ha Hv Hr. pose proof (passed_in i a v Ha Hv) as Hi.
  destruct (promoted_low any_extend (fst a) (snd a) v any_extend_low Hr) as [Hlow Hfull].
  unfold assigned, in_value. destruct (promote (fst a) (snd a)) as [lv info] eqn:P.
  cbn [va_loc va_LocInfo va_ValVT snd] in *. destruct (place (length Ins) i) as [r|o] eqn:E.
  - rewrite (Hregs r _ ltac:(apply keyed_in; eexists; split; [exact Hi|done])).
    case_bool_decide as F; [rewrite (Hfull F) in *; done|]. rewrite Hlow. split; [|done]. by apply Z.mod_small.
  - rewrite (Hstack o _ ltac:(apply keyed_in; eexists; split; [exact Hi|done])). split; [done|]. by intros [? ?].
Qed.

Context (name : String.string) (IsVarArg : bool) (p1 p2 : nat -> bool).
Hypothesis Hva : if IsVarArg then Ins <> [] /\ name <> "printf"%string else extra = [].
Hypothesis Hlen : Z.of_nat (length (Ins ++ extra)) < 2^27.
Lemma caller_lowered : Forall byval_pointer (Ins ++ extra) -> exists copies,
  LowerCall any_extend local_copy (callee_of name Ins) CC_C IsVarArg p1 (Ins ++ extra) OutVals
  = Some (CallSeq (8 * (Z.max 0 (Z.of_nat (length Ins) - 16) + Z.of_nat (length extra))) copies
            (keyed reg_loc passed) (keyed mem_loc passed)).
Proof.
  intros Hb. destruct (caller_locs name IsVarArg p1 Ins extra Hva Hlen) as (s1 & Hcaller & Hbytes).
  eexists. unfold LowerCall, LowerCCCCallTo. cbn [callee_of mbind option_bind].
  fold (callee_of name Ins). rewrite Hcaller. cbn [mbind option_bind]. cbv zeta. rewrite Hbytes.
  rewrite (out_values_sent any_extend local_copy (length Ins) _ 0 0), sent_inreg; [done|].
  apply Forall_map. eapply Forall_impl; [exact Hb|]. by intros [vt fl].
Qed.
Lemma callee_lowered :
  LowerFormalArguments CC_C IsVarArg p2 Ins
  = Some (Formals (imap (assigned (length Ins)) Ins) (fixed_objects (imap (assigned (length Ins)) Ins))
            (if IsVarArg then Some (8 * Z.max 0 (Z.of_nat (length Ins) - 16), 0) else None) []).
Proof.
  destruct (callee_locs Ins) as (s2 & Hcallee & Hnext); [rewrite length_app in Hlen; lia|].
  unfold LowerFormalArguments, LowerCCCArguments. rewrite Hcallee. cbn [mbind option_bind].
  rewrite Nat.eqb_refl, drop_all, Hnext. by destruct IsVarArg.
Qed.
End Call.

(** C33: the arguments of a direct call of the C convention arrive.  The call
    is of a function with fixed arguments only, or of a variadic one that has
    a fixed argument and is not printf, by its name.  Caller and callee are
    lowered; the argument registers are set once each, the stores are aligned,
    disjoint and inside the area of the call frame.  In any state where the
    registers and the stack hold what the caller set, each parameter the
    callee reads has the value passed: exactly in a register, in its low bits
    on the stack, where it was extended.  The area va_start points at holds the
    variable arguments in order, eight bytes each; no register is saved for
    them.  Of the calls left out, those of the fast convention and variadic
    ones through a pointer lose arguments (fast_arguments_lost and
    indirect_varargs_lost). *)
Theorem arguments_arrive name IsVarArg p1 p2 Ins extra OutVals :
  (if IsVarArg : bool then Ins <> [] /\ name <> "printf"%string else extra = []) ->
  Z.of_nat (length (Ins ++ extra)) < 2^27 -> Forall byval_pointer (Ins ++ extra) ->
  let sent := sent local_copy 0 (Ins ++ extra) OutVals in
  (forall i a v, (Ins ++ extra)%list !! i = Some a -> sent !! i = Some v -> 0 <= v < 2^(getSizeInBits (fst a))) ->
  exists call fa,
    LowerCall any_extend local_copy (callee_of name Ins) CC_C IsVarArg p1 (Ins ++ extra) OutVals = Some call /\
    LowerFormalArguments CC_C IsVarArg p2 Ins = Some fa /\
    NoDup (cs_regs call).*1 /\ NoDup (cs_stores call).*1 /\
    (forall o v, (o, v) ∈ cs_stores call -> (8 | o) /\ 0 <= o /\ o + 8 <= cs_bytes call) /\
    forall regs stack,
      (forall r v, (r, v) ∈ cs_regs call -> regs r = v) -> (forall o v, (o, v) ∈ cs_stores call -> stack o = v) ->
      (forall i a v, Ins !! i = Some a -> sent !! i = Some v -> exists va, fa_locs fa !! i = Some va /\
         in_value regs stack va mod 2^(getSizeInBits (fst a)) = v /\
         (is_Some (reg_loc (va_loc va)) -> in_value regs stack va = v)) /\
      (IsVarArg = true -> exists off, fa_va fa = Some (off, 0) /\ fa_saves fa = [] /\
         forall j a v, extra !! j = Some a -> sent !! (length Ins + j)%nat = Some v ->
           stack (off + 8 * Z.of_nat j) mod 2^(getSizeInBits (fst a)) = v).
Proof.
  intros Hva Hl Hb snt Hrange. destruct (caller_lowered Ins extra OutVals name IsVarArg p1 Hva Hl Hb) as [copies ->].
  rewrite (callee_lowered Ins extra name IsVarArg p2 Hva Hl). eexists _, _. split; [done|]. split; [done|].
  cbn [cs_regs cs_stores cs_bytes fa_locs fa_va fa_saves].
  split; [apply keyed_nodup; [by intros [?|?] [?|?] a; cbn; congruence|apply passed_nodup]|].
  split; [apply keyed_nodup; [by intros [?|?] [?|?] a; cbn; congruence|apply passed_nodup]|].
  split; [apply passed_stores|]. intros regs stack Hregs Hstack. split.
  - intros i a v Ha Hv. assert (Ha' : (Ins ++ extra)%list !! i = Some a) by (by apply lookup_app_l_Some).
    exists (assigned (length Ins) i a). rewrite list_lookup_imap, Ha. split; [done|].
    destruct (passed_reads Ins extra OutVals regs stack i a v Hregs Hstack Ha' Hv (Hrange i a v Ha' Hv)) as [H1 H2].
    split; [done|]. intros Hs. apply H2. revert Hs. unfold assigned. by destruct (promote (fst a) (snd a)).
  - intros ->. eexists. split; [done|]. split; [done|]. intros j a v Ha Hv.
    assert (Ha' : (Ins ++ extra)%list !! (length Ins + j)%nat = Some a)
      by (rewrite lookup_app_r, (Nat.add_comm (length Ins)), Nat.add_sub by lia; done).
    destruct (passed_reads Ins extra OutVals regs stack _ a v Hregs Hstack Ha' Hv (Hrange _ a v Ha' Hv)) as [H1 _].
    rewrite <-H1. unfold assigned, in_value. destruct (promote (fst a) (snd a)) as [lv info]. cbn [va_loc].
    unfold place. rewrite (proj2 (Nat.ltb_ge _ _)) by lia. do 2 f_equal. lia.
Qed.
End Calls.

(** ** LLVM's CCState as a list of registers and an offset *)
Record list_state := ListState { ls_used : list Register; ls_offset : Z }.
Definition is_used (s : list_state) (r : Register) : bool := bool_decide (r ∈ ls_used s).
Definition first_free (l : list Register) (s : list_state) : option Register * list_state :=
  match List.find (fun r => negb (is_used s r)) l with
  | Some r => (Some r, ListState (r :: ls_used s) (ls_offset s))
  | None => (None, s)
  end.
#[export] Instance list_cc : CCLib list_state := {
  cc_new := ListState [] 0;
  AllocateReg := first_free;
  AllocateStack n a s := let o := (ls_offset s + a - 1) / a * a in (o, ListState (ls_used s) (o + n));
  getNextStackOffset := ls_offset;
  isAllocated := is_used;
  Analyze fn l s := analyze_from fn 0 l s;
  CheckReturn fn l s := bool_decide (is_Some (analyze_from fn 0 l s)) }.
Lemma find_free l1 r l2 s :
  (forall x, x ∈ l1 -> is_used s x = true) -> is_used s r = false ->
  List.find (fun r => negb (is_used s r)) (l1 ++ r :: l2)%list = Some r.
Proof.
  intros Hl Hr. induction l1 as [|x l1 IH]; cbn; [by rewrite Hr|].
  rewrite Hl by left. cbn. apply IH. intros y Hy. apply Hl. by right.
Qed.
Lemma find_none l s : (forall x, x ∈ l -> is_used s x = true) -> List.find (fun r => negb (is_used s r)) l = None.
Proof.
  intros Hl. induction l as [|x l IH]; cbn; [done|]. rewrite Hl by left. cbn. apply IH. intros y Hy. apply Hl. by right.
Qed.
#[export] Instance list_cc_laws : CCLaws list_state.
Proof.
  split; cbn; try done.
  - intros l1 r l2 s Hl Hr. unfold first_free. rewrite (find_free _ _ _ _ Hl Hr). eexists. split; [done|].
    split; [|done]. intros x. unfold is_used. cbn. rewrite <-bool_decide_or. apply bool_decide_ext. apply elem_of_cons.
  - intros l s Hl. unfold first_free. by rewrite find_none.
  - intros n a s _ _ _ _. eexists. split; [done|]. done.
Qed.

Definition plain_flags : ArgFlagsTy := ArgFlags false false false None.
Definition signed_flags : ArgFlagsTy := ArgFlags true false false None.
Definition low_bits (vt : ArgVT) (v : Z) : Z := v.
Lemma arguments_arrive_witness :
  exists call fa,
    LowerCall low_bits (fun _ => 0) (callee_of "log" [(vt_bp64, plain_flags)]) CC_C true (fun _ => false)
      [(vt_bp64, plain_flags); (vt_i32, signed_flags)] [0x1000; 0xFFFFFFFF] = Some call /\
    LowerFormalArguments CC_C true (fun _ => false) [(vt_bp64, plain_flags)] = Some fa /\
    cs_regs call = [(RDx 16, 0x1000)] /\ cs_stores call = [(0, 2^64 - 1)] /\ fa_va fa = Some (0, 0).
Proof.
  destruct (arguments_arrive low_bits (fun _ _ => eq_refl) (fun _ => 0) "log" true (fun _ => false) (fun _ => false)
    [(vt_bp64, plain_flags)] [(vt_i32, signed_flags)] [0x1000; 0xFFFFFFFF]) as (call & fa & Hc & Hf & _ & _ & _ & Hr).
  - done.
  - reflexivity.
  - apply Forall_cons_2; [by intros [? ?]|]. apply Forall_cons_2; [by intros [? ?]|by apply Forall_nil_2].
  - intros [|[|i]] a v [= <-] [= <-]; by vm_compute.
  - exists call, fa. split; [exact Hc|]. split; [exact Hf|]. vm_compute in Hc, Hf. injection Hc as <-. injection Hf as <-.
    done.
Defined.

(** ** The convention of GCC *)
Definition gcc_mode (vt : ArgVT) : machine_mode :=
  match vt with vt_i8 => QImode | vt_i16 => HImode | vt_i32 => SImode | vt_i64 | vt_bp64 => DImode end.
Definition gcc_arg (a : ArgVT * ArgFlagsTy) : function_arg_info :=
  Arg (gcc_mode (fst a)) false (getSizeInBits (fst a) / 8) false.
Definition gcc_regno (r : Register) : option Z :=
  n ← getDadaoRegisterNumbering r;
  match reg_file r with RD => Some (DADAO_REG_RD_START + n) | RB => Some (DADAO_REG_RB_START + n) | _ => None end.
Lemma gcc_args_scalar l : Forall real_arg (map gcc_arg l) /\ forallb scalar (map gcc_arg l) = true.
Proof. induction l as [|[[] fl] l [IH1 IH2]]; (split; [try constructor|]); done. Qed.
Lemma callee_saved_gcc i : 0 <= i -> i < 64 -> callee_saved (RDx i) = true -> call_used_or_fixed_reg_p i = false.
Proof.
  intros H0 H1. assert (H : forallb (fun i => negb (callee_saved (RDx i)) || negb (call_used_or_fixed_reg_p i)) (seqZ 0 64) = true)
    by (vm_compute; reflexivity).
  rewrite forallb_forall in H. specialize (H i ltac:(apply list_elem_of_In, elem_of_seqZ; lia)).
  intros E. rewrite E in H. cbn in H. by apply negb_true_iff in H.
Qed.

(** C34: LLVM and GCC agree on calls.  For scalar arguments the register LLVM
    chooses is the one GCC's dd_function_arg returns, and it uses the stack
    exactly when GCC does; a returned value is in the register of GCC's
    dd_function_value; and a register LLVM's callees save is one GCC expects
    a call to keep. *)
Theorem calling_conventions_agree {St} `{CCLaws St} (l : list (ArgVT * ArgFlagsTy)) :
  Z.of_nat (length l) < 2^27 ->
  (exists vas s, Analyze CC_Dadao32 l cc_new = Some (vas, s) /\
     forall i a va, l !! i = Some a -> vas !! i = Some va ->
       assign_args (INIT_CUMULATIVE_ARGS false) (map gcc_arg l) !! i
       = Some (Some (n ← r ← reg_loc (va_loc va); gcc_regno r; Some (REG (gcc_mode (fst a)) n)))) /\
  (forall vt fl, getSizeInBits vt = 64 -> exists va s, Analyze RetCC_Dadao32 [(vt, fl)] cc_new = Some ([va], s) /\
     (n ← r ← reg_loc (va_loc va); gcc_regno r; Some (REG (gcc_mode vt) n)) = Some (dd_function_value (gcc_mode vt))) /\
  (forall r n, callee_saved r = true -> gcc_regno r = Some n -> call_used_or_fixed_reg_p n = false).
Proof.
  intros Hl. split; [|split].
  - destruct (callee_locs l Hl) as (s & Hs & _). eexists _, s. split; [exact Hs|]. intros i a va Ha Hva.
    rewrite list_lookup_imap, Ha in Hva. injection Hva as <-. destruct (gcc_args_scalar l) as [Hreal Hsc].
    unfold INIT_CUMULATIVE_ARGS. rewrite (args_placed (map gcc_arg l) 0 i (gcc_arg a)); [|done|done|by rewrite list_lookup_fmap, Ha].
    assert (scalar (gcc_arg a) = true) as ->.
    { rewrite forallb_forall in Hsc. apply Hsc, in_map, list_elem_of_In. by eapply list_elem_of_lookup_2. }
    do 2 f_equal. unfold assigned. destruct (promote (fst a) (snd a)). cbn [va_loc]. unfold place.
    rewrite (proj2 (Nat.ltb_lt i _)) by (by apply lookup_lt_Some in Ha).
    destruct (Nat.ltb_spec i 16), (Z.ltb_spec (0 + Z.of_nat i) 16); try lia; [|done]. cbn [reg_loc mbind option_bind andb].
    unfold gcc_regno. cbn. replace (hex6 _) with true; [done|]. symmetry. apply andb_true_iff; split; apply Z.leb_le; lia.
  - intros vt fl Hvt. destruct (alloc_reg_some [] RDRV [] cc_new) as (s & Ha & _); [by intros ? ?%elem_of_nil|apply new_regs|].
    cbn [app] in Ha. eexists _, s. rewrite analyze_order. cbn [analyze_from]. unfold RetCC_Dadao32. rewrite Ha.
    by destruct vt.
  - intros r n Hs Hn. destruct r as [i|i|i| | | | | | | | | | |]; try done. unfold gcc_regno in Hn. cbn in Hn.
    unfold callee_saved in Hs. pose proof Hs as [? ?]%andb_true_iff. assert (32 <= i <= 63) as Hi by lia.
    replace (hex6 i) with true in Hn by (symmetry; apply andb_true_iff; split; apply Z.leb_le; lia).
    injection Hn as <-. change DADAO_REG_RD_START with 0. rewrite Z.add_0_l. apply callee_saved_gcc; [lia..|exact Hs].
Qed.
Lemma calling_conventions_agree_witness :
  exists vas s, Analyze CC_Dadao32 (replicate 18 (vt_i64, plain_flags)) (cc_new : list_state) = Some (vas, s) /\
    assign_args (INIT_CUMULATIVE_ARGS false) (map gcc_arg (replicate 18 (vt_i64, plain_flags))) !! 15%nat
    = Some (Some (Some (REG DImode 31))) /\
    va_loc <$> vas !! 15%nat = Some (RegLoc (RDx 31)) /\ va_loc <$> vas !! 17%nat = Some (MemLoc 8).
Proof.
  destruct (calling_conventions_agree (St := list_state) (replicate 18 (vt_i64, plain_flags)) eq_refl)
    as ((vas & s & Ha & Hp) & _ & _).
  exists vas, s. split; [exact Ha|]. vm_compute in Ha. injection Ha as <- <-.
  split; [exact (Hp 15%nat _ _ eq_refl eq_refl)|done].
Defined.

(** ** Findings *)

(** Fast calls: every outgoing argument is marked inreg, no incoming one is,
    so the caller fills a register and the callee reads the stack. *)
Lemma fast_arguments_lost :
  LowerCall low_bits (fun _ => 0) (callee_of "f" [(vt_i64, plain_flags)]) CC_Fast false (fun _ => false)
    [(vt_i64, plain_flags)] [5] = Some (CallSeq 0 [] [(RDx 16, 5)] []) /\
  LowerFormalArguments CC_Fast false (fun _ => false) [(vt_i64, plain_flags)]
  = Some (Formals [ValAssign 0 vt_i64 (MemLoc 0) vt_i64 Loc_Full] [(8, 0)] None []).
Proof. done. Qed.
(** A variadic call through a pointer, and printf, pass the variable
    arguments in registers; a callee of this compiler reads them from the
    stack. *)
Lemma indirect_varargs_lost :
  LowerCall low_bits (fun _ => 0) Callee_indirect CC_C true (fun _ => false)
    [(vt_bp64, plain_flags); (vt_i64, plain_flags)] [0x1000; 5] = Some (CallSeq 0 [] [(RDx 16, 0x1000); (RDx 17, 5)] []) /\
  LowerFormalArguments CC_C true (fun _ => false) [(vt_bp64, plain_flags)]
  = Some (Formals [ValAssign 0 vt_bp64 (RegLoc (RDx 16)) vt_bp64 Loc_Full] [] (Some (0, 0)) []).
Proof. done. Qed.
(** A variadic call of an alias looks at a null pointer. *)
Lemma alias_varargs_crash cc p Outs OutVals :
  LowerCall low_bits (fun _ => 0) (S := list_state) Callee_alias cc true p Outs OutVals = None.
Proof. by destruct cc. Qed.
(** GCC keeps rb32 to rb63 over a call, LLVM's callees do not save them. *)
Lemma base_registers_not_saved i : 32 <= i < 64 ->
  callee_saved (RBx i) = false /\ call_used_or_fixed_reg_p (DADAO_REG_RB_START + i) = false.
Proof.
  intros Hi. split; [done|].
  assert (H : forallb (fun i => negb (call_used_or_fixed_reg_p (DADAO_REG_RB_START + i))) (seqZ 32 32) = true) by (vm_compute; reflexivity).
  rewrite forallb_forall in H. specialize (H i ltac:(apply list_elem_of_In, elem_of_seqZ; lia)). by apply negb_true_iff in H.
Qed.
(** The caller's frame: the offset -8 is an unsigned int that is extended
    with zeros. *)
Lemma caller_frame_far load fp : LowerFRAMEADDR load fp 1 = load (w64 (fp + 4294967288)).
Proof. done. Qed.

(** alloca: the area handed out ends where the outgoing arguments of the old
    stack pointer ended, and the outgoing arguments of the new one end where
    it begins. *)
Lemma alloca_area sp size max : 0 <= size <= sp -> 0 <= max -> sp + max < 2^64 ->
  LowerDYNAMIC_STACKALLOC sp size max = (sp - size, sp - size + max).
Proof. intros Hs Hm Hb. unfold LowerDYNAMIC_STACKALLOC. cbv zeta. rewrite !w64_id; rewrite ?w64_id; lia || done. Qed.
