(* ===== verification/LlvmAsm.v ===== *)
(** The LLVM back end: assembly text, DadaoAsmParser.cpp and
    DadaoInstPrinter.cpp.

    A line of operands is what the printer writes, a list of [piece]s, and
    what the parser reads, a list of tokens; LLVM's lexer between them and its
    parser of expressions are the interface [AsmLib].  The matcher and the
    writer TableGen generates are read off the instruction table. *)
From S2P Require Import Prelude Opcodes LlvmData LlvmMc LlvmInstr.
Local Open Scope string_scope.
Local Open Scope Z_scope.

(** ** Tokens *)
Inductive AsmToken :=
| Percent | Identifier (s : string) | Integer (v : Z) | LBrac | RBrac | LParen | RParen | Comma | Plus | Minus
| Dot | EndOfStatement | OtherToken.
(** What the printer writes: a string, a number in hexadecimal (formatHex) or
    decimal, or an expression. *)
Inductive piece := P_str (s : string) | P_hex (v : Z) | P_dec (v : Z) | P_expr (e : MCExpr).

(** The names of DadaoRegisterInfo.td. *)
Definition number_name (i : Z) : string := Py.str_nat (Z.to_nat i).
Definition getRegisterName (r : Register) : string :=
  match r with
  | RDx i => "rd" ++ number_name i | RBx i => "rb" ++ number_name i | RAx i => "ra" ++ number_name i
  | RDZERO => "rdzero" | RDRV => "rdrv" | RBIP => "rbip" | RBSP => "rbsp" | RBFP => "rbfp" | RBGP => "rbgp"
  | RBTP => "rbtp" | RBCA => "rbca" | RAVV => "ravv" | RASP => "rasp" | RDCC => "rdcc"
  end.
Definition int_tokens (v : Z) : list AsmToken := if v <? 0 then [Minus; Integer (- v)] else [Integer v].
(** A piece or token that ends a number or a name. *)
Definition sep (l : list piece) : Prop := match l with [] => True | p :: _ => p = P_str ", " \/ p = P_str "]" end.
Definition ends_operand (l : list AsmToken) : bool :=
  match l with Comma :: _ | RBrac :: _ | RParen :: _ | EndOfStatement :: _ => true | _ => false end.

(** [parseExpression] and [parseIdentifier] return what follows; [None] is an
    error.  [variable] is the value of a symbol that is one. *)
Class AsmLib := {
  lex : list piece -> list AsmToken;
  name_ok : string -> bool;
  parseExpression : list AsmToken -> option (MCExpr * list AsmToken);
  asm_parseIdentifier : list AsmToken -> option (string * list AsmToken);
  MatchRegisterName : string -> option Register;
  variable : string -> option MCExpr }.
Class AsmLaws `{AsmLib} := {
  lex_end : lex [] = [EndOfStatement];
  lex_percent : forall l, lex (P_str "%" :: l) = Percent :: lex l;
  lex_lbrac : forall l, lex (P_str "[" :: l) = LBrac :: lex l;
  lex_rbrac : forall l, lex (P_str "]" :: l) = RBrac :: lex l;
  lex_comma : forall l, lex (P_str ", " :: l) = Comma :: lex l;
  lex_comma_zero : forall l, sep l -> lex (P_str ", 0" :: l) = Comma :: Integer 0 :: lex l;
  lex_name : forall s l, name_ok s = true -> sep l -> lex (P_str s :: l) = Identifier s :: lex l;
  lex_symbol : forall s l, name_ok s = true -> sep l -> lex (P_expr (MCSymbolRefExpr s) :: l) = Identifier s :: lex l;
  lex_hex : forall v l, sep l -> lex (P_hex v :: l) = (int_tokens v ++ lex l)%list;
  lex_dec : forall v l, sep l -> lex (P_dec v :: l) = (int_tokens v ++ lex l)%list;
  register_names : forall r, GPRDRegClass r || GPRBRegClass r = true ->
    name_ok (getRegisterName r) = true /\ MatchRegisterName (getRegisterName r) = Some r;
  matched_name : forall s r, MatchRegisterName s = Some r -> s = getRegisterName r;
  wyde_names : forall w, name_ok (dadaoWydePositionToString w) = true;
  parse_number : forall v l, 0 <= v -> ends_operand l = true ->
    parseExpression (Integer v :: l) = Some (MCConstantExpr v, l) /\
    parseExpression (Minus :: Integer v :: l) = Some (MCConstantExpr (- v), l);
  parse_identifier : forall s l, asm_parseIdentifier (Identifier s :: l) = Some (s, l) }.

(** ** DadaoOperand *)

(** A register is always made by createRegD. *)
Inductive DadaoOperand :=
| TOKEN (s : string)
| REGISTERD (r : Register)
| IMMEDIATE (e : MCExpr)
| MEMORY_REG_IMM (BaseReg : Register) (Offset : MCExpr)
| MEMORY_REG_REG (BaseReg OffsetReg : Register) (RegCnt : Z).
Definition op_isImm (o : DadaoOperand) : bool := match o with IMMEDIATE _ => true | _ => false end.
Definition op_isReg (o : DadaoOperand) : bool := match o with REGISTERD _ => true | _ => false end.
Definition isToken (o : DadaoOperand) : bool := match o with TOKEN _ => true | _ => false end.
Definition isMemRegImm (o : DadaoOperand) : bool := match o with MEMORY_REG_IMM _ _ => true | _ => false end.
Definition isMemRegReg (o : DadaoOperand) : bool := match o with MEMORY_REG_REG _ _ _ => true | _ => false end.
(** A constant that satisfies [f]. *)
Definition const_op (f : Z -> bool) (o : DadaoOperand) : bool :=
  match o with IMMEDIATE (MCConstantExpr v) => f v | _ => false end.
(** Or a lo() expression, alone or in a sum. *)
Definition abs_lo (e : MCExpr) : bool :=
  match e with
  | DadaoMCExpr VK_Dadao_ABS_LO _ => true
  | MCBinaryAdd (DadaoMCExpr VK_Dadao_ABS_LO _) _ | MCBinarySub (DadaoMCExpr VK_Dadao_ABS_LO _) _ => true
  | _ => false
  end.
Definition const_or_lo (f : Z -> bool) (o : DadaoOperand) : bool :=
  match o with
  | IMMEDIATE (MCConstantExpr v) => f v
  | IMMEDIATE e => abs_lo e
  | _ => false
  end.
Definition int32 (v : Z) : Z := s32 (w32 v).
Definition isBrImm (o : DadaoOperand) : bool :=
  match o with
  | IMMEDIATE (MCConstantExpr v) => isUInt 25 (int32 v) && (int32 v mod 4 =? 0)
  | IMMEDIATE _ => true
  | _ => false
  end.
Definition isBrTarget (o : DadaoOperand) : bool := isBrImm o || isToken o.
Definition isCallTarget (o : DadaoOperand) : bool := op_isImm o || isToken o.
Definition isLoImm16 : DadaoOperand -> bool := const_or_lo (fun v => isUInt 16 (int32 v)).
Definition isLoImm16Signed : DadaoOperand -> bool := const_or_lo (fun v => isInt 16 (int32 v)).
Definition isLoImm16And : DadaoOperand -> bool := const_op (fun v => Z.land v (Z.lnot 0xffff) =? 0xffff0000).
Definition isImm12 : DadaoOperand -> bool := const_op (isInt 12).
Definition isLoImm12 : DadaoOperand -> bool := const_or_lo (isUInt 12).
Definition isLoImm12And : DadaoOperand -> bool := const_op (fun v => Z.land v (Z.lnot 0xFFF) =? Z.lnot 0xFFF).
Definition isLoImm18 : DadaoOperand -> bool := const_or_lo (isUInt 18).
Definition isImmWyde0 : DadaoOperand -> bool := const_op (isUInt 16).
Definition isImmHex1 : DadaoOperand -> bool := const_op (fun v => v <=? 63).
Definition isWydePosition : DadaoOperand -> bool := const_op (fun v => w64 v <? 4).
Definition isBareSymbol (o : DadaoOperand) : bool := true.

(** The operands a parsed operand adds to the instruction; [None] is a failed
    assertion. *)
Definition addExpr (e : MCExpr) : MCOperand :=
  match e with MCConstantExpr v => MCImm (int32 v) | _ => MCExp e end.
Definition getImm (o : DadaoOperand) : option MCExpr := match o with IMMEDIATE e => Some e | _ => None end.
Definition addRegOperands (o : DadaoOperand) : option (list MCOperand) :=
  match o with REGISTERD r => Some [MCReg r] | _ => None end.
Definition addImmOperands (o : DadaoOperand) : option (list MCOperand) := e ← getImm o; Some [addExpr e].
Definition addLoImmOperands (cast : Z -> Z) (o : DadaoOperand) : option (list MCOperand) :=
  e ← getImm o;
  match e with MCConstantExpr v => Some [MCImm (cast v)] | _ => if abs_lo e then Some [MCExp e] else None end.
Definition addLoImm16Operands : DadaoOperand -> option (list MCOperand) := addLoImmOperands int32.
Definition addLoImm12Operands : DadaoOperand -> option (list MCOperand) := addLoImmOperands (fun v => v).
Definition addLoImm18Operands : DadaoOperand -> option (list MCOperand) := addLoImmOperands (fun v => v).
Definition addLoImm12AndOperands (o : DadaoOperand) : option (list MCOperand) :=
  e ← getImm o; match e with MCConstantExpr v => Some [MCImm (Z.land v 0xfff)] | _ => None end.
Definition addMemRegImmOperands (o : DadaoOperand) : option (list MCOperand) :=
  match o with
  | MEMORY_REG_IMM b e => Some [MCReg b; addExpr e; MCImm 0]
  | MEMORY_REG_REG b _ n => Some [MCReg b; MCImm 0; MCImm n]
  | _ => None
  end.
Definition addMemRegRegOperands (o : DadaoOperand) : option (list MCOperand) :=
  match o with MEMORY_REG_REG b r n => Some [MCReg b; MCReg r; MCImm n] | _ => None end.

(** The match class of an operand of the table. *)
Definition match_class (c : opclass) (o : DadaoOperand) : bool :=
  match c with
  | GPRD => match o with REGISTERD r => GPRDRegClass r | _ => false end
  | GPRB => match o with REGISTERD r => GPRBRegClass r | _ => false end
  | C_imm12 => isImm12 o
  | C_i64lo12and => isLoImm12And o
  | C_i64lo12s | C_i64lo12z => isLoImm12 o
  | C_i64lo18z => isLoImm18 o
  | C_i64h1 => isImmHex1 o
  | C_wyde _ => isImmWyde0 o
  | C_wpos _ => isWydePosition o
  | MEM_RRII => isMemRegImm o
  | MEM_RRRI => isMemRegReg o
  | BrTarget => isBrTarget o
  | CallTarget => isCallTarget o
  | bare_symbol => isBareSymbol o
  end.
Definition add_operands (c : opclass) (o : DadaoOperand) : option (list MCOperand) :=
  match c with
  | GPRD | GPRB => addRegOperands o
  | C_i64lo12and => addLoImm12AndOperands o
  | C_i64lo12s | C_i64lo12z => addLoImm12Operands o
  | C_i64lo18z => addLoImm18Operands o
  | MEM_RRII => addMemRegImmOperands o
  | MEM_RRRI => addMemRegRegOperands o
  | _ => addImmOperands o
  end.

(** The check of the wyde position, operand 2 with the mnemonic counted. *)
Definition checkOpcodeWydeposMatch (op : Opcode) (Wydepos : Z) : option bool :=
  match op with
  | ORW_RWII w | ANDNW_RWII w | SETZW_RWII w | SETOW_RWII w => Some (w64 Wydepos =? wpos_val w)
  | _ => None
  end.
Definition checkEarlyTargetMatchPredicate (op : Opcode) (Operands : list DadaoOperand) : option bool :=
  match op with
  | ORW_RWII _ | ANDNW_RWII _ | SETZW_RWII _ | SETOW_RWII _ =>
      o ← Operands !! 2%nat;
      match o with
      | IMMEDIATE (MCConstantExpr v) => checkOpcodeWydeposMatch op v
      | _ => Some false
      end
  | _ => Some true
  end.

(** ** The parser *)

(** Each parser returns the tokens that are left. *)
Inductive MatchResult := NoMatch | ParseFail | Success (o : DadaoOperand) | NullPointer.
Definition st_line (Operands : list DadaoOperand) : list DadaoOperand :=
  (TOKEN "s" :: IMMEDIATE (MCConstantExpr 0) :: drop 1 Operands)%list.

Section Parser.
Context `{AsmLib}.
Implicit Types toks : list AsmToken.

Definition parseRegister (RestoreOnFailure : bool) toks : option DadaoOperand * list AsmToken :=
  let percent := match toks with Percent :: _ => true | _ => false end in
  let rest := if percent then drop 1 toks else toks in
  let failed := (None, if percent && RestoreOnFailure then toks else rest) in
  match rest with
  | Identifier s :: rest' =>
      match MatchRegisterName s with
      | Some r => (Some (REGISTERD r), rest')
      | None => failed
      end
  | _ => failed
  end.

(** A wyde position, hi(symbol), lo(symbol) or a symbol, with an addend. *)
Definition parseIdentifier toks : option DadaoOperand * list AsmToken :=
  match toks with
  | Identifier _ :: _ =>
      match asm_parseIdentifier toks with
      | None => (None, toks)
      | Some (name, toks) =>
          match wposToDadaoWydePosition name with
          | Some w => (Some (IMMEDIATE (MCConstantExpr (wpos_val w))), toks)
          | None =>
              let Kind :=
                if String.eqb (lower name) "hi" then VK_Dadao_ABS_HI
                else if String.eqb (lower name) "lo" then VK_Dadao_ABS_LO else VK_Dadao_None in
              let variant := match Kind with VK_Dadao_None => false | _ => true end in
              match (if variant
                     then match toks with LParen :: toks => asm_parseIdentifier toks | _ => None end
                     else Some (name, toks)) with
              | None => (None, toks)
              | Some (name, toks) =>
                  match (match toks with
                         | Plus :: _ => '(e, toks) ← parseExpression toks; Some (Some e, toks)
                         | _ => Some (None, toks)
                         end) with
                  | None => (None, toks)
                  | Some (RHS, toks) =>
                      let Res := DadaoMCExpr Kind (MCSymbolRefExpr name) in
                      let Res := match RHS with Some e => MCBinaryAdd Res e | None => Res end in
                      if variant then
                        match toks with RParen :: toks => (Some (IMMEDIATE Res), toks) | _ => (None, toks) end
                      else (Some (IMMEDIATE Res), toks)
                  end
              end
          end
      end
  | _ => (None, toks)
  end.
Definition parseImmediate toks : option DadaoOperand * list AsmToken :=
  match toks with
  | Identifier _ :: _ => parseIdentifier toks
  | (Plus | Minus | Integer _ | Dot) :: _ =>
      match parseExpression toks with
      | Some (e, toks) => (Some (IMMEDIATE e), toks)
      | None => (None, toks)
      end
  | _ => (None, toks)
  end.

Definition getReg (o : DadaoOperand) : Register := match o with REGISTERD r => r | _ => RDZERO end.
Definition MorphToMemRegImm (b : Register) (o : DadaoOperand) : MatchResult :=
  match o with IMMEDIATE e => Success (MEMORY_REG_IMM b e) | _ => ParseFail end.
(** The operand in brackets is complete; the offset is checked. *)
Definition memory_operand (b : Register) (Offset : option DadaoOperand) : MatchResult :=
  match Offset with
  | None => NullPointer
  | Some o =>
      if op_isImm o then if isLoImm16Signed o then MorphToMemRegImm b o else ParseFail
      else Success (MEMORY_REG_REG b (getReg o) 0)
  end.
Definition parseMemoryOperand toks : MatchResult * list AsmToken :=
  match toks with
  | LBrac :: toks =>
      match parseRegister false toks with
      | (None, toks) =>
          match parseImmediate toks with
          | (Some o, RBrac :: toks) =>
              if negb (isLoImm16Signed o) then (ParseFail, toks) else (MorphToMemRegImm RDZERO o, toks)
          | (_, toks) => (ParseFail, toks)
          end
      | (Some b, Comma :: toks) =>
          let '(Offset, toks) :=
            match parseRegister false toks with
            | (Some o, toks) => (Some o, toks)
            | (None, toks) => parseImmediate toks
            end in
          match toks with
          | RBrac :: toks =>
              (memory_operand (getReg b)
                 (Some match Offset with Some o => o | None => IMMEDIATE (MCConstantExpr 0) end), toks)
          | _ =>
              if Offset is Some _ then (ParseFail, toks)
              else
                match parseRegister false toks with
                | (Offset, RBrac :: toks) => (memory_operand (getReg b) Offset, toks)
                | (_, toks) => (ParseFail, toks)
                end
          end
      | (Some _, toks) => (ParseFail, toks)
      end
  | _ => (NoMatch, toks)
  end.

(** [suffix] is whether the name ends in @plt. *)
Definition consume_plt (s : string) : bool := EndsWith s "@plt".
Definition parseBareSymbol toks : MatchResult * list AsmToken :=
  match toks with
  | Identifier _ :: _ =>
      match asm_parseIdentifier toks with
      | None => (ParseFail, toks)
      | Some (name, rest) =>
          if consume_plt name then (ParseFail, rest)
          else
            match (match variable name with
                   | Some (MCSymbolRefExpr s) => Some (MCSymbolRefExpr s)
                   | Some _ => None
                   | None => Some (MCSymbolRefExpr name)
                   end) with
            | None => (NoMatch, toks)
            | Some Res =>
                match rest with
                | Plus :: rest =>
                    match parseExpression rest with
                    | Some (e, rest) => (Success (IMMEDIATE (MCBinaryAdd Res e)), rest)
                    | None => (ParseFail, rest)
                    end
                | Minus :: rest =>
                    match parseExpression rest with
                    | Some (e, rest) => (Success (IMMEDIATE (MCBinarySub Res e)), rest)
                    | None => (ParseFail, rest)
                    end
                | _ => (Success (IMMEDIATE Res), rest)
                end
            end
      end
  | _ => (NoMatch, toks)
  end.

(** The opcodes of the table, for the generated matcher: the classes with a
    parser of their own that operand [n] of the rows of a mnemonic has. *)
Definition wydes (f : wyde_pos -> Opcode) : list Opcode := [f WPOS_0; f WPOS_1; f WPOS_2; f WPOS_3].
Definition all_opcodes : list Opcode :=
  [SWYM_OIII; AND_ORRR; ORR_ORRR; XOR_ORRR; XNOR_ORRR; SHLU_ORRR; SHRS_ORRR; SHRU_ORRR;
   RD2RD_ORRI; RD2RB_ORRI; RB2RD_ORRI; RB2RB_ORRI; PseudoSETRD; PseudoSETRB; SHLU_ORRI; SHRS_ORRI; SHRU_ORRI;
   ADD_RRRR; SUB_RRRR; ADD_RB_ORRR; SUB_RB_ORRR; ANDI_RRII; ADDI_RRII; ADDI_RB_RRII;
   MULS_RRRR; MULU_RRRR; DIVS_RRRR; DIVU_RRRR; CMPS_ORRR; CMPU_ORRR; CMP_ORRR; CMPS_RRII; CMPU_RRII; CSN; CSZ; CSP]
  ++ wydes ORW_RWII ++ wydes ORW_RB_RWII ++ wydes ANDNW_RWII ++ wydes ANDNW_RB_RWII
  ++ wydes SETZW_RWII ++ wydes SETZW_RB_RWII ++ wydes SETOW_RWII
  ++ [LDBS_RRII; LDWS_RRII; LDTS_RRII; LDO_RRII; LDBU_RRII; LDWU_RRII; LDTU_RRII; LDO_RB_RRII;
      LDMBS_RRRI; LDMWS_RRRI; LDMTS_RRRI; LDMO_RD_RRRI; LDMBU_RRRI; LDMWU_RRRI; LDMTU_RRRI; LDMO_RB_RRRI;
      STB_RRII; STW_RRII; STT_RRII; STO_RRII; STO_RB_RRII;
      STMB_RRRI; STMW_RRRI; STMT_RRRI; STMO_RD_RRRI; STMO_RB_RRRI;
      BRN_RIII; BRNN_RIII; BRZ_RIII; BRNZ_RIII; BRP_RIII; BRNP_RIII; BREQ_RRII; BRNE_RRII;
      JUMP_IIII; JUMP_RRII; CALL_IIII; CALL_RRII; RET_FIXME].
Definition asm_class (op : Opcode) (n : nat) : option opclass :=
  name ← AsmOperands (desc op) !! n; assoc name (operand_list op).
Definition custom_classes (Mnemonic : string) (n : nat) : list opclass :=
  List.filter (fun c => match c with MEM_RRII | MEM_RRRI | bare_symbol => true | _ => false end)
    (omap (fun op => if String.eqb (AsmMnemonic (desc op)) Mnemonic then asm_class op n else None) all_opcodes).
Definition tryCustomParseOperand (c : opclass) toks : MatchResult * list AsmToken :=
  match c with
  | MEM_RRII | MEM_RRRI => parseMemoryOperand toks
  | bare_symbol => parseBareSymbol toks
  | _ => (NoMatch, toks)
  end.
Fixpoint MatchOperandParserImpl (cs : list opclass) toks : MatchResult * list AsmToken :=
  match cs with
  | [] => (NoMatch, toks)
  | c :: cs =>
      match tryCustomParseOperand c toks with
      | (NoMatch, toks) => MatchOperandParserImpl cs toks
      | r => r
      end
  end.
Definition operand_parse (cs : list opclass) toks : MatchResult * list AsmToken :=
  match MatchOperandParserImpl cs toks with
  | (NoMatch, toks) =>
      match parseRegister false toks with
      | (Some o, toks) => (Success o, toks)
      | (None, toks) =>
          match parseImmediate toks with
          | (Some o, toks) => (Success o, toks)
          | (None, toks) => (ParseFail, toks)
          end
      end
  | r => r
  end.
(** [Operands] holds the mnemonic and the operands before. *)
Definition parseOperand (Operands : list DadaoOperand) (Mnemonic : string) toks : MatchResult * list AsmToken :=
  operand_parse (custom_classes Mnemonic (length Operands - 1)) toks.
(** The operands after the first; a round consumes a comma. *)
Fixpoint parse_rest (fuel : nat) (Operands : list DadaoOperand) (Mnemonic : string) toks
    : option (list DadaoOperand * list AsmToken) :=
  match fuel, toks with
  | Datatypes.S fuel, Comma :: toks =>
      match parseOperand Operands Mnemonic toks with
      | (Success o, toks) => parse_rest fuel (Operands ++ [o]) Mnemonic toks
      | _ => None
      end
  | _, _ => Some (Operands, toks)
  end.
(** [None] is an error; the code's two special cases for one operand are
    left-overs of another instruction set. *)
Definition ParseInstruction (Name : string) toks : option (list DadaoOperand * list AsmToken) :=
  let Operands := [TOKEN Name] in
  match toks with
  | EndOfStatement :: _ => Some (Operands, toks)
  | _ =>
      match parseOperand Operands Name toks with
      | (Success o, toks) =>
          let Operands := (Operands ++ [o])%list in
          let at_end := match toks with EndOfStatement :: _ => true | _ => false end in
          let Operands := if at_end && String.eqb Name "st" && (length Operands =? 2)%nat then st_line Operands else Operands in
          let Operands :=
            if at_end && String.prefix "bt" Name && (length Operands =? 3)%nat
            then (TOKEN "bt" :: drop 2 Operands)%list else Operands in
          parse_rest (length toks) Operands Name toks
      | _ => None
      end
  end.
End Parser.

(** What the generated matcher asks of a row, and the instruction it makes
    of the operands: an output that is tied to an input is the same operand. *)
Definition asm_operand (op : Opcode) (Operands : list DadaoOperand) (n : string) : option DadaoOperand :=
  i ← fst <$> list_find (eq n) (AsmOperands (desc op)); Operands !! Datatypes.S i.
Definition untied (n : string) : string := if String.eqb n "RxHa_wb" then "RxHa" else n.
Definition row_matches (op : Opcode) (Operands : list DadaoOperand) : bool :=
  (length Operands =? Datatypes.S (length (AsmOperands (desc op))))%nat &&
  forallb (fun n => match assoc n (operand_list op), asm_operand op Operands n with
                    | Some c, Some o => match_class c o
                    | _, _ => false
                    end) (AsmOperands (desc op)) &&
  default false (checkEarlyTargetMatchPredicate op Operands).
Definition convertToMCInst (op : Opcode) (Operands : list DadaoOperand) : option MCInst :=
  l ← mapM (fun '(n, c) => o ← asm_operand op Operands (untied n); add_operands c o) (operand_list op);
  Some (MkMCInst op (concat l)).

(** ** The printer *)
Definition printOperand (Op : MCOperand) : list piece :=
  match Op with
  | MCReg r => [P_str "%"; P_str (getRegisterName r)]
  | MCImm v => [P_hex v]
  | MCExp e => [P_expr e]
  end.
Definition printLo12AndImmOperand (Op : MCOperand) : option (list piece) :=
  match Op with
  | MCImm v => Some [P_hex (Z.lor (Z.lnot 0xFFF) v)]
  | MCExp e => Some [P_expr e]
  | MCReg _ => None
  end.
Definition printMemoryBaseRegister (RegOp : MCOperand) : option (list piece) :=
  match RegOp with MCReg r => Some [P_str "%"; P_str (getRegisterName r)] | _ => None end.
Definition printMemoryImmediateOffset (SizeInBits : Z) (OffsetOp : MCOperand) : option (list piece) :=
  match OffsetOp with
  | MCImm v => if isInt SizeInBits v then Some [P_dec v] else None
  | MCExp e => Some [P_expr e]
  | MCReg _ => None
  end.
Definition printMemRRIIOperand (RegOp OffsetOp : MCOperand) : option (list piece) :=
  b ← printMemoryBaseRegister RegOp; o ← printMemoryImmediateOffset 12 OffsetOp;
  Some ([P_str "["] ++ b ++ [P_str ", "] ++ o ++ [P_str "]"])%list.
Definition printMemRRRIOperand (RegOp OffsetOp : MCOperand) : option (list piece) :=
  b ← printMemoryBaseRegister RegOp; o ← printMemoryBaseRegister OffsetOp;
  Some ([P_str "["] ++ b ++ [P_str ", "] ++ o ++ [P_str "]"; P_str ", 0"])%list.
Definition printWPosOperand (Op : MCOperand) : option (list piece) :=
  match Op with
  | MCImm 0 => Some [P_str (dadaoWydePositionToString WPOS_0)]
  | MCImm 1 => Some [P_str (dadaoWydePositionToString WPOS_1)]
  | MCImm 2 => Some [P_str (dadaoWydePositionToString WPOS_2)]
  | MCImm 3 => Some [P_str (dadaoWydePositionToString WPOS_3)]
  | MCImm _ => Some [P_str "<und>"]
  | _ => None
  end.
Definition print_class (c : opclass) (l : list MCOperand) : option (list piece) :=
  match c, l with
  | MEM_RRII, [b; o] => printMemRRIIOperand b o
  | MEM_RRRI, [b; o; _] => printMemRRRIOperand b o
  | (MEM_RRII | MEM_RRRI), _ => None
  | C_wpos _, [o] => printWPosOperand o
  | C_i64lo12and, [o] => printLo12AndImmOperand o
  | _, [o] => Some (printOperand o)
  | _, _ => None
  end.
(** The operands of an instruction by name, and the text of a row: its
    operands separated by commas. *)
Fixpoint slices (ops : list (string * opclass)) (l : list MCOperand) : option (list (string * (opclass * list MCOperand))) :=
  match ops with
  | [] => Some []
  | (n, c) :: ops =>
      if (length l <? op_size c)%nat then None
      else s ← slices ops (drop (op_size c) l); Some ((n, (c, take (op_size c) l)) :: s)
  end.
Fixpoint separated (l : list (list piece)) : list piece :=
  match l with [] => [] | [p] => p | p :: l => (p ++ P_str ", " :: separated l)%list end.
Definition printInstruction (MI : MCInst) : option (list piece) :=
  s ← slices (operand_list (getOpcode MI)) (Operands MI);
  ps ← mapM (fun n => '(c, l) ← assoc n s; print_class c l) (AsmOperands (desc (getOpcode MI)));
  Some (separated ps).
