(* ===== verification/LlvmAsmProps.v ===== *)
(** The LLVM back end: what the instruction printer writes the parser reads
    back. *)
From stdpp Require Import list.
From S2P Require Import Prelude Opcodes LlvmData LlvmMc LlvmInstr LlvmAsm.
Local Open Scope string_scope.
Local Open Scope Z_scope.

Lemma int32_id v : - 2^31 <= v < 2^31 -> int32 v = v.
Proof.
  intros Hv. transitivity (sext 32 v); [|by apply sext_id]. unfold int32, s32, sext, w32.
  by rewrite Z.mod_pow2_bits_low, Zmod_mod by lia.
Qed.

Section Text.
Context `{AsmLaws}.

(** ** Operands *)

(** A symbol the parser takes for one. *)
Definition plain_symbol (s : string) : bool :=
  name_ok s && bool_decide (MatchRegisterName s = None) && bool_decide (wposToDadaoWydePosition s = None) &&
  negb (String.eqb (lower s) "hi") && negb (String.eqb (lower s) "lo").
(** The operands whose text is read back: registers of the class, immediates
    in the range of the field, symbols; a base and an index register are
    not. *)
Definition printable (c : opclass) (l : list MCOperand) : bool :=
  match c, l with
  | GPRD, [MCReg r] => GPRDRegClass r
  | GPRB, [MCReg r] => GPRBRegClass r
  | C_imm12, [MCImm v] => isInt 12 v
  | (C_i64lo12and | C_i64lo12s | C_i64lo12z), [MCImm v] => isUInt 12 v
  | C_i64lo18z, [MCImm v] => isUInt 18 v
  | C_i64h1, [MCImm v] => isUInt 6 v
  | C_wyde _, [MCImm v] => isUInt 16 v
  | C_wpos w, [MCImm v] => v =? wpos_val w
  | MEM_RRII, [MCReg b; MCImm v] => GPRBRegClass b && isInt 12 v
  | BrTarget, [MCImm v] => isUInt 25 v && (v mod 4 =? 0)
  | CallTarget, [MCImm v] => isInt 32 v
  | (BrTarget | CallTarget), [MCExp (MCSymbolRefExpr s)] => plain_symbol s
  | bare_symbol, [MCExp (MCSymbolRefExpr s)] => name_ok s && bool_decide (variable s = None) && negb (consume_plt s)
  | _, _ => false
  end.
Definition reg_tokens (r : Register) : list AsmToken := [Percent; Identifier (getRegisterName r)].
Definition class_tokens (c : opclass) (l : list MCOperand) : list AsmToken :=
  match c, l with
  | MEM_RRII, [MCReg b; MCImm v] => LBrac :: reg_tokens b ++ Comma :: int_tokens v ++ [RBrac]
  | C_wpos w, _ => [Identifier (dadaoWydePositionToString w)]
  | C_i64lo12and, [MCImm v] => int_tokens (Z.lor (Z.lnot 0xFFF) v)
  | _, [MCReg r] => reg_tokens r
  | _, [MCImm v] => int_tokens v
  | _, [MCExp (MCSymbolRefExpr s)] => [Identifier s]
  | _, _ => []
  end.
(** What the operands are after the text is read: a memory operand has a
    third part, a symbol of a branch is wrapped. *)
Definition reread (c : opclass) (l : list MCOperand) : list MCOperand :=
  match c, l with
  | MEM_RRII, [b; o] => [b; o; MCImm 0]
  | (BrTarget | CallTarget), [MCExp e] => [MCExp (DadaoMCExpr VK_Dadao_None e)]
  | _, _ => l
  end.

Lemma sep_ends l : sep l -> ends_operand (lex l) = true.
Proof.
  destruct l as [|p l]; [by rewrite lex_end|]. intros [-> | ->]; [by rewrite lex_comma|by rewrite lex_rbrac].
Qed.
Lemma lex_reg r l : GPRDRegClass r || GPRBRegClass r = true -> sep l ->
  lex (P_str "%" :: P_str (getRegisterName r) :: l) = (reg_tokens r ++ lex l)%list.
Proof. intros Hr Hl. rewrite lex_percent, lex_name; [done|apply register_names, Hr|done]. Qed.

(** The text of an operand. *)
Lemma class_lexes c l : printable c l = true -> exists ps, print_class c l = Some ps /\
  forall rest, sep rest -> lex (ps ++ rest) = (class_tokens c l ++ lex rest)%list.
Proof.
  intros Hp.
  destruct c as [| | | | | | | |w|w| | | | |], l as [|[r|v|e] [|[r2|v2|e2] [|]]]; try discriminate Hp; cbn [printable] in Hp; cbn [print_class printOperand];
    try (destruct e as [|s| | |]; try discriminate Hp);
    try (eexists; split; [reflexivity|]; intros rest Hr; cbn [app class_tokens];
         first [ apply lex_reg; [by rewrite Hp, ?orb_true_r|done] | by apply lex_hex ]).
  - apply Z.eqb_eq in Hp as ->. exists [P_str (dadaoWydePositionToString w)]. split; [by destruct w|].
    intros rest Hr. apply lex_name; [apply wyde_names|done].
  - cbn in Hp. apply andb_true_iff in Hp as [Hb Hv]. unfold printMemRRIIOperand, printMemoryImmediateOffset.
    cbn [printMemoryBaseRegister mbind option_bind]. rewrite Hv. eexists. split; [reflexivity|]. intros rest Hr.
    cbn [app class_tokens]. rewrite lex_lbrac, lex_reg; [|by rewrite Hb, orb_true_r|by left].
    rewrite lex_comma, lex_dec by by right. rewrite lex_rbrac. cbn. by rewrite <- app_assoc.
  - eexists. split; [reflexivity|]. intros rest Hr. cbn [app class_tokens]. apply lex_symbol; [|done].
    cbn in Hp. unfold plain_symbol in Hp. by repeat apply andb_true_iff in Hp as [Hp _].
  - eexists. split; [reflexivity|]. intros rest Hr. cbn [app class_tokens]. apply lex_symbol; [|done].
    cbn in Hp. unfold plain_symbol in Hp. by repeat apply andb_true_iff in Hp as [Hp _].
  - eexists. split; [reflexivity|]. intros rest Hr. cbn [app class_tokens]. apply lex_symbol; [|done].
    cbn in Hp. by repeat apply andb_true_iff in Hp as [Hp _].
Qed.

(** ** Parsing an operand *)
(** The parsers of other classes that the operand of class [c] may meet. *)
Definition custom_fits (cs : list opclass) (c : opclass) : bool :=
  match c with
  | MEM_RRII => match cs with MEM_RRII :: _ => true | _ => false end
  | bare_symbol => match cs with bare_symbol :: _ => true | _ => false end
  | GPRD | GPRB => forallb (fun c => bool_decide (c = bare_symbol)) cs
  | _ => bool_decide (cs = [])
  end.

Lemma parse_reg restore r T : GPRDRegClass r || GPRBRegClass r = true ->
  parseRegister restore (reg_tokens r ++ T) = (Some (REGISTERD r), T).
Proof. intros Hr. cbn. by destruct (register_names r Hr) as [_ ->]. Qed.
Lemma parse_int v T : ends_operand T = true ->
  (forall restore, parseRegister restore (int_tokens v ++ T) = (None, (int_tokens v ++ T)%list)) /\
  parseImmediate (int_tokens v ++ T) = (Some (IMMEDIATE (MCConstantExpr v)), T).
Proof.
  intros HT. unfold int_tokens. destruct (Z.ltb_spec v 0) as [Hv|Hv]; cbn.
  - destruct (parse_number (- v) T) as [_ ->]; [lia|done|]. by rewrite Z.opp_involutive.
  - by destruct (parse_number v T Hv HT) as [-> _].
Qed.
Lemma wyde_no_register w : MatchRegisterName (dadaoWydePositionToString w) = None.
Proof.
  destruct (MatchRegisterName _) as [r|] eqn:E; [|done]. apply matched_name in E. by destruct w, r.
Qed.
Lemma parse_wyde w T : 
  parseRegister false (Identifier (dadaoWydePositionToString w) :: T) = (None, Identifier (dadaoWydePositionToString w) :: T) /\
  parseImmediate (Identifier (dadaoWydePositionToString w) :: T) = (Some (IMMEDIATE (MCConstantExpr (wpos_val w))), T).
Proof.
  cbn. rewrite wyde_no_register, parse_identifier. split; [done|]. by destruct w.
Qed.
Lemma parse_symbol s T : plain_symbol s = true -> ends_operand T = true ->
  parseRegister false (Identifier s :: T) = (None, Identifier s :: T) /\
  parseImmediate (Identifier s :: T) = (Some (IMMEDIATE (DadaoMCExpr VK_Dadao_None (MCSymbolRefExpr s))), T).
Proof.
  unfold plain_symbol. intros Hs HT. apply andb_true_iff in Hs as [Hs Hlo%negb_true_iff].
  apply andb_true_iff in Hs as [Hs Hhi%negb_true_iff]. apply andb_true_iff in Hs as [Hs Hw%bool_decide_eq_true].
  apply andb_true_iff in Hs as [_ Hr%bool_decide_eq_true].
  cbn. rewrite Hr, parse_identifier, Hw, Hhi, Hlo. cbn. split; [done|]. by destruct T as [|[] T].
Qed.
Lemma no_custom cs r T : forallb (fun c => bool_decide (c = bare_symbol)) cs = true ->
  MatchOperandParserImpl cs (reg_tokens r ++ T) = (NoMatch, (reg_tokens r ++ T)%list).
Proof.
  induction cs as [|c cs IH]; [done|]. cbn [forallb]. intros [->%bool_decide_eq_true Hcs]%andb_true_iff. cbn. by apply IH.
Qed.

Lemma memory_parses b v T : GPRBRegClass b = true -> isInt 12 v = true ->
  parseMemoryOperand (LBrac :: reg_tokens b ++ Comma :: int_tokens v ++ RBrac :: T)
  = (Success (MEMORY_REG_IMM b (MCConstantExpr v)), T).
Proof.
  intros Hb Hv. assert (Hr : GPRDRegClass b || GPRBRegClass b = true) by (by rewrite Hb, orb_true_r).
  unfold parseMemoryOperand. rewrite parse_reg by done.
  destruct (parse_int v (RBrac :: T) eq_refl) as [Hn Hi]. rewrite Hn, Hi. cbn [memory_operand op_isImm].
  replace (isLoImm16Signed (IMMEDIATE (MCConstantExpr v))) with true; [done|]. symmetry. unfold isLoImm16Signed. cbn [const_or_lo].
  unfold isInt in *. apply andb_true_iff in Hv as [H1%Z.leb_le H2%Z.ltb_lt]. cbn in H1, H2.
  rewrite int32_id by lia. apply andb_true_iff. split; [apply Z.leb_le|apply Z.ltb_lt]; cbn; lia.
Qed.

(** The immediate of andi is printed with its upper bits set. *)
Lemma lo12and_text v : isUInt 12 v = true ->
  isLoImm12And (IMMEDIATE (MCConstantExpr (Z.lor (Z.lnot 0xFFF) v))) = true /\
  Z.land (Z.lor (Z.lnot 0xFFF) v) 0xfff = v.
Proof.
  unfold isUInt. intros [H1%Z.leb_le H2%Z.ltb_lt]%andb_true_iff. cbn in H2.
  assert (Hm : forall i, 0 <= i -> Z.testbit (Z.lnot 0xFFF) i = negb (Z.testbit 0xFFF i)) by (intros; by apply Z.lnot_spec).
  split.
  - cbn [isLoImm12And const_op]. unfold isLoImm12And. cbn [const_op]. apply Z.eqb_eq, Z.bits_inj'. intros i Hi.
    rewrite Z.land_spec, Z.lor_spec, !Hm by done. by destruct (Z.testbit 0xFFF i), (Z.testbit v i).
  - transitivity (Z.land v 0xFFF); [|rewrite (land_mask v 0xFFF 12) by done; apply Z.mod_small; lia].
    apply Z.bits_inj'. intros i Hi. rewrite !Z.land_spec, Z.lor_spec, Hm by done.
    by destruct (Z.testbit 0xFFF i), (Z.testbit v i).
Qed.

Lemma reg_parses cs c r T : forallb (fun c => bool_decide (c = bare_symbol)) cs = true ->
  GPRDRegClass r || GPRBRegClass r = true ->
  operand_parse cs (reg_tokens r ++ T) = (Success (REGISTERD r), T) /\ add_operands c (REGISTERD r) =
    match c with GPRD | GPRB => Some [MCReg r] | _ => add_operands c (REGISTERD r) end.
Proof. intros Hcs Hr. unfold operand_parse. rewrite no_custom, parse_reg by done. split; [done|]. by destruct c. Qed.
Lemma imm_parses v T : ends_operand T = true ->
  operand_parse [] (int_tokens v ++ T) = (Success (IMMEDIATE (MCConstantExpr v)), T).
Proof. intros HT. unfold operand_parse. cbn [MatchOperandParserImpl]. destruct (parse_int v T HT) as [Hn Hi]. by rewrite Hn, Hi. Qed.
Lemma symbol_parses s T : plain_symbol s = true -> ends_operand T = true ->
  operand_parse [] (Identifier s :: T) = (Success (IMMEDIATE (DadaoMCExpr VK_Dadao_None (MCSymbolRefExpr s))), T).
Proof. intros Hs HT. unfold operand_parse. cbn [MatchOperandParserImpl]. destruct (parse_symbol s T Hs HT) as [Hn Hi]. by rewrite Hn, Hi. Qed.
Lemma bare_parses cs s T : name_ok s && bool_decide (variable s = None) && negb (consume_plt s) = true -> ends_operand T = true ->
  operand_parse (bare_symbol :: cs) (Identifier s :: T) = (Success (IMMEDIATE (MCSymbolRefExpr s)), T).
Proof.
  intros [[_ Hv%bool_decide_eq_true]%andb_true_iff Hp%negb_true_iff]%andb_true_iff HT. unfold operand_parse.
  cbn [MatchOperandParserImpl tryCustomParseOperand]. unfold parseBareSymbol. rewrite parse_identifier, Hp, Hv.
  by destruct T as [|[] T].
Qed.

Ltac ranges :=
  repeat match goal with
    | H : (_ && _) = true |- _ => apply andb_true_iff in H as [? ?]
    | H : (_ <=? _) = true |- _ => apply Z.leb_le in H
    | H : (_ <? _) = true |- _ => apply Z.ltb_lt in H
    end;
  change (2^12) with 4096 in *; change (2^(12-1)) with 2048 in *; change (2^18) with 262144 in *; change (2^6) with 64 in *;
  change (2^16) with 65536 in *; change (2^25) with 33554432 in *; change (2^(32-1)) with 2147483648 in *.
(** An immediate that is accepted and kept. *)
Lemma imm_class c v : printable c [MCImm v] = true -> c <> C_i64lo12and ->
  match_class c (IMMEDIATE (MCConstantExpr v)) = true /\
  add_operands c (IMMEDIATE (MCConstantExpr v)) = Some (reread c [MCImm v]).
Proof.
  intros Hp Hc. destruct c as [| | | | | | | |w|w| | | | |]; try discriminate Hp; try done; cbn [printable] in Hp;
    unfold isInt, isUInt in Hp; cbn [match_class add_operands reread]; unfold addImmOperands, isImm12, isLoImm12, isLoImm18,
      isImmHex1, isImmWyde0, isWydePosition, isBrTarget, isBrImm, isCallTarget, isInt, isUInt;
    cbn [getImm mbind option_bind addExpr const_op const_or_lo op_isImm orb];
    try (split; [exact Hp|]); try done.
  all: try apply Z.eqb_eq in Hp as ->; ranges; rewrite ?int32_id by (done || lia || (destruct w; cbn; lia)).
  all: try done.
  - split; [|done]. apply Z.leb_le. lia.
  - by destruct w.
  - split; [|done]. apply orb_true_iff; left. repeat (apply andb_true_iff; split); first [done|apply Z.leb_le; lia|apply Z.ltb_lt; lia].
Qed.

(** What is printed for an operand is read back. *)
Lemma class_parses cs c l T : printable c l = true -> custom_fits cs c = true -> ends_operand T = true ->
  exists o, operand_parse cs (class_tokens c l ++ T) = (Success o, T) /\ match_class c o = true /\
    add_operands c o = Some (reread c l).
Proof.
  intros Hp Hc HT. pose proof Hp as Hp0.
  destruct c as [| | | | | | | |w|w| | | | |], l as [|[r|v|e] [|[r2|v2|e2] [|]]]; try discriminate Hp;
    try (destruct e as [|s| | |]; try discriminate Hp); cbn [printable] in Hp; cbn [custom_fits] in Hc;
    try (apply bool_decide_eq_true in Hc as ->);
    try (exists (IMMEDIATE (MCConstantExpr v)); split; [by apply imm_parses|]; by apply imm_class).
  - exists (REGISTERD r). split; [|done]. apply (reg_parses _ GPRD); [done|by rewrite Hp].
  - exists (REGISTERD r). split; [|done]. apply (reg_parses _ GPRB); [done|by rewrite Hp, orb_true_r].
  - destruct (lo12and_text v Hp) as [H1 H2]. eexists. split; [by apply imm_parses|]. split; [done|]. cbn. by rewrite H2.
  - apply Z.eqb_eq in Hp as ->. exists (IMMEDIATE (MCConstantExpr (wpos_val w))). split; [|by apply imm_class].
    cbn [class_tokens app]. unfold operand_parse. cbn [MatchOperandParserImpl]. destruct (parse_wyde w T) as [-> ->]. done.
  - destruct cs as [|[] cs]; try discriminate Hc. apply andb_true_iff in Hp as [Hb Hv].
    exists (MEMORY_REG_IMM r (MCConstantExpr v2)). split; [|split; [done|]].
    + unfold operand_parse. cbn [MatchOperandParserImpl tryCustomParseOperand class_tokens app].
      replace ((reg_tokens r ++ Comma :: int_tokens v2 ++ [RBrac]) ++ T)%list
        with (reg_tokens r ++ Comma :: int_tokens v2 ++ RBrac :: T)%list by (by rewrite <- app_assoc; cbn; rewrite <- app_assoc).
      by rewrite memory_parses.
    + cbn. unfold isInt in Hv. ranges. by rewrite int32_id by lia.
  - eexists. split; [by apply symbol_parses|done].
  - eexists. split; [by apply symbol_parses|done].
  - destruct cs as [|[] cs]; try discriminate Hc. eexists. split; [by apply bare_parses|done].
Qed.

(** ** Lines *)
Definition rest_tokens (args : list (opclass * list MCOperand)) : list AsmToken :=
  flat_map (fun a => Comma :: class_tokens (fst a) (snd a)) args ++ [EndOfStatement].
Lemma rest_ends args : ends_operand (rest_tokens args) = true.
Proof. by destruct args. Qed.
Lemma rest_length args : (length args <= length (rest_tokens args))%nat.
Proof.
  unfold rest_tokens. rewrite length_app. induction args as [|a args IH]; cbn in *; [lia|].
  rewrite length_app. lia.
Qed.
Lemma text_lexes args : Forall (fun a => printable (fst a) (snd a) = true) args ->
  exists ps, mapM (fun a => print_class (fst a) (snd a)) args = Some ps /\
    sep (flat_map (fun p => P_str ", " :: p) ps) /\
    lex (flat_map (fun p => P_str ", " :: p) ps) = rest_tokens args.
Proof.
  induction 1 as [|[c l] args Ha _ (ps & Hps & Hs & Hx)].
  { exists []. cbn. unfold rest_tokens. cbn. by rewrite lex_end. }
  destruct (class_lexes c l Ha) as (p & Hp & Hlex). exists (p :: ps). cbn [mapM fst snd]. rewrite Hp. cbn. rewrite Hps. cbn.
  split; [done|]. split; [by left|].
  rewrite lex_comma, Hlex, Hx by done. unfold rest_tokens. cbn. by rewrite <- app_assoc.
Qed.
Lemma separated_flat p ps : separated (p :: ps) = (p ++ flat_map (fun p => P_str ", " :: p) ps)%list.
Proof. revert p. induction ps as [|q ps IH]; intros p; [cbn; by rewrite app_nil_r|].
  change (separated (p :: q :: ps)) with (p ++ P_str ", " :: separated (q :: ps))%list. by rewrite IH.
Qed.

Definition read_as (a : opclass * list MCOperand) (o : DadaoOperand) : Prop :=
  match_class (fst a) o = true /\ add_operands (fst a) o = Some (reread (fst a) (snd a)).
Definition fits (M : string) (n : nat) (a : opclass * list MCOperand) : Prop :=
  printable (fst a) (snd a) = true /\ custom_fits (custom_classes M n) (fst a) = true.
Lemma operand_parses M Ops n a T : length Ops = Datatypes.S n -> fits M n a -> ends_operand T = true ->
  exists o, parseOperand Ops M (class_tokens (fst a) (snd a) ++ T) = (Success o, T) /\ read_as a o.
Proof.
  intros HO [Hp Hc] HT. destruct (class_parses _ _ _ T Hp Hc HT) as (o & Ho & Hm & Ha). exists o. split; [|by split].
  unfold parseOperand. by rewrite HO, Nat.sub_succ, Nat.sub_0_r, Ho.
Qed.
Lemma rest_parses M args Ops n fuel : length Ops = Datatypes.S n -> (forall i a, args !! i = Some a -> fits M (n + i) a) ->
  (length args <= fuel)%nat ->
  exists os, parse_rest fuel Ops M (rest_tokens args) = Some ((Ops ++ os)%list, [EndOfStatement]) /\ Forall2 read_as args os.
Proof.
  revert Ops n fuel. induction args as [|a args IH]; intros Ops n fuel HO Hf Hfuel.
  { exists []. rewrite app_nil_r. split; [by destruct fuel|constructor]. }
  destruct fuel as [|fuel]; [cbn in Hfuel; lia|].
  destruct (operand_parses M Ops n a (rest_tokens args) HO) as (o & Hpo & Hr).
  { specialize (Hf 0%nat a eq_refl). by rewrite Nat.add_0_r in Hf. }
  { apply rest_ends. }
  destruct (IH (Ops ++ [o])%list (Datatypes.S n) fuel) as (os & Hrest & Hos).
  { rewrite length_app, HO. cbn. lia. }
  { intros i b Hb. specialize (Hf (Datatypes.S i) b Hb). by rewrite Nat.add_succ_r in Hf. }
  { cbn in Hfuel. lia. }
  exists (o :: os). split; [|by constructor]. cbn [parse_rest]. unfold rest_tokens. cbn [flat_map]. cbn [app].
  rewrite <- app_assoc. fold (rest_tokens args). cbn [fst snd] in Hpo. rewrite Hpo, Hrest. by rewrite <- app_assoc.
Qed.

Lemma class_tokens_head c l : printable c l = true ->
  exists t ts, class_tokens c l = t :: ts /\ t <> EndOfStatement.
Proof.
  intros Hp. destruct c as [| | | | | | | |w|w| | | | |], l as [|[r|v|e] [|[r2|v2|e2] [|]]]; try discriminate Hp;
    try (destruct e as [|s| | |]; try discriminate Hp); cbn [class_tokens]; unfold int_tokens;
    try case_match; by do 2 eexists.
Qed.
(** A whole line: the operands the parser makes of the text. *)
Lemma line_parses M args : String.eqb M "st" = false -> String.prefix "bt" M = false ->
  (forall i a, args !! i = Some a -> fits M i a) ->
  exists ps os, mapM (fun a => print_class (fst a) (snd a)) args = Some ps /\
    ParseInstruction M (lex (separated ps)) = Some ((TOKEN M :: os)%list, [EndOfStatement]) /\ Forall2 read_as args os.
Proof.
  intros Hst Hbt Hf. destruct args as [|a args].
  { exists [], []. split; [done|]. split; [|constructor]. cbn. by rewrite lex_end. }
  assert (Hpr : Forall (fun a => printable (fst a) (snd a) = true) (a :: args)).
  { apply Forall_lookup. intros i b Hb. apply (Hf i b Hb). }
  apply Forall_cons in Hpr as [Ha Hpr]. destruct (class_lexes _ _ Ha) as (p & Hp & Hlex).
  destruct (text_lexes args Hpr) as (ps & Hps & Hsep & Htoks).
  exists (p :: ps). cbn [mapM]. rewrite Hp. cbn [mbind option_bind]. rewrite Hps. cbn [mbind option_bind].
  rewrite separated_flat, Hlex, Htoks by done.
  destruct (operand_parses M [TOKEN M] 0 a (rest_tokens args) eq_refl (Hf 0%nat a eq_refl) (rest_ends args)) as (o & Hpo & Hr).
  destruct (rest_parses M args [TOKEN M; o] 1 (length (rest_tokens args)) eq_refl) as (os & Hrest & Hos).
  { intros i b Hb. exact (Hf (Datatypes.S i) b Hb). }
  { apply rest_length. }
  exists (o :: os). split; [done|]. split; [|by constructor].
  destruct (class_tokens_head _ _ Ha) as (t & ts & E & Ht). rewrite E in *. cbn [app] in *. unfold ParseInstruction.
  rewrite Hpo, Hst, Hbt, !andb_false_r. cbn [andb app]. rewrite Hrest. by destruct t.
Qed.

(** ** Rows *)

(** The operands of an instruction by name. *)
Lemma slices_shape ops l s : slices ops l = Some s -> map (fun p => (fst p, fst (snd p))) s = ops.
Proof.
  revert l s. induction ops as [|[n c] ops IH]; intros l s; cbn [slices]; [by intros [= <-]|].
  case_match; [done|]. destruct (slices ops _) as [s'|] eqn:E; [|done]. intros [= <-]. cbn. by rewrite (IH _ _ E).
Qed.
Lemma assoc_shape (s : list (string * (opclass * list MCOperand))) n :
  fst <$> assoc n s = assoc n (map (fun p => (fst p, fst (snd p))) s).
Proof. induction s as [|[m [c l]] s IH]; [done|]. cbn. by destruct (n =? m)%string. Qed.
Lemma assoc_nodup {V} (s : list (string * V)) i n x : NoDup (map fst s) -> s !! i = Some (n, x) -> assoc n s = Some x.
Proof.
  revert i. induction s as [|[m y] s IH]; intros i Hnd Hi; [done|]. cbn in Hnd. apply NoDup_cons in Hnd as [Hm Hnd].
  cbn. destruct i as [|i]; [injection Hi as -> ->; by rewrite String.eqb_refl|]. cbn in Hi.
  destruct (String.eqb_spec n m) as [->|]; [|by apply (IH i)]. destruct Hm.
  apply list_elem_of_fmap. exists (m, x). split; [done|]. by apply list_elem_of_lookup_2 in Hi.
Qed.

(** What the proofs use of the table, checked row by row. *)
Definition operand_row_ok (op : Opcode) (o : string * opclass) : bool :=
  bool_decide (assoc (untied (fst o)) (operand_list op) = Some (snd o)) &&
  bool_decide (untied (fst o) ∈ AsmOperands (desc op)) &&
  negb (bool_decide (snd o = bare_symbol) && has_field (desc op) (fst o)).
(** A memory operand is the last. *)
Fixpoint mem_last (ops : list (string * opclass)) : bool :=
  match ops with
  | [] => true
  | (_, MEM_RRII) :: ops => match ops with [] => true | _ => false end
  | _ :: ops => mem_last ops
  end.
Definition asm_row_ok (op : Opcode) : bool :=
  let M := AsmMnemonic (desc op) in
  negb (String.eqb M "st") && negb (String.prefix "bt" M) &&
  bool_decide (NoDup (AsmOperands (desc op))) && bool_decide (NoDup (map fst (operand_list op))) &&
  forallb (fun p => match assoc (snd p) (operand_list op) with
                    | Some MEM_RRRI => true
                    | Some c => custom_fits (custom_classes M (fst p)) c
                    | None => false
                    end) (imap pair (AsmOperands (desc op))) &&
  forallb (operand_row_ok op) (operand_list op) && mem_last (operand_list op).
#[local] Strategy transparent [custom_classes].
Lemma asm_rows_ok op : asm_row_ok op = true.
Proof. destruct op as [| | | | | | | | | | | | | | | | | | | | | | | | | | | | | | | | | | | |[]|[]|[]|[]|[]|[]|[]|
  | | | | | | | | | | | | | | | | | | | | | | | | | | | | | | | | | | | | | |]; vm_compute; reflexivity. Qed.
#[local] Strategy opaque [custom_classes].
Record asm_row (op : Opcode) : Prop := AsmRow {
  ar_st : String.eqb (AsmMnemonic (desc op)) "st" = false;
  ar_bt : String.prefix "bt" (AsmMnemonic (desc op)) = false;
  ar_asm : NoDup (AsmOperands (desc op));
  ar_names : NoDup (map fst (operand_list op));
  ar_fits : forall i n c, AsmOperands (desc op) !! i = Some n -> assoc n (operand_list op) = Some c -> c <> MEM_RRRI ->
    custom_fits (custom_classes (AsmMnemonic (desc op)) i) c = true;
  ar_class : forall n, n ∈ AsmOperands (desc op) -> is_Some (assoc n (operand_list op));
  ar_untied : forall n c, (n, c) ∈ operand_list op ->
    assoc (untied n) (operand_list op) = Some c /\ untied n ∈ AsmOperands (desc op);
  ar_bare : forall n, (n, bare_symbol) ∈ operand_list op -> has_field (desc op) n = false;
  ar_mem : mem_last (operand_list op) = true }.
Lemma asm_rows op : asm_row op.
Proof.
  pose proof (asm_rows_ok op) as Hok. unfold asm_row_ok in Hok. rewrite !andb_true_iff in Hok.
  destruct Hok as ((((((Hst & Hbt) & Hasm) & Hnames) & Hfits) & Hun) & Hmem).
  rewrite forallb_forall in Hfits, Hun.
  assert (Hf : forall i n, AsmOperands (desc op) !! i = Some n ->
    match assoc n (operand_list op) with
    | Some MEM_RRRI => true
    | Some c => custom_fits (custom_classes (AsmMnemonic (desc op)) i) c
    | None => false
    end = true).
  { intros i n Hi. apply (Hfits (i, n)), list_elem_of_In, list_elem_of_lookup. exists i. by rewrite list_lookup_imap, Hi. }
  split.
  - by apply negb_true_iff.
  - by apply negb_true_iff.
  - by apply bool_decide_eq_true in Hasm.
  - by apply bool_decide_eq_true in Hnames.
  - intros i n c Hi Hc Hne. specialize (Hf i n Hi). rewrite Hc in Hf. by destruct c.
  - intros n [i Hi]%list_elem_of_lookup. specialize (Hf i n Hi). by destruct (assoc n _).
  - intros n c Hin. specialize (Hun (n, c) ltac:(by apply list_elem_of_In)). unfold operand_row_ok in Hun.
    apply andb_true_iff in Hun as [[H1%bool_decide_eq_true H2%bool_decide_eq_true]%andb_true_iff _]. done.
  - intros n Hin. specialize (Hun (n, bare_symbol) ltac:(by apply list_elem_of_In)). unfold operand_row_ok in Hun.
    apply andb_true_iff in Hun as [_ Hun]. cbn [fst snd] in Hun. rewrite bool_decide_true in Hun by done.
    by destruct (has_field (desc op) n).
  - exact Hmem.
Qed.

(** ** Instructions *)

(** The instructions whose text is read back: each operand is printable and
    an output tied to an input is the same operand. *)
Record printable_inst (op : Opcode) (l : list MCOperand) (s : list (string * (opclass * list MCOperand))) : Prop := Printable {
  pi_slices : slices (operand_list op) l = Some s;
  pi_print : Forall (fun p => printable (fst (snd p)) (snd (snd p)) = true) s;
  pi_tied : forall n, n ∈ map fst s -> assoc (untied n) s = assoc n s }.

Section Line.
Variables (op : Opcode) (l : list MCOperand) (s : list (string * (opclass * list MCOperand))).
Hypothesis Hpi : printable_inst op l s.
Let names := AsmOperands (desc op).
Let M := AsmMnemonic (desc op).
Let Hrow := asm_rows op.

Lemma slice_class n a : assoc n s = Some a -> assoc n (operand_list op) = Some (fst a).
Proof. intros Ha. rewrite <- (slices_shape _ _ _ (pi_slices _ _ _ Hpi)), <- assoc_shape, Ha. done. Qed.
Lemma slice_some n c : assoc n (operand_list op) = Some c -> exists l', assoc n s = Some (c, l').
Proof.
  rewrite <- (slices_shape _ _ _ (pi_slices _ _ _ Hpi)), <- assoc_shape. destruct (assoc n s) as [[c' l']|]; [|done].
  intros [= <-]. by exists l'.
Qed.
Lemma slice_printable n a : assoc n s = Some a -> printable (fst a) (snd a) = true.
Proof. intros Ha%assoc_elem. pose proof (pi_print _ _ _ Hpi) as H1. rewrite Forall_forall in H1. exact (H1 _ Ha). Qed.
Lemma args_exist : exists args, mapM (fun n => assoc n s) names = Some args.
Proof.
  apply mapM_is_Some. apply Forall_forall. intros n Hn. destruct (ar_class _ Hrow n Hn) as [c Hc].
  destruct (slice_some n c Hc) as [l' Hl']. by exists (c, l').
Qed.
Lemma args_fit args i a : mapM (fun n => assoc n s) names = Some args -> args !! i = Some a -> fits M i a.
Proof.
  intros Hargs Hi. apply mapM_Some in Hargs.
  destruct (Forall2_lookup_r _ _ _ _ _ Hargs Hi) as (n & Hn & Ha). split; [by apply (slice_printable n)|].
  apply (ar_fits _ Hrow i n); [done|by apply slice_class|]. intros E. pose proof (slice_printable n a Ha) as Hp.
  rewrite E in Hp. discriminate Hp.
Qed.
Lemma printed args : mapM (fun n => assoc n s) names = Some args ->
  printInstruction (MkMCInst op l) = separated <$> mapM (fun a => print_class (fst a) (snd a)) args.
Proof.
  intros Hargs. unfold printInstruction. cbn [getOpcode Operands]. rewrite (pi_slices _ _ _ Hpi). cbn [mbind option_bind].
  fold names. assert (E : mapM (fun n => '(c, l) ← assoc n s; print_class c l) names
    = mapM (fun a => print_class (fst a) (snd a)) args).
  { revert args Hargs. generalize names as ns. induction ns as [|n ns IH]; intros args Hargs; cbn [mapM] in *; [by injection Hargs as <-|].
    destruct (assoc n s) as [[c l']|]; [|done]. cbn [mbind option_bind] in *. destruct (mapM _ ns) as [args'|]; [|done].
    cbn in Hargs. injection Hargs as <-. cbn [mapM fst snd]. by rewrite (IH args'). }
  rewrite E. by destruct (mapM _ args).
Qed.

(** The operands read, by name. *)
Context (args : list (opclass * list MCOperand)) (os : list DadaoOperand).
Hypothesis Hargs : mapM (fun n => assoc n s) names = Some args.
Hypothesis Hread : Forall2 read_as args os.
Lemma operand_read n : n ∈ names -> exists a o,
  assoc n s = Some a /\ asm_operand op (TOKEN M :: os) n = Some o /\ read_as a o.
Proof.
  intros [i Hi]%list_elem_of_lookup. pose proof Hargs as Ha. apply mapM_Some in Ha.
  destruct (Forall2_lookup_l _ _ _ _ _ Ha Hi) as (a & Hai & Has).
  destruct (Forall2_lookup_l _ _ _ _ _ Hread Hai) as (o & Hoi & Hro). exists a, o. split; [done|]. split; [|done].
  unfold asm_operand. fold names. replace (list_find (eq n) names) with (Some (i, n)); [done|].
  symmetry. apply list_find_Some. split; [done|]. split; [done|]. intros j y Hj Hlt <-.
  pose proof (NoDup_lookup _ _ _ _ (ar_asm _ Hrow) Hj Hi). lia.
Qed.
Lemma names_matched : (length (TOKEN M :: os) =? Datatypes.S (length names))%nat &&
  forallb (fun n => match assoc n (operand_list op), asm_operand op (TOKEN M :: os) n with
                    | Some c, Some o => match_class c o
                    | _, _ => false
                    end) names = true.
Proof.
  apply andb_true_iff. split.
  - apply Nat.eqb_eq. cbn [length]. f_equal. rewrite <- (Forall2_length _ _ _ Hread).
    pose proof Hargs as Ha. apply mapM_Some in Ha. by rewrite (Forall2_length _ _ _ Ha).
  - apply forallb_forall. intros n Hn%list_elem_of_In. destruct (operand_read n Hn) as (a & o & Ha & Ho & Hr & _).
    by rewrite (slice_class n a Ha), Ho.
Qed.
Lemma wyde_matched : default false (checkEarlyTargetMatchPredicate op (TOKEN M :: os)) = true.
Proof.
  assert (Hw : forall w, assoc "WPos" (operand_list op) = Some (C_wpos w) -> names !! 1%nat = Some "WPos" ->
    exists v, (TOKEN M :: os) !! 2%nat = Some (IMMEDIATE (MCConstantExpr v)) /\ w64 v = wpos_val w).
  { intros w Hc Hn. destruct (slice_some _ _ Hc) as [l' Hl']. pose proof Hargs as Ha. apply mapM_Some in Ha.
    destruct (Forall2_lookup_l _ _ _ _ _ Ha Hn) as (a & Hai & Has). rewrite Hl' in Has. injection Has as <-.
    destruct (Forall2_lookup_l _ _ _ _ _ Hread Hai) as (o & Hoi & Hm & Hadd).
    pose proof (slice_printable _ _ Hl') as Hp. cbn [fst snd] in *.
    destruct l' as [|[r|x|e] [|]]; try discriminate Hp. apply Z.eqb_eq in Hp as ->.
    cbn in Hm. unfold isWydePosition in Hm. destruct o as [|?|[v| | | |]| |]; try discriminate Hm.
    exists v. split; [exact Hoi|]. cbn in Hm, Hadd. injection Hadd as Hv. apply Z.ltb_lt in Hm.
    unfold int32, w32 in Hv. assert (Hmod : v mod 2^32 = w64 v).
    { unfold w64 in *. pose proof (Z.mod_pos_bound v (2^64)). rewrite <- (Z.mod_small (v mod 2^64) (2^32)) by lia.
      rewrite (Z.mod_mod_divide v (2^64) (2^32)); [done|by exists (2^32)]. }
    rewrite Hmod in Hv. rewrite <- Hv. unfold s32. pose proof (w64_range v). symmetry. apply sext_id; lia. }
  destruct op eqn:E; try done; destruct (Hw w) as (v & Hv & Hx); try done; cbn [checkEarlyTargetMatchPredicate];
    rewrite Hv; cbn [mbind option_bind checkOpcodeWydeposMatch default]; by apply Z.eqb_eq.
Qed.
Lemma row_accepts : row_matches op (TOKEN M :: os) = true.
Proof. unfold row_matches. fold names. by rewrite names_matched, wyde_matched. Qed.
Lemma converted : convertToMCInst op (TOKEN M :: os)
  = Some (MkMCInst op (concat (map (fun p => reread (fst (snd p)) (snd (snd p))) s))).
Proof.
  unfold convertToMCInst. replace (mapM _ (operand_list op)) with (Some (map (fun p => reread (fst (snd p)) (snd (snd p))) s)); [done|].
  symmetry. apply mapM_Some. pose proof (slices_shape _ _ _ (pi_slices _ _ _ Hpi)) as Hshape.
  rewrite <- Hshape. apply Forall2_fmap_l, Forall2_fmap_r, Forall_Forall2_diag, Forall_forall.
  intros [n [c l']] Hin. cbn [fst snd]. pose proof Hin as [i Hi]%list_elem_of_lookup.
  assert (Hnd : NoDup (map fst s)).
  { replace (map fst s) with (map fst (operand_list op)); [apply (ar_names _ Hrow)|]. rewrite <- Hshape, map_map. done. }
  pose proof (assoc_nodup s i n (c, l') Hnd Hi) as Ha.
  destruct (ar_untied _ Hrow n c) as [Hc Hu].
  { rewrite <- Hshape. apply list_elem_of_fmap. by exists (n, (c, l')). }
  destruct (operand_read (untied n) Hu) as (a & o & Has & Ho & _ & Hadd).
  rewrite (pi_tied _ _ _ Hpi n), Ha in Has by (apply list_elem_of_fmap; by exists (n, (c, l'))). injection Has as <-.
  unfold compose. cbn [fst snd]. rewrite Ho. exact Hadd.
Qed.
End Line.

(** ** The word *)
Definition wrap_fixup (f : MCFixup) : MCFixup :=
  MkFixup (fx_offset f) (DadaoMCExpr VK_Dadao_None (fx_value f)) (fx_kind f).
Lemma reread_size c l : printable c l = true -> c <> MEM_RRII -> length (reread c l) = op_size c.
Proof.
  intros Hp Hc. destruct c as [| | | | | | | |w|w| | | | |], l as [|[r|v|e] [|[r2|v2|e2] [|]]]; try discriminate Hp;
    try (destruct e; discriminate Hp); done || congruence.
Qed.
Lemma reread_value opc c l v fx : printable c l = true -> c <> bare_symbol -> op_value opc c l = Some (v, fx) ->
  op_value opc c (take (op_size c) (reread c l)) = Some (v, map wrap_fixup fx).
Proof.
  intros Hp Hc. destruct c as [| | | | | | | |w|w| | | | |], l as [|[r|x|e] [|[r2|x2|e2] [|]]]; try discriminate Hp; try done;
    cbn [reread op_size take op_value getMachineOpValue getRRIIMemoryOpValue getBranchTargetOpValue];
    try (destruct (getDadaoRegisterNumbering r) as [n|]; [|done]; cbn [mbind option_bind]); try case_match;
    intros E; try discriminate E; injection E as <- <-; done.
Qed.
Lemma values_reread opc ops l s vs fx : slices ops l = Some s ->
  Forall (fun p => printable (fst (snd p)) (snd (snd p)) = true) s -> mem_last ops = true ->
  (forall n, (n, bare_symbol) ∈ ops -> has_field (desc opc) n = false) ->
  op_values opc ops l = Some (vs, fx) ->
  op_values opc ops (concat (map (fun p => reread (fst (snd p)) (snd (snd p))) s)) = Some (vs, map wrap_fixup fx).
Proof.
  revert l s vs fx. induction ops as [|[n c] ops IH]; intros l s vs fx Hs Hp Hm Hb H1.
  { injection Hs as <-. by injection H1 as <- <-. }
  cbn [slices] in Hs. cbn [op_values] in H1. case_match; [done|].
  destruct (slices ops _) as [s'|] eqn:Es; [|done]. injection Hs as <-. apply Forall_cons in Hp as [Hp Hps].
  destruct (op_values opc ops (drop _ l)) as [[vs' fs]|] eqn:Ev; [|done]. cbn [mbind option_bind] in H1.
  cbn [fst snd] in Hp. set (x := take (op_size c) l) in *.
  assert (Hlen : (op_size c <= length (reread c x))%nat /\
    (c <> MEM_RRII -> length (reread c x) = op_size c)).
  { split; [|by apply reread_size]. destruct (decide (c = MEM_RRII)) as [-> |]; [|by rewrite reread_size].
    clearbody x. destruct x as [|[r|v|e] [|[r2|v2|e2] [|]]]; try discriminate Hp. cbn. lia. }
  cbn [map concat fst snd op_values]. fold (concat (map (fun p => reread (fst (snd p)) (snd (snd p))) s')).
  set (rest := concat _) in *. rewrite length_app, (proj2 (Nat.ltb_ge _ _)) by lia.
  assert (Htail : op_values opc ops (drop (op_size c) (reread c x ++ rest)) = Some (vs', map wrap_fixup fs)).
  { cbn [mem_last] in Hm. destruct (decide (c = MEM_RRII)) as [-> |Hne].
    - destruct ops; [|done]. cbn in Ev. injection Ev as <- <-. done.
    - rewrite drop_app_length' by (symmetry; by apply Hlen). apply (IH (drop (op_size c) l)); try done.
      + by destruct c.
      + intros m Hin. apply Hb. by right. }
  rewrite Htail. cbn [mbind option_bind]. rewrite take_app_le by lia.
  destruct (has_field (desc opc) n) eqn:Hf; [|by injection H1 as <- <-].
  destruct (op_value opc c x) as [[v f]|] eqn:Eo; [|done]. cbn [mbind option_bind] in H1. injection H1 as <- <-.
  rewrite (reread_value opc c x v f Hp); [|intros ->|done]; [by rewrite map_app|].
  rewrite Hb in Hf by left. discriminate Hf.
Qed.
End Text.

(** ** Which row a line is *)

(** Classes no operand is in at once. *)
Definition class_kind (c : opclass) : Z :=
  match c with GPRD => 0 | GPRB => 1 | MEM_RRII => 2 | MEM_RRRI => 3 | BrTarget | CallTarget | bare_symbol => 5 | _ => 4 end.
Definition class_apart (c c' : opclass) : bool :=
  negb (bool_decide (class_kind c = class_kind c')) && negb (class_kind c =? 5) && negb (class_kind c' =? 5) ||
  (bool_decide (c = BrTarget) && (class_kind c' <? 4)) || (bool_decide (c' = BrTarget) && (class_kind c <? 4)).
Lemma const_op_imm f o : const_op f o = true -> op_isImm o = true.
Proof. by destruct o. Qed.
Lemma const_or_lo_imm f o : const_or_lo f o = true -> op_isImm o = true.
Proof. by destruct o. Qed.
Lemma class_kinds c o : match_class c o = true -> class_kind c <> 5 ->
  match o with
  | REGISTERD r => (class_kind c = 0 /\ GPRDRegClass r = true) \/ (class_kind c = 1 /\ GPRBRegClass r = true)
  | MEMORY_REG_IMM _ _ => class_kind c = 2
  | MEMORY_REG_REG _ _ _ => class_kind c = 3
  | IMMEDIATE _ => class_kind c = 4
  | TOKEN _ => False
  end.
Proof. intros Hm Hk. destruct c, o; try discriminate Hm; cbn in *; auto; congruence. Qed.
Lemma branch_kinds o c : isBrTarget o = true -> match_class c o = true -> class_kind c < 4 -> False.
Proof. intros Hb Hm Hk. destruct c; try (cbn in Hk; lia); destruct o; discriminate Hb || discriminate Hm. Qed.
Lemma class_apart_sound c c' o : class_apart c c' = true -> match_class c o = true -> match_class c' o = true -> False.
Proof.
  unfold class_apart. intros [[[[H1 H2]%andb_true_iff H3]%andb_true_iff|[H1 H2]%andb_true_iff]%orb_true_iff
    |[H1 H2]%andb_true_iff]%orb_true_iff Hc Hc'.
  - apply negb_true_iff, bool_decide_eq_false in H1. apply negb_true_iff, Z.eqb_neq in H2, H3.
    pose proof (class_kinds c o Hc H2) as K. pose proof (class_kinds c' o Hc' H3) as K'.
    destruct o; try lia. destruct K as [[K1 K2]|[K1 K2]], K' as [[K3 K4]|[K3 K4]]; try lia; by destruct r.
  - apply bool_decide_eq_true in H1 as ->. apply (branch_kinds o c' Hc Hc'). lia.
  - apply bool_decide_eq_true in H1 as ->. apply (branch_kinds o c Hc' Hc). lia.
Qed.
(** Two rows of a mnemonic that differ in the number or the classes of their
    operands, in the wyde position that is checked, or are told to be
    ambiguous. *)
Definition checked_wyde (op : Opcode) : option wyde_pos :=
  match op with ORW_RWII w | ANDNW_RWII w | SETZW_RWII w | SETOW_RWII w => Some w | _ => None end.
Definition unchecked_wyde (op : Opcode) : bool :=
  match op with ORW_RB_RWII _ | ANDNW_RB_RWII _ | SETZW_RB_RWII _ => true | _ => false end.
Definition rows_apart (op op' : Opcode) : bool :=
  negb (length (AsmOperands (desc op)) =? length (AsmOperands (desc op')))%nat ||
  List.existsb (fun p => match assoc (fst p) (operand_list op), assoc (snd p) (operand_list op') with
                         | Some c, Some c' => class_apart c c'
                         | _, _ => false
                         end) (combine (AsmOperands (desc op)) (AsmOperands (desc op'))) ||
  match checked_wyde op, checked_wyde op' with Some w, Some w' => negb (bool_decide (w = w')) | _, _ => false end.
Definition ambiguous (op op' : Opcode) : bool :=
  isPseudo op || isPseudo op' || (unchecked_wyde op && unchecked_wyde op').
Lemma opcodes_complete op : op ∈ all_opcodes.
Proof.
  apply list_elem_of_In. destruct op as [| | | | | | | | | | | | | | | | | | | | | | | | | | | | | | | | | | | | []| []| []| []| []|
  []| []| | | | | | | | | | | | | | | | | | | | | | | | | | | | | | | | | | | | | | |]; vm_compute; tauto. Qed.
Lemma rows_checked : forallb (fun op => forallb (fun op' =>
  negb (String.eqb (AsmMnemonic (desc op)) (AsmMnemonic (desc op'))) || bool_decide (op = op') || ambiguous op op' || rows_apart op op')
  all_opcodes) all_opcodes = true.
Proof. vm_compute. reflexivity. Qed.

Lemma row_matches_parts op Ops : row_matches op Ops = true ->
  length Ops = Datatypes.S (length (AsmOperands (desc op))) /\
  (forall i n, AsmOperands (desc op) !! i = Some n -> exists c o,
     assoc n (operand_list op) = Some c /\ Ops !! Datatypes.S i = Some o /\ match_class c o = true) /\
  checkEarlyTargetMatchPredicate op Ops = Some true.
Proof.
  intros [[Hlen%Nat.eqb_eq Hall]%andb_true_iff Hw]%andb_true_iff. split; [done|]. split.
  - intros i n Hi. rewrite forallb_forall in Hall.
    pose proof (Hall n (proj1 (list_elem_of_In _ _) (list_elem_of_lookup_2 _ _ _ Hi))) as Hn.
    destruct (assoc n (operand_list op)) as [c|] eqn:Ec; [|done].
    destruct (asm_operand op Ops n) as [o|] eqn:Eo; [|done]. exists c, o. split; [done|]. split; [|done].
    unfold asm_operand in Eo. destruct (list_find (eq n) (AsmOperands (desc op))) as [[j m]|] eqn:Ef; [|done].
    cbn [fst fmap option_fmap option_map mbind option_bind] in Eo.
    apply list_find_Some in Ef as (Hj & <- & _). pose proof (ar_asm _ (asm_rows op)) as Hnd.
    by rewrite (NoDup_lookup _ _ _ _ Hnd Hi Hj).
  - by destruct (checkEarlyTargetMatchPredicate op Ops) as [[]|].
Qed.
Lemma checked_wyde_value op w Ops : checked_wyde op = Some w -> checkEarlyTargetMatchPredicate op Ops = Some true ->
  exists v, Ops !! 2%nat = Some (IMMEDIATE (MCConstantExpr v)) /\ w64 v = wpos_val w.
Proof.
  intros Hc Hw. destruct op; try discriminate Hc; injection Hc as <-; cbn in Hw; destruct (Ops !! 2%nat) as [o|]; try discriminate Hw;
    cbn in Hw; destruct o as [| |[v| | | |]| |]; try discriminate Hw; injection Hw as Hv%Z.eqb_eq; by exists v.
Qed.
Lemma rows_apart_sound op op' Ops : rows_apart op op' = true ->
  row_matches op Ops = true -> row_matches op' Ops = true -> False.
Proof.
  intros Ha H1 H2. apply row_matches_parts in H1 as (L1 & C1 & W1), H2 as (L2 & C2 & W2).
  apply orb_true_iff in Ha as [[Hl|Hc]%orb_true_iff|Hw].
  - apply negb_true_iff, Nat.eqb_neq in Hl. lia.
  - apply existsb_exists in Hc as ([n n'] & Hin%list_elem_of_In & Hap). cbn [fst snd] in Hap.
    apply list_elem_of_lookup in Hin as [i Hi]. fold (zip (AsmOperands (desc op)) (AsmOperands (desc op'))) in Hi.
    apply lookup_zip_Some in Hi as [Hi Hi'].
    destruct (C1 i n Hi) as (c & o & Hc & Ho & Hm), (C2 i n' Hi') as (c' & o' & Hc' & Ho' & Hm').
    rewrite Hc, Hc' in Hap. rewrite Ho in Ho'. injection Ho' as <-. by eapply class_apart_sound.
  - destruct (checked_wyde op) as [w|] eqn:E1; [|done]. destruct (checked_wyde op') as [w'|] eqn:E2; [|done].
    destruct (checked_wyde_value _ _ _ E1 W1) as (v & Hv & E). destruct (checked_wyde_value _ _ _ E2 W2) as (v' & Hv' & E').
    rewrite Hv in Hv'. injection Hv' as <-. rewrite E in E'. apply negb_true_iff, bool_decide_eq_false in Hw.
    by destruct w, w'; try discriminate E'; apply Hw.
Qed.
(** A line is an instance of at most one row of its mnemonic, but for the
    pseudo-instructions and the wyde instructions whose position the matcher
    does not look at. *)
Lemma matching_row_unique op op' Ops : AsmMnemonic (desc op) = AsmMnemonic (desc op') -> ambiguous op op' = false ->
  row_matches op Ops = true -> row_matches op' Ops = true -> op = op'.
Proof.
  intros Hmn Ham H1 H2. pose proof rows_checked as Hall. rewrite forallb_forall in Hall.
  specialize (Hall op (proj1 (list_elem_of_In _ _) (opcodes_complete op))). rewrite forallb_forall in Hall.
  specialize (Hall op' (proj1 (list_elem_of_In _ _) (opcodes_complete op'))). rewrite Hmn, String.eqb_refl, Ham in Hall.
  cbn [negb orb] in Hall. rewrite orb_false_r in Hall. apply orb_true_iff in Hall as [Heq|Hap].
  - by apply bool_decide_eq_true in Heq.
  - by destruct (rows_apart_sound op op' Ops Hap H1 H2).
Qed.

(** ** A lexer *)

(** The laws hold: the lexer and the parser of expressions as far as the
    printer uses them. *)
Definition punctuation : list string := ["%"; "["; "]"; ", "; ", 0"].
Definition str_tokens (s : string) : list AsmToken :=
  if String.eqb s "%" then [Percent] else if String.eqb s "[" then [LBrac] else if String.eqb s "]" then [RBrac]
  else if String.eqb s ", " then [Comma] else if String.eqb s ", 0" then [Comma; Integer 0] else [Identifier s].
Definition piece_tokens (p : piece) : list AsmToken :=
  match p with
  | P_str s => str_tokens s
  | P_hex v | P_dec v => int_tokens v
  | P_expr (MCSymbolRefExpr s) => [Identifier s]
  | P_expr _ => [OtherToken]
  end.
Definition number_expression (l : list AsmToken) : option (MCExpr * list AsmToken) :=
  match l with
  | (Integer v :: l) | (Plus :: Integer v :: l) => Some (MCConstantExpr v, l)
  | Minus :: Integer v :: l => Some (MCConstantExpr (- v), l)
  | Plus :: Identifier s :: l => Some (MCSymbolRefExpr s, l)
  | _ => None
  end.
Definition all_registers : list Register :=
  map RDx (seqZ 0 64) ++ map RBx (seqZ 0 64) ++ map RAx (seqZ 0 64)
  ++ [RDZERO; RDRV; RBIP; RBSP; RBFP; RBGP; RBTP; RBCA; RAVV; RASP].
#[export] Instance plain_lexer : AsmLib := {|
  lex l := (concat (map piece_tokens l) ++ [EndOfStatement])%list;
  name_ok s := negb (bool_decide (s ∈ punctuation));
  parseExpression := number_expression;
  asm_parseIdentifier l := match l with Identifier s :: l => Some (s, l) | _ => None end;
  MatchRegisterName s := List.find (fun r => String.eqb s (getRegisterName r)) all_registers;
  variable _ := None |}.
Lemma name_tokens s : name_ok s = true -> str_tokens s = [Identifier s].
Proof.
  intros Hn%negb_true_iff%bool_decide_eq_false. unfold str_tokens.
  repeat (case_match; [match goal with E : String.eqb _ _ = true |- _ => apply String.eqb_eq in E as -> end;
    destruct Hn; apply list_elem_of_In; cbn; tauto|]). done.
Qed.
Definition reg_named (r : Register) : bool :=
  name_ok (getRegisterName r) && bool_decide (MatchRegisterName (getRegisterName r) = Some r).
Lemma registers_named : forallb reg_named all_registers = true.
Proof. vm_compute. reflexivity. Qed.
Lemma class_registers r : GPRDRegClass r || GPRBRegClass r = true -> r ∈ all_registers.
Proof.
  assert (Hi : forall i, hex6 i = true -> i ∈ seqZ 0 64).
  { intros i [H1%Z.leb_le H2%Z.leb_le]%andb_true_iff. apply elem_of_seqZ. lia. }
  intros Hr. unfold all_registers. rewrite !elem_of_app, !list_elem_of_fmap.
  destruct r as [i|i|i| | | | | | | | | | |]; try discriminate Hr;
    try (do 3 right; apply list_elem_of_In; cbn; tauto).
  - left. exists i. split; [done|]. apply Hi. cbn in Hr. rewrite orb_false_r in Hr. by apply andb_true_iff in Hr as [Hr _].
  - right; left. exists i. split; [done|]. by apply Hi.
Qed.
#[export] Instance plain_lexer_laws : AsmLaws.
Proof.
  split; try done.
  - intros s l Hn _. cbn. by rewrite (name_tokens s Hn).
  - intros v l _. cbn. by rewrite <- app_assoc.
  - intros v l _. cbn. by rewrite <- app_assoc.
  - intros r Hr%class_registers%list_elem_of_In. pose proof registers_named as Hall. rewrite forallb_forall in Hall.
    apply Hall, andb_true_iff in Hr as [H1 H2%bool_decide_eq_true]. done.
  - intros s r [_ Hs%String.eqb_eq]%find_some. done.
  - by intros [].
Qed.

(** C27: what LLVM prints LLVM assembles, for the instructions whose
    operands are all printable: registers of their class, immediates in the
    range the parser has for the class, symbols, and addresses of a base and an
    offset.  Their text, read by the assembler parser, is accepted as an
    instance of their row and becomes an instruction that encodes to the same
    word, with the fixups of its symbols (wrapped in a target expression); no
    other row of the mnemonic takes the line, but for the rows that are
    ambiguous.  Not among them are loads and stores with an index register,
    whose text no row takes (indexed_text_refused), a negative immediate of
    cmps (compare_immediate_unsigned) and rd15 (rd15_refused). *)
Theorem printed_text_assembles `{AsmLaws} op l s w fx :
  getBinaryCodeForInstr (MkMCInst op l) = Some (w, fx) -> printable_inst op l s ->
  exists ps Ops inst,
    printInstruction (MkMCInst op l) = Some ps /\
    ParseInstruction (AsmMnemonic (desc op)) (lex ps) = Some (Ops, [EndOfStatement]) /\
    row_matches op Ops = true /\
    (forall op', AsmMnemonic (desc op') = AsmMnemonic (desc op) -> ambiguous op' op = false ->
       row_matches op' Ops = true -> op' = op) /\
    convertToMCInst op Ops = Some inst /\
    getBinaryCodeForInstr inst = Some (w, map wrap_fixup fx).
Proof.
  intros Hw Hpi. destruct (args_exist op l s Hpi) as [args Hargs]. pose proof (asm_rows op) as Hrow.
  destruct (line_parses (AsmMnemonic (desc op)) args (ar_st _ Hrow) (ar_bt _ Hrow) (fun i a => args_fit op l s Hpi args i a Hargs))
    as (ps & os & Hps & Hparse & Hread).
  exists (separated ps), (TOKEN (AsmMnemonic (desc op)) :: os),
    (MkMCInst op (concat (map (fun p => reread (fst (snd p)) (snd (snd p))) s))).
  split; [rewrite (printed op l s Hpi args Hargs), Hps; done|]. split; [done|].
  pose proof (row_accepts op l s Hpi args os Hargs Hread) as Hrm. split; [done|].
  split; [by intros op' Hmn Ham Hop'; apply (matching_row_unique op' op _ Hmn Ham Hop')|]. split; [by apply (converted op l s Hpi args os)|].
  unfold getBinaryCodeForInstr in *. cbn [getOpcode Operands] in *. destruct (isPseudo op); [done|].
  destruct (op_values op _ l) as [[vs fx']|] eqn:Ev; [|done]. cbn [mbind option_bind] in Hw.
  destruct (mapM (field_value vs) _) as [fs|] eqn:Ef; [|done]. cbn [mbind option_bind] in Hw. injection Hw as <- <-.
  rewrite (values_reread op _ l s vs fx' (pi_slices _ _ _ Hpi) (pi_print _ _ _ Hpi) (ar_mem _ Hrow)); [|apply (ar_bare _ Hrow)|done].
  cbn [mbind option_bind]. by rewrite Ef.
Qed.

(** A load, and a branch to a symbol. *)
Lemma printed_text_assembles_witness :
  exists ps Ops inst,
    printInstruction (MkMCInst LDO_RRII [MCReg (RDx 5); MCReg RBSP; MCImm (-8)]) = Some ps /\
    ParseInstruction (AsmMnemonic (desc LDO_RRII)) (lex ps) = Some (Ops, [EndOfStatement]) /\
    row_matches LDO_RRII Ops = true /\
    (forall op', AsmMnemonic (desc op') = AsmMnemonic (desc LDO_RRII) -> ambiguous op' LDO_RRII = false ->
       row_matches op' Ops = true -> op' = LDO_RRII) /\
    convertToMCInst LDO_RRII Ops = Some inst /\
    getBinaryCodeForInstr inst = Some (856956920, map wrap_fixup []).
Proof.
  apply (printed_text_assembles LDO_RRII _
    [("RxHa", (GPRD, [MCReg (RDx 5)])); ("src", (MEM_RRII, [MCReg RBSP; MCImm (-8)]))]).
  - vm_compute. reflexivity.
  - constructor; [vm_compute; reflexivity|repeat constructor|].
    intros n Hn. repeat (apply list_elem_of_In in Hn; destruct Hn as [<- |Hn]; [reflexivity|]; apply list_elem_of_In in Hn).
    by apply elem_of_nil in Hn.
Defined.

(** ** What the parser takes *)
Definition rows_taking (Ops : list DadaoOperand) : list Opcode := List.filter (fun op => row_matches op Ops) all_opcodes.
Definition assembled (op : Opcode) (Ops : list DadaoOperand) : option (Z * list MCFixup) :=
  inst ← convertToMCInst op Ops; getBinaryCodeForInstr inst.

(** The text of a load with an index register ends in a count the parser
    reads as a fourth operand: no row takes it. *)
Lemma indexed_text_refused : exists ps Ops,
  printInstruction (MkMCInst LDMO_RD_RRRI [MCReg (RDx 5); MCReg RBSP; MCReg (RDx 6); MCImm 0]) = Some ps /\
  ParseInstruction "ldmo" (lex ps) = Some (Ops, [EndOfStatement]) /\ rows_taking Ops = [].
Proof.
  exists [P_str "%"; P_str "rd5"; P_str ", "; P_str "["; P_str "%"; P_str "rbsp"; P_str ", "; P_str "%"; P_str "rd6";
          P_str "]"; P_str ", 0"],
    [TOKEN "ldmo"; REGISTERD (RDx 5); MEMORY_REG_REG RBSP (RDx 6) 0; IMMEDIATE (MCConstantExpr 0)].
  repeat split; vm_compute; reflexivity.
Qed.
(** On an rb register the position of a wyde is not looked at: [orw rb5, w2, 16]
    is an instance of four rows. *)
Lemma wyde_position_unchecked Ops :
  ParseInstruction "orw" [Percent; Identifier "rb5"; Comma; Identifier "w2"; Comma; Integer 16; EndOfStatement]
    = Some (Ops, [EndOfStatement]) ->
  filter (fun op => AsmMnemonic (desc op) = "orw") (rows_taking Ops) = wydes ORW_RB_RWII.
Proof.
  intros E. vm_compute in E. injection E as <-. vm_compute. reflexivity.
Qed.
(** The class of a base register is not looked at either: an rd register is
    encoded as the rb register of its number. *)
Lemma base_class_unchecked :
  ParseInstruction "ldo" [Percent; Identifier "rd5"; Comma; LBrac; Percent; Identifier "rd2"; Comma; Integer 8; RBrac; EndOfStatement]
    = Some ([TOKEN "ldo"; REGISTERD (RDx 5); MEMORY_REG_IMM (RDx 2) (MCConstantExpr 8)], [EndOfStatement]) /\
  row_matches LDO_RRII [TOKEN "ldo"; REGISTERD (RDx 5); MEMORY_REG_IMM (RDx 2) (MCConstantExpr 8)] = true /\
  assembled LDO_RRII [TOKEN "ldo"; REGISTERD (RDx 5); MEMORY_REG_IMM (RDx 2) (MCConstantExpr 8)]
    = getBinaryCodeForInstr (MkMCInst LDO_RRII [MCReg (RDx 5); MCReg (RBx 2); MCImm 8]).
Proof. repeat split; vm_compute; reflexivity. Qed.
(** Where a symbol may stand a register must be written with its %. *)
Lemma setrd_reads_symbol :
  ParseInstruction "setrd" [Percent; Identifier "rd1"; Comma; Identifier "rd2"; EndOfStatement]
    = Some ([TOKEN "setrd"; REGISTERD (RDx 1); IMMEDIATE (MCSymbolRefExpr "rd2")], [EndOfStatement]).
Proof. vm_compute. reflexivity. Qed.
(** Two percent signs where the offset stands and no name: the offset is
    used though there is none. *)
Lemma offset_missing :
  parseMemoryOperand [LBrac; Percent; Identifier "rb1"; Comma; Percent; Percent; RBrac; EndOfStatement] = (NullPointer, [EndOfStatement]).
Proof. vm_compute. reflexivity. Qed.
(** The signed immediate of a comparison is written unsigned: -1 is refused,
    4095 is the word of -1. *)
Lemma compare_immediate_unsigned :
  row_matches CMPS_RRII [TOKEN "cmps"; REGISTERD (RDx 8); REGISTERD (RDx 9); IMMEDIATE (MCConstantExpr (-1))] = false /\
  row_matches CMPS_RRII [TOKEN "cmps"; REGISTERD (RDx 8); REGISTERD (RDx 9); IMMEDIATE (MCConstantExpr 4095)] = true /\
  assembled CMPS_RRII [TOKEN "cmps"; REGISTERD (RDx 8); REGISTERD (RDx 9); IMMEDIATE (MCConstantExpr 4095)]
    = getBinaryCodeForInstr (MkMCInst CMPS_RRII [MCReg (RDx 8); MCReg (RDx 9); MCImm (-1)]).
Proof. repeat split; vm_compute; reflexivity. Qed.
(** rd15 is a register of no class: an operation on it is refused. *)
Lemma rd15_refused :
  row_matches ADDI_RRII [TOKEN "addi"; REGISTERD (RDx 15); REGISTERD (RDx 15); IMMEDIATE (MCConstantExpr 1)] = false /\
  row_matches ADDI_RRII [TOKEN "addi"; REGISTERD (RDx 14); REGISTERD (RDx 14); IMMEDIATE (MCConstantExpr 1)] = true.
Proof. split; vm_compute; reflexivity. Qed.
