(* ===== verification/LinuxAtomic.v ===== *)
(** The kernel port: the atomic operations of
    arch/dadao/include/asm/atomic.h.

    A function is its assembly template, a list of [asm_line]s; the registers
    the compiler picks for the operands are the arguments.  A branch names the
    line it goes to, 218 being line 0 and 219 the end. *)
From S2P Require Import Prelude Opcodes Cpu Tcg Translate Run Decode Step.
Local Open Scope string_scope.
Local Open Scope Z_scope.

(** ** Lines *)
Inductive asm_line :=
| L_lro (order : string) (dest ptr : Z)           (* lro_xx rd0, dest, ptr *)
| L_sco (order : string) (dest src ptr : Z)       (* sco_xx dest, src, ptr *)
| L_add (op : string) (dest x y : Z)              (* op rd0, dest, x, y *)
| L_logic (op : string) (dest x y : Z)            (* op dest, x, y *)
| L_addi (dest x imm : Z)
| L_br1 (op : string) (x : Z) (target : nat)
| L_br2 (op : string) (x y : Z) (target : nat)
| L_fence
| L_run_on (l l' : asm_line).                     (* no newline between the two *)

(** Memory orders: none, acquire, release, both. *)
Definition orders : list (string * string) := [("nn", "NN"); ("nr", "NR"); ("an", "AN"); ("ar", "AR")].
(** The row of the instruction table a line is an instance of. *)
Definition line_name (l : asm_line) : option string :=
  match l with
  | L_lro o _ _ => n ← assoc o orders; Some ("LRO_" ++ n)
  | L_sco o _ _ _ => n ← assoc o orders; Some ("SCO_" ++ n)
  | L_add op _ _ _ => assoc op [("add", "ADDrd"); ("sub", "SUBrd")]
  | L_logic op _ _ _ => assoc op [("and", "AND"); ("orr", "ORR"); ("xor", "XOR")]
  | L_addi _ _ _ => Some "ADDIrd"
  | L_br1 op _ _ => assoc op [("brnz", "BRNZ"); ("brnp", "BRNP")]
  | L_br2 op _ _ _ => assoc op [("breq", "BREQ"); ("brne", "BRNE")]
  | L_fence => Some "FENCE"
  | L_run_on _ _ => None
  end.
(** The fields of the word of line [i]. *)
Definition line_fields (i : nat) (l : asm_line) (a : args) : Prop :=
  match l with
  | L_lro _ d p => hb a = 0 /\ hc a = d /\ hd a = p
  | L_sco _ d x p => hb a = d /\ hc a = x /\ hd a = p
  | L_add _ d x y => ha a = 0 /\ hb a = d /\ hc a = x /\ hd a = y
  | L_logic _ d x y => hb a = d /\ hc a = x /\ hd a = y
  | L_addi d x imm => ha a = d /\ hb a = x /\ imms12 a = imm
  | L_br1 _ x t => ha a = x /\ imms18 a = Z.of_nat t - Z.of_nat i
  | L_br2 _ x y t => ha a = x /\ hb a = y /\ imms12 a = Z.of_nat t - Z.of_nat i
  | L_fence => True
  | L_run_on _ _ => False
  end.
(** A word a line may be assembled to. *)
Definition line_word (i : nat) (l : asm_line) (w : Z) : Prop :=
  exists n p, line_name l = Some n /\ p ∈ insns_decode /\ p_name p = n /\ matches p w = true /\
    line_fields i l (pattern_args p w).

(** The registers of a line, other than the rd0 the template names. *)
Definition line_regs (l : asm_line) : list Z :=
  match l with
  | L_lro _ d p => [d; p]
  | L_sco _ d x p => [d; x; p]
  | L_add _ d x y | L_logic _ d x y => [d; x; y]
  | L_addi d x _ => [d; x]
  | L_br1 _ x _ => [x]
  | L_br2 _ x y _ => [x; y]
  | L_fence | L_run_on _ _ => []
  end.
Definition in_file (j : Z) : Prop := 0 < j < 64.
Definition allocated (code : list asm_line) : Prop := Forall (fun l => Forall in_file (line_regs l)) code.
Definition assembled (code : list asm_line) (ws : list Z) : Prop :=
  length ws = length code /\
  forall i l, code !! i = Some l -> exists w, ws !! i = Some w /\ line_word i l w.

(** ** The templates *)
Definition ATOMIC64_OP (op : string) (result tmp counter a : Z) : list asm_line :=
  [L_lro "nn" result counter; L_add op result result a; L_sco "nn" tmp result counter; L_br1 "brnz" tmp 0].
Definition ATOMIC64_OP_logic (asm_op : string) (result tmp counter a : Z) : list asm_line :=
  [L_lro "nn" result counter; L_logic asm_op result result a; L_sco "nn" tmp result counter; L_br1 "brnz" tmp 0].
Definition ATOMIC64_OP_RETURN (op acq rel : string) (result tmp counter a : Z) : list asm_line :=
  [L_lro acq result counter; L_add op result result a; L_sco rel tmp result counter; L_br1 "brnz" tmp 0].
Definition ATOMIC64_FETCH_OP (op acq rel : string) (result val tmp counter a : Z) : list asm_line :=
  [L_lro acq result counter; L_add op val result a; L_sco rel tmp val counter; L_br1 "brnz" tmp 0].
Definition ATOMIC64_FETCH_OP_logic (asm_op acq rel : string) (result val tmp counter a : Z) : list asm_line :=
  [L_lro acq result counter; L_logic asm_op val result a; L_sco rel tmp val counter; L_br1 "brnz" tmp 0].
(** The string of the branch does not end in a newline. *)
Definition atomic64_dec_if_positive (p rc c : Z) : list asm_line :=
  [L_lro "nn" p c; L_run_on (L_br1 "brnp" p 6) (L_addi rc p (-1)); L_sco "nr" rc rc c; L_br1 "brnz" rc 0; L_fence].
Definition atomic64_fetch_add_unless (p rc c a u : Z) : list asm_line :=
  [L_lro "nn" p c; L_br2 "breq" p u 6; L_add "add" rc p a; L_sco "nr" rc rc c; L_br1 "brnz" rc 0; L_fence].
Definition ATOMIC64_XCHG_OP (acq rel : string) (result tmp counter new : Z) : list asm_line :=
  [L_lro acq result counter; L_sco rel tmp new counter; L_br1 "brnz" tmp 0].
Definition ATOMIC64_CMPXCHG_OP (acq rel : string) (result tmp counter old new : Z) : list asm_line :=
  [L_lro acq result counter; L_br2 "brne" result old 4; L_sco rel tmp new counter; L_br1 "brnz" tmp 0].

(** ** Running a template

    The words are at [base]; a processor runs them, and between two of its
    instructions the others may change the memory in any way.  The trace is
    the memory before and after each instruction of this processor. *)
Section Run.
Context {M : Type} (B : backend M).
Variable helper : string -> CPUDADAOState -> list Z -> Z * CPUDADAOState.
Variable disas : Z -> gen bool.
Variable goto_tb : Z -> bool.
Variables (base : Z) (ws : list Z).
Definition at_line (i : nat) : Z := base + 4 * Z.of_nat i.
Inductive runs_atomic : CPUDADAOState -> M -> list (M * M) -> CPUDADAOState -> M -> Prop :=
| run_here env mem : runs_atomic env mem [] env mem
| run_line i w env mem env1 mem1 mem2 tr env' mem' :
    REG_PC env = at_line i -> ws !! i = Some w ->
    step B helper disas goto_tb (at_line i) w env mem = Some (RExit env1 mem1) ->
    runs_atomic env1 mem2 tr env' mem' ->
    runs_atomic env mem ((mem, mem1) :: tr) env' mem'.
Definition at_end (env : CPUDADAOState) : Prop := REG_PC env = at_line (length ws).
(** Nobody else writes: each instruction finds the memory the one before it
    left. *)
Fixpoint alone (mem : M) (tr : list (M * M)) (mem' : M) : Prop :=
  match tr with
  | [] => mem' = mem
  | (m, m1) :: tr => m = mem /\ alone m1 tr mem'
  end.
Definition quiet (tr : list (M * M)) : Prop := Forall (fun '(m, m1) => m1 = m) tr.
End Run.

(** ** What the functions promise

    [inputs] gives the values of the registers at the start.  The operation
    stores [s_new] of the word unless [s_stop] of it holds, and leaves
    [s_out] of it, or the word itself if it stopped, in register [s_res]. *)
Record rmw := Rmw {
  s_res : Z; s_ptr : Z; s_scratch : list Z;
  s_stop : (Z -> Z) -> Z -> bool; s_new : (Z -> Z) -> Z -> Z; s_out : (Z -> Z) -> Z -> Z }.
Definition add_op (op : string) (x y : Z) : Z := if (op =? "sub")%string then w64 (x - y) else w64 (x + y).
Definition logic_op (op : string) (x y : Z) : Z :=
  if (op =? "and")%string then Z.land x y else if (op =? "orr")%string then Z.lor x y else Z.lxor x y.
Definition never (inputs : Z -> Z) (v : Z) : bool := false.
Definition value (inputs : Z -> Z) (v : Z) : Z := v.
Definition op_with (f : Z -> Z -> Z) (a : Z) (inputs : Z -> Z) (v : Z) : Z := f v (inputs a).
Inductive atomic_function : list asm_line -> rmw -> Prop :=
| af_op op res tmp c a : op ∈ ["add"; "sub"] -> res <> tmp -> a ∉ [res; tmp] ->
    atomic_function (ATOMIC64_OP op res tmp c a)
      (Rmw res c [res; tmp] never (op_with (add_op op) a) (op_with (add_op op) a))
| af_logic op res tmp c a : op ∈ ["and"; "orr"; "xor"] -> res <> tmp -> a ∉ [res; tmp] ->
    atomic_function (ATOMIC64_OP_logic op res tmp c a)
      (Rmw res c [res; tmp] never (op_with (logic_op op) a) (op_with (logic_op op) a))
| af_return op acq rel res tmp c a : op ∈ ["add"; "sub"] -> res <> tmp -> a ∉ [res; tmp] ->
    atomic_function (ATOMIC64_OP_RETURN op acq rel res tmp c a)
      (Rmw res c [res; tmp] never (op_with (add_op op) a) (op_with (add_op op) a))
| af_fetch op acq rel res val tmp c a : op ∈ ["add"; "sub"] ->
    NoDup [res; val; tmp] -> a ∉ [res; val; tmp] ->
    atomic_function (ATOMIC64_FETCH_OP op acq rel res val tmp c a)
      (Rmw res c [res; val; tmp] never (op_with (add_op op) a) value)
| af_fetch_logic op acq rel res val tmp c a : op ∈ ["and"; "orr"; "xor"] ->
    NoDup [res; val; tmp] -> a ∉ [res; val; tmp] ->
    atomic_function (ATOMIC64_FETCH_OP_logic op acq rel res val tmp c a)
      (Rmw res c [res; val; tmp] never (op_with (logic_op op) a) value)
| af_unless p rc c a u : p <> rc -> a ∉ [p; rc] -> u ∉ [p; rc] ->
    atomic_function (atomic64_fetch_add_unless p rc c a u)
      (Rmw p c [p; rc] (fun inp v => v =? inp u) (op_with (add_op "add") a) value)
| af_xchg acq rel res tmp c new : res <> tmp -> new ∉ [res; tmp] ->
    atomic_function (ATOMIC64_XCHG_OP acq rel res tmp c new)
      (Rmw res c [res; tmp] never (fun inp _ => inp new) value)
| af_cmpxchg acq rel res tmp c old new : res <> tmp -> old ∉ [res; tmp] -> new ∉ [res; tmp] ->
    atomic_function (ATOMIC64_CMPXCHG_OP acq rel res tmp c old new)
      (Rmw res c [res; tmp] (fun inp v => negb (v =? inp old)) (fun inp _ => inp new) value).
