(* ===== verification/LinuxAtomicProps.v ===== *)
(** The kernel's atomic operations on the emulator: each is one step that
    reads and writes the word, whatever the other processors do between its
    instructions, and ends when they leave the word alone. *)
From S2P Require Import Prelude Opcodes Cpu Tcg Translate Run RefBackend IsaArith IsaMove IsaMem IsaControl IsaSys.
From S2P Require Import Frame Decode Step Isa IsaProps Emu EmuProps GasExec LinuxAtomic.
Local Open Scope string_scope.
Local Open Scope Z_scope.

(** A compare-and-exchange of an octa. *)
Definition cas_law {M} (B : backend M) : Prop := forall a c n m,
  b_cmpxchg B MO_TEUQ a c n m =
    (old ← b_ld B MO_TEUQ a m; if old =? c then m' ← b_st B MO_TEUQ a n m; Some (old, m') else Some (old, m)).
Lemma ref_cas : cas_law ref_backend.
Proof. intros a c n m. cbn. by destruct (_ =? c). Qed.

(** What a line leaves alone. *)
Record moves (env env1 : CPUDADAOState) (pc : Z) (outs : list Z) : Prop := Moves {
  mv_pc : REG_PC env1 = pc;
  mv_res : load_res env1 = load_res env;
  mv_val : load_val env1 = load_val env;
  mv_reg : forall g j, j <> 0 -> (g = RD -> j ∉ outs) -> reg g j env1 = reg g j env }.
Lemma load_prologue env : load_res (prologue env) = load_res env /\ load_val (prologue env) = load_val env.
Proof. by destruct env. Qed.
Lemma reg_set_load_res g j v env : reg g j (set_load_res v env) = reg g j env.
Proof. by destruct env, g. Qed.
Lemma moves_write d v pc env : wf_env env -> 0 < d < 64 ->
  moves env (set_PC pc (write RD d v (prologue env))) pc [d] /\
  reg RD d (set_PC pc (write RD d v (prologue env))) = v.
Proof.
  intros Hwf Hd. pose proof (wf_prologue _ Hwf) as Hp. unfold write. rewrite (proj2 (Z.eqb_neq d 0)) by lia. split.
  - split.
    + unfold REG_PC, set_PC. apply reg_set_reg_eq; [eauto with cpu|lia].
    + by destruct env.
    + by destruct env.
    + intros g j Hj Hg. unfold set_PC. rewrite reg_set_reg_ne by (by right). rewrite reg_set_reg_ne, reg_prologue; [done|done|].
      destruct (decide (g = RD)) as [-> |]; [|by left]. right. intros ->. apply Hg; [done|left].
  - unfold set_PC. rewrite reg_set_reg_ne by (by left). apply reg_set_reg_eq; [done|lia].
Qed.
Lemma moves_jump pc v env : wf_env env -> moves env (set_PC pc (set_jmp_pc v (prologue env))) pc [].
Proof.
  intros Hwf. pose proof (wf_prologue _ Hwf) as Hp. split.
  - unfold REG_PC, set_PC. apply reg_set_reg_eq; [by destruct env|lia].
  - by destruct env.
  - by destruct env.
  - intros g j Hj _. unfold set_PC. rewrite reg_set_reg_ne by (by right).
    rewrite <- (reg_prologue g j env Hj). by destruct env, g.
Qed.

Section Lines.
Context {M : Type} (B : backend M) (L : tcg_laws B).
Variable helper : string -> CPUDADAOState -> list Z -> Z * CPUDADAOState.
Variable disas : Z -> gen bool.
Hypothesis Hdisas : decodetree_laws disas.
Variable goto_tb : Z -> bool.
Abbreviation cpu_step := (step B helper disas goto_tb).

Lemma word_step sp i l w pc env mem :
  step_implements B helper disas sp -> line_name l = Some (sp_name sp) -> line_word i l w ->
  0 <= pc < 2^64 -> machine_ok env ->
  exists a, fields_ok a /\ line_fields i l a /\
    (sp_pre sp pc a (prologue env) -> cpu_step pc w env mem = Some (sp_sem sp pc a (prologue env) mem)).
Proof.
  intros (q & Hq & Hqn & Hstep) Hl (n & p & Hn & Hp & Hpn & Hm & Hf) Hpc [Hwf Hu _ _ _].
  assert (p = q) as -> by (apply pattern_by_name; congruence).
  exists (pattern_args q w). split; [by apply pattern_args_ok|]. split; [done|]. intros Hpre. by apply Hstep.
Qed.
Lemma alu_line r i l w pc env mem :
  r ∈ isa_alu -> line_name l = Some (isa_name r) -> line_word i l w -> 0 <= pc < 2^64 -> machine_ok env ->
  exists a, fields_ok a /\ line_fields i l a /\
    (isa_pre r a (prologue env) ->
     cpu_step pc w env mem = Some (RExit (set_PC (w64 (pc + 4)) (isa_spec r pc a (prologue env))) mem)).
Proof.
  intros Hr Hn Hw Hpc Hm. pose proof (alu_implemented B L helper disas Hdisas) as Ha. rewrite Forall_forall in Ha.
  apply (word_step (sp_alu r)); try done. apply Ha, list_elem_of_fmap. eauto.
Qed.
Lemma add_line i op d x y w pc env mem : op ∈ ["add"; "sub"] -> in_file d -> in_file x -> in_file y ->
  line_word i (L_add op d x y) w -> 0 <= pc < 2^64 -> machine_ok env ->
  exists env1, cpu_step pc w env mem = Some (RExit env1 mem) /\ moves env env1 (w64 (pc + 4)) [d] /\
    reg RD d env1 = add_op op (reg RD x env) (reg RD y env).
Proof.
  intros Hop Hd Hx Hy Hw Hpc Hm.
  assert (Hr : forall n f, line_name (L_add op d x y) = Some n -> Row n always (fun _ => spec_addsub f) ∈ isa_alu ->
    (forall u v, w64 (f (s64 u) (s64 v)) = add_op op u v) ->
    exists env1, cpu_step pc w env mem = Some (RExit env1 mem) /\ moves env env1 (w64 (pc + 4)) [d] /\
      reg RD d env1 = add_op op (reg RD x env) (reg RD y env)).
  { intros n f Hn Hin Hf. destruct (alu_line _ i _ w pc env mem Hin Hn Hw Hpc Hm) as (a & Ha & (H1 & H2 & H3 & H4) & Hs).
    eexists. split; [by apply Hs|]. cbn [isa_spec]. unfold spec_addsub. rewrite H1, H2, H3, H4, Hf, !reg_prologue by (unfold in_file in *; lia).
    change (write RD 0 ?u ?e) with e. by apply moves_write; [apply Hm|]. }
  assert (Hs64 : forall u, s64 u mod 2^64 = u mod 2^64).
  { intros u. unfold s64, sext. case_match; [|by rewrite Z.mod_mod].
    rewrite <- (Z.mod_add (_ - _) 1) by lia. replace (u mod 2 ^ 64 - 2 ^ 64 + 1 * 2 ^ 64) with (u mod 2^64) by lia. by rewrite Z.mod_mod. }
  rewrite !elem_of_cons, elem_of_nil in Hop. destruct Hop as [->|[->|[]]].
  - apply (Hr "ADDrd" Z.add); [done|apply (bool_decide_unpack _) || (unfold isa_alu, isa_arith; cbn; left)|].
    intros u v. unfold add_op. cbn. unfold w64. by rewrite Z.add_mod, !Hs64, <- Z.add_mod by lia.
  - apply (Hr "SUBrd" Z.sub); [done|unfold isa_alu, isa_arith; cbn; right; left|].
    intros u v. unfold add_op. cbn. unfold w64. by rewrite Zminus_mod, !Hs64, <- Zminus_mod.
Qed.
Lemma logic_line i op d x y w pc env mem : op ∈ ["and"; "orr"; "xor"] -> in_file d -> in_file x -> in_file y ->
  line_word i (L_logic op d x y) w -> 0 <= pc < 2^64 -> machine_ok env ->
  exists env1, cpu_step pc w env mem = Some (RExit env1 mem) /\ moves env env1 (w64 (pc + 4)) [d] /\
    reg RD d env1 = logic_op op (reg RD x env) (reg RD y env).
Proof.
  intros Hop Hd Hx Hy Hw Hpc Hm.
  assert (Hr : forall n, line_name (L_logic op d x y) = Some n -> Row n always (fun _ => spec_orrr RD (logic_op op)) ∈ isa_alu ->
    exists env1, cpu_step pc w env mem = Some (RExit env1 mem) /\ moves env env1 (w64 (pc + 4)) [d] /\
      reg RD d env1 = logic_op op (reg RD x env) (reg RD y env)).
  { intros n Hn Hin. destruct (alu_line _ i _ w pc env mem Hin Hn Hw Hpc Hm) as (a & Ha & (H1 & H2 & H3) & Hs).
    eexists. split; [by apply Hs|]. cbn [isa_spec]. unfold spec_orrr. rewrite H1, H2, H3, !reg_prologue by (unfold in_file in *; lia).
    by apply moves_write; [apply Hm|]. }
  assert (Hin : forall r, r ∈ isa_logic -> r ∈ isa_alu).
  { intros r Hl. unfold isa_alu. rewrite !elem_of_app. tauto. }
  rewrite !elem_of_cons, elem_of_nil in Hop. destruct Hop as [->|[->|[->|[]]]];
    [apply (Hr "AND")|apply (Hr "ORR")|apply (Hr "XOR")]; try done; apply Hin; unfold isa_logic; cbn;
    repeat (apply elem_of_cons; first [left; reflexivity|right]).
Qed.
Lemma fence_line i w pc env mem : line_word i L_fence w -> 0 <= pc < 2^64 -> machine_ok env ->
  exists env1, cpu_step pc w env mem = Some (RExit env1 mem) /\ moves env env1 (w64 (pc + 4)) [].
Proof.
  intros Hw Hpc Hm.
  assert (Hin : Row "FENCE" always (fun _ _ env => env) ∈ isa_alu).
  { unfold isa_alu. rewrite !elem_of_app. right. right. unfold isa_assign. cbn.
    repeat (apply elem_of_cons; first [left; reflexivity|right]). }
  destruct (alu_line _ i L_fence w pc env mem Hin eq_refl Hw Hpc Hm) as (a & Ha & _ & Hs).
  eexists. split; [by apply Hs|]. cbn [isa_spec]. pose proof (wf_prologue _ (ok_wf _ Hm)) as Hp. split.
  - unfold REG_PC, set_PC. apply reg_set_reg_eq; [done|lia].
  - by destruct env.
  - by destruct env.
  - intros g j Hj _. unfold set_PC. rewrite reg_set_reg_ne by (by right). by apply reg_prologue.
Qed.

(** Branches. *)
Definition test2 (op : string) (u v : Z) : bool := if (op =? "breq")%string then u =? v else negb (u =? v).
Lemma branch_target base i t : 0 <= at_line base t < 2^64 ->
  w64 (at_line base i + 4 * (Z.of_nat t - Z.of_nat i)) = at_line base t.
Proof. intros Ht. replace (_ + _) with (at_line base t) by (unfold at_line; lia). by apply w64_id. Qed.
Lemma br1_line base i x t w env mem : in_file x ->
  line_word i (L_br1 "brnz" x t) w -> 0 <= at_line base i < 2^64 -> 0 <= at_line base t < 2^64 -> machine_ok env ->
  exists env1, cpu_step (at_line base i) w env mem = Some (RExit env1 mem) /\
    moves env env1 (if negb (reg RD x env =? 0) then at_line base t else w64 (at_line base i + 4)) [].
Proof.
  intros Hx Hw Hpc Ht Hm. pose proof (control_implemented B L helper disas Hdisas) as Hall. rewrite Forall_forall in Hall.
  assert (Hin : sp_br1 "BRNZ" (fun v => negb (v =? 0)) ∈ isa_control B)
    by (unfold isa_control; repeat (apply elem_of_cons; first [left; reflexivity|right])).
  destruct (word_step _ i (L_br1 "brnz" x t) w _ env mem (Hall _ Hin) eq_refl Hw Hpc Hm) as (a & Ha & [H1 H2] & Hs).
  eexists. split; [by apply Hs|]. cbn [sp_sem sp_br1]. unfold spec_br1.
  rewrite H1, H2, reg_prologue by (unfold in_file in *; lia). rewrite branch_target by done.
  replace (jmp_pc (set_jmp_pc _ _)) with (if negb (reg RD x env =? 0) then at_line base t else w64 (at_line base i + 4))
    by (by destruct env). apply moves_jump, Hm.
Qed.
Lemma br2_line base i op x y t w env mem : op ∈ ["breq"; "brne"] -> in_file x -> in_file y ->
  line_word i (L_br2 op x y t) w -> 0 <= at_line base i < 2^64 -> 0 <= at_line base t < 2^64 -> machine_ok env ->
  exists env1, cpu_step (at_line base i) w env mem = Some (RExit env1 mem) /\
    moves env env1 (if test2 op (reg RD x env) (reg RD y env) then at_line base t else w64 (at_line base i + 4)) [].
Proof.
  intros Hop Hx Hy Hw Hpc Ht Hm.
  assert (Hr : forall n, line_name (L_br2 op x y t) = Some n -> sp_br2 n (test2 op) ∈ isa_control B ->
    exists env1, cpu_step (at_line base i) w env mem = Some (RExit env1 mem) /\
      moves env env1 (if test2 op (reg RD x env) (reg RD y env) then at_line base t else w64 (at_line base i + 4)) []).
  { intros n Hn Hin. pose proof (control_implemented B L helper disas Hdisas) as Hall. rewrite Forall_forall in Hall.
    destruct (word_step _ i _ w _ env mem (Hall _ Hin) Hn Hw Hpc Hm) as (a & Ha & (H1 & H2 & H3) & Hs).
    eexists. split; [by apply Hs|]. cbn [sp_sem sp_br2]. unfold spec_br2.
    rewrite H1, H2, H3, !reg_prologue by (unfold in_file in *; lia). rewrite branch_target by done.
    replace (jmp_pc (set_jmp_pc _ _)) with (if test2 op (reg RD x env) (reg RD y env) then at_line base t else w64 (at_line base i + 4))
      by (by destruct env). apply moves_jump, Hm. }
  rewrite !elem_of_cons, elem_of_nil in Hop. destruct Hop as [->|[->|[]]]; [apply (Hr "BREQ")|apply (Hr "BRNE")]; try done;
    unfold isa_control; repeat (apply elem_of_cons; first [left; reflexivity|right]).
Qed.

(** Load-reserved and store-conditional. *)
Lemma order_name {A} (f : string -> A) (P : A -> Prop) o n :
  assoc o orders = Some n -> P (f "NN") -> P (f "NR") -> P (f "AN") -> P (f "AR") -> P (f n).
Proof.
  intros Ho%assoc_elem. unfold orders in Ho. rewrite !elem_of_cons, elem_of_nil in Ho.
  destruct Ho as [[= -> ->]|[[= -> ->]|[[= -> ->]|[[= -> ->]|[]]]]]; auto.
Qed.
Lemma lro_line i o d p w pc env mem : in_file d -> in_file p ->
  line_word i (L_lro o d p) w -> 0 <= pc < 2^64 -> machine_ok env ->
  exists r, cpu_step pc w env mem = Some r /\
    match b_ld B MO_TEUQ (reg RB p env) mem with
    | None => forall e m, r <> RExit e m
    | Some v => exists env1, r = RExit env1 mem /\ REG_PC env1 = w64 (pc + 4) /\
        load_res env1 = reg RB p env /\ load_val env1 = v /\ reg RD d env1 = v /\
        (forall g j, j <> 0 -> (g = RD -> j <> d) -> reg g j env1 = reg g j env)
    end.
Proof.
  intros Hd Hp Hw Hpc Hm. pose proof (system_implemented B L helper disas Hdisas) as Hall. rewrite Forall_forall in Hall.
  destruct (line_name (L_lro o d p)) as [n|] eqn:Hn; [|by destruct Hw as (? & ? & ? & _); congruence].
  assert (Hin : exists n0, sp_lro B n ∈ isa_system B /\ n0 = n).
  { exists n. split; [|done]. unfold line_name in Hn. destruct (assoc o orders) as [k|] eqn:Ho; [|done]. injection Hn as <-.
    apply (order_name (fun k => "LRO_" ++ k) (fun n => sp_lro B n ∈ isa_system B) o k Ho); unfold isa_system;
      repeat (apply elem_of_cons; first [left; reflexivity|right]). }
  destruct Hin as (_ & Hin & _).
  destruct (word_step _ i _ w pc env mem (Hall _ Hin) Hn Hw Hpc Hm) as (a & Ha & (H1 & H2 & H3) & Hs).
  eexists. split; [by apply Hs|]. cbn [sp_sem sp_lro]. unfold in_file in *.
  rewrite H1, H2, H3, (proj2 (Z.eqb_neq p 0)), (proj2 (Z.eqb_neq d 0)) by lia. cbn [Z.eqb orb negb].
  unfold spec_lro. rewrite H2, H3, reg_prologue by lia. pose proof (wf_prologue _ (ok_wf _ Hm)) as Hwp.
  destruct (b_ld B MO_TEUQ (reg RB p env) mem) as [v|]; [|by intros]. cbn [next_insn]. eexists. split; [done|].
  set (E := set_load_res _ (set_load_val v (prologue env))). assert (HE : wf_env E) by (subst E; by destruct env).
  split; [unfold REG_PC, set_PC; apply reg_set_reg_eq; [eauto with cpu|lia]|].
  split; [by destruct env|]. split; [by destruct env|]. split.
  - unfold set_PC. rewrite reg_set_reg_ne by (by left). apply reg_set_reg_eq; [done|lia].
  - intros g j Hj Hg. unfold set_PC. rewrite reg_set_reg_ne by (by right). rewrite reg_set_reg_ne.
    + rewrite <- (reg_prologue g j env Hj). subst E. by destruct env, g.
    + destruct (decide (g = RD)) as [-> |]; [|by left]. right. intros ->. by apply Hg.
Qed.
Hypothesis Hcas : cas_law B.
Lemma sco_line i o d x p w pc env mem : in_file d -> in_file x -> in_file p ->
  line_word i (L_sco o d x p) w -> 0 <= pc < 2^64 -> machine_ok env -> load_res env = reg RB p env ->
  exists r, cpu_step pc w env mem = Some r /\
    match b_ld B MO_TEUQ (reg RB p env) mem with
    | None => forall e m, r <> RExit e m
    | Some old =>
        match (if old =? load_val env then b_st B MO_TEUQ (reg RB p env) (reg RD x env) mem else Some mem) with
        | None => forall e m, r <> RExit e m
        | Some mem1 => exists env1, r = RExit env1 mem1 /\ REG_PC env1 = w64 (pc + 4) /\
            reg RD d env1 = b2z (negb (old =? load_val env)) /\
            (forall g j, j <> 0 -> (g = RD -> j <> d) -> reg g j env1 = reg g j env)
        end
    end.
Proof.
  intros Hd Hx Hp Hw Hpc Hm Hres. pose proof (system_implemented B L helper disas Hdisas) as Hall. rewrite Forall_forall in Hall.
  destruct (line_name (L_sco o d x p)) as [n|] eqn:Hn; [|by destruct Hw as (? & ? & ? & _); congruence].
  assert (Hin : sp_sco B n ∈ isa_system B).
  { unfold line_name in Hn. destruct (assoc o orders) as [k|] eqn:Ho; [|done]. injection Hn as <-.
    apply (order_name (fun k => "SCO_" ++ k) (fun n => sp_sco B n ∈ isa_system B) o k Ho); unfold isa_system;
      repeat (apply elem_of_cons; first [left; reflexivity|right]). }
  destruct (word_step _ i _ w pc env mem (Hall _ Hin) Hn Hw Hpc Hm) as (a & Ha & (H1 & H2 & H3) & Hs).
  eexists. split; [by apply Hs|]. cbn [sp_sem sp_sco]. unfold in_file in *.
  rewrite H1, H3, (proj2 (Z.eqb_neq p 0)), (proj2 (Z.eqb_neq d 0)) by lia. cbn [orb].
  unfold spec_sco. rewrite H1, H2, H3, !reg_prologue by lia. destruct (load_prologue env) as [-> ->].
  rewrite Hres, Z.eqb_refl, Hcas. cbn [negb]. pose proof (wf_prologue _ (ok_wf _ Hm)) as Hwp.
  destruct (b_ld B MO_TEUQ (reg RB p env) mem) as [old|]; [|by intros]. cbn [mbind option_bind].
  assert (Hdone : forall v (m : M), exists env1, next_insn pc (RFall (set_load_res (w64 (-1)) (set_reg RD d v (prologue env))) m) = RExit env1 m /\
    REG_PC env1 = w64 (pc + 4) /\ reg RD d env1 = v /\
    (forall g j, j <> 0 -> (g = RD -> j <> d) -> reg g j env1 = reg g j env)).
  { intros v m. eexists. split; [done|]. split; [unfold REG_PC, set_PC; apply reg_set_reg_eq; [apply wf_set_load_res; eauto with cpu|lia]|]. split.
    - unfold set_PC. rewrite reg_set_reg_ne, reg_set_load_res by (by left). apply reg_set_reg_eq; [done|lia].
    - intros g j Hj Hg. unfold set_PC. rewrite reg_set_reg_ne by (by right). rewrite reg_set_load_res, <- (reg_prologue g j env Hj). apply reg_set_reg_ne.
      destruct (decide (g = RD)) as [-> |]; [|by left]. right. intros ->. by apply Hg. }
  destruct (old =? load_val env) eqn:E; [|rewrite ?E; apply Hdone].
  destruct (b_st B MO_TEUQ (reg RB p env) (reg RD x env) mem) as [m'|]; [|by intros]. cbn [mbind option_bind]. rewrite E. apply Hdone.
Qed.
End Lines.

(** ** The loop

    Every function loads, may leave, may compute, stores and tries again. *)
Inductive phase :=
| Start | Check (v : Z) | Compute (v : Z) | Made (v : Z) | Missed | Stored (v : Z) (k : nat) | Stopped (v : Z).
Section Loop.
Context {M : Type} (B : backend M) (L : tcg_laws B) (Hcas : cas_law B).
Variable helper : string -> CPUDADAOState -> list Z -> Z * CPUDADAOState.
Hypothesis V : values_64 B helper.
Variable disas : Z -> gen bool.
Hypothesis Hdisas : decodetree_laws disas.
Variable goto_tb : Z -> bool.
Abbreviation cpu_step := (step B helper disas goto_tb).

Variables (acq rel : string) (res tmp x ptr : Z) (exit op : option asm_line) (fence : bool).
Definition shape : list asm_line :=
  (L_lro acq res ptr :: option_list exit ++ option_list op ++ [L_sco rel tmp x ptr; L_br1 "brnz" tmp 0]
   ++ if fence then [L_fence] else [])%list.
Variables (scratch : list Z) (stop : Z -> bool) (new out : Z -> Z) (base : Z) (ws : list Z) (env0 : CPUDADAOState).
Hypothesis Hregs : in_file res /\ in_file tmp /\ in_file x /\ in_file ptr.
Hypothesis Hscratch : res <> tmp /\ res ∈ scratch /\ tmp ∈ scratch.
Hypothesis Hwords : assembled shape ws.
Hypothesis Hbase : 0 <= base /\ base + 4 * Z.of_nat (length shape) < 2^64.
Definition same (env : CPUDADAOState) : Prop :=
  forall g j, j <> 0 -> (g = RD -> j ∉ scratch) -> reg g j env = reg g j env0.
Definition addr : Z := reg RB ptr env0.
Definition stop_line : nat := length shape.

Definition exit_ok : Prop :=
  match exit with
  | None => forall v, stop v = false
  | Some l => forall w env mem, line_word 1 l w -> machine_ok env -> same env ->
      exists env1, cpu_step (at_line base 1) w env mem = Some (RExit env1 mem) /\
        moves env env1 (if stop (reg RD res env) then at_line base stop_line else w64 (at_line base 1 + 4)) []
  end.
Definition op_ok : Prop :=
  match op with
  | None => forall v env, same env -> reg RD x env = new v /\ out v = v
  | Some l => x ∈ scratch /\ (forall v, out v = if x =? res then new v else v) /\
      forall i w env mem, line_word i l w -> 0 <= at_line base i < 2^64 -> machine_ok env -> same env ->
      exists env1, cpu_step (at_line base i) w env mem = Some (RExit env1 mem) /\
        moves env env1 (w64 (at_line base i + 4)) [x] /\ reg RD x env1 = new (reg RD res env)
  end.
Hypothesis Hexit : exit_ok.
Hypothesis Hop : op_ok.

Definition n_exit : nat := length (option_list exit).
Definition n_op : nat := length (option_list op).
Definition pos (ph : phase) : nat :=
  match ph with
  | Start => 0 | Check _ => 1 | Compute _ => 1 + n_exit | Made _ => 1 + n_exit + n_op
  | Missed => 2 + n_exit + n_op | Stored _ k => 2 + n_exit + n_op + k | Stopped _ => stop_line
  end.
Definition held (env : CPUDADAOState) (v : Z) : Prop := load_res env = addr /\ load_val env = v.
Definition facts (env : CPUDADAOState) (ph : phase) : Prop :=
  match ph with
  | Start => True
  | Check v => exit <> None /\ held env v /\ reg RD res env = v
  | Compute v => op <> None /\ held env v /\ reg RD res env = v /\ stop v = false
  | Made v => held env v /\ stop v = false /\ reg RD x env = new v /\ reg RD res env = out v
  | Missed => reg RD tmp env <> 0
  | Stored v k => (k <= if fence then 2 else 1)%nat /\ (k = 0%nat -> reg RD tmp env = 0) /\ reg RD res env = out v /\ stop v = false
  | Stopped v => stop v = true /\ reg RD res env = v
  end.
Definition inv (env : CPUDADAOState) (ph : phase) : Prop :=
  machine_ok env /\ same env /\ REG_PC env = at_line base (pos ph) /\ facts env ph.
Definition after_check (v : Z) : phase := if op then Compute v else Made v.
Definition after_load (v : Z) : phase := if exit then Check v else after_check v.
Inductive change (mem mem1 : M) : phase -> phase -> Prop :=
| c_load v : b_ld B MO_TEUQ addr mem = Some v -> mem1 = mem -> change mem mem1 Start (after_load v)
| c_check v : mem1 = mem -> change mem mem1 (Check v) (after_check v)
| c_stop v : stop v = true -> mem1 = mem -> change mem mem1 (Check v) (Stopped v)
| c_op v : mem1 = mem -> change mem mem1 (Compute v) (Made v)
| c_store v : b_ld B MO_TEUQ addr mem = Some v -> b_st B MO_TEUQ addr (new v) mem = Some mem1 ->
    change mem mem1 (Made v) (Stored v 0)
| c_miss v : b_ld B MO_TEUQ addr mem <> Some v -> mem1 = mem -> change mem mem1 (Made v) Missed
| c_retry : mem1 = mem -> change mem mem1 Missed Start
| c_done v k : mem1 = mem -> change mem mem1 (Stored v k) (Stored v (S k)).
(** A step faults only where the word cannot be read or written. *)
Definition faults (mem : M) : Prop :=
  b_ld B MO_TEUQ addr mem = None \/ exists v, b_st B MO_TEUQ addr v mem = None.

Lemma same_trans env env1 pc outs : same env -> moves env env1 pc outs -> (forall j, j ∈ outs -> j ∈ scratch) -> same env1.
Proof.
  intros Hs Hm Ho g j Hj Hg. rewrite (mv_reg _ _ _ _ Hm) by (auto; intros -> ?; by apply (Hg eq_refl), Ho).
  by apply Hs.
Qed.
Lemma same_one env env1 d : same env -> d ∈ scratch ->
  (forall g j, j <> 0 -> (g = RD -> j <> d) -> reg g j env1 = reg g j env) -> same env1.
Proof. intros Hs Hd Hm g j Hj Hg. rewrite Hm by (auto; intros -> ->; by apply Hg). by apply Hs. Qed.
Lemma next_line i : (i < stop_line)%nat -> w64 (at_line base i + 4) = at_line base (S i) /\ 0 <= at_line base i < 2^64.
Proof. unfold at_line, stop_line. intros Hi. split; [|lia]. rewrite w64_id; lia. Qed.
Definition step_of (env : CPUDADAOState) (mem : M) (ph : phase) : Prop :=
  exists w r, ws !! pos ph = Some w /\ cpu_step (at_line base (pos ph)) w env mem = Some r /\
    (forall env1 mem1, r = RExit env1 mem1 -> exists ph', inv env1 ph' /\ change mem mem1 ph ph') /\
    ((forall env1 mem1, r <> RExit env1 mem1) -> faults mem).
Lemma step_machine pc w env mem env1 mem1 : machine_ok env -> cpu_step pc w env mem = Some (RExit env1 mem1) -> machine_ok env1.
Proof. intros Hm Hs. exact (step_ok B helper V disas goto_tb pc w env mem _ Hm Hs). Qed.
(** A line that goes on to one phase without touching the memory. *)
Lemma step_of_one env mem ph l env1 ph' :
  shape !! pos ph = Some l -> machine_ok env ->
  (forall w, line_word (pos ph) l w -> cpu_step (at_line base (pos ph)) w env mem = Some (RExit env1 mem)) ->
  (machine_ok env1 -> inv env1 ph') -> change mem mem ph ph' -> step_of env mem ph.
Proof.
  intros Hl Hm Hs Hi Hc. destruct (proj2 Hwords _ _ Hl) as (w & Hw & Hlw). exists w, (RExit env1 mem).
  split; [done|]. split; [by apply Hs|]. split; [|intros H1; by destruct (H1 env1 mem)].
  intros e m [= <- <-]. exists ph'. split; [|done]. apply Hi. by apply (step_machine _ _ _ _ _ _ Hm (Hs w Hlw)).
Qed.
Lemma x_register env v : op = None -> same env -> reg RD x env = new v /\ out v = v.
Proof. intros Ho. pose proof Hop as H1. unfold op_ok in H1. rewrite Ho in H1. apply H1. Qed.
Lemma made_ready env v : op = None -> same env -> held env v -> stop v = false -> reg RD res env = v -> facts env (Made v).
Proof.
  intros Ho Hs Hh Hst Hr. destruct (x_register env v Ho Hs) as [Hx Hout].
  split; [done|]. split; [done|]. split; [done|]. by rewrite Hout.
Qed.
Lemma after_check_facts env v : same env -> held env v -> stop v = false -> reg RD res env = v -> facts env (after_check v).
Proof.
  intros Hs Hh Hst Hr. unfold after_check. destruct op as [l|] eqn:Ho; [|by apply made_ready].
  destruct Hh. cbn [facts]. split_and!; done || congruence.
Qed.
Lemma after_check_pos v : pos (after_check v) = (1 + n_exit)%nat.
Proof. unfold after_check. destruct op eqn:E; cbn [pos]; [done|]. unfold n_op. rewrite E. cbn. lia. Qed.
Lemma shape_tail k : shape !! S k = (option_list exit ++ option_list op ++ [L_sco rel tmp x ptr; L_br1 "brnz" tmp 0]
   ++ if fence then [L_fence] else [])%list !! k.
Proof. done. Qed.
Lemma shape_end k : shape !! (1 + n_exit + n_op + k)%nat
  = ([L_sco rel tmp x ptr; L_br1 "brnz" tmp 0] ++ if fence then [L_fence] else [])%list !! k.
Proof.
  unfold n_exit, n_op. cbn [Nat.add]. rewrite shape_tail. rewrite lookup_app_r by lia. rewrite lookup_app_r by lia.
  f_equal. lia.
Qed.
Lemma step_start env mem : inv env Start -> step_of env mem Start.
Proof.
  intros (Hm & Hs & Hpc & _). destruct Hregs as (H1 & H2 & H3 & H4), Hscratch as (S1 & S2 & S3).
  destruct (proj2 Hwords 0%nat (L_lro acq res ptr) eq_refl) as (w & Hw & Hlw).
  destruct (next_line 0) as [Hn Hb]; [unfold stop_line, shape; cbn [length]; lia|].
  destruct (lro_line B L helper disas Hdisas goto_tb 0 acq res ptr w _ env mem H1 H4 Hlw Hb Hm) as (r & Hr & Hcase).
  assert (Ha : reg RB ptr env = addr) by (apply Hs; [unfold in_file in *; lia|done]). rewrite Ha in Hcase.
  exists w, r. split; [done|]. split; [done|]. destruct (b_ld B MO_TEUQ addr mem) as [v|] eqn:E; [|split; [|by left]].
  2: { intros e m ->. by destruct (Hcase e m). }
  destruct Hcase as (env1 & -> & Hpc1 & Hlr & Hlv & Hv & Ho). split; [|intros Hno; by destruct (Hno env1 mem)].
  intros e m [= <- <-]. exists (after_load v). split; [|by constructor].
  assert (Hs1 : same env1) by (by apply (same_one env _ res)). split; [by eapply step_machine|]. split; [done|].
  rewrite Hpc1, Hn. unfold after_load. destruct exit as [l|] eqn:Ee.
  { split; [done|]. cbn [facts]. split_and!; done || congruence. }
  split.
  - rewrite after_check_pos. unfold n_exit. by rewrite Ee.
  - apply after_check_facts; try done. pose proof Hexit as He. unfold exit_ok in He. rewrite Ee in He. apply He.
Qed.
Lemma step_check env mem v : inv env (Check v) -> step_of env mem (Check v).
Proof.
  intros (Hm & Hs & Hpc & He & Hh & Hv). destruct Hregs as (R1 & R2 & R3 & R4). pose proof Hexit as Hx. unfold exit_ok in Hx.
  destruct exit as [l|] eqn:Ee; [|done].
  assert (Hl : shape !! 1%nat = Some l) by (unfold shape; by rewrite Ee).
  destruct (proj2 Hwords _ _ Hl) as (w & Hw & Hlw).
  destruct (Hx w env mem Hlw Hm Hs) as (env1 & Hr & Hmv). rewrite Hv in Hmv.
  assert (Hs1 : same env1) by (apply (same_trans env env1 _ [] Hs Hmv); intros j Hj; by apply elem_of_nil in Hj).
  assert (Hv1 : reg RD res env1 = v).
  { rewrite (mv_reg _ _ _ _ Hmv); [done| |]; [unfold in_file in *; lia|intros _; apply not_elem_of_nil]. }
  exists w, (RExit env1 mem). split; [done|]. split; [done|]. split; [|intros Hno; by destruct (Hno env1 mem)].
  intros e m [= <- <-]. pose proof (step_machine _ _ _ _ _ _ Hm Hr) as Hm1. destruct (stop v) eqn:Est.
  - exists (Stopped v). split; [|by constructor]. split; [done|]. split; [done|]. split; [apply Hmv|done].
  - exists (after_check v). split; [|by constructor]. split; [done|]. split; [done|].
    destruct Hh as [Hlr Hlv]. split; [|apply after_check_facts; try done].
    + rewrite (mv_pc _ _ _ _ Hmv), after_check_pos. unfold n_exit. rewrite Ee. cbn [option_list length Nat.add].
      apply next_line. unfold stop_line, shape. rewrite Ee. cbn [option_list app length]. rewrite ?length_app. cbn [length]. lia.
    + split; [by rewrite (mv_res _ _ _ _ Hmv)|by rewrite (mv_val _ _ _ _ Hmv)].
Qed.
Lemma step_compute env mem v : inv env (Compute v) -> step_of env mem (Compute v).
Proof.
  intros (Hm & Hs & Hpc & Ho & [Hlr Hlv] & Hv & Hst). destruct Hregs as (R1 & R2 & R3 & R4). pose proof Hop as Hx. unfold op_ok in Hx.
  destruct op as [l|] eqn:Eo; [|done]. destruct Hx as (Hsc & Hout & Hx).
  assert (Hl : shape !! pos (Compute v) = Some l).
  { cbn [pos Nat.add]. rewrite shape_tail. unfold n_exit. rewrite lookup_app_r by done. by rewrite Nat.sub_diag, Eo. }
  assert (Hlen : (pos (Compute v) < stop_line)%nat) by (by eapply lookup_lt_Some).
  destruct (next_line _ Hlen) as [Hn Hb]. destruct (proj2 Hwords _ _ Hl) as (w & Hw & Hlw).
  destruct (Hx _ w env mem Hlw Hb Hm Hs) as (env1 & Hr & Hmv & Hnew). rewrite Hv in Hnew.
  exists w, (RExit env1 mem). split; [done|]. split; [done|]. split; [|intros Hno; by destruct (Hno env1 mem)].
  intros e m [= <- <-]. exists (Made v). split; [|by constructor]. split; [by apply (step_machine _ _ _ _ _ _ Hm Hr)|]. split.
  { apply (same_trans env env1 _ [x] Hs Hmv). by intros j ->%list_elem_of_singleton. }
  rewrite (mv_pc _ _ _ _ Hmv), Hn. split; [f_equal; cbn [pos]; unfold n_op; rewrite Eo; cbn; lia|].
  split; [split; [by rewrite (mv_res _ _ _ _ Hmv)|by rewrite (mv_val _ _ _ _ Hmv)]|]. split; [done|]. split; [done|].
  rewrite Hout. destruct (Z.eqb_spec x res) as [<- |Hne]; [done|]. rewrite (mv_reg _ _ _ _ Hmv); [done| |].
  - unfold in_file in *. lia.
  - intros _ ->%list_elem_of_singleton. done.
Qed.
Lemma stop_line_eq : stop_line = (3 + n_exit + n_op + if fence then 1 else 0)%nat.
Proof. unfold stop_line, shape, n_exit, n_op. cbn [length]. rewrite !length_app. destruct fence; cbn [length]; lia. Qed.
Lemma addr_same env : same env -> reg RB ptr env = addr.
Proof. intros Hs. destruct Hregs as (R1 & R2 & R3 & R4). apply Hs; [unfold in_file in *; lia|done]. Qed.
Lemma step_made env mem v : inv env (Made v) -> step_of env mem (Made v).
Proof.
  intros (Hm & Hs & Hpc & [Hlr Hlv] & Hst & Hnew & Hout).
  destruct Hregs as (R1 & R2 & R3 & R4), Hscratch as (S1 & S2 & S3). pose proof stop_line_eq as Hsl.
  assert (Hl : shape !! pos (Made v) = Some (L_sco rel tmp x ptr)).
  { pose proof (shape_end 0) as E. rewrite Nat.add_0_r in E. exact E. }
  destruct (next_line (pos (Made v))) as [Hn Hb]; [cbn [pos]; lia|]. destruct (proj2 Hwords _ _ Hl) as (w & Hw & Hlw).
  pose proof (addr_same env Hs) as Ha.
  destruct (sco_line B L helper disas Hdisas goto_tb Hcas _ rel tmp x ptr w _ env mem R2 R3 R4 Hlw Hb Hm) as (r & Hr & Hcase);
    [congruence|]. rewrite Ha, Hlv, Hnew in Hcase. exists w, r. split; [done|]. split; [done|].
  destruct (b_ld B MO_TEUQ addr mem) as [old|] eqn:E; [|split; [intros e m ->; by destruct (Hcase e m)|by left]].
  assert (Hnext : forall env1 d, (forall g j, j <> 0 -> (g = RD -> j <> tmp) -> reg g j env1 = reg g j env) ->
    REG_PC env1 = w64 (at_line base (pos (Made v)) + 4) -> d = REG_PC env1 ->
    same env1 /\ d = at_line base (2 + n_exit + n_op) /\ reg RD res env1 = out v).
  { intros env1 d Ho H1 ->. split; [by apply (same_one env _ tmp)|]. split; [rewrite H1, Hn; f_equal; cbn [pos]; lia|].
    rewrite Ho; [done|unfold in_file in *; lia|done]. }
  destruct (Z.eqb_spec old v) as [-> |Hne].
  - destruct (b_st B MO_TEUQ addr (new v) mem) as [mem'|] eqn:Est.
    2: { split; [intros e m ->; by destruct (Hcase e m)|]. intros _. right. by exists (new v). }
    destruct Hcase as (env1 & -> & Hpc1 & Htmp & Ho). split; [|intros Hno; by destruct (Hno env1 mem')].
    intros e m [= <- <-]. destruct (Hnext env1 _ Ho Hpc1 eq_refl) as (N1 & N2 & N3). exists (Stored v 0).
    split; [|by constructor]. split; [by eapply step_machine|]. split; [done|]. split; [rewrite N2; f_equal; cbn [pos]; lia|].
    split; [destruct fence; lia|]. by split.
  - destruct Hcase as (env1 & -> & Hpc1 & Htmp & Ho). split; [|intros Hno; by destruct (Hno env1 mem)].
    intros e m [= <- <-]. destruct (Hnext env1 _ Ho Hpc1 eq_refl) as (N1 & N2 & N3). exists Missed.
    split; [|constructor; [congruence|done]]. split; [by eapply step_machine|]. split; [done|]. split; [done|].
    cbn [facts]. by rewrite Htmp.
Qed.
Lemma retry_line ph env mem : pos ph = (2 + n_exit + n_op)%nat -> machine_ok env -> same env ->
  exists w env1, ws !! pos ph = Some w /\ cpu_step (at_line base (pos ph)) w env mem = Some (RExit env1 mem) /\
    machine_ok env1 /\ same env1 /\ reg RD res env1 = reg RD res env /\
    REG_PC env1 = at_line base (if reg RD tmp env =? 0 then 3 + n_exit + n_op else 0).
Proof.
  intros Hp Hm Hs. destruct Hregs as (R1 & R2 & R3 & R4). pose proof stop_line_eq as Hsl. rewrite Hp.
  assert (Hl : shape !! (2 + n_exit + n_op)%nat = Some (L_br1 "brnz" tmp 0)).
  { transitivity (shape !! (1 + n_exit + n_op + 1)%nat); [f_equal; lia|exact (shape_end 1)]. }
  destruct (next_line (2 + n_exit + n_op)%nat) as [Hn Hb]; [lia|]. destruct (next_line 0) as [_ Hb0]; [lia|].
  destruct (proj2 Hwords _ _ Hl) as (w & Hw & Hlw).
  destruct (br1_line B L helper disas Hdisas goto_tb base (2 + n_exit + n_op)%nat tmp 0 w env mem) as (env1 & Hr & Hmv); try done.
  exists w, env1. split; [done|]. split; [done|]. split; [by eapply step_machine|].
  split; [apply (same_trans env env1 _ [] Hs Hmv); intros j Hj; by apply elem_of_nil in Hj|].
  split; [apply (mv_reg _ _ _ _ Hmv); [unfold in_file in *; lia|intros _; apply not_elem_of_nil]|].
  rewrite (mv_pc _ _ _ _ Hmv). destruct (reg RD tmp env =? 0); cbn [negb]; [|done].
  rewrite Hn. f_equal.
Qed.
Lemma step_missed env mem : inv env Missed -> step_of env mem Missed.
Proof.
  intros (Hm & Hs & Hpc & Ht). destruct (retry_line Missed env mem eq_refl Hm Hs) as (w & env1 & Hw & Hr & Hm1 & Hs1 & _ & Hpc1).
  exists w, (RExit env1 mem). split; [done|]. split; [done|]. split; [|intros Hno; by destruct (Hno env1 mem)].
  intros e m [= <- <-]. exists Start. split; [|by constructor]. split; [done|]. split; [done|]. split; [|done].
  by rewrite Hpc1, (proj2 (Z.eqb_neq _ _) Ht).
Qed.
Lemma step_stored env mem v k : inv env (Stored v k) -> (pos (Stored v k) < stop_line)%nat -> step_of env mem (Stored v k).
Proof.
  intros (Hm & Hs & Hpc & Hk & Ht & Hv & Hst) Hlt. rewrite stop_line_eq in Hlt. cbn [pos] in Hlt. pose proof stop_line_eq as Hsl.
  destruct k as [|k].
  - destruct (retry_line (Stored v 0) env mem (Nat.add_0_r _) Hm Hs) as (w & env1 & Hw & Hr & Hm1 & Hs1 & Hres & Hpc1).
    exists w, (RExit env1 mem). split; [done|]. split; [done|]. split; [|intros Hno; by destruct (Hno env1 mem)].
    intros e m [= <- <-]. exists (Stored v 1). split; [|by constructor]. split; [done|]. split; [done|].
    split; [rewrite Hpc1, Ht by done; f_equal; cbn [pos Z.eqb]; lia|]. split; [destruct fence; lia|].
    split; [done|]. split; [by rewrite Hres|done].
  - destruct fence eqn:Ef; [|lia]. assert (k = 0%nat) as -> by lia.
    assert (Hl : shape !! pos (Stored v 1) = Some L_fence).
    { pose proof (shape_end 2) as E. rewrite Ef in E. transitivity (shape !! (1 + n_exit + n_op + 2)%nat); [f_equal; cbn [pos]; lia|exact E]. }
    destruct (next_line (pos (Stored v 1))) as [Hn Hb]; [cbn [pos]; lia|]. destruct (proj2 Hwords _ _ Hl) as (w & Hw & Hlw).
    destruct (fence_line B L helper disas Hdisas goto_tb _ w _ env mem Hlw Hb Hm) as (env1 & Hr & Hmv).
    exists w, (RExit env1 mem). split; [done|]. split; [done|]. split; [|intros Hno; by destruct (Hno env1 mem)].
    intros e m [= <- <-]. exists (Stored v 2). split; [|by constructor]. split; [by eapply step_machine|].
    split; [apply (same_trans env env1 _ [] Hs Hmv); intros j Hj; by apply elem_of_nil in Hj|].
    split; [rewrite (mv_pc _ _ _ _ Hmv), Hn; f_equal; cbn [pos]; lia|]. split; [rewrite Ef; lia|]. split; [done|]. split; [|done].
    rewrite (mv_reg _ _ _ _ Hmv); [done| |intros _; apply not_elem_of_nil]. destruct Hregs as (R1 & _). unfold in_file in R1. lia.
Qed.
Lemma phase_step env mem ph : inv env ph -> (pos ph < stop_line)%nat -> step_of env mem ph.
Proof.
  intros Hi Hlt. destruct ph as [|v|v|v| |v k|v].
  - by apply step_start.
  - by apply step_check.
  - by apply step_compute.
  - by apply step_made.
  - by apply step_missed.
  - by apply step_stored.
  - cbn [pos] in Hlt. lia.
Qed.

(** *** Runs *)
Abbreviation run := (runs_atomic B helper disas goto_tb base ws).
Definition updated (tr : list (M * M)) (env' : CPUDADAOState) : Prop :=
  exists tr1 m m1 tr2 v, tr = (tr1 ++ (m, m1) :: tr2)%list /\ quiet tr1 /\ quiet tr2 /\
    b_ld B MO_TEUQ addr m = Some v /\ stop v = false /\ b_st B MO_TEUQ addr (new v) m = Some m1 /\
    reg RD res env' = out v.
Definition left_alone (tr : list (M * M)) (env' : CPUDADAOState) : Prop :=
  quiet tr /\ exists m v, (m, m) ∈ tr /\ b_ld B MO_TEUQ addr m = Some v /\ stop v = true /\ reg RD res env' = v.
Definition outcome_from (ph : phase) (tr : list (M * M)) (env' : CPUDADAOState) : Prop :=
  match ph with
  | Stored v _ => quiet tr /\ reg RD res env' = out v /\ stop v = false
  | Stopped v => quiet tr /\ stop v = true /\ reg RD res env' = v
  | Start | Missed => updated tr env' \/ left_alone tr env'
  | Check v | Compute v | Made v =>
      updated tr env' \/ left_alone tr env' \/ (quiet tr /\ stop v = true /\ reg RD res env' = v)
  end.
Lemma pos_bound env ph : inv env ph -> (pos ph <= stop_line)%nat.
Proof.
  intros (_ & _ & _ & Hf). rewrite stop_line_eq. destruct ph; cbn [pos facts] in *; try lia.
  - destruct Hf as [Hk _]. destruct fence; lia.
  - rewrite stop_line_eq. lia.
Qed.
Lemma at_line_inj i j : (i <= stop_line)%nat -> (j <= stop_line)%nat -> at_line base i = at_line base j -> i = j.
Proof. unfold at_line. lia. Qed.
Lemma step_from env mem ph i w env1 mem1 : inv env ph -> REG_PC env = at_line base i -> ws !! i = Some w ->
  cpu_step (at_line base i) w env mem = Some (RExit env1 mem1) ->
  exists ph', inv env1 ph' /\ change mem mem1 ph ph' /\ (pos ph < stop_line)%nat.
Proof.
  intros Hi Hpc Hw Hst. pose proof (pos_bound _ _ Hi) as Hb. pose proof Hi as (_ & _ & Hpc' & _).
  pose proof (lookup_lt_Some _ _ _ Hw) as Hlt. rewrite (proj1 Hwords) in Hlt. fold stop_line in Hlt.
  assert (i = pos ph) as -> by (apply at_line_inj; [lia|lia|congruence]).
  destruct (phase_step env mem ph Hi Hlt) as (w' & r & Hw' & Hr & Hgo & _).
  rewrite Hw in Hw'. injection Hw' as <-. rewrite Hst in Hr. injection Hr as <-.
  destruct (Hgo env1 mem1 eq_refl) as (ph' & ? & ?). by exists ph'.
Qed.
Lemma run_inv env mem tr env' mem' : run env mem tr env' mem' -> forall ph, inv env ph -> exists ph', inv env' ph'.
Proof.
  induction 1 as [|i w env mem env1 mem1 mem2 tr env' mem' Hpc Hw Hst Hrun IH]; intros ph Hi; [by exists ph|].
  destruct (step_from _ _ _ _ _ _ _ Hi Hpc Hw Hst) as (ph' & Hi' & _). by apply (IH ph').
Qed.
Lemma updated_cons m tr env' : updated tr env' -> updated ((m, m) :: tr) env'.
Proof.
  intros (tr1 & a & b & tr2 & v & -> & H1 & H2 & H3). exists ((m, m) :: tr1), a, b, tr2, v. split; [done|].
  split; [by constructor|]. by split.
Qed.
Lemma left_cons m tr env' : left_alone tr env' -> left_alone ((m, m) :: tr) env'.
Proof.
  intros (Hq & a & v & Hin & H1). split; [by constructor|]. exists a, v. split; [by right|done].
Qed.
Lemma outcome_step ph ph' mem mem1 tr env' : change mem mem1 ph ph' -> outcome_from ph' tr env' ->
  outcome_from ph ((mem, mem1) :: tr) env'.
Proof.
  assert (Hq : quiet tr -> quiet ((mem, mem) :: tr)) by (by constructor).
  assert (Hrest : forall v, outcome_from (Made v) tr env' -> outcome_from (Made v) ((mem, mem) :: tr) env').
  { cbn. intros v [H1|[H1|H1]]; [left; by apply updated_cons|right; left; by apply left_cons|right; right].
    destruct H1 as (? & ?). split; [by apply Hq|done]. }
  intros Hc Ho. destruct Hc as [v Hld ->|v ->|v Hst ->|v ->|v Hld Hst|v Hld ->| ->|v k ->].
  - assert (H1 : outcome_from (Made v) tr env').
    { unfold after_load, after_check in Ho. destruct exit; [done|]. by destruct op. }
    cbn in H1 |- *. destruct H1 as [H1|[H1|(H1 & H2 & H3)]]; [left; by apply updated_cons|right; by apply left_cons|].
    right. split; [by apply Hq|]. exists mem, v. split; [left|done].
  - apply (Hrest v). unfold after_check in Ho. by destruct op.
  - cbn in Ho |- *. right. right. destruct Ho as (? & ?). split; [by apply Hq|done].
  - by apply (Hrest v).
  - cbn in Ho |- *. destruct Ho as (? & ? & ?). left. exists [], mem, mem1, tr, v. split; [done|]. split; [constructor|]. done.
  - cbn in Ho |- *. destruct Ho as [H1|H1]; [left; by apply updated_cons|right; left; by apply left_cons].
  - cbn in Ho |- *. destruct Ho as [H1|H1]; [left; by apply updated_cons|right; by apply left_cons].
  - cbn in Ho |- *. destruct Ho as (? & ?). split; [by apply Hq|done].
Qed.
Lemma run_outcome env mem tr env' mem' : run env mem tr env' mem' -> at_end base ws env' ->
  forall ph, inv env ph -> outcome_from ph tr env' /\ same env'.
Proof.
  induction 1 as [env mem|i w env mem env1 mem1 mem2 tr env' mem' Hpc Hw Hst Hrun IH]; intros Hend ph Hi.
  - pose proof (pos_bound _ _ Hi) as Hb. destruct Hi as (_ & Hs & Hpc & Hf). split; [|done].
    assert (Hpos : pos ph = stop_line).
    { apply at_line_inj; [done|done|]. rewrite <- Hpc. rewrite Hend. by rewrite (proj1 Hwords). }
    pose proof stop_line_eq as Hsl. destruct ph; cbn [pos facts] in *; try lia.
    + split; [constructor|]. by destruct Hf as (_ & _ & ? & ?).
    + split; [constructor|]. done.
  - destruct (step_from _ _ _ _ _ _ _ Hi Hpc Hw Hst) as (ph' & Hi' & Hc & _).
    destruct (IH Hend ph' Hi') as [Ho Hs]. split; [by eapply outcome_step|done].
Qed.

(** *** The loop ends

    [rank] is a bound on the instructions left when nobody else writes: a
    processor that holds a value the word no longer has goes round once
    more. *)
Hypothesis Haccess : forall m, b_ld B MO_TEUQ addr m <> None /\ forall v, b_st B MO_TEUQ addr v m <> None.
Definition stale (mem : M) (ph : phase) : Prop :=
  match ph with
  | Missed => True
  | Check v | Compute v | Made v => b_ld B MO_TEUQ addr mem <> Some v
  | _ => False
  end.
Definition ranked (mem : M) (ph : phase) (n : nat) : Prop :=
  (stop_line <= n + pos ph)%nat /\ (stale mem ph -> 2 * stop_line + 1 <= n + pos ph)%nat.
Lemma n_exit_le : (n_exit <= 1)%nat.
Proof. unfold n_exit. destruct exit; cbn; lia. Qed.
Lemma n_op_le : (n_op <= 1)%nat.
Proof. unfold n_op. destruct op; cbn; lia. Qed.
Lemma after_load_pos v : (1 <= pos (after_load v))%nat.
Proof. unfold after_load, after_check. destruct exit; cbn [pos]; [lia|]. destruct op; cbn [pos]; lia. Qed.
Lemma after_load_fresh mem v : b_ld B MO_TEUQ addr mem = Some v -> ~ stale mem (after_load v).
Proof. intros Hl. unfold after_load, after_check. destruct exit, op; cbn; by intros H1. Qed.
Lemma stale_after_check mem v : stale mem (after_check v) -> stale mem (Check v).
Proof. unfold after_check. by destruct op. Qed.
Lemma change_rank env mem mem1 ph ph' n : inv env ph -> change mem mem1 ph ph' -> (pos ph < stop_line)%nat ->
  ranked mem ph (S n) -> ranked mem1 ph' n.
Proof.
  intros Hi Hc Hlt [H1 H2]. pose proof stop_line_eq as Hsl. pose proof Hi as (_ & _ & _ & Hf).
  destruct Hc as [v Hld ->|v ->|v Hst ->|v ->|v Hld Hst|v Hld ->| ->|v k ->]; unfold ranked in *.
  - pose proof (after_load_pos v). pose proof (after_load_fresh mem v Hld). cbn [pos] in H1. split; [lia|by intros ?].
  - pose proof (after_check_pos v) as Hp. rewrite Hp. cbn [pos] in H1, H2. destruct Hf as [Hf _].
    assert (n_exit = 1%nat) as -> by (unfold n_exit; by destruct exit). split; [lia|].
    intros Hs%stale_after_check. specialize (H2 Hs). lia.
  - split; [cbn [pos]; lia|done].
  - destruct Hf as [Hf _]. cbn [pos] in H1, H2 |- *. assert (n_op = 1%nat) as -> by (unfold n_op; by destruct op).
    split; [lia|]. intros Hs. specialize (H2 Hs). lia.
  - cbn [pos] in H1 |- *. split; [lia|done].
  - cbn [pos] in H1, H2 |- *. specialize (H2 Hld). split; [lia|intros _; lia].
  - cbn [pos] in H1, H2 |- *. specialize (H2 I). pose proof n_exit_le. pose proof n_op_le. split; [lia|done].
  - cbn [pos] in H1 |- *. split; [lia|done].
Qed.
Lemma loop_ends n env mem ph : inv env ph -> ranked mem ph n ->
  exists tr env' mem', run env mem tr env' mem' /\ alone mem tr mem' /\ at_end base ws env' /\ (length tr <= n)%nat.
Proof.
  revert env mem ph. induction n as [|n IH]; intros env mem ph Hi Hr.
  - exists [], env, mem. split; [constructor|]. split; [done|]. split; [|done]. pose proof (pos_bound _ _ Hi).
    destruct Hi as (_ & _ & Hpc & _), Hr as [Hr _]. unfold at_end. rewrite Hpc, (proj1 Hwords). f_equal. fold stop_line. lia.
  - destruct (decide (pos ph < stop_line)%nat) as [Hlt|Hge].
    2: { exists [], env, mem. split; [constructor|]. split; [done|]. split; [|cbn; lia]. pose proof (pos_bound _ _ Hi).
         destruct Hi as (_ & _ & Hpc & _). unfold at_end. rewrite Hpc, (proj1 Hwords). f_equal. fold stop_line. lia. }
    destruct (phase_step env mem ph Hi Hlt) as (w & r & Hw & Hst & Hgo & Hno).
    assert (Hex : exists e m, r = RExit e m).
    { destruct r as [e m| | | |]; try (by exists e, m); try (by do 2 eexists);
        destruct Hno as [Hf|[v Hf]]; try done; by destruct (Haccess mem) as [? Hs]; try (by destruct (Hs v)). }
    destruct Hex as (env1 & mem1 & ->). destruct (Hgo env1 mem1 eq_refl) as (ph' & Hi' & Hc).
    destruct (IH env1 mem1 ph' Hi' (change_rank env mem mem1 ph ph' n Hi Hc Hlt Hr)) as (tr & env' & mem' & Hrun & Hal & Hend & Hlen).
    exists ((mem, mem1) :: tr), env', mem'. split; [|split; [done|split; [done|cbn; lia]]].
    eapply run_line; [|exact Hw|exact Hst|exact Hrun]. by destruct Hi as (_ & _ & ? & _).
Qed.
End Loop.

(** ** The functions *)
Section Functions.
Context {M : Type} (B : backend M) (L : tcg_laws B) (Hcas : cas_law B).
Variable helper : string -> CPUDADAOState -> list Z -> Z * CPUDADAOState.
Hypothesis V : values_64 B helper.
Variable disas : Z -> gen bool.
Hypothesis Hdisas : decodetree_laws disas.
Variable goto_tb : Z -> bool.
Variables (base : Z) (env : CPUDADAOState).
Let inputs i := reg RD i env.

(** A function is a loop of this shape. *)
Definition is_loop (code : list asm_line) (s : rmw) : Prop :=
  exists acq rel tmp x exit op fence,
    code = shape acq rel (s_res s) tmp x (s_ptr s) exit op fence /\
    (in_file (s_res s) /\ in_file tmp /\ in_file x /\ in_file (s_ptr s)) /\
    (s_res s <> tmp /\ s_res s ∈ s_scratch s /\ tmp ∈ s_scratch s) /\
    exit_ok B helper disas goto_tb acq rel (s_res s) tmp x (s_ptr s) exit op fence (s_scratch s) (s_stop s inputs) base env /\
    op_ok B helper disas goto_tb (s_res s) x op (s_scratch s) (s_new s inputs) (s_out s inputs) base env.

Lemma add_op_ok op res x a scratch : op ∈ ["add"; "sub"] -> in_file x -> in_file res -> in_file a ->
  a ∉ scratch -> x ∈ scratch ->
  op_ok B helper disas goto_tb res x (Some (L_add op x res a)) scratch (op_with (add_op op) a inputs)
    (fun v => if x =? res then op_with (add_op op) a inputs v else v) base env.
Proof.
  intros Hop Hx Hr Ha Hns Hxs. split; [done|]. split; [done|]. intros i w e mem Hw Hpc Hm Hs.
  destruct (add_line B L helper disas Hdisas goto_tb i op x res a w _ e mem Hop Hx Hr Ha Hw Hpc Hm) as (env1 & H1 & H2 & H3).
  exists env1. split; [done|]. split; [done|]. rewrite H3. unfold op_with, inputs. f_equal. apply Hs; [unfold in_file in *; lia|done].
Qed.
Lemma logic_op_ok op res x a scratch : op ∈ ["and"; "orr"; "xor"] -> in_file x -> in_file res -> in_file a ->
  a ∉ scratch -> x ∈ scratch ->
  op_ok B helper disas goto_tb res x (Some (L_logic op x res a)) scratch (op_with (logic_op op) a inputs)
    (fun v => if x =? res then op_with (logic_op op) a inputs v else v) base env.
Proof.
  intros Hop Hx Hr Ha Hns Hxs. split; [done|]. split; [done|]. intros i w e mem Hw Hpc Hm Hs.
  destruct (logic_line B L helper disas Hdisas goto_tb i op x res a w _ e mem Hop Hx Hr Ha Hw Hpc Hm) as (env1 & H1 & H2 & H3).
  exists env1. split; [done|]. split; [done|]. rewrite H3. unfold op_with, inputs. f_equal. apply Hs; [unfold in_file in *; lia|done].
Qed.
Lemma new_register_ok res x scratch : in_file x -> x ∉ scratch ->
  op_ok B helper disas goto_tb res x None scratch (fun _ => inputs x) (value inputs) base env.
Proof. intros Hx Hns v e Hs. split; [|done]. apply Hs; [unfold in_file in *; lia|done]. Qed.
(** The result of an operation into another register, or into the result. *)
Lemma op_ok_out res x op scratch new out out' : (forall v, out' v = out v) ->
  op_ok B helper disas goto_tb res x op scratch new out base env -> op_ok B helper disas goto_tb res x op scratch new out' base env.
Proof.
  intros Ho. unfold op_ok. destruct op as [l|].
  - intros (H1 & H2 & H3). split; [done|]. split; [|done]. intros v. by rewrite Ho.
  - intros H1 v e Hs. rewrite Ho. by apply H1.
Qed.
Ltac registers Hr Hb :=
  cbv [allocated ATOMIC64_OP ATOMIC64_OP_logic ATOMIC64_OP_RETURN ATOMIC64_FETCH_OP ATOMIC64_FETCH_OP_logic
    atomic64_fetch_add_unless ATOMIC64_XCHG_OP ATOMIC64_CMPXCHG_OP] in Hr, Hb;
  cbn [length] in Hb; repeat match goal with
  | H : Forall _ (_ :: _) |- _ => apply Forall_cons in H as [? ?]; cbn [line_regs] in *
  | H : Forall _ [] |- _ => clear H
  end.
Ltac loop acq rel tmp x exit op fence :=
  exists acq, rel, tmp, x, exit, op, fence; split; [reflexivity|]; split; [cbn [s_res s_ptr]; split_and!; done|];
  split; [cbn [s_res s_scratch]; split_and!; [congruence|set_solver|set_solver]|]; split; [try (by intros ?)|].
Lemma function_is_loop code s : atomic_function code s -> allocated code -> 0 <= base ->
  base + 4 * Z.of_nat (length code) < 2^64 -> is_loop code s.
Proof.
  intros Hf Hr Hb0 Hb.
  destruct Hf as [op res tmp c a Hop Hne Ha|op res tmp c a Hop Hne Ha|op acq rel res tmp c a Hop Hne Ha
    |op acq rel res val tmp c a Hop Hnd Ha|op acq rel res val tmp c a Hop Hnd Ha|p rc c a u Hne Ha Hu
    |acq rel res tmp c new Hne Hnew|acq rel res tmp c old new Hne Hold Hnew]; registers Hr Hb.
  - loop "nn" "nn" tmp res (@None asm_line) (Some (L_add op res res a)) false.
    eapply op_ok_out; [|apply add_op_ok; [done..|set_solver]]. intros v. by rewrite Z.eqb_refl.
  - loop "nn" "nn" tmp res (@None asm_line) (Some (L_logic op res res a)) false.
    eapply op_ok_out; [|apply logic_op_ok; [done..|set_solver]]. intros v. by rewrite Z.eqb_refl.
  - loop acq rel tmp res (@None asm_line) (Some (L_add op res res a)) false.
    eapply op_ok_out; [|apply add_op_ok; [done..|set_solver]]. intros v. by rewrite Z.eqb_refl.
  - assert (val <> res /\ res <> tmp) as [Hvr Hrt] by (rewrite !NoDup_cons in Hnd; set_solver).
    loop acq rel tmp val (@None asm_line) (Some (L_add op val res a)) false.
    eapply op_ok_out; [|apply add_op_ok; [done..|set_solver]]. intros v. by rewrite (proj2 (Z.eqb_neq val res)).
  - assert (val <> res /\ res <> tmp) as [Hvr Hrt] by (rewrite !NoDup_cons in Hnd; set_solver).
    loop acq rel tmp val (@None asm_line) (Some (L_logic op val res a)) false.
    eapply op_ok_out; [|apply logic_op_ok; [done..|set_solver]]. intros v. by rewrite (proj2 (Z.eqb_neq val res)).
  - loop "nn" "nr" rc rc (Some (L_br2 "breq" p u 6)) (Some (L_add "add" rc p a)) true.
    + intros w e mem Hw Hm Hs. destruct (br2_line B L helper disas Hdisas goto_tb base 1 "breq" p u 6 w e mem) as (env1 & H1' & H2');
        try done; [set_solver|unfold at_line; lia..|]. exists env1. split; [done|].
      rewrite (Hs RD u) in H2' by (unfold in_file in *; lia || done). exact H2'.
    + eapply op_ok_out; [|apply add_op_ok; [set_solver|done..|set_solver]]. intros v. by rewrite (proj2 (Z.eqb_neq rc p)).
  - loop acq rel tmp new (@None asm_line) (@None asm_line) false. by apply new_register_ok.
  - loop acq rel tmp new (Some (L_br2 "brne" res old 4)) (@None asm_line) false; [|by apply new_register_ok].
    intros w e mem Hw Hm Hs. destruct (br2_line B L helper disas Hdisas goto_tb base 1 "brne" res old 4 w e mem) as (env1 & H1' & H2');
      try done; [set_solver|unfold at_line; lia..|]. exists env1. split; [done|].
    rewrite (Hs RD old) in H2' by (unfold in_file in *; lia || done). exact H2'.
Qed.

Variables (code : list asm_line) (s : rmw) (ws : list Z).
Hypothesis Hf : atomic_function code s.
Hypothesis Hr : allocated code.
Hypothesis Hws : assembled code ws.
Hypothesis Hb : 0 <= base /\ base + 4 * Z.of_nat (length code) < 2^64.
Hypothesis Hm : machine_ok env.
Hypothesis Hpc : REG_PC env = base.
Let a := reg RB (s_ptr s) env.
Lemma function_outcome mem tr env' mem' :
  runs_atomic B helper disas goto_tb base ws env mem tr env' mem' -> at_end base ws env' ->
  ((exists tr1 m m1 tr2 v, tr = (tr1 ++ (m, m1) :: tr2)%list /\ quiet tr1 /\ quiet tr2 /\
      b_ld B MO_TEUQ a m = Some v /\ s_stop s inputs v = false /\
      b_st B MO_TEUQ a (s_new s inputs v) m = Some m1 /\ reg RD (s_res s) env' = s_out s inputs v) \/
   (quiet tr /\ exists m v, (m, m) ∈ tr /\ b_ld B MO_TEUQ a m = Some v /\ s_stop s inputs v = true /\
      reg RD (s_res s) env' = v)) /\
  (forall g j, j <> 0 -> (g = RD -> j ∉ s_scratch s) -> reg g j env' = reg g j env).
Proof.
  intros Hrun Hend.
  destruct (function_is_loop code s Hf Hr (proj1 Hb) (proj2 Hb)) as (acq & rel & tmp & x & exit & op & fence & -> & R & S & E & O).
  apply (run_outcome B L Hcas helper V disas Hdisas goto_tb acq rel (s_res s) tmp x (s_ptr s) exit op fence
    (s_scratch s) (s_stop s inputs) (s_new s inputs) (s_out s inputs) base ws env R S Hws Hb E O _ _ _ _ _ Hrun Hend Start).
  split; [done|]. split; [done|]. split; [|done]. rewrite Hpc. unfold at_line. cbn. lia.
Qed.
Lemma function_ends mem tr env1 mem1 mem2 :
  runs_atomic B helper disas goto_tb base ws env mem tr env1 mem1 ->
  (forall m, b_ld B MO_TEUQ a m <> None /\ forall v, b_st B MO_TEUQ a v m <> None) ->
  exists tr' env' mem', runs_atomic B helper disas goto_tb base ws env1 mem2 tr' env' mem' /\ alone mem2 tr' mem' /\
    at_end base ws env' /\ (length tr' <= 2 * length code + 1)%nat.
Proof.
  intros Hrun Hacc.
  destruct (function_is_loop code s Hf Hr (proj1 Hb) (proj2 Hb)) as (acq & rel & tmp & x & exit & op & fence & -> & R & S & E & O).
  set (P := run_inv B L Hcas helper V disas Hdisas goto_tb acq rel (s_res s) tmp x (s_ptr s) exit op fence
    (s_scratch s) (s_stop s inputs) (s_new s inputs) (s_out s inputs) base ws env R S Hws Hb E O _ _ _ _ _ Hrun).
  destruct (P Start) as [ph Hi].
  { split; [done|]. split; [done|]. split; [|done]. rewrite Hpc. unfold at_line. cbn. lia. }
  apply (loop_ends B L Hcas helper V disas Hdisas goto_tb acq rel (s_res s) tmp x (s_ptr s) exit op fence
    (s_scratch s) (s_stop s inputs) (s_new s inputs) (s_out s inputs) base ws env R S Hws Hb E O Hacc _ _ _ ph Hi).
  unfold ranked, stop_line. lia.
Qed.
End Functions.

(** A line that is two instructions is an instance of no row. *)
Lemma dec_if_positive_not_assembled p rc c ws : ~ assembled (atomic64_dec_if_positive p rc c) ws.
Proof. intros [_ Hl]. destruct (Hl 1%nat _ eq_refl) as (w & _ & n & q & Hn & _). discriminate Hn. Qed.

(** C22: Each of the kernel's atomic functions takes effect at one
    instruction, whatever other processors write between its instructions:
    that instruction reads the word at the address in the base register and
    stores the new value, and no other instruction of the run writes.  If the
    operation was not to be done (compare-and-exchange, add-unless) nothing is written, and the word was seen with the
    value that forbids it.  The result register holds the old value (the new
    one for the operations that return it), and only the template's own
    registers change. *)
Theorem atomic_linearizable M (B : backend M) helper disas goto_tb base env code s ws mem tr env' mem' :
  tcg_laws B -> cas_law B -> values_64 B helper -> decodetree_laws disas ->
  atomic_function code s -> allocated code -> assembled code ws ->
  0 <= base /\ base + 4 * Z.of_nat (length code) < 2^64 -> machine_ok env -> REG_PC env = base ->
  runs_atomic B helper disas goto_tb base ws env mem tr env' mem' -> at_end base ws env' ->
  let inputs i := reg RD i env in
  let a := reg RB (s_ptr s) env in
  ((exists tr1 m m1 tr2 v, tr = (tr1 ++ (m, m1) :: tr2)%list /\ quiet tr1 /\ quiet tr2 /\
      b_ld B MO_TEUQ a m = Some v /\ s_stop s inputs v = false /\
      b_st B MO_TEUQ a (s_new s inputs v) m = Some m1 /\ reg RD (s_res s) env' = s_out s inputs v) \/
   (quiet tr /\ exists m v, (m, m) ∈ tr /\ b_ld B MO_TEUQ a m = Some v /\ s_stop s inputs v = true /\
      reg RD (s_res s) env' = v)) /\
  (forall g j, j <> 0 -> (g = RD -> j ∉ s_scratch s) -> reg g j env' = reg g j env).
Proof. intros L Hcas V Hdisas Hf Hr Hws Hb Hm Hpc. by apply (function_outcome B L Hcas helper V disas Hdisas goto_tb base env code s ws Hf Hr Hws Hb Hm Hpc mem tr env' mem'). Qed.

(** C23: The loop is lock-free: from any point of a run, however much the
    others have interfered before, a processor that is left alone is out of
    the function within twice its length and one instruction. *)
Theorem atomic_progress M (B : backend M) helper disas goto_tb base env code s ws mem tr env1 mem1 mem2 :
  tcg_laws B -> cas_law B -> values_64 B helper -> decodetree_laws disas ->
  atomic_function code s -> allocated code -> assembled code ws ->
  0 <= base /\ base + 4 * Z.of_nat (length code) < 2^64 -> machine_ok env -> REG_PC env = base ->
  runs_atomic B helper disas goto_tb base ws env mem tr env1 mem1 ->
  (forall m, b_ld B MO_TEUQ (reg RB (s_ptr s) env) m <> None /\
     forall v, b_st B MO_TEUQ (reg RB (s_ptr s) env) v m <> None) ->
  exists tr' env' mem', runs_atomic B helper disas goto_tb base ws env1 mem2 tr' env' mem' /\ alone mem2 tr' mem' /\
    at_end base ws env' /\ (length tr' <= 2 * length code + 1)%nat.
Proof. intros L Hcas V Hdisas Hf Hr Hws Hb Hm Hpc. by apply (function_ends B L Hcas helper V disas Hdisas goto_tb base env code s ws Hf Hr Hws Hb Hm Hpc mem tr env1 mem1 mem2). Qed.

(** ** atomic64_add with rd10 on the word rb16 points to *)
Definition demo_add : list asm_line := ATOMIC64_OP "add" 8 9 16 10.
Definition demo_words : list Z :=
  [0x70800000 + 8 * 2^6 + 16; 0x1A000000 + 8 * 2^12 + 8 * 2^6 + 10; 0x70A00000 + 9 * 2^12 + 8 * 2^6 + 16;
   0x2B000000 + 9 * 2^18 + (2^18 - 3)].
Lemma line_word_intro i l w n p : line_name l = Some n -> find_pattern n = Some p -> matches p w = true ->
  line_fields i l (pattern_args p w) -> line_word i l w.
Proof.
  intros Hn Hp Hm Hf. apply find_some in Hp as [Hin Hpn%String.eqb_eq]. exists n, p.
  split; [done|]. split; [by apply list_elem_of_In|]. done.
Qed.
Lemma demo_assembled : assembled demo_add demo_words.
Proof.
  split; [done|]. intros [|[|[|[|i]]]] l Hl; try discriminate Hl; injection Hl as <-; eexists; (split; [reflexivity|]);
    (eapply line_word_intro; [reflexivity|reflexivity|vm_compute; reflexivity|vm_compute; repeat split]).
Qed.
Lemma demo_function : atomic_function demo_add
  (Rmw 8 16 [8; 9] never (op_with (add_op "add") 10) (op_with (add_op "add") 10)).
Proof. apply af_op; set_solver. Qed.
Lemma demo_allocated : allocated demo_add.
Proof. repeat constructor; lia. Qed.
Abbreviation demo_run := (runs_atomic ref_backend no_helper decode_ref (fun _ => true) 0x1000 demo_words).
Lemma demo_access a (m : bytes_mem) : b_ld ref_backend MO_TEUQ a m <> None /\
  forall v, b_st ref_backend MO_TEUQ a v m <> None.
Proof. by split. Qed.
Lemma demo_complete : exists tr env' mem', demo_run demo_env ∅ tr env' mem' /\ at_end 0x1000 demo_words env'.
Proof.
  destruct (function_ends ref_backend ref_laws ref_cas no_helper ref_values decode_ref decode_ref_laws (fun _ => true)
    0x1000 demo_env demo_add _ demo_words demo_function demo_allocated demo_assembled ltac:(cbn; lia) demo_ok eq_refl
    ∅ [] demo_env ∅ ∅ (run_here _ _ _ _ _ _ _ _) (demo_access _)) as (tr & env' & mem' & Hrun & _ & Hend & _).
  by exists tr, env', mem'.
Qed.
Lemma atomic_linearizable_witness : exists tr env' mem',
  (exists tr1 m m1 tr2 v, tr = (tr1 ++ (m, m1) :: tr2)%list /\ quiet tr1 /\ quiet tr2 /\
      b_ld ref_backend MO_TEUQ 0x1080 m = Some v /\ b_st ref_backend MO_TEUQ 0x1080 (w64 (v + 10)) m = Some m1 /\
      reg RD 8 env' = w64 (v + 10)) /\ demo_run demo_env ∅ tr env' mem'.
Proof.
  destruct demo_complete as (tr & env' & mem' & Hrun & Hend). exists tr, env', mem'. split; [|exact Hrun].
  destruct (atomic_linearizable _ ref_backend no_helper decode_ref (fun _ => true) 0x1000 demo_env demo_add _ demo_words
    ∅ tr env' mem' ref_laws ref_cas ref_values decode_ref_laws demo_function demo_allocated demo_assembled ltac:(cbn; lia)
    demo_ok eq_refl Hrun Hend) as [[(tr1 & m & m1 & tr2 & v & H1 & H2 & H3 & H4 & _ & H5 & H6)|(_ & ? & ? & _ & _ & H & _)] _].
  - exists tr1, m, m1, tr2, v. split; [exact H1|]. split; [exact H2|]. split; [exact H3|]. split; [exact H4|]. split; [exact H5|exact H6].
  - discriminate H.
Defined.
Lemma atomic_progress_witness : exists tr' env' mem',
  demo_run demo_env ∅ tr' env' mem' /\ alone ∅ tr' mem' /\ at_end 0x1000 demo_words env' /\ (length tr' <= 9)%nat.
Proof.
  apply (atomic_progress _ ref_backend no_helper decode_ref (fun _ => true) 0x1000 demo_env demo_add _ demo_words
    ∅ [] demo_env ∅ ∅ ref_laws ref_cas ref_values decode_ref_laws demo_function demo_allocated demo_assembled ltac:(cbn; lia)
    demo_ok eq_refl (run_here _ _ _ _ _ _ _ _) (demo_access _)).
Defined.
