(* ===== verification/Linux.v ===== *)
(** The kernel port: page tables, saved registers and system calls, the
    headers of arch/dadao/include/asm.

    Memory is seen through kernel virtual addresses, a 64-bit entry at each;
    an entry and a [struct page *] are numbers, the page's number being a
    parameter of the generic kernel. *)
From S2P Require Import Prelude.
Local Open Scope Z_scope.

(** ** page.h and arch_memory.h *)
Definition PAGE_SHIFT : Z := 12.
Definition PAGE_SIZE : Z := Z.shiftl 1 PAGE_SHIFT.
Definition PAGE_OFFSET : Z := 0x80000000.
Definition __va (x : Z) : Z := w64 (x + PAGE_OFFSET).
Definition __pa (x : Z) : Z := w64 (x - PAGE_OFFSET).

(** ** pgtable-hwdef.h *)
Definition __PGTABLE_LVL_SHIFT (n : Z) : Z := (PAGE_SHIFT - 3) * (4 - n) + 3.
Definition PTRS_PER_TABLE : Z := Z.shiftl 1 (PAGE_SHIFT - 3).
Definition PGDIR_SHIFT : Z := __PGTABLE_LVL_SHIFT 0.
Definition PUD_SHIFT : Z := __PGTABLE_LVL_SHIFT 1.
Definition PMD_SHIFT : Z := __PGTABLE_LVL_SHIFT 2.
Definition PUD_TABLE_BIT : Z := Z.shiftl 1 1.
Definition PMD_TABLE_BIT : Z := Z.shiftl 1 1.
Definition PUD_TYPE_TABLE : Z := 3.
Definition PMD_TYPE_TABLE : Z := 3.
Definition PTE_ADDR_MASK : Z := Z.shiftl (Z.shiftl 1 (48 - PAGE_SHIFT) - 1) PAGE_SHIFT.
Definition PTE_VALID : Z := 1.
Definition PTE_TYPE_PAGE : Z := 3.
Definition PTE_USER : Z := Z.shiftl 1 6.
Definition PTE_RDONLY : Z := Z.shiftl 1 7.
Definition PTE_SHARED : Z := Z.shiftl 3 8.
Definition PTE_AF : Z := Z.shiftl 1 10.
Definition PTE_NG : Z := Z.shiftl 1 11.
Definition PTE_WRITE : Z := Z.shiftl 1 51.
Definition PTE_PXN : Z := Z.shiftl 1 53.
Definition PTE_UXN : Z := Z.shiftl 1 54.

(** ** pgtable-prot.h *)
Definition PTE_DIRTY : Z := Z.shiftl 1 55.
Definition PTE_SPECIAL : Z := Z.shiftl 1 56.
Definition PTE_PROT_NONE : Z := Z.shiftl 1 58.
Definition flags (l : list Z) : Z := fold_left Z.lor l 0.
Definition PROT_DEFAULT : Z := flags [PTE_TYPE_PAGE; PTE_AF; PTE_SHARED].
Definition PROT_NORMAL : Z := flags [PROT_DEFAULT; PTE_PXN; PTE_UXN; PTE_WRITE].
Definition PAGE_KERNEL : Z := PROT_NORMAL.
Definition PAGE_KERNEL_EXEC : Z := Z.ldiff PROT_NORMAL PTE_PXN.
Definition PAGE_NONE : Z := flags [Z.ldiff PROT_DEFAULT PTE_VALID; PTE_PROT_NONE; PTE_RDONLY; PTE_NG; PTE_PXN; PTE_UXN].
Definition PAGE_SHARED : Z := flags [PROT_DEFAULT; PTE_USER; PTE_RDONLY; PTE_NG; PTE_PXN; PTE_UXN; PTE_WRITE].
Definition PAGE_SHARED_EXEC : Z := flags [PROT_DEFAULT; PTE_USER; PTE_RDONLY; PTE_NG; PTE_PXN; PTE_WRITE].
Definition PAGE_READONLY : Z := flags [PROT_DEFAULT; PTE_USER; PTE_RDONLY; PTE_NG; PTE_PXN; PTE_UXN].
Definition PAGE_READONLY_EXEC : Z := flags [PROT_DEFAULT; PTE_USER; PTE_RDONLY; PTE_NG; PTE_PXN].
(** __P000 to __S111, by the bits of read, write and execute. *)
Definition protection_map (shared w x : bool) (r : bool) : Z :=
  if negb r && negb w && negb x then PAGE_NONE
  else if x then (if shared && w then PAGE_SHARED_EXEC else PAGE_READONLY_EXEC)
  else if shared && w then PAGE_SHARED else PAGE_READONLY.

(** ** pgtable.h and pgalloc.h *)
Definition kmem : Type := Z -> Z.
Definition set_entry (p v : Z) (m : kmem) : kmem := fun a => if a =? p then v else m a.
Definition entry_none (e : Z) : bool := e =? 0.
Definition pgd_bad (e : Z) : bool := Z.land e 2 =? 0.
Definition pud_bad (e : Z) : bool := Z.land e PUD_TABLE_BIT =? 0.
Definition pmd_bad (e : Z) : bool := Z.land e PMD_TABLE_BIT =? 0.
Definition pte_present (e : Z) : bool := negb (Z.land e (Z.lor PTE_VALID PTE_PROT_NONE) =? 0).
Definition table_index (shift addr : Z) : Z := Z.land (Z.shiftr addr shift) (PTRS_PER_TABLE - 1).
Definition pgd_index : Z -> Z := table_index PGDIR_SHIFT.
Definition pud_index : Z -> Z := table_index PUD_SHIFT.
Definition pmd_index : Z -> Z := table_index PMD_SHIFT.
Definition pte_index : Z -> Z := table_index PAGE_SHIFT.
Definition __pte_to_phys (e : Z) : Z := Z.land e PTE_ADDR_MASK.
Definition pgd_offset (mm_pgd addr : Z) : Z := w64 (mm_pgd + 8 * pgd_index addr).
Definition pud_offset (m : kmem) (dir addr : Z) : Z := __va (w64 (Z.land (m dir) PTE_ADDR_MASK + pud_index addr * 8)).
Definition pmd_offset (m : kmem) (dir addr : Z) : Z := __va (w64 (Z.land (m dir) PTE_ADDR_MASK + pmd_index addr * 8)).
Definition pte_offset_kernel (m : kmem) (dir addr : Z) : Z := __va (w64 (Z.land (m dir) PTE_ADDR_MASK + pte_index addr * 8)).
Definition __pgd_populate (pgdp phys prot : Z) : kmem -> kmem := set_entry pgdp (Z.lor phys prot).
Definition pgd_populate (pgdp pudp : Z) : kmem -> kmem := __pgd_populate pgdp (__pa pudp) PUD_TYPE_TABLE.
Definition pud_populate (pudp pmdp : Z) : kmem -> kmem := set_entry pudp (Z.lor (__pa pmdp) PMD_TYPE_TABLE).
Definition pmd_populate_kernel (pmdp ptep : Z) : kmem -> kmem := set_entry pmdp (Z.lor (__pa ptep) PMD_TYPE_TABLE).
Definition page_to_phys (pfn : Z) : Z := w64 (Z.shiftl pfn PAGE_SHIFT).
Definition pmd_populate (pmdp page_pfn : Z) : kmem -> kmem := set_entry pmdp (Z.lor (page_to_phys page_pfn) PMD_TYPE_TABLE).
Definition set_pte (ptep pte : Z) : kmem -> kmem := set_entry ptep pte.
Definition pte_pfn (pte : Z) : Z := Z.shiftr pte PAGE_SHIFT.
Definition pfn_pte (pfn prot : Z) : Z := Z.lor (w64 (Z.shiftl pfn PAGE_SHIFT)) prot.
Definition pte_young (e : Z) : bool := negb (Z.land e PTE_AF =? 0).
Definition pte_write (e : Z) : bool := negb (Z.land e PTE_WRITE =? 0).
Definition pte_dirty (e : Z) : bool := negb (Z.land e PTE_DIRTY =? 0).
Definition pte_special (e : Z) : bool := negb (Z.land e PTE_SPECIAL =? 0).
Definition pte_mkold (e : Z) : Z := Z.ldiff e PTE_AF.
Definition pte_mkyoung (e : Z) : Z := Z.lor e PTE_AF.
Definition pte_wrprotect (e : Z) : Z := Z.ldiff e PTE_WRITE.
Definition pte_mkwrite (e : Z) : Z := Z.lor e PTE_WRITE.
Definition pte_mkclean (e : Z) : Z := Z.ldiff e PTE_DIRTY.
Definition pte_mkdirty (e : Z) : Z := Z.lor e PTE_DIRTY.
Definition pte_mkspecial (e : Z) : Z := Z.lor e PTE_SPECIAL.
Definition pte_modify_mask : Z := flags [PTE_USER; PTE_PXN; PTE_UXN; PTE_RDONLY; PTE_PROT_NONE; PTE_VALID; PTE_WRITE].
Definition pte_modify (pte newprot : Z) : Z := Z.lor (Z.ldiff pte pte_modify_mask) (Z.land newprot pte_modify_mask).

(** ** ptrace.h, syscall.h, processor.h *)
Record pt_regs := PtRegs {
  rd_regs : list Z; rb_regs : list Z; rf_regs : list Z; ra_regs : list Z;
  sstatus : Z; sbadaddr : Z; scause : Z; orig_a0 : Z }.
Definition slot (l : list Z) (i : nat) : Z := default 0 (l !! i).
Definition set_rd (i : nat) (v : Z) (r : pt_regs) : pt_regs :=
  PtRegs (<[i := v]> (rd_regs r)) (rb_regs r) (rf_regs r) (ra_regs r) (sstatus r) (sbadaddr r) (scause r) (orig_a0 r).
Definition set_orig_a0 (v : Z) (r : pt_regs) : pt_regs :=
  PtRegs (rd_regs r) (rb_regs r) (rf_regs r) (ra_regs r) (sstatus r) (sbadaddr r) (scause r) v.
Definition SR_SIE : Z := 2.
Definition SR_SPP : Z := 0x100.
Definition PRIV_MODE : Z := 0xDADA0000.
Definition user_mode (r : pt_regs) : bool := Z.land (sstatus r) SR_SPP =? 0.
Definition instruction_pointer (r : pt_regs) : Z := slot (rb_regs r) 0.
(** _DD_rbsp and _DD_rbfp are rd_regs[1] and rd_regs[2]. *)
Definition user_stack_pointer (r : pt_regs) : Z := slot (rd_regs r) 1.
Definition user_stack_pointer_set (r : pt_regs) (val : Z) : pt_regs := set_rd 1 val r.
Definition frame_pointer (r : pt_regs) : Z := slot (rd_regs r) 2.
Definition regs_return_value (r : pt_regs) : Z := slot (rd_regs r) 31.
Definition syscall_get_nr (r : pt_regs) : Z := s32 (w32 (slot (rd_regs r) 15)).
Definition syscall_rollback (r : pt_regs) : pt_regs := set_rd 16 (orig_a0 r) r.
(** IS_ERR_VALUE is the generic kernel's. *)
Definition syscall_get_error (IS_ERR_VALUE : Z -> bool) (r : pt_regs) : Z :=
  let error := slot (rd_regs r) 1 in if IS_ERR_VALUE error then error else 0.
Definition syscall_get_return_value (r : pt_regs) : Z := slot (rd_regs r) 31.
Definition syscall_set_return_value (r : pt_regs) (error val : Z) : pt_regs :=
  set_rd 31 (if negb (error =? 0) then error else val) r.
Definition syscall_get_arguments (r : pt_regs) : list Z := orig_a0 r :: take 5 (drop 17 (rd_regs r)).
Definition syscall_set_arguments (r : pt_regs) (args : list Z) : pt_regs :=
  set_orig_a0 (slot args 0)
    (fold_left (fun r i => set_rd (17 + i) (slot args (1 + i)) r) (seq 0 5) r).
(** start_thread; [stack] is the memory at [sp]. *)
Definition start_thread (pc sp : Z) (stack : nat -> Z) (r : pt_regs) : pt_regs :=
  PtRegs (<[16%nat := stack 0%nat]> (replicate 64 0))
    (<[16%nat := stack 1%nat]> (<[17%nat := stack 2%nat]> (<[1%nat := sp]> (<[0%nat := pc]> (replicate 64 0)))))
    (replicate 64 0) (replicate 64 0) (sstatus r) (sbadaddr r) (scause r) (orig_a0 r).

(** ** irqflags.h, thread_info.h *)
Definition ARCH_IRQ_DISABLED : Z := Z.lor PRIV_MODE SR_SIE.
Definition ARCH_IRQ_ENABLED : Z := PRIV_MODE.
Definition THREAD_SIZE : Z := Z.shiftl PAGE_SIZE 3.
Definition current_thread_info (sp : Z) : Z := Z.ldiff sp (THREAD_SIZE - 1).
