(* ===== verification/LinuxProps.v ===== *)
(** The kernel port: page tables that are built are the tables that are
    walked, and what saved registers say of a system call. *)
From S2P Require Import Prelude Cpu Emu Mmu Linux.
Local Open Scope Z_scope.

(** ** Page tables *)

(** A table is a page of physical memory below 2^48, at its kernel address. *)
Definition is_table (t : Z) : Prop := exists k, 0 <= k < 2^36 /\ t = k * 2^12 + PAGE_OFFSET.
Definition slot_of (t i : Z) : Z := t + 8 * i.
Lemma index_range s addr : 0 <= table_index s addr < 512.
Proof.
  unfold table_index. change (PTRS_PER_TABLE - 1) with (Z.ones 9). rewrite Z.land_ones by lia. apply Z.mod_pos_bound. lia.
Qed.
Lemma mask_field e : Z.land e PTE_ADDR_MASK = e / 2^12 mod 2^36 * 2^12.
Proof. change PTE_ADDR_MASK with (Z.shiftl (Z.ones 36) 12). by apply land_field. Qed.
Lemma page_or k f : 0 <= f < 2^12 -> Z.lor (k * 2^12) f = k * 2^12 + f.
Proof. intros Hf. by apply lor_add_mul. Qed.
Lemma table_entry t : is_table t -> exists k, 0 <= k < 2^36 /\ t = k * 2^12 + PAGE_OFFSET /\ Z.lor (__pa t) 3 = k * 2^12 + 3.
Proof.
  intros (k & Hk & ->). exists k. split; [done|]. split; [done|]. unfold __pa. rewrite w64_id by (unfold PAGE_OFFSET; lia).
  replace (_ - _) with (k * 2^12) by lia. by apply page_or.
Qed.
(** The offset macros go to the slot of the table an entry names. *)
Lemma offset_of (m : kmem) dir t i : is_table t -> m dir = Z.lor (__pa t) 3 -> 0 <= i < 512 ->
  __va (w64 (Z.land (m dir) PTE_ADDR_MASK + i * 8)) = slot_of t i.
Proof.
  intros Ht -> Hi. destruct (table_entry t Ht) as (k & Hk & -> & ->). rewrite mask_field.
  replace ((k * 2^12 + 3) / 2^12 mod 2^36) with k by (Z.div_mod_to_equations; lia).
  unfold __va, slot_of, PAGE_OFFSET. rewrite !w64_id; rewrite ?w64_id; lia.
Qed.
Lemma slot_apart t t' i j : is_table t -> is_table t' -> t <> t' -> 0 <= i < 512 -> 0 <= j < 512 -> slot_of t i <> slot_of t' j.
Proof. intros (k & Hk & ->) (k' & Hk' & ->) Hne Hi Hj. unfold slot_of. lia. Qed.
Lemma pgd_slot t addr : is_table t -> pgd_offset t addr = slot_of t (pgd_index addr).
Proof.
  intros (k & Hk & ->). pose proof (index_range PGDIR_SHIFT addr). unfold pgd_offset, slot_of, pgd_index, PAGE_OFFSET.
  apply w64_id. lia.
Qed.
Lemma set_entry_eq p v m : set_entry p v m p = v.
Proof. unfold set_entry. by rewrite Z.eqb_refl. Qed.
Lemma set_entry_ne p v m a : a <> p -> set_entry p v m a = m a.
Proof. intros Ha. unfold set_entry. by rewrite (proj2 (Z.eqb_neq a p)). Qed.

Lemma index_ranges addr : 0 <= pgd_index addr < 512 /\ 0 <= pud_index addr < 512 /\
  0 <= pmd_index addr < 512 /\ 0 <= pte_index addr < 512.
Proof. split_and!; apply index_range. Qed.
Lemma tables_differ (a b c d : Z) : NoDup [a; b; c; d] -> a <> b /\ a <> c /\ a <> d /\ b <> c /\ b <> d /\ c <> d.
Proof. rewrite !NoDup_cons. set_solver. Qed.
(** The slots of a walk. *)
Definition walk_pud (m : kmem) (pgd addr : Z) : Z := pud_offset m (pgd_offset pgd addr) addr.
Definition walk_pmd (m : kmem) (pgd addr : Z) : Z := pmd_offset m (walk_pud m pgd addr) addr.
Definition walk_pte (m : kmem) (pgd addr : Z) : Z := pte_offset_kernel m (walk_pmd m pgd addr) addr.
(** Building the path to a page in three new tables. *)
Definition map_page (pgd pud pmd pte addr e : Z) (m : kmem) : kmem :=
  let m := pgd_populate (pgd_offset pgd addr) pud m in
  let m := pud_populate (walk_pud m pgd addr) pmd m in
  let m := pmd_populate_kernel (walk_pmd m pgd addr) pte m in
  set_pte (walk_pte m pgd addr) e m.

Section Build.
Variables (pgd pud pmd pte addr e : Z) (m : kmem).
Hypothesis Ht : Forall is_table [pgd; pud; pmd; pte].
Hypothesis Hd : NoDup [pgd; pud; pmd; pte].
Lemma built : map_page pgd pud pmd pte addr e m
  = set_entry (slot_of pte (pte_index addr)) e
      (set_entry (slot_of pmd (pmd_index addr)) (Z.lor (__pa pte) 3)
        (set_entry (slot_of pud (pud_index addr)) (Z.lor (__pa pmd) 3)
          (set_entry (slot_of pgd (pgd_index addr)) (Z.lor (__pa pud) 3) m))).
Proof.
  rewrite !Forall_cons in Ht. destruct Ht as (T1 & T2 & T3 & T4 & _).
  destruct (index_ranges addr) as (I1 & I2 & I3 & I4). destruct (tables_differ _ _ _ _ Hd) as (D1 & D2 & D3 & D4 & D5 & D6).
  unfold map_page. set (m1 := pgd_populate _ _ _).
  assert (H1 : m1 (slot_of pgd (pgd_index addr)) = Z.lor (__pa pud) 3).
  { unfold m1, pgd_populate, __pgd_populate. rewrite pgd_slot by done. apply set_entry_eq. }
  assert (W1 : walk_pud m1 pgd addr = slot_of pud (pud_index addr)).
  { unfold walk_pud, pud_offset. rewrite pgd_slot by done. by apply offset_of. }
  rewrite W1. set (m2 := pud_populate _ _ _).
  assert (W2 : walk_pmd m2 pgd addr = slot_of pmd (pmd_index addr)).
  { unfold walk_pmd, walk_pud, pud_offset, pmd_offset. rewrite pgd_slot by done.
    assert (N : m2 (slot_of pgd (pgd_index addr)) = Z.lor (__pa pud) 3).
    { unfold m2, pud_populate. rewrite set_entry_ne; [done|]. by apply slot_apart. }
    rewrite (offset_of m2 (slot_of pgd (pgd_index addr)) pud) by done.
    apply offset_of; [done|apply set_entry_eq|done]. }
  rewrite W2. set (m3 := pmd_populate_kernel _ _ _).
  assert (W3 : walk_pte m3 pgd addr = slot_of pte (pte_index addr)).
  { unfold walk_pte, walk_pmd, walk_pud, pud_offset, pmd_offset, pte_offset_kernel. rewrite pgd_slot by done.
    assert (N1 : m3 (slot_of pgd (pgd_index addr)) = Z.lor (__pa pud) 3).
    { unfold m3, pmd_populate_kernel, m2, pud_populate. rewrite !set_entry_ne; [done|..]; by apply slot_apart. }
    assert (N2 : m3 (slot_of pud (pud_index addr)) = Z.lor (__pa pmd) 3).
    { unfold m3, pmd_populate_kernel, m2, pud_populate. rewrite set_entry_ne; [apply set_entry_eq|]. by apply slot_apart. }
    rewrite (offset_of m3 (slot_of pgd (pgd_index addr)) pud) by done. rewrite (offset_of m3 (slot_of pud (pud_index addr)) pmd) by done. apply offset_of; [done|apply set_entry_eq|done]. }
  rewrite W3. unfold set_pte, m3, pmd_populate_kernel, m2, pud_populate, m1, pgd_populate, __pgd_populate. by rewrite pgd_slot.
Qed.
(** The entries of the path in the tables built. *)
Lemma built_path : let m' := map_page pgd pud pmd pte addr e m in
  m' (slot_of pgd (pgd_index addr)) = Z.lor (__pa pud) 3 /\
  m' (slot_of pud (pud_index addr)) = Z.lor (__pa pmd) 3 /\
  m' (slot_of pmd (pmd_index addr)) = Z.lor (__pa pte) 3 /\
  m' (slot_of pte (pte_index addr)) = e.
Proof.
  cbv zeta. rewrite built. rewrite !Forall_cons in Ht. destruct Ht as (T1 & T2 & T3 & T4 & _).
  destruct (index_ranges addr) as (I1 & I2 & I3 & I4). destruct (tables_differ _ _ _ _ Hd) as (D1 & D2 & D3 & D4 & D5 & D6).
  split_and!; repeat first [apply set_entry_eq | rewrite set_entry_ne by (by apply slot_apart)].
Qed.
End Build.

Lemma index_div s addr : 0 <= s -> table_index s addr = addr / 2^s mod 2^9.
Proof. intros Hs. unfold table_index. change (PTRS_PER_TABLE - 1) with (Z.ones 9). by rewrite Z.land_ones, Z.shiftr_div_pow2 by lia. Qed.
(** Addresses of one 2 MB region have the same tables. *)
Lemma same_tables addr addr' : addr' / 2^21 = addr / 2^21 ->
  pgd_index addr' = pgd_index addr /\ pud_index addr' = pud_index addr /\ pmd_index addr' = pmd_index addr.
Proof.
  intros He. assert (Hs : forall s, 21 <= s -> table_index s addr' = table_index s addr).
  { intros s Hs. rewrite !index_div by lia. replace s with (21 + (s - 21)) by lia.
    rewrite Z.pow_add_r, <- !Z.div_div by lia. by rewrite He. }
  split_and!; by apply Hs.
Qed.
Lemma same_page addr addr' : addr' / 2^21 = addr / 2^21 -> pte_index addr' = pte_index addr -> addr' / 2^12 = addr / 2^12.
Proof.
  unfold pte_index. rewrite !index_div by (unfold PAGE_SHIFT; lia). unfold PAGE_SHIFT. intros H1 H2.
  assert (H3 : forall a, a / 2^12 / 2^9 = a / 2^21) by (intros a; by rewrite Z.div_div).
  rewrite (Z.div_mod (addr' / 2^12) (2^9)), (Z.div_mod (addr / 2^12) (2^9)), !H3 by lia. congruence.
Qed.
(** The three entries of a path lead on. *)
Definition leads_on (e : Z) : Prop := entry_none e = false /\ pgd_bad e = false /\ pud_bad e = false /\ pmd_bad e = false.
Lemma table_leads_on t : is_table t -> leads_on (Z.lor (__pa t) 3).
Proof.
  intros Ht. destruct (table_entry t Ht) as (k & Hk & _ & ->). unfold leads_on, entry_none, pgd_bad, pud_bad, pmd_bad.
  change PUD_TABLE_BIT with 2. change PMD_TABLE_BIT with 2.
  assert (Hb : Z.land (k * 2^12 + 3) 2 = 2).
  { change 2 with (Z.shiftl (Z.ones 1) 1) at 2. rewrite land_field by lia. Z.div_mod_to_equations; lia. }
  rewrite Hb. split; [apply Z.eqb_neq; lia|done].
Qed.
Lemma pfn_phys pfn prot : 0 <= pfn < 2^36 -> Z.land prot PTE_ADDR_MASK = 0 -> __pte_to_phys (pfn_pte pfn prot) = pfn * PAGE_SIZE.
Proof.
  intros Hp Hz. unfold __pte_to_phys, pfn_pte. rewrite Z.land_lor_distr_l, Hz, Z.lor_0_r, mask_field.
  change PAGE_SHIFT with 12. change PAGE_SIZE with (2^12). rewrite Z.shiftl_mul_pow2, w64_id by lia.
  Z.div_mod_to_equations; lia.
Qed.

(** C24: The tables the kernel builds are the tables it walks: after the path
    to a page is put into three new tables, the walk of an address of that
    page leads through entries that are present and not bad to the entry put
    there, whose physical address is the page's; the walk of an address of
    another page of the same 2 MB region ends at an entry of the same table
    that is as it was. *)
Theorem kernel_page_mapped pgd pud pmd pte addr addr' pfn prot m :
  Forall is_table [pgd; pud; pmd; pte] -> NoDup [pgd; pud; pmd; pte] ->
  0 <= pfn < 2^36 -> Z.land prot PTE_ADDR_MASK = 0 -> addr' / 2^21 = addr / 2^21 ->
  let m' := map_page pgd pud pmd pte addr (pfn_pte pfn prot) m in
  leads_on (m' (pgd_offset pgd addr')) /\ leads_on (m' (walk_pud m' pgd addr')) /\ leads_on (m' (walk_pmd m' pgd addr')) /\
  (addr' / 2^12 = addr / 2^12 ->
     m' (walk_pte m' pgd addr') = pfn_pte pfn prot /\ __pte_to_phys (m' (walk_pte m' pgd addr')) = pfn * PAGE_SIZE) /\
  (addr' / 2^12 <> addr / 2^12 -> m' (walk_pte m' pgd addr') = m (slot_of pte (pte_index addr'))).
Proof.
  intros Ht Hd Hp Hz Ha m'. destruct (built_path pgd pud pmd pte addr (pfn_pte pfn prot) m Ht Hd) as (P1 & P2 & P3 & P4).
  fold m' in P1, P2, P3, P4. destruct (same_tables _ _ Ha) as (S1 & S2 & S3). pose proof Ht as Hts.
  rewrite !Forall_cons in Hts. destruct Hts as (T1 & T2 & T3 & T4 & _).
  destruct (index_ranges addr) as (I1 & I2 & I3 & I4). destruct (index_ranges addr') as (_ & _ & _ & J4).
  assert (W0 : pgd_offset pgd addr' = slot_of pgd (pgd_index addr)) by (by rewrite pgd_slot, S1).
  assert (W1 : walk_pud m' pgd addr' = slot_of pud (pud_index addr)).
  { unfold walk_pud, pud_offset. rewrite W0, S2. by apply offset_of. }
  assert (W2 : walk_pmd m' pgd addr' = slot_of pmd (pmd_index addr)).
  { unfold walk_pmd, pmd_offset. rewrite W1, S3. by apply offset_of. }
  assert (W3 : walk_pte m' pgd addr' = slot_of pte (pte_index addr')).
  { unfold walk_pte, pte_offset_kernel. rewrite W2. by apply offset_of. }
  rewrite W0, W1, W2, W3, P1, P2, P3. split; [by apply table_leads_on|]. split; [by apply table_leads_on|].
  split; [by apply table_leads_on|]. split.
  - intros He. assert (pte_index addr' = pte_index addr) as ->.
    { unfold pte_index. rewrite !index_div by (unfold PAGE_SHIFT; lia). unfold PAGE_SHIFT. by rewrite He. }
    rewrite P4. split; [done|]. by apply pfn_phys.
  - intros Hne. unfold m'. rewrite built by done. destruct (tables_differ _ _ _ _ Hd) as (D1 & D2 & D3 & D4 & D5 & D6).
    rewrite !set_entry_ne; [done|by apply not_eq_sym, slot_apart..|].
    intros Hs. apply Hne, same_page; [done|]. unfold slot_of in Hs. lia.
Qed.
Definition demo_table (k : Z) : Z := k * 2^12 + PAGE_OFFSET.
Lemma demo_tables : Forall is_table (map demo_table [1; 2; 3; 4]).
Proof. repeat constructor; eexists; (split; [|reflexivity]); lia. Qed.
Lemma kernel_page_mapped_witness :
  let m' := map_page (demo_table 1) (demo_table 2) (demo_table 3) (demo_table 4) 0x7FFF_1234_5678 (pfn_pte 0xABCDE PAGE_SHARED) (fun _ => 0) in
  m' (walk_pte m' (demo_table 1) 0x7FFF_1234_5000) = 0x680000abcdefc3 /\
  __pte_to_phys (m' (walk_pte m' (demo_table 1) 0x7FFF_1234_5000)) = 0xABCDE000.
Proof.
  destruct (kernel_page_mapped (demo_table 1) (demo_table 2) (demo_table 3) (demo_table 4) 0x7FFF_1234_5678 0x7FFF_1234_5000
    0xABCDE PAGE_SHARED (fun _ => 0)) as (_ & _ & _ & Hp & _).
  - exact demo_tables.
  - apply (bool_decide_unpack _). vm_compute. exact I.
  - lia.
  - reflexivity.
  - reflexivity.
  - destruct (Hp eq_refl) as [H1 H2]. split; [|exact H2]. rewrite H1. vm_compute. reflexivity.
Defined.

(** Changing one flag of an entry, or its protection, keeps its page and the
    other flags. *)
Lemma pte_modify_keeps pte newprot :
  __pte_to_phys (pte_modify pte newprot) = __pte_to_phys pte /\
  pte_young (pte_modify pte newprot) = pte_young pte /\ pte_dirty (pte_modify pte newprot) = pte_dirty pte /\
  pte_special (pte_modify pte newprot) = pte_special pte /\ pte_write (pte_modify pte newprot) = pte_write newprot.
Proof.
  assert (Hk : forall f, Z.land f pte_modify_mask = 0 -> Z.land (pte_modify pte newprot) f = Z.land pte f).
  { intros f Hf. apply Z.bits_inj'. intros n Hn. unfold pte_modify. apply (f_equal (fun x => Z.testbit x n)) in Hf.
    rewrite !Z.land_spec, Z.bits_0 in Hf. rewrite !Z.land_spec, Z.lor_spec, Z.ldiff_spec, Z.land_spec.
    destruct (Z.testbit f n), (Z.testbit pte_modify_mask n), (Z.testbit pte n), (Z.testbit newprot n); cbn in *; congruence. }
  unfold __pte_to_phys, pte_young, pte_dirty, pte_special, pte_write. rewrite !Hk by reflexivity. split_and!; try done.
  do 2 f_equal. apply Z.bits_inj'. intros n Hn. unfold pte_modify. rewrite !Z.land_spec, Z.lor_spec, Z.ldiff_spec, Z.land_spec.
  assert (Hw : Z.testbit PTE_WRITE n = true -> Z.testbit pte_modify_mask n = true).
  { change PTE_WRITE with (2^51). rewrite Z.pow2_bits_eqb by lia. intros <-%Z.eqb_eq. reflexivity. }
  destruct (Z.testbit PTE_WRITE n) eqn:E; [rewrite (Hw eq_refl)|by rewrite !andb_false_r].
  by destruct (Z.testbit pte n), (Z.testbit newprot n).
Qed.

(** pte_pfn does not mask the flags above the address: no user mapping gives
    its page number back. *)
Lemma pte_pfn_wrong shared w x r pfn : 0 <= pfn < 2^36 ->
  pte_pfn (pfn_pte pfn (protection_map shared w x r)) <> pfn.
Proof.
  intros Hp He. apply (f_equal (fun e => Z.testbit e 41)) in He. unfold pte_pfn, pfn_pte in He.
  rewrite Z.shiftr_spec, Z.lor_spec in He by lia.
  replace (Z.testbit (protection_map shared w x r) (41 + PAGE_SHIFT)) with true in He by (destruct shared, w, x, r; reflexivity).
  rewrite orb_true_r, (Z.bits_above_log2 pfn 41) in He; [done|lia|].
  destruct (decide (pfn = 0)) as [-> |]; [cbn; lia|]. apply Z.log2_lt_pow2; lia.
Qed.

(** The emulator's two-level tables are of another form: whichever half of a
    table entry of the kernel it reads, the access faults. *)
Lemma kernel_tables_fault t ldl_phys env address access_type is_user :
  is_table t -> 0 <= __pa t < 2^32 ->
  let e := Z.lor (__pa t) 3 in
  let entry := Z.lor (Z.land (c2_base (cp0 env)) 0xfffff000) (Z.land (Z.shiftr address 20) 0xffc) in
  (ldl_phys entry = e mod 2^32 -> get_phys_addr_dadao ldl_phys env address access_type is_user = WFault 0x0b) /\
  (ldl_phys entry = e / 2^32 -> get_phys_addr_dadao ldl_phys env address access_type is_user = WFault 0x05).
Proof.
  intros Ht Hlow. destruct (table_entry t Ht) as (k & Hk & Hkt & Ek). cbv zeta. rewrite Ek.
  assert (Hpa : __pa t = k * 2^12) by (rewrite Hkt; unfold __pa; rewrite w64_id by (unfold PAGE_OFFSET; lia); lia).
  rewrite Hpa in Hlow. unfold get_phys_addr_dadao. split; intros ->.
  - rewrite Z.mod_small by lia. unfold PAGETABLE_TYPE, flag, DADAO_PAGETABLE_EXIST.
    replace (Z.land (k * 2^12 + 3) 3) with 3.
    + replace (Z.land (k * 2^12 + 3) (Z.shiftl 1 2)) with 0; [done|].
      change (Z.shiftl 1 2) with (Z.shiftl (Z.ones 1) 2). rewrite land_field by lia. Z.div_mod_to_equations; lia.
    + change 3 with (Z.ones 2) at 3. rewrite Z.land_ones by lia. Z.div_mod_to_equations; lia.
  - rewrite Z.div_small by lia. done.
Qed.

(** ** Saved registers *)

(** The registers the emulator holds at a trap, as the kernel would save
    them. *)
Definition regs_at_trap (env : CPUDADAOState) (r : pt_regs) : Prop :=
  rd_regs r = file RD env /\ length (rd_regs r) = 64%nat /\ orig_a0 r = reg RD 16 env.
Lemma syscall_conventions env r : regs_at_trap env r ->
  syscall_get_arguments r = take 6 (syscall_args env) /\
  syscall_get_nr r = s32 (w32 (reg RD DD_SYSCALL_NUM_REGNUM env)) /\
  syscall_get_return_value r = reg RD DD_RETURN_VALUE_REGNUM env.
Proof.
  intros (Hr & Hl & Ha). unfold syscall_get_arguments, syscall_args, syscall_get_nr, syscall_get_return_value, slot.
  rewrite Ha, Hr. split; [|done]. rewrite Hr in Hl. unfold reg, zlookup. cbn [file] in *.
  destruct env as [rd rb rf ra lr lv jp c]; cbn in *.
  do 64 (destruct rd as [|? rd]; [discriminate Hl|]). by destruct rd.
Qed.
Lemma slot_set_rd i j v r : (i < length (rd_regs r))%nat ->
  slot (rd_regs (set_rd i v r)) j = if decide (i = j) then v else slot (rd_regs r) j.
Proof.
  intros Hi. unfold slot, set_rd. cbn [rd_regs]. case_decide as E; [subst; by rewrite list_lookup_insert_eq|by rewrite list_lookup_insert_ne].
Qed.
(** The arguments of a system call that are set are those that are got. *)
Lemma syscall_arguments_roundtrip r args : length (rd_regs r) = 64%nat -> length args = 6%nat ->
  syscall_get_arguments (syscall_set_arguments r args) = args.
Proof.
  intros Hl Ha. do 6 (destruct args as [|? args]; [discriminate Ha|]). destruct args; [|discriminate Ha].
  destruct r as [rd rb rf ra s1 s2 s3 o]. cbn in Hl. do 64 (destruct rd as [|? rd]; [discriminate Hl|]).
  destruct rd; [|discriminate Hl]. reflexivity.
Qed.
(** The stack pointer is saved in rb_regs[1], but its accessors look at
    rd_regs[1], the register of the error code. *)
Lemma stack_pointer_misplaced IS_ERR_VALUE pc sp stack r v : length (rd_regs r) = 64%nat ->
  instruction_pointer (start_thread pc sp stack r) = pc /\ slot (rb_regs (start_thread pc sp stack r)) 1 = sp /\
  user_stack_pointer (start_thread pc sp stack r) = 0 /\
  (IS_ERR_VALUE v = true -> syscall_get_error IS_ERR_VALUE (user_stack_pointer_set r v) = v).
Proof.
  intros Hl. split_and!; try done. intros Hv. unfold syscall_get_error, user_stack_pointer_set.
  rewrite slot_set_rd, decide_True by (done || lia). by rewrite Hv.
Qed.
(** The error a system call returns is put in rd31, where it is not looked
    for. *)
Lemma syscall_error_lost IS_ERR_VALUE r error val : length (rd_regs r) = 64%nat ->
  syscall_get_error IS_ERR_VALUE (syscall_set_return_value r error val) = syscall_get_error IS_ERR_VALUE r.
Proof. intros Hl. unfold syscall_get_error, syscall_set_return_value. by rewrite slot_set_rd by lia. Qed.
(** The flag that enables interrupts is set in the value that means they are
    disabled. *)
Lemma irq_flags_inverted : Z.land ARCH_IRQ_DISABLED SR_SIE = SR_SIE /\ Z.land ARCH_IRQ_ENABLED SR_SIE = 0.
Proof. split; reflexivity. Qed.
