(* ===== verification/Runtime.v ===== *)
(** The bare-metal runtime of src/DADAO-testset/dhrystone-bare/common:
    syscalls.c (strings and memory, formatted output, the host interface, the
    start-up code) and the functions of util.h.

    Memory is a finite map from addresses to bytes; an access outside it is
    undefined, [UB].  A loop takes fuel and ends in [NoFuel] when it is short.
    Integer arguments of a variadic function are 64-bit words, as the ABI
    passes them; [va_arg] narrows.  vprintfmt is generic in the state behind
    its putch, with putchar and sprintf_putch as the two uses. *)
From S2P Require Import Prelude.
From Stdlib Require Import Ascii.
Local Open Scope Z_scope.

(** ** Outcomes *)
Inductive res (A : Type) := Ok (a : A) | UB | NoFuel.
Arguments Ok {A} a. Arguments UB {A}. Arguments NoFuel {A}.
#[export] Instance res_ret : MRet res := fun A a => Ok a.
#[export] Instance res_bind : MBind res := fun A B k c =>
  match c with Ok a => k a | UB => UB | NoFuel => NoFuel end.

Definition INT_MIN : Z := - 2^31.
Definition INT_MAX : Z := 2^31 - 1.
(** Signed arithmetic: overflow is undefined. *)
Definition chk_int (x : Z) : res Z := if (INT_MIN <=? x) && (x <=? INT_MAX) then Ok x else UB.
Definition chk_long (x : Z) : res Z := if (- 2^63 <=? x) && (x <? 2^63) then Ok x else UB.

(** Characters are their codes; char is signed. *)
Definition asc (c : ascii) : Z := Z.of_N (N_of_ascii c).
Definition schar (b : Z) : Z := sext 8 b.

(** ** Memory *)
Notation mem := (gmap Z Z).
Definition load (m : mem) (a : Z) : res Z := match m !! a with Some b => Ok b | None => UB end.
Definition store (m : mem) (a v : Z) : res mem :=
  match m !! a with Some _ => Ok (<[a := v mod 256]> m) | None => UB end.

(** An object of [k] bytes, its bytes in the order of their addresses. *)
Fixpoint load_bytes (m : mem) (a : Z) (k : nat) : res (list Z) :=
  match k with
  | O => Ok []
  | S k => b ← load m a; bs ← load_bytes m (a + 1) k; Ok (b :: bs)
  end.
Fixpoint store_bytes (m : mem) (a : Z) (bs : list Z) : res mem :=
  match bs with
  | [] => Ok m
  | b :: bs => m ← store m a b; store_bytes m (a + 1) bs
  end.

(** The bytes of a word, the low one first. *)
Fixpoint le_bytes (k : nat) (w : Z) : list Z :=
  match k with O => [] | S k => w mod 256 :: le_bytes k (w / 256) end.

(** ** memcpy, memset *)

(** [while (d < end) *d++ = *s++] on objects of [k] bytes. *)
Fixpoint copy_loop (n : nat) (k : nat) (d s end_ : Z) (m : mem) : res mem :=
  match n with
  | O => NoFuel
  | S n =>
      if d <? end_ then
        v ← load_bytes m s k;
        m ← store_bytes m d v;
        copy_loop n k (d + Z.of_nat k) (s + Z.of_nat k) end_ m
      else Ok m
  end.
Definition memcpy (dest src len : Z) (m : mem) : res (Z * mem) :=
  let fuel := S (Z.to_nat len) in
  m ← (if Z.land (Z.lor (Z.lor dest src) len) (8 - 1) =? 0
       then copy_loop fuel 8 dest src (dest + len) m
       else copy_loop fuel 1 dest src (dest + len) m);
  Ok (dest, m).

Fixpoint set_loop (n : nat) (v : list Z) (d end_ : Z) (m : mem) : res mem :=
  match n with
  | O => NoFuel
  | S n =>
      if d <? end_ then
        m ← store_bytes m d v;
        set_loop n v (d + Z.of_nat (length v)) end_ m
      else Ok m
  end.
Definition memset_word (byte : Z) : Z :=
  let word := Z.land byte 0xFF in
  let word := Z.lor word (w64 (Z.shiftl word 8)) in
  let word := Z.lor word (w64 (Z.shiftl word 16)) in
  Z.lor word (w64 (Z.shiftl (w64 (Z.shiftl word 16)) 16)).
Definition memset (dest byte len : Z) (m : mem) : res (Z * mem) :=
  let fuel := S (Z.to_nat len) in
  m ← (if Z.land (Z.lor dest len) (8 - 1) =? 0
       then set_loop fuel (le_bytes 8 (memset_word byte)) dest (dest + len) m
       else set_loop fuel [byte mod 256] dest (dest + len) m);
  Ok (dest, m).

(** ** Strings *)
Fixpoint strlen_loop (n : nat) (m : mem) (p : Z) : res Z :=
  match n with
  | O => NoFuel
  | S n => c ← load m p; if c =? 0 then Ok p else strlen_loop n m (p + 1)
  end.
Definition strlen (fuel : nat) (m : mem) (s : Z) : res Z :=
  p ← strlen_loop fuel m s; Ok (p - s).

Fixpoint strnlen_loop (fuel : nat) (ld : Z -> res Z) (p n : Z) : res Z :=
  match fuel with
  | O => NoFuel
  | S fuel =>
      if n =? 0 then Ok p
      else c ← ld p; if c =? 0 then Ok p else strnlen_loop fuel ld (p + 1) (w64 (n - 1))
  end.
Definition strnlen (fuel : nat) (ld : Z -> res Z) (s n : Z) : res Z :=
  p ← strnlen_loop fuel ld s n; Ok (p - s).

Fixpoint strcmp (fuel : nat) (m : mem) (s1 s2 : Z) : res Z :=
  match fuel with
  | O => NoFuel
  | S fuel =>
      c1 ← load m s1;
      c2 ← load m s2;
      if negb (c1 =? 0) && (c1 =? c2) then strcmp fuel m (s1 + 1) (s2 + 1) else Ok (c1 - c2)
  end.

Fixpoint strcpy_loop (fuel : nat) (d src : Z) (m : mem) : res mem :=
  match fuel with
  | O => NoFuel
  | S fuel =>
      c ← load m src;
      m ← store m d c;
      if c =? 0 then Ok m else strcpy_loop fuel (d + 1) (src + 1) m
  end.
Definition strcpy (fuel : nat) (dest src : Z) (m : mem) : res (Z * mem) :=
  m ← strcpy_loop fuel dest src m; Ok (dest, m).

(** *** atol *)
Fixpoint atol_spaces (fuel : nat) (m : mem) (str : Z) : res Z :=
  match fuel with
  | O => NoFuel
  | S fuel => c ← load m str; if c =? asc " " then atol_spaces fuel m (str + 1) else Ok str
  end.
Fixpoint atol_digits (fuel : nat) (m : mem) (str r : Z) : res Z :=
  match fuel with
  | O => NoFuel
  | S fuel =>
      c ← load m str;
      if c =? 0 then Ok r
      else
        r ← chk_long (r * 10);
        r ← chk_long (r + (schar c - asc "0"));
        atol_digits fuel m (str + 1) r
  end.
Definition atol (fuel : nat) (m : mem) (str : Z) : res Z :=
  str ← atol_spaces fuel m str;
  c ← load m str;
  let sign := (c =? asc "-") in
  let str := if (c =? asc "-") || (c =? asc "+") then str + 1 else str in
  r ← atol_digits fuel m str 0;
  if sign then chk_long (- r) else Ok r.

(** ** Formatted output *)

(** va_list: the words not yet taken. *)
Definition va_arg (ap : list Z) : res (Z * list Z) :=
  match ap with [] => UB | a :: ap => Ok (a, ap) end.
Definition getuint (ap : list Z) (lflag : Z) : res (Z * list Z) :=
  '(a, ap) ← va_arg ap;
  Ok (if 2 <=? lflag then w64 a else if negb (lflag =? 0) then w64 a else w32 a, ap).
Definition getint (ap : list Z) (lflag : Z) : res (Z * list Z) :=
  '(a, ap) ← va_arg ap;
  Ok (if 2 <=? lflag then s64 a else if negb (lflag =? 0) then s64 a else s32 a, ap).

(** The digits left in digs, the low one first; the array has 64 elements. *)
Fixpoint printnum_digs (n : nat) (num base : Z) : res (list Z) :=
  match n with
  | O => UB
  | S n =>
      if num <? base then Ok [num mod base]
      else ds ← printnum_digs n (num / base) base; Ok (num mod base :: ds)
  end.
Definition digit_char (d : Z) : Z := w32 (d + (if 10 <=? d then asc "a" - 10 else asc "0")).

(** The flags of a directive. *)
Record flags := Flags { padc : Z; width : Z; precision : Z; lflag : Z; altflag : Z }.
Definition flags0 : flags := Flags (asc " ") (-1) (-1) 0 0.
Definition set_padc (c : Z) (f : flags) := Flags c (width f) (precision f) (lflag f) (altflag f).
Definition set_width (w : Z) (f : flags) := Flags (padc f) w (precision f) (lflag f) (altflag f).
Definition process_precision (p : Z) (f : flags) : flags :=
  if width f <? 0 then Flags (padc f) p (-1) (lflag f) (altflag f)
  else Flags (padc f) (width f) p (lflag f) (altflag f).
Definition is_digit (c : Z) : bool := (asc "0" <=? c) && (c <=? asc "9").

Section Vprintfmt.
Context {St : Type}.
(** putch with its putdat, the memory as the loop sees it, the literal the
    code prints for a null pointer, and the fuel of each loop. *)
Variable putch : Z -> St -> res St.
Variable ld : St -> Z -> res Z.
Variable null_literal : Z.
Variable fuel : nat.

Fixpoint put_times (n : nat) (c : Z) (s : St) : res St :=
  match n with O => Ok s | S n => s ← putch c s; put_times n c s end.
Fixpoint put_list (cs : list Z) (s : St) : res St :=
  match cs with [] => Ok s | c :: cs => s ← putch c s; put_list cs s end.

Definition printnum (num base wid pad : Z) (s : St) : res St :=
  digs ← printnum_digs 64 num base;
  let pos := Z.of_nat (length digs) in
  if wid =? INT_MIN then UB
  else
    s ← put_times (Z.to_nat (wid - pos)) pad s;
    put_list (map digit_char (rev digs)) s.

(** The digits of a width; [ch] has been read, [fmt] is behind it. *)
Fixpoint width_digits (n : nat) (prec ch fmt : Z) (s : St) : res (Z * Z) :=
  match n with
  | O => NoFuel
  | S n =>
      x ← chk_int (prec * 10);
      x ← chk_int (x + ch);
      let prec := x - asc "0" in
      c ← ld s fmt;
      let ch := schar c in
      if is_digit ch then width_digits n prec ch (fmt + 1) s else Ok (prec, fmt)
  end.

(** The labels reswitch and process_precision: flags up to the letter of the
    conversion, returned with the pointer behind it. *)
Fixpoint reswitch (n : nat) (fmt : Z) (f : flags) (ap : list Z) (s : St)
    : res (Z * Z * flags * list Z) :=
  match n with
  | O => NoFuel
  | S n =>
      ch ← ld s fmt;
      let fmt := fmt + 1 in
      if ch =? asc "-" then reswitch n fmt (set_padc (asc "-") f) ap s
      else if ch =? asc "0" then reswitch n fmt (set_padc (asc "0") f) ap s
      else if is_digit ch then
        '(prec, fmt) ← width_digits fuel 0 ch fmt s;
        reswitch n fmt (process_precision prec f) ap s
      else if ch =? asc "*" then
        '(a, ap) ← va_arg ap;
        reswitch n fmt (process_precision (s32 a) f) ap s
      else if ch =? asc "." then
        reswitch n fmt (if width f <? 0 then set_width 0 f else f) ap s
      else if ch =? asc "#" then
        reswitch n fmt (Flags (padc f) (width f) (precision f) (lflag f) 1) ap s
      else if ch =? asc "l" then
        reswitch n fmt (Flags (padc f) (width f) (precision f) (lflag f + 1) (altflag f)) ap s
      else Ok (ch, fmt, f, ap)
  end.

(** The characters of %s: the loop reads a character before it looks at the
    precision.  The width left is returned. *)
Fixpoint put_string (n : nat) (p prec wid : Z) (s : St) : res (Z * St) :=
  match n with
  | O => NoFuel
  | S n =>
      ch ← ld s p;
      if ch =? 0 then Ok (wid, s)
      else if prec <? 0 then s ← putch (schar ch) s; put_string n (p + 1) prec (wid - 1) s
      else if 0 <=? prec - 1 then s ← putch (schar ch) s; put_string n (p + 1) (prec - 1) (wid - 1) s
      else Ok (wid, s)
  end.
Definition print_string (p : Z) (f : flags) (s : St) : res St :=
  let p := if p =? 0 then null_literal else p in
  '(wid, s) ← (if (0 <? width f) && negb (padc f =? asc "-") then
                 len ← strnlen fuel (ld s) p (w64 (precision f));
                 let wid := s32 (w64 (width f - len)) in
                 s ← put_times (Z.to_nat wid) (padc f) s;
                 Ok (Z.min wid 0, s)
               else Ok (width f, s));
  '(wid, s) ← put_string fuel p (precision f) wid s;
  put_times (Z.to_nat wid) (asc " ") s.

Definition signed_number (num base : Z) (f : flags) (s : St) : res St :=
  printnum num base (width f) (padc f) s.
Definition unsigned_number (base lflag : Z) (f : flags) (ap : list Z) (s : St)
    : res (list Z * St) :=
  '(num, ap) ← getuint ap lflag;
  s ← signed_number num base f s;
  Ok (ap, s).

(** The cases of the conversion letter: the next position of fmt, the
    arguments left and the state. *)
Definition conversion (ch fmt last_fmt : Z) (f : flags) (ap : list Z) (s : St)
    : res (Z * list Z * St) :=
  if ch =? asc "c" then
    '(a, ap) ← va_arg ap;
    s ← putch (s32 a) s;
    Ok (fmt, ap, s)
  else if ch =? asc "s" then
    '(p, ap) ← va_arg ap;
    s ← print_string (w64 p) f s;
    Ok (fmt, ap, s)
  else if ch =? asc "d" then
    '(num, ap) ← getint ap (lflag f);
    if num <? 0 then
      s ← putch (asc "-") s;
      num ← chk_long (- num);
      s ← signed_number (w64 num) 10 f s;
      Ok (fmt, ap, s)
    else s ← signed_number (w64 num) 10 f s; Ok (fmt, ap, s)
  else if ch =? asc "u" then '(ap, s) ← unsigned_number 10 (lflag f) f ap s; Ok (fmt, ap, s)
  else if ch =? asc "o" then '(ap, s) ← unsigned_number 8 (lflag f) f ap s; Ok (fmt, ap, s)
  else if ch =? asc "p" then
    s ← putch (asc "0") s;
    s ← putch (asc "x") s;
    '(ap, s) ← unsigned_number 16 1 f ap s;
    Ok (fmt, ap, s)
  else if ch =? asc "x" then '(ap, s) ← unsigned_number 16 (lflag f) f ap s; Ok (fmt, ap, s)
  else if ch =? asc "%" then s ← putch ch s; Ok (fmt, ap, s)
  else s ← putch (asc "%") s; Ok (last_fmt, ap, s).

Fixpoint vprintfmt_loop (n : nat) (fmt : Z) (ap : list Z) (s : St) : res St :=
  match n with
  | O => NoFuel
  | S n =>
      ch ← ld s fmt;
      if ch =? asc "%" then
        let fmt := fmt + 1 in
        '(ch, fmt', f, ap) ← reswitch fuel fmt flags0 ap s;
        '(fmt, ap, s) ← conversion ch fmt' fmt f ap s;
        vprintfmt_loop n fmt ap s
      else if ch =? 0 then Ok s
      else s ← putch ch s; vprintfmt_loop n (fmt + 1) ap s
  end.
Definition vprintfmt (fmt : Z) (ap : list Z) (s : St) : res St := vprintfmt_loop fuel fmt ap s.
End Vprintfmt.

(** *** sprintf: putdat is the address of the variable [str]. *)
Definition sprintf_putch (ch : Z) (s : mem * Z) : res (mem * Z) :=
  let '(m, pstr) := s in m ← store m pstr ch; Ok (m, pstr + 1).
Definition sprintf (null_literal : Z) (fuel : nat) (str fmt : Z) (ap : list Z) (m : mem)
    : res (Z * mem) :=
  '(m, p) ← vprintfmt sprintf_putch (fun s a => load (fst s) a) null_literal fuel fmt ap (m, str);
  m ← store m p 0;
  Ok (s32 (p - str), m).

(** ** The host interface and the start-up code *)

(** The static objects of the program and of the host: magic_mem is the
    array of the call of syscall in progress, [console] what the host has
    written. *)
Record machine := Machine {
  mm : mem;
  tohost : Z;
  fromhost : Z;
  magic_mem : list Z;
  buflen : Z;
  counters : list Z;
  counter_names : list Z;
  console : list Z }.
Definition set_mm (m : mem) (s : machine) : machine :=
  Machine m (tohost s) (fromhost s) (magic_mem s) (buflen s) (counters s) (counter_names s) (console s).
Definition set_tohost (v : Z) (s : machine) : machine :=
  Machine (mm s) v (fromhost s) (magic_mem s) (buflen s) (counters s) (counter_names s) (console s).
Definition set_fromhost (v : Z) (s : machine) : machine :=
  Machine (mm s) (tohost s) v (magic_mem s) (buflen s) (counters s) (counter_names s) (console s).
Definition set_magic (v : list Z) (s : machine) : machine :=
  Machine (mm s) (tohost s) (fromhost s) v (buflen s) (counters s) (counter_names s) (console s).
Definition set_buflen (n : Z) (s : machine) : machine :=
  Machine (mm s) (tohost s) (fromhost s) (magic_mem s) n (counters s) (counter_names s) (console s).
Definition set_counters (cs ns : list Z) (s : machine) : machine :=
  Machine (mm s) (tohost s) (fromhost s) (magic_mem s) (buflen s) cs ns (console s).

Definition SYS_write : Z := 64.
Definition NUM_COUNTERS : Z := 2.
(** SIGABRT of sys/signal.h. *)
Definition SIGABRT : Z := 6.

Section Htif.
(** What the host does between two reads of fromhost, and the addresses the
    linker gives to the objects of syscalls.c: magic_mem, the buffer of
    putchar, the string of printhex and the literals. *)
Variable host : machine -> machine.
Variables magic_addr putchar_buf hex_str null_literal name_mcycle name_minstret : Z.
Variable fuel : nat.

(** [while (fromhost == 0) ;] *)
Fixpoint wait_fromhost (n : nat) (s : machine) : res machine :=
  match n with
  | O => NoFuel
  | S n => let s := host s in if fromhost s =? 0 then wait_fromhost n s else Ok s
  end.
Definition syscall (which arg0 arg1 arg2 : Z) (s : machine) : res (Z * machine) :=
  let s := set_magic ([which; arg0; arg1; arg2] ++ drop 4 (magic_mem s)) s in
  let s := set_tohost magic_addr s in
  s ← wait_fromhost fuel s;
  let s := set_fromhost 0 s in
  match magic_mem s with r :: _ => Ok (r, s) | [] => UB end.

(** The store is the last step: the program then loops for ever. *)
Definition tohost_exit (code : Z) (s : machine) : machine :=
  set_tohost (Z.lor (w64 (Z.shiftl code 1)) 1) s.
Definition handle_trap (cause epc : Z) (s : machine) : machine := tohost_exit 1337 s.
Definition exit (code : Z) (s : machine) : machine := tohost_exit (w64 code) s.
Definition abort (s : machine) : machine := exit (128 + SIGABRT) s.

Definition printstr (p : Z) (s : machine) : res machine :=
  n ← strlen fuel (mm s) p;
  '(_, s) ← syscall SYS_write 1 p n s;
  Ok s.

Definition putchar (ch : Z) (s : machine) : res machine :=
  if (buflen s <? 0) || (64 <=? buflen s) then UB
  else
    m ← store (mm s) (putchar_buf + buflen s) ch;
    let s := set_buflen (buflen s + 1) (set_mm m s) in
    if (ch =? 10) || (buflen s =? 64) then
      '(_, s) ← syscall SYS_write 1 putchar_buf (buflen s) s;
      Ok (set_buflen 0 s)
    else Ok s.

Definition printf (fmt : Z) (ap : list Z) (s : machine) : res (Z * machine) :=
  s ← vprintfmt putchar (fun s a => load (mm s) a) null_literal fuel fmt ap s;
  Ok (0, s).

(** The loop of printhex, for [i], and its end. *)
Definition hex_digit (x : Z) : Z :=
  Z.land x 0xF + (if Z.land x 0xF <? 10 then asc "0" else asc "a" - 10).
Fixpoint printhex_loop (n : nat) (i x : Z) (m : mem) : res mem :=
  match n with
  | O => Ok m
  | S n => m ← store m (hex_str + (15 - i)) (hex_digit x); printhex_loop n (i + 1) (Z.shiftr x 4) m
  end.
Definition printhex (x : Z) (s : machine) : res machine :=
  m ← printhex_loop 16 0 x (mm s);
  m ← store m (hex_str + 16) 0;
  printstr hex_str (set_mm m s).

(** READ_CTR: [csr] is what read_csr gives; past the counters it loops. *)
Definition READ_CTR (enable i name csr : Z) (s : machine) : res machine :=
  if NUM_COUNTERS <=? i then NoFuel
  else
    c ← match zlookup (counters s) i with Some c => Ok c | None => UB end;
    let csr' := if enable =? 0 then w64 (csr - c) else csr in
    let names := if enable =? 0 then zupdate (counter_names s) i name else counter_names s in
    Ok (set_counters (zupdate (counters s) i csr') names s).
Definition setStats (enable mcycle minstret : Z) (s : machine) : res machine :=
  s ← READ_CTR enable 0 name_mcycle mcycle s;
  READ_CTR enable 1 name_minstret minstret s.

(** The loop of _init over the counters; [pbuf] is the end of the text. *)
Variables stats_buf stats_fmt : Z.
Fixpoint report_loop (n : nat) (i pbuf : Z) (s : machine) : res (Z * machine) :=
  match n with
  | O => Ok (pbuf, s)
  | S n =>
      match zlookup (counters s) i, zlookup (counter_names s) i with
      | Some c, Some name =>
          if c =? 0 then report_loop n (i + 1) pbuf s
          else
            '(k, m) ← sprintf null_literal fuel pbuf stats_fmt [name; c] (mm s);
            report_loop n (i + 1) (pbuf + k) (set_mm m s)
      | _, _ => UB
      end
  end.
Definition _init (main : machine -> res (Z * machine)) (s : machine) : res machine :=
  '(ret, s) ← main s;
  '(pbuf, s) ← report_loop (Z.to_nat NUM_COUNTERS) 0 stats_buf s;
  s ← (if negb (pbuf =? stats_buf) then printstr stats_buf s else Ok s);
  Ok (exit ret s).
End Htif.

(** ** util.h *)

(** The unrolled loop of verify: [i] steps by 2 up to n/2*2. *)
Fixpoint verify_loop (k : nat) (i : Z) (test ver : list Z) : res (option Z) :=
  match k with
  | O => Ok None
  | S k =>
      match zlookup test i, zlookup test (i + 1), zlookup ver i, zlookup ver (i + 1) with
      | Some t0, Some t1, Some v0, Some v1 =>
          if negb (t0 =? v0) then Ok (Some (i + 1))
          else if negb (t1 =? v1) then Ok (Some (i + 2))
          else verify_loop k (i + 2) test ver
      | _, _, _, _ => UB
      end
  end.
Definition verify (n : Z) (test ver : list Z) : res Z :=
  r ← verify_loop (Z.to_nat (Z.quot n 2)) 0 test ver;
  match r with
  | Some x => Ok x
  | None =>
      if negb (Z.rem n 2 =? 0) then
        match zlookup test (n - 1), zlookup ver (n - 1) with
        | Some t, Some v => Ok (if negb (t =? v) then n else 0)
        | _, _ => UB
        end
      else Ok 0
  end.

(** verifyDouble, with the machine's comparison of doubles. *)
Section Double.
Context {D : Type}.
Variable eqd : D -> D -> bool.
Fixpoint verifyDouble_loop (k : nat) (i : Z) (test ver : list D) : res (option Z) :=
  match k with
  | O => Ok None
  | S k =>
      match zlookup test i, zlookup test (i + 1), zlookup ver i, zlookup ver (i + 1) with
      | Some t0, Some t1, Some v0, Some v1 =>
          let eq1 := eqd t0 v0 in
          let eq2 := eqd t1 v1 in
          if negb (eq1 && eq2) then Ok (Some (i + 1 + b2z eq1))
          else verifyDouble_loop k (i + 2) test ver
      | _, _, _, _ => UB
      end
  end.
Definition verifyDouble (n : Z) (test ver : list D) : res Z :=
  r ← verifyDouble_loop (Z.to_nat (Z.quot n 2)) 0 test ver;
  match r with
  | Some x => Ok x
  | None =>
      if negb (Z.rem n 2 =? 0) then
        match zlookup test (n - 1), zlookup ver (n - 1) with
        | Some t, Some v => Ok (if negb (eqd t v) then n else 0)
        | _, _ => UB
        end
      else Ok 0
  end.
End Double.

Definition lfsr (x : Z) : Z :=
  let bit := Z.land (Z.lxor x (Z.shiftr x 1)) 1 in
  Z.lor (Z.shiftr x 1) (w64 (Z.shiftl bit 62)).

(** insn_len: 4 or 2 bytes, by the low bits of the halfword at [pc]. *)
Definition insn_len (half : Z) : Z := if negb (Z.land half 3 =? 0) then 4 else 2.
