(* ===== verification/RuntimeMem.v ===== *)
(** Memory and strings of the bare-metal runtime: memcpy, memset, strcmp,
    strcpy, verify, and the lemmas on byte strings in memory the formatted
    output uses. *)
From S2P Require Import Prelude Runtime.
Local Open Scope Z_scope.

(** ** Strings of bytes in memory *)
Definition bytes_at (m : mem) (p : Z) (l : list Z) : Prop :=
  forall i c, l !! i = Some c -> m !! (p + Z.of_nat i) = Some c.
Definition in_mem (m : mem) (p n : Z) : Prop := forall a, p <= a < p + n -> is_Some (m !! a).
Definition is_byte (c : Z) : Prop := 0 <= c < 256.
(** A C string: no zero before the terminator. *)
Definition cstring (m : mem) (p : Z) (l : list Z) : Prop :=
  bytes_at m p (l ++ [0]) /\ Forall (fun c => c <> 0) l.
Fixpoint write_bytes (p : Z) (l : list Z) (m : mem) : mem :=
  match l with [] => m | c :: l => write_bytes (p + 1) l (<[p := c]> m) end.

Lemma bytes_at_nil m p : bytes_at m p [].
Proof. intros i c H. by rewrite lookup_nil in H. Qed.
Lemma bytes_at_cons m p c l : bytes_at m p (c :: l) <-> m !! p = Some c /\ bytes_at m (p + 1) l.
Proof.
  split.
  - intros H. split; [specialize (H 0%nat c eq_refl); by rewrite Z.add_0_r in H|].
    intros i x Hi. specialize (H (S i) x Hi). by replace (p + 1 + Z.of_nat i) with (p + Z.of_nat (S i)) by lia.
  - intros [H0 H] [|i] x Hi; cbn in Hi; [injection Hi as ->; by rewrite Z.add_0_r|].
    specialize (H i x Hi). by replace (p + Z.of_nat (S i)) with (p + 1 + Z.of_nat i) by lia.
Qed.
Lemma bytes_at_app m p l1 l2 :
  bytes_at m p (l1 ++ l2) <-> bytes_at m p l1 /\ bytes_at m (p + Z.of_nat (length l1)) l2.
Proof.
  revert p; induction l1 as [|c l1 IH]; intros p; cbn [app length].
  - rewrite Z.add_0_r. split; [intros H; split; [apply bytes_at_nil|done]|by intros [_ H]].
  - rewrite !bytes_at_cons, IH.
    replace (p + 1 + Z.of_nat (length l1)) with (p + Z.of_nat (S (length l1))) by lia. tauto.
Qed.
Lemma bytes_at_agree m m' p l :
  (forall a, p <= a < p + Z.of_nat (length l) -> m' !! a = m !! a) -> bytes_at m p l -> bytes_at m' p l.
Proof.
  intros H Hb i c Hi. rewrite H; [by apply Hb|]. apply lookup_lt_Some in Hi. lia.
Qed.
Lemma bytes_at_sub m m' p l : m ⊆ m' -> bytes_at m p l -> bytes_at m' p l.
Proof. intros H Hb i c Hi. eapply lookup_weaken; [by apply Hb|done]. Qed.
Lemma bytes_at_in m p l : bytes_at m p l -> in_mem m p (Z.of_nat (length l)).
Proof.
  intros H a Ha. destruct (lookup_lt_is_Some_2 l (Z.to_nat (a - p))) as [c Hc]; [lia|].
  specialize (H _ _ Hc). replace (p + Z.of_nat (Z.to_nat (a - p))) with a in H by lia. by exists c.
Qed.

Lemma lookup_write_out p l m a :
  a < p \/ p + Z.of_nat (length l) <= a -> write_bytes p l m !! a = m !! a.
Proof.
  revert p m; induction l as [|c l IH]; intros p m H; cbn [write_bytes length] in *; [done|].
  rewrite IH by lia. apply lookup_insert_ne. lia.
Qed.
Lemma write_bytes_at p l m : bytes_at (write_bytes p l m) p l.
Proof.
  revert p m; induction l as [|c l IH]; intros p m; cbn [write_bytes]; [apply bytes_at_nil|].
  apply bytes_at_cons. split; [|apply IH]. rewrite lookup_write_out by lia. apply lookup_insert_eq.
Qed.
Lemma write_bytes_app p l1 l2 m :
  write_bytes p (l1 ++ l2) m = write_bytes (p + Z.of_nat (length l1)) l2 (write_bytes p l1 m).
Proof.
  revert p m; induction l1 as [|c l1 IH]; intros p m; cbn [app length write_bytes].
  - by rewrite Z.add_0_r.
  - rewrite IH. f_equal. lia.
Qed.
Lemma write_bytes_dom p l m a : is_Some (m !! a) -> is_Some (write_bytes p l m !! a).
Proof.
  revert p m; induction l as [|c l IH]; intros p m H; cbn [write_bytes]; [done|].
  apply IH. destruct (decide (a = p)) as [->|]; [rewrite lookup_insert_eq; eauto|].
  by rewrite lookup_insert_ne.
Qed.
Lemma write_bytes_in p l m q n : in_mem m q n -> in_mem (write_bytes p l m) q n.
Proof. intros H a Ha. by apply write_bytes_dom, H. Qed.
Lemma write_bytes_agree p l m : bytes_at m p l -> write_bytes p l m = m.
Proof.
  revert p m; induction l as [|c l IH]; intros p m H; cbn [write_bytes]; [done|].
  apply bytes_at_cons in H as [H0 H]. rewrite insert_id by done. by apply IH.
Qed.

Lemma load_ok m a c : m !! a = Some c -> load m a = Ok c.
Proof. unfold load. by intros ->. Qed.
Lemma store_mod m a v : is_Some (m !! a) -> store m a v = Ok (<[a := v mod 256]> m).
Proof. unfold store. by intros [c ->]. Qed.
Lemma store_ok m a v : is_Some (m !! a) -> is_byte v -> store m a v = Ok (<[a := v]> m).
Proof. intros H Hv. rewrite store_mod by done. unfold is_byte in Hv. by rewrite Z.mod_small by lia. Qed.
Lemma load_bytes_ok m p l : bytes_at m p l -> load_bytes m p (length l) = Ok l.
Proof.
  revert p; induction l as [|c l IH]; intros p H; [done|]. apply bytes_at_cons in H as [H0 H].
  cbn [length load_bytes]. rewrite (load_ok _ _ _ H0). cbn. by rewrite (IH _ H).
Qed.
Lemma in_mem_cons m p n : in_mem m p (Z.of_nat (S n)) ->
  is_Some (m !! p) /\ forall c, in_mem (<[p := c]> m) (p + 1) (Z.of_nat n).
Proof.
  intros H. split; [apply H; lia|]. intros c a Ha. rewrite lookup_insert_ne by lia. apply H. lia.
Qed.
Lemma store_bytes_ok m p l :
  in_mem m p (Z.of_nat (length l)) -> Forall is_byte l -> store_bytes m p l = Ok (write_bytes p l m).
Proof.
  revert p m; induction l as [|c l IH]; intros p m H Hb; [done|].
  apply Forall_cons in Hb as [Hc Hb]. apply in_mem_cons in H as [H0 H].
  cbn [store_bytes write_bytes]. rewrite store_ok by done. cbn. by apply IH.
Qed.

(** ** memcpy *)

(** The loop, on objects of [k] bytes: a block that does not start inside
    the bytes still to be read is copied, below or above its source. *)
Lemma copy_loop_copies k (Hk : (0 < k)%nat) j : forall n l d s m,
  length l = (j * k)%nat -> bytes_at m s l -> in_mem m d (Z.of_nat (length l)) -> Forall is_byte l ->
  d <= s \/ s + Z.of_nat (length l) <= d -> (j < n)%nat ->
  copy_loop n k d s (d + Z.of_nat (length l)) m = Ok (write_bytes d l m).
Proof.
  induction j as [|j IH]; intros n l d s m Hl Hs Hd Hb Ho Hn; (destruct n as [|n]; [lia|]);
    cbn [copy_loop].
  - destruct l; [|cbn in Hl; lia]. cbn. by rewrite Z.add_0_r, Z.ltb_irrefl.
  - assert (Hlen : length (take k l) = k) by (rewrite length_take; lia).
    destruct (Z.ltb_spec d (d + Z.of_nat (length l))); [|lia].
    assert (Hlt : (length l = k + length (drop k l))%nat) by (rewrite length_drop; lia).
    rewrite <- (take_drop k l) in Hs, Hb, Hl. apply bytes_at_app in Hs as [Hs1 Hs2].
    apply Forall_app in Hb as [Hb1 Hb2]. rewrite length_app, Hlen in Hl. rewrite Hlen in Hs2.
    rewrite <- Hlen at 1. rewrite load_bytes_ok by done. cbn [mbind res_bind].
    rewrite store_bytes_ok by (try done; intros a Ha; apply Hd; lia). cbn [mbind res_bind].
    replace (d + Z.of_nat (length l)) with (d + Z.of_nat k + Z.of_nat (length (drop k l))) by lia.
    rewrite IH; try done; try lia.
    + f_equal. rewrite <- (take_drop k l) at 3. by rewrite write_bytes_app, Hlen.
    + eapply bytes_at_agree; [|exact Hs2]. intros a Ha. apply lookup_write_out. lia.
    + apply write_bytes_in. intros a Ha. apply Hd. lia.
Qed.

Lemma aligned_8 x y z : Z.land (Z.lor (Z.lor x y) z) (8 - 1) = 0 -> z mod 8 = 0.
Proof.
  intros H. change (8 - 1) with (Z.ones 3) in H. change 8 with (2 ^ 3).
  rewrite <- Z.land_ones by lia. rewrite Z.land_lor_distr_l in H. apply Z.lor_eq_0_iff in H. tauto.
Qed.

(** memcpy copies the block, by words or by bytes, and changes nothing else:
    for a destination at or below the source, or wholly above it. *)
Theorem memcpy_copies dest src l m
    (Hsrc : bytes_at m src l) (Hbytes : Forall is_byte l)
    (Hdest : in_mem m dest (Z.of_nat (length l)))
    (Hov : dest <= src \/ src + Z.of_nat (length l) <= dest) :
  memcpy dest src (Z.of_nat (length l)) m = Ok (dest, write_bytes dest l m).
Proof.
  unfold memcpy. rewrite Nat2Z.id. destruct (Z.eqb_spec (Z.land (Z.lor (Z.lor dest src)
    (Z.of_nat (length l))) (8 - 1)) 0) as [Ha|_].
  - apply aligned_8 in Ha. apply Z.mod_divide in Ha as [q Hq]; [|lia].
    rewrite (copy_loop_copies 8 ltac:(lia) (Z.to_nat q)) by (done || lia). done.
  - rewrite (copy_loop_copies 1 ltac:(lia) (length l)) by (done || lia). done.
Qed.

(** ** memset *)
Lemma set_loop_fills v (Hv : Forall is_byte v) (Hk : (0 < length v)%nat) j : forall n d m,
  in_mem m d (Z.of_nat (j * length v)) -> (j < n)%nat ->
  set_loop n v d (d + Z.of_nat (j * length v)) m = Ok (write_bytes d (concat (replicate j v)) m).
Proof.
  induction j as [|j IH]; intros n d m Hd Hn; (destruct n as [|n]; [lia|]); cbn [set_loop].
  - cbn. by rewrite Z.add_0_r, Z.ltb_irrefl.
  - destruct (Z.ltb_spec d (d + Z.of_nat (S j * length v))); [|lia].
    rewrite store_bytes_ok by (try done; intros a Ha; apply Hd; lia). cbn [mbind res_bind].
    replace (d + Z.of_nat (S j * length v)) with (d + Z.of_nat (length v) + Z.of_nat (j * length v)) by lia.
    rewrite IH by (try lia; apply write_bytes_in; intros a Ha; apply Hd; lia).
    cbn [replicate concat]. by rewrite write_bytes_app.
Qed.
Lemma concat_replicate {A} j k (x : A) : concat (replicate j (replicate k x)) = replicate (j * k) x.
Proof. induction j as [|j IH]; [done|]. cbn. by rewrite IH, replicate_add. Qed.

(** The word of memset is its byte eight times. *)
Lemma memset_word_bytes byte : le_bytes 8 (memset_word byte) = replicate 8 (byte mod 256).
Proof.
  unfold memset_word. change 0xFF with (Z.ones 8). rewrite Z.land_ones by lia. change (2^8) with 256.
  pose proof (Z.mod_pos_bound byte 256 ltac:(lia)) as Hb. set (b := byte mod 256) in *. clearbody b.
  assert (H : Forall (fun n => le_bytes 8 (let word := Z.of_nat n in
     let word := Z.lor word (w64 (Z.shiftl word 8)) in
     let word := Z.lor word (w64 (Z.shiftl word 16)) in
     Z.lor word (w64 (Z.shiftl (w64 (Z.shiftl word 16)) 16))) = replicate 8 (Z.of_nat n)) (seq 0 256)).
  { apply (bool_decide_unpack _). by vm_compute. }
  rewrite Forall_forall in H. specialize (H (Z.to_nat b)). cbn zeta in H.
  rewrite Z2Nat.id in H by lia. apply H. apply elem_of_seq. lia.
Qed.

(** memset stores the low byte of its argument in every byte of the block. *)
Theorem memset_fills dest byte len m (Hlen : 0 <= len) (Hdest : in_mem m dest len) :
  memset dest byte len m = Ok (dest, write_bytes dest (replicate (Z.to_nat len) (byte mod 256)) m).
Proof.
  unfold memset. pose proof (Z.mod_pos_bound byte 256 ltac:(lia)) as Hb.
  destruct (Z.eqb_spec (Z.land (Z.lor dest len) (8 - 1)) 0) as [Ha|_].
  - rewrite <- (Z.lor_diag dest) in Ha. apply aligned_8 in Ha. apply Z.mod_divide in Ha as [q Hq]; [|lia].
    rewrite memset_word_bytes. set (v := replicate 8 (byte mod 256)).
    assert (E : len = Z.of_nat (Z.to_nat q * length v)) by (unfold v; rewrite length_replicate; lia).
    rewrite E at 2. rewrite set_loop_fills.
    + cbn [mbind res_bind]. unfold v. rewrite concat_replicate. do 3 f_equal. f_equal. lia.
    + apply Forall_replicate. exact Hb.
    + unfold v. rewrite length_replicate. lia.
    + by rewrite <- E.
    + lia.
  - assert (E : len = Z.of_nat (Z.to_nat len * length [byte mod 256])) by (cbn [length]; lia).
    rewrite E at 2. rewrite set_loop_fills.
    + cbn [mbind res_bind]. change [byte mod 256] with (replicate 1 (byte mod 256)).
      rewrite concat_replicate, Nat.mul_1_r. done.
    + apply Forall_singleton. exact Hb.
    + cbn; lia.
    + by rewrite <- E.
    + lia.
Qed.

(** ** Strings *)
Lemma cstring_cons m p c l : cstring m p (c :: l) <-> m !! p = Some c /\ c <> 0 /\ cstring m (p + 1) l.
Proof. unfold cstring. cbn [app]. rewrite bytes_at_cons, Forall_cons. tauto. Qed.
Lemma cstring_nil m p : cstring m p [] <-> m !! p = Some 0.
Proof.
  unfold cstring. cbn [app]. rewrite bytes_at_cons. split; [tauto|].
  intros H. repeat split; [done|apply bytes_at_nil|constructor].
Qed.
Lemma cstring_sub m m' p l : m ⊆ m' -> cstring m p l -> cstring m' p l.
Proof. intros H [Hb Hn]. split; [by eapply bytes_at_sub|done]. Qed.

Lemma strlen_loop_ok m l : forall fuel p, cstring m p l -> (length l < fuel)%nat ->
  strlen_loop fuel m p = Ok (p + Z.of_nat (length l)).
Proof.
  induction l as [|c l IH]; intros [|fuel] p H Hf; try (cbn in Hf; lia); cbn [strlen_loop].
  - apply cstring_nil in H. rewrite (load_ok _ _ _ H). cbn. f_equal. lia.
  - apply cstring_cons in H as (H0 & Hc & H). rewrite (load_ok _ _ _ H0). cbn [mbind res_bind].
    destruct (Z.eqb_spec c 0); [done|]. rewrite IH by (try done; cbn in Hf; lia).
    f_equal. cbn [length]. lia.
Qed.
Lemma strlen_ok m l fuel p : cstring m p l -> (length l < fuel)%nat ->
  strlen fuel m p = Ok (Z.of_nat (length l)).
Proof. intros H Hf. unfold strlen. rewrite (strlen_loop_ok m l) by done. cbn. f_equal. lia. Qed.

(** strcpy copies the string and its terminator. *)
Theorem strcpy_copies m dest src l fuel
    (Hsrc : cstring m src l) (Hbytes : Forall is_byte l)
    (Hdest : in_mem m dest (Z.of_nat (length l) + 1))
    (Hov : dest <= src \/ src + Z.of_nat (length l) + 1 <= dest)
    (Hfuel : (length l < fuel)%nat) :
  strcpy fuel dest src m = Ok (dest, write_bytes dest (l ++ [0]) m).
Proof.
  unfold strcpy. enough (E : strcpy_loop fuel dest src m = Ok (write_bytes dest (l ++ [0]) m)) by by rewrite E.
  revert fuel m dest src Hsrc Hbytes Hdest Hov Hfuel.
  induction l as [|c l IH]; intros [|fuel] m dest src Hs Hb Hd Hov Hf; try (cbn in Hf; lia); cbn [strcpy_loop].
  - apply cstring_nil in Hs. rewrite (load_ok _ _ _ Hs). cbn [mbind res_bind].
    rewrite store_ok by (try (unfold is_byte; lia); apply Hd; lia). done.
  - apply cstring_cons in Hs as (Hs0 & Hc & Hs). apply Forall_cons in Hb as [Hb0 Hb].
    cbn [length] in *. rewrite (load_ok _ _ _ Hs0). cbn [mbind res_bind].
    rewrite store_ok by (try done; apply Hd; lia). cbn [mbind res_bind].
    destruct (Z.eqb_spec c 0); [done|]. cbn [app write_bytes]. rewrite IH; try done; try lia.
    + destruct Hs as [Hs Hn]. split; [|done]. eapply bytes_at_agree; [|exact Hs].
      rewrite length_app. intros a Ha. cbn in Ha. apply lookup_insert_ne. lia.
    + intros a Ha. rewrite lookup_insert_ne by lia. apply Hd. lia.
Qed.

(** The order of C strings: lexicographic in the unsigned bytes. *)
Fixpoint lex_lt (l1 l2 : list Z) : Prop :=
  match l1, l2 with
  | _, [] => False
  | [], _ :: _ => True
  | c :: l1, d :: l2 => c < d \/ c = d /\ lex_lt l1 l2
  end.

(** strcmp is zero for equal strings and negative, positive as the first
    comes before or after the second. *)
Theorem strcmp_orders m p1 p2 l1 l2 fuel
    (H1 : cstring m p1 l1) (H2 : cstring m p2 l2)
    (Hb1 : Forall is_byte l1) (Hb2 : Forall is_byte l2) (Hfuel : (length l1 < fuel)%nat) :
  exists r, strcmp fuel m p1 p2 = Ok r /\ -255 <= r <= 255 /\
    (r = 0 <-> l1 = l2) /\ (r < 0 <-> lex_lt l1 l2) /\ (0 < r <-> lex_lt l2 l1).
Proof.
  revert fuel p1 p2 l2 H1 H2 Hb1 Hb2 Hfuel.
  induction l1 as [|c l1 IH]; intros [|fuel] p1 p2 l2 H1 H2 Hb1 Hb2 Hf; try (cbn in Hf; lia);
    cbn [strcmp]; destruct l2 as [|d l2];
    rewrite ?cstring_nil, ?cstring_cons in H1; rewrite ?cstring_nil, ?cstring_cons in H2.
  - rewrite (load_ok _ _ _ H1), (load_ok _ _ _ H2). cbn. exists 0. repeat split; lia || done.
  - destruct H2 as (H2 & Hd & _). rewrite (load_ok _ _ _ H1), (load_ok _ _ _ H2). cbn.
    apply Forall_cons in Hb2 as [[] _]. exists (0 - d). repeat split; try lia; done.
  - destruct H1 as (H1 & Hc & _). rewrite (load_ok _ _ _ H1), (load_ok _ _ _ H2). cbn.
    apply Forall_cons in Hb1 as [[] _]. rewrite andb_comm. destruct (Z.eqb_spec c 0); [done|]. cbn.
    exists (c - 0). repeat split; try lia; done.
  - destruct H1 as (H1 & Hc & H1'), H2 as (H2 & Hd & H2').
    rewrite (load_ok _ _ _ H1), (load_ok _ _ _ H2). cbn [mbind res_bind].
    apply Forall_cons in Hb1 as [[] Hb1]. apply Forall_cons in Hb2 as [[] Hb2].
    destruct (Z.eqb_spec c 0); [done|]. cbn [negb andb]. destruct (Z.eqb_spec c d) as [->|Hcd].
    + destruct (IH fuel (p1 + 1) (p2 + 1) l2) as (r & -> & Hr & Heq & Hlt & Hgt); try done; [cbn in Hf; lia|].
      assert (X : forall P, (d < d \/ d = d /\ P) <-> P) by (split; [intros [|[]]; [lia|done]|auto]).
      exists r. cbn [lex_lt]. rewrite !X. repeat split; try lia; try tauto.
      * intros E. f_equal. by apply Heq.
      * intros [= E]. by apply Heq.
    + exists (c - d). cbn [lex_lt]. repeat split; try lia; try tauto. intros [=]. lia.
Qed.

(** ** util.h *)

(** One more than the index of the first difference, or 0. *)
Fixpoint first_mismatch {D} (eqd : D -> D -> bool) (i : Z) (test ver : list D) : Z :=
  match test, ver with
  | t :: test, v :: ver => if eqd t v then first_mismatch eqd (i + 1) test ver else i + 1
  | _, _ => 0
  end.

Lemma zlookup_mid {A} (p : list A) x l n : Z.of_nat (length p) = n -> zlookup (p ++ x :: l) n = Some x.
Proof.
  intros <-. unfold zlookup. rewrite (proj2 (Z.leb_le _ _)), Nat2Z.id by lia.
  by rewrite lookup_app_r, Nat.sub_diag by lia.
Qed.
Lemma zlookup_mid1 {A} (p : list A) x y l n : Z.of_nat (length p) = n ->
  zlookup (p ++ x :: y :: l) (n + 1) = Some y.
Proof.
  intros H. rewrite cons_middle, app_assoc. apply zlookup_mid. rewrite length_app. cbn. lia.
Qed.
Lemma first_mismatch_app {D} (eqd : D -> D -> bool) ts : forall i vs rt rv, 0 <= i -> length ts = length vs ->
  first_mismatch eqd i (ts ++ rt) (vs ++ rv) =
    let r := first_mismatch eqd i ts vs in
    if r =? 0 then first_mismatch eqd (i + Z.of_nat (length ts)) rt rv else r.
Proof.
  induction ts as [|t ts IH]; intros i [|v vs] rt rv Hi Hl; cbn in *; try lia.
  - by rewrite Z.add_0_r.
  - destruct (eqd t v).
    + rewrite IH by lia. cbn zeta. by replace (i + 1 + Z.of_nat (length ts)) with (i + Z.of_nat (S (length ts))) by lia.
    + destruct (Z.eqb_spec (i + 1) 0); [lia|done].
Qed.

Lemma verifyDouble_loop_spec {D} (eqd : D -> D -> bool) k : forall i (pt pv ts vs rt rv : list D),
  Z.of_nat (length pt) = i -> length pt = length pv -> length ts = length vs -> length ts = (2 * k)%nat ->
  verifyDouble_loop eqd k i (pt ++ ts ++ rt) (pv ++ vs ++ rv) =
  let r := first_mismatch eqd i ts vs in Ok (if r =? 0 then None else Some r).
Proof.
  induction k as [|k IH]; intros i pt pv ts vs rt rv Hi Hp Hl Hk; cbn [verifyDouble_loop].
  - destruct ts; [done|cbn in Hk; lia].
  - destruct ts as [|t0 [|t1 ts]]; [cbn in Hk; lia..|].
    destruct vs as [|v0 [|v1 vs]]; [cbn in Hl; lia..|]. cbn [app].
    rewrite (zlookup_mid pt _ _ i), (zlookup_mid pv _ _ i), !zlookup_mid1 by lia. cbn [first_mismatch].
    destruct (eqd t0 v0); cbn [andb negb b2z].
    + destruct (eqd t1 v1); cbn [negb].
      * replace (pt ++ t0 :: t1 :: ts ++ rt) with ((pt ++ [t0; t1]) ++ ts ++ rt) by by rewrite <- app_assoc.
        replace (pv ++ v0 :: v1 :: vs ++ rv) with ((pv ++ [v0; v1]) ++ vs ++ rv) by by rewrite <- app_assoc.
        cbn in Hl, Hk. rewrite IH by (rewrite ?length_app; cbn; lia).
        replace (i + 1 + 1) with (i + 2) by lia. done.
      * cbn zeta. destruct (Z.eqb_spec (i + 1 + 1) 0); [lia|]. cbn [b2z]. do 2 f_equal; lia.
    + cbn zeta. destruct (Z.eqb_spec (i + 1) 0); [lia|]. do 2 f_equal; lia.
Qed.

(** Both functions, unrolled, give the first difference. *)
Lemma verifyDouble_spec {D} (eqd : D -> D -> bool) (test ver : list D)
    (Hlen : length test = length ver) :
  verifyDouble eqd (Z.of_nat (length test)) test ver = Ok (first_mismatch eqd 0 test ver).
Proof.
  unfold verifyDouble. remember (length test) as n eqn:Hn.
  rewrite Z.quot_div_nonneg, Z.rem_mod_nonneg by lia.
  assert (Hk : Z.to_nat (Z.of_nat n / 2) = (n / 2)%nat) by (change 2 with (Z.of_nat 2); rewrite <- Nat2Z.inj_div; lia). rewrite Hk.
  pose proof (Nat.div_mod_eq n 2) as Hdm. pose proof (Nat.mod_upper_bound n 2 ltac:(lia)) as Hm.
  change (Z.of_nat n mod 2) with (Z.of_nat n mod Z.of_nat 2). rewrite <- Nat2Z.inj_mod.
  set (q := (n / 2)%nat) in *.
  pose proof (verifyDouble_loop_spec eqd q 0 [] [] (take (2 * q) test) (take (2 * q) ver)
    (drop (2 * q) test) (drop (2 * q) ver)) as E.
  cbn [app] in E. rewrite !take_drop in E. rewrite E by (rewrite ?length_take; cbn [length]; lia). clear E.
  assert (E : first_mismatch eqd 0 test ver = first_mismatch eqd 0
    (take (2 * q) test ++ drop (2 * q) test) (take (2 * q) ver ++ drop (2 * q) ver)) by by rewrite !take_drop.
  rewrite E, first_mismatch_app by (rewrite ?length_take; lia). cbn [mbind res_bind]. cbn zeta.
  destruct (Z.eqb_spec (first_mismatch eqd 0 (take (2 * q) test) (take (2 * q) ver)) 0) as [_|_]; [|done].
  rewrite length_take, Nat.min_l by lia. cbn [Z.add].
  destruct (Z.eqb_spec (Z.of_nat (n mod 2)) 0) as [H0|H1]; cbn [negb].
  - rewrite !drop_ge by lia. done.
  - destruct (lookup_lt_is_Some_2 test (2 * q)) as [t Ht]; [lia|].
    destruct (lookup_lt_is_Some_2 ver (2 * q)) as [v Hv]; [lia|].
    rewrite (drop_S _ _ _ Ht), (drop_S _ _ _ Hv), !drop_ge by lia.
    assert (Hz : forall (l : list D) x, l !! (2 * q)%nat = Some x -> zlookup l (Z.of_nat n - 1) = Some x).
    { intros l x Hx. unfold zlookup. rewrite (proj2 (Z.leb_le _ _)) by lia.
      by replace (Z.to_nat (Z.of_nat n - 1)) with (2 * q)%nat by lia. }
    rewrite (Hz _ _ Ht), (Hz _ _ Hv). cbn [first_mismatch].
    destruct (eqd t v); cbn [negb]; f_equal; lia.
Qed.
Lemma verify_loop_double k : forall i test ver, verify_loop k i test ver = verifyDouble_loop Z.eqb k i test ver.
Proof.
  induction k as [|k IH]; intros i test ver; [done|]. cbn [verify_loop verifyDouble_loop].
  destruct (zlookup test i), (zlookup test (i + 1)), (zlookup ver i), (zlookup ver (i + 1)); try done.
  destruct (_ =? _); cbn [negb andb b2z]; [|by rewrite Z.add_0_r]. destruct (_ =? _); [apply IH|].
  cbn. do 2 f_equal. lia.
Qed.
Theorem verify_spec test ver (Hlen : length test = length ver) :
  verify (Z.of_nat (length test)) test ver = Ok (first_mismatch Z.eqb 0 test ver).
Proof. rewrite <- verifyDouble_spec by done. unfold verify. by rewrite verify_loop_double. Qed.

(** lfsr permutes the 63-bit values. *)
Lemma lfsr_bits x i : 0 <= x < 2^63 -> 0 <= i ->
  Z.testbit (lfsr x) i = if i =? 62 then xorb (Z.testbit x 0) (Z.testbit x 1) else Z.testbit x (i + 1).
Proof.
  intros Hx Hi. unfold lfsr.
  set (y := Z.lxor x (Z.shiftr x 1)).
  assert (Hy : Z.land y 1 = y mod 2^1) by exact (Z.land_ones y 1 ltac:(lia)).
  pose proof (Z.mod_pos_bound y (2^1) ltac:(lia)) as Hy1.
  assert (w64 (Z.shiftl (Z.land y 1) 62) = Z.shiftl (Z.land y 1) 62) as ->.
  { apply w64_id. rewrite Hy, Z.shiftl_mul_pow2 by lia. lia. }
  assert (H63 : forall j, 63 <= j -> Z.testbit x j = false).
  { intros j Hj. rewrite <- (Z.mod_small x (2^63)) by lia. apply Z.mod_pow2_bits_high. lia. }
  rewrite Z.lor_spec, Z.shiftr_spec, Z.shiftl_spec by lia.
  destruct (Z.eqb_spec i 62) as [->|Hne].
  - rewrite (H63 (62 + 1)), Hy by lia. cbn [orb]. rewrite Z.mod_pow2_bits_low by lia. unfold y.
    by rewrite Z.lxor_spec, Z.shiftr_spec by lia.
  - destruct (Z.ltb_spec i 62).
    + rewrite (Z.testbit_neg_r _ (i - 62)) by lia. apply orb_false_r.
    + rewrite H63, Hy by lia. cbn [orb]. apply Z.mod_pow2_bits_high. lia.
Qed.
Theorem lfsr_permutes x y (Hx : 0 <= x < 2^63) (Hy : 0 <= y < 2^63) :
  0 <= lfsr x < 2^63 /\ (lfsr x = lfsr y -> x = y).
Proof.
  split.
  - assert (E : lfsr x = lfsr x mod 2^63); [|rewrite E; apply Z.mod_pos_bound; lia].
    rewrite <- Z.land_ones by lia. apply Z.bits_inj'. intros i Hi. rewrite Z.land_spec, Z.testbit_ones by lia.
    destruct (Z.ltb_spec i 63); [rewrite (proj2 (Z.leb_le _ _)) by lia; by rewrite andb_true_r|].
    rewrite andb_false_r, andb_false_r, lfsr_bits by lia. destruct (Z.eqb_spec i 62); [lia|].
    rewrite <- (Z.mod_small x (2^63)) by lia. apply Z.mod_pow2_bits_high. lia.
  - intros E. assert (B : forall i, 1 <= i -> Z.testbit x i = Z.testbit y i).
    { intros i Hi. destruct (Z.ltb_spec i 63).
      - pose proof (f_equal (fun z => Z.testbit z (i - 1)) E) as Ei. cbn beta in Ei.
        rewrite !lfsr_bits in Ei by lia. destruct (Z.eqb_spec (i - 1) 62); [lia|].
        by rewrite Z.sub_add in Ei.
      - rewrite <- (Z.mod_small x (2^63)), <- (Z.mod_small y (2^63)), !Z.mod_pow2_bits_high by lia. done. }
    apply Z.bits_inj'. intros i Hi. destruct (Z.eqb_spec i 0) as [->|]; [|apply B; lia].
    pose proof (f_equal (fun z => Z.testbit z 62) E) as Ei. cbn beta in Ei.
    rewrite !lfsr_bits in Ei by lia. cbn -[Z.testbit] in Ei. rewrite (B 1) in Ei by lia.
    by apply xorb_eq_r in Ei || (destruct (Z.testbit x 0), (Z.testbit y 0), (Z.testbit y 1); done).
Qed.
