(* ===== verification/RuntimeProps.v ===== *)
(** Formatted output of the bare-metal runtime, for any putch: what
    vprintfmt puts is a list of characters that depends on the format, its
    arguments and the memory only ([text_of]), and the state is changed by
    putting them in order.  Then numerals, and the meaning of a format
    ([prints]). *)
From S2P Require Import Prelude Runtime RuntimeMem.
From Stdlib Require Import Ascii.
Local Open Scope Z_scope.

Lemma rbind_Ok {A B} (r : res A) (k : A -> res B) b :
  (r ≫= k) = Ok b -> exists a, r = Ok a /\ k a = Ok b.
Proof. destruct r; cbn; intros H; try done. by eexists. Qed.
Lemma rbind_assoc {A B C} (r : res A) (f : A -> res B) (g : B -> res C) :
  ((r ≫= f) ≫= g) = (r ≫= fun a => f a ≫= g).
Proof. by destruct r. Qed.

(** The characters put: the state is the list of them, memory is [m0]. *)
Definition collect (c : Z) (cs : list Z) : res (list Z) := Ok (cs ++ [c]).
Definition text_of (m0 : mem) (null_literal : Z) (fuel : nat) (fmt : Z) (ap : list Z) : res (list Z) :=
  vprintfmt collect (fun _ a => load m0 a) null_literal fuel fmt ap [].

(** ** Any sink puts the collected characters *)
Section Sink.
Context {St : Type}.
Variable putch : Z -> St -> res St.
Variable ld : St -> Z -> res Z.
Variable m0 : mem.
Variable null_literal : Z.
Variable fuel : nat.
Let ld0 (_ : list Z) (a : Z) : res Z := load m0 a.

(** The memory behind the sink agrees with [m0], now and after each of [cs]. *)
Definition agrees (s : St) : Prop := forall a b, load m0 a = Ok b -> ld s a = Ok b.
Definition safe (s : St) (cs : list Z) : Prop :=
  forall k s', put_list putch (take k cs) s = Ok s' -> agrees s'.

Lemma put_list_app cs cs' s :
  put_list putch (cs ++ cs') s = (s ← put_list putch cs s; put_list putch cs' s).
Proof.
  revert s; induction cs as [|c cs IH]; intros s; [done|]. cbn. rewrite rbind_assoc.
  destruct (putch c s); cbn; auto.
Qed.
Lemma safe_app s cs cs' : safe s (cs ++ cs') ->
  safe s cs /\ forall s1, put_list putch cs s = Ok s1 -> safe s1 cs'.
Proof.
  intros H. split.
  - intros k s' Hk. apply (H (Nat.min k (length cs))). rewrite take_app_le by lia.
    destruct (Nat.le_ge_cases k (length cs)); [by rewrite Nat.min_l|].
    rewrite Nat.min_r, firstn_all by done. by rewrite take_ge in Hk.
  - intros s1 Hs1 k s' Hk. apply (H (length cs + k)%nat). rewrite take_app_add.
    rewrite put_list_app, Hs1. exact Hk.
Qed.
Lemma safe_agrees s cs : safe s cs -> agrees s.
Proof. intros H. by apply (H 0%nat). Qed.

(** A computation on the sink does what the collecting one does. *)
Definition runs {A} (f0 : list Z -> res (A * list Z)) (f : St -> res (A * St)) : Prop :=
  forall cs0 a cs1, f0 cs0 = Ok (a, cs1) -> exists cs, cs1 = cs0 ++ cs /\
    forall s, safe s cs -> f s = (s' ← put_list putch cs s; Ok (a, s')).
Definition runs1 (f0 : list Z -> res (list Z)) (f : St -> res St) : Prop :=
  forall cs0 cs1, f0 cs0 = Ok cs1 -> exists cs, cs1 = cs0 ++ cs /\
    forall s, safe s cs -> f s = put_list putch cs s.
Definition reads {A} (f0 : list Z -> res A) (f : St -> res A) : Prop :=
  forall cs a s, f0 cs = Ok a -> agrees s -> f s = Ok a.

Lemma runs_ret {A} (a : A) : runs (fun s => Ok (a, s)) (fun s => Ok (a, s)).
Proof. intros cs0 a' cs1 [= <- <-]. exists []. by rewrite app_nil_r. Qed.
Lemma runs1_ret : runs1 (fun s => Ok s) (fun s => Ok s).
Proof. intros cs0 cs1 [= <-]. exists []. by rewrite app_nil_r. Qed.
Lemma runs1_put c : runs1 (collect c) (putch c).
Proof. intros cs0 cs1 [= <-]. exists [c]. split; [done|]. intros s _. cbn. by destruct (putch c s). Qed.

Lemma runs_bind {A B} (f0 : list Z -> res (A * list Z)) f (k0 : A -> list Z -> res (B * list Z)) k :
  runs f0 f -> (forall a, runs (k0 a) (k a)) ->
  runs (fun s => '(a, s) ← f0 s; k0 a s) (fun s => '(a, s) ← f s; k a s).
Proof.
  intros Hf Hk cs0 b cs2 H. apply rbind_Ok in H as ([a cs1] & H1 & H2).
  apply Hf in H1 as (ca & -> & Ha). apply Hk in H2 as (cb & -> & Hb).
  exists (ca ++ cb). split; [by rewrite app_assoc|]. intros s Hs. apply safe_app in Hs as [Hs1 Hs2].
  rewrite Ha, put_list_app, !rbind_assoc by done. destruct (put_list putch ca s) as [s1| |]; cbn; [|done..].
  by apply Hb, Hs2.
Qed.
Lemma runs1_runs f0 f {A} (a : A) : runs1 f0 f ->
  runs (fun s => s ← f0 s; Ok (a, s)) (fun s => s ← f s; Ok (a, s)).
Proof.
  intros Hf cs0 b cs2 H. apply rbind_Ok in H as (cs1 & H1 & [= <- <-]).
  apply Hf in H1 as (ca & -> & Ha). exists ca. split; [done|]. intros s Hs. by rewrite Ha.
Qed.
Lemma runs1_bind {B} f0 f (k0 : list Z -> res (B * list Z)) k : runs1 f0 f -> runs k0 k ->
  runs (fun s => s ← f0 s; k0 s) (fun s => s ← f s; k s).
Proof.
  intros Hf Hk cs0 b cs2 H. apply rbind_Ok in H as (cs1 & H1 & H2).
  apply Hf in H1 as (ca & -> & Ha). apply Hk in H2 as (cb & -> & Hb).
  exists (ca ++ cb). split; [by rewrite app_assoc|]. intros s Hs. apply safe_app in Hs as [Hs1 Hs2].
  rewrite Ha, put_list_app, !rbind_assoc by done. destruct (put_list putch ca s) as [s1| |]; cbn; [|done..].
  by apply Hb, Hs2.
Qed.
Lemma runs1_seq f0 f k0 k : runs1 f0 f -> runs1 k0 k ->
  runs1 (fun s => s ← f0 s; k0 s) (fun s => s ← f s; k s).
Proof.
  intros Hf Hk cs0 cs2 H. apply rbind_Ok in H as (cs1 & H1 & H2).
  apply Hf in H1 as (ca & -> & Ha). apply Hk in H2 as (cb & -> & Hb).
  exists (ca ++ cb). split; [by rewrite app_assoc|]. intros s Hs. apply safe_app in Hs as [Hs1 Hs2].
  rewrite Ha, put_list_app by done. destruct (put_list putch ca s) as [s1| |]; cbn; [|done..].
  by apply Hb, Hs2.
Qed.
Lemma runs_seq {A} f0 f (k0 : A -> list Z -> res (list Z)) k : runs f0 f -> (forall a, runs1 (k0 a) (k a)) ->
  runs1 (fun s => '(a, s) ← f0 s; k0 a s) (fun s => '(a, s) ← f s; k a s).
Proof.
  intros Hf Hk cs0 cs2 H. apply rbind_Ok in H as ([a cs1] & H1 & H2).
  apply Hf in H1 as (ca & -> & Ha). apply Hk in H2 as (cb & -> & Hb).
  exists (ca ++ cb). split; [by rewrite app_assoc|]. intros s Hs. apply safe_app in Hs as [Hs1 Hs2].
  rewrite Ha, put_list_app, rbind_assoc by done. destruct (put_list putch ca s) as [s1| |]; cbn; [|done..].
  by apply Hb, Hs2.
Qed.
Lemma reads_bind {A B} f0 f (k0 : A -> list Z -> res (B * list Z)) k : reads f0 f -> (forall a, runs (k0 a) (k a)) ->
  runs (fun s => a ← f0 s; k0 a s) (fun s => a ← f s; k a s).
Proof.
  intros Hf Hk cs0 b cs2 H. apply rbind_Ok in H as (a & H1 & H2).
  destruct (Hk _ _ _ _ H2) as (cb & -> & Hb). exists cb. split; [done|]. intros s Hs.
  rewrite (Hf _ _ s H1) by (by eapply safe_agrees). by apply Hb.
Qed.
Lemma reads_seq {A} f0 f (k0 : A -> list Z -> res (list Z)) k : reads f0 f -> (forall a, runs1 (k0 a) (k a)) ->
  runs1 (fun s => a ← f0 s; k0 a s) (fun s => a ← f s; k a s).
Proof.
  intros Hf Hk cs0 cs2 H. apply rbind_Ok in H as (a & H1 & H2).
  destruct (Hk _ _ _ H2) as (cb & -> & Hb). exists cb. split; [done|]. intros s Hs.
  rewrite (Hf _ _ s H1) by (by eapply safe_agrees). by apply Hb.
Qed.
Lemma reads_read {A B} f0 f (k0 : A -> list Z -> res B) k : reads f0 f -> (forall a, reads (k0 a) (k a)) ->
  reads (fun s => a ← f0 s; k0 a s) (fun s => a ← f s; k a s).
Proof.
  intros Hf Hk cs b s H Hs. apply rbind_Ok in H as (a & H1 & H2). rewrite (Hf _ _ s H1) by done.
  by apply (Hk a cs).
Qed.
Lemma reads_const {A} (r : res A) : reads (fun _ => r) (fun _ => r).
Proof. by intros cs a s H _. Qed.
Lemma reads_ld a : reads (fun s => ld0 s a) (fun s => ld s a).
Proof. intros cs b s H Hs. by apply Hs. Qed.

Lemma put_times_runs n c : runs1 (put_times collect n c) (put_times putch n c).
Proof. induction n as [|n IH]; cbn [put_times]; [apply runs1_ret|]. apply runs1_seq; [apply runs1_put|done]. Qed.
Lemma put_list_runs cs : runs1 (put_list collect cs) (put_list putch cs).
Proof. induction cs as [|c cs IH]; cbn [put_list]; [apply runs1_ret|]. apply runs1_seq; [apply runs1_put|done]. Qed.
Hint Resolve put_times_runs put_list_runs runs1_put runs1_ret runs_ret reads_const reads_ld : core.

Lemma printnum_runs num base wid pad : runs1 (printnum collect num base wid pad) (printnum putch num base wid pad).
Proof.
  unfold printnum. apply (reads_seq (fun _ => printnum_digs 64 num base) (fun _ => printnum_digs 64 num base)); [done|].
  intros digs. cbn zeta. destruct (wid =? INT_MIN); [by intros cs0 cs1 H|]. by apply runs1_seq.
Qed.
Lemma width_digits_reads n : forall prec ch fmt, reads (width_digits ld0 n prec ch fmt) (width_digits ld n prec ch fmt).
Proof.
  induction n as [|n IH]; intros prec ch fmt; cbn [width_digits]; [by intros cs a s H|].
  apply (reads_read (fun _ => chk_int (prec * 10)) (fun _ => chk_int (prec * 10))); [done|]. intros x.
  apply (reads_read (fun _ => chk_int (x + ch)) (fun _ => chk_int (x + ch))); [done|]. intros y. cbn zeta.
  apply (reads_read (fun s => ld0 s fmt) (fun s => ld s fmt)); [done|]. intros c.
  destruct (is_digit (schar c)); [apply IH|done].
Qed.
Lemma reswitch_reads n : forall fmt f ap, reads (reswitch ld0 fuel n fmt f ap) (reswitch ld fuel n fmt f ap).
Proof.
  induction n as [|n IH]; intros fmt f ap; cbn [reswitch]; [by intros cs a s H|].
  apply (reads_read (fun s => ld0 s fmt) (fun s => ld s fmt)); [done|]. intros ch. cbn zeta.
  destruct (ch =? asc "-"); [apply IH|]. destruct (ch =? asc "0"); [apply IH|].
  destruct (is_digit ch).
  { apply reads_read; [apply width_digits_reads|]. intros [prec fmt']. apply IH. }
  destruct (ch =? asc "*").
  { apply (reads_read (fun _ => va_arg ap) (fun _ => va_arg ap)); [done|]. intros [a ap']. apply IH. }
  destruct (ch =? asc "."); [apply IH|]. destruct (ch =? asc "#"); [apply IH|].
  by destruct (ch =? asc "l"); [apply IH|].
Qed.
Lemma strnlen_loop_reads n : forall p k,
  reads (fun s => strnlen_loop n (ld0 s) p k) (fun s => strnlen_loop n (ld s) p k).
Proof.
  induction n as [|n IH]; intros p k; cbn [strnlen_loop]; [by intros cs a s H|].
  destruct (k =? 0); [done|]. apply (reads_read (fun s => ld0 s p) (fun s => ld s p)); [done|]. intros c.
  by destruct (c =? 0).
Qed.
Lemma strnlen_reads n p k : reads (fun s => strnlen n (ld0 s) p k) (fun s => strnlen n (ld s) p k).
Proof. apply reads_read; [apply strnlen_loop_reads|done]. Qed.
Lemma put_string_runs n : forall p prec wid,
  runs (put_string collect ld0 n p prec wid) (put_string putch ld n p prec wid).
Proof.
  induction n as [|n IH]; intros p prec wid; cbn [put_string]; [by intros cs0 a cs1 H|].
  apply (reads_bind (fun s => ld0 s p) (fun s => ld s p)); [done|]. intros ch.
  destruct (ch =? 0); [done|]. destruct (prec <? 0); [by apply runs1_bind|].
  by destruct (0 <=? prec - 1); [apply runs1_bind|].
Qed.
Lemma print_string_runs p f :
  runs1 (print_string collect ld0 null_literal fuel p f) (print_string putch ld null_literal fuel p f).
Proof.
  unfold print_string. set (q := if p =? 0 then null_literal else p). cbn zeta.
  apply runs_seq.
  - destruct ((0 <? width f) && negb (padc f =? asc "-")); [|done].
    apply (reads_bind (fun s => strnlen fuel (ld0 s) q _) (fun s => strnlen fuel (ld s) q _)); [apply strnlen_reads|].
    intros len. by apply runs1_runs.
  - intros wid. apply runs_seq; [apply put_string_runs|done].
Qed.
Lemma unsigned_number_runs base l f ap :
  runs (unsigned_number collect base l f ap) (unsigned_number putch base l f ap).
Proof.
  unfold unsigned_number. apply (reads_bind (fun _ => getuint ap l) (fun _ => getuint ap l)); [done|].
  intros [num ap']. apply runs1_runs, printnum_runs.
Qed.
Hint Resolve printnum_runs print_string_runs unsigned_number_runs reswitch_reads : core.

(** The two shapes at the end of a case. *)
Lemma put_end {A} c (a : A) : runs (fun s => s ← collect c s; Ok (a, s)) (fun s => s ← putch c s; Ok (a, s)).
Proof. by apply runs1_runs. Qed.
Lemma unsigned_end base l f ap (x : Z) :
  runs (fun s => '(ap, s) ← unsigned_number collect base l f ap s; Ok (x, ap, s))
       (fun s => '(ap, s) ← unsigned_number putch base l f ap s; Ok (x, ap, s)).
Proof. by apply runs_bind. Qed.
Hint Resolve put_end unsigned_end : core.

Lemma conversion_runs ch fmt last f ap :
  runs (conversion collect ld0 null_literal fuel ch fmt last f ap)
       (conversion putch ld null_literal fuel ch fmt last f ap).
Proof.
  unfold conversion.
  destruct (ch =? asc "c").
  { apply (reads_bind (fun _ => va_arg ap) (fun _ => va_arg ap)); [done|]. by intros [a ap']. }
  destruct (ch =? asc "s").
  { apply (reads_bind (fun _ => va_arg ap) (fun _ => va_arg ap)); [done|]. intros [a ap']. by apply runs1_runs. }
  destruct (ch =? asc "d").
  { apply (reads_bind (fun _ => getint ap (lflag f)) (fun _ => getint ap (lflag f))); [done|]. intros [num ap'].
    destruct (num <? 0); [|by apply runs1_runs, printnum_runs]. apply runs1_bind; [done|].
    apply (reads_bind (fun _ => chk_long (- num)) (fun _ => chk_long (- num))); [done|]. intros x.
    by apply runs1_runs, printnum_runs. }
  destruct (ch =? asc "u"); [done|]. destruct (ch =? asc "o"); [done|].
  destruct (ch =? asc "p"); [by do 2 (apply runs1_bind; [done|])|].
  destruct (ch =? asc "x"); [done|]. by destruct (ch =? asc "%").
Qed.
Lemma vprintfmt_loop_runs n : forall fmt ap,
  runs1 (vprintfmt_loop collect ld0 null_literal fuel n fmt ap) (vprintfmt_loop putch ld null_literal fuel n fmt ap).
Proof.
  induction n as [|n IH]; intros fmt ap; cbn [vprintfmt_loop]; [by intros cs0 cs1 H|].
  apply (reads_seq (fun s => ld0 s fmt) (fun s => ld s fmt)); [done|]. intros ch.
  destruct (ch =? asc "%").
  - apply reads_seq; [done|]. intros [[[ch' fmt'] f] ap']. apply runs_seq; [apply conversion_runs|].
    intros [fmt'' ap'']. apply IH.
  - destruct (ch =? 0); [done|]. by apply runs1_seq.
Qed.

(** The text determines what the sink sees. *)
Lemma vprintfmt_puts fmt ap cs s : text_of m0 null_literal fuel fmt ap = Ok cs -> safe s cs ->
  vprintfmt putch ld null_literal fuel fmt ap s = put_list putch cs s.
Proof. intros H Hs. apply vprintfmt_loop_runs in H as (cs' & E & H). cbn in E. subst cs'. by apply H. Qed.
End Sink.

(** ** Numerals *)
Fixpoint dval (base : Z) (ds : list Z) : Z :=
  match ds with [] => 0 | d :: ds => d + base * dval base ds end.

(** The array of 64 digits is long enough for every base, and the digits are
    those of the number, without leading zeros. *)
Lemma printnum_digs_spec base (Hb : 2 <= base) n : forall num, 0 <= num < base ^ Z.of_nat n -> (0 < n)%nat ->
  exists ds, printnum_digs n num base = Ok ds /\ dval base ds = num /\
    Forall (fun d => 0 <= d < base) ds /\ (length ds <= n)%nat /\ ds <> [] /\
    (0 < num -> exists ds' d, ds = ds' ++ [d] /\ 0 < d < base).
Proof.
  induction n as [|n IH]; intros num Hn Hpos; [lia|]. cbn [printnum_digs].
  pose proof (Z.mod_pos_bound num base ltac:(lia)) as Hm. destruct (Z.ltb_spec num base).
  - exists [num mod base]. rewrite Z.mod_small in * by lia. cbn.
    repeat split; try lia; [by apply Forall_singleton|done|]. intros H0. exists [], num. done.
  - assert (Hd : 0 < num / base) by (apply Z.div_str_pos; lia).
    rewrite Nat2Z.inj_succ, Z.pow_succ_r in Hn by lia.
    assert (Hq : num / base < base ^ Z.of_nat n) by (apply Z.div_lt_upper_bound; lia).
    destruct n as [|n]; [cbn in Hq; lia|].
    destruct (IH (num / base)) as (ds & -> & Hv & Hf & Hl & Hne & Hlast); [lia..|].
    exists (num mod base :: ds). cbn [mbind res_bind dval length]. rewrite Hv.
    repeat split; try done; try lia.
    + pose proof (Z.div_mod num base). lia.
    + by apply Forall_cons.
    + intros _. destruct Hlast as (ds' & d & -> & Hd'); [done|]. by exists (num mod base :: ds'), d.
Qed.

(** The notation of a number in a base up to sixteen: as many places as the
    number needs, at least one, and at each place the digit of that weight. *)
Definition digit_chars : list Z := map asc
  ["0"%char; "1"%char; "2"%char; "3"%char; "4"%char; "5"%char; "6"%char; "7"%char;
  "8"%char; "9"%char; "a"%char; "b"%char; "c"%char; "d"%char; "e"%char; "f"%char].
Definition places (base num : Z) : nat :=
  default 0%nat (List.find (fun k => num <? base ^ Z.of_nat k) (seq 1 64)).
Definition numeral (base num : Z) : list Z :=
  map (fun i => nth (Z.to_nat (num / base ^ Z.of_nat i mod base)) digit_chars 0) (rev (seq 0 (places base num))).
Definition horner (base : Z) (val : Z -> Z) (cs : list Z) (acc : Z) : Z :=
  fold_left (fun a c => a * base + val c) cs acc.
(** The value of a digit character. *)
Definition char_val (c : Z) : Z := if asc "a" <=? c then c - (asc "a" - 10) else c - asc "0".

Lemma digit_char_val d : 0 <= d < 16 ->
  char_val (digit_char d) = d /\ (d < 10 -> digit_char d = d + 48) /\ 48 <= digit_char d < 128.
Proof.
  intros Hd. unfold digit_char, char_val. change (asc "a") with 97. change (asc "0") with 48.
  destruct (Z.leb_spec 10 d); rewrite w32_id by lia; zcases; lia.
Qed.
Lemma horner_digits base val ds : (forall d, 0 <= d < base -> val (digit_char d) = d) ->
  Forall (fun d => 0 <= d < base) ds -> horner base val (map digit_char (rev ds)) 0 = dval base ds.
Proof.
  intros Hv. induction ds as [|d ds IH]; intros H; [done|]. apply Forall_cons in H as [Hd H].
  unfold horner in *. cbn [rev dval]. rewrite map_app, fold_left_app, IH by done. cbn.
  rewrite Hv by done. lia.
Qed.

Lemma pow_64 base : 2 <= base -> 2^64 <= base ^ Z.of_nat 64.
Proof. intros H. apply (Z.pow_le_mono_l 2 base (Z.of_nat 64)). lia. Qed.

(** *** What printnum prints is the notation *)
Lemma digit_char_table d : 0 <= d < 16 -> nth (Z.to_nat d) digit_chars 0 = digit_char d.
Proof.
  intros Hd. assert (H : forallb (fun d => nth (Z.to_nat d) digit_chars 0 =? digit_char d) (seqZ 0 16) = true)
    by (vm_compute; done).
  rewrite forallb_forall in H. apply Z.eqb_eq, H, list_elem_of_In, elem_of_seqZ. lia.
Qed.
Lemma find_seq (f : nat -> bool) n : forall a k, (a <= k < a + n)%nat -> f k = true ->
  exists j, List.find f (seq a n) = Some j /\ (j <= k)%nat /\ ((forall i, (a <= i < k)%nat -> f i = false) -> j = k).
Proof.
  induction n as [|n IH]; intros a k Hk Hf; [lia|]. cbn [seq List.find].
  destruct (f a) eqn:E.
  - exists a. split; [done|]. split; [lia|]. intros Hl. destruct (decide (a = k)) as [|Hn]; [done|].
    rewrite Hl in E by lia. done.
  - destruct (decide (a = k)) as [->|Hn]; [congruence|].
    destruct (IH (S a) k) as (j & Hj & Hle & Hl); [lia|done|]. exists j. split; [done|]. split; [done|].
    intros H. apply Hl. intros i Hi. apply H. lia.
Qed.
Lemma dval_bounds base ds : 2 <= base -> Forall (fun d => 0 <= d < base) ds ->
  0 <= dval base ds < base ^ Z.of_nat (length ds).
Proof.
  intros Hb. induction 1 as [|d ds Hd _ IH]; [cbn; lia|]. cbn [dval length].
  rewrite Nat2Z.inj_succ, Z.pow_succ_r by lia. nia.
Qed.
Lemma dval_snoc base ds d : 2 <= base -> dval base (ds ++ [d]) = dval base ds + base ^ Z.of_nat (length ds) * d.
Proof.
  intros Hb. induction ds as [|e ds IH]; [cbn; lia|]. cbn [dval length app].
  rewrite IH, Nat2Z.inj_succ, Z.pow_succ_r by lia. lia.
Qed.
Lemma dval_digit base ds : 2 <= base -> Forall (fun d => 0 <= d < base) ds -> forall i d, ds !! i = Some d ->
  dval base ds / base ^ Z.of_nat i mod base = d.
Proof.
  intros Hb Hf. induction Hf as [|e ds He Hf IH]; intros i d Hi; [done|]. cbn [dval].
  destruct i as [|i]; cbn in Hi.
  - injection Hi as <-. rewrite Z.div_1_r, Z.add_comm, Z.mul_comm, Z.add_comm, Z.mod_add by lia. by apply Z.mod_small.
  - rewrite Nat2Z.inj_succ, Z.pow_succ_r by lia. assert (0 < base ^ Z.of_nat i) by (apply Z.pow_pos_nonneg; lia).
    rewrite <- Z.div_div by lia.
    rewrite (Z.mul_comm base (dval _ _)), Z.div_add, (Z.div_small e base), Z.add_0_l by lia. by apply IH.
Qed.
Lemma places_digits base ds d : 2 <= base -> Forall (fun d => 0 <= d < base) (ds ++ [d]) -> 0 < d \/ ds = [] ->
  (length (ds ++ [d]) <= 64)%nat -> places base (dval base (ds ++ [d])) = length (ds ++ [d]).
Proof.
  intros Hb Hf Hd Hl. pose proof (dval_bounds base _ Hb Hf) as Hv. apply Forall_app in Hf as [Hf Hfd].
  pose proof (dval_bounds base _ Hb Hf) as Hv'. unfold places. rewrite length_app in *. cbn [length] in *.
  destruct (find_seq (fun k => dval base (ds ++ [d]) <? base ^ Z.of_nat k) 64 1 (length ds + 1)%nat)
    as (j & -> & _ & Hj); [lia|by apply Z.ltb_lt, Hv|]. cbn. apply Hj. intros i Hi. apply Z.ltb_ge.
  destruct Hd as [Hd|Hd]; [|subst ds; cbn in Hi; lia]. rewrite dval_snoc by done.
  assert (base ^ Z.of_nat i <= base ^ Z.of_nat (length ds)) by (apply Z.pow_le_mono_r; lia). nia.
Qed.
Lemma numeral_digs base num : 2 <= base <= 16 -> 0 <= num < 2^64 ->
  exists ds, printnum_digs 64 num base = Ok ds /\ numeral base num = map digit_char (rev ds) /\
    dval base ds = num /\ Forall (fun d => 0 <= d < base) ds /\ (length ds <= 64)%nat /\ ds <> [] /\
    (0 < num -> exists ds' d, ds = ds' ++ [d] /\ 0 < d < base).
Proof.
  intros Hb Hn. pose proof (pow_64 base ltac:(lia)) as Hp.
  destruct (printnum_digs_spec base ltac:(lia) 64 num) as (ds & E & Hv & Hf & Hl & Hne & Hlast); [lia..|].
  exists ds. split; [done|]. split; [|tauto]. unfold numeral.
  assert (Hpl : places base num = length ds).
  { destruct (Z.eq_dec num 0) as [->|Hz].
    - cbn in E. rewrite (proj2 (Z.ltb_lt 0 base)) in E by lia. injection E as <-. rewrite <- Hv.
      apply (places_digits base []); [lia|done|by right|cbn; lia].
    - destruct Hlast as (ds' & d & -> & Hd); [lia|]. rewrite <- Hv. apply places_digits; [lia|done|by left; lia|done]. }
  rewrite Hpl, !map_rev. f_equal. apply list_eq. intros i.
  rewrite !list_lookup_fmap. destruct (ds !! i) as [d|] eqn:Ei.
  - rewrite lookup_seq_lt by (by eapply lookup_lt_Some). cbn. f_equal. rewrite <- Hv.
    rewrite (dval_digit base ds ltac:(lia) Hf i d Ei). apply digit_char_table.
    rewrite Forall_forall in Hf. specialize (Hf d ltac:(by eapply list_elem_of_lookup_2)). lia.
  - rewrite lookup_seq_ge; [done|]. by apply lookup_ge_None.
Qed.

(** A numeral denotes its number. *)
Lemma numeral_value base num : 2 <= base <= 16 -> 0 <= num < 2^64 ->
  horner base char_val (numeral base num) 0 = num.
Proof.
  intros Hb Hn. destruct (numeral_digs base num Hb Hn) as (ds & _ & -> & Hv & Hf & _).
  rewrite horner_digs || rewrite horner_digits; [done| |done]. intros d Hd. apply digit_char_val. lia.
Qed.
(** A decimal numeral: digits only, the first not zero for a positive number. *)
Lemma numeral_10 num : 0 <= num < 2^64 ->
  Forall (fun c => 48 <= c < 58) (numeral 10 num) /\
  horner 10 (fun c => c - 48) (numeral 10 num) 0 = num /\ numeral 10 num <> [] /\
  (0 < num -> exists c l, numeral 10 num = c :: l /\ 48 < c).
Proof.
  intros Hn. destruct (numeral_digs 10 num) as (ds & _ & -> & Hv & Hf & _ & Hne & Hlast); [lia..|].
  repeat split.
  - apply Forall_map, Forall_rev. eapply Forall_impl; [exact Hf|]. intros d Hd. cbn in *.
    destruct (digit_char_val d) as (_ & H & _); [lia|]. rewrite H by lia. lia.
  - rewrite horner_digits; [done| |done]. intros d Hd. destruct (digit_char_val d) as (_ & H & _); [lia|].
    rewrite H by lia. lia.
  - destruct ds as [|d ds]; [done|]. cbn. rewrite map_app. intros E. by apply app_eq_nil in E as [_ E].
  - intros H0. destruct (Hlast H0) as (ds' & d & -> & Hd). rewrite rev_app_distr. cbn.
    exists (digit_char d), (map digit_char (rev ds')). split; [done|].
    destruct (digit_char_val d) as (_ & H & _); [lia|]. rewrite H by lia. lia.
Qed.
(** Every character of a numeral is printable, and there are at most 20
    decimal digits. *)
Lemma numeral_bytes base num : 2 <= base <= 16 -> 0 <= num < 2^64 -> Forall (fun c => 48 <= c < 128) (numeral base num).
Proof.
  intros Hb Hn. destruct (numeral_digs base num Hb Hn) as (ds & _ & -> & _ & Hf & _).
  apply Forall_map, Forall_rev. eapply Forall_impl; [exact Hf|]. intros d Hd. cbn in *.
  apply (digit_char_val d). lia.
Qed.
Lemma numeral_10_length num k : 0 <= num < 2^64 -> num < 10 ^ Z.of_nat k -> (0 < k <= 64)%nat ->
  (length (numeral 10 num) <= k)%nat.
Proof.
  intros Hn Hk Hk0. unfold numeral, places. rewrite length_map, length_rev, length_seq.
  destruct (find_seq (fun k => num <? 10 ^ Z.of_nat k) 64 1 k) as (j & -> & Hj & _); [lia|by apply Z.ltb_lt|]. done.
Qed.

(** ** The pieces of a directive, collected *)
Lemma collect_times n c cs : put_times collect n c cs = Ok (cs ++ replicate n c).
Proof.
  revert cs; induction n as [|n IH]; intros cs; cbn; [by rewrite app_nil_r|].
  by rewrite IH, <- app_assoc.
Qed.
Lemma collect_list l cs : put_list collect l cs = Ok (cs ++ l).
Proof.
  revert cs; induction l as [|c l IH]; intros cs; cbn; [by rewrite app_nil_r|].
  by rewrite IH, <- app_assoc.
Qed.
Definition padded (pad wid : Z) (t : list Z) : list Z :=
  replicate (Z.to_nat (wid - Z.of_nat (length t))) pad ++ t.
Lemma printnum_text num base wid pad cs : 2 <= base <= 16 -> 0 <= num < 2^64 -> wid <> INT_MIN ->
  printnum collect num base wid pad cs = Ok (cs ++ padded pad wid (numeral base num)).
Proof.
  intros Hb Hn Hw. destruct (numeral_digs base num Hb Hn) as (ds & E & -> & _).
  unfold printnum, padded. rewrite E, length_map, length_rev. cbn [mbind res_bind]. cbn zeta.
  destruct (Z.eqb_spec wid INT_MIN); [done|]. rewrite collect_times. cbn [mbind res_bind].
  by rewrite collect_list, <- app_assoc.
Qed.

Section Pure.
Variable m0 : mem.
Variable null_literal : Z.
Variable fuel : nat.
Notation ld0 := (fun (_ : list Z) (a : Z) => load m0 a).

Lemma horner_ge l : forall acc, Forall (fun c => 48 <= c < 58) l -> 0 <= acc ->
  acc <= horner 10 (fun c => c - 48) l acc.
Proof.
  induction l as [|c l IH]; intros acc Hl Ha; [cbn; lia|]. apply Forall_cons in Hl as [Hc Hl].
  unfold horner in *. cbn [fold_left]. etransitivity; [|apply IH; [done|lia]]. lia.
Qed.
Lemma digit_true c : 48 <= c < 58 -> is_digit c = true.
Proof. intros H. unfold is_digit. change (asc "0") with 48. change (asc "9") with 57. zcases; lia || done. Qed.
Lemma schar_id c : 0 <= c < 128 -> schar c = c.
Proof. intros H. apply sext_id; lia. Qed.

Lemma horner_cons c l acc : horner 10 (fun c => c - 48) (c :: l) acc =
  horner 10 (fun c => c - 48) l (acc * 10 + (c - 48)).
Proof. done. Qed.
Lemma chk_int_ok x : -2147483648 <= x <= 2147483647 -> chk_int x = Ok x.
Proof.
  intros H. unfold chk_int. change INT_MIN with (-2147483648). change INT_MAX with 2147483647.
  by rewrite !(proj2 (Z.leb_le _ _)) by lia.
Qed.

(** A run of digits is the number they denote. *)
Lemma width_digits_ok l : forall n prec ch fmt c cs,
  bytes_at m0 fmt (l ++ [c]) -> Forall (fun c => 48 <= c < 58) (ch :: l) -> is_digit (schar c) = false ->
  0 <= prec -> horner 10 (fun c => c - 48) (ch :: l) prec + 48 <= INT_MAX -> (length l < n)%nat ->
  width_digits ld0 n prec ch fmt cs =
    Ok (horner 10 (fun c => c - 48) (ch :: l) prec, fmt + Z.of_nat (length l)).
Proof.
  induction l as [|d l IH]; intros [|n] prec ch fmt c cs Hb Hd Hc Hp Hv Hn; try (cbn in Hn; lia).
  all: cbn [width_digits]; apply Forall_cons in Hd as [Hch Hd];
    rewrite horner_cons in *; pose proof (horner_ge _ (prec * 10 + (ch - 48)) Hd ltac:(lia)) as Hge;
    change INT_MAX with 2147483647 in Hv; rewrite (chk_int_ok (prec * 10)) by lia;
    cbn [mbind res_bind]; rewrite chk_int_ok by lia; cbn [mbind res_bind]; cbn zeta;
    change (asc "0") with 48; replace (prec * 10 + ch - 48) with (prec * 10 + (ch - 48)) by lia;
    apply bytes_at_cons in Hb as [Hb Hb']; rewrite (load_ok _ _ _ Hb); cbn [mbind res_bind].
  - rewrite Hc. cbn. f_equal. f_equal; lia.
  - pose proof Hd as Hd'. apply Forall_cons in Hd as [Hd0 Hd]. rewrite schar_id, digit_true by lia.
    rewrite (IH n _ d (fmt + 1) c) by (done || lia || (cbn in Hn; lia)).
    cbn [length]. f_equal. f_equal. lia.
Qed.

(** The letters that end the flags. *)
Definition stop (c : Z) : bool := negb (is_digit c) && forallb (fun x => negb (c =? asc x)) ["-"; "*"; "."; "#"; "l"]%char.
Lemma stop_neq c : stop c = true -> is_digit c = false /\ (c =? 45) = false /\ (c =? 48) = false /\
  (c =? 42) = false /\ (c =? 46) = false /\ (c =? 35) = false /\ (c =? 108) = false.
Proof.
  unfold stop, is_digit. cbn [forallb].
  change (asc "-") with 45. change (asc "*") with 42. change (asc ".") with 46. change (asc "#") with 35.
  change (asc "l") with 108. change (asc "0") with 48. change (asc "9") with 57.
  zcases; cbn; intros Hs; try done; repeat split; done || lia.
Qed.
Definition add_lflag (k : nat) (f : flags) : flags :=
  Flags (padc f) (width f) (precision f) (lflag f + Z.of_nat k) (altflag f).
Lemma reswitch_l n fmt f ap cs rest : bytes_at m0 fmt (asc "l" :: rest) ->
  reswitch ld0 fuel (S n) fmt f ap cs = reswitch ld0 fuel n (fmt + 1) (add_lflag 1 f) ap cs.
Proof. intros Hb. apply bytes_at_cons in Hb as [Hb _]. cbn [reswitch]. by rewrite (load_ok _ _ _ Hb). Qed.
Lemma reswitch_end k : forall n fmt f ap c cs, bytes_at m0 fmt (replicate k (asc "l") ++ [c]) -> stop c = true ->
  (k < n)%nat -> reswitch ld0 fuel n fmt f ap cs = Ok (c, fmt + Z.of_nat k + 1, add_lflag k f, ap).
Proof.
  induction k as [|k IH]; intros [|n] fmt f ap c cs Hb Hc Hn; try lia.
  - apply bytes_at_cons in Hb as [Hb _]. cbn [reswitch]. rewrite (load_ok _ _ _ Hb). cbn [mbind res_bind]. cbn zeta.
    destruct (stop_neq c Hc) as (Hd & H1 & H2 & H3 & H4 & H5 & H6).
    change (asc "-") with 45. change (asc "*") with 42. change (asc ".") with 46. change (asc "#") with 35.
    change (asc "l") with 108. change (asc "0") with 48. rewrite H1, H2, Hd, H3, H4, H5, H6.
    unfold add_lflag. destruct f; cbn. do 4 f_equal; lia.
  - cbn [replicate app] in Hb. erewrite reswitch_l by exact Hb. apply bytes_at_cons in Hb as [_ Hb].
    rewrite (IH n _ _ _ c) by (done || lia). unfold add_lflag. cbn [padc width precision lflag altflag].
    replace (fmt + 1 + Z.of_nat k + 1) with (fmt + Z.of_nat (S k) + 1) by lia.
    by replace (lflag f + Z.of_nat 1 + Z.of_nat k) with (lflag f + Z.of_nat (S k)) by lia.
Qed.
Lemma reswitch_zero n fmt f ap cs rest : bytes_at m0 fmt (asc "0" :: rest) ->
  reswitch ld0 fuel (S n) fmt f ap cs = reswitch ld0 fuel n (fmt + 1) (set_padc (asc "0") f) ap cs.
Proof. intros Hb. apply bytes_at_cons in Hb as [Hb _]. cbn [reswitch]. by rewrite (load_ok _ _ _ Hb). Qed.
Lemma reswitch_left n fmt f ap cs rest : bytes_at m0 fmt (asc "-" :: rest) ->
  reswitch ld0 fuel (S n) fmt f ap cs = reswitch ld0 fuel n (fmt + 1) (set_padc (asc "-") f) ap cs.
Proof. intros Hb. apply bytes_at_cons in Hb as [Hb _]. cbn [reswitch]. by rewrite (load_ok _ _ _ Hb). Qed.
Lemma reswitch_dot n fmt f ap cs rest : bytes_at m0 fmt (asc "." :: rest) ->
  reswitch ld0 fuel (S n) fmt f ap cs =
    reswitch ld0 fuel n (fmt + 1) (if width f <? 0 then set_width 0 f else f) ap cs.
Proof. intros Hb. apply bytes_at_cons in Hb as [Hb _]. cbn [reswitch]. by rewrite (load_ok _ _ _ Hb). Qed.
Lemma reswitch_number n fmt f ap cs w c rest : 0 < w <= INT_MAX - 48 -> is_digit (schar c) = false ->
  bytes_at m0 fmt (numeral 10 w ++ c :: rest) -> (length (numeral 10 w) <= fuel)%nat ->
  reswitch ld0 fuel (S n) fmt f ap cs =
    reswitch ld0 fuel n (fmt + Z.of_nat (length (numeral 10 w))) (process_precision w f) ap cs.
Proof.
  intros Hw Hc Hb Hf. change INT_MAX with 2147483647 in *.
  destruct (numeral_10 w) as (Hd & Hv & _ & Hfirst); [lia|]. destruct Hfirst as (d & l & E & Hd0); [lia|].
  rewrite E in *. cbn [app] in Hb. apply bytes_at_cons in Hb as [Hb Hb']. cbn [reswitch].
  rewrite (load_ok _ _ _ Hb). cbn [mbind res_bind]. cbn zeta.
  pose proof Hd as Hd'. apply Forall_cons in Hd' as [Hd1 _].
  change (asc "-") with 45. change (asc "0") with 48.
  destruct (Z.eqb_spec d 45); [lia|]. destruct (Z.eqb_spec d 48); [lia|]. rewrite digit_true by lia.
  rewrite cons_middle, app_assoc in Hb'. apply bytes_at_app in Hb' as [Hb' _].
  rewrite (width_digits_ok l fuel 0 d (fmt + 1) c) by
    (done || lia || (rewrite Hv; change INT_MAX with 2147483647; lia) || (cbn in Hf; lia)).
  rewrite Hv. cbn [mbind res_bind length]. f_equal. lia.
Qed.

(** *** Strings *)
Lemma strnlen_ok l : forall n p k cs, cstring m0 p l -> (length l < n)%nat -> 0 <= k < 2^64 ->
  strnlen_loop n (ld0 cs) p k = Ok (p + Z.min (Z.of_nat (length l)) k).
Proof.
  induction l as [|c l IH]; intros [|n] p k cs H Hn Hk; try (cbn in Hn; lia); cbn [strnlen_loop].
  all: destruct (Z.eqb_spec k 0) as [->|Hk0]; [f_equal; lia|].
  - apply cstring_nil in H. rewrite (load_ok _ _ _ H). cbn. f_equal. lia.
  - apply cstring_cons in H as (H0 & Hc & H). rewrite (load_ok _ _ _ H0). cbn [mbind res_bind].
    destruct (Z.eqb_spec c 0); [done|]. rewrite w64_id by lia. rewrite (IH n (p + 1) (k - 1) cs) by (done || lia || (cbn in Hn; lia)).
    f_equal. cbn [length]. lia.
Qed.
(** What %s shows of a string: at most [prec] characters, all of them for a
    negative precision. *)
Definition shown (prec : Z) (l : list Z) : list Z := if prec <? 0 then l else take (Z.to_nat prec) l.
Lemma shown_cons prec c l : prec <> 0 -> shown prec (c :: l) = c :: shown (if prec <? 0 then prec else prec - 1) l.
Proof.
  intros H. unfold shown. destruct (Z.ltb_spec prec 0) as [Hp|Hp].
  - by rewrite (proj2 (Z.ltb_lt prec 0) Hp).
  - destruct (Z.ltb_spec (prec - 1) 0); [lia|]. replace (Z.to_nat prec) with (S (Z.to_nat (prec - 1))) by lia. done.
Qed.
Lemma put_string_ok l : forall n p prec wid cs, cstring m0 p l -> (length l < n)%nat ->
  put_string collect ld0 n p prec wid cs =
    Ok (wid - Z.of_nat (length (shown prec l)), cs ++ map schar (shown prec l)).
Proof.
  induction l as [|c l IH]; intros [|n] p prec wid cs H Hn; try (cbn in Hn; lia); cbn [put_string].
  - apply cstring_nil in H. rewrite (load_ok _ _ _ H). cbn. unfold shown. rewrite take_nil.
    destruct (prec <? 0); cbn; by rewrite Z.sub_0_r, app_nil_r.
  - apply cstring_cons in H as (H0 & Hc & H). rewrite (load_ok _ _ _ H0). cbn [mbind res_bind].
    destruct (Z.eqb_spec c 0); [done|]. destruct (Z.eqb_spec prec 0) as [->|Hp].
    { cbn. by rewrite Z.sub_0_r, app_nil_r. }
    rewrite shown_cons by done. cbn [length]. destruct (Z.ltb_spec prec 0); cbn [mbind res_bind collect].
    2: rewrite (proj2 (Z.leb_le _ _)) by lia; cbn [mbind res_bind collect].
    all: rewrite IH by (done || (cbn in Hn; lia)); rewrite <- app_assoc; f_equal; f_equal; lia.
Qed.
(** The text of %s: padded to the width on the left or, after the flag -, on
    the right. *)
Definition str_text (f : flags) (l : list Z) : list Z :=
  let t := map schar (shown (precision f) l) in
  let k := Z.to_nat (width f - Z.of_nat (length t)) in
  if padc f =? asc "-" then t ++ replicate k (asc " ") else replicate k (padc f) ++ t.
Lemma length_shown prec l : 0 <= Z.of_nat (length l) < 2^64 - 1 -> -1 <= prec <= INT_MAX ->
  Z.of_nat (length (shown prec l)) = Z.min (Z.of_nat (length l)) (w64 prec).
Proof.
  change INT_MAX with 2147483647. intros Hl Hp. unfold shown. destruct (Z.ltb_spec prec 0).
  - assert (prec = -1) as -> by lia. change (w64 (-1)) with (2^64 - 1). lia.
  - rewrite w64_id, length_take by lia. lia.
Qed.
Lemma print_string_text p f l cs : p <> 0 -> cstring m0 p l -> (length l < fuel)%nat ->
  Z.of_nat (length l) <= INT_MAX -> -1 <= precision f <= INT_MAX -> -1 <= width f <= INT_MAX ->
  print_string collect ld0 null_literal fuel p f cs = Ok (cs ++ str_text f l).
Proof.
  intros Hp H Hf Hl Hprec Hw. unfold print_string. destruct (Z.eqb_spec p 0); [done|]. cbn zeta.
  pose proof (length_shown (precision f) l ltac:(change INT_MAX with 2147483647 in *; lia) Hprec) as Hsh.
  pose proof (w64_range (precision f)) as Hwp. unfold strnlen. rewrite (strnlen_ok l) by done.
  cbn [mbind res_bind]. set (t := shown (precision f) l) in *.
  replace (p + Z.min (Z.of_nat (length l)) (w64 (precision f)) - p) with (Z.of_nat (length t)) by lia.
  assert (Ht : Z.of_nat (length t) <= INT_MAX) by lia.
  assert (E : s32 (w64 (width f - Z.of_nat (length t))) = width f - Z.of_nat (length t)).
  { change INT_MAX with 2147483647 in *. unfold s32. rewrite (sext_congr 32 _ (width f - Z.of_nat (length t))).
    - apply sext_id; lia.
    - lia.
    - apply Z.mod_mod_divide. by exists (2^32). }
  unfold str_text. fold t. rewrite length_map, E. rewrite collect_times. cbn [mbind res_bind].
  destruct (Z.ltb_spec 0 (width f)); destruct (Z.eqb_spec (padc f) (asc "-")); cbn [andb negb mbind res_bind];
    rewrite (put_string_ok l) by done; fold t; cbn [mbind res_bind]; rewrite collect_times; f_equal;
    rewrite <- !app_assoc; try done.
  - f_equal. replace (Z.to_nat (Z.min (width f - Z.of_nat (length t)) 0 - Z.of_nat (length t))) with 0%nat by lia.
    by rewrite app_nil_r.
  - replace (Z.to_nat (width f - Z.of_nat (length t))) with 0%nat by lia. by rewrite app_nil_r.
Qed.
End Pure.

(** ** The meaning of a format *)

(** The directives of a format, the text that writes them and what they
    print.  A width or precision 0 is none. *)
Inductive numconv := Dec | Uns | Oct | Hex.
Inductive item :=
  | Lit (c : Z)
  | Percent
  | Chr
  | Ptr
  | Str (lft : bool) (wid prec : Z)
  | Num (zero : bool) (wid : Z) (l : nat) (k : numconv).
Definition conv_letter (k : numconv) : Z :=
  match k with Dec => asc "d" | Uns => asc "u" | Oct => asc "o" | Hex => asc "x" end.
Definition number_text (w : Z) : list Z := if w =? 0 then [] else numeral 10 w.
Definition item_text (i : item) : list Z :=
  match i with
  | Lit c => [c]
  | Percent => [asc "%"; asc "%"]
  | Chr => [asc "%"; asc "c"]
  | Ptr => [asc "%"; asc "p"]
  | Str lft w prec =>
      asc "%" :: (if lft then [asc "-"] else []) ++ number_text w ++
      (if prec =? 0 then [] else asc "." :: number_text prec) ++ [asc "s"]
  | Num zero w l k =>
      asc "%" :: (if zero then [asc "0"] else []) ++ number_text w ++ replicate l (asc "l") ++ [conv_letter k]
  end.
Definition items_text (its : list item) : list Z := concat (map item_text its).
Definition field (w : Z) : Prop := 0 <= w <= INT_MAX - 48.
Definition item_ok (i : item) : Prop :=
  match i with
  | Lit c => c <> asc "%" /\ c <> 0
  | Str _ w prec => field w /\ field prec
  | Num _ w _ _ => field w
  | _ => True
  end.

(** The argument of a conversion, narrowed; the base. *)
Definition int_arg (l : nat) (a : Z) : Z := match l with O => s32 a | _ => s64 a end.
Definition uint_arg (l : nat) (a : Z) : Z := match l with O => w32 a | _ => w64 a end.
Definition base_of (k : numconv) : Z := match k with Oct => 8 | Hex => 16 | _ => 10 end.
Definition pad_of (zero : bool) : Z := if zero then asc "0" else asc " ".

(** The output of a list of directives on arguments. *)
Inductive prints (m0 : mem) : list item -> list Z -> list Z -> Prop :=
  | p_nil ap : prints m0 [] ap []
  | p_lit c its ap out : prints m0 its ap out -> prints m0 (Lit c :: its) ap (c :: out)
  | p_percent its ap out : prints m0 its ap out -> prints m0 (Percent :: its) ap (asc "%" :: out)
  | p_chr its a ap out : prints m0 its ap out -> prints m0 (Chr :: its) (a :: ap) (s32 a :: out)
  | p_ptr its a ap out : prints m0 its ap out ->
      prints m0 (Ptr :: its) (a :: ap) (asc "0" :: asc "x" :: numeral 16 (w64 a) ++ out)
  | p_str lft w prec its a ap l out :
      w64 a <> 0 -> cstring m0 (w64 a) l -> Z.of_nat (length l) <= INT_MAX -> prints m0 its ap out ->
      let t := map schar (if prec =? 0 then l else take (Z.to_nat prec) l) in
      let blanks := replicate (Z.to_nat (w - Z.of_nat (length t))) (asc " ") in
      prints m0 (Str lft w prec :: its) (a :: ap) ((if lft then t ++ blanks else blanks ++ t) ++ out)
  | p_uns zero w l k its a ap out : k <> Dec -> prints m0 its ap out ->
      prints m0 (Num zero w l k :: its) (a :: ap)
        (padded (pad_of zero) w (numeral (base_of k) (uint_arg l a)) ++ out)
  | p_dec zero w l its a ap out : 0 <= int_arg l a -> prints m0 its ap out ->
      prints m0 (Num zero w l Dec :: its) (a :: ap)
        (padded (pad_of zero) w (numeral 10 (int_arg l a)) ++ out)
  (* the sign comes before the padding and outside the width *)
  | p_neg zero w l its a ap out : - 2^63 < int_arg l a < 0 -> prints m0 its ap out ->
      prints m0 (Num zero w l Dec :: its) (a :: ap)
        (asc "-" :: padded (pad_of zero) w (numeral 10 (- int_arg l a)) ++ out).

Lemma bytes_at_size m p l : bytes_at m p l -> (length l <= size m)%nat.
Proof.
  intros H. set (f := fun i => p + Z.of_nat i).
  assert (Hs : list_to_set (f <$> seq 0 (length l)) ⊆ (dom m : gset Z)).
  { intros a Ha. apply elem_of_list_to_set, list_elem_of_fmap in Ha as (i & -> & Hi). apply elem_of_seq in Hi.
    apply elem_of_dom. apply bytes_at_in in H. apply H. unfold f. lia. }
  apply subseteq_size in Hs. rewrite size_list_to_set, size_dom, length_fmap, length_seq in Hs; [done|].
  apply NoDup_fmap_2; [|apply NoDup_seq]. intros x y. unfold f. lia.
Qed.
Lemma cstring_size m p l : cstring m p l -> (length l < size m)%nat.
Proof. intros [H _]. apply bytes_at_size in H. rewrite length_app in H. cbn in H. lia. Qed.

Section Items.
Variable m0 : mem.
Variable null_literal : Z.
Variable fuel : nat.
Hypothesis Hfuel : (size m0 < fuel)%nat.
Notation ld0 := (fun (_ : list Z) (a : Z) => load m0 a).

(** Flags after an optional number. *)
Definition with_width (w : Z) (f : flags) : flags := if w =? 0 then f else process_precision w f.
Lemma reswitch_opt_number n fmt f ap cs w c rest : field w -> is_digit (schar c) = false ->
  bytes_at m0 fmt (number_text w ++ c :: rest) -> (length (number_text w) < n)%nat ->
  exists n', (n <= n' + length (number_text w))%nat /\ reswitch ld0 fuel n fmt f ap cs =
    reswitch ld0 fuel n' (fmt + Z.of_nat (length (number_text w))) (with_width w f) ap cs.
Proof.
  unfold field, number_text, with_width. intros Hw Hc Hb Hn. destruct (Z.eqb_spec w 0).
  - exists n. cbn. rewrite Z.add_0_r. split; [lia|done].
  - destruct n as [|n]; [lia|]. exists n.
    assert (length (numeral 10 w) <> 0%nat).
    { destruct (numeral_10 w) as (_ & _ & H & _); [change INT_MAX with 2147483647 in *; lia|].
      by destruct (numeral 10 w). }
    split; [lia|]. eapply reswitch_number; try done; [lia|].
    apply bytes_at_size in Hb. rewrite length_app in Hb. lia.
Qed.

Lemma Ok_pos (c x y : Z) (f : flags) (ap : list Z) : x = y -> Ok (c, x, f, ap) = Ok (c, y, f, ap).
Proof. by intros ->. Qed.

(** Flags of the two kinds of directives, read up to the letter. *)
Lemma reswitch_num zero w l c fmt ap cs rest : field w -> stop c = true -> is_digit (schar c) = false ->
  bytes_at m0 fmt ((if zero : bool then [asc "0"] else []) ++ number_text w ++ replicate l (asc "l") ++ c :: rest) ->
  reswitch ld0 fuel fuel fmt flags0 ap cs =
    Ok (c, fmt + Z.of_nat (length ((if zero then [asc "0"] else []) ++ number_text w ++ replicate l (asc "l") ++ [c])),
        add_lflag l (with_width w (set_padc (pad_of zero) flags0)), ap).
Proof.
  intros Hw Hc Hd Hb. pose proof (bytes_at_size _ _ _ Hb) as Hs. rewrite !length_app, length_replicate in Hs. cbn [length] in Hs.
  assert (Hz : exists n, (fuel <= n + length (if zero then [asc "0"] else []))%nat /\ reswitch ld0 fuel fuel fmt flags0 ap cs =
    reswitch ld0 fuel n (fmt + Z.of_nat (length (if zero then [asc "0"] else []))) (set_padc (pad_of zero) flags0) ap cs).
  { destruct zero; cbn [length] in *.
    - destruct (Nat.lt_exists_pred 0 fuel) as (n & Hn & _); [lia|]. exists n. split; [lia|]. rewrite Hn at 2.
      by erewrite reswitch_zero by exact Hb.
    - exists fuel. rewrite Z.add_0_r. split; [lia|done]. }
  destruct Hz as (n & Hn & ->). apply bytes_at_app in Hb as [_ Hb].
  set (fz := fmt + _) in *.
  destruct (reswitch_opt_number n fz (set_padc (pad_of zero) flags0) ap cs w
    (hd c (replicate l (asc "l"))) (tl (replicate l (asc "l") ++ c :: rest))) as (n' & Hn' & ->); [done| | |lia|].
  - by destruct l.
  - by destruct l.
  - apply bytes_at_app in Hb as [_ Hb]. rewrite cons_middle, app_assoc in Hb. apply bytes_at_app in Hb as [Hb _].
    rewrite (reswitch_end m0 fuel l n' _ _ _ c) by (done || lia). apply Ok_pos.
    rewrite !length_app, length_replicate. cbn [length]. subst fz. lia.
Qed.
Lemma reswitch_str lft w prec fmt ap cs rest : field w -> field prec ->
  bytes_at m0 fmt ((if lft : bool then [asc "-"] else []) ++ number_text w ++
    (if prec =? 0 then [] else asc "." :: number_text prec) ++ asc "s" :: rest) ->
  exists f, reswitch ld0 fuel fuel fmt flags0 ap cs =
    Ok (asc "s", fmt + Z.of_nat (length ((if lft then [asc "-"] else []) ++ number_text w ++
          (if prec =? 0 then [] else asc "." :: number_text prec) ++ [asc "s"])), f, ap) /\
    padc f = (if lft then asc "-" else asc " ") /\ precision f = (if prec =? 0 then -1 else prec) /\
    -1 <= width f <= INT_MAX /\ Z.max 0 (width f) = w.
Proof.
  intros Hw Hp Hb. pose proof (bytes_at_size _ _ _ Hb) as Hs. rewrite !length_app in Hs. cbn [length] in Hs.
  set (f0 := set_padc (if lft then asc "-" else asc " ") flags0).
  assert (Hz : exists n, (fuel <= n + length (if lft then [asc "-"] else []))%nat /\ reswitch ld0 fuel fuel fmt flags0 ap cs =
    reswitch ld0 fuel n (fmt + Z.of_nat (length (if lft then [asc "-"] else []))) f0 ap cs).
  { destruct lft; cbn [length] in *.
    - destruct (Nat.lt_exists_pred 0 fuel) as (n & Hn & _); [lia|]. exists n. split; [lia|]. rewrite Hn at 2.
      by erewrite reswitch_left by exact Hb.
    - exists fuel. rewrite Z.add_0_r. split; [lia|done]. }
  destruct Hz as (n & Hn & ->). apply bytes_at_app in Hb as [_ Hb]. set (fz := fmt + _) in *.
  set (d := if prec =? 0 then [] else asc "." :: number_text prec) in *.
  destruct (reswitch_opt_number n fz f0 ap cs w (hd (asc "s") d) (tl (d ++ asc "s" :: rest)))
    as (n' & Hn' & ->); [done| | |lia|].
  { unfold d. by destruct (prec =? 0). }
  { unfold d in *. by destruct (prec =? 0). }
  apply bytes_at_app in Hb as [_ Hb]. set (fw := fz + _) in *.
  assert (Hf1 : padc (with_width w f0) = (if lft then asc "-" else asc " ") /\ precision (with_width w f0) = -1 /\
    -1 <= width (with_width w f0) <= INT_MAX /\ Z.max 0 (width (with_width w f0)) = w).
  { unfold with_width, process_precision, field in *. change INT_MAX with 2147483647 in *.
    destruct (Z.eqb_spec w 0); cbn; repeat split; lia. }
  set (f1 := with_width w f0) in *. destruct Hf1 as (H1 & H2 & H3 & H4).
  unfold d in *. destruct (Z.eqb_spec prec 0) as [Hp0|Hp0].
  - exists (add_lflag 0 f1). cbn [app] in Hb. change (asc "s" :: rest) with ([asc "s"] ++ rest) in Hb. apply bytes_at_app in Hb as [Hb _].
    rewrite (reswitch_end m0 fuel 0 n' _ _ _ (asc "s")) by (done || lia). split; [|cbn; repeat split; done || lia].
    apply Ok_pos. rewrite !length_app. cbn [length]. subst fw fz. lia.
  - cbn [length app] in *. destruct n' as [|n']; [lia|]. erewrite reswitch_dot by exact Hb.
    apply bytes_at_cons in Hb as [_ Hb]. set (f2 := if width f1 <? 0 then set_width 0 f1 else f1).
    destruct (reswitch_opt_number n' (fw + 1) f2 ap cs prec (asc "s") rest) as (n2 & Hn2 & ->); [done..|lia|].
    apply bytes_at_app in Hb as [_ Hb]. change (asc "s" :: rest) with ([asc "s"] ++ rest) in Hb. apply bytes_at_app in Hb as [Hb _].
    exists (add_lflag 0 (with_width prec f2)). rewrite (reswitch_end m0 fuel 0 n2 _ _ _ (asc "s")) by (done || lia).
    split.
    + apply Ok_pos. rewrite !length_app. cbn [length]. rewrite length_app. cbn [length]. subst fw fz. lia.
    + unfold with_width, process_precision, f2. destruct (Z.eqb_spec prec 0); [done|].
      destruct (Z.ltb_spec (width f1) 0); cbn; [repeat split; change INT_MAX with 2147483647; lia || done|].
      destruct (Z.ltb_spec (width f1) 0); [lia|]. cbn. repeat split; lia || done.
Qed.

(** *** Conversions, collected *)
Lemma getuint_arg l a ap : getuint (a :: ap) (Z.of_nat l) = Ok (uint_arg l a, ap).
Proof.
  unfold getuint. cbn [va_arg mbind res_bind]. destruct l as [|[|l]]; [done..|].
  by rewrite (proj2 (Z.leb_le _ _)) by lia.
Qed.
Lemma getint_arg l a ap : getint (a :: ap) (Z.of_nat l) = Ok (int_arg l a, ap).
Proof.
  unfold getint. cbn [va_arg mbind res_bind]. destruct l as [|[|l]]; [done..|].
  by rewrite (proj2 (Z.leb_le _ _)) by lia.
Qed.
Lemma uint_arg_range l a : 0 <= uint_arg l a < 2^64.
Proof. destruct l; cbn; [pose proof (w32_range a); lia|apply w64_range]. Qed.
Lemma int_arg_range l a : - 2^63 <= int_arg l a < 2^63.
Proof.
  destruct l; cbn; [pose proof (sext_range 32 a ltac:(lia)); unfold s32; lia|apply (sext_range 64); lia].
Qed.
Definition num_flags (zero : bool) (w : Z) (l : nat) : flags :=
  add_lflag l (with_width w (set_padc (pad_of zero) flags0)).
Lemma num_flags_text zero w l base num cs : field w -> 2 <= base <= 16 -> 0 <= num < 2^64 ->
  signed_number collect num base (num_flags zero w l) cs = Ok (cs ++ padded (pad_of zero) w (numeral base num)).
Proof.
  intros Hw Hb Hn. unfold signed_number, num_flags, with_width, field in *. change INT_MAX with 2147483647 in *.
  destruct (Z.eqb_spec w 0) as [->|].
  - cbn [width padc add_lflag set_padc flags0]. rewrite printnum_text by (done || lia). do 2 f_equal.
    unfold padded. f_equal. f_equal. lia.
  - unfold process_precision. cbn [width padc add_lflag set_padc flags0 Z.ltb Z.compare].
    rewrite printnum_text; [done|done|done|]. change INT_MIN with (-2147483648). lia.
Qed.
Lemma num_flags_lflag zero w l : field w -> lflag (num_flags zero w l) = Z.of_nat l.
Proof. intros _. unfold num_flags, with_width, process_precision. destruct (w =? 0); done. Qed.

Lemma conversion_uns k zero w l fmt last a ap cs : k <> Dec -> field w ->
  conversion collect ld0 null_literal fuel (conv_letter k) fmt last (num_flags zero w l) (a :: ap) cs =
    Ok (fmt, ap, cs ++ padded (pad_of zero) w (numeral (base_of k) (uint_arg l a))).
Proof.
  intros Hk Hw. pose proof (uint_arg_range l a).
  assert (E : conversion collect ld0 null_literal fuel (conv_letter k) fmt last (num_flags zero w l) (a :: ap) cs =
    '(ap, s) ← unsigned_number collect (base_of k) (lflag (num_flags zero w l)) (num_flags zero w l) (a :: ap) cs;
    Ok (fmt, ap, s)) by (by destruct k).
  rewrite E. unfold unsigned_number. rewrite num_flags_lflag, getuint_arg by done. cbn [mbind res_bind].
  rewrite num_flags_text; [done|done| |lia]. destruct k; cbn; lia.
Qed.
Lemma conversion_dec zero w l fmt last a ap cs : field w -> - 2^63 < int_arg l a ->
  conversion collect ld0 null_literal fuel (asc "d") fmt last (num_flags zero w l) (a :: ap) cs =
    Ok (fmt, ap, cs ++ (if int_arg l a <? 0
      then asc "-" :: padded (pad_of zero) w (numeral 10 (- int_arg l a))
      else padded (pad_of zero) w (numeral 10 (int_arg l a)))).
Proof.
  intros Hw Hmin. pose proof (int_arg_range l a) as Hr.
  assert (E : conversion collect ld0 null_literal fuel (asc "d") fmt last (num_flags zero w l) (a :: ap) cs =
    '(num, ap) ← getint (a :: ap) (lflag (num_flags zero w l));
    if num <? 0 then
      s ← collect (asc "-") cs;
      num ← chk_long (- num);
      s ← signed_number collect (w64 num) 10 (num_flags zero w l) s;
      Ok (fmt, ap, s)
    else s ← signed_number collect (w64 num) 10 (num_flags zero w l) cs; Ok (fmt, ap, s)) by done.
  rewrite E, num_flags_lflag, getint_arg by done. cbn [mbind res_bind]. destruct (Z.ltb_spec (int_arg l a) 0).
  - cbn [collect mbind res_bind]. unfold chk_long. rewrite (proj2 (Z.leb_le _ _)), (proj2 (Z.ltb_lt _ _)) by lia.
    cbn [andb mbind res_bind]. rewrite w64_id, num_flags_text by (done || lia). cbn [mbind res_bind].
    by rewrite <- app_assoc.
  - by rewrite w64_id, num_flags_text by (done || lia).
Qed.
Lemma str_text_spec f l lft w prec : padc f = (if lft : bool then asc "-" else asc " ") ->
  precision f = (if prec =? 0 then -1 else prec) -> 0 <= prec -> Z.max 0 (width f) = w ->
  str_text f l = let t := map schar (if prec =? 0 then l else take (Z.to_nat prec) l) in
    let blanks := replicate (Z.to_nat (w - Z.of_nat (length t))) (asc " ") in
    if lft then t ++ blanks else blanks ++ t.
Proof.
  intros Hc Hp H0 Hw. unfold str_text. rewrite Hc, Hp. cbn zeta.
  assert (Ht : shown (if prec =? 0 then -1 else prec) l = if prec =? 0 then l else take (Z.to_nat prec) l).
  { destruct (Z.eqb_spec prec 0) as [->|]; [done|]. unfold shown. destruct (Z.ltb_spec prec 0); [lia|done]. }
  rewrite Ht. set (t := map schar _).
  replace (Z.to_nat (width f - Z.of_nat (length t))) with (Z.to_nat (w - Z.of_nat (length t))) by lia.
  by destruct lft.
Qed.

Lemma conversion_ptr fmt last a ap cs :
  conversion collect ld0 null_literal fuel (asc "p") fmt last flags0 (a :: ap) cs =
    Ok (fmt, ap, cs ++ asc "0" :: asc "x" :: numeral 16 (w64 a)).
Proof.
  assert (E : conversion collect ld0 null_literal fuel (asc "p") fmt last flags0 (a :: ap) cs =
    '(ap, s) ← unsigned_number collect 16 (Z.of_nat 1) (num_flags false 0 0) (a :: ap) ((cs ++ [asc "0"]) ++ [asc "x"]);
    Ok (fmt, ap, s)) by done.
  rewrite E. unfold unsigned_number. rewrite getuint_arg. cbn [mbind res_bind].
  rewrite num_flags_text; [|by split|lia|apply w64_range]. cbn [mbind res_bind]. do 2 f_equal.
  unfold padded. replace (Z.to_nat _) with 0%nat by lia. by rewrite <- !app_assoc.
Qed.
Lemma conversion_str f l fmt last a ap cs : w64 a <> 0 -> cstring m0 (w64 a) l -> Z.of_nat (length l) <= INT_MAX ->
  -1 <= precision f <= INT_MAX -> -1 <= width f <= INT_MAX ->
  conversion collect ld0 null_literal fuel (asc "s") fmt last f (a :: ap) cs = Ok (fmt, ap, cs ++ str_text f l).
Proof.
  intros Ha Hl Hlen Hp Hw. pose proof (cstring_size _ _ _ Hl).
  assert (E : conversion collect ld0 null_literal fuel (asc "s") fmt last f (a :: ap) cs =
    s ← print_string collect ld0 null_literal fuel (w64 a) f cs; Ok (fmt, ap, s)) by done.
  rewrite E, (print_string_text m0 null_literal fuel _ _ l) by (done || lia). done.
Qed.

(** *** A format, directive by directive *)
Lemma loop_directive n fmt ap cs rest ch fmt' f ap' fmt2 ap2 cs2 :
  bytes_at m0 fmt (asc "%" :: rest) ->
  reswitch ld0 fuel fuel (fmt + 1) flags0 ap cs = Ok (ch, fmt', f, ap') ->
  conversion collect ld0 null_literal fuel ch fmt' (fmt + 1) f ap' cs = Ok (fmt2, ap2, cs2) ->
  vprintfmt_loop collect ld0 null_literal fuel (S n) fmt ap cs =
    vprintfmt_loop collect ld0 null_literal fuel n fmt2 ap2 cs2.
Proof.
  intros Hb Hr Hc. apply bytes_at_cons in Hb as [Hb _]. cbn [vprintfmt_loop]. rewrite (load_ok _ _ _ Hb).
  cbn [mbind res_bind]. rewrite Z.eqb_refl. cbn zeta. rewrite Hr. cbn [mbind res_bind]. by rewrite Hc.
Qed.
Lemma items_at i its fmt : bytes_at m0 fmt (items_text (i :: its) ++ [0]) ->
  exists rest, bytes_at m0 fmt (item_text i ++ rest) /\
    bytes_at m0 (fmt + Z.of_nat (length (item_text i))) (items_text its ++ [0]).
Proof.
  unfold items_text. cbn [map concat]. rewrite <- app_assoc. intros Hb. eexists. split; [exact Hb|].
  by apply bytes_at_app in Hb as [_ Hb].
Qed.
(** A directive of one letter. *)
Lemma loop_letter n fmt c ap cs rest fmt2 ap2 cs2 :
  bytes_at m0 fmt (asc "%" :: c :: rest) -> stop c = true ->
  conversion collect ld0 null_literal fuel c (fmt + 2) (fmt + 1) flags0 ap cs = Ok (fmt2, ap2, cs2) ->
  vprintfmt_loop collect ld0 null_literal fuel (S n) fmt ap cs =
    vprintfmt_loop collect ld0 null_literal fuel n fmt2 ap2 cs2.
Proof.
  intros Hb Hs Hc. eapply loop_directive; [exact Hb| |exact Hc].
  pose proof (bytes_at_size _ _ _ Hb) as Hz. cbn in Hz. apply bytes_at_cons in Hb as [_ Hb].
  change (c :: rest) with ([c] ++ rest) in Hb. apply bytes_at_app in Hb as [Hb _].
  rewrite (reswitch_end m0 fuel 0 fuel _ _ _ c) by (done || lia). apply Ok_pos. lia.
Qed.
Lemma loop_num n fmt zero w l k ap cs rest fmt2 ap2 cs2 :
  bytes_at m0 fmt (item_text (Num zero w l k) ++ rest) -> field w ->
  conversion collect ld0 null_literal fuel (conv_letter k) (fmt + Z.of_nat (length (item_text (Num zero w l k))))
    (fmt + 1) (num_flags zero w l) ap cs = Ok (fmt2, ap2, cs2) ->
  vprintfmt_loop collect ld0 null_literal fuel (S n) fmt ap cs =
    vprintfmt_loop collect ld0 null_literal fuel n fmt2 ap2 cs2.
Proof.
  intros Hb Hw Hc. cbn [item_text app] in Hb. rewrite <- !app_assoc in Hb.
  eapply loop_directive; [exact Hb| |exact Hc]. apply bytes_at_cons in Hb as [_ Hb].
  rewrite (reswitch_num zero w l (conv_letter k) _ _ _ rest); [|exact Hw|by destruct k|by destruct k|exact Hb].
  apply Ok_pos. cbn [item_text length]. lia.
Qed.

Lemma loop_str n fmt lft w prec ap cs rest :
  bytes_at m0 fmt (item_text (Str lft w prec) ++ rest) -> field w -> field prec ->
  exists f, (forall fmt2 ap2 cs2,
      conversion collect ld0 null_literal fuel (asc "s") (fmt + Z.of_nat (length (item_text (Str lft w prec))))
        (fmt + 1) f ap cs = Ok (fmt2, ap2, cs2) ->
      vprintfmt_loop collect ld0 null_literal fuel (S n) fmt ap cs =
        vprintfmt_loop collect ld0 null_literal fuel n fmt2 ap2 cs2) /\
    padc f = (if lft then asc "-" else asc " ") /\ precision f = (if prec =? 0 then -1 else prec) /\
    -1 <= width f <= INT_MAX /\ Z.max 0 (width f) = w.
Proof.
  intros Hb Hw Hp. cbn [item_text app] in Hb. rewrite <- !app_assoc in Hb. cbn [app] in Hb. pose proof Hb as Hb0.
  apply bytes_at_cons in Hb as [_ Hb].
  destruct (reswitch_str lft w prec (fmt + 1) ap cs rest Hw Hp Hb) as (f & Hr & Hf).
  exists f. split; [|exact Hf]. intros fmt2 ap2 cs2 Hc. eapply loop_directive; [exact Hb0|exact Hr|].
  rewrite <- Hc. f_equal. cbn [item_text length]. lia.
Qed.
Lemma vloop_items its : forall ap out n fmt cs, prints m0 its ap out -> Forall item_ok its ->
  bytes_at m0 fmt (items_text its ++ [0]) -> (length its < n)%nat ->
  vprintfmt_loop collect ld0 null_literal fuel n fmt ap cs = Ok (cs ++ out).
Proof.
  induction its as [|i its IH]; intros ap out [|n] fmt cs Hp Hok Hb Hn; try (cbn in Hn; lia).
  - apply bytes_at_cons in Hb as [Hb _]. inversion Hp; subst. cbn [vprintfmt_loop]. rewrite (load_ok _ _ _ Hb).
    cbn. by rewrite app_nil_r.
  - apply Forall_cons in Hok as [Hi Hok]. apply items_at in Hb as (rest & Hb & Hb').
    assert (IH' : forall ap out cs, prints m0 its ap out ->
      vprintfmt_loop collect ld0 null_literal fuel n (fmt + Z.of_nat (length (item_text i))) ap cs = Ok (cs ++ out)).
    { intros. apply IH; try done. cbn in Hn. lia. }
    inversion Hp; subst; cbn [item_ok] in Hi.
    + cbn [item_text app] in Hb. apply bytes_at_cons in Hb as [Hb _]. cbn [vprintfmt_loop].
      rewrite (load_ok _ _ _ Hb). cbn [mbind res_bind]. destruct Hi as [Hi1 Hi2].
      destruct (Z.eqb_spec c (asc "%")); [done|]. destruct (Z.eqb_spec c 0); [done|]. cbn [collect mbind res_bind].
      change (fmt + 1) with (fmt + Z.of_nat (length (item_text (Lit c)))). rewrite IH' with (out := out0) by done.
      by rewrite <- app_assoc.
    + erewrite loop_letter; [|exact Hb|done|reflexivity].
      change (fmt + 2) with (fmt + Z.of_nat (length (item_text Percent))). rewrite IH' with (out := out0) by done.
      by rewrite <- app_assoc.
    + erewrite loop_letter; [|exact Hb|done|reflexivity].
      change (fmt + 2) with (fmt + Z.of_nat (length (item_text Chr))). rewrite IH' with (out := out0) by done.
      by rewrite <- app_assoc.
    + erewrite loop_letter; [|exact Hb|done|apply conversion_ptr].
      change (fmt + 2) with (fmt + Z.of_nat (length (item_text Ptr))). rewrite IH' with (out := out0) by done.
      by rewrite <- app_assoc.
    + destruct Hi as [Hw Hprec]. destruct (loop_str n fmt lft w prec (a :: ap0) cs rest) as (f & Hf & E1 & E2 & E3 & E4);
        [done..|]. rewrite (Hf _ _ _ (conversion_str f l _ _ a ap0 cs ltac:(done) ltac:(done) ltac:(done)
          ltac:(rewrite E2; unfold field in *; change INT_MAX with 2147483647 in *; destruct (Z.eqb_spec prec 0); lia) E3)).
      rewrite IH' with (out := out0), <- app_assoc by done.
      rewrite (str_text_spec f l lft w prec E1 E2) by (unfold field in *; lia). done.
    + erewrite loop_num; [|exact Hb|exact Hi|by apply conversion_uns]. rewrite IH' with (out := out0) by done.
      by rewrite <- app_assoc.
    + erewrite loop_num; [|exact Hb|exact Hi|apply conversion_dec; [done|lia]].
      rewrite (proj2 (Z.ltb_ge _ _)) by lia. rewrite IH' with (out := out0) by done. by rewrite <- app_assoc.
    + erewrite loop_num; [|exact Hb|exact Hi|apply conversion_dec; [done|lia]].
      rewrite (proj2 (Z.ltb_lt _ _)) by lia. rewrite IH' with (out := out0) by done. by rewrite <- app_assoc.
Qed.
End Items.
