(* ===== verification/RuntimeIO.v ===== *)
(** The bare-metal runtime as a whole: what a format prints, that vprintfmt
    ends, sprintf and atol, printf and the host, and the report of _init. *)
From S2P Require Import Prelude Runtime RuntimeMem RuntimeProps.
From Stdlib Require Import Ascii.
Local Open Scope Z_scope.

(** ** vprintfmt *)
Lemma items_length its : (length its <= length (items_text its))%nat.
Proof.
  unfold items_text. induction its as [|i its IH]; [done|]. cbn [map concat length]. rewrite length_app.
  assert (1 <= length (item_text i))%nat by (destruct i; cbn; lia). lia.
Qed.
(** A format of directives prints what [prints] says of its directives. *)
Lemma format_text m0 null_literal fuel fmt its ap out :
  (size m0 < fuel)%nat -> Forall item_ok its -> cstring m0 fmt (items_text its) ->
  prints m0 its ap out -> text_of m0 null_literal fuel fmt ap = Ok out.
Proof.
  intros Hf Hok [Hfmt Hne] Hp. pose proof (items_length its). pose proof (bytes_at_size _ _ _ Hfmt) as Hs.
  rewrite length_app in Hs. unfold text_of, vprintfmt. by rewrite (vloop_items m0 null_literal fuel Hf its ap out) by (done || lia).
Qed.

(** *** Termination *)
Section Ends.
Variable m0 : mem.
Variable null_literal : Z.
Variable fuel : nat.
Hypothesis Hfuel : (size m0 < fuel)%nat.
Notation ld0 := (fun (_ : list Z) (a : Z) => load m0 a).

Definition ends {A} (r : res A) : Prop := r <> NoFuel.
Lemma ends_bind {A B} (r : res A) (k : A -> res B) :
  ends r -> (forall a, r = Ok a -> ends (k a)) -> ends (r ≫= k).
Proof. destruct r; cbn; unfold ends; auto; congruence. Qed.
Lemma ends_Ok {A} (a : A) : ends (Ok a). Proof. done. Qed.
Lemma ends_load a : ends (load m0 a). Proof. unfold load. by destruct (m0 !! a). Qed.
Hint Resolve ends_Ok ends_load : core.

(** How many bytes of memory lie at [p] and above. *)
Definition above (p : Z) : nat := size (filter (fun x => p <= x.1) m0).
Lemma above_size p : (above p < fuel)%nat.
Proof. pose proof (map_subseteq_size _ _ (map_filter_subseteq (fun x => p <= x.1) m0)). unfold above. lia. Qed.
Lemma above_lt p p' b : load m0 p = Ok b -> p < p' -> (above p' < above p)%nat.
Proof.
  unfold load. destruct (m0 !! p) as [c|] eqn:E; [intros _|done]. intros Hlt. apply map_subset_size.
  split.
  - apply map_subseteq_spec. intros a x H. apply map_lookup_filter_Some in H as [H Ha]. cbn in Ha.
    apply map_lookup_filter_Some. split; [done|cbn; lia].
  - intros Hs. assert (H : filter (fun x => p <= x.1) m0 !! p = Some c).
    { apply map_lookup_filter_Some. split; [done|cbn; lia]. }
    apply (lookup_weaken _ _ _ _ H) in Hs. apply map_lookup_filter_Some in Hs as [_ Hs]. cbn in Hs. lia.
Qed.

Lemma printnum_digs_ends n : forall num base, ends (printnum_digs n num base).
Proof.
  induction n as [|n IH]; intros num base; cbn [printnum_digs]; [done|]. destruct (num <? base); [done|].
  by apply ends_bind.
Qed.
Lemma printnum_ends num base wid pad cs : ends (printnum collect num base wid pad cs).
Proof.
  unfold printnum. apply ends_bind; [apply printnum_digs_ends|]. intros digs _. cbn zeta.
  destruct (wid =? INT_MIN); [done|]. rewrite collect_times. cbn [mbind res_bind]. by rewrite collect_list.
Qed.
Lemma chk_int_ends x : ends (chk_int x). Proof. unfold chk_int. by destruct (_ && _). Qed.
Lemma width_digits_ends n : forall prec ch fmt cs, (above fmt < n)%nat ->
  ends (width_digits ld0 n prec ch fmt cs) /\
  forall r, width_digits ld0 n prec ch fmt cs = Ok r -> fmt <= r.2.
Proof.
  induction n as [|n IH]; intros prec ch fmt cs Hn; [lia|]. cbn [width_digits]. split.
  - apply ends_bind; [apply chk_int_ends|]. intros x _. apply ends_bind; [apply chk_int_ends|]. intros y _.
    apply ends_bind; [done|]. intros c Hc. cbn zeta. destruct (is_digit (schar c)); [|done].
    apply IH. pose proof (above_lt fmt (fmt + 1) c Hc ltac:(lia)). lia.
  - intros r H. apply rbind_Ok in H as (x & _ & H). apply rbind_Ok in H as (y & _ & H). cbn zeta in H.
    apply rbind_Ok in H as (c & Hc & H). destruct (is_digit (schar c)); [|injection H as <-; cbn; lia].
    apply IH in H; [lia|]. pose proof (above_lt fmt (fmt + 1) c Hc ltac:(lia)). lia.
Qed.
Lemma va_arg_ends ap : ends (va_arg ap). Proof. by destruct ap. Qed.
Lemma reswitch_ends n : forall fmt f ap cs, (above fmt < n)%nat ->
  ends (reswitch ld0 fuel n fmt f ap cs) /\
  forall r, reswitch ld0 fuel n fmt f ap cs = Ok r -> fmt < r.1.1.2.
Proof.
  induction n as [|n IH]; intros fmt f ap cs Hn; [lia|]. cbn [reswitch].
  destruct (load m0 fmt) as [ch| |] eqn:Hch; cbn [mbind res_bind]; [|done|by destruct (ends_load fmt)]. cbn zeta.
  assert (Hnext : forall fmt' f ap, fmt + 1 <= fmt' -> ends (reswitch ld0 fuel n fmt' f ap cs) /\
    forall r, reswitch ld0 fuel n fmt' f ap cs = Ok r -> fmt < r.1.1.2).
  { intros fmt' f' ap' Hf. pose proof (above_lt fmt fmt' ch Hch ltac:(lia)).
    destruct (IH fmt' f' ap' cs) as [He Hr]; [lia|]. split; [done|]. intros r Hr0. apply Hr in Hr0. lia. }
  destruct (ch =? asc "-"); [apply Hnext; lia|]. destruct (ch =? asc "0"); [apply Hnext; lia|].
  destruct (is_digit ch).
  { destruct (width_digits_ends fuel 0 ch (fmt + 1) cs (above_size _)) as [He Hr].
    destruct (width_digits ld0 fuel 0 ch (fmt + 1) cs) as [[prec fmt']| |]; cbn [mbind res_bind]; [|done..].
    apply Hnext. by apply (Hr (prec, fmt')). }
  destruct (ch =? asc "*"). { destruct ap as [|a ap]; cbn [va_arg mbind res_bind]; [done|]. apply Hnext; lia. }
  destruct (ch =? asc "."); [apply Hnext; lia|]. destruct (ch =? asc "#"); [apply Hnext; lia|].
  destruct (ch =? asc "l"); [apply Hnext; lia|]. split; [done|]. intros r [= <-]. cbn. lia.
Qed.
Lemma strnlen_loop_ends n : forall p k cs, (above p < n)%nat -> ends (strnlen_loop n (ld0 cs) p k).
Proof.
  induction n as [|n IH]; intros p k cs Hn; [lia|]. cbn [strnlen_loop]. destruct (k =? 0); [done|].
  apply ends_bind; [done|]. intros c Hc. destruct (c =? 0); [done|]. apply (IH _ _ cs).
  pose proof (above_lt p (p + 1) c Hc ltac:(lia)). lia.
Qed.
Lemma put_string_ends n : forall p prec wid cs, (above p < n)%nat -> ends (put_string collect ld0 n p prec wid cs).
Proof.
  induction n as [|n IH]; intros p prec wid cs Hn; [lia|]. cbn [put_string].
  apply ends_bind; [done|]. intros c Hc. pose proof (above_lt p (p + 1) c Hc ltac:(lia)).
  destruct (c =? 0); [done|]. destruct (prec <? 0); [apply IH; lia|]. destruct (0 <=? prec - 1); [apply IH; lia|done].
Qed.
Lemma print_string_ends p f cs : ends (print_string collect ld0 null_literal fuel p f cs).
Proof.
  unfold print_string. set (q := if p =? 0 then null_literal else p). apply ends_bind.
  - destruct (_ && _); [|done]. apply ends_bind.
    + unfold strnlen. apply ends_bind; [|done]. by apply (strnlen_loop_ends fuel _ _ cs), above_size.
    + intros len _. by rewrite collect_times.
  - intros [wid cs'] _. apply ends_bind; [apply put_string_ends, above_size|]. intros [wid' cs2] _.
    by rewrite collect_times.
Qed.
Lemma unsigned_number_ends base l f ap cs : ends (unsigned_number collect base l f ap cs).
Proof.
  unfold unsigned_number, getuint. apply ends_bind; [apply ends_bind; [apply va_arg_ends|by intros [a ap'] _]|].
  intros [num ap'] _. apply ends_bind; [apply printnum_ends|done].
Qed.
Lemma conversion_ends ch fmt last f ap cs :
  ends (conversion collect ld0 null_literal fuel ch fmt last f ap cs) /\
  forall r, conversion collect ld0 null_literal fuel ch fmt last f ap cs = Ok r -> r.1.1 = fmt \/ r.1.1 = last.
Proof.
  assert (Hu : forall base l cs, ends ('(ap, s) ← unsigned_number collect base l f ap cs; Ok (fmt, ap, s)) /\
    forall r, ('(ap, s) ← unsigned_number collect base l f ap cs; Ok (fmt, ap, s)) = Ok r -> r.1.1 = fmt \/ r.1.1 = last).
  { intros base l cs'. split; [apply ends_bind; [apply unsigned_number_ends|by intros [a s] _]|].
    intros r H. apply rbind_Ok in H as ([a s] & _ & [= <-]). by left. }
  unfold conversion.
  destruct (ch =? asc "c").
  { split; [apply ends_bind; [apply va_arg_ends|by intros [a ap'] _]|].
    intros r H. apply rbind_Ok in H as ([a ap'] & _ & [= <-]). by left. }
  destruct (ch =? asc "s").
  { split.
    - apply ends_bind; [apply va_arg_ends|]. intros [a ap'] _. apply ends_bind; [apply print_string_ends|done].
    - intros r H. apply rbind_Ok in H as ([a ap'] & _ & H). apply rbind_Ok in H as (s & _ & [= <-]). by left. }
  destruct (ch =? asc "d").
  { split.
    - apply ends_bind; [unfold getint; apply ends_bind; [apply va_arg_ends|by intros [a ap'] _]|]. intros [num ap'] _.
      destruct (num <? 0); [|apply ends_bind; [apply printnum_ends|done]]. cbn [collect mbind res_bind].
      apply ends_bind; [unfold chk_long; by destruct (_ && _)|]. intros x _. apply ends_bind; [apply printnum_ends|done].
    - intros r H. apply rbind_Ok in H as ([num ap'] & _ & H). destruct (num <? 0).
      + apply rbind_Ok in H as (s & _ & H). apply rbind_Ok in H as (x & _ & H). apply rbind_Ok in H as (s' & _ & [= <-]). by left.
      + apply rbind_Ok in H as (s & _ & [= <-]). by left. }
  destruct (ch =? asc "u"); [apply Hu|]. destruct (ch =? asc "o"); [apply Hu|].
  destruct (ch =? asc "p"); [cbn [collect mbind res_bind]; apply Hu|]. destruct (ch =? asc "x"); [apply Hu|].
  destruct (ch =? asc "%"); (split; [done|]; intros r [= <-]; cbn; tauto).
Qed.
Lemma vprintfmt_loop_ends n : forall fmt ap cs, (above fmt < n)%nat ->
  ends (vprintfmt_loop collect ld0 null_literal fuel n fmt ap cs).
Proof.
  induction n as [|n IH]; intros fmt ap cs Hn; [lia|]. cbn [vprintfmt_loop].
  apply ends_bind; [done|]. intros ch Hch.
  assert (Hnext : forall fmt', fmt < fmt' -> (above fmt' < n)%nat).
  { intros fmt' Hf. pose proof (above_lt fmt fmt' ch Hch Hf). lia. }
  destruct (ch =? asc "%").
  - cbn zeta. destruct (reswitch_ends fuel (fmt + 1) flags0 ap cs (above_size _)) as [He Hr].
    apply ends_bind; [done|]. intros [[[ch' fmt'] f] ap'] E. apply Hr in E. cbn in E.
    destruct (conversion_ends ch' fmt' (fmt + 1) f ap' cs) as [He2 Hr2]. apply ends_bind; [done|].
    intros [[fmt2 ap2] cs2] E2. apply Hr2 in E2. cbn in E2. apply IH, Hnext. lia.
  - destruct (ch =? 0); [done|]. apply IH, Hnext. lia.
Qed.
End Ends.

(** ** sprintf *)
Definition byte_of (c : Z) : Z := c mod 256.
Definition outside (m0 : mem) (p n : Z) : Prop := forall a, p <= a < p + n -> m0 !! a = None.

Lemma write_bytes_sub m0 m p l n : m0 ⊆ m -> outside m0 p n -> Z.of_nat (length l) <= n -> m0 ⊆ write_bytes p l m.
Proof.
  intros Hs Ho Hl. apply map_subseteq_spec. intros a x Ha. rewrite lookup_write_out; [by eapply lookup_weaken|].
  destruct (Z.ltb_spec a p); [lia|]. destruct (Z.leb_spec (p + Z.of_nat (length l)) a); [lia|].
  rewrite Ho in Ha by lia. done.
Qed.
Lemma put_sprintf cs : forall m p, in_mem m p (Z.of_nat (length cs)) ->
  put_list sprintf_putch cs (m, p) = Ok (write_bytes p (map byte_of cs) m, p + Z.of_nat (length cs)).
Proof.
  induction cs as [|c cs IH]; intros m p H; cbn [put_list map write_bytes length]; [by rewrite Z.add_0_r|].
  apply in_mem_cons in H as [H0 H]. 
  assert (E : sprintf_putch c (m, p) = Ok (<[p := c mod 256]> m, p + 1)) by (unfold sprintf_putch; by rewrite store_mod).
  rewrite E. cbn [mbind res_bind].
  rewrite IH by done. f_equal. f_equal. lia.
Qed.
(** sprintf writes the text of its format and a terminator at [str], and
    nothing else; its result is the length. *)
Lemma sprintf_writes m0 m null_literal fuel str fmt ap cs :
  m0 ⊆ m -> text_of m0 null_literal fuel fmt ap = Ok cs ->
  in_mem m str (Z.of_nat (length cs) + 1) -> outside m0 str (Z.of_nat (length cs) + 1) ->
  sprintf null_literal fuel str fmt ap m =
    Ok (s32 (Z.of_nat (length cs)), write_bytes str (map byte_of cs ++ [0]) m).
Proof.
  intros Hs Ht Hin Ho. unfold sprintf.
  assert (Hrun : forall k, put_list sprintf_putch (take k cs) (m, str) =
    Ok (write_bytes str (map byte_of (take k cs)) m, str + Z.of_nat (length (take k cs)))).
  { intros k. apply put_sprintf. intros a Ha. apply Hin. rewrite length_take in Ha. lia. }
  rewrite (vprintfmt_puts sprintf_putch _ m0 null_literal fuel fmt ap cs); [|done|].
  - specialize (Hrun (length cs)). rewrite firstn_all in Hrun. rewrite Hrun. cbn [mbind res_bind].
    rewrite store_mod by (apply write_bytes_dom, Hin; lia). cbn [mbind res_bind]. f_equal. f_equal; [f_equal; lia|].
    rewrite write_bytes_app, length_map. done.
  - intros k s' Hk. rewrite Hrun in Hk. injection Hk as <-. intros a b Ha. cbn [fst].
    unfold load in Ha. destruct (m0 !! a) as [x|] eqn:E; [injection Ha as ->|done]. apply load_ok.
    eapply lookup_weaken; [exact E|]. apply (write_bytes_sub _ _ _ _ (Z.of_nat (length cs) + 1)); try done.
    rewrite length_map, length_take. lia.
Qed.

(** ** atol *)
Lemma chk_long_ok x : - 2^63 <= x < 2^63 -> chk_long x = Ok x.
Proof. intros H. unfold chk_long. by rewrite (proj2 (Z.leb_le _ _)), (proj2 (Z.ltb_lt _ _)) by lia. Qed.
Lemma atol_digits_ok m l : forall fuel p r, bytes_at m p (l ++ [0]) -> Forall (fun c => 48 <= c < 58) l ->
  0 <= r -> horner 10 (fun c => c - 48) l r < 2^63 -> (length l < fuel)%nat ->
  atol_digits fuel m p r = Ok (horner 10 (fun c => c - 48) l r).
Proof.
  induction l as [|c l IH]; intros [|fuel] p r Hb Hd Hr Hv Hf; try (cbn in Hf; lia); cbn [atol_digits];
    apply bytes_at_cons in Hb as [Hb Hb']; rewrite (load_ok _ _ _ Hb); cbn [mbind res_bind]; [done|].
  apply Forall_cons in Hd as [Hc Hd]. destruct (Z.eqb_spec c 0); [lia|]. rewrite horner_cons in *.
  pose proof (horner_ge l (r * 10 + (c - 48)) Hd ltac:(lia)). rewrite schar_id by lia. change (asc "0") with 48.
  rewrite chk_long_ok by lia. cbn [mbind res_bind]. rewrite chk_long_ok by lia. cbn [mbind res_bind].
  apply IH; try done; [lia|]. cbn in Hf. lia.
Qed.

(** The text of %ld. *)
Definition long_text (v : Z) : list Z := if v <? 0 then asc "-" :: numeral 10 (- v) else numeral 10 v.
Lemma long_text_prints m0 v : - 2^63 < v < 2^63 -> prints m0 [Num false 0 1 Dec] [w64 v] (long_text v).
Proof.
  intros Hv. assert (E : int_arg 1 (w64 v) = v).
  { cbn. unfold s64, w64. rewrite (sext_congr 64 _ v) by (lia || (rewrite Z.mod_mod; lia)). apply sext_id; lia. }
  assert (Hp : forall t, padded (pad_of false) 0 t ++ [] = t).
  { intros t. unfold padded. replace (Z.to_nat _) with 0%nat by lia. apply app_nil_r. }
  unfold long_text. destruct (Z.ltb_spec v 0).
  - pose proof (p_neg m0 false 0 1 [] (w64 v) [] [] ltac:(rewrite E; lia) (p_nil _ _)) as H1. by rewrite E, Hp in H1.
  - pose proof (p_dec m0 false 0 1 [] (w64 v) [] [] ltac:(rewrite E; lia) (p_nil _ _)) as H1. by rewrite E, Hp in H1.
Qed.
Lemma digits_bytes l : Forall (fun c => 48 <= c < 58) l -> map byte_of l = l.
Proof.
  induction 1 as [|c l Hc _ IH]; [done|]. cbn. rewrite IH. unfold byte_of. by rewrite Z.mod_small by lia.
Qed.
Lemma long_text_facts v : - 2^63 < v < 2^63 ->
  map byte_of (long_text v) = long_text v /\ (0 < length (long_text v) <= 20)%nat.
Proof.
  intros Hv. unfold long_text. destruct (Z.ltb_spec v 0).
  - destruct (numeral_10 (- v)) as (Hd & _ & Hne & _); [lia|]. cbn [map length]. rewrite digits_bytes by done.
    pose proof (numeral_10_length (- v) 19 ltac:(lia) ltac:(lia) ltac:(lia)). split; [done|lia].
  - destruct (numeral_10 v) as (Hd & _ & Hne & _); [lia|]. rewrite digits_bytes by done.
    pose proof (numeral_10_length v 19 ltac:(lia) ltac:(lia) ltac:(lia)). split; [done|].
    destruct (numeral 10 v); [done|]. cbn in *. lia.
Qed.
Lemma atol_long_text m p v fuel : - 2^63 < v < 2^63 -> bytes_at m p (long_text v ++ [0]) -> (20 < fuel)%nat ->
  atol fuel m p = Ok v.
Proof.
  intros Hv Hb Hf. destruct fuel as [|fuel]; [lia|]. unfold atol, long_text in *.
  destruct (Z.ltb_spec v 0).
  - destruct (numeral_10 (- v)) as (Hd & Hval & _ & _); [lia|].
    pose proof (numeral_10_length (- v) 19 ltac:(lia) ltac:(lia) ltac:(lia)).
    cbn [app] in Hb. apply bytes_at_cons in Hb as [Hb Hb']. cbn [atol_spaces].
    rewrite !(load_ok _ _ _ Hb). cbn [mbind res_bind]. change (asc "-" =? asc " ") with false. cbn [mbind res_bind].
    rewrite (load_ok _ _ _ Hb). cbn [mbind res_bind]. rewrite Z.eqb_refl. cbn [orb]. cbn zeta.
    rewrite (atol_digits_ok m (numeral 10 (- v))) by (done || lia). rewrite Hval. cbn [mbind res_bind].
    rewrite chk_long_ok by lia. f_equal. lia.
  - destruct (numeral_10 v) as (Hd & Hval & Hne & _); [lia|].
    pose proof (numeral_10_length v 19 ltac:(lia) ltac:(lia) ltac:(lia)).
    destruct (numeral 10 v) as [|c l] eqn:E; [done|]. pose proof Hb as Hb0.
    cbn [app] in Hb. apply bytes_at_cons in Hb as [Hb _]. apply Forall_cons in Hd as [Hc Hd]. cbn [atol_spaces].
    rewrite !(load_ok _ _ _ Hb). cbn [mbind res_bind]. change (asc " ") with 32. destruct (Z.eqb_spec c 32); [lia|].
    cbn [mbind res_bind]. rewrite (load_ok _ _ _ Hb). cbn [mbind res_bind].
    change (asc "-") with 45. change (asc "+") with 43. destruct (Z.eqb_spec c 45); [lia|].
    destruct (Z.eqb_spec c 43); [lia|]. cbn [orb]. cbn zeta.
    rewrite (atol_digits_ok m (c :: l)) by (done || lia || (by apply Forall_cons)). by rewrite Hval.
Qed.

(** ** printf, the host and _init *)
Section Host.
Variable host : machine -> machine.
Variables magic_addr putchar_buf null_literal name_mcycle name_minstret : Z.
Variable fuel : nat.
Variable m0 : mem.

(** The host serves a write request: it puts out the bytes, leaves the
    objects of the program as they are and answers before the fuel ends. *)
Definition serves : Prop := forall s p bs,
  tohost s = magic_addr -> take 4 (magic_mem s) = [SYS_write; 1; p; Z.of_nat (length bs)] ->
  bytes_at (mm s) p bs ->
  exists s', wait_fromhost host fuel s = Ok s' /\ mm s' = mm s /\ console s' = console s ++ bs /\
    buflen s' = buflen s /\ counters s' = counters s /\ counter_names s' = counter_names s /\ magic_mem s' <> [].
Hypothesis Hserves : serves.

Lemma syscall_write s p bs : bytes_at (mm s) p bs ->
  exists r s', syscall host magic_addr fuel SYS_write 1 p (Z.of_nat (length bs)) s = Ok (r, s') /\
    mm s' = mm s /\ console s' = console s ++ bs /\ buflen s' = buflen s /\
    counters s' = counters s /\ counter_names s' = counter_names s /\ fromhost s' = 0.
Proof.
  intros Hb. unfold syscall. cbn zeta.
  destruct (Hserves (set_tohost magic_addr (set_magic ([SYS_write; 1; p; Z.of_nat (length bs)] ++ drop 4 (magic_mem s)) s)) p bs)
    as (s' & -> & H1 & H2 & H3 & H4 & H5 & H6); [done..|].
  cbn [mbind res_bind]. destruct (magic_mem s') as [|r l] eqn:E; [done|]. cbn [set_fromhost magic_mem].
  rewrite E. exists r. eexists. split; [reflexivity|]. by repeat split.
Qed.

(** *** putchar: the bytes waiting in its buffer *)
Hypothesis Hbuf : outside m0 putchar_buf 64.
Record buffered (s : machine) (l : list Z) : Prop := {
  bf_len : buflen s = Z.of_nat (length l);
  bf_room : (length l < 64)%nat;
  bf_bytes : bytes_at (mm s) putchar_buf l;
  bf_mem : in_mem (mm s) putchar_buf 64;
  bf_sub : m0 ⊆ mm s }.

Lemma bytes_at_snoc m p l c : bytes_at m p l -> bytes_at (<[p + Z.of_nat (length l) := c]> m) p (l ++ [c]).
Proof.
  intros Hb. apply bytes_at_app. split.
  - eapply bytes_at_agree; [|exact Hb]. intros a Ha. apply lookup_insert_ne. lia.
  - apply bytes_at_cons. split; [apply lookup_insert_eq|apply bytes_at_nil].
Qed.
Lemma putchar_puts s l ch : buffered s l ->
  exists s' l', putchar host magic_addr putchar_buf fuel ch s = Ok s' /\ buffered s' l' /\
    console s' ++ l' = console s ++ l ++ [byte_of ch] /\ (ch = 10 -> l' = []) /\
    counters s' = counters s /\ counter_names s' = counter_names s.
Proof.
  intros [Hl Hr Hb Hm Hs]. unfold putchar. rewrite Hl.
  destruct (Z.ltb_spec (Z.of_nat (length l)) 0); [lia|]. destruct (Z.leb_spec 64 (Z.of_nat (length l))); [lia|].
  cbn [orb]. rewrite store_mod by (apply Hm; lia). cbn [mbind res_bind]. cbn zeta.
  set (m' := <[putchar_buf + Z.of_nat (length l) := ch mod 256]> (mm s)).
  assert (Hb' : bytes_at m' putchar_buf (l ++ [byte_of ch])) by (by apply bytes_at_snoc).
  assert (Hm' : in_mem m' putchar_buf 64) by exact (write_bytes_in _ [ch mod 256] _ _ _ Hm).
  assert (Hs' : m0 ⊆ m').
  { apply (write_bytes_sub m0 (mm s) _ [ch mod 256] 1); [done| |cbn; lia]. intros a Ha. apply Hbuf. lia. }
  assert (Hn : Z.of_nat (length l) + 1 = Z.of_nat (length (l ++ [byte_of ch]))) by (rewrite length_app; cbn; lia).
  cbn [set_buflen set_mm buflen mm console counters counter_names].
  destruct (Z.eqb_spec ch 10); [|destruct (Z.eqb_spec (Z.of_nat (length l) + 1) 64)]; cbn [orb].
  3: { eexists _, (l ++ [byte_of ch]). split; [reflexivity|]. split; [|cbn; repeat split; done || (by rewrite app_assoc)].
       split; cbn; try done. rewrite length_app in *. cbn in *. lia. }
  all: rewrite Hn; match goal with |- context [syscall _ _ _ _ _ _ _ ?x] =>
      destruct (syscall_write x putchar_buf (l ++ [byte_of ch]) Hb') as (r & s' & -> & H1 & H2 & H3 & H4 & H5 & H6) end;
    cbn [mbind res_bind]; exists (set_buflen 0 s'), []; (split; [done|]);
    (split; [split; cbn; rewrite ?H1; try done; try lia; apply bytes_at_nil|]);
    cbn [set_buflen console counters counter_names]; rewrite H2, app_nil_r; by repeat split.
Qed.
Lemma putchar_list cs : forall s l, buffered s l ->
  exists s' l', put_list (putchar host magic_addr putchar_buf fuel) cs s = Ok s' /\ buffered s' l' /\
    console s' ++ l' = console s ++ l ++ map byte_of cs /\ (last cs = Some 10 -> l' = []).
Proof.
  induction cs as [|c cs IH] using rev_ind; intros s l H.
  - exists s, l. cbn. repeat split; try apply H; [by rewrite app_nil_r|done].
  - rewrite put_list_app. destruct (IH s l H) as (s1 & l1 & -> & H1 & E1 & _). cbn [mbind res_bind put_list].
    destruct (putchar_puts s1 l1 c H1) as (s2 & l2 & -> & H2 & E2 & N2 & _). cbn [mbind res_bind].
    exists s2, l2. repeat split; try apply H2.
    + rewrite E2, app_assoc, E1, map_app, <- !app_assoc. done.
    + rewrite last_snoc. intros [= E]. by apply N2.
Qed.

(** printf hands every character of its text to the host, in order: what is
    not yet written waits in the buffer, and a text that ends in a newline
    leaves nothing waiting. *)
Lemma printf_puts s l fmt ap cs : buffered s l -> text_of m0 null_literal fuel fmt ap = Ok cs ->
  exists s' l', printf host magic_addr putchar_buf null_literal fuel fmt ap s = Ok (0, s') /\ buffered s' l' /\
    console s' ++ l' = console s ++ l ++ map byte_of cs /\ (last cs = Some 10 -> l' = []).
Proof.
  intros H Ht. destruct (putchar_list cs s l H) as (s' & l' & E & H').
  exists s', l'. split; [|done]. unfold printf. rewrite (vprintfmt_puts _ _ m0 null_literal fuel fmt ap cs); [by rewrite E|done|].
  intros k s1 Hk a b Ha. destruct (putchar_list (take k cs) s l H) as (s2 & l2 & E2 & H2 & _). rewrite E2 in Hk.
  injection Hk as <-. unfold load in Ha. destruct (m0 !! a) as [x|] eqn:Ex; [injection Ha as ->|done].
  apply load_ok. eapply lookup_weaken; [exact Ex|apply H2].
Qed.

(** *** printhex and setStats *)
Lemma hex_digit_val x : hex_digit x = digit_char (x mod 16).
Proof.
  unfold hex_digit, digit_char. change 0xF with (Z.ones 4). rewrite Z.land_ones by lia. change (2^4) with 16.
  pose proof (Z.mod_pos_bound x 16 ltac:(lia)). change (asc "a") with 97. change (asc "0") with 48.
  zcases; rewrite w32_id by lia; lia.
Qed.
Lemma printhex_loop_writes hex_str n : forall x m, 0 <= x < 16 ^ Z.of_nat n -> (n <= 16)%nat -> in_mem m hex_str 17 ->
  exists t m', printhex_loop hex_str n (16 - Z.of_nat n) x m = Ok m' /\ bytes_at m' hex_str t /\ length t = n /\
    horner 16 char_val t 0 = x /\ Forall (fun c => 48 <= c < 128) t /\ in_mem m' hex_str 17 /\
    (forall a, hex_str + Z.of_nat n <= a -> m' !! a = m !! a).
Proof.
  induction n as [|n IH]; intros x m Hx Hn Hm; cbn [printhex_loop].
  - exists [], m. cbn in Hx. repeat split; try done; cbn; lia.
  - rewrite store_mod by (apply Hm; lia). cbn [mbind res_bind]. rewrite hex_digit_val.
    pose proof (Z.mod_pos_bound x 16 ltac:(lia)) as Hd. destruct (digit_char_val (x mod 16) ltac:(lia)) as (Hv & _ & Hr).
    rewrite (Z.mod_small (digit_char _)) by lia. rewrite Z.shiftr_div_pow2 by lia. change (2^4) with 16.
    replace (16 - Z.of_nat (S n) + 1) with (16 - Z.of_nat n) by lia.
    replace (hex_str + (15 - (16 - Z.of_nat (S n)))) with (hex_str + Z.of_nat n) by lia.
    set (m1 := <[hex_str + Z.of_nat n := digit_char (x mod 16)]> m).
    rewrite Nat2Z.inj_succ, Z.pow_succ_r in Hx by lia.
    destruct (IH (x / 16) m1) as (t & m' & -> & Hb & Hl & Hh & Hf & Hm' & Hout).
    { split; [apply Z.div_pos; lia|apply Z.div_lt_upper_bound; lia]. }
    { lia. }
    { exact (write_bytes_in _ [_] _ _ _ Hm). }
    exists (t ++ [digit_char (x mod 16)]), m'. split; [done|]. split.
    { apply bytes_at_app. split; [done|]. rewrite Hl. apply bytes_at_cons. split; [|apply bytes_at_nil].
      rewrite Hout by lia. apply lookup_insert_eq. }
    split; [rewrite length_app, Hl; cbn; lia|]. split.
    { unfold horner in *. rewrite fold_left_app, Hh. cbn. rewrite Hv. pose proof (Z.div_mod x 16). lia. }
    split; [apply Forall_app; split; [done|]; apply Forall_singleton; lia|]. split; [done|].
    intros a Ha. rewrite Hout by lia. apply lookup_insert_ne. lia.
Qed.
(** printhex writes the 16 hexadecimal digits of a word. *)
Lemma printhex_prints hex_str s x : 0 <= x < 2^64 -> in_mem (mm s) hex_str 17 -> (16 < fuel)%nat ->
  exists s' t, printhex host magic_addr hex_str fuel x s = Ok s' /\ console s' = console s ++ t /\
    length t = 16%nat /\ horner 16 char_val t 0 = x.
Proof.
  intros Hx Hm Hf. unfold printhex.
  destruct (printhex_loop_writes hex_str 16 x (mm s) Hx ltac:(lia) Hm) as (t & m' & E & Hb & Hl & Hh & Hc & Hm' & _).
  change (16 - Z.of_nat 16) with 0 in E. rewrite E. cbn [mbind res_bind]. rewrite store_mod by (apply Hm'; lia).
  cbn [mbind res_bind]. unfold printstr. set (m2 := <[hex_str + 16 := 0 mod 256]> m').
  assert (Hs : cstring m2 hex_str t).
  { split; [|eapply Forall_impl; [exact Hc|]; cbn; lia]. unfold m2. change 16 with (Z.of_nat 16). rewrite <- Hl.
    by apply bytes_at_snoc. }
  cbn [set_mm mm]. rewrite (strlen_ok m2 t) by (done || lia). cbn [mbind res_bind].
  destruct Hs as [Hs _]. apply bytes_at_app in Hs as [Hs _].
  destruct (syscall_write (set_mm m2 s) hex_str t Hs) as (r & s' & -> & _ & Hcon & _). cbn [mbind res_bind].
  by exists s', t.
Qed.
(** Between setStats(1) and setStats(0) the counters count. *)
Lemma setStats_measures s a b c0 i0 c1 i1 n0 n1 : counters s = [a; b] -> counter_names s = [n0; n1] ->
  exists s1 s2, setStats name_mcycle name_minstret 1 c0 i0 s = Ok s1 /\
    setStats name_mcycle name_minstret 0 c1 i1 s1 = Ok s2 /\
    counters s2 = [w64 (c1 - c0); w64 (i1 - i0)] /\ counter_names s2 = [name_mcycle; name_minstret].
Proof.
  intros Hc Hn. unfold setStats, READ_CTR. cbn. rewrite Hc, Hn. cbn. eexists _, _. split; [reflexivity|].
  cbn. by split.
Qed.

(** *** The report of _init *)
Variables stats_buf stats_fmt : Z.
Definition stats_items : list item :=
  [Str false 0 0; Lit (asc " "); Lit (asc "="); Lit (asc " "); Num false 0 0 Dec; Lit 10].
(** The line of a counter: %d shows its low 32 bits as a signed number. *)
Definition int_text (v : Z) : list Z := if v <? 0 then asc "-" :: numeral 10 (- v) else numeral 10 v.
Definition report_line (name : list Z) (c : Z) : list Z :=
  if c =? 0 then [] else name ++ [asc " "; asc "="; asc " "] ++ int_text (s32 c) ++ [10].

Lemma int_text_facts v : - 2^31 <= v < 2^31 -> map byte_of (int_text v) = int_text v /\ (length (int_text v) <= 11)%nat.
Proof.
  intros Hv. unfold int_text. destruct (Z.ltb_spec v 0).
  - destruct (numeral_10 (- v)) as (Hd & _); [lia|]. cbn [map length]. rewrite digits_bytes by done.
    pose proof (numeral_10_length (- v) 10 ltac:(lia) ltac:(lia) ltac:(lia)). split; [done|lia].
  - destruct (numeral_10 v) as (Hd & _); [lia|]. rewrite digits_bytes by done.
    pose proof (numeral_10_length v 10 ltac:(lia) ltac:(lia) ltac:(lia)). split; [done|lia].
Qed.
Lemma report_line_prints p name c : w64 p <> 0 -> cstring m0 (w64 p) name -> Z.of_nat (length name) <= INT_MAX ->
  c <> 0 -> prints m0 stats_items [p; c] (report_line (map schar name) c).
Proof.
  intros Hp Hname Hlen Hc. unfold report_line. destruct (Z.eqb_spec c 0); [done|].
  assert (Htail : prints m0 [Num false 0 0 Dec; Lit 10] [c] (int_text (s32 c) ++ [10])).
  { assert (Hpad : forall t, padded (pad_of false) 0 t = t).
    { intros t. unfold padded. by replace (Z.to_nat _) with 0%nat by lia. }
    pose proof (sext_range 32 c ltac:(lia)) as Hr. unfold int_text. destruct (Z.ltb_spec (s32 c) 0).
    - pose proof (p_neg m0 false 0 0 [Lit 10] c [] [10] ltac:(cbn; unfold s32 in *; lia)
        (p_lit m0 10 [] [] [] (p_nil _ _))) as H1. by rewrite Hpad in H1.
    - pose proof (p_dec m0 false 0 0 [Lit 10] c [] [10] ltac:(cbn; unfold s32 in *; lia)
        (p_lit m0 10 [] [] [] (p_nil _ _))) as H1. by rewrite Hpad in H1. }
  assert (Hblank : Z.to_nat (0 - Z.of_nat (length (map schar name))) = 0%nat) by lia.
  pose proof (p_str m0 false 0 0 [Lit (asc " "); Lit (asc "="); Lit (asc " "); Num false 0 0 Dec; Lit 10] p [c] name
    ([asc " "; asc "="; asc " "] ++ int_text (s32 c) ++ [10]) Hp Hname Hlen) as H.
  cbn [Z.eqb] in H. cbn zeta in H. rewrite Hblank in H. apply H. cbn [app]. by repeat apply p_lit.
Qed.

Hypothesis Hsize : (size m0 < fuel)%nat.
Hypothesis Hfmt : cstring m0 stats_fmt (items_text stats_items).
Hypothesis Hstats : outside m0 stats_buf 64.
(** The two names, not longer than the second, CSR_minstret. *)
Definition name_at (p : Z) (name : list Z) : Prop :=
  0 < p < 2^64 /\ cstring m0 p name /\ Forall is_byte name /\ (length name <= 12)%nat.

(** The state of the loop: the text so far, at the start of the buffer. *)
Record reporting (s : machine) (t : list Z) : Prop := {
  rp_text : t = [] \/ bytes_at (mm s) stats_buf (t ++ [0]);
  rp_mem : in_mem (mm s) stats_buf 64;
  rp_sub : m0 ⊆ mm s }.

Lemma report_line_length name c : (length name <= 12)%nat -> (length (report_line name c) <= 27)%nat.
Proof.
  intros Hn. unfold report_line. destruct (c =? 0); cbn [length]; [lia|]. rewrite !length_app. cbn [length].
  destruct (int_text_facts (s32 c)) as [_ H]; [apply (sext_range 32); lia|]. lia.
Qed.
Lemma byte_schar c : is_byte c -> byte_of (schar c) = c.
Proof.
  unfold is_byte, byte_of, schar. intros H. change 256 with (2^8) in *. rewrite sext_mod by lia. by rewrite Z.mod_small by lia.
Qed.
Lemma report_line_bytes name c : Forall is_byte name ->
  map byte_of (report_line (map schar name) c) = report_line name c.
Proof.
  intros Hn. unfold report_line. destruct (c =? 0); [done|]. rewrite !map_app.
  destruct (int_text_facts (s32 c)) as [-> _]; [apply (sext_range 32); lia|]. f_equal.
  induction Hn as [|x l Hx _ IH]; [done|]. cbn. by rewrite IH, byte_schar.
Qed.
Lemma report_step n i s t p name c :
  zlookup (counters s) i = Some c -> zlookup (counter_names s) i = Some p -> (c <> 0 -> name_at p name) ->
  (length t <= 27)%nat -> reporting s t ->
  exists m, report_loop null_literal fuel stats_fmt (S n) i (stats_buf + Z.of_nat (length t)) s =
      report_loop null_literal fuel stats_fmt n (i + 1) (stats_buf + Z.of_nat (length (t ++ report_line name c))) (set_mm m s) /\
    reporting (set_mm m s) (t ++ report_line name c).
Proof.
  intros Hc Hp Hname Ht [Htext Hmem Hsub]. cbn [report_loop]. rewrite Hc, Hp.
  destruct (Z.eqb_spec c 0) as [->|Hc0].
  { exists (mm s). cbn. rewrite app_nil_r. destruct s. by repeat split. }
  destruct (Hname Hc0) as (Hp0 & Hcs & Hb & Hl). pose proof (report_line_length name c Hl) as Hll.
  assert (Hlne : report_line name c <> []).
  { unfold report_line. destruct (Z.eqb_spec c 0); [done|]. by destruct name. }
  assert (Hll' : length (report_line (map schar name) c) = length (report_line name c)).
  { rewrite <- (report_line_bytes name c Hb). by rewrite length_map. }
  assert (Htxt : text_of m0 null_literal fuel stats_fmt [p; c] = Ok (report_line (map schar name) c)).
  { apply (format_text m0 null_literal fuel stats_fmt stats_items); [done| |done|].
    - unfold stats_items. repeat apply Forall_cons_2; try apply Forall_nil_2; cbn; unfold field; change INT_MAX with 2147483647;
        repeat split; lia || done.
    - apply report_line_prints; rewrite ?w64_id by lia; try done; [lia|]. change INT_MAX with 2147483647. lia. }
  rewrite (sprintf_writes m0 (mm s) null_literal fuel _ stats_fmt [p; c] _ Hsub Htxt).
  2: intros a Ha; apply Hmem; lia.
  2: intros a Ha; apply Hstats; lia.
  cbn [mbind res_bind]. eexists. rewrite report_line_bytes by done.
  assert (E : s32 (Z.of_nat (length (report_line name c))) = Z.of_nat (length (report_line name c))).
  { apply sext_id; lia. }
  rewrite Hll', E, length_app, Nat2Z.inj_add, Z.add_assoc. split; [reflexivity|]. cbn [set_mm]. split; cbn [mm].
  - right. rewrite <- app_assoc. apply bytes_at_app. split; [|apply write_bytes_at].
    destruct Htext as [->|Htext]; [apply bytes_at_nil|]. apply bytes_at_app in Htext as [Htext _].
    eapply bytes_at_agree; [|exact Htext]. intros a Ha. apply lookup_write_out. lia.
  - by apply write_bytes_in.
  - apply (write_bytes_sub _ _ _ _ 30); [done| |rewrite length_app; cbn; lia]. intros a Ha. apply Hstats. lia.
Qed.

(** The report: both lines, never more than the 64 bytes of the buffer. *)
Lemma report_fits s c0 c1 p0 p1 name0 name1 :
  counters s = [c0; c1] -> counter_names s = [p0; p1] ->
  (c0 <> 0 -> name_at p0 name0) -> (c1 <> 0 -> name_at p1 name1) -> reporting s [] ->
  let t := report_line name0 c0 ++ report_line name1 c1 in
  exists m, report_loop null_literal fuel stats_fmt (Z.to_nat NUM_COUNTERS) 0 stats_buf s =
      Ok (stats_buf + Z.of_nat (length t), set_mm m s) /\
    reporting (set_mm m s) t /\ (length t < 64)%nat.
Proof.
  intros Hc Hn H0 H1 Hs t. unfold t. change (Z.to_nat NUM_COUNTERS) with 2%nat.
  assert (L : forall c name p, (c <> 0 -> name_at p name) -> (length (report_line name c) <= 27)%nat).
  { intros c name p H. destruct (Z.eqb_spec c 0) as [->|Hc0]; [cbn; lia|].
    destruct (H Hc0) as (_ & _ & _ & Hl). by apply report_line_length. }
  pose proof (L _ _ _ H0) as L0. pose proof (L _ _ _ H1) as L1.
  destruct (report_step 1 0 s [] p0 name0 c0) as (m & E & Hs1); [by rewrite Hc|by rewrite Hn|done|cbn; lia|done|].
  cbn [length Z.of_nat] in E. rewrite Z.add_0_r in E. rewrite E. cbn [app] in *.
  destruct (report_step 0 1 (set_mm m s) (report_line name0 c0) p1 name1 c1) as (m' & E' & Hs2);
    [cbn; by rewrite Hc|cbn; by rewrite Hn|done|lia|done|].
  change (0 + 1) with 1. rewrite E'. exists m'. cbn [report_loop]. split; [by destruct s|].
  split; [by destruct s|]. rewrite length_app. lia.
Qed.

(** _init runs main, prints the report and exits with main's result. *)
Lemma init_reports main s s1 ret c0 c1 p0 p1 name0 name1 :
  main s = Ok (ret, s1) -> counters s1 = [c0; c1] -> counter_names s1 = [p0; p1] ->
  (c0 <> 0 -> name_at p0 name0) -> (c1 <> 0 -> name_at p1 name1) -> reporting s1 [] -> (64 <= fuel)%nat ->
  exists s', _init host magic_addr null_literal fuel stats_buf stats_fmt main s = Ok s' /\
    console s' = console s1 ++ report_line name0 c0 ++ report_line name1 c1 /\
    tohost s' = Z.lor (w64 (2 * w64 ret)) 1.
Proof.
  intros Hmain Hc Hn H0 H1 Hs Hf. unfold _init. rewrite Hmain. cbn [mbind res_bind].
  destruct (report_fits s1 c0 c1 p0 p1 name0 name1 Hc Hn H0 H1 Hs) as (m & -> & Hr & Hl). cbn [mbind res_bind].
  assert (Hne : Forall (fun c => c <> 0) (report_line name0 c0 ++ report_line name1 c1)).
  { assert (Hline : forall c p name, (c <> 0 -> name_at p name) -> Forall (fun c => c <> 0) (report_line name c)).
    { intros c p name H. unfold report_line. destruct (Z.eqb_spec c 0) as [->|Hc0]; [constructor|].
      destruct (H Hc0) as (_ & [_ Hnn] & _). apply Forall_app. split; [done|]. apply Forall_app.
      split; [by repeat constructor|]. apply Forall_app. split; [|by repeat constructor].
      pose proof (sext_range 32 c ltac:(lia)) as Hr32. fold (s32 c) in Hr32. unfold int_text.
      destruct (Z.ltb_spec (s32 c) 0).
      - constructor; [done|]. destruct (numeral_10 (- s32 c)) as (Hd & _); [lia|].
        eapply Forall_impl; [exact Hd|]. cbn. lia.
      - destruct (numeral_10 (s32 c)) as (Hd & _); [lia|]. eapply Forall_impl; [exact Hd|]. cbn. lia. }
    apply Forall_app. split; by eapply Hline. }
  set (t := report_line name0 c0 ++ report_line name1 c1) in *.
  assert (Hexit : forall s2, tohost (exit ret s2) = Z.lor (w64 (2 * w64 ret)) 1).
  { intros s2. cbn. unfold exit, tohost_exit. cbn. by rewrite Z.shiftl_mul_pow2, Z.mul_comm by lia. }
  destruct t as [|x t'] eqn:Et.
  - cbn. rewrite Z.add_0_r, Z.eqb_refl. cbn [negb mbind res_bind]. eexists. split; [reflexivity|].
    split; [cbn; by rewrite app_nil_r|apply Hexit].
  - destruct (Z.eqb_spec (stats_buf + Z.of_nat (length (x :: t'))) stats_buf) as [E|_]; [cbn in E; lia|].
    cbn [negb]. destruct Hr as [Htext _ _]. destruct Htext as [Htext|Htext]; [done|].
    unfold printstr. rewrite (strlen_ok _ (x :: t')) by (done || (cbn in Hl |- *; lia)). cbn [mbind res_bind].
    apply bytes_at_app in Htext as [Htext _].
    destruct (syscall_write _ _ _ Htext) as (r & s' & -> & Hm' & Hcon & _). cbn [mbind res_bind].
    eexists. split; [reflexivity|]. split; [exact Hcon|apply Hexit].
Qed.
End Host.

(** ** The properties *)

(** C36: printf is the meaning of its format ([prints], where a number stands
    for its digits in the base of the directive, taken from the table of the
    sixteen digit characters): for a format made of directives, whatever their
    flags, widths and arguments, it returns 0 and the characters the directives stand for are handed to the host in order,
    after those that were waiting.  What is not yet written waits in
    putchar's buffer, which never fills up, and a text that ends in a newline
    leaves nothing waiting. *)
Theorem printf_prints (host : machine -> machine) (magic_addr putchar_buf null_literal : Z) (fuel : nat) (m0 : mem)
    (Hserves : serves host magic_addr fuel) (Hbuf : outside m0 putchar_buf 64)
    (s : machine) (l : list Z) (fmt : Z) (its : list item) (ap out : list Z)
    (Hsize : (size m0 < fuel)%nat) (Hs : buffered putchar_buf m0 s l)
    (Hok : Forall item_ok its) (Hfmt : cstring m0 fmt (items_text its)) (Hout : prints m0 its ap out) :
  exists s' l', printf host magic_addr putchar_buf null_literal fuel fmt ap s = Ok (0, s') /\
    buffered putchar_buf m0 s' l' /\
    console s' ++ l' = console s ++ l ++ map byte_of out /\ (last out = Some 10 -> l' = []).
Proof. eapply printf_puts; try done. by eapply format_text. Qed.

(** C37: atol reads back what sprintf writes with %ld: for every long but the
    smallest (whose negation overflows) sprintf writes at most 20 characters
    and a terminator, nothing else, returns their number, and atol of the
    buffer is the number that was written. *)
Theorem sprintf_atol_roundtrip (null_literal : Z) (fuel : nat) (m0 m : mem) (str fmt v : Z)
    (Hsub : m0 ⊆ m) (Hsize : (size m0 < fuel)%nat) (Hfuel : (20 < fuel)%nat)
    (Hfmt : cstring m0 fmt (items_text [Num false 0 1 Dec])) (Hv : - 2^63 < v < 2^63)
    (Hstr : in_mem m str 21) (Hout : outside m0 str 21) :
  exists n m', sprintf null_literal fuel str fmt [w64 v] m = Ok (n, m') /\ 0 < n <= 20 /\
    (forall a, a < str \/ str + n < a -> m' !! a = m !! a) /\
    strlen fuel m' str = Ok n /\ atol fuel m' str = Ok v.
Proof.
  destruct (long_text_facts v Hv) as [Hbytes Hlen].
  assert (Ht : text_of m0 null_literal fuel fmt [w64 v] = Ok (long_text v)).
  { eapply format_text; [done| |exact Hfmt|by apply long_text_prints]. apply Forall_singleton. cbn. unfold field.
    change INT_MAX with 2147483647. lia. }
  exists (Z.of_nat (length (long_text v))), (write_bytes str (long_text v ++ [0]) m).
  rewrite (sprintf_writes m0 m null_literal fuel str fmt _ _ Hsub Ht).
  2: intros a Ha; apply Hstr; lia.
  2: intros a Ha; apply Hout; lia.
  rewrite Hbytes. split; [f_equal; f_equal; apply sext_id; lia|]. split; [lia|]. split.
  { intros a Ha. apply lookup_write_out. rewrite length_app. cbn. lia. }
  pose proof (write_bytes_at str (long_text v ++ [0]) m) as Hb. split; [|by apply atol_long_text].
  apply strlen_ok; [|lia]. split; [done|]. unfold long_text. destruct (Z.ltb_spec v 0).
  - constructor; [done|]. destruct (numeral_10 (- v)) as (Hd & _); [lia|]. eapply Forall_impl; [exact Hd|]. cbn. lia.
  - destruct (numeral_10 v) as (Hd & _); [lia|]. eapply Forall_impl; [exact Hd|]. cbn. lia.
Qed.

(** C38: vprintfmt ends on every format and every list of arguments, well
    formed or not: none of its loops runs more often than memory has bytes,
    since each reads a byte and goes on behind it, and an unknown directive
    is not read twice. *)
Theorem vprintfmt_ends (m0 : mem) (null_literal : Z) (fuel : nat) (fmt : Z) (ap : list Z)
    (Hsize : (size m0 < fuel)%nat) :
  vprintfmt collect (fun _ a => load m0 a) null_literal fuel fmt ap [] <> NoFuel.
Proof. apply (vprintfmt_loop_ends m0 null_literal fuel Hsize). by apply above_size. Qed.
