(* ===== verification/RuntimeWitness.v ===== *)
(** Concrete inputs of the bare-metal runtime: a host that serves at once, a
    memory with strings, the witnesses of the properties, and what the
    formatted output and atol do that the C library does not. *)
From S2P Require Import Prelude Runtime RuntimeMem RuntimeProps RuntimeIO.
From Stdlib Require Import Ascii String.
Local Open Scope Z_scope.
Import ListNotations.

Definition codes (s : string) : list Z := map asc (list_ascii_of_string s).
Definition put_str (p : Z) (s : string) (m : mem) : mem := write_bytes p (codes s ++ [0]) m.
(** [n] zero bytes. *)
Definition put_room (p : Z) (n : nat) (m : mem) : mem := write_bytes p (replicate n 0) m.

(** A host that serves a write at the first read of fromhost. *)
Definition host_now (magic_addr : Z) (s : machine) : machine :=
  if tohost s =? magic_addr then
    match magic_mem s with
    | which :: _ :: p :: n :: _ =>
        match load_bytes (mm s) p (Z.to_nat n) with
        | Ok bs => if which =? SYS_write then
            Machine (mm s) 0 1 (magic_mem s) (buflen s) (counters s) (counter_names s) (console s ++ bs) else s
        | _ => s
        end
    | _ => s
    end
  else s.
Lemma host_now_serves magic_addr fuel : (0 < fuel)%nat -> serves (host_now magic_addr) magic_addr fuel.
Proof.
  intros Hf s p bs Ht Hm Hb. destruct fuel as [|fuel]; [lia|]. cbn [wait_fromhost].
  assert (E : host_now magic_addr s =
    Machine (mm s) 0 1 (magic_mem s) (buflen s) (counters s) (counter_names s) (console s ++ bs)).
  { unfold host_now. rewrite Ht, Z.eqb_refl.
    destruct (magic_mem s) as [|a [|b [|c [|d ms]]]]; try done. cbn in Hm. injection Hm as -> -> -> ->.
    by rewrite Nat2Z.id, load_bytes_ok by done. }
  rewrite E. cbn. eexists. split; [reflexivity|]. repeat split. cbn. by destruct (magic_mem s).
Qed.

(** A memory with a format, a string and the buffers. *)
Definition fmt1 : list item := [Lit (asc "n"); Lit (asc "="); Num true 4 1 Dec; Lit (asc " "); Str true 4 2; Lit (asc "|"); Lit 10].
Definition ro : mem := write_bytes 1000 (items_text fmt1 ++ [0]) (put_str 2000 "abc" ∅).
Definition rw : mem := put_room 3000 64 ro.
Definition m_start : machine := Machine rw 0 0 (replicate 8 0) 0 [0; 0] [0; 0] [].
Lemma ro_fmt : cstring ro 1000 (items_text fmt1).
Proof. split; [apply write_bytes_at|]. vm_compute. repeat constructor; done. Qed.
Lemma ro_str : cstring ro 2000 (codes "abc").
Proof.
  split; [|vm_compute; repeat constructor; done]. unfold ro.
  eapply bytes_at_agree; [|apply write_bytes_at]. intros a Ha. apply lookup_write_out.
  right. transitivity 2000; [by vm_compute|lia].
Qed.
Lemma put_room_sub p n m0 m : m0 ⊆ m -> outside m0 p (Z.of_nat n) -> m0 ⊆ put_room p n m.
Proof. intros H Ho. eapply write_bytes_sub; [done|exact Ho|]. rewrite length_replicate. lia. Qed.
Lemma put_room_in p n m : in_mem (put_room p n m) p (Z.of_nat n).
Proof.
  unfold put_room. rewrite <- (length_replicate n 0) at 2. apply bytes_at_in, write_bytes_at.
Qed.
Lemma ro_outside : outside ro 3000 64.
Proof. intros a Ha. unfold ro, put_str. rewrite !lookup_write_out by (right; transitivity 3000; [by vm_compute|lia]). apply lookup_empty. Qed.
Lemma m_start_buffered : buffered 3000 ro m_start [].
Proof.
  split; [done|cbn; lia|apply bytes_at_nil|exact (put_room_in 3000 64 ro)|].
  exact (put_room_sub 3000 64 ro ro (reflexivity ro) ro_outside).
Qed.

(** ** Witnesses *)
Definition out1 : list Z := codes "n=-0042 ab  |" ++ [10].
Lemma fmt1_prints : prints ro fmt1 [w64 (-42); 2000] out1.
Proof.
  unfold fmt1. do 2 apply p_lit.
  apply (p_neg ro true 4 1 _ (w64 (-42)) [2000] (codes " ab  |" ++ [10])); [vm_compute; done|]. apply p_lit.
  apply (p_str ro true 4 2 _ 2000 [] (codes "abc") (codes "|" ++ [10])); [done|apply ro_str|done|].
  do 2 apply p_lit. apply p_nil.
Qed.
Lemma printf_prints_witness :
  exists s' l', printf (host_now 500) 500 3000 0 100 1000 [w64 (-42); 2000] m_start = Ok (0, s') /\
    buffered 3000 ro s' l' /\ console s' ++ l' = [] ++ [] ++ map byte_of out1 /\
    (last out1 = Some 10 -> l' = []).
Proof.
  apply (printf_prints (host_now 500) 500 3000 0 100 ro (host_now_serves 500 100 ltac:(lia)) ro_outside
    m_start [] 1000 fmt1 [w64 (-42); 2000] out1).
  - vm_compute; lia.
  - apply m_start_buffered.
  - unfold fmt1. repeat apply Forall_cons_2; try apply Forall_nil_2; cbn; unfold field; change INT_MAX with 2147483647;
      repeat split; lia || done.
  - apply ro_fmt.
  - apply fmt1_prints.
Defined.
Lemma sprintf_atol_roundtrip_witness :
  exists n m', sprintf 0 100 3000 1000 [w64 (-123)] (put_room 3000 64 (write_bytes 1000 (codes "%ld" ++ [0]) ∅)) = Ok (n, m') /\
    0 < n <= 20 /\ (forall a, a < 3000 \/ 3000 + n < a ->
      m' !! a = put_room 3000 64 (write_bytes 1000 (codes "%ld" ++ [0]) ∅) !! a) /\
    strlen 100 m' 3000 = Ok n /\ atol 100 m' 3000 = Ok (-123).
Proof.
  assert (Ho : outside (write_bytes 1000 (codes "%ld" ++ [0]) ∅) 3000 64).
  { intros a Ha. rewrite lookup_write_out by (right; transitivity 3000; [by vm_compute|lia]). apply lookup_empty. }
  apply (sprintf_atol_roundtrip 0 100 (write_bytes 1000 (codes "%ld" ++ [0]) ∅) _ 3000 1000 (-123)).
  - by apply put_room_sub.
  - vm_compute. lia.
  - lia.
  - split; [apply write_bytes_at|]. vm_compute. repeat constructor; done.
  - lia.
  - intros a Ha. apply put_room_in. lia.
  - intros a Ha. apply Ho. lia.
Defined.
Lemma vprintfmt_ends_witness :
  vprintfmt collect (fun _ a => load (put_str 1000 "100%! %-*q" ∅) a) 0 12 1000 [7] [] <> NoFuel.
Proof. apply (vprintfmt_ends (put_str 1000 "100%! %-*q" ∅) 0 12 1000 [7]). vm_compute. lia. Defined.

(** ** Against the C library *)

(** What printf prints of a format and arguments. *)
Definition shows (fmt : string) (ap : list Z) (out : string) : Prop :=
  text_of (put_str 1000 fmt (put_str 2000 "abc" ∅)) 0 100 1000 ap = Ok (codes out).
Notation "fmt # ap ~> out" := (shows fmt ap out) (at level 70, ap at next level).

(** The flag - pads a number on the left, with minus signs. *)
Example minus_flag_number : "[%-5d]" # [42] ~> "[---42]". Proof. vm_compute. done. Qed.
(** The sign is printed before the blanks and is not counted in the width. *)
Example negative_width : "[%5d]" # [w64 (-3)] ~> "[-    3]". Proof. vm_compute. done. Qed.
(** The precision of a number is ignored, and a precision 0 or none after the
    dot is no precision. *)
Example number_precision : "[%.3d]" # [7] ~> "[7]". Proof. vm_compute. done. Qed.
Example zero_precision : "[%.0s]" # [2000] ~> "[abc]". Proof. vm_compute. done. Qed.
(** The flag # changes nothing; an unknown letter is printed as it is, the
    argument of its * is taken. *)
Example alternate_flag : "[%#x]" # [255] ~> "[ff]". Proof. vm_compute. done. Qed.
Example unknown_letter : "%i %d" # [1; 2] ~> "%i 1". Proof. vm_compute. done. Qed.
(** %.3s reads the byte behind three characters it prints. *)
Example precision_reads_behind :
  text_of (put_str 1000 "%.3s" (write_bytes 2000 (codes "abc") ∅)) 0 100 1000 [2000] = UB.
Proof. vm_compute. done. Qed.

(** atol takes every character but a zero for a digit, a newline too. *)
Example atol_any_character : atol 100 (put_str 2000 "12a" ∅) 2000 = Ok 169. Proof. vm_compute. done. Qed.
(** It overflows on the smallest long. *)
Example atol_smallest : atol 100 (put_str 2000 "-9223372036854775808" ∅) 2000 = UB. Proof. vm_compute. done. Qed.

(** Output without a final newline is never written: exit does not look at
    the buffer of putchar. *)
Example exit_drops_output :
  match printf (host_now 500) 500 3000 0 100 1000 []
    (Machine (put_room 3000 64 (put_str 1000 "done" ∅)) 0 0 (replicate 8 0) 0 [0; 0] [0; 0] []) with
  | Ok (_, s) => console (exit 0 s) = [] /\ tohost (exit 0 s) = 1
  | _ => False
  end.
Proof. vm_compute. done. Qed.

(** The report shows a counter modulo 2^32, as a signed number. *)
Example report_truncates :
  match _init (host_now 500) 500 0 100 3000 1000 (fun s => Ok (0, s))
    (Machine (put_room 3000 64 (put_str 1000 "%s = %d" (put_str 2000 "CSR_mcycle" ∅))) 0 0 (replicate 8 0) 0
      [2^32 + 5; 0] [2000; 0] []) with
  | Ok s => console s = codes "CSR_mcycle = 5"
  | _ => False
  end.
Proof. vm_compute. done. Qed.

(** insn_len takes a DADAO instruction whose low bits are 0 for two bytes. *)
Example insn_len_two : insn_len 0x1000 = 2. Proof. done. Qed.
