(* ===== verification/Newlib.v ===== *)
(** The C library port: newlib/libc/sys/dadao.

    A function of the port is either an assembly template around a system
    call, or C on top of those, or the text of setjmp.S.  A line of assembly
    is a mnemonic and its operands as gas's expression parser makes them;
    [assemble] gives the word that the rows of the mnemonic, tried in order,
    make of it.  The registers the compiler picks for %0, %1, ... are the
    argument [regs].

    The C functions run on [c_state]: errno, _Sbrk_high, and the state of
    the kernel, which answers a system call with a 64-bit value.  The numbers
    of errno.h, fcntl.h and stat.h are newlib's own: parameters. *)
From Stdlib Require Import Ascii String.
From S2P Require Import Prelude Opcodes Cpu GasData Gas GasProps.
Local Open Scope string_scope.
Local Open Scope Z_scope.

(** ** Assembly *)
Inductive asm_operand :=
| Reg (f : regfile) (n : Z)
| Arg (k : nat)          (* %k, a general register *)
| Cp (n : Z)
| Wyde (k : Z)
| Imm (v : Z).
Definition asm_line : Type := string * list asm_operand.
Definition class_start (f : regfile) : Z :=
  match f with RD => 0 | RB => 64 | RF => 128 | RA => 192 end.
Definition asm_exp (regs : list Z) (o : asm_operand) : expressionS unit :=
  match o with
  | Reg f n => Exp O_register None None (class_start f + n)
  | Arg k => Exp O_register None None (nth k regs (-1))
  | Cp n => Exp O_register None None (0x100 + n)
  | Wyde k => Exp O_wyde None None k
  | Imm v => Exp O_constant None None v
  end.
Definition no_symbol (s : option unit) : expressionS unit := Exp O_absent None None 0.
Fixpoint first_code (rows : list dadao_opcode) (exps : list (expressionS unit)) (n : Z) : option Z :=
  match rows with
  | [] => None
  | r :: rows =>
      let '(c, w) := dd_get_insn_code no_symbol r exps n in
      if c =? -1 then first_code rows exps n else if c =? 0 then w else None
  end.
Definition assemble (regs : list Z) (l : asm_line) : option Z :=
  first_code (rows_named (fst l) dadao_opcodes) (map (asm_exp regs) (snd l)) (Z.of_nat (length (snd l))).
Definition assemble_all (regs : list Z) (code : list asm_line) : option (list Z) := mapM (assemble regs) code.

(** ** The system calls *)
Abbreviation rd := (Reg RD).
Abbreviation setzw r v := ("setzw", [rd r; Wyde 0; Imm v]).
Abbreviation copy d s := ("rd2rd", [d; s; Imm 1]).
Abbreviation trap := ("trap", [Cp 0; Imm 0]).

Definition _exit_asm : list asm_line := [setzw 15 93; copy (rd 16) (Arg 0); trap].
Definition close_asm : list asm_line := [setzw 15 57; copy (rd 16) (Arg 1); trap; copy (Arg 0) (rd 31)].
Definition read_asm : list asm_line :=
  [setzw 15 63; copy (rd 16) (Arg 1); copy (rd 17) (Arg 2); copy (rd 18) (Arg 3); trap; copy (Arg 0) (rd 31)].
Definition dadao_write_asm : list asm_line :=
  [setzw 15 64; copy (rd 16) (Arg 1); copy (rd 17) (Arg 2); copy (rd 18) (Arg 3); trap; copy (Arg 0) (rd 31)].
Definition lseek_asm : list asm_line :=
  [setzw 15 62; copy (rd 16) (Arg 1); copy (rd 17) (Arg 2); copy (rd 18) (Arg 3); trap; copy (Arg 0) (rd 31)].
Definition open_asm : list asm_line :=
  [setzw 15 56; ("setow", [rd 16; Wyde 0; Imm 65436]); copy (rd 17) (Arg 1); copy (rd 18) (Arg 2);
   copy (rd 19) (Arg 3); trap; copy (Arg 0) (rd 31)].
Definition _gettimeofday_asm : list asm_line :=
  [setzw 15 169; copy (rd 16) (Arg 1); copy (rd 17) (Arg 2); trap; copy (Arg 0) (rd 31)].
Definition _settimeofday_asm : list asm_line :=
  [setzw 15 170; copy (rd 16) (Arg 1); copy (rd 17) (Arg 2); trap; copy (Arg 0) (rd 31)].
Definition clock_gettime_asm : list asm_line :=
  [setzw 15 113; copy (rd 16) (Arg 1); copy (rd 17) (Arg 2); trap; copy (Arg 0) (rd 31)].
Definition clock_settime_asm : list asm_line :=
  [setzw 15 112; copy (rd 16) (Arg 1); copy (rd 17) (Arg 2); trap; copy (Arg 0) (rd 31)].
Definition _times_asm : list asm_line := [setzw 15 153; copy (rd 16) (Arg 1); trap; copy (Arg 0) (rd 31)].
Definition brk_asm : list asm_line := [setzw 15 214; copy (rd 16) (Arg 1); trap; copy (Arg 0) (rd 31)].

(** What a template asks of the kernel: the call's number, the arguments it
    puts in front of its own, and how many of those it has. *)
Record request := Request { rq_code : list asm_line; rq_number : Z; rq_fixed : list Z; rq_inputs : nat }.
Definition AT_FDCWD : Z := -100.
Definition requests : list request :=
  [Request close_asm 57 [] 1; Request read_asm 63 [] 3; Request dadao_write_asm 64 [] 3;
   Request lseek_asm 62 [] 3; Request open_asm 56 [w64 AT_FDCWD] 3; Request _gettimeofday_asm 169 [] 2;
   Request _settimeofday_asm 170 [] 2; Request clock_gettime_asm 113 [] 2;
   Request clock_settime_asm 112 [] 2; Request _times_asm 153 [] 1; Request brk_asm 214 [] 1].

(** ** setjmp.S *)
Abbreviation addi d s v := ("addi", [d; s; Imm v]).
Definition setjmp : list asm_line :=
  [("rd2rb", [Reg RB 8; rd 16; Imm 1]);
   setzw 16 0;
   ("sto", [Reg RB 1; Reg RB 8; Imm 0]);
   ("sto", [Reg RB 2; Reg RB 8; Imm 8]);
   addi (rd 16) (rd 16) (2 * 8);
   ("stmo", [rd 32; Reg RB 8; rd 16; Imm 32]);
   addi (rd 16) (rd 16) (32 * 8);
   ("stmo", [Reg RB 32; Reg RB 8; rd 16; Imm 32]);
   addi (rd 16) (rd 16) (32 * 8);
   ("stmo", [Reg RF 32; Reg RB 8; rd 16; Imm 32]);
   addi (rd 16) (rd 16) (32 * 8);
   ("stmo", [Reg RA 1; Reg RB 8; rd 16; Imm 63]);
   addi (rd 16) (rd 16) (64 * 8);
   ("ret", [rd 31; Imm 0])].
Definition longjmp : list asm_line :=
  [("rd2rb", [Reg RB 8; rd 16; Imm 1]);
   setzw 16 0;
   ("ldo", [Reg RB 1; Reg RB 8; Imm 0]);
   ("ldo", [Reg RB 2; Reg RB 8; Imm 8]);
   addi (rd 16) (rd 16) (2 * 8);
   ("ldmo", [rd 32; Reg RB 8; rd 16; Imm 32]);
   addi (rd 16) (rd 16) (32 * 8);
   ("ldmo", [Reg RB 32; Reg RB 8; rd 16; Imm 32]);
   addi (rd 16) (rd 16) (32 * 8);
   ("ldmo", [Reg RF 32; Reg RB 8; rd 16; Imm 32]);
   addi (rd 16) (rd 16) (32 * 8);
   ("ldmo", [Reg RA 1; Reg RB 8; rd 16; Imm 63]);
   addi (rd 16) (rd 16) (64 * 8);
   setzw 31 1;
   ("csne", [rd 17; rd 0; rd 31; rd 17]);
   ("ret", [rd 0; Imm 0])].
(** What a jmp_buf holds: register file, first register, how many, and the
    offset of the first one. *)
Definition jmp_buf_fields : list (regfile * Z * nat * Z) :=
  [(RB, 1, 1%nat, 0); (RB, 2, 1%nat, 8); (RD, 32, 32%nat, 16); (RB, 32, 32%nat, 272);
   (RF, 32, 32%nat, 528); (RA, 1, 63%nat, 784)].
(** _JBLEN elements of type unsigned long long. *)
Definition jmp_buf_size : Z := 162 * 8.

(** ** C *)
Record c_state (K : Type) := CState { errno : Z; _Sbrk_high : Z; kernel : K }.
Arguments CState {K}. Arguments errno {K}. Arguments _Sbrk_high {K}. Arguments kernel {K}.

Section C.
Context {K : Type}.
(** The kernel's answer to a call by number and arguments, as what the
    arguments' registers behind those given hold does not matter. *)
Variable sys : Z -> list Z -> K -> Z * K.

Definition CM (A : Type) : Type := c_state K -> A * c_state K.
Definition c_ret {A} (x : A) : CM A := fun s => (x, s).
Definition c_bind {A B} (m : CM A) (f : A -> CM B) : CM B := fun s => let '(x, s) := m s in f x s.
Definition get_high : CM Z := fun s => (_Sbrk_high s, s).
Definition set_high (v : Z) : CM unit := fun s => (tt, CState (errno s) v (kernel s)).
Definition set_errno (v : Z) : CM unit := fun s => (tt, CState v (_Sbrk_high s) (kernel s)).
Definition syscall (n : Z) (xs : list Z) : CM Z :=
  fun s => let '(v, k) := sys n xs (kernel s) in (v, CState (errno s) (_Sbrk_high s) k).
Notation "x <-- m ; k" := (c_bind m (fun x => k)) (at level 100, m at next level, right associativity).
Notation "m ;;; k" := (c_bind m (fun _ => k)) (at level 100, right associativity).

(** [int ret] is the low word of the register of %0. *)
Definition int_call (n : Z) (xs : list Z) : CM Z := v <-- syscall n xs; c_ret (s32 v).

Definition _exit (n : Z) : CM unit := syscall 93 [n] ;;; c_ret tt.
Definition close (file : Z) : CM Z := int_call 57 [file].
Definition _close (file : Z) : CM Z := close file.
Definition read (file ptr len : Z) : CM Z := int_call 63 [file; ptr; len].
Definition _read (file ptr len : Z) : CM Z := read file ptr len.
Definition dadao_write (file ptr len : Z) : CM Z := int_call 64 [file; ptr; len].
Definition _write (file ptr len : Z) : CM Z := dadao_write file ptr len.
Definition lseek (file ptr dir : Z) : CM Z := int_call 62 [file; ptr; dir].
Definition _lseek (file ptr dir : Z) : CM Z := lseek file ptr dir.
Definition open (name flags mode : Z) : CM Z := int_call 56 [w64 AT_FDCWD; name; flags; mode].
Definition _open (name flags mode : Z) : CM Z := open name flags mode.
Definition _gettimeofday (tv tz : Z) : CM Z := int_call 169 [tv; tz].
Definition _settimeofday (tv tz : Z) : CM Z := int_call 170 [tv; tz].
Definition clock_gettime (clk_id tp : Z) : CM Z := int_call 113 [clk_id; tp].
Definition clock_settime (clk_id tp : Z) : CM Z := int_call 112 [clk_id; tp].
Definition _times (buffer : Z) : CM Z := v <-- syscall 153 [buffer]; c_ret (w64 v).

(** The result is an [int] that becomes a pointer. *)
Definition brk (addr : Z) : CM Z := v <-- int_call 214 [addr]; c_ret (w64 v).
Definition _sbrk (incr : Z) : CM Z :=
  h <-- get_high;
  (if h =? 0 then v <-- brk h; set_high v else c_ret tt) ;;;
  prev_heap_end <-- get_high;
  set_high (w64 (prev_heap_end + incr)) ;;;
  h <-- get_high;
  v <-- brk h;
  set_high v ;;;
  c_ret prev_heap_end.

(** newlib's numbers. *)
Variables (EACCES EPERM EMLINK ENOSYS O_RDONLY O_WRONLY O_CREAT O_TRUNC S_IFCHR : Z).
(** The argument [open] is called without. *)
Variable no_mode : Z.

Definition access (fn flags : Z) : CM Z :=
  fd <-- _open fn O_RDONLY no_mode;
  if 0 <=? fd then _close fd else set_errno EACCES ;;; c_ret (-1).
Definition creat (path mode : Z) : CM Z :=
  open path (Z.lor (Z.lor O_CREAT O_WRONLY) O_TRUNC) no_mode.
Definition _isatty (fd : Z) : CM Z := c_ret (b2z ((fd =? 0) || (fd =? 1) || (fd =? 2))).
Definition _getpid (n : Z) : CM Z := c_ret 1.
Definition _link : CM Z := set_errno EMLINK ;;; c_ret (-1).
Definition _unlink : CM Z := c_ret (-1).
(** [return _exit(0)] gives no value. *)
Definition _kill (n m : Z) : CM (option Z) :=
  if n =? 1 then _exit 0 ;;; c_ret None else set_errno EPERM ;;; c_ret (Some (-1)).
(** The fields st_mode and st_blksize it stores. *)
Definition _fstat (file : Z) : CM (Z * (Z * Z)) := c_ret (0, (S_IFCHR, 4096)).
(** The time, and what is stored at [tloc]. *)
Definition time (tloc : Z) : CM (Z * option Z) :=
  let thetime := 0 in c_ret (thetime, if tloc =? 0 then None else Some thetime).

(** What is left to do says so on file 2.  [put_text] is sprintf's store of a
    text into the local buffer at [buf]; the texts are formatted.  newlib's
    write calls [_write]. *)
Variable put_text : Z -> string -> K -> K.
Variables (buf newline : Z).
Definition write_text (t : string) : CM unit :=
  (fun s => (tt, CState (errno s) (_Sbrk_high s) (put_text buf t (kernel s)))) ;;;
  _write 2 buf (Z.of_nat (String.length t)) ;;; c_ret tt.
Definition newline_text : string := String "010"%char EmptyString.
Definition UNIMPLEMENTED (function file msg : string) : CM unit :=
  write_text ("UNIMPLEMENTED " ++ function ++ " in " ++ file ++ newline_text) ;;;
  write_text msg ;;;
  _write 2 newline 1 ;;; c_ret tt.
Definition not_there (function file msg : string) : CM Z :=
  UNIMPLEMENTED function file msg ;;; set_errno ENOSYS ;;; c_ret (-1).
Definition chmod (file msg : string) : CM Z := not_there "chmod" file msg.
Definition chown (file msg : string) : CM Z := not_there "chown" file msg.
Definition execv (file msg : string) : CM Z := not_there "execv" file msg.
Definition _execve (file msg : string) : CM Z := not_there "_execve" file msg.
Definition _fork (file : string) : CM Z := not_there "_fork" file "".
Definition pipe (file msg : string) : CM Z := not_there "pipe" file msg.
Definition _stat (file msg : string) : CM Z := not_there "_stat" file msg.
Definition utime (file msg : string) : CM Z := not_there "utime" file msg.
Definition _wait (file msg : string) : CM Z := not_there "_wait" file msg.
End C.
