(* ===== verification/NewlibProps.v ===== *)
(** The C library port on the emulator: what a system-call template hands to
    the kernel and gets back, setjmp and longjmp, and the heap of _sbrk. *)
From S2P Require Import Prelude Opcodes Cpu Tcg Translate Run RefBackend IsaArith IsaMove IsaMem IsaControl IsaSys RetStack.
From S2P Require Import Frame Decode Step Isa IsaProps Emu EmuProps GasData Gas GasProps GasExec GasMoves GasWitness LinuxAtomicProps Newlib.
Local Open Scope string_scope.
Local Open Scope Z_scope.

(** ** Running words one after the other *)

(** What a run leaves alone: all registers but [outs], the program counter
    and the registers every instruction sets (rd0, and the mode bits of rf0). *)
Definition always_set : list (regfile * Z) := [(RD, 0); (RB, 0); (RF, 0)].
Lemma reg_prologue_any g j env : (g, j) ∉ always_set -> reg g j (prologue env) = reg g j env.
Proof.
  intros Hj. unfold prologue. rewrite !reg_set_reg_ne; [done|..];
    destruct (decide (j = 0)) as [->|]; try (by right); left; intros <-; apply Hj; unfold always_set; set_solver.
Qed.
Lemma in_always f outs : f <> RA -> (f, 0) ∈ (always_set ++ outs)%list.
Proof. intros Hf. apply elem_of_app. left. unfold always_set. destruct f; try done; repeat first [left|right]. Qed.
Record effect (env env1 : CPUDADAOState) (pc : Z) (outs : list (regfile * Z)) : Prop := Effect {
  ef_pc : REG_PC env1 = pc;
  ef_reg : forall g j, (g, j) ∉ (always_set ++ outs)%list -> reg g j env1 = reg g j env }.
Lemma effect_trans env env1 env2 pc1 pc2 o1 o2 :
  effect env env1 pc1 o1 -> effect env1 env2 pc2 o2 -> effect env env2 pc2 (o1 ++ o2)%list.
Proof.
  intros [_ H1] [Hp H2]. split; [done|]. intros g j Hj. rewrite !elem_of_app in Hj.
  rewrite H2, H1; [done|rewrite elem_of_app; tauto..].
Qed.
Lemma effect_weaken env env1 pc o o' : effect env env1 pc o -> o ⊆ o' -> effect env env1 pc o'.
Proof.
  intros [Hp H] Ho. split; [done|]. intros g j Hj. apply H. rewrite elem_of_app in *. set_solver.
Qed.

Definition insn_of (w : Z) : option (string * args) := p ← decode w; Some (p_name p, pattern_args p w).

Section Machine.
Context {M : Type} (B : backend M) (L : tcg_laws B).
Variable helper : string -> CPUDADAOState -> list Z -> Z * CPUDADAOState.
Hypothesis V : values_64 B helper.
Variable disas : Z -> gen bool.
Hypothesis Hdisas : decodetree_laws disas.
Variable goto_tb : Z -> bool.
Variable H : host M.
Variable fetch : M -> Z -> option Z.
Abbreviation emulates := (emu_steps H B helper disas goto_tb fetch).

(** The words are in memory at [pc]. *)
Definition code_at (pc : Z) (ws : list Z) (mem : M) : Prop :=
  forall i w, ws !! i = Some w -> fetch mem (pc + 4 * Z.of_nat i) = Some w.
Lemma code_at_cons pc w ws mem : code_at pc (w :: ws) mem ->
  fetch mem pc = Some w /\ code_at (pc + 4) ws mem.
Proof.
  intros Hc. split; [rewrite <- (Hc 0%nat w) by done; f_equal; lia|].
  intros i v Hi. rewrite <- (Hc (S i) v) by done. f_equal. lia.
Qed.

Lemma code_at_app pc ws1 ws2 mem : code_at pc (ws1 ++ ws2)%list mem ->
  code_at pc ws1 mem /\ code_at (pc + 4 * Z.of_nat (length ws1)) ws2 mem.
Proof.
  intros Hc. split; intros i w Hi.
  - apply Hc. by apply lookup_app_l_Some.
  - rewrite <- (Hc (length ws1 + i)%nat w); [f_equal; lia|]. rewrite lookup_app_r by lia. by rewrite Nat.add_comm, Nat.add_sub.
Qed.
Record reaches (env : CPUDADAOState) (mem : M) (pc : Z) (outs : list (regfile * Z))
    (env1 : CPUDADAOState) (mem1 : M) : Prop := Reaches {
  rc_steps : emulates (Running env mem) (Running env1 mem1);
  rc_effect : effect env env1 pc outs;
  rc_ok : machine_ok env1 }.
Lemma reaches_trans env mem pc1 o1 env1 mem1 pc2 o2 env2 mem2 :
  reaches env mem pc1 o1 env1 mem1 -> reaches env1 mem1 pc2 o2 env2 mem2 ->
  reaches env mem pc2 (o1 ++ o2)%list env2 mem2.
Proof.
  intros [H1 H2 H3] [G1 G2 G3]. split; [by etransitivity|by eapply effect_trans|done].
Qed.
Lemma reaches_refl env mem : machine_ok env -> reaches env mem (REG_PC env) [] env mem.
Proof. intros Hm. split; [reflexivity|done|done]. Qed.

(** An instruction of the table that goes on behind itself. *)
Lemma step_insn sp w a env mem :
  step_implements B helper disas sp -> insn_of w = Some (sp_name sp, a) ->
  machine_ok env -> sp_pre sp (REG_PC env) a (prologue env) ->
  step B helper disas goto_tb (REG_PC env) w env mem = Some (sp_sem sp (REG_PC env) a (prologue env) mem).
Proof.
  intros (q & Hq & Hqn & Hstep) Hw [Hwf Hu _ _ _] Hpre. unfold insn_of in Hw.
  destruct (decode w) as [p|] eqn:Ed; [|done]. injection Hw as Hn <-.
  apply decode_some in Ed as [Hp Hm]. assert (p = q) as -> by (apply pattern_by_name; congruence).
  apply Hstep; try done. apply Hu.
Qed.
Lemma reach_next sp w a env mem env1 mem1 outs :
  step_implements B helper disas sp -> insn_of w = Some (sp_name sp, a) ->
  fetch mem (REG_PC env) = Some w -> machine_ok env -> REG_PC env + 4 < 2^64 ->
  sp_pre sp (REG_PC env) a (prologue env) ->
  sp_sem sp (REG_PC env) a (prologue env) mem = next_insn (REG_PC env) (RFall env1 mem1) -> wf_env env1 ->
  (forall g j, (g, j) ∉ (always_set ++ outs)%list -> reg g j env1 = reg g j (prologue env)) ->
  reaches env mem (REG_PC env + 4) outs (set_PC (REG_PC env + 4) env1) mem1.
Proof.
  intros Hsp Hw Hf Hm Hpc Hpre Hsem Hwf Hr. assert (Hu : 0 <= REG_PC env) by (destruct Hm as [_ Hu _ _ _]; apply Hu).
  pose proof (step_insn sp w a env mem Hsp Hw Hm Hpre) as Hs. rewrite Hsem in Hs. cbn [next_insn] in Hs.
  rewrite w64_id in Hs by lia. split.
  - apply rtc_once. by eapply ES_exit.
  - split; [unfold REG_PC at 1, set_PC; by apply reg_set_reg_eq|].
    intros g j Hj. unfold set_PC. rewrite reg_set_reg_ne.
    + rewrite Hr by done. apply reg_prologue_any. by apply not_elem_of_app in Hj as [? _].
    + destruct (decide (g = RB)) as [->|]; [right|by left]. intros <-. by apply Hj, in_always.
  - by apply (step_ok B helper V) in Hs.
Qed.

(** *** Single instructions *)
Lemma not_set (f : regfile) (d : Z) g j outs : (f, d) ∈ outs -> (g, j) ∉ (always_set ++ outs)%list -> f <> g \/ d <> j.
Proof.
  intros Hin Hj. destruct (decide (f = g)) as [->|]; [|by left]. right. intros ->. apply Hj. set_solver.
Qed.
Definition alu_named (n : string) : option row := List.find (fun r => (isa_name r =? n)%string) isa_alu.
Lemma alu_of_name n r : alu_named n = Some r -> isa_name r = n /\ step_implements B helper disas (sp_alu r).
Proof.
  intros Hn. pose proof (List.find_some _ _ Hn) as [Hin Heq]. apply String.eqb_eq in Heq. split; [done|].
  pose proof (alu_implemented B L helper disas Hdisas) as Ha. rewrite Forall_forall in Ha. apply Ha.
  apply list_elem_of_fmap. exists r. split; [done|]. by apply list_elem_of_In.
Qed.

(** An instruction whose meaning is one register written. *)
Lemma reach_write n r w a f d v env mem :
  alu_named n = Some r -> insn_of w = Some (n, a) -> fetch mem (REG_PC env) = Some w ->
  machine_ok env -> REG_PC env + 4 < 2^64 -> isa_pre r a (prologue env) ->
  isa_spec r (REG_PC env) a (prologue env) = set_reg f d v (prologue env) -> 0 < d < 64 ->
  exists env1, reaches env mem (REG_PC env + 4) [(f, d)] env1 mem /\ reg f d env1 = v.
Proof.
  intros Hn Hw Hf Hm Hpc Hpre Hsp Hd. destruct (alu_of_name _ _ Hn) as [<- Hi].
  pose proof (wf_prologue _ (ok_wf _ Hm)) as Hwf. eexists. split.
  - eapply (reach_next _ w a env mem _ mem [(f, d)] Hi Hw Hf Hm Hpc Hpre).
    + cbn [sp_sem sp_alu]. by rewrite Hsp.
    + eauto with cpu.
    + intros g j Hj. apply reg_set_reg_ne, (not_set _ _ _ _ _ (list_elem_of_here _ _) Hj).
  - unfold set_PC. rewrite reg_set_reg_ne by (right; lia). apply reg_set_reg_eq; [done|lia].
Qed.
Definition move_insn_name (dst : regfile) (n : string) : Prop := (dst, n) ∈ [(RD, "RD2RD"); (RB, "RD2RB")].
Lemma reach_copy dst n w d j env mem :
  move_insn_name dst n -> insn_of w = Some (n, Args 0 d j 0 0 1 0 0 0 0 0 0) -> fetch mem (REG_PC env) = Some w ->
  machine_ok env -> REG_PC env + 4 < 2^64 -> 0 < d < 64 -> 0 < j < 64 ->
  exists env1, reaches env mem (REG_PC env + 4) [(dst, d)] env1 mem /\ reg dst d env1 = reg RD j env.
Proof.
  intros Hn Hw Hf Hm Hpc Hd Hj. pose proof (wf_prologue _ (ok_wf _ Hm)) as Hwf.
  assert (Hs : step_implements B helper disas (sp_move n RD dst)).
  { pose proof (moves_implemented B L helper disas Hdisas) as Ha. rewrite Forall_forall in Ha. apply Ha.
    unfold move_insn_name in Hn. rewrite !elem_of_cons, elem_of_nil in Hn. unfold isa_moves.
    destruct Hn as [[= -> ->]|[[= -> ->]|[]]]; repeat first [left | right]. }
  eexists. split.
  - eapply (reach_next _ w _ env mem _ mem [(dst, d)] Hs Hw Hf Hm Hpc).
    + cbn. unfold two_ranges, range_ok. cbn. lia.
    + cbn [sp_sem sp_move]. rewrite spec_r2r_one by (cbn; done || lia). reflexivity.
    + cbn [hb hc]. eauto with cpu.
    + intros g k Hk. cbn [hb hc]. apply reg_set_reg_ne, (not_set _ _ _ _ _ (list_elem_of_here _ _) Hk).
  - unfold set_PC. cbn [hb hc]. rewrite reg_set_reg_ne by (right; lia). rewrite reg_set_reg_eq by (done || lia).
    apply reg_prologue. lia.
Qed.

(** *** The setup of a call: registers copied one after the other *)
Definition copy_word (w : Z) (p : Z * Z) : Prop := insn_of w = Some ("RD2RD", Args 0 (fst p) (snd p) 0 0 1 0 0 0 0 0 0).
Lemma copies_run ps : forall ws env mem,
  Forall2 copy_word ws ps -> NoDup (map fst ps) ->
  (forall i j p q, (j < i)%nat -> ps !! i = Some p -> ps !! j = Some q -> snd p <> fst q) ->
  Forall (fun p => 0 < fst p < 64 /\ 0 < snd p < 64) ps ->
  code_at (REG_PC env) ws mem -> machine_ok env -> REG_PC env + 4 * Z.of_nat (length ws) < 2^64 ->
  exists env1, reaches env mem (REG_PC env + 4 * Z.of_nat (length ws)) (map (fun p => (RD, fst p)) ps) env1 mem /\
    forall d j, (d, j) ∈ ps -> reg RD d env1 = reg RD j env.
Proof.
  induction ps as [|[d j] ps IH]; intros ws env mem Hw Hnd Hlate Hin Hc Hm Hpc.
  - apply Forall2_nil_inv_r in Hw as ->. exists env. rewrite Z.add_0_r. split; [by apply reaches_refl|].
    intros d j Hd. by apply elem_of_nil in Hd.
  - apply Forall2_cons_inv_r in Hw as (w & ws' & Hw & Hws & ->). apply code_at_cons in Hc as [Hf Hc].
    cbn [map fst] in Hnd. apply NoDup_cons in Hnd as [Hd Hnd]. apply Forall_cons in Hin as [[Hd1 Hj1] Hin].
    cbn [length fst snd] in *.
    destruct (reach_copy RD "RD2RD" w d j env mem) as (e1 & R1 & Hv1); try done; [by left|lia|].
    assert (Hp1 : REG_PC e1 = REG_PC env + 4) by apply R1.
    destruct (IH ws' e1 mem Hws Hnd) as (e2 & R2 & Hv2); [|done|by rewrite Hp1|apply R1|rewrite Hp1; lia|].
    + intros i k p q Hik Hp Hq. apply (Hlate (S i) (S k) p q); [lia|done|done].
    + exists e2. rewrite Hp1 in R2. split.
      * replace (REG_PC env + 4 * Z.of_nat (S (length ws'))) with (REG_PC env + 4 + 4 * Z.of_nat (length ws')) by lia.
        change (map (fun p => (RD, fst p)) ((d, j) :: ps)) with ([(RD, d)] ++ map (fun p : Z * Z => (RD, fst p)) ps)%list.
        by eapply reaches_trans.
      * intros d' j' [[= -> ->]|Hin']%elem_of_cons.
        -- rewrite (ef_reg _ _ _ _ (rc_effect _ _ _ _ _ _ R2)); [done|]. unfold always_set. rewrite elem_of_app.
           intros [Ha|Ha]; [rewrite !elem_of_cons, elem_of_nil in Ha; naive_solver lia|].
           apply list_elem_of_fmap in Ha as ([d2 j2] & [= ->] & Ha). apply Hd, list_elem_of_fmap. by exists (d2, j2).
        -- rewrite (Hv2 _ _ Hin'). apply list_elem_of_lookup in Hin' as [i Hi].
           rewrite (ef_reg _ _ _ _ (rc_effect _ _ _ _ _ _ R1)); [done|].
           pose proof (Hlate (S i) 0%nat _ _ ltac:(lia) Hi eq_refl) as Hne. cbn in Hne.
           rewrite Forall_forall in Hin. pose proof (Hin (d', j') (list_elem_of_lookup_2 _ _ _ Hi)) as Hr. cbn in Hr.
           unfold always_set. cbn [app]. rewrite !elem_of_cons, elem_of_nil. naive_solver lia.
Qed.

Lemma trap_raises w env mem :
  insn_of w = Some ("TRAP", no_args) -> machine_ok env ->
  step B helper disas goto_tb (REG_PC env) w env mem = Some (RRaise DADAO_EXCP_TRAP (prologue env) mem).
Proof.
  intros Hw Hm. pose proof (system_implemented B L helper disas Hdisas) as Ha. rewrite Forall_forall in Ha.
  rewrite (step_insn _ w no_args env mem (Ha _ (list_elem_of_here _ _)) Hw Hm); done.
Qed.
End Machine.

(** ** The words of the templates *)
#[export] Instance args_eq_dec : EqDecision args.
Proof. solve_decision. Defined.
Definition copy_checked (p : nat * nat) : bool :=
  match assemble [] ("rd2rd", [Reg RD (Z.of_nat (fst p)); Reg RD (Z.of_nat (snd p)); Imm 1]) with
  | Some w => bool_decide
      (insn_of w = Some ("RD2RD", Args 0 (Z.of_nat (fst p)) (Z.of_nat (snd p)) 0 0 1 0 0 0 0 0 0))
  | None => false
  end.
(** The copies the templates have: to an argument register, and of rd31. *)
Definition template_copies : list (nat * nat) := list_prod (seq 16 4) (seq 0 64) ++ list_prod (seq 0 64) [31%nat].
Lemma copies_checked : forallb copy_checked template_copies = true.
Proof. vm_compute. reflexivity. Qed.
Lemma copy_assembled d j w : 0 <= d < 64 -> 0 <= j < 64 -> 16 <= d < 20 \/ j = 31 ->
  assemble [] ("rd2rd", [Reg RD d; Reg RD j; Imm 1]) = Some w -> copy_word w (d, j).
Proof.
  intros Hd Hj Hin Hw. pose proof copies_checked as Hc. rewrite forallb_forall in Hc.
  specialize (Hc (Z.to_nat d, Z.to_nat j)). unfold copy_checked, template_copies in Hc. cbn [fst snd] in Hc.
  rewrite !Z2Nat.id, Hw, in_app_iff, !in_prod_iff, !in_seq in Hc by lia.
  apply (bool_decide_eq_true (insn_of w = Some _)), Hc. destruct Hin as [?| ->]; [left; lia|right; split; [lia|by left]].
Qed.

(** The operands of a call: the registers the compiler chose for %1, %2, ...
    are copied to the argument registers behind the fixed ones. *)
Definition argument_copies (r : request) (xs : list Z) : list (Z * Z) :=
  imap (fun j x => (16 + Z.of_nat (length (rq_fixed r)) + Z.of_nat j, x)) xs.
Definition template (r : request) : list asm_line :=
  (("setzw", [Reg RD 15; Wyde 0; Imm (rq_number r)]) ::
   map (fun _ => ("setow", [Reg RD 16; Wyde 0; Imm 65436])) (rq_fixed r) ++
   map (fun j => ("rd2rd", [Reg RD (16 + Z.of_nat (length (rq_fixed r)) + Z.of_nat j); Arg (S j); Imm 1]))
     (seq 0 (rq_inputs r)) ++
   [("trap", [Cp 0; Imm 0]); ("rd2rd", [Arg 0; Reg RD 31; Imm 1])])%list.
Lemma requests_templates : Forall (fun r => rq_code r = template r /\
  rq_fixed r ∈ [[]; [w64 AT_FDCWD]] /\
  (length (rq_fixed r) + rq_inputs r <= 4)%nat /\ (1 <= rq_inputs r)%nat /\
  (w ← assemble [] ("setzw", [Reg RD 15; Wyde 0; Imm (rq_number r)]); insn_of w)
  = Some ("SETZWrd", Args 15 0 0 0 0 0 0 (rq_number r) 0 0 0 0) /\ 0 <= rq_number r < 2^16) requests.
Proof.
  repeat (apply Forall_cons_2; [split; [reflexivity|]; split; [apply (bool_decide_unpack _); vm_compute; done|];
    split; [cbn; lia|]; split; [cbn; lia|]; split; [vm_compute; reflexivity|cbn; lia]|]).
  apply Forall_nil_2.
Qed.

Definition has_arg (o : asm_operand) : bool := match o with Arg _ => true | _ => false end.
Lemma assemble_no_arg regs l : existsb has_arg (snd l) = false -> assemble regs l = assemble [] l.
Proof.
  intros Hl. unfold assemble. f_equal. induction (snd l) as [|[] ops IH]; cbn in *; try done; f_equal; auto.
Qed.
Lemma request_words r o xs ws :
  r ∈ requests -> length xs = rq_inputs r -> 0 <= o < 64 -> Forall (fun x => 0 < x < 64) xs ->
  assemble_all (o :: xs) (rq_code r) = Some ws ->
  exists w0 wf wc wt wr, ws = (w0 :: wf ++ wc ++ [wt; wr])%list /\
    insn_of w0 = Some ("SETZWrd", Args 15 0 0 0 0 0 0 (rq_number r) 0 0 0 0) /\
    Forall2 (fun w _ => insn_of w = Some ("SETOW", Args 16 0 0 0 0 0 0 65436 0 0 0 0)) wf (rq_fixed r) /\
    Forall2 copy_word wc (argument_copies r xs) /\
    insn_of wt = Some ("TRAP", no_args) /\ copy_word wr (o, 31).
Proof.
  intros Hr Hl Ho Hx Ha. pose proof requests_templates as Ht. rewrite Forall_forall in Ht.
  destruct (Ht r Hr) as (Hc & Hfix & Hn & _ & Hnum & _). rewrite Hc in Ha. unfold assemble_all in Ha.
  apply mapM_Some in Ha. unfold template in Ha.
  apply Forall2_cons_inv_l in Ha as (w0 & ws1 & H0 & Ha & ->).
  apply Forall2_app_inv_l in Ha as (wf & ws2 & Hf & Ha & ->).
  apply Forall2_app_inv_l in Ha as (wc & ws3 & Hcs & Ha & ->).
  apply Forall2_cons_inv_l in Ha as (wt & ws4 & Htr & Ha & ->).
  apply Forall2_cons_inv_l in Ha as (wr & ws5 & Hres & Ha & ->). apply Forall2_nil_inv_l in Ha as ->.
  exists w0, wf, wc, wt, wr. split; [done|]. split; [|split; [|split; [|split]]].
  - rewrite assemble_no_arg in H0 by done. rewrite H0 in Hnum. done.
  - apply Forall2_fmap_l in Hf. eapply Forall2_flip, Forall2_impl; [exact Hf|]. intros v w Hw.
    unfold compose in Hw. rewrite assemble_no_arg in Hw by done.
    assert (E : (w ← assemble [] ("setow", [Reg RD 16; Wyde 0; Imm 65436]); insn_of w)
      = Some ("SETOW", Args 16 0 0 0 0 0 0 65436 0 0 0 0)) by (vm_compute; reflexivity).
    by rewrite Hw in E.
  - apply Forall2_same_length_lookup. apply Forall2_fmap_l in Hcs.
    pose proof (Forall2_length _ _ _ Hcs) as Hlen. rewrite length_seq in Hlen. unfold argument_copies.
    split; [rewrite length_imap; lia|]. intros j w p Hw Hp. rewrite list_lookup_imap in Hp.
    destruct (xs !! j) as [x|] eqn:Ex; [|done]. injection Hp as <-.
    assert (Hj : (j < rq_inputs r)%nat) by (rewrite <- Hl; by eapply lookup_lt_Some).
    assert (Hs : seq 0 (rq_inputs r) !! j = Some j) by (apply lookup_seq; lia).
    pose proof (Forall2_lookup_lr _ _ _ _ _ _ Hcs Hs Hw) as Hw'. cbv beta in Hw'.
    rewrite Forall_forall in Hx. pose proof (Hx x (list_elem_of_lookup_2 _ _ _ Ex)) as Hx1.
    apply copy_assembled; [lia..|]. rewrite <- Hw'. unfold assemble. cbn [fst snd map asm_exp class_start nth].
    rewrite (nth_lookup_Some xs j (-1) x Ex). done.
  - rewrite assemble_no_arg in Htr by done.
    assert (E : (w ← assemble [] ("trap", [Cp 0; Imm 0]); insn_of w) = Some ("TRAP", no_args)) by (vm_compute; reflexivity).
    by rewrite Htr in E.
  - apply copy_assembled; [lia..|]. rewrite <- Hres. done.
Qed.

(** ** System calls *)
Section Calls.
Context {M : Type} (B : backend M) (L : tcg_laws B).
Variable helper : string -> CPUDADAOState -> list Z -> Z * CPUDADAOState.
Hypothesis V : values_64 B helper.
Variable disas : Z -> gen bool.
Hypothesis Hdisas : decodetree_laws disas.
Variable goto_tb : Z -> bool.
Variable H : host M.
Variable fetch : M -> Z -> option Z.
Abbreviation emulates := (emu_steps H B helper disas goto_tb fetch).
Abbreviation reaches_ := (reaches B helper disas goto_tb H fetch).

(** The call number and the fixed arguments. *)
Lemma request_head r w0 wf env mem :
  r ∈ requests -> insn_of w0 = Some ("SETZWrd", Args 15 0 0 0 0 0 0 (rq_number r) 0 0 0 0) ->
  Forall2 (fun w _ => insn_of w = Some ("SETOW", Args 16 0 0 0 0 0 0 65436 0 0 0 0)) wf (rq_fixed r) ->
  code_at fetch (REG_PC env) (w0 :: wf) mem -> machine_ok env ->
  REG_PC env + 4 * Z.of_nat (length (w0 :: wf)) < 2^64 ->
  exists env1, reaches_ env mem (REG_PC env + 4 * Z.of_nat (length (w0 :: wf)))
      ((RD, 15) :: imap (fun j _ => (RD, 16 + Z.of_nat j)) (rq_fixed r)) env1 mem /\
    reg RD 15 env1 = rq_number r /\
    forall j v, rq_fixed r !! j = Some v -> reg RD (16 + Z.of_nat j) env1 = v.
Proof.
  intros Hr H0 Hf Hc Hm Hpc. pose proof requests_templates as Ht. rewrite Forall_forall in Ht.
  destruct (Ht r Hr) as (_ & Hfix & _ & _ & _ & Hnum). apply code_at_cons in Hc as [Hf0 Hc]. cbn [length] in Hpc.
  destruct (reach_write B L helper V disas Hdisas goto_tb H fetch "SETZWrd" _ w0 _ RD 15 (rq_number r) env mem
    eq_refl H0 Hf0 Hm) as (e1 & R1 & Hv1); [lia|done|cbn; unfold spec_rwii, write; cbn; f_equal; lia|lia|].
  assert (Hp1 : REG_PC e1 = REG_PC env + 4) by apply R1.
  rewrite !elem_of_cons, elem_of_nil in Hfix. destruct Hfix as [Hx|[Hx|[]]]; rewrite Hx in *.
  - apply Forall2_nil_inv_r in Hf as ->. exists e1. split; [exact R1|]. split; [done|]. by intros j v Hj.
  - apply Forall2_cons_inv_r in Hf as (w1 & ws & Hw1 & Hf & ->). apply Forall2_nil_inv_r in Hf as ->.
    apply code_at_cons in Hc as [Hf1 _]. cbn [length] in Hpc.
    destruct (reach_write B L helper V disas Hdisas goto_tb H fetch "SETOW" _ w1 _ RD 16 (w64 AT_FDCWD) e1 mem
      eq_refl Hw1) as (e2 & R2 & Hv2); [by rewrite Hp1|apply R1|rewrite Hp1; lia|done| |lia|].
    { cbn [isa_spec]. unfold spec_setow, write. cbn [ha immu16 ww Z.eqb]. f_equal. }
    rewrite Hp1 in R2. exists e2. split; [|split].
    + cbn [length imap]. replace (REG_PC env + 4 * Z.of_nat 2) with (REG_PC env + 4 + 4) by lia.
      exact (reaches_trans _ _ _ _ _ _ _ _ _ _ _ _ _ _ _ _ R1 R2).
    + rewrite (ef_reg _ _ _ _ (rc_effect _ _ _ _ _ _ _ _ _ _ _ _ R2)); [done|]. unfold always_set. set_solver.
    + intros [|j] v Hj; [by injection Hj as <-|done].
Qed.

(** No register of an operand is written before the template reads it. *)
Definition untouched (r : request) (xs : list Z) : Prop :=
  forall j x, xs !! j = Some x -> x <> 15 /\ ~ (16 <= x < 16 + Z.of_nat (length (rq_fixed r)) + Z.of_nat j).

(** The copies of the operands. *)
Lemma argument_copies_elem r xs p : p ∈ argument_copies r xs ->
  exists j x, xs !! j = Some x /\ p = (16 + Z.of_nat (length (rq_fixed r)) + Z.of_nat j, x).
Proof.
  intros (j & Hj)%list_elem_of_lookup. unfold argument_copies in Hj. rewrite list_lookup_imap in Hj.
  destruct (xs !! j) as [x|] eqn:Ex; [|done]. injection Hj as <-. eauto.
Qed.
Lemma argument_copied r xs j x : xs !! j = Some x ->
  (16 + Z.of_nat (length (rq_fixed r)) + Z.of_nat j, x) ∈ argument_copies r xs.
Proof.
  intros Ex. apply list_elem_of_lookup. exists j. unfold argument_copies. by rewrite list_lookup_imap, Ex.
Qed.
Lemma copies_apart r xs : untouched r xs ->
  NoDup (map fst (argument_copies r xs)) /\
  forall i j p q, (j < i)%nat -> argument_copies r xs !! i = Some p -> argument_copies r xs !! j = Some q ->
    snd p <> fst q.
Proof.
  intros Hu. unfold argument_copies. split.
  - apply NoDup_alt. intros i j v. rewrite !list_lookup_fmap, !list_lookup_imap.
    destruct (xs !! i), (xs !! j); cbn; intros E1 E2; try done; injection E1 as <-; injection E2; lia.
  - intros i j [d1 x1] [d2 x2] Hij Hp Hq. rewrite list_lookup_imap in Hp, Hq.
    destruct (xs !! i) as [a|] eqn:Ea, (xs !! j) as [b|] eqn:Eb; try done. injection Hp as <- <-; injection Hq as <- <-.
    cbn. pose proof (Hu i a Ea). lia.
Qed.
Lemma copies_in_file r xs : (length (rq_fixed r) + length xs <= 4)%nat -> Forall (fun x => 0 < x < 64) xs ->
  Forall (fun p => 0 < fst p < 64 /\ 0 < snd p < 64) (argument_copies r xs).
Proof.
  intros Hn Hx. rewrite Forall_forall in Hx. apply Forall_forall. intros p Hp.
  destruct (argument_copies_elem _ _ _ Hp) as (j & x & Ex & ->). cbn.
  pose proof (lookup_lt_Some _ _ _ Ex). pose proof (Hx x (list_elem_of_lookup_2 _ _ _ Ex)). lia.
Qed.

(** The words before the trap, whose registers are [setup_regs]. *)
Definition setup_regs (r : request) : list (regfile * Z) :=
  map (pair RD) (seqZ 15 (1 + Z.of_nat (length (rq_fixed r) + rq_inputs r))).
Lemma setup_reg r d : (RD, d) ∈ setup_regs r <-> 15 <= d < 16 + Z.of_nat (length (rq_fixed r) + rq_inputs r).
Proof.
  unfold setup_regs. rewrite list_elem_of_fmap. setoid_rewrite elem_of_seqZ. split.
  - intros (p & [= ->] & Hp). lia.
  - intros Hd. exists d. split; [done|lia].
Qed.
Lemma setup_effect r xs : length xs = rq_inputs r ->
  (((RD, 15) :: imap (fun j _ => (RD, 16 + Z.of_nat j)) (rq_fixed r)) ++
    map (fun p => (RD, fst p)) (argument_copies r xs))%list ⊆ setup_regs r.
Proof.
  intros Hl [g d]. rewrite elem_of_app, elem_of_cons, list_elem_of_fmap. intros [[[= -> ->]|Hd]|(p & [= -> ->] & Hp)].
  - apply setup_reg. lia.
  - apply list_elem_of_lookup in Hd as [j Hj]. rewrite list_lookup_imap in Hj.
    destruct (rq_fixed r !! j) eqn:Ej; [|done]. injection Hj as <- <-. apply lookup_lt_Some in Ej. apply setup_reg. lia.
  - destruct (argument_copies_elem _ _ _ Hp) as (j & x & Ex & ->). apply lookup_lt_Some in Ex. apply setup_reg. cbn. lia.
Qed.
Lemma request_setup r xs w0 wf wc env mem :
  r ∈ requests -> length xs = rq_inputs r -> Forall (fun x => 0 < x < 64) xs -> untouched r xs ->
  insn_of w0 = Some ("SETZWrd", Args 15 0 0 0 0 0 0 (rq_number r) 0 0 0 0) ->
  Forall2 (fun w _ => insn_of w = Some ("SETOW", Args 16 0 0 0 0 0 0 65436 0 0 0 0)) wf (rq_fixed r) ->
  Forall2 copy_word wc (argument_copies r xs) ->
  code_at fetch (REG_PC env) ((w0 :: wf) ++ wc)%list mem -> machine_ok env ->
  REG_PC env + 4 * Z.of_nat (length ((w0 :: wf) ++ wc)%list) < 2^64 ->
  exists env1, reaches_ env mem (REG_PC env + 4 * Z.of_nat (length ((w0 :: wf) ++ wc)%list)) (setup_regs r) env1 mem /\
    reg RD 15 env1 = rq_number r /\
    (forall j v, rq_fixed r !! j = Some v -> reg RD (16 + Z.of_nat j) env1 = v) /\
    (forall j x, xs !! j = Some x ->
      reg RD (16 + Z.of_nat (length (rq_fixed r)) + Z.of_nat j) env1 = reg RD x env).
Proof.
  intros Hr Hl Hx Hu H0 Hf Hcs [Hc1 Hc2]%code_at_app Hm Hpc. pose proof requests_templates as Ht.
  rewrite Forall_forall in Ht. destruct (Ht r Hr) as (_ & _ & Hn & _). rewrite length_app in *.
  destruct (request_head r w0 wf env mem Hr H0 Hf Hc1 Hm) as (e1 & R1 & Hnum & Hfix); [lia|].
  assert (Hp1 : REG_PC e1 = REG_PC env + 4 * Z.of_nat (length (w0 :: wf))) by apply R1.
  destruct (copies_apart r xs Hu) as [Hnd Hlate]. rewrite <- Hl in Hn.
  destruct (copies_run B L helper V disas Hdisas goto_tb H fetch (argument_copies r xs) wc e1 mem Hcs Hnd Hlate)
    as (e2 & R2 & Hv2); [by apply copies_in_file|by rewrite Hp1|apply R1|rewrite Hp1; lia|].
  pose proof (reaches_trans _ _ _ _ _ _ _ _ _ _ _ _ _ _ _ _ R1 R2) as R. rewrite Hp1 in R. exists e2.
  assert (Hkeep : forall d, d < 16 + Z.of_nat (length (rq_fixed r)) -> d <> 0 -> reg RD d e2 = reg RD d e1).
  { intros d Hd Hd0. apply (ef_reg _ _ _ _ (rc_effect _ _ _ _ _ _ _ _ _ _ _ _ R2)). unfold always_set.
    rewrite elem_of_app, !elem_of_cons, elem_of_nil, list_elem_of_fmap.
    intros [?|(p & [= ->] & Hp)]; [naive_solver|]. destruct (argument_copies_elem _ _ _ Hp) as (j & x & _ & ->). cbn in Hd. lia. }
  split; [|split; [|split]].
  - replace (REG_PC env + 4 * Z.of_nat (length (w0 :: wf) + length wc))
      with (REG_PC env + 4 * Z.of_nat (length (w0 :: wf)) + 4 * Z.of_nat (length wc)) by lia.
    split; [apply R| |apply R]. eapply effect_weaken; [apply R|by apply setup_effect].
  - rewrite Hkeep; [done|lia|done].
  - intros j v Hj. pose proof (lookup_lt_Some _ _ _ Hj). rewrite Hkeep; [by apply Hfix|lia|lia].
  - intros j x Ex. rewrite (Hv2 _ x (argument_copied r xs j x Ex)).
    apply (ef_reg _ _ _ _ (rc_effect _ _ _ _ _ _ _ _ _ _ _ _ R1)). destruct (Hu j x Ex) as [H1 H2].
    rewrite Forall_forall in Hx. pose proof (Hx x (list_elem_of_lookup_2 _ _ _ Ex)). unfold always_set.
    rewrite elem_of_app, !elem_of_cons, elem_of_nil. intros [?|[[= ?]|Hd]]; [naive_solver lia|done|].
    apply list_elem_of_lookup in Hd as [k Hk]. rewrite list_lookup_imap in Hk.
    destruct (rq_fixed r !! k) eqn:Ek; [|done]. injection Hk as E. apply lookup_lt_Some in Ek. lia.
Qed.

Lemma pc_prologue env : REG_PC (prologue env) = REG_PC env.
Proof. unfold REG_PC, prologue. by rewrite !reg_set_reg_ne by (by left). Qed.
Lemma syscall_arg env j : (j < 7)%nat -> syscall_args env !! j = Some (reg RD (16 + Z.of_nat j) env).
Proof.
  intros Hj. unfold syscall_args. rewrite lookup_app_l by (rewrite length_fmap, length_seqZ; lia).
  rewrite list_lookup_fmap, lookup_seqZ_lt by lia. cbn [fmap option_fmap option_map]. done.
Qed.
(** Back from the kernel: the result's register, then the line behind the trap. *)
Lemma call_returns ret e1 mem env1 mem1 wr o :
  do_syscall H e1 mem (reg RD 15 e1) (syscall_args e1) = (ret, env1, mem1) ->
  ret <> - QEMU_ERESTARTSYS H -> ret <> - QEMU_ESIGRETURN H -> machine_ok env1 ->
  copy_word wr (o, 31) -> 0 < o < 64 -> fetch mem1 (REG_PC env1 + 4) = Some wr -> REG_PC env1 + 8 < 2^64 ->
  exists env2, emulates (cpu_loop_body H DADAO_EXCP_TRAP e1 mem) (Running env2 mem1) /\
    effect env1 env2 (REG_PC env1 + 8) [(RD, 31); (RD, o)] /\ reg RD o env2 = w64 ret.
Proof.
  intros Hs Hr1 Hr2 Hm Hw Ho Hf Hpc. assert (Hu : 0 <= REG_PC env1) by (destruct Hm as [_ Hu _ _ _]; apply Hu).
  set (e3 := set_reg RD 31 (w64 ret) (set_PC (REG_PC env1 + 4) env1)).
  assert (Hb : cpu_loop_body H DADAO_EXCP_TRAP e1 mem = Running e3 mem1).
  { unfold cpu_loop_body. rewrite Z.eqb_refl. change DD_SYSCALL_NUM_REGNUM with 15. rewrite Hs.
    rewrite (proj2 (Z.eqb_neq ret (- QEMU_ERESTARTSYS H))), (proj2 (Z.eqb_neq ret (- QEMU_ESIGRETURN H))) by done.
    cbn [negb]. unfold e3. by rewrite (w64_id (REG_PC env1 + 4)) by lia. }
  assert (Hok : machine_ok e3) by (unfold e3, set_PC; apply machine_set_reg, w64_range; apply machine_set_reg; [done|lia]).
  assert (Hp : REG_PC e3 = REG_PC env1 + 4).
  { unfold e3, REG_PC at 1. rewrite reg_set_reg_ne by (by left). unfold set_PC. apply reg_set_reg_eq; [apply Hm|lia]. }
  destruct (reach_copy B L helper V disas Hdisas goto_tb H fetch RD "RD2RD" wr o 31 e3 mem1) as (e4 & [S4 [P4 E4] M4] & Hv);
    try done; [by left|by rewrite Hp|lia|].
  exists e4. rewrite Hb. split; [done|]. split; [split; [lia|]|].
  - intros g j Hj. rewrite E4 by set_solver. unfold e3. unfold always_set in Hj.
    rewrite reg_set_reg_ne by (destruct (decide (g = RD)) as [->|]; [right; set_solver|by left]).
    unfold set_PC. apply reg_set_reg_ne. destruct (decide (g = RB)) as [->|]; [right; set_solver|by left].
  - rewrite Hv. unfold e3. apply reg_set_reg_eq; [unfold set_PC; eauto using wf_set_reg, ok_wf with cpu|lia].
Qed.

(** C39: A system-call function of the C library, assembled for any registers
    that it does not overwrite before it reads them and run on the emulator,
    makes one system call, with its number, AT_FDCWD in front where the
    template has it, and the values of its operands in order; it has changed
    no register but rd15 to the last argument by then.  When the kernel
    answers, the 64-bit answer is in the register of the result, the next
    instruction is the one behind the template, and of what the kernel left
    only rd31 and that register are changed. *)
Theorem system_call r o xs ws env mem :
  r ∈ requests -> length xs = rq_inputs r -> 0 < o < 64 -> Forall (fun x => 0 < x < 64) xs -> untouched r xs ->
  assemble_all (o :: xs) (rq_code r) = Some ws -> code_at fetch (REG_PC env) ws mem ->
  machine_ok env -> REG_PC env + 4 * Z.of_nat (length ws) < 2^64 ->
  exists env1,
    effect env env1 (REG_PC env + 4 * Z.of_nat (length ws - 2)) (setup_regs r) /\ machine_ok env1 /\
    (forall j v, (rq_fixed r ++ map (fun x => reg RD x env) xs)%list !! j = Some v ->
       syscall_args env1 !! j = Some v) /\
    emulates (Running env mem) (cpu_loop_body H DADAO_EXCP_TRAP env1 mem) /\
    forall ret env' mem',
      do_syscall H env1 mem (rq_number r) (syscall_args env1) = (ret, env', mem') ->
      ret <> - QEMU_ERESTARTSYS H -> ret <> - QEMU_ESIGRETURN H ->
      machine_ok env' -> REG_PC env' = REG_PC env1 -> code_at fetch (REG_PC env) ws mem' ->
      exists env2, emulates (Running env mem) (Running env2 mem') /\ reg RD o env2 = w64 ret /\
        effect env' env2 (REG_PC env + 4 * Z.of_nat (length ws)) [(RD, 31); (RD, o)].
Proof.
  intros Hr Hl Ho Hx Hu Ha Hc Hm Hpc. pose proof requests_templates as Ht. rewrite Forall_forall in Ht.
  destruct (Ht r Hr) as (_ & _ & Hn & _).
  destruct (request_words r o xs ws Hr Hl ltac:(lia) Hx Ha) as (w0 & wf & wc & wt & wr & -> & H0 & Hf & Hcs & Htr & Hres).
  change (w0 :: wf ++ wc ++ [wt; wr])%list with ((w0 :: wf) ++ wc ++ [wt; wr])%list in *. rewrite app_assoc in *.
  set (pre := ((w0 :: wf) ++ wc)%list) in *. pose proof (code_at_app _ _ _ _ _ Hc) as [Hc1 Hc2].
  rewrite length_app in *. cbn [length] in *.
  destruct (request_setup r xs w0 wf wc env mem Hr Hl Hx Hu H0 Hf Hcs Hc1 Hm ltac:(fold pre; lia)) as (e1 & R & Hnum & Hfix & Hargs).
  fold pre in R. apply code_at_cons in Hc2 as [Hft _]. assert (Hp : REG_PC e1 = REG_PC env + 4 * Z.of_nat (length pre)) by apply R.
  assert (Hstep : emulates (Running env mem) (cpu_loop_body H DADAO_EXCP_TRAP (prologue e1) mem)).
  { eapply rtc_r; [apply R|]. eapply ES_raise; [by rewrite Hp|]. by eapply trap_raises, R. }
  exists (prologue e1). replace (length pre + 2 - 2)%nat with (length pre) by lia. split; [|split; [|split; [|split; [done|]]]].
  - split; [by rewrite pc_prologue|]. intros g j Hj. rewrite reg_prologue_any by (by apply not_elem_of_app in Hj as [? _]).
    by apply (ef_reg _ _ _ _ (rc_effect _ _ _ _ _ _ _ _ _ _ _ _ R)).
  - pose proof (trap_raises B L helper disas Hdisas goto_tb wt e1 mem Htr (rc_ok _ _ _ _ _ _ _ _ _ _ _ _ R)) as Ht1.
    by apply (step_ok B helper V) in Ht1; [|apply R].
  - intros j v Hj. pose proof (lookup_lt_Some _ _ _ Hj) as Hlt. rewrite length_app, length_map, Hl in Hlt.
    rewrite syscall_arg, reg_prologue by lia. f_equal. apply lookup_app_Some in Hj as [Hj|[Hge Hj]]; [by apply Hfix|].
    apply list_lookup_fmap_Some in Hj as (x & -> & Hj). rewrite <- (Hargs _ _ Hj). f_equal. lia.
  - intros ret env' mem' Hs Hr1 Hr2 Hm' Hpc' Hc'. rewrite pc_prologue in Hpc'.
    apply code_at_app in Hc' as [_ [_ [Hfr _]%code_at_cons]%code_at_cons].
    destruct (call_returns ret (prologue e1) mem env' mem' wr o) as (e2 & Hst & Hef & Hv); try done.
    + by rewrite reg_prologue, Hnum by done.
    + rewrite Hpc', Hp. done.
    + lia.
    + exists e2. split; [etransitivity; [exact Hstep|exact Hst]|]. split; [exact Hv|]. rewrite Hpc', Hp in Hef.
      assert (E : REG_PC env + 4 * Z.of_nat (length pre + 2) = REG_PC env + 4 * Z.of_nat (length pre) + 8) by lia.
      rewrite E. exact Hef.
Qed.
End Calls.
(** ** setjmp and longjmp *)
Section Octas.
Context {M : Type} (B : backend M) (writable : Z -> Prop) (O : octa_mem B writable) (A : octa_apart B).
Abbreviation octa_at a m := (b_ld B MO_TEUQ a m).

(** Octas stored inside [lo, hi). *)
Definition store_in (lo hi : Z) (m m' : M) : Prop :=
  exists a v, 0 <= lo <= a /\ a + 8 <= hi <= 2^64 /\ b_st B MO_TEUQ a v m = Some m'.
Definition stored (lo hi : Z) : relation M := rtc (store_in lo hi).
Lemma stored_same lo hi m m' a : stored lo hi m m' -> 0 <= a -> a + 8 <= 2^64 -> a + 8 <= lo \/ hi <= a ->
  octa_at a m' = octa_at a m.
Proof.
  intros Hs Ha1 Ha2 Ha3. induction Hs as [|m m1 m2 (b & v & H1 & H2 & Hst) _ IH]; [done|].
  rewrite IH. eapply A; [| | | | |exact Hst]; lia.
Qed.
Lemma stored_wider lo hi lo' hi' m m' : stored lo hi m m' -> 0 <= lo' <= lo -> hi <= hi' <= 2^64 -> stored lo' hi' m m'.
Proof.
  intros Hs H1 H2. eapply rtc_subrel; [|exact Hs]. intros x y (a & v & H3 & H4 & Hst).
  exists a, v. split; [lia|]. split; [lia|done].
Qed.

Definition octas_free (addr : Z) (n : nat) : Prop :=
  0 <= addr /\ addr + 8 * Z.of_nat n <= 2^64 /\ forall k, (k < n)%nat -> writable (addr + 8 * Z.of_nat k).
Lemma octas_free_tail addr n : octas_free addr (S n) -> octas_free (addr + 8) n.
Proof.
  intros (H1 & H2 & H3). split; [lia|]. split; [lia|]. intros k Hk.
  replace (addr + 8 + 8 * Z.of_nat k) with (addr + 8 * Z.of_nat (S k)) by lia. apply H3. lia.
Qed.
Lemma store_regs_spec f n : forall i addr env mem, u64_env env -> octas_free addr n -> exists mem',
  store_regs B f MO_TEUQ n i addr env mem = RFall env mem' /\
  (forall k, (k < n)%nat -> octa_at (addr + 8 * Z.of_nat k) mem' = Some (reg f (i + Z.of_nat k) env)) /\
  stored addr (addr + 8 * Z.of_nat n) mem mem'.
Proof.
  induction n as [|n IH]; intros i addr env mem Hu Hfree.
  { exists mem. split; [done|]. split; [lia|]. apply rtc_refl. }
  destruct Hfree as (H1 & H2 & Hw) eqn:E. clear E.
  assert (Hw0 : writable addr) by (specialize (Hw 0%nat ltac:(lia)); by rewrite Z.mul_0_r, Z.add_0_r in Hw).
  destruct (om_store _ _ O addr (reg f i env) mem Hw0) as [m1 Hm1].
  pose proof (om_same _ _ O _ _ _ _ Hw0 (Hu f i) Hm1) as Hl. cbn [store_regs]. rewrite Hm1.
  change (2 ^ mo_size MO_TEUQ) with 8.
  assert (Hin : store_in addr (addr + 8 * Z.of_nat (S n)) mem m1) by (exists addr, (reg f i env); split; [lia|split; [lia|done]]).
  destruct n as [|n].
  { exists m1. split; [done|]. split; [|by apply rtc_once]. intros [|k] Hk; [|lia]. by rewrite Z.mul_0_r, !Z.add_0_r. }
  rewrite w64_id by lia. destruct (IH (i + 1) (addr + 8) env m1 Hu) as (m2 & Hs & Hld & Hst).
  { apply octas_free_tail. by split. }
  exists m2. split; [done|]. split.
  - intros [|k] Hk.
    + rewrite Z.mul_0_r, !Z.add_0_r. rewrite <- Hl. by eapply stored_same; [exact Hst|lia..].
    + rewrite Nat2Z.inj_succ. replace (addr + 8 * Z.succ (Z.of_nat k)) with (addr + 8 + 8 * Z.of_nat k) by lia.
      rewrite Hld by lia. do 2 f_equal. lia.
  - eapply rtc_l; [exact Hin|]. eapply stored_wider; [exact Hst|lia|lia].
Qed.
Lemma load_regs_spec f n : forall i addr env mem (v : nat -> Z),
  wf_env env -> 0 < i -> i + Z.of_nat n <= 64 -> 0 <= addr -> addr + 8 * Z.of_nat n <= 2^64 ->
  (forall k, (k < n)%nat -> octa_at (addr + 8 * Z.of_nat k) mem = Some (v k)) ->
  exists env', load_regs B f MO_TEUQ n i addr env mem = RFall env' mem /\ wf_env env' /\
    (forall k, (k < n)%nat -> reg f (i + Z.of_nat k) env' = v k) /\
    forall g j, g <> f \/ j < i \/ i + Z.of_nat n <= j -> reg g j env' = reg g j env.
Proof.
  induction n as [|n IH]; intros i addr env mem v Hwf Hi Hn Ha Hb Hld.
  { exists env. split; [done|]. split; [done|]. split; [lia|done]. }
  pose proof (Hld 0%nat ltac:(lia)) as H0. rewrite Z.mul_0_r, Z.add_0_r in H0. cbn [load_regs]. rewrite H0.
  change (2 ^ mo_size MO_TEUQ) with 8. unfold load_reg. rewrite (proj2 (Z.eqb_neq i 0)) by lia. cbn [negb orb].
  assert (Hn0 : forall k, (k < n)%nat -> octa_at (w64 (addr + 8) + 8 * Z.of_nat k) mem = Some (v (S k))).
  { intros k Hk. rewrite w64_id by lia. replace (addr + 8 + 8 * Z.of_nat k) with (addr + 8 * Z.of_nat (S k)) by lia. apply Hld. lia. }
  destruct (IH (i + 1) (w64 (addr + 8)) (set_reg f i (v 0%nat) env) mem (fun k => v (S k)))
    as (e1 & Hs & Hw1 & Hv & Hk); [eauto with cpu|lia|lia|apply w64_range| |done|].
  { destruct n; [pose proof (w64_range (addr + 8)); lia|rewrite w64_id by lia; lia]. }
  exists e1. split; [done|]. split; [done|]. split.
  - intros [|k] Hk1.
    + rewrite Z.add_0_r, Hk by (right; lia). apply reg_set_reg_eq; [done|lia].
    + rewrite <- (Hv k) by lia. f_equal. lia.
  - intros g j Hj. rewrite Hk by (destruct Hj; [by left|right; lia]). apply reg_set_reg_ne.
    destruct Hj as [?|?]; [left; congruence|right; lia].
Qed.
End Octas.

Definition regs_of (f : regfile) (i : Z) (n : nat) : list (regfile * Z) := map (fun k => (f, i + Z.of_nat k)) (seq 0 n).
Lemma in_regs_of f i n g j : (g, j) ∈ regs_of f i n <-> g = f /\ i <= j < i + Z.of_nat n.
Proof.
  unfold regs_of. rewrite list_elem_of_fmap. setoid_rewrite elem_of_seq. split.
  - intros (k & [= -> ->] & Hk). split; [done|lia].
  - intros [-> Hj]. exists (Z.to_nat (j - i)). split; [f_equal; lia|lia].
Qed.

Section Jump.
Context {M : Type} (B : backend M) (L : tcg_laws B).
Variable helper : string -> CPUDADAOState -> list Z -> Z * CPUDADAOState.
Hypothesis V : values_64 B helper.
Variable disas : Z -> gen bool.
Hypothesis Hdisas : decodetree_laws disas.
Variable goto_tb : Z -> bool.
Variable H : host M.
Variable fetch : M -> Z -> option Z.
Context (writable : Z -> Prop) (O : octa_mem B writable) (A : octa_apart B).
Abbreviation emulates := (emu_steps H B helper disas goto_tb fetch).
Abbreviation reaches_ := (reaches B helper disas goto_tb H fetch).
Abbreviation octa_at a m := (b_ld B MO_TEUQ a m).

Lemma reaches_weaken env mem pc o o' env1 mem1 : reaches_ env mem pc o env1 mem1 -> o ⊆ o' -> reaches_ env mem pc o' env1 mem1.
Proof. intros [H1 H2 H3] Ho. split; [done|by eapply effect_weaken|done]. Qed.

(** *** Lines that save and restore *)
Lemma reach_save sp f i n addr w a env mem :
  step_implements B helper disas sp -> insn_of w = Some (sp_name sp, a) -> fetch mem (REG_PC env) = Some w ->
  machine_ok env -> REG_PC env + 4 < 2^64 -> sp_pre sp (REG_PC env) a (prologue env) ->
  sp_sem sp (REG_PC env) a (prologue env) mem
    = next_insn (REG_PC env) (store_regs B f MO_TEUQ n i addr (prologue env) mem) ->
  octas_free writable addr n -> 0 < i ->
  exists env1 mem1, reaches_ env mem (REG_PC env + 4) [] env1 mem1 /\
    (forall k, (k < n)%nat -> octa_at (addr + 8 * Z.of_nat k) mem1 = Some (reg f (i + Z.of_nat k) env)) /\
    stored B addr (addr + 8 * Z.of_nat n) mem mem1.
Proof.
  intros Hi Hw Hf Hm Hpc Hpre Hsem Hfree Hi0.
  destruct (store_regs_spec B writable O A f n i addr (prologue env) mem) as (m1 & Hs & Hl & Hst); [|done|].
  { apply u64_prologue; apply Hm. }
  rewrite Hs in Hsem. do 2 eexists. split; [|split; [|exact Hst]].
  - eapply (reach_next B helper V disas goto_tb H fetch sp w a env mem _ m1 [] Hi Hw Hf Hm Hpc Hpre Hsem); [|done].
    apply wf_prologue, Hm.
  - intros k Hk. rewrite Hl by done. f_equal. apply reg_prologue. lia.
Qed.
Lemma reach_restore sp f i n addr w a env mem (v : nat -> Z) :
  step_implements B helper disas sp -> insn_of w = Some (sp_name sp, a) -> fetch mem (REG_PC env) = Some w ->
  machine_ok env -> REG_PC env + 4 < 2^64 -> sp_pre sp (REG_PC env) a (prologue env) ->
  sp_sem sp (REG_PC env) a (prologue env) mem
    = next_insn (REG_PC env) (load_regs B f MO_TEUQ n i addr (prologue env) mem) ->
  0 < i -> i + Z.of_nat n <= 64 -> 0 <= addr -> addr + 8 * Z.of_nat n <= 2^64 ->
  (forall k, (k < n)%nat -> octa_at (addr + 8 * Z.of_nat k) mem = Some (v k)) ->
  exists env1, reaches_ env mem (REG_PC env + 4) (regs_of f i n) env1 mem /\
    forall k, (k < n)%nat -> reg f (i + Z.of_nat k) env1 = v k.
Proof.
  intros Hi Hw Hf Hm Hpc Hpre Hsem Hi0 Hn Ha Hb Hl.
  destruct (load_regs_spec B f n i addr (prologue env) mem v) as (e1 & Hs & Hwf & Hv & Hk); try done.
  { apply wf_prologue, Hm. }
  rewrite Hs in Hsem. eexists. split.
  - eapply (reach_next B helper V disas goto_tb H fetch sp w a env mem e1 mem (regs_of f i n) Hi Hw Hf Hm Hpc Hpre Hsem Hwf).
    intros g j Hj. apply Hk. apply not_elem_of_app in Hj as [_ Hj]. rewrite in_regs_of in Hj.
    destruct (decide (g = f)) as [->|]; [right|by left]. assert (~ (i <= j < i + Z.of_nat n)) by tauto. lia.
  - intros k Hk1. unfold set_PC. rewrite reg_set_reg_ne by (right; lia). by apply Hv.
Qed.

Definition many_store : list (regfile * string) := [(RD, "STMOrd"); (RB, "STMOrb"); (RF, "STMOrf"); (RA, "STMOra")].
Definition many_load : list (regfile * string) := [(RD, "LDMOrd"); (RB, "LDMOrb"); (RF, "LDMOrf"); (RA, "LDMOra")].
Ltac in_isa := repeat first [left | right].
Lemma memory_implements sp : sp ∈ isa_memory B -> step_implements B helper disas sp.
Proof. pose proof (memory_implemented B L helper disas Hdisas) as Ha. rewrite Forall_forall in Ha. apply Ha. Qed.
Lemma many_store_implements f nm : (f, nm) ∈ many_store -> step_implements B helper disas (sp_stm B nm f MO_TEUQ).
Proof.
  intros Hn. apply memory_implements. unfold many_store in Hn. rewrite !elem_of_cons, elem_of_nil in Hn.
  destruct Hn as [[= -> ->]|[[= -> ->]|[[= -> ->]|[[= -> ->]|[]]]]]; unfold isa_memory; in_isa.
Qed.
Lemma many_load_implements f nm : (f, nm) ∈ many_load -> step_implements B helper disas (sp_ldm B nm f MO_TEUQ).
Proof.
  intros Hn. apply memory_implements. unfold many_load in Hn. rewrite !elem_of_cons, elem_of_nil in Hn.
  destruct Hn as [[= -> ->]|[[= -> ->]|[[= -> ->]|[[= -> ->]|[]]]]]; unfold isa_memory; in_isa.
Qed.

(** Several registers at rb8 + rd16, or one of rb at a distance from rb8. *)
Definition many (i n : Z) : args := Args i 8 16 0 0 n 0 0 0 0 0 0.
Definition single (i off : Z) : args := Args i 8 0 0 0 0 0 0 0 off 0 0.
Lemma many_address env i n buf off : reg RB 8 env = buf -> reg RD 16 env = off -> 0 <= buf + off < 2^64 ->
  multi_addr (many i n) (prologue env) = buf + off.
Proof. intros Hb Ho Hr. unfold multi_addr. cbn [hb hc many]. rewrite !reg_prologue, Hb, Ho by done. by apply w64_id. Qed.
Lemma save_many f nm i n buf off w env mem :
  (f, nm) ∈ many_store -> insn_of w = Some (nm, many i (Z.of_nat n)) -> fetch mem (REG_PC env) = Some w ->
  machine_ok env -> REG_PC env + 4 < 2^64 -> 0 < i -> (1 <= n)%nat -> i + Z.of_nat n <= 64 ->
  reg RB 8 env = buf -> reg RD 16 env = off -> octas_free writable (buf + off) n ->
  exists env1 mem1, reaches_ env mem (REG_PC env + 4) [] env1 mem1 /\
    (forall k, (k < n)%nat -> octa_at (buf + off + 8 * Z.of_nat k) mem1 = Some (reg f (i + Z.of_nat k) env)) /\
    stored B (buf + off) (buf + off + 8 * Z.of_nat n) mem mem1.
Proof.
  intros Hn Hw Hf Hm Hpc Hi Hn1 Hin Hb Ho Hfree.
  eapply (reach_save (sp_stm B nm f MO_TEUQ)); try done; [by apply many_store_implements|cbn; unfold one_range, range_ok; cbn; lia|].
  cbn [sp_sem sp_stm]. rewrite (many_address env i _ buf off) by (done || (destruct Hfree; lia)).
  cbn [ha immu6 many]. by rewrite Nat2Z.id.
Qed.
Lemma restore_many f nm i n buf off w env mem v :
  (f, nm) ∈ many_load -> insn_of w = Some (nm, many i (Z.of_nat n)) -> fetch mem (REG_PC env) = Some w ->
  machine_ok env -> REG_PC env + 4 < 2^64 -> 0 < i -> (1 <= n)%nat -> i + Z.of_nat n <= 64 ->
  reg RB 8 env = buf -> reg RD 16 env = off -> 0 <= buf + off -> buf + off + 8 * Z.of_nat n <= 2^64 ->
  (forall k, (k < n)%nat -> octa_at (buf + off + 8 * Z.of_nat k) mem = Some (v k)) ->
  exists env1, reaches_ env mem (REG_PC env + 4) (regs_of f i n) env1 mem /\
    forall k, (k < n)%nat -> reg f (i + Z.of_nat k) env1 = v k.
Proof.
  intros Hn Hw Hf Hm Hpc Hi Hn1 Hin Hb Ho H0 H1 Hl.
  apply (reach_restore (sp_ldm B nm f MO_TEUQ) f i n (buf + off) w (many i (Z.of_nat n)) env mem v); try done; [by apply many_load_implements|cbn; unfold one_range, range_ok; cbn; lia|].
  cbn [sp_sem sp_ldm]. rewrite (many_address env i _ buf off) by (done || lia).
  cbn [ha immu6 many]. by rewrite Nat2Z.id.
Qed.
Lemma single_address env i buf off : reg RB 8 env = buf -> 0 <= buf + off < 2^64 ->
  w64 (reg RB (hb (single i off)) (prologue env) + imms12 (single i off)) = buf + off.
Proof. intros Hb Hr. cbn [hb imms12 single]. rewrite reg_prologue, Hb by done. by apply w64_id. Qed.
Lemma save_one i buf off w env mem :
  insn_of w = Some ("STOrb", single i off) -> fetch mem (REG_PC env) = Some w ->
  machine_ok env -> REG_PC env + 4 < 2^64 -> 0 < i -> reg RB 8 env = buf -> octas_free writable (buf + off) 1 ->
  exists env1 mem1, reaches_ env mem (REG_PC env + 4) [] env1 mem1 /\
    (forall k, (k < 1)%nat -> octa_at (buf + off + 8 * Z.of_nat k) mem1 = Some (reg RB (i + Z.of_nat k) env)) /\
    stored B (buf + off) (buf + off + 8 * Z.of_nat 1) mem mem1.
Proof.
  intros Hw Hf Hm Hpc Hi Hb Hfree.
  eapply (reach_save (sp_st B "STOrb" RB MO_TEUQ)); try done; [apply memory_implements; unfold isa_memory; in_isa|].
  cbn [sp_sem sp_st]. unfold spec_st. rewrite (single_address env i buf off) by (done || (destruct Hfree; lia)).
  cbn [ha single store_regs]. by destruct (b_st _ _ _ _ _).
Qed.
Lemma restore_one i buf off w env mem v :
  insn_of w = Some ("LDOrb", single i off) -> fetch mem (REG_PC env) = Some w ->
  machine_ok env -> REG_PC env + 4 < 2^64 -> 0 < i < 64 -> reg RB 8 env = buf ->
  0 <= buf + off -> buf + off + 8 * Z.of_nat 1 <= 2^64 ->
  (forall k, (k < 1)%nat -> octa_at (buf + off + 8 * Z.of_nat k) mem = Some (v k)) ->
  exists env1, reaches_ env mem (REG_PC env + 4) (regs_of RB i 1) env1 mem /\
    forall k, (k < 1)%nat -> reg RB (i + Z.of_nat k) env1 = v k.
Proof.
  intros Hw Hf Hm Hpc Hi Hb H0 H1 Hl.
  apply (reach_restore (sp_ld B "LDOrb" RB MO_TEUQ) RB i 1 (buf + off) w (single i off) env mem v); try done;
    [apply memory_implements; unfold isa_memory; in_isa| |lia..].
  cbn [sp_sem sp_ld]. unfold spec_ld. rewrite (single_address env i buf off) by (done || lia).
  cbn [ha single load_regs]. unfold load_reg. rewrite (proj2 (Z.eqb_neq i 0)) by lia. cbn [negb orb].
  by destruct (b_ld _ _ _ _).
Qed.

(** The return at the end of both. *)
Lemma reach_ret d v w k env mem ra stk :
  insn_of w = Some ("RET", Args d 0 0 0 0 0 0 0 0 0 v 0) -> fetch mem (REG_PC env) = Some w ->
  machine_ok env -> 0 <= d < 64 -> holds B k env mem (ra :: stk) -> reg RA 0 env + 8 < 2^64 ->
  exists env1 k1, emulates (Running env mem) (Running env1 mem) /\ machine_ok env1 /\ REG_PC env1 = ra /\
    holds B k1 env1 mem stk /\ (d <> 0 -> reg RD d env1 = w64 v) /\
    forall g j, g <> RA -> (g, j) ∉ (always_set ++ [(RD, d)])%list -> reg g j env1 = reg g j env.
Proof.
  intros Hw Hf Hm Hd Hh Htop. pose proof (wf_prologue _ (ok_wf _ Hm)) as Hwf.
  unfold insn_of in Hw. destruct (decode w) as [p|] eqn:Ed; [|done]. injection Hw as Hn Hpa.
  destruct (ret_pops B L helper disas Hdisas goto_tb k (REG_PC env) w p env mem ra stk)
    as (e1 & k1 & Hs & Hh1 & Hp & Hk); try done; [apply (ok_u64 _ Hm)|apply (ok_u64 _ Hm)|].
  rewrite Hpa in Hk. cbn [ha imms18] in Hk.
  exists e1, k1. split; [apply rtc_once; by eapply ES_exit|]. split; [by apply (step_ok B helper V) in Hs|].
  split; [done|]. split; [done|].
  split.
  - intros Hd0. rewrite Hk by done. unfold write. rewrite (proj2 (Z.eqb_neq _ _) Hd0). apply reg_set_reg_eq; [done|lia].
  - intros g j Hg Hgj. apply not_elem_of_app in Hgj as [Ha Hgd]. rewrite Hk; [|done|].
    + unfold write. rewrite <- (reg_prologue_any g j env Ha). case_match; [done|]. apply reg_set_reg_ne.
      destruct (decide (g = RD)) as [->|]; [right|left; congruence]. intros ->. apply Hgd. left.
    + intros [= -> ->]. apply Ha. unfold always_set. in_isa.
Qed.

Lemma reach_addi imm w env mem off :
  insn_of w = Some ("ADDIrd", Args 16 16 0 0 0 0 0 0 0 imm 0 0) -> fetch mem (REG_PC env) = Some w ->
  machine_ok env -> REG_PC env + 4 < 2^64 -> reg RD 16 env = off -> 0 <= off + imm < 2^64 ->
  exists env1, reaches_ env mem (REG_PC env + 4) [(RD, 16)] env1 mem /\ reg RD 16 env1 = off + imm.
Proof.
  intros Hw Hf Hm Hpc Ho Hr.
  apply (reach_write B L helper V disas Hdisas goto_tb H fetch "ADDIrd" _ w _ RD 16 (off + imm) env mem eq_refl Hw Hf Hm Hpc);
    [done| |lia]. cbn [isa_spec]. unfold spec_rrii, write. cbn [ha hb imms12 Z.eqb]. rewrite reg_prologue, Ho by done.
  by rewrite w64_id.
Qed.
(** The first two lines: the buffer to rb8, zero to rd16. *)
Lemma reach_start w0 w1 env mem :
  insn_of w0 = Some ("RD2RB", Args 0 8 16 0 0 1 0 0 0 0 0 0) ->
  insn_of w1 = Some ("SETZWrd", Args 16 0 0 0 0 0 0 0 0 0 0 0) ->
  fetch mem (REG_PC env) = Some w0 -> fetch mem (REG_PC env + 4) = Some w1 ->
  machine_ok env -> REG_PC env + 8 < 2^64 ->
  exists env1, reaches_ env mem (REG_PC env + 4 * Z.of_nat 2) [(RB, 8); (RD, 16)] env1 mem /\
    reg RB 8 env1 = reg RD 16 env /\ reg RD 16 env1 = 0.
Proof.
  intros Hw0 Hw1 Hf0 Hf1 Hm Hpc.
  destruct (reach_copy B L helper V disas Hdisas goto_tb H fetch RB "RD2RB" w0 8 16 env mem) as (e1 & R1 & Hv1);
    try done; [right; left|lia|].
  assert (Hp1 : REG_PC e1 = REG_PC env + 4) by apply R1.
  destruct (reach_write B L helper V disas Hdisas goto_tb H fetch "SETZWrd" _ w1 _ RD 16 0 e1 mem eq_refl Hw1)
    as (e2 & R2 & Hv2); [by rewrite Hp1|apply R1|rewrite Hp1; lia|done|done|lia|].
  rewrite Hp1 in R2. exists e2. replace (REG_PC env + 4 * Z.of_nat 2) with (REG_PC env + 4 + 4) by lia.
  split; [exact (reaches_trans _ _ _ _ _ _ _ _ _ _ _ _ _ _ _ _ R1 R2)|]. split; [|done].
  rewrite (ef_reg _ _ _ _ (rc_effect _ _ _ _ _ _ _ _ _ _ _ _ R2)); [done|]. unfold always_set. set_solver.
Qed.

(** *** setjmp line by line *)
Definition field_regs (x : regfile * Z * nat * Z) : list (regfile * Z) := let '(f, r, n, o) := x in regs_of f r n.
Definition field_below (top : Z) (x : regfile * Z * nat * Z) : Prop :=
  let '(f, r, n, o) := x in 0 <= o /\ o + 8 * Z.of_nat n <= top.
(** Memory holds the registers [v] in the fields of a jmp_buf. *)
Definition octas_hold (buf : Z) (flds : list (regfile * Z * nat * Z)) (v : regfile -> Z -> Z) (mem : M) : Prop :=
  forall f r n o k, (f, r, n, o) ∈ flds -> (k < n)%nat ->
    octa_at (buf + o + 8 * Z.of_nat k) mem = Some (v f (r + Z.of_nat k)).
Definition pointers : list (regfile * Z) := [(RB, 8); (RD, 16)].

Section Save.
Variables (base buf : Z) (ws : list Z) (env0 : CPUDADAOState) (mem0 : M).
Hypothesis Hfree : forall o n, 0 <= o -> o mod 8 = 0 -> o + 8 * Z.of_nat n <= jmp_buf_size -> octas_free writable (buf + o) n.
Hypothesis Hcode : forall m, stored B buf (buf + jmp_buf_size) mem0 m -> code_at fetch base ws m.
Hypothesis Hend : base + 4 * Z.of_nat (length ws) < 2^64.
Record saving (flds : list (regfile * Z * nat * Z)) (off : Z) (i : nat) (env : CPUDADAOState) (mem : M) : Prop := Saving {
  sv_reach : reaches_ env0 mem0 (base + 4 * Z.of_nat i) pointers env mem;
  sv_buf : reg RB 8 env = buf;
  sv_off : reg RD 16 env = off;
  sv_mem : stored B buf (buf + jmp_buf_size) mem0 mem;
  sv_saved : octas_hold buf flds (fun f j => reg f j env0) mem }.
Lemma saving_line flds off i env mem w : saving flds off i env mem -> ws !! i = Some w ->
  REG_PC env = base + 4 * Z.of_nat i /\ fetch mem (REG_PC env) = Some w /\ machine_ok env /\ REG_PC env + 4 < 2^64.
Proof.
  intros [R _ _ Hm _] Hi. assert (Hp : REG_PC env = base + 4 * Z.of_nat i) by apply R.
  rewrite Hp. split; [done|]. split; [by apply (Hcode mem Hm)|]. split; [apply R|].
  apply lookup_lt_Some in Hi. lia.
Qed.
Lemma saving_more flds off i env mem f r n o env1 mem1 :
  saving flds off i env mem -> reaches_ env mem (REG_PC env + 4) [] env1 mem1 ->
  (forall k, (k < n)%nat -> octa_at (buf + o + 8 * Z.of_nat k) mem1 = Some (reg f (r + Z.of_nat k) env)) ->
  stored B (buf + o) (buf + o + 8 * Z.of_nat n) mem mem1 ->
  0 <= o -> o + 8 * Z.of_nat n <= jmp_buf_size -> Forall (field_below o) flds ->
  Forall (fun x => x ∉ (always_set ++ pointers)%list) (regs_of f r n) ->
  saving (flds ++ [(f, r, n, o)]) off (S i) env1 mem1.
Proof.
  intros [R Hb Ho Hm Hs] R1 Hl Hst H0 H1 Hbelow Hregs.
  destruct (Hfree 0 162 ltac:(done) ltac:(done) ltac:(done)) as (Hz1 & Hz2 & _). change jmp_buf_size with 1296 in *.
  assert (Hp : REG_PC env = base + 4 * Z.of_nat i) by apply R. rewrite Hp in R1.
  assert (Hk : forall g j, (g, j) ∈ pointers -> reg g j env1 = reg g j env).
  { intros g j Hj. apply (ef_reg _ _ _ _ (rc_effect _ _ _ _ _ _ _ _ _ _ _ _ R1)). rewrite app_nil_r.
    unfold pointers in Hj. rewrite !elem_of_cons, elem_of_nil in Hj. unfold always_set.
    destruct Hj as [[= -> ->]|[[= -> ->]|[]]]; apply (bool_decide_unpack _); done. }
  split.
  - replace (base + 4 * Z.of_nat (S i)) with (base + 4 * Z.of_nat i + 4) by lia.
    rewrite <- (app_nil_r pointers). exact (reaches_trans _ _ _ _ _ _ _ _ _ _ _ _ _ _ _ _ R R1).
  - rewrite Hk; [done|left].
  - rewrite Hk; [done|right; left].
  - etransitivity; [exact Hm|]. eapply stored_wider; [exact Hst|unfold jmp_buf_size; lia..].
  - intros f' r' n' o' k [Hin|Hin]%elem_of_app Hk'.
    + rewrite <- (Hs _ _ _ _ _ Hin Hk'). rewrite Forall_forall in Hbelow. specialize (Hbelow _ Hin). cbn in Hbelow.
      eapply stored_same; [exact A|exact Hst|lia..].
    + apply list_elem_of_singleton in Hin as [= -> -> -> ->]. rewrite Hl by done. f_equal.
      apply (ef_reg _ _ _ _ (rc_effect _ _ _ _ _ _ _ _ _ _ _ _ R)). rewrite Forall_forall in Hregs. apply Hregs.
      apply in_regs_of. split; [done|lia].
Qed.
Lemma line_save_many flds off i env mem w f nm r n :
  saving flds off i env mem -> ws !! i = Some w -> insn_of w = Some (nm, many r (Z.of_nat n)) -> (f, nm) ∈ many_store ->
  0 < r /\ (1 <= n)%nat /\ r + Z.of_nat n <= 64 ->
  0 <= off /\ off mod 8 = 0 /\ off + 8 * Z.of_nat n <= jmp_buf_size -> Forall (field_below off) flds ->
  Forall (fun x => x ∉ (always_set ++ pointers)%list) (regs_of f r n) ->
  exists env1 mem1, saving (flds ++ [(f, r, n, off)]) off (S i) env1 mem1.
Proof.
  intros Hs Hi Hw Hn (H1 & H2 & H3) (H4 & H5 & H6) Hb Hr. destruct (saving_line _ _ _ _ _ _ Hs Hi) as (Hp & Hf & Hm & Hpc).
  destruct (save_many f nm r n buf off w env mem) as (e1 & m1 & R1 & Hl & Hst); try done; [apply Hs..|by apply Hfree|].
  exists e1, m1. by eapply saving_more.
Qed.
Lemma line_save_one flds off i env mem w r o :
  saving flds off i env mem -> ws !! i = Some w -> insn_of w = Some ("STOrb", single r o) -> 0 < r ->
  0 <= o /\ o mod 8 = 0 /\ o + 8 <= jmp_buf_size -> Forall (field_below o) flds ->
  Forall (fun x => x ∉ (always_set ++ pointers)%list) (regs_of RB r 1) ->
  exists env1 mem1, saving (flds ++ [(RB, r, 1%nat, o)]) off (S i) env1 mem1.
Proof.
  intros Hs Hi Hw Hr0 (H4 & H5 & H6) Hb Hr. destruct (saving_line _ _ _ _ _ _ Hs Hi) as (Hp & Hf & Hm & Hpc).
  destruct (save_one r buf o w env mem) as (e1 & m1 & R1 & Hl & Hst); try done; [apply Hs|by apply Hfree|].
  exists e1, m1. by eapply saving_more.
Qed.
Lemma line_save_addi flds off i env mem w imm :
  saving flds off i env mem -> ws !! i = Some w -> insn_of w = Some ("ADDIrd", Args 16 16 0 0 0 0 0 0 0 imm 0 0) ->
  0 <= off + imm < 2^64 -> exists env1, saving flds (off + imm) (S i) env1 mem.
Proof.
  intros Hs Hi Hw Hr. destruct (saving_line _ _ _ _ _ _ Hs Hi) as (Hp & Hf & Hm & Hpc).
  destruct (reach_addi imm w env mem off) as (e1 & R1 & Hv); try done; [apply Hs|].
  destruct Hs as [R Hb Ho Hst Hsv]. exists e1. rewrite Hp in R1. split; try done.
  - replace (base + 4 * Z.of_nat (S i)) with (base + 4 * Z.of_nat i + 4) by lia.
    eapply reaches_weaken; [exact (reaches_trans _ _ _ _ _ _ _ _ _ _ _ _ _ _ _ _ R R1)|].
    intros x Hx. apply elem_of_app in Hx as [Hx|Hx]; [done|]. apply list_elem_of_singleton in Hx as ->. right; left.
  - rewrite (ef_reg _ _ _ _ (rc_effect _ _ _ _ _ _ _ _ _ _ _ _ R1)); [done|]. unfold always_set.
    apply (bool_decide_unpack _). done.
Qed.
End Save.

Lemma in_field_regs flds f r n o k : (f, r, n, o) ∈ flds -> (k < n)%nat ->
  (f, r + Z.of_nat k) ∈ concat (map field_regs flds).
Proof.
  intros Hin Hk. induction flds as [|x flds IH]; [by apply elem_of_nil in Hin|]. cbn [map concat]. apply elem_of_app.
  apply elem_of_cons in Hin as [<-|Hin]; [left|right; auto]. apply in_regs_of. split; [done|lia].
Qed.
Definition field_regs_apart (f : regfile) (r : Z) (n : nat) (done : list (regfile * Z)) : Prop :=
  Forall (fun x => x ∉ done) (regs_of f r n).

(** *** longjmp line by line *)
Section Load.
Variables (base buf : Z) (ws : list Z) (env0 : CPUDADAOState) (mem : M) (v : regfile -> Z -> Z).
Hypothesis Hbuf : 0 <= buf /\ buf + jmp_buf_size <= 2^64.
Hypothesis Hsaved : octas_hold buf jmp_buf_fields v mem.
Hypothesis Hcode : code_at fetch base ws mem.
Hypothesis Hend : base + 4 * Z.of_nat (length ws) < 2^64.
Record loading (flds : list (regfile * Z * nat * Z)) (off : Z) (i : nat) (env : CPUDADAOState) : Prop := Loading {
  lg_reach : reaches_ env0 mem (base + 4 * Z.of_nat i) (pointers ++ concat (map field_regs flds)) env mem;
  lg_buf : reg RB 8 env = buf;
  lg_off : reg RD 16 env = off;
  lg_regs : forall f r n o k, (f, r, n, o) ∈ flds -> (k < n)%nat -> reg f (r + Z.of_nat k) env = v f (r + Z.of_nat k) }.
Lemma loading_line flds off i env w : loading flds off i env -> ws !! i = Some w ->
  REG_PC env = base + 4 * Z.of_nat i /\ fetch mem (REG_PC env) = Some w /\ machine_ok env /\ REG_PC env + 4 < 2^64.
Proof.
  intros [R _ _ _] Hi. assert (Hp : REG_PC env = base + 4 * Z.of_nat i) by apply R.
  rewrite Hp. split; [done|]. split; [by apply Hcode|]. split; [apply R|]. apply lookup_lt_Some in Hi. lia.
Qed.
Lemma loading_more flds off i env f r n o env1 :
  loading flds off i env -> reaches_ env mem (REG_PC env + 4) (regs_of f r n) env1 mem ->
  (forall k, (k < n)%nat -> reg f (r + Z.of_nat k) env1 = v f (r + Z.of_nat k)) ->
  field_regs_apart f r n (always_set ++ pointers ++ concat (map field_regs flds))%list ->
  Forall (fun x => x ∉ always_set) (pointers ++ concat (map field_regs flds))%list ->
  loading (flds ++ [(f, r, n, o)]) off (S i) env1.
Proof.
  intros [R Hb Ho Hv] R1 Hl Hap Hst. assert (Hp : REG_PC env = base + 4 * Z.of_nat i) by apply R. rewrite Hp in R1.
  assert (Hk : forall g j, (g, j) ∈ (pointers ++ concat (map field_regs flds))%list -> reg g j env1 = reg g j env).
  { intros g j Hj. apply (ef_reg _ _ _ _ (rc_effect _ _ _ _ _ _ _ _ _ _ _ _ R1)). intros [Ha|Ha]%elem_of_app.
    - rewrite Forall_forall in Hst. by apply (Hst (g, j)).
    - unfold field_regs_apart in Hap. rewrite Forall_forall in Hap. apply (Hap _ Ha). apply elem_of_app. by right. }
  split.
  - replace (base + 4 * Z.of_nat (S i)) with (base + 4 * Z.of_nat i + 4) by lia.
    rewrite map_app, concat_app. cbn [map concat field_regs]. rewrite app_nil_r, app_assoc.
    exact (reaches_trans _ _ _ _ _ _ _ _ _ _ _ _ _ _ _ _ R R1).
  - rewrite Hk; [done|]. left.
  - rewrite Hk; [done|]. right; left.
  - intros f' r' n' o' k [Hin|Hin]%elem_of_app Hk'.
    + rewrite Hk; [by eapply Hv|]. apply elem_of_app. right. by eapply in_field_regs.
    + apply list_elem_of_singleton in Hin as [= -> -> -> ->]. by apply Hl.
Qed.
Lemma line_load_many flds off i env w f nm r n :
  loading flds off i env -> ws !! i = Some w -> insn_of w = Some (nm, many r (Z.of_nat n)) -> (f, nm) ∈ many_load ->
  0 < r /\ (1 <= n)%nat /\ r + Z.of_nat n <= 64 -> 0 <= off /\ off + 8 * Z.of_nat n <= jmp_buf_size ->
  (f, r, n, off) ∈ jmp_buf_fields ->
  field_regs_apart f r n (always_set ++ pointers ++ concat (map field_regs flds))%list ->
  Forall (fun x => x ∉ always_set) (pointers ++ concat (map field_regs flds))%list ->
  exists env1, loading (flds ++ [(f, r, n, off)]) off (S i) env1.
Proof.
  intros Hs Hi Hw Hn (H1 & H2 & H3) (H4 & H5) Hin Hb Hr. destruct (loading_line _ _ _ _ _ Hs Hi) as (Hp & Hf & Hm & Hpc).
  destruct (restore_many f nm r n buf off w env mem (fun k => v f (r + Z.of_nat k))) as (e1 & R1 & Hl);
    try done; [apply Hs..|lia|lia|by intros k; apply Hsaved|]. exists e1. by eapply loading_more.
Qed.
Lemma line_load_one flds off i env w r o :
  loading flds off i env -> ws !! i = Some w -> insn_of w = Some ("LDOrb", single r o) -> 0 < r < 64 ->
  0 <= o /\ o + 8 <= jmp_buf_size -> (RB, r, 1%nat, o) ∈ jmp_buf_fields ->
  field_regs_apart RB r 1 (always_set ++ pointers ++ concat (map field_regs flds))%list ->
  Forall (fun x => x ∉ always_set) (pointers ++ concat (map field_regs flds))%list ->
  exists env1, loading (flds ++ [(RB, r, 1%nat, o)]) off (S i) env1.
Proof.
  intros Hs Hi Hw Hr0 (H4 & H5) Hin Hb Hr. destruct (loading_line _ _ _ _ _ Hs Hi) as (Hp & Hf & Hm & Hpc).
  destruct (restore_one r buf o w env mem (fun k => v RB (r + Z.of_nat k))) as (e1 & R1 & Hl);
    try done; [apply Hs|lia|lia|by intros k; apply Hsaved|]. exists e1. by eapply loading_more.
Qed.
Lemma line_load_addi flds off i env w imm :
  loading flds off i env -> ws !! i = Some w -> insn_of w = Some ("ADDIrd", Args 16 16 0 0 0 0 0 0 0 imm 0 0) ->
  0 <= off + imm < 2^64 -> Forall (fun x => x ∉ (always_set ++ [(RD, 16)])%list) (concat (map field_regs flds)) ->
  exists env1, loading flds (off + imm) (S i) env1.
Proof.
  intros Hs Hi Hw Hr Hap. destruct (loading_line _ _ _ _ _ Hs Hi) as (Hp & Hf & Hm & Hpc).
  destruct (reach_addi imm w env mem off) as (e1 & R1 & Hv); try done; [apply Hs|].
  destruct Hs as [R Hb Ho Hsv]. exists e1. rewrite Hp in R1. split; try done.
  - replace (base + 4 * Z.of_nat (S i)) with (base + 4 * Z.of_nat i + 4) by lia.
    eapply reaches_weaken; [exact (reaches_trans _ _ _ _ _ _ _ _ _ _ _ _ _ _ _ _ R R1)|].
    intros x Hx. apply elem_of_app in Hx as [Hx|Hx]; [done|]. apply list_elem_of_singleton in Hx as ->. right; left.
  - rewrite (ef_reg _ _ _ _ (rc_effect _ _ _ _ _ _ _ _ _ _ _ _ R1)); [done|]. unfold always_set.
    apply (bool_decide_unpack _). done.
  - intros f r n o k Hin Hk. rewrite <- (Hsv f r n o k) by done.
    apply (ef_reg _ _ _ _ (rc_effect _ _ _ _ _ _ _ _ _ _ _ _ R1)). rewrite Forall_forall in Hap. apply Hap.
    by eapply in_field_regs.
Qed.
End Load.

(** *** The words of both *)
Definition addi16 (imm : Z) : string * args := ("ADDIrd", Args 16 16 0 0 0 0 0 0 0 imm 0 0).
Definition start_insns : list (string * args) :=
  [("RD2RB", Args 0 8 16 0 0 1 0 0 0 0 0 0); ("SETZWrd", Args 16 0 0 0 0 0 0 0 0 0 0 0)].
Definition setjmp_insns : list (string * args) :=
  (start_insns ++ [("STOrb", single 1 0); ("STOrb", single 2 8); addi16 16; ("STMOrd", many 32 32); addi16 256;
   ("STMOrb", many 32 32); addi16 256; ("STMOrf", many 32 32); addi16 256; ("STMOra", many 1 63); addi16 512;
   ("RET", Args 31 0 0 0 0 0 0 0 0 0 0 0)])%list.
Definition longjmp_insns : list (string * args) :=
  (start_insns ++ [("LDOrb", single 1 0); ("LDOrb", single 2 8); addi16 16; ("LDMOrd", many 32 32); addi16 256;
   ("LDMOrb", many 32 32); addi16 256; ("LDMOrf", many 32 32); addi16 256; ("LDMOra", many 1 63); addi16 512;
   ("SETZWrd", Args 31 0 0 0 0 0 0 1 0 0 0 0); ("CSNE", Args 17 0 31 17 0 0 0 0 0 0 0 0);
   ("RET", Args 0 0 0 0 0 0 0 0 0 0 0 0)])%list.
Definition insns_of (code : list asm_line) : option (list (option (string * args))) :=
  ws ← assemble_all [] code; Some (map insn_of ws).
Lemma setjmp_assembles : insns_of setjmp = Some (map Some setjmp_insns).
Proof. vm_compute. reflexivity. Qed.
Lemma longjmp_assembles : insns_of longjmp = Some (map Some longjmp_insns).
Proof. vm_compute. reflexivity. Qed.
Lemma insn_at code insns ws : insns_of code = Some (map Some insns) -> assemble_all [] code = Some ws ->
  length ws = length insns /\ forall i x, insns !! i = Some x -> exists w, ws !! i = Some w /\ insn_of w = Some x.
Proof.
  unfold insns_of. intros Hc Hws. rewrite Hws in Hc. cbn in Hc. injection Hc as Hc. split.
  - rewrite <- (length_map insn_of), Hc. apply length_map.
  - intros i x Hi. assert (H1 : map insn_of ws !! i = Some (Some x)) by (rewrite Hc, list_lookup_fmap, Hi; done).
    apply list_lookup_fmap_Some in H1 as (w & Hx & Hw). by exists w.
Qed.

Ltac jump_side :=
  match goal with
  | |- Forall (field_below _) _ => repeat (apply Forall_cons_2; [cbn; lia|]); apply Forall_nil_2
  | |- Forall _ _ => apply (bool_decide_unpack _); vm_compute; exact I
  | |- field_regs_apart _ _ _ _ => unfold field_regs_apart; apply (bool_decide_unpack _); vm_compute; exact I
  | |- _ ∈ _ => apply (bool_decide_unpack _); vm_compute; exact I
  | |- _ => split_and?; first [lia | vm_compute; congruence]
  end.
Lemma setjmp_saves base buf ws env0 mem0 :
  (forall o n, 0 <= o -> o mod 8 = 0 -> o + 8 * Z.of_nat n <= jmp_buf_size -> octas_free writable (buf + o) n) ->
  (forall m, stored B buf (buf + jmp_buf_size) mem0 m -> code_at fetch base ws m) ->
  base + 4 * Z.of_nat (length ws) < 2^64 ->
  assemble_all [] setjmp = Some ws -> machine_ok env0 -> REG_PC env0 = base -> reg RD 16 env0 = buf ->
  exists env mem, saving base buf env0 mem0 jmp_buf_fields 1296 13 env mem.
Proof.
  intros Hfree Hcode Hend Hws Hm <- Hb. destruct (insn_at _ _ _ setjmp_assembles Hws) as [Hlen Hin].
  cbn in Hlen. rewrite Hlen in Hend.
  destruct (Hin 0%nat _ eq_refl) as (w0 & Hi0 & Hw0), (Hin 1%nat _ eq_refl) as (w1 & Hi1 & Hw1).
  pose proof (Hcode _ (rtc_refl _ _)) as Hc.
  destruct (reach_start w0 w1 env0 mem0 Hw0 Hw1) as (e & R & Hb1 & Ho1); [|by apply (Hc 1%nat)|done|lia|].
  { rewrite <- (Hc 0%nat _ Hi0). f_equal. lia. }
  assert (S2 : saving (REG_PC env0) buf env0 mem0 [] 0 2 e mem0).
  { split; [exact R|by rewrite Hb1|done|apply rtc_refl|]. intros f r n o k Hf. by apply elem_of_nil in Hf. }
  pose proof (line_save_one _ _ ws env0 mem0 Hfree Hcode ltac:(rewrite Hlen; lia)) as one.
  pose proof (line_save_many _ _ ws env0 mem0 Hfree Hcode ltac:(rewrite Hlen; lia)) as many_.
  pose proof (line_save_addi _ _ ws env0 mem0 Hcode ltac:(rewrite Hlen; lia)) as addi_.
  destruct (Hin 2%nat _ eq_refl) as (w2 & Hi2 & Hw2), (Hin 3%nat _ eq_refl) as (w3 & Hi3 & Hw3),
    (Hin 4%nat _ eq_refl) as (w4 & Hi4 & Hw4), (Hin 5%nat _ eq_refl) as (w5 & Hi5 & Hw5),
    (Hin 6%nat _ eq_refl) as (w6 & Hi6 & Hw6), (Hin 7%nat _ eq_refl) as (w7 & Hi7 & Hw7),
    (Hin 8%nat _ eq_refl) as (w8 & Hi8 & Hw8), (Hin 9%nat _ eq_refl) as (w9 & Hi9 & Hw9),
    (Hin 10%nat _ eq_refl) as (w10 & Hi10 & Hw10), (Hin 11%nat _ eq_refl) as (w11 & Hi11 & Hw11),
    (Hin 12%nat _ eq_refl) as (w12 & Hi12 & Hw12).
  destruct (one _ _ _ _ _ _ _ _ S2 Hi2 Hw2) as (e3 & m3 & S3); [jump_side..|].
  destruct (one _ _ _ _ _ _ _ _ S3 Hi3 Hw3) as (e4 & m4 & S4); [jump_side..|].
  destruct (addi_ _ _ _ _ _ _ _ S4 Hi4 Hw4) as (e5 & S5); [jump_side|].
  destruct (many_ _ _ _ _ _ _ RD _ 32 32%nat S5 Hi5 Hw5) as (e6 & m6 & S6); [jump_side..|].
  destruct (addi_ _ _ _ _ _ _ _ S6 Hi6 Hw6) as (e7 & S7); [jump_side|].
  destruct (many_ _ _ _ _ _ _ RB _ 32 32%nat S7 Hi7 Hw7) as (e8 & m8 & S8); [jump_side..|].
  destruct (addi_ _ _ _ _ _ _ _ S8 Hi8 Hw8) as (e9 & S9); [jump_side|].
  destruct (many_ _ _ _ _ _ _ RF _ 32 32%nat S9 Hi9 Hw9) as (e10 & m10 & S10); [jump_side..|].
  destruct (addi_ _ _ _ _ _ _ _ S10 Hi10 Hw10) as (e11 & S11); [jump_side|].
  destruct (many_ _ _ _ _ _ _ RA _ 1 63%nat S11 Hi11 Hw11) as (e12 & m12 & S12); [jump_side..|].
  destruct (addi_ _ _ _ _ _ _ _ S12 Hi12 Hw12) as (e13 & S13); [jump_side|].
  exists e13, m12. exact S13.
Qed.
Lemma longjmp_loads base buf ws env0 mem v :
  0 <= buf /\ buf + jmp_buf_size <= 2^64 -> octas_hold buf jmp_buf_fields v mem -> code_at fetch base ws mem ->
  base + 4 * Z.of_nat (length ws) < 2^64 ->
  assemble_all [] longjmp = Some ws -> machine_ok env0 -> REG_PC env0 = base -> reg RD 16 env0 = buf ->
  exists env, loading base buf env0 mem v jmp_buf_fields 1296 13 env.
Proof.
  intros Hbuf Hsaved Hc Hend Hws Hm <- Hb. destruct (insn_at _ _ _ longjmp_assembles Hws) as [Hlen Hin].
  cbn in Hlen. rewrite Hlen in Hend.
  destruct (Hin 0%nat _ eq_refl) as (w0 & Hi0 & Hw0), (Hin 1%nat _ eq_refl) as (w1 & Hi1 & Hw1).
  destruct (reach_start w0 w1 env0 mem Hw0 Hw1) as (e & R & Hb1 & Ho1); [|by apply (Hc 1%nat)|done|lia|].
  { rewrite <- (Hc 0%nat _ Hi0). f_equal. lia. }
  assert (S2 : loading (REG_PC env0) buf env0 mem v [] 0 2 e).
  { split; [exact R|by rewrite Hb1|done|]. intros f r n o k Hf. by apply elem_of_nil in Hf. }
  pose proof (line_load_one _ _ ws env0 mem v Hbuf Hsaved Hc ltac:(rewrite Hlen; lia)) as one.
  pose proof (line_load_many _ _ ws env0 mem v Hbuf Hsaved Hc ltac:(rewrite Hlen; lia)) as many_.
  pose proof (line_load_addi _ buf ws env0 mem v Hc ltac:(rewrite Hlen; lia)) as addi_.
  destruct (Hin 2%nat _ eq_refl) as (w2 & Hi2 & Hw2), (Hin 3%nat _ eq_refl) as (w3 & Hi3 & Hw3),
    (Hin 4%nat _ eq_refl) as (w4 & Hi4 & Hw4), (Hin 5%nat _ eq_refl) as (w5 & Hi5 & Hw5),
    (Hin 6%nat _ eq_refl) as (w6 & Hi6 & Hw6), (Hin 7%nat _ eq_refl) as (w7 & Hi7 & Hw7),
    (Hin 8%nat _ eq_refl) as (w8 & Hi8 & Hw8), (Hin 9%nat _ eq_refl) as (w9 & Hi9 & Hw9),
    (Hin 10%nat _ eq_refl) as (w10 & Hi10 & Hw10), (Hin 11%nat _ eq_refl) as (w11 & Hi11 & Hw11),
    (Hin 12%nat _ eq_refl) as (w12 & Hi12 & Hw12).
  destruct (one _ _ _ _ _ _ _ S2 Hi2 Hw2) as (e3 & S3); [jump_side..|].
  destruct (one _ _ _ _ _ _ _ S3 Hi3 Hw3) as (e4 & S4); [jump_side..|].
  destruct (addi_ _ _ _ _ _ _ S4 Hi4 Hw4) as (e5 & S5); [jump_side..|].
  destruct (many_ _ _ _ _ _ RD _ 32 32%nat S5 Hi5 Hw5) as (e6 & S6); [jump_side..|].
  destruct (addi_ _ _ _ _ _ _ S6 Hi6 Hw6) as (e7 & S7); [jump_side..|].
  destruct (many_ _ _ _ _ _ RB _ 32 32%nat S7 Hi7 Hw7) as (e8 & S8); [jump_side..|].
  destruct (addi_ _ _ _ _ _ _ S8 Hi8 Hw8) as (e9 & S9); [jump_side..|].
  destruct (many_ _ _ _ _ _ RF _ 32 32%nat S9 Hi9 Hw9) as (e10 & S10); [jump_side..|].
  destruct (addi_ _ _ _ _ _ _ S10 Hi10 Hw10) as (e11 & S11); [jump_side..|].
  destruct (many_ _ _ _ _ _ RA _ 1 63%nat S11 Hi11 Hw11) as (e12 & S12); [jump_side..|].
  destruct (addi_ _ _ _ _ _ _ S12 Hi12 Hw12) as (e13 & S13); [jump_side..|].
  exists e13. exact S13.
Qed.

(** rd31 := rd17, or 1 for 0. *)
Definition jump_value (v : Z) : Z := if v =? 0 then 1 else v.
Lemma reach_value w1 w2 env mem :
  insn_of w1 = Some ("SETZWrd", Args 31 0 0 0 0 0 0 1 0 0 0 0) ->
  insn_of w2 = Some ("CSNE", Args 17 0 31 17 0 0 0 0 0 0 0 0) ->
  fetch mem (REG_PC env) = Some w1 -> fetch mem (REG_PC env + 4) = Some w2 ->
  machine_ok env -> REG_PC env + 8 < 2^64 ->
  exists env1, reaches_ env mem (REG_PC env + 8) [(RD, 31)] env1 mem /\ reg RD 31 env1 = jump_value (reg RD 17 env).
Proof.
  intros Hw1 Hw2 Hf1 Hf2 Hm Hpc.
  destruct (reach_write B L helper V disas Hdisas goto_tb H fetch "SETZWrd" _ w1 _ RD 31 1 env mem eq_refl Hw1 Hf1 Hm)
    as (e1 & R1 & Hv1); [lia|done..|lia|].
  assert (Hp1 : REG_PC e1 = REG_PC env + 4) by apply R1.
  assert (H17 : reg RD 17 e1 = reg RD 17 env).
  { apply (ef_reg _ _ _ _ (rc_effect _ _ _ _ _ _ _ _ _ _ _ _ R1)). apply (bool_decide_unpack _). done. }
  assert (Hm1 : machine_ok e1) by apply R1.
  assert (Hz : reg RD 0 (prologue e1) = 0).
  { apply (ready_prologue no_args e1); [unfold fields_ok; cbn; lia|apply Hm1..]. }
  destruct (reach_write B L helper V disas Hdisas goto_tb H fetch "CSNE" _ w2 _ RD 31 (jump_value (reg RD 17 env)) e1 mem
    eq_refl Hw2) as (e2 & R2 & Hv2); [by rewrite Hp1|done|rewrite Hp1; lia|done| |lia|].
  { cbn [isa_spec]. unfold spec_cset2, write. cbn [ha hb hc hd Z.eqb]. rewrite Hz, !reg_prologue, H17, Hv1 by done.
    unfold jump_value. by destruct (reg RD 17 env =? 0). }
  exists e2. rewrite Hp1 in R2. split; [|done]. replace (REG_PC env + 8) with (REG_PC env + 4 + 4) by lia.
  eapply reaches_weaken; [exact (reaches_trans _ _ _ _ _ _ _ _ _ _ _ _ _ _ _ _ R1 R2)|].
  intros x Hx. cbn [app] in Hx. rewrite !elem_of_cons, elem_of_nil in *. tauto.
Qed.

Lemma fields_apart (f : regfile) (r : Z) n o k : (f, r, n, o) ∈ jmp_buf_fields -> (k < n)%nat ->
  (f, r + Z.of_nat k) ∉ (always_set ++ pointers ++ [(RD, 31)])%list /\ f <> RA \/ f = RA /\ 0 < r + Z.of_nat k < 64.
Proof.
  intros Hin Hk.
  assert (Hall : Forall (fun x => x ∉ (always_set ++ pointers ++ [(RD, 31)])%list) (concat (map field_regs jmp_buf_fields)))
    by (apply (bool_decide_unpack _); vm_compute; done).
  rewrite Forall_forall in Hall. specialize (Hall _ (in_field_regs _ _ _ _ _ _ Hin Hk)).
  destruct (decide (f = RA)) as [->|]; [right|by left]. split; [done|]. unfold jmp_buf_fields in Hin.
  rewrite !elem_of_cons, elem_of_nil in Hin. destruct Hin as [[=]|[[=]|[[=]|[[=]|[[=]|[[= -> -> ->]|[]]]]]]]; lia.
Qed.
Lemma saved_stays buf v mem1 mem2 : octas_hold buf jmp_buf_fields v mem1 ->
  (forall j, 0 <= j < 162 -> octa_at (buf + 8 * j) mem2 = octa_at (buf + 8 * j) mem1) ->
  octas_hold buf jmp_buf_fields v mem2.
Proof.
  intros Hs Hm f r n o k Hin Hk. rewrite <- (Hs _ _ _ _ _ Hin Hk).
  assert (Ho : exists q, o = 8 * q /\ 0 <= q + Z.of_nat k < 162).
  { unfold jmp_buf_fields in Hin. rewrite !elem_of_cons, elem_of_nil in Hin.
    destruct Hin as [[= -> -> -> ->]|[[= -> -> -> ->]|[[= -> -> -> ->]|[[= -> -> -> ->]|[[= -> -> -> ->]|[[= -> -> -> ->]|[]]]]]]];
      [exists 0|exists 1|exists 2|exists 34|exists 66|exists 98]; lia. }
  destruct Ho as (q & -> & Hq). replace (buf + 8 * q + 8 * Z.of_nat k) with (buf + 8 * (q + Z.of_nat k)) by lia. by apply Hm.
Qed.

(** The jmp_buf can be written, and does not overlap the spilled part of the return stack. *)
Record jmp_buf_ok (buf : Z) (k : nat) (env : CPUDADAOState) (stk : list Z) : Prop := JmpBufOk {
  jb_range : 0 <= buf /\ buf + jmp_buf_size <= 2^64;
  jb_free : forall j, 0 <= j < 162 -> writable (buf + 8 * j);
  jb_apart : reg RA 0 env + 8 * Z.of_nat (length stk - k) <= buf \/ buf + jmp_buf_size <= reg RA 0 env;
  jb_top : reg RA 0 env + 8 < 2^64 }.
Lemma jmp_buf_octas buf k env stk o n : jmp_buf_ok buf k env stk ->
  0 <= o -> o mod 8 = 0 -> o + 8 * Z.of_nat n <= jmp_buf_size -> octas_free writable (buf + o) n.
Proof.
  intros [[H1 H2] Hw _ _] Ho Hm Hn. unfold jmp_buf_size in *. split; [lia|]. split; [lia|]. intros j Hj.
  apply Z.mod_divide in Hm as [q ->]; [|done]. replace (buf + q * 8 + 8 * Z.of_nat j) with (buf + 8 * (q + Z.of_nat j)) by lia.
  apply Hw. lia.
Qed.
Lemma setjmp_returns ws buf k ra stk env mem :
  jmp_buf_ok buf k env (ra :: stk) -> assemble_all [] setjmp = Some ws ->
  (forall m, stored B buf (buf + jmp_buf_size) mem m -> code_at fetch (REG_PC env) ws m) ->
  machine_ok env -> reg RD 16 env = buf -> REG_PC env + 4 * Z.of_nat (length ws) < 2^64 ->
  holds B k env mem (ra :: stk) ->
  exists env1 mem1 k1, emulates (Running env mem) (Running env1 mem1) /\ machine_ok env1 /\ REG_PC env1 = ra /\ reg RD 31 env1 = 0 /\
    holds B k1 env1 mem1 stk /\ stored B buf (buf + jmp_buf_size) mem mem1 /\
    octas_hold buf jmp_buf_fields (fun f j => reg f j env) mem1 /\
    forall g j, g <> RA -> (g, j) ∉ (always_set ++ pointers ++ [(RD, 31)])%list -> reg g j env1 = reg g j env.
Proof.
  intros Hjb Hws Hcode Hm Hb Hpc Hh.
  destruct (setjmp_saves (REG_PC env) buf ws env mem) as (e & m & S); try done.
  { intros o n. by apply (jmp_buf_octas buf k env (ra :: stk)). }
  destruct (insn_at _ _ _ setjmp_assembles Hws) as [Hlen Hin]. destruct (Hin 13%nat _ eq_refl) as (w & Hi & Hw).
  destruct (saving_line _ _ ws env mem Hcode Hpc _ _ _ _ _ _ S Hi) as (Hp & Hf & Hme & _).
  destruct S as [R Hb8 _ Hst Hsv]. pose proof (rc_effect _ _ _ _ _ _ _ _ _ _ _ _ R) as [_ Heff].
  assert (Hra : forall j, 0 <= j < 64 -> reg RA j e = reg RA j env).
  { intros j _. apply Heff. unfold always_set, pointers. cbn [app]. rewrite !elem_of_cons, elem_of_nil. naive_solver. }
  destruct Hjb as [[H1 H2] _ Hap Htop].
  destruct (reach_ret 31 0 w k e m ra stk Hw Hf Hme) as (e1 & k1 & Hs & Hm1 & Hpc1 & Hh1 & H31 & Hk1); [lia| |by rewrite Hra|].
  { eapply (holds_transfer B k env e mem m); [apply Hme|done| |done]. intros i v Hv. apply lookup_lt_Some in Hv.
    destruct Hh as [_ _ _ _ _ Hsp _]. eapply stored_same; [exact A|exact Hst|lia..]. }
  exists e1, m, k1. split; [etransitivity; [apply R|exact Hs]|]. split; [done|]. split; [done|]. split; [by apply H31|].
  split; [done|]. split; [done|]. split; [done|]. intros g j Hg Hgj. rewrite !not_elem_of_app in Hgj.
  rewrite Hk1; [apply Heff; rewrite not_elem_of_app; tauto|done|rewrite not_elem_of_app; tauto].
Qed.
Lemma longjmp_returns ws buf k ra stk env mem env2 mem2 :
  jmp_buf_ok buf k env (ra :: stk) -> assemble_all [] longjmp = Some ws -> code_at fetch (REG_PC env2) ws mem2 ->
  machine_ok env2 -> reg RD 16 env2 = buf -> REG_PC env2 + 4 * Z.of_nat (length ws) < 2^64 ->
  holds B k env mem (ra :: stk) -> octas_hold buf jmp_buf_fields (fun f j => reg f j env) mem2 ->
  reg RA 0 env2 = reg RA 0 env ->
  (forall i v, (ra :: stk) !! (k + i)%nat = Some v -> octa_at (reg RA 0 env + 8 * Z.of_nat i) mem2 = Some v) ->
  exists env3 k3, emulates (Running env2 mem2) (Running env3 mem2) /\ machine_ok env3 /\ REG_PC env3 = ra /\
    reg RD 31 env3 = jump_value (reg RD 17 env2) /\ holds B k3 env3 mem2 stk /\
    forall f r n o j, (f, r, n, o) ∈ jmp_buf_fields -> f <> RA -> (j < n)%nat ->
      reg f (r + Z.of_nat j) env3 = reg f (r + Z.of_nat j) env.
Proof.
  intros Hjb Hws Hc Hm Hb Hpc Hh Hsv H0 Hspill. destruct (insn_at _ _ _ longjmp_assembles Hws) as [Hlen Hin].
  destruct (longjmp_loads (REG_PC env2) buf ws env2 mem2 (fun f j => reg f j env) (jb_range _ _ _ _ Hjb) Hsv Hc Hpc Hws Hm eq_refl Hb)
    as (e & [R _ _ Hregs]).
  cbn in Hlen. rewrite Hlen in Hpc. assert (Hp : REG_PC e = REG_PC env2 + 4 * Z.of_nat 13) by apply R.
  destruct (Hin 13%nat _ eq_refl) as (w13 & Hi13 & Hw13), (Hin 14%nat _ eq_refl) as (w14 & Hi14 & Hw14),
    (Hin 15%nat _ eq_refl) as (w15 & Hi15 & Hw15).
  destruct (reach_value w13 w14 e mem2 Hw13 Hw14) as (e1 & R1 & Hv1);
    [rewrite Hp; by apply (Hc 13%nat)|rewrite Hp, <- (Hc 14%nat _ Hi14); f_equal; lia|apply R|lia|].
  pose proof (rc_effect _ _ _ _ _ _ _ _ _ _ _ _ R) as [_ Heff]. pose proof (rc_effect _ _ _ _ _ _ _ _ _ _ _ _ R1) as [Hp1 Heff1].
  assert (Hra : forall j, 0 <= j < 64 -> reg RA j e1 = reg RA j env).
  { intros j Hj. rewrite Heff1 by (unfold always_set; cbn [app]; rewrite !elem_of_cons, elem_of_nil; naive_solver).
    destruct (decide (j = 0)) as [->|].
    - rewrite <- H0. apply Heff. apply (bool_decide_unpack _). vm_compute. done.
    - replace j with (1 + Z.of_nat (Z.to_nat (j - 1))) by lia. apply (Hregs RA 1 63%nat 784); [|lia].
      apply (bool_decide_unpack _). done. }
  destruct (reach_ret 0 0 w15 k e1 mem2 ra stk Hw15) as (e2 & k2 & Hs & Hm2 & Hpc2 & Hh2 & _ & Hk2);
    [rewrite Hp1, Hp, <- (Hc 15%nat _ Hi15); f_equal; lia|apply R1|lia| |rewrite Hra by lia; apply Hjb|].
  { eapply (holds_transfer B k env e1 mem mem2); [apply R1|done| |done]. intros i v Hv.
    rewrite (Hspill _ _ Hv). symmetry. by apply (h_mem _ _ _ _ _ Hh). }
  exists e2, k2. split; [etransitivity; [apply R|]; etransitivity; [apply R1|exact Hs]|]. split; [done|]. split; [done|]. split; [|split; [done|]].
  - rewrite Hk2, Hv1 by (done || (apply (bool_decide_unpack _); done)). f_equal. apply Heff.
    apply (bool_decide_unpack _). vm_compute. done.
  - intros f r n o j Hf Hfr Hj. destruct (fields_apart _ _ _ _ _ Hf Hj) as [[Hn _]|[? _]]; [|done].
    rewrite !not_elem_of_app in Hn. rewrite Hk2; [|done|].
    2: { rewrite not_elem_of_app. split; [tauto|]. intros [= -> Hr]%list_elem_of_singleton. rewrite Hr in Hn. destruct Hn as [Hn _]. apply Hn. left. }
    rewrite Heff1 by (rewrite not_elem_of_app; tauto). by apply (Hregs _ _ n o).
Qed.

(** C40: longjmp undoes what happened since setjmp.  setjmp, called with the
    return stack [ra :: stk] and a jmp_buf apart from it, returns 0 to [ra],
    writes nothing but the jmp_buf, and changes no register but rb8, rd16 and
    rd31.  From any later state in which the jmp_buf is unchanged and the
    spilled return addresses and their pointer ra0 are as they were, a call
    of longjmp on it comes to [ra] again, with [stk] on the return stack,
    rb1, rb2, rd32 to rd63, rb32 to rb63 and rf32 to rf63 as setjmp found
    them, and its second argument in rd31, or 1 for 0. *)
Theorem setjmp_longjmp ws1 ws2 buf k ra stk env mem :
  jmp_buf_ok buf k env (ra :: stk) -> assemble_all [] setjmp = Some ws1 -> assemble_all [] longjmp = Some ws2 ->
  (forall m, stored B buf (buf + jmp_buf_size) mem m -> code_at fetch (REG_PC env) ws1 m) ->
  machine_ok env -> reg RD 16 env = buf -> REG_PC env + 4 * Z.of_nat (length ws1) < 2^64 ->
  holds B k env mem (ra :: stk) ->
  exists env1 mem1 k1, emulates (Running env mem) (Running env1 mem1) /\ machine_ok env1 /\ REG_PC env1 = ra /\ reg RD 31 env1 = 0 /\
    holds B k1 env1 mem1 stk /\ stored B buf (buf + jmp_buf_size) mem mem1 /\
    (forall g j, g <> RA -> (g, j) ∉ (always_set ++ pointers ++ [(RD, 31)])%list -> reg g j env1 = reg g j env) /\
    forall env2 mem2,
      (forall j, 0 <= j < 162 -> octa_at (buf + 8 * j) mem2 = octa_at (buf + 8 * j) mem1) ->
      reg RA 0 env2 = reg RA 0 env ->
      (forall i v, (ra :: stk) !! (k + i)%nat = Some v -> octa_at (reg RA 0 env + 8 * Z.of_nat i) mem2 = Some v) ->
      machine_ok env2 -> reg RD 16 env2 = buf -> code_at fetch (REG_PC env2) ws2 mem2 ->
      REG_PC env2 + 4 * Z.of_nat (length ws2) < 2^64 ->
      exists env3 k3, emulates (Running env2 mem2) (Running env3 mem2) /\ machine_ok env3 /\ REG_PC env3 = ra /\
        reg RD 31 env3 = jump_value (reg RD 17 env2) /\ holds B k3 env3 mem2 stk /\
        forall f r n o j, (f, r, n, o) ∈ jmp_buf_fields -> f <> RA -> (j < n)%nat ->
          reg f (r + Z.of_nat j) env3 = reg f (r + Z.of_nat j) env.
Proof.
  intros Hjb Hws1 Hws2 Hcode Hm Hb Hpc Hh.
  destruct (setjmp_returns ws1 buf k ra stk env mem Hjb Hws1 Hcode Hm Hb Hpc Hh)
    as (e1 & m1 & k1 & Hs & Hm1 & Hp1 & H31 & Hh1 & Hst & Hsv & Hk).
  exists e1, m1, k1. do 7 (split; [done|]). intros env2 mem2 Hbuf H0 Hspill Hm2 Hb2 Hc2 Hpc2.
  eapply (longjmp_returns ws2 buf k ra stk env mem env2 mem2); try done. by eapply saved_stays.
Qed.
End Jump.

(** ** The heap *)
Section Heap.
Context {K : Type} (sys : Z -> list Z -> K -> Z * K) (break : K -> Z) (start limit : Z).
(** The kernel's brk: the break is moved to an address from [start] to
    [limit]; the answer is the break, moved or not. *)
Record brk_law : Prop := BrkLaw {
  bl_grant : forall a k, start <= a <= limit -> fst (sys 214 [a] k) = a /\ break (snd (sys 214 [a] k)) = a;
  bl_refuse : forall a k, ~ start <= a <= limit ->
    fst (sys 214 [a] k) = break k /\ break (snd (sys 214 [a] k)) = break k }.
Hypothesis Hbrk : brk_law.
Hypothesis Hrange : 0 < start /\ limit < 2^31.
(** _Sbrk_high is the break from the first call on. *)
Definition heap_ok (s : c_state K) : Prop :=
  start <= break (kernel s) <= limit /\ (_Sbrk_high s = 0 \/ _Sbrk_high s = break (kernel s)).
Definition moved_break (a b : Z) : Z := if (start <=? a) && (a <=? limit) then a else b.
Lemma brk_moves a s : start <= break (kernel s) <= limit ->
  fst (brk sys a s) = moved_break a (break (kernel s)) /\
  break (kernel (snd (brk sys a s))) = moved_break a (break (kernel s)).
Proof.
  intros Hb. assert (Hid : forall v, 0 < v < 2^31 -> w64 (s32 v) = v).
  { intros v Hv. unfold s32, sext. replace (Z.testbit v (32 - 1)) with false; [unfold w64; by rewrite !(Z.mod_small v) by lia|].
    symmetry. apply Z.testbit_false; [lia|]. rewrite Z.div_small; [done|]. change (2 ^ (32 - 1)) with (2^31). lia. }
  unfold brk, int_call, syscall, c_bind, c_ret, moved_break. destruct (sys 214 [a] (kernel s)) as [v k] eqn:E. cbn.
  destruct (decide (start <= a <= limit)) as [Ha|Ha].
  - destruct (bl_grant Hbrk a (kernel s) Ha) as [H1 H2]. rewrite E in H1, H2. cbn in H1, H2.
    rewrite (proj2 (Z.leb_le _ _)), (proj2 (Z.leb_le a _)), H1, H2, Hid by lia. done.
  - destruct (bl_refuse Hbrk a (kernel s) Ha) as [H1 H2]. rewrite E in H1, H2. cbn in H1, H2.
    rewrite H1, H2, Hid by lia. destruct (Z.leb_spec start a), (Z.leb_spec a limit); done || lia.
Qed.

(** _sbrk with a break that is known. *)
Definition sbrk_grow (incr : Z) (s : c_state K) : Z * c_state K :=
  let '(v, s1) := brk sys (w64 (_Sbrk_high s + incr)) (CState (errno s) (w64 (_Sbrk_high s + incr)) (kernel s)) in
  (_Sbrk_high s, CState (errno s1) v (kernel s1)).
Definition sbrk_start (s : c_state K) : c_state K :=
  if _Sbrk_high s =? 0 then let '(v, s1) := brk sys (_Sbrk_high s) s in CState (errno s1) v (kernel s1) else s.
Lemma sbrk_parts incr s : _sbrk sys incr s = sbrk_grow incr (sbrk_start s).
Proof.
  unfold _sbrk, sbrk_grow, sbrk_start, c_bind, get_high, set_high, c_ret. destruct (_Sbrk_high s =? 0); [|done].
  by destruct (brk sys (_Sbrk_high s) s).
Qed.
Lemma start_ok s : heap_ok s ->
  break (kernel (sbrk_start s)) = break (kernel s) /\ _Sbrk_high (sbrk_start s) = break (kernel s).
Proof.
  intros [Hb Hh]. unfold sbrk_start. destruct (Z.eqb_spec (_Sbrk_high s) 0) as [E|E]; [|by destruct Hh].
  destruct (brk_moves (_Sbrk_high s) s Hb) as [E1 E2]. rewrite E in *. unfold moved_break in E1, E2.
  rewrite (proj2 (Z.leb_gt start 0)) in E1, E2 by lia. by destruct (brk sys 0 s).
Qed.
(** _sbrk returns the break and moves it by [incr] where the kernel allows
    it; a refused request returns the break as well. *)
Lemma sbrk_spec incr s : heap_ok s ->
  let b := break (kernel s) in
  fst (_sbrk sys incr s) = b /\ break (kernel (snd (_sbrk sys incr s))) = moved_break (w64 (b + incr)) b /\
  heap_ok (snd (_sbrk sys incr s)).
Proof.
  intros Hs b. rewrite sbrk_parts. destruct (start_ok s Hs) as [H1 H2]. destruct Hs as [Hb _].
  unfold sbrk_grow. rewrite H2. fold b.
  destruct (brk_moves (w64 (b + incr)) (CState (errno (sbrk_start s)) (w64 (b + incr)) (kernel (sbrk_start s)))) as [E1 E2];
    [cbn; by rewrite H1|]. cbn [kernel] in E1, E2. rewrite H1 in E1, E2. fold b in E1, E2.
  destruct (brk _ _ _) as [v s1]. cbn in *. split; [done|]. split; [done|]. split; cbn; [|right; congruence].
  rewrite E2. unfold moved_break. destruct (Z.leb_spec start (w64 (b + incr))), (Z.leb_spec (w64 (b + incr)) limit); cbn; lia.
Qed.
(** Requests one after the other. *)
Fixpoint sbrks (incrs : list Z) (s : c_state K) : list Z * c_state K :=
  match incrs with
  | [] => ([], s)
  | i :: incrs => let '(a, s) := _sbrk sys i s in let '(l, s) := sbrks incrs s in (a :: l, s)
  end.
Fixpoint blocks (b : Z) (incrs : list Z) : list Z :=
  match incrs with [] => [] | i :: incrs => b :: blocks (b + i) incrs end.
(** While the kernel has room, the blocks of successive requests are adjacent
    from the first break up to the last. *)
Lemma sbrk_adjacent incrs : forall s, heap_ok s -> Forall (fun i => 0 <= i) incrs ->
  break (kernel s) + foldr Z.add 0 incrs <= limit ->
  fst (sbrks incrs s) = blocks (break (kernel s)) incrs /\
  break (kernel (snd (sbrks incrs s))) = break (kernel s) + foldr Z.add 0 incrs.
Proof.
  induction incrs as [|i incrs IH]; intros s Hs Hi Hsum; cbn [sbrks blocks foldr] in *; [cbn; split; [done|lia]|].
  apply Forall_cons in Hi as [Hi0 Hi]. assert (Hf : 0 <= foldr Z.add 0 incrs) by (clear -Hi; induction Hi; cbn; lia).
  destruct (sbrk_spec i s Hs) as (H1 & H2 & H3). destruct (_sbrk sys i s) as [a s1]. cbn in H1, H2, H3.
  destruct Hs as [Hb _]. rewrite w64_id in H2 by lia. unfold moved_break in H2.
  rewrite (proj2 (Z.leb_le start _)), (proj2 (Z.leb_le _ limit)) in H2 by lia. cbn in H2.
  destruct (IH s1 H3 Hi) as [E1 E2]; [lia|]. destruct (sbrks incrs s1) as [l s2]. cbn in *. rewrite E1, H1, H2. split; [done|lia].
Qed.
End Heap.

(** ** Concrete inputs *)

(** Read-only text at 0x1000. *)
Definition text_fetch (ws : list Z) (m : bytes_mem) (pc : Z) : option Z :=
  if 0x1000 <=? pc then ws !! Z.to_nat ((pc - 0x1000) / 4) else None.
Lemma text_at pre ws rest pc m : pc = 0x1000 + 4 * Z.of_nat (length pre) ->
  code_at (text_fetch (pre ++ ws ++ rest)%list) pc ws m.
Proof.
  intros -> i w Hi. unfold text_fetch. rewrite (proj2 (Z.leb_le _ _)) by lia.
  replace (0x1000 + 4 * Z.of_nat (length pre) + 4 * Z.of_nat i - 0x1000) with (Z.of_nat (length pre + i) * 4) by lia.
  rewrite Z.div_mul, Nat2Z.id by done. rewrite lookup_app_r, Nat.add_comm, Nat.add_sub by lia. by apply lookup_app_l_Some.
Qed.
Abbreviation demo_steps ws := (emu_steps ref_host ref_backend no_helper decode_ref (fun _ => true) (text_fetch ws)).
(** write with its arguments where the caller puts them, the result to rd20;
    the kernel answers 42. *)
Definition write_words : list Z := default [] (assemble_all [20; 16; 17; 18] dadao_write_asm).
Lemma system_call_witness : exists env1 env2,
  demo_steps write_words (Running demo_env ∅) (cpu_loop_body ref_host DADAO_EXCP_TRAP env1 ∅) /\
  syscall_args env1 !! 2%nat = Some (reg RD 18 demo_env) /\
  demo_steps write_words (Running demo_env ∅) (Running env2 ∅) /\ reg RD 20 env2 = 42.
Proof.
  destruct (system_call ref_backend ref_laws no_helper ref_values decode_ref decode_ref_laws (fun _ => true) ref_host
    (text_fetch write_words) (Request dadao_write_asm 64 [] 3) 20 [16; 17; 18] write_words demo_env ∅)
    as (env1 & _ & Hm & Ha & Hs & Hr).
  - unfold requests. repeat first [left | right].
  - reflexivity.
  - lia.
  - repeat constructor; lia.
  - intros [|[|[|j]]] x Hx; cbn in Hx; try done; injection Hx as <-; cbn; lia.
  - vm_compute. reflexivity.
  - rewrite <- (app_nil_r write_words) at 1. apply (text_at []). reflexivity.
  - apply demo_ok.
  - vm_compute. reflexivity.
  - destruct (Hr 42 env1 ∅) as (env2 & H1 & H2 & _); try done.
    + rewrite <- (app_nil_r write_words) at 1. apply (text_at []). reflexivity.
    + exists env1, env2. split; [exact Hs|]. split; [apply Ha; reflexivity|]. split; [exact H1|exact H2].
Defined.

(** setjmp at 0x1000, longjmp behind it; a jmp_buf at 0x2000, the spilled
    return addresses from 0x8000, the caller at 0x3000. *)
Definition setjmp_words : list Z := default [] (assemble_all [] setjmp).
Definition longjmp_words : list Z := default [] (assemble_all [] longjmp).
Definition jump_words : list Z := (setjmp_words ++ longjmp_words)%list.
Definition caller_env : CPUDADAOState :=
  set_reg RA 63 0x3000 (set_reg RA 0 0x8000 (set_reg RD 16 0x2000 demo_env)).
(** The call of longjmp(buf, 7). *)
Definition later_env : CPUDADAOState := set_PC 0x1038 (set_reg RD 17 7 caller_env).
Lemma caller_ok : machine_ok caller_env.
Proof. unfold caller_env. do 3 (apply machine_set_reg; [|lia]). apply demo_ok. Qed.
Lemma later_ok : machine_ok later_env.
Proof. unfold later_env, set_PC. do 2 (apply machine_set_reg; [|lia]). apply caller_ok. Qed.
Lemma caller_holds : holds ref_backend 1 caller_env ∅ [0x3000].
Proof.
  split; try (cbn; lia).
  - apply caller_ok.
  - repeat constructor; lia.
  - intros [|i] Hi; [reflexivity|lia].
  - intros i Hi. do 63 (destruct i as [|i]; [lia || reflexivity|]). lia.
  - split; vm_compute; congruence.
  - by intros [].
Qed.
Lemma setjmp_longjmp_witness : exists env1 mem1 env3,
  demo_steps jump_words (Running caller_env ∅) (Running env1 mem1) /\ REG_PC env1 = 0x3000 /\ reg RD 31 env1 = 0 /\
  demo_steps jump_words (Running later_env mem1) (Running env3 mem1) /\ REG_PC env3 = 0x3000 /\ reg RD 31 env3 = 7.
Proof.
  destruct (setjmp_longjmp ref_backend ref_laws no_helper ref_values decode_ref decode_ref_laws (fun _ => true) ref_host
    (text_fetch jump_words) ref_writable ref_octa ref_apart setjmp_words longjmp_words 0x2000 1 0x3000 [] caller_env ∅)
    as (env1 & mem1 & k1 & Hs & _ & Hp & H31 & _ & _ & _ & Hl).
  - split; [unfold jmp_buf_size; lia|intros j Hj; unfold ref_writable; lia|right; vm_compute; congruence|vm_compute; reflexivity].
  - vm_compute. reflexivity.
  - vm_compute. reflexivity.
  - intros m _. apply (text_at [] setjmp_words longjmp_words). reflexivity.
  - apply caller_ok.
  - reflexivity.
  - vm_compute. reflexivity.
  - apply caller_holds.
  - destruct (Hl later_env mem1) as (env3 & k3 & Hs3 & _ & Hp3 & H3 & _).
    + done.
    + reflexivity.
    + by intros [].
    + apply later_ok.
    + reflexivity.
    + rewrite <- (app_nil_r longjmp_words) at 1. unfold jump_words. rewrite <- (app_nil_r longjmp_words) at 2.
      apply (text_at setjmp_words longjmp_words []). vm_compute. reflexivity.
    + vm_compute. reflexivity.
    + exists env1, mem1, env3. split; [exact Hs|]. split; [exact Hp|]. split; [exact H31|].
      split; [exact Hs3|]. split; [exact Hp3|exact H3].
Defined.

(** ** What the templates do not tell the compiler *)

(** No register is declared as overwritten: with the operands of open where
    the caller puts them, AT_FDCWD overwrites the name before it is read, and
    becomes the name, the flags and the mode. *)
Definition open_words : list Z := default [] (assemble_all [31; 16; 17; 18] open_asm).
Lemma open_overwrites_name : option_map (fun '(env, m) => map (fun j => reg RD j env) [16; 17; 18; 19])
    (run_words ref_backend no_helper decode_ref (fun _ => true) (take 5 open_words) 0x1000 demo_env ∅)
  = Some (repeat (w64 AT_FDCWD) 4).
Proof. vm_compute. reflexivity. Qed.

(** The kernel's error number is the result; errno stays. *)
Lemma error_is_result {K} (sys : Z -> list Z -> K -> Z * K) e file ptr len s k :
  0 < e < 4096 -> sys 64 [file; ptr; len] (kernel s) = (w64 (- e), k) ->
  let r := _write sys file ptr len s in fst r = - e /\ errno (snd r) = errno s.
Proof.
  intros He Hs. unfold _write, dadao_write, int_call, syscall, c_bind, c_ret. rewrite Hs. cbn. split; [|done].
  unfold s32, sext. assert (Hm : w64 (- e) mod 2^32 = 2^32 - e).
  { unfold w64. replace (- e) with (2^64 - e + (-1) * 2^64) by lia. rewrite Z.mod_add by lia. rewrite (Z.mod_small (2^64 - e)) by lia.
    replace (2^64 - e) with (2^32 - e + (2^32 - 1) * 2^32) by lia. rewrite Z.mod_add, Z.mod_small by lia. done. }
  replace (Z.testbit (w64 (- e)) (32 - 1)) with true; [lia|].
  rewrite <- (Z.mod_pow2_bits_low _ 32), Hm by lia. symmetry. apply Z.testbit_true; [lia|].
  replace (2^32 - e) with (2^31 - e + 1 * 2^31) by lia. change (32 - 1) with 31. rewrite Z.div_add, Z.div_small by lia. done.
Qed.

(** A break from 2^31 on comes back as another address. *)
Lemma brk_truncates {K} (sys : Z -> list Z -> K -> Z * K) s k :
  sys 214 [0] (kernel s) = (2^31, k) -> fst (brk sys 0 s) = 2^64 - 2^31.
Proof.
  intros Hs. unfold brk, int_call, syscall, c_bind, c_ret. rewrite Hs. vm_compute. reflexivity.
Qed.

(** A kernel whose state is the break. *)
Definition demo_kernel (n : Z) (xs : list Z) (k : Z) : Z * Z :=
  match xs with
  | [a] => if (n =? 214) && (0x10000 <=? a) && (a <=? 0x20000) then (a, a) else (k, k)
  | _ => (-38, k)
  end.
Lemma demo_brk_law : brk_law demo_kernel (fun k => k) 0x10000 0x20000.
Proof.
  split; intros a k Ha; cbn [demo_kernel Z.eqb Pos.eqb andb].
  - by rewrite (proj2 (Z.leb_le _ _)), (proj2 (Z.leb_le a _)) by lia.
  - destruct (Z.leb_spec 0x10000 a), (Z.leb_spec a 0x20000); done || lia.
Qed.
Lemma sbrk_demo : sbrks demo_kernel [0x100; 0x20000; 8] (CState 0 0 0x10000)
  = ([0x10000; 0x10100; 0x10100], CState 0 0x10108 0x10108).
Proof. vm_compute. reflexivity. Qed.
